(* ===== verification/_CoqProject ===== *)
-Q . S2P
Prelude.v
GoRuntime.v
Sql.v
Tables.v
Continuation.v
JobStore.v
ExecutorStore.v
ThreadRuntimeStore.v
ThreadInboxStore.v
HolderStore.v
ActivityPhaseStore.v
SessionStore.v
NodeStore.v
Recovery.v
JobLifecycle.v
JobSteps.v
NodeSteps.v
ExecutorSteps.v
RuntimeSteps.v
InboxSteps.v
PhaseSteps.v
Plane.v
Scenario.v
PlaneProperties.v
QueueProperties.v
InboxProperties.v
PhaseProperties.v
DeliveryProtocol.v
Delivery.v
DeliveryRun.v
DeliveryReceipts.v
DeliveryProperties.v
RateLimitStore.v
Classifier.v
Envelope.v
RateLimitController.v
RateLimitProperties.v
HerdProperties.v
Quota.v
QuotaProperties.v
Errors.v
GithubRetry.v
Worker.v
LeaseLoop.v
WorkerProperties.v
ExecutorLoop.v
RetryProperties.v
Breaker.v
PrHealth.v
PrStore.v
PrStoreProperties.v
PrService.v
PrServiceProperties.v
Automation.v
AutomationStore.v
AutomationRunStore.v
AutomationCompletion.v
AutomationService.v
AutomationCompleter.v
AutomationMoves.v
AutomationSteps.v
AutomationOps.v
AutomationScenario.v
AutomationProperties.v
GoStrings.v
Review.v
ReviewMarkers.v
ReviewStore.v
ReviewSteps.v
ReviewSubmit.v
ReviewSubmitSpec.v
ReviewPublish.v
ReviewLedger.v
ReviewRun.v
ReviewScenario.v
ReviewProperties.v
TurnContainer.v
SessionProperties.v
