(* ===== verification/Prelude.v ===== *)
(** * The execution plane of 143, verified

    143 runs coding agents for teams.  A durable job queue in PostgreSQL hands
    work to a fleet of worker processes; a worker may pass a session job on to
    a session executor, a process of its own; executors run one runtime per
    session thread and feed it the messages of the thread's inbox; a recovery
    loop takes work back from processes that died.  All of them talk to
    GitHub, under rate limits that are shared by every process through Redis.
    The pull requests the agents open are followed until they merge: webhooks
    and reads of GitHub are folded into one health summary, and a merge that
    was queued goes out when the summary allows it.  Automations react to pull
    request events: each pull request is a target with one conversation at a
    time, whose turns are jobs of the queue.  Code reviews assess a pull
    request from captured inputs and publish the result on GitHub once.
    This library models that core in Rocq and proves what makes it correct.

    ** Parts, files and sources

    Paths are relative to src/internal.

    Foundations:
    - [Prelude]: time, results, nullable columns, record update notation,
      the lemmas and tactics shared by all files.
    - [GoRuntime]: what the code uses of Go's standard library: instants and
      durations at 64 bits, trimming, decimal parsing, SHA-256.
    - [Sql]: tables as lists, [UPDATE], [SELECT], [ORDER BY], [LIMIT].

    The stores, one definition per operation, every statement with its guards:
    - [Tables]: rows and enumerations (models), the database [DB].
    - [JobStore]: the job queue (db/jobs.go).
    - [Continuation]: the payload of a requeued turn
      (db/continuation_recovery.go).
    - [ExecutorStore]: session executors (db/session_executor_store.go).
    - [ThreadRuntimeStore]: leased runtimes (db/thread_runtime_store.go).
    - [ThreadInboxStore]: thread input (db/thread_inbox_store.go).
    - [ActivityPhaseStore]: the phases of provider work on a thread, the batches
      of input that start them, and the admission of seed messages
      (db/session_activity_phases.go, db/session_activity_seed.go).
    - [HolderStore]: who holds a session's sandbox
      (db/session_sandbox_holder_store.go).
    - [SessionStore]: sessions: their turns, deadlines and claims, the container
      and who holds it, snapshot marks and archive (db/session_store.go,
      db/session_result_persistence.go).
    - [NodeStore]: worker processes, drains and the retirement seal
      (cluster/node.go, db/node_store.go, db/node_retirement.go).
    - [Recovery]: one pass of the recovery loop (cluster/recovery.go), against
      the interface [RecoveryStores] that [plane_stores] implements.

    The specification and the transition system:
    - [JobLifecycle]: the abstract queue: a job is queued, held under one lock
      token, or done; [queue_step] is what one statement may do to the table,
      the class [HolderWrite] what a write of the token's holder keeps.
    - [JobSteps], [NodeSteps], [ExecutorSteps], [RuntimeSteps], [InboxSteps],
      [PhaseSteps]: every operation of the stores is such a step of its table.
    - [Plane]: all operations as one transition system, [step] and
      [reachable], with the invariant [plane_inv].  Writes of other parts of
      the program to tables the plane only reads are environment steps.
    - [Scenario]: a concrete run, the source of the witnesses.

    Live input (services/agent: thread_runtime_delivery.go,
    activity_phase_execution.go, activity_phases.go, cancel_thread.go,
    providers/docker_handle.go):
    - [DeliveryProtocol]: the database with a ledger of what was handed to
      providers, the moves of a delivery run on it, and the invariant
      [ledger_ok] between rows and ledger.
    - [Delivery]: the programs: feeding an inbox to a running agent with
      receipts and acknowledgments, opening, heartbeating and closing the
      runtime of a turn, its handle and its phases, over the class [Handle] of
      a command's standard input, whose laws are [HandleLaws]; the Docker
      handle is an instance.
    - [DeliveryRun]: every program is a sequence of moves.
    - [DeliveryReceipts]: what each acknowledging program guarantees when it
      succeeds.
    - [TurnContainer]: RunAgent's container, from the hold it takes to the
      release and the destruction, over a container runtime that is seen
      through IsAlive and Destroy (services/agent/orchestrator.go,
      services/automations/turn_store.go).

    GitHub throttling and retries:
    - [RateLimitStore]: the cooldown record of one installation, as the
      process-local store ([Local], services/github/ratelimit/controller.go)
      and as a Redis hash under Lua scripts ([Redis],
      cache/github_rate_limits.go).
    - [Classifier]: which responses are throttles
      (services/github/ratelimit/classifier.go).
    - [RateLimitController]: admission of requests and observation of
      responses (controller.go), over a [World] in which a Redis command may
      be refused, lose its reply, or be answered.
    - [Errors]: error trees with errors.Is and errors.As.
    - [GithubRetry]: retry classification and schedules
      (services/github/retry.go, worker/github_retry.go,
      worker/mergeability_retry.go).
    - [Worker]: one poll of a worker, and the end of an executor's attempt
      (worker/worker.go, worker/session_executor_runtime.go), against the
      interface [jobLeaseStore] that [plane_lease_store] implements.
    - [Breaker]: the Redis circuit breaker (cache/breaker.go).
    - [Envelope]: the bounded scan of a GraphQL response
      (services/github/ratelimit/classifier.go).
    - [Quota]: the quota windows, the paced lane of background traffic and the
      check-refresh lease, as Lua scripts over the hashes of one installation,
      with the admission built on them (cache/github_quota.go,
      cache/github_check_refresh.go, and background_quota.go and
      check_refresh.go of services/github/ratelimit).

    The loops beside a handler:
    - [LeaseLoop]: renewLeaseLoop of a worker as a function from one blocking
      point to the next (worker/worker.go).
    - [ExecutorLoop]: the whole of SessionExecutorRuntime.Run: the wait for the
      handoff, then heartbeats, renewals and drain notices interleaved with
      the handler and with every other writer of the plane
      (worker/session_executor_runtime.go).

    Pull requests:
    - [PrHealth]: GitHub's view of a pull request normalized into a summary,
      the overlay of check webhooks on it, and what a summary allows
      (models/pr_health.go, services/github/pr_health.go).
    - [PrStore]: the rows of one pull request: check states, versioned health
      summaries and snapshots, lifecycle observations, merge when ready,
      repair runs (db/pull_requests.go, db/pull_request_health.go,
      db/pull_request_health_sync.go, db/pull_request_checks.go).
    - [PrService]: synchronization with GitHub, projection of check webhooks,
      the health response, merging, and merge when ready
      (services/github/pr_health_service.go,
      pr_health_budget.go, pr_merge.go, pr_merge_when_ready.go).

    Automations:
    - [Automation]: the rows of targets, generations, runs and result markers,
      beside the plane's tables in one database [AutoDB] (models/automation.go,
      models/automation_target.go).
    - [AutomationStore]: targets, the generations that own a session, lifecycle
      evidence and wake requests (db/automation_targets.go,
      db/automation_lifecycle.go).
    - [AutomationRunStore]: arrival, waiting, reservation, attempts under the
      job's lease and the result marker (db/automation_dispatch.go,
      db/automation_turns.go, db/automation_run_results.go).
    - [AutomationCompletion]: completion from the marker, recovery of abandoned
      turns, stranded ownership and missing wakes (db/automation_completion.go).
    - [AutomationService]: the arrival of an event and the ownership
      transaction of dispatch (target_arrival.go, target_dispatch.go of
      services/automations).
    - [AutomationCompleter]: the completer, its wakes and sweeps, lifecycle
      notifications, the attempt claim of a worker, deletion and the
      continuity switch (turn_completer.go, target_lifecycle.go,
      worker/handlers.go).
    - [AutomationMoves]: the protocol as small moves on runs, generations and
      owners, with the invariant [auto_inv] that every move keeps.
    - [AutomationSteps], [AutomationOps]: every statement and every operation
      is a sequence of moves; [auto_steps] interleaves automations with all
      operations of the plane.
    - [AutomationScenario]: a concrete turn from its event to its completion.

    Code reviews:
    - [GoStrings]: substrings, cuts and hexadecimal digests.
    - [Review]: the rows of assessments, review metadata and scheduling state,
      beside the plane's tables in one database [ReviewDB]
      (models/code_review_assessment.go, code_review.go,
      code_review_scheduling.go).
    - [ReviewMarkers]: the hidden markers by which published reviews and
      comments are found again (services/codereview/github_submitter.go).
    - [ReviewStore]: every statement on the table of assessments
      (db/code_review_assessments.go and the other files that write it) and
      the settlement of the scheduler's row.
    - [ReviewSteps]: the publication machine [phase_step]; every statement
      moves each row along it; [rows_ok] is what the table keeps.
    - [ReviewSubmit]: the submitter, over the class [GitHub] of a pull request
      and the requests on it, whose laws are [GitHubLaws]
      (github_submitter.go, assessment_publication.go,
      publication_rejection.go).
    - [ReviewSubmitSpec]: what each of its programs does to the reviews that
      carry a marker.
    - [ReviewPublish]: publication runs of the worker
      (worker/code_review_assessment.go, code_review_handler.go,
      code_review_recheck_handler.go, code_review_publication_recovery.go).
    - [ReviewLedger], [ReviewRun]: the invariant between the rows of a pull
      request and its reviews, and that every run keeps it.
    - [ReviewScenario]: a GitHub with a tape of failures, and one publication.

    ** What the theorems show

    - [PlaneProperties] (C1 to C4, C7 to C9), for every reachable state: lock
      columns and tokens agree with the status, dedupe keys are unique among
      active jobs, a given-up lease can write nothing any more, finished jobs
      stay finished, a sealed generation owns nothing, input that was applied
      is not handed out again, and a slot has one owner.
    - [ReviewProperties] (C5, C6, C26 to C30): an assessment is published at
      most once whatever fails and however often it is retried, one that was
      given up left nothing on GitHub, stale inputs publish nothing, only a
      rejection takes a declared send back, the rows refine the publication
      machine and stay well formed, and markers of findings are read back.
    - [PhaseProperties] (C10 to C12): the input of a thread starts provider
      work once, a thread has one running phase, and the end of a phase is
      final.
    - [DeliveryProperties] (C13, C14): a message reaches a provider at most
      once for every time it was opened for delivery, whatever programs the
      processes run and whatever fails; and a delivery run that succeeds has
      acknowledged what it wrote, in the order of the thread.
    - [SessionProperties] (C15, C16), for any order of the statements on
      sessions: the executing-turn marker comes from a BeginRuntime that
      nothing has ended since, and a container that was given up is given up
      once and can be held no more.
    - [PrServiceProperties] (C17, C18): a merge is only sent for the head
      that was read green after the request, and a queued merge is always
      settled.
    - [PrStoreProperties] (C19, C20): health versions never collide, and
      webhooks commute.
    - [AutomationProperties] (C21 to C25, C31), for every reachable state with
      the plane running beside: a target has one turn at a time and the turn's
      session is its own, an attempt whose lease is gone writes nothing, an
      abandoned turn is always settled, ownership of a session never leaks,
      turns are counted once and within the limit, and automations do to the
      plane only what the plane allows.
    - [ExecutorLoop] (C32): the wait for the handoff ends.
    - [LeaseLoop] (C33): a handler is cancelled before its lease expires.
    - [WorkerProperties] (C34, C35): an owned attempt always settles, and
      retries stay in their window.
    - [QueueProperties] (C36): passes of the recovery loop recover everything
      that was lost.
    - [RateLimitProperties], [HerdProperties] (C37, C38): the Lua scripts
      refine the local store, and one probe goes out for any number of
      controllers.
    - [QuotaProperties] (C39): background traffic leaves the reserve alone.
    - [Envelope] (C40): the scanner agrees with the grammar of JSON.

    The same files, and [RetryProperties], prove further theorems that carry
    no id: a publication needs a live lease and its receipt names the review
    that carries the marker, a created container is held or destroyed, a
    turn destroys only a container that nobody holds, input that may have reached a provider is not handed out again, one
    process merges, a webhook that raced a read survives it, every run of an
    executor is a run of the plane, a repeated capture returns its row, a
    recovery pass never fails, an operator's drain is durable, a
    summary that was kept because GitHub had no answer cannot merge, a merged
    pull request stays merged, waiting runs are capped, lifecycle observations
    commute, an executor that lost its job leaves it to the new owner, a poll
    stays inside the plane, the claim takes the best job, the quota hashes stay
    bounded, complete check listings, the deduplication of check runs, slow
    reads, the evidence a lost lease needs, exclusive probes, the paced lane,
    the termination of the envelope scan, the commit of confirmed input, the
    ring of the circuit breaker ([Breaker]), the backoff of head lookups,
    enqueue and claim progress, refunded retries, what a requeued
    payload keeps, the acknowledged prefix of an inbox, the bounds of the
    retry schedules, the degraded mode of the controller, and the behaviours
    that differ from what a comment says.

    ** Conventions

    Statements of PostgreSQL are total functions on [DB] (on [PRStore] for a
    pull request) and atomic; the clocks they read, the identifiers they draw
    and the rows other transactions hold locked are arguments, so a theorem
    covers all of them.  A failed statement is [Err] and leaves the database
    as it was.  Triggers and unique indexes of the schema are part of the
    operations they guard.  Connection failures and cancelled contexts are not
    modelled for the stores themselves; they are where the stores are called:
    in [Worker] and [ExecutorLoop], whose interfaces let every call fail, in
    [RateLimitController], whose commands can, and in [PrService],
    [ReviewPublish] and [Delivery], where an environment decides for every statement what
    other writers did before it and whether it fails, and for every request
    what GitHub answers.

    Publication runs of one pull request follow each other, as the advisory
    lock makes them; a request that a run sent has taken effect, or never will,
    when the run ends.  The other processes write between any two statements
    of a run, everything but the record of a rejection, which belongs to the
    owner of the lock.  The theorems on markers ask that the digests of the
    pull request's publication keys differ ([key_space]) and that texts which
    are published carry no marker of their own; publications without an
    assessment, from before assessments existed, are not part of them.  What
    the input capture, the approval rules and the history text answer is any
    answer.

    Delivery runs of one thread in one process follow each other, as the
    delivery lock makes them; between their statements other processes make any
    moves of the protocol, and the turn changes the phase it registered and the
    handle it attached.  The ledger of a [Site] and the log of writes of a
    [World] are no state of the program: they are what the theorems speak of.
    A statement can take effect although its reply is lost.  That successful
    deliveries are acknowledged asks that the phases registered for a thread
    belong to it and run under a runtime's lease.  acknowledgeInboxBatch on its
    own, which no production path calls, is a definition of
    [ActivityPhaseStore] and no step of the plane.

    The runs of [SessionProperties] interleave the statements of [SessionStore]
    with those of automations and recovery and with what other stores may do to
    a row ([row_elsewhere]: the statements of code reviews and their
    workspaces, which are not all modelled).  That a container does not come
    back asks that a container is only offered by who has just created it
    ([fresh_offers]).  Whether a preview holds a container is an argument.

    Recursion is structural.  The bounded iterations have bounds that are
    enough: [GithubRetry.poll_delay] runs six rounds, and its delay reaches
    the ceiling after five doublings; [JobStore.delete_expired] takes the
    batch limit of its SQL function; [Sha256.blocks] has one unit of fuel per
    word, sixteen times what it needs; the envelope scan has one unit per byte
    of the body and consumes one in every round; a check listing has the
    code's own limit of pages, and a rebuild its own number of attempts; the
    binary search [Delivery.search] has one unit per element; the
    wait for a handoff has one unit per tick before its deadline; the backoff
    of a head lookup reaches its ceiling within the five doublings
    [AutomationService.backoff_from] is given; a listing of reviews gives up
    after a thousand pages, as the deadline of the publication lock makes it,
    and a listing that gives up is an error, never an absence.

    A sweep or a dispatch draws the identifiers of the rows it inserts from
    its arguments; GitHub's answer to a head lookup is an argument, and so are
    the writes of others between the lookup and the lock and between the reads
    and the writes of a wake.

    Code that cannot be read here is a parameter: [http.ParseTime],
    [time.Parse] for RFC 3339, [json.Valid] and [json.Unmarshal] of an error
    body, the text of an error value ([ErrorText]; wraps keep their fixed
    prefix, not formatted details) and job handlers.  [Worker] takes the
    verdict of the lease loop as an argument; [LeaseLoop] shows what it is.
    The code-review writes that [Worker] calls are parameters as well:
    DeadLetterCodeReviewWithLease is a definition of [ReviewStore], on a larger
    database; RetryControllerWithLease belongs to the workspaces, which are not
    modelled.

    ** Not modelled

    Of the code review: the scheduler, the workspaces and the status comments;
    db/session_review_workspace_recovery.go is the one writer of the plane's
    tables that is no step of [Plane].  Of the agent service: the orchestrator
    beyond the container of a turn, cancellation and the adapters, which drive
    external processes.  Of sessions: creation, listings, titles, progress,
    diffs and checkpoints.  Webhook
    handlers, repair launches and the reconciliation sweep of pull requests;
    capacity selection and the queue's metric samples; schedules and the other
    triggers of automations; previews; HTTP middleware.  The cancellation
    statements of evidence rechecks are left out because they name a column
    that does not exist and always fail.  Telemetry, wiring, the frontend, and
    the agents and containers behind the runtimes have no logic of this kind. *)

From stdpp Require Import base decidable option list sorting strings pretty gmap.
From Stdlib Require Import Sorting.Permutation Sorting.Sorted.

Open Scope string_scope.
Open Scope Z_scope.

(** ** Time

    [time.Time] and [timestamptz] values are integers: nanoseconds since the
    Unix epoch.  [time.Duration] is the same unit.  The zero [time.Time] of Go
    is a distinguished instant, [zero_time]; components that test [IsZero]
    compare with it. *)

Abbreviation time := Z (only parsing).
Abbreviation duration := Z (only parsing).
Definition nanosecond : duration := 1.
Definition millisecond : duration := 1000000.
Definition second : duration := 1000000000.
Definition minute : duration := 60 * second.
Definition hour : duration := 60 * minute.

(** [int(d.Seconds())]: the whole seconds of a duration, truncated towards 0. *)
Definition duration_seconds (d : duration) : Z := Z.quot d second.

(** A [uuid.UUID] is represented by its canonical text, so [String()] and the
    cast [::text] are the identity. *)
Abbreviation uuid := string (only parsing).
Definition uuid_Nil : uuid := "00000000-0000-0000-0000-000000000000".

(** ** Results of fallible operations *)

Inductive result (A : Type) :=
  | Ok (a : A)
  | Err (msg : string).
Arguments Ok {A} a.
Arguments Err {A} msg.

Declare Scope result_scope.
Notation "'let?' x := c 'in' k" :=
  (match c with Ok x => k | Err e => Err e end)
  (at level 10, x pattern, c at level 100, k at level 200) : result_scope.
Open Scope result_scope.

(** ** Boolean tests of the code *)

(** [==] of Go and [=] of SQL on non-null values. *)
Notation "x ==? y" := (bool_decide (x = y)) (at level 70, no associativity) : stdpp_scope.
Notation "x <>? y" := (negb (bool_decide (x = y))) (at level 70, no associativity) : stdpp_scope.

(** SQL comparisons against a nullable column: NULL is never equal to, less
    than or greater than anything, and a [WHERE] treats unknown as false. *)
Definition col_is {A} `{EqDecision A} (c : option A) (v : A) : bool :=
  bool_decide (c = Some v).
Definition col_lt (c : option Z) (v : Z) : bool :=
  match c with Some x => x <? v | None => false end.
Definition col_le (c : option Z) (v : Z) : bool :=
  match c with Some x => x <=? v | None => false end.
Definition col_gt (c : option Z) (v : Z) : bool :=
  match c with Some x => v <? x | None => false end.
Definition is_null {A} (c : option A) : bool :=
  match c with Some _ => false | None => true end.

(** [COALESCE(c, v)] and [NULLIF(s, '')]. *)
Definition coalesce {A} (c : option A) (v : A) : option A :=
  match c with Some x => Some x | None => Some v end.
Definition nullif_empty (s : string) : option string :=
  if bool_decide (s = "") then None else Some s.

(** ** Column updates of a row

    [r <| col := v |>] is the row [r] with one column replaced.  A record type
    provides its eta-expansion, from which the setter of each projection is
    derived on demand. *)

Class Eta (R : Type) := eta_row : R -> R.
Class Setter {R T : Type} (proj : R -> T) := set_col : (T -> T) -> R -> R.
Arguments set_col {R T} proj {_} f r /.

Ltac derive_setter :=
  lazymatch goal with
  | |- @Setter ?R ?T ?proj =>
      let inst := constr:(_ : Eta R) in
      let e := eval red in inst in
      exact (fun (f : T -> T) (r : R) => ltac:(
        let body := eval cbv beta in (e r) in
        lazymatch eval pattern (proj r) in body with
        | ?g _ => let b := eval cbv beta in (g (f (proj r))) in exact b
        end))
  end.
#[export] Hint Extern 0 (Setter _) => derive_setter : typeclass_instances.

Notation "r <| p := v |>" := (set_col p (fun _ => v) r)
  (at level 1, left associativity, p constr, v at level 200,
   format "r  <| p  :=  v |>").

(** ** Automation *)

Create HintDb plane discriminated.

(** Turn every boolean test in sight into the proposition it decides. *)
Ltac reflect_bools :=
  repeat match goal with
  | H : andb _ _ = true |- _ => apply andb_true_iff in H as [? ?]
  | H : orb _ _ = false |- _ => apply orb_false_iff in H as [? ?]
  | H : negb _ = true |- _ => apply negb_true_iff in H
  | H : negb _ = false |- _ => apply negb_false_iff in H
  | H : bool_decide _ = true |- _ => apply bool_decide_eq_true in H
  | H : bool_decide _ = false |- _ => apply bool_decide_eq_false in H
  | H : Is_true _ |- _ => apply Is_true_true in H
  | H : (_ <? _) = true |- _ => apply Z.ltb_lt in H
  | H : (_ <? _) = false |- _ => apply Z.ltb_ge in H
  | H : (_ <=? _) = true |- _ => apply Z.leb_le in H
  | H : (_ <=? _) = false |- _ => apply Z.leb_gt in H
  end.

(** Case analysis on the conditions of an [if] and the scrutinees of a
    [match], keeping the equations. *)
Ltac split_ifs :=
  repeat match goal with
  | |- context [if ?b then _ else _] => destruct b eqn:?
  | H : context [if ?b then _ else _] |- _ => destruct b eqn:?
  end.

Ltac crush := reflect_bools; simplify_eq/=; try done; try lia; try naive_solver.

Lemma coalesce_some {A} (c : option A) (v : A) : is_Some (coalesce c v).
Proof. destruct c; eauto. Qed.
Lemma coalesce_kept {A} (c : option A) (v : A) : c <> None -> coalesce c v = c.
Proof. by destruct c. Qed.
#[export] Hint Resolve coalesce_some coalesce_kept : plane.

(** ** Lists *)

Lemma Forall_map_impl {A} (P : A -> Prop) (f : A -> A) (l : list A) :
  (forall x, P x -> P (f x)) -> Forall P l -> Forall P (map f l).
Proof. intros Hf Hl. induction Hl; simpl; constructor; auto. Qed.

Lemma in_filter_iff {A} (p : A -> bool) (l : list A) (x : A) :
  In x (List.filter p l) <-> In x l /\ p x = true.
Proof. apply filter_In. Qed.

Lemma NoDup_map_filter {A B} (f : A -> B) (p : A -> bool) (l : list A) :
  List.NoDup (map f l) -> List.NoDup (map f (List.filter p l)).
Proof.
  induction l as [|x l IH]; simpl; intros Hnd; [done|].
  inversion_clear Hnd as [|? ? Hx Hl].
  destruct (p x); simpl; [|auto].
  constructor; [|auto].
  intros Hin. apply Hx. apply in_map_iff in Hin as (y & <- & Hy).
  apply in_map. apply in_filter_iff in Hy. tauto.
Qed.

Lemma map_key_inj {A B} (f : A -> B) (l : list A) (x y : A) :
  List.NoDup (map f l) -> In x l -> In y l -> f x = f y -> x = y.
Proof.
  induction l as [|z l IH]; simpl; [done|].
  intros Hnd Hx Hy Hf. inversion_clear Hnd as [|? ? Hz Hl].
  destruct Hx as [->|Hx], Hy as [->|Hy]; auto.
  - exfalso. apply Hz. rewrite Hf. by apply in_map.
  - exfalso. apply Hz. rewrite <- Hf. by apply in_map.
Qed.
