(* ===== verification/GoRuntime.v ===== *)
(** * The Go runtime the services rely on

    The parts of Go's [time], [strings], [strconv] and [crypto/sha256] that
    the worker and the GitHub throttling code use: instants with their zero
    value, saturating subtraction and wrapping duration arithmetic, decimal
    parsing at 64 bits, ASCII trimming and the SHA-256 digest the jitter is
    drawn from. *)

From S2P Require Import Prelude.
From stdpp Require Import base option list strings.
From Stdlib Require Import Ascii.

Open Scope string_scope.
Open Scope Z_scope.

(** ** Instants and durations *)

(** The zero [time.Time] is the first instant of year 1. *)
Definition zero_time : time := -62135596800 * second.
Definition IsZero (t : time) : bool := t =? zero_time.
Definition After (t u : time) : bool := u <? t.
Definition Before (t u : time) : bool := t <? u.

Definition minDuration : duration := - 2 ^ 63.
Definition maxDuration : duration := 2 ^ 63 - 1.

(** [t.Sub(u)] saturates at the range of [Duration]. *)
Definition Sub (t u : time) : duration := Z.max minDuration (Z.min maxDuration (t - u)).

(** [+] and [*] on [Duration] (and on [int64]) wrap around. *)
Definition wrap64 (z : Z) : Z := (z + 2 ^ 63) mod 2 ^ 64 - 2 ^ 63.
Definition dur_add (a b : duration) : duration := wrap64 (a + b).
Definition dur_mul (a b : duration) : duration := wrap64 (a * b).

(** [UnixMilli] rounds down; [Duration.Milliseconds] truncates. *)
Definition UnixMilli (t : time) : Z := t / millisecond.
Definition of_millis (ms : Z) : time := ms * millisecond.
Definition Milliseconds (d : duration) : Z := Z.quot d millisecond.

Definition in_int64 (z : Z) : Prop := minDuration <= z <= maxDuration.

Lemma wrap64_id z : in_int64 z -> wrap64 z = z.
Proof.
  unfold in_int64, minDuration, maxDuration, wrap64. intros H.
  rewrite Z.mod_small; lia.
Qed.

Lemma Sub_exact t u : in_int64 (t - u) -> Sub t u = t - u.
Proof. unfold Sub, in_int64. lia. Qed.

Lemma Sub_sign t u : (Sub t u <? 0) = (t <? u).
Proof. unfold Sub, minDuration, maxDuration. destruct (t <? u) eqn:E; reflect_bools; [apply Z.ltb_lt|apply Z.ltb_ge]; lia. Qed.

Lemma UnixMilli_of_millis ms : UnixMilli (of_millis ms) = ms.
Proof. unfold UnixMilli, of_millis, millisecond. by rewrite Z.div_mul. Qed.

Lemma UnixMilli_mono t u : t <= u -> UnixMilli t <= UnixMilli u.
Proof. intros. by apply Z.div_le_mono. Qed.

(** ** Text *)

Definition is_space (a : ascii) : bool :=
  let n := N_of_ascii a in
  (n =? 32)%N || ((9 <=? n)%N && (n <=? 13)%N).

Fixpoint drop_spaces (s : list ascii) : list ascii :=
  match s with
  | a :: s' => if is_space a then drop_spaces s' else s
  | [] => []
  end.

(** [strings.TrimSpace] on ASCII text. *)
Definition TrimSpace (s : string) : string :=
  String.string_of_list_ascii (rev (drop_spaces (rev (drop_spaces (String.list_ascii_of_string s))))).

Definition digit_val (a : ascii) : option Z :=
  let n := Z.of_N (N_of_ascii a) in
  if (48 <=? n) && (n <=? 57) then Some (n - 48) else None.

Fixpoint decimal (acc : Z) (s : list ascii) : option Z :=
  match s with
  | [] => Some acc
  | a :: s' => match digit_val a with Some d => decimal (acc * 10 + d) s' | None => None end
  end.

(** [strconv.ParseInt(s, 10, 64)] and [strconv.Atoi]: an optional sign, at
    least one digit, and the value within 64 bits. *)
Definition ParseInt (s : string) : option Z :=
  let go sign l := match l with
    | [] => None
    | _ => match decimal 0 l with
           | Some n => let v := sign * n in
               if (minDuration <=? v) && (v <=? maxDuration) then Some v else None
           | None => None
           end
    end in
  match String.list_ascii_of_string s with
  | a :: l => if (a =? "-")%char then go (-1) l else if (a =? "+")%char then go 1 l else go 1 (a :: l)
  | [] => None
  end.

Definition to_lower (a : ascii) : ascii :=
  let n := N_of_ascii a in if (65 <=? n)%N && (n <=? 90)%N then ascii_of_N (n + 32) else a.
Definition to_upper (a : ascii) : ascii :=
  let n := N_of_ascii a in if (97 <=? n)%N && (n <=? 122)%N then ascii_of_N (n - 32) else a.
Definition map_string (f : ascii -> ascii) (s : string) : string :=
  String.string_of_list_ascii (map f (String.list_ascii_of_string s)).

(** [strings.ToLower] and [strings.ToUpper] on ASCII text. *)
Definition ToLower : string -> string := map_string to_lower.
Definition ToUpper : string -> string := map_string to_upper.

(** [strings.Contains]. *)
Definition Contains (s sub : string) : bool :=
  match String.index 0 sub s with Some _ => true | None => false end.

(** ** SHA-256 *)

Module Sha256.

Definition w32 (z : Z) : Z := z mod 2 ^ 32.
Definition rotr (n x : Z) : Z := Z.lor (Z.shiftr x n) (w32 (Z.shiftl x (32 - n))).
Definition bnot (x : Z) : Z := Z.lxor x (2 ^ 32 - 1).
Definition Ch x y z := Z.lxor (Z.land x y) (Z.land (bnot x) z).
Definition Maj x y z := Z.lxor (Z.land x y) (Z.lxor (Z.land x z) (Z.land y z)).
Definition S0 x := Z.lxor (rotr 2 x) (Z.lxor (rotr 13 x) (rotr 22 x)).
Definition S1 x := Z.lxor (rotr 6 x) (Z.lxor (rotr 11 x) (rotr 25 x)).
Definition s0 x := Z.lxor (rotr 7 x) (Z.lxor (rotr 18 x) (Z.shiftr x 3)).
Definition s1 x := Z.lxor (rotr 17 x) (Z.lxor (rotr 19 x) (Z.shiftr x 10)).

(** The constants of FIPS 180-4: the first 32 bits of the fractional parts of
    the cube roots of the first 64 primes, and of the square roots of the
    first eight. *)
Definition is_prime (n : nat) : bool :=
  forallb (fun d => negb (n mod d =? 0)%nat) (seq 2 (n - 2)).
Definition primes : list Z :=
  Eval vm_compute in map Z.of_nat (List.filter is_prime (seq 2 310)).

(** The integer cube root below [2 ^ n], bit by bit. *)
Fixpoint cube_root (n : nat) (root x : Z) : Z :=
  match n with
  | O => root
  | S n => let r := root + 2 ^ Z.of_nat n in cube_root n (if r * r * r <=? x then r else root) x
  end.

Definition K : list Z := Eval vm_compute in map (fun p => w32 (cube_root 40 0 (p * 2 ^ 96))) primes.
Definition H0 : list Z := Eval vm_compute in map (fun p => w32 (Z.sqrt (p * 2 ^ 64))) (firstn 8 primes).

(** Big-endian bytes of [z], most significant first. *)
Fixpoint be_bytes (n : nat) (z : Z) : list Z :=
  match n with O => [] | S n => Z.shiftr z (8 * Z.of_nat n) mod 256 :: be_bytes n z end.

Definition pad (msg : list Z) : list Z :=
  let zeros := Z.to_nat ((55 - Z.of_nat (length msg)) mod 64) in
  (msg ++ 128 :: repeat 0 zeros ++ be_bytes 8 (8 * Z.of_nat (length msg)))%list.

Fixpoint words (bs : list Z) : list Z :=
  match bs with
  | a :: b :: c :: d :: r => (Z.shiftl a 24 + Z.shiftl b 16 + Z.shiftl c 8 + d) :: words r
  | _ => []
  end.

(** The message schedule, kept newest first. *)
Fixpoint schedule (n : nat) (w : list Z) : list Z :=
  match n with
  | O => w
  | S n => schedule n
      (w32 (s1 (nth 1 w 0) + nth 6 w 0 + s0 (nth 14 w 0) + nth 15 w 0) :: w)
  end.

Definition round (st : list Z) (kw : Z * Z) : list Z :=
  match st with
  | [a; b; c; d; e; f; g; h] =>
      let t1 := h + S1 e + Ch e f g + kw.1 + kw.2 in
      let t2 := S0 a + Maj a b c in
      [w32 (t1 + t2); a; b; c; w32 (d + t1); e; f; g]
  | _ => st
  end.

Definition compress (st block : list Z) : list Z :=
  let w := rev (schedule 48 (rev block)) in
  map (fun p => w32 (p.1 + p.2)) (combine st (foldl round st (combine K w))).

Fixpoint blocks (fuel : nat) (ws : list Z) : list (list Z) :=
  match fuel, ws with
  | S fuel, _ :: _ => take 16 ws :: blocks fuel (drop 16 ws)
  | _, _ => []
  end.

Definition Sum256 (msg : list Z) : list Z :=
  let ws := words (pad msg) in foldl compress H0 (blocks (length ws) ws).

Definition bytes_of (s : string) : list Z :=
  map (fun a => Z.of_N (N_of_ascii a)) (String.list_ascii_of_string s).

(** The FIPS 180-4 vectors for one and two blocks. *)
Example sum256_abc : Sum256 (bytes_of "abc") =
  [0xba7816bf; 0x8f01cfea; 0x414140de; 0x5dae2223; 0xb00361a3; 0x96177a9c; 0xb410ff61; 0xf20015ad].
Proof. by vm_compute. Qed.
Example sum256_two_blocks :
  Sum256 (bytes_of "abcdbcdecdefdefgefghfghighijhijkijkljklmklmnlmnomnopnopq") =
  [0x248d6a61; 0xd20638b8; 0xe5c02693; 0x0c3e6039; 0xa33ce459; 0x64ff2167; 0xf6ecedd4; 0x19db06c1].
Proof. by vm_compute. Qed.

End Sha256.

(** [binary.BigEndian.Uint32(sha256.Sum256(key)[:4]) % slots], in seconds. *)
Definition digest_jitter (key : string) (slots : Z) : duration :=
  (nth 0 (Sha256.Sum256 (Sha256.bytes_of key)) 0 mod slots) * second.

Lemma digest_jitter_bounds key slots :
  0 < slots -> 0 <= digest_jitter key slots <= (slots - 1) * second.
Proof.
  intros Hs. unfold digest_jitter, second.
  pose proof (Z.mod_pos_bound (nth 0 (Sha256.Sum256 (Sha256.bytes_of key)) 0) slots Hs). nia.
Qed.
#[global] Opaque digest_jitter.
