(* ===== verification/Sql.v ===== *)
(** * The relational operations the stores are written with

    A table is the list of its rows in physical order; a statement is a total
    function on tables.  [UPDATE ... WHERE] rewrites the matching rows in
    place, [SELECT ... ORDER BY ... LIMIT n] is a stable sort followed by a
    prefix, so rows that tie in the [ORDER BY] keep their physical order:
    quantifying a theorem over all tables covers every resolution of the tie.
    [FOR UPDATE SKIP LOCKED] takes the set of rows that concurrent
    transactions hold as an argument. *)

From S2P Require Import Prelude.
From stdpp Require Import base list strings.
From Stdlib Require Import Sorting.Permutation Sorting.Sorted.

Open Scope string_scope.
Open Scope Z_scope.

Section Tables.
Context {A : Type}.
Implicit Types (t : list A) (p q : A -> bool) (f g : A -> A).

(** [SELECT * FROM t WHERE p]. *)
Definition select p t : list A := List.filter p t.

(** [UPDATE t SET f WHERE p]. *)
Definition update p f t : list A := map (fun r => if p r then f r else r) t.

(** [RowsAffected()] of such an update, and [SELECT count( * )]. *)
Definition count_rows p t : Z := Z.of_nat (length (select p t)).

(** [EXISTS (SELECT 1 FROM t WHERE p)]. *)
Definition exists_row p t : bool := existsb p t.

(** [ORDER BY]: a stable insertion sort for the row order [le]. *)
Fixpoint insert_by (le : A -> A -> bool) (x : A) (l : list A) : list A :=
  match l with
  | [] => [x]
  | y :: l' => if le x y then x :: y :: l' else y :: insert_by le x l'
  end.
Definition order_by (le : A -> A -> bool) (l : list A) : list A :=
  foldr (insert_by le) [] l.

(** [LIMIT n]. *)
Definition limit (n : nat) (l : list A) : list A := take n l.

(** ** Updates *)

Lemma update_none p f t : exists_row p t = false -> update p f t = t.
Proof.
  unfold update, exists_row. induction t as [|r t IH]; simpl; [done|].
  intros [Hr Ht]%orb_false_iff. rewrite Hr. f_equal. auto.
Qed.

Lemma exists_row_false p t : (forall r, In r t -> p r = false) -> exists_row p t = false.
Proof.
  intros H. unfold exists_row. apply not_true_iff_false.
  intros (r & Hr & Hp)%existsb_exists. by rewrite H in Hp.
Qed.

Lemma exists_row_none p t r : exists_row p t = false -> In r t -> p r = false.
Proof.
  intros H Hin. apply not_true_iff_false. intros Hp.
  assert (exists_row p t = true) by (apply existsb_exists; eauto). congruence.
Qed.

Lemma exists_row_true p t : exists_row p t = true <-> exists r, In r t /\ p r = true.
Proof. apply existsb_exists. Qed.

Lemma in_update p f t r :
  In r (update p f t) <->
  exists r0, In r0 t /\ ((p r0 = true /\ r = f r0) \/ (p r0 = false /\ r = r0)).
Proof.
  unfold update. rewrite in_map_iff. split.
  - intros (r0 & <- & Hin). exists r0. split; [done|]. destruct (p r0); auto.
  - intros (r0 & Hin & [[Hp ->]|[Hp ->]]); exists r0; rewrite Hp; auto.
Qed.

Lemma length_update p f t : length (update p f t) = length t.
Proof. apply length_map. Qed.

Lemma update_key {B} (key : A -> B) p f t :
  (forall r, key (f r) = key r) -> map key (update p f t) = map key t.
Proof.
  intros Hk. unfold update. rewrite map_map. apply map_ext.
  intros r. destruct (p r); auto.
Qed.

Lemma Forall_update (P : A -> Prop) p f t :
  (forall r, In r t -> P r -> p r = true -> P (f r)) -> Forall P t -> Forall P (update p f t).
Proof.
  rewrite !List.Forall_forall. intros Hf Ht r (r0 & Hin & [[Hp ->]|[Hp ->]])%in_update; auto.
Qed.

Lemma in_update_image p f t r :
  In r (update p f t) -> exists r0, In r0 t /\ r = if p r0 then f r0 else r0.
Proof. unfold update. intros (r0 & <- & Hin)%in_map_iff. eauto. Qed.

Lemma count_rows_0 p t : count_rows p t = 0 <-> exists_row p t = false.
Proof.
  unfold count_rows, select, exists_row. induction t as [|r t IH]; simpl; [done|].
  destruct (p r); simpl; [split; [lia|done]|]. exact IH.
Qed.

Lemma count_rows_nonneg p t : 0 <= count_rows p t.
Proof. unfold count_rows. lia. Qed.

(** An update that takes its rows out of [q] removes exactly those. *)
Lemma count_rows_update p q f t : (forall r, In r t -> p r = true -> q (f r) = false) ->
  count_rows q (update p f t) + count_rows (fun r => p r && q r) t = count_rows q t.
Proof.
  unfold count_rows, select, update. intros Hq. induction t as [|r t IH]; simpl; [done|].
  assert (forall x, In x t -> p x = true -> q (f x) = false) as Ht by (intros x ?; apply Hq; by right).
  specialize (IH Ht). destruct (p r) eqn:Hp; simpl.
  - rewrite (Hq r (or_introl eq_refl) Hp). destruct (q r); simpl; lia.
  - destruct (q r); simpl; lia.
Qed.

Lemma count_rows_pos p t r : In r t -> p r = true -> 0 < count_rows p t.
Proof.
  intros Hin Hp. pose proof (count_rows_nonneg p t). destruct (decide (count_rows p t = 0)) as [E|]; [|lia].
  apply count_rows_0 in E. apply (exists_row_none _ _ r E) in Hin. congruence.
Qed.

(** A predicate that pins a unique key matches at most one row. *)
Lemma count_rows_key {B} `{EqDecision B} (key : A -> B) (k : B) p t :
  List.NoDup (map key t) -> (forall r, p r = true -> key r = k) -> count_rows p t <= 1.
Proof.
  intros Hnd Hk. unfold count_rows, select. induction t as [|r t IH]; simpl; [lia|].
  simpl in Hnd. apply List.NoDup_cons_iff in Hnd as [Hr Ht].
  destruct (p r) eqn:Hp; [|auto]. simpl.
  assert (List.filter p t = []) as ->; [|simpl; lia].
  destruct (List.filter p t) as [|r' l] eqn:E; [done|]. exfalso. apply Hr.
  rewrite (Hk r Hp).
  assert (In r' (List.filter p t)) as Hin by (rewrite E; left; done).
  apply in_filter_iff in Hin as [Hin Hp']. rewrite <- (Hk r' Hp'). by apply in_map.
Qed.

Lemma count_rows_key_1 {B} `{EqDecision B} (key : A -> B) (k : B) p t :
  List.NoDup (map key t) -> (forall r, p r = true -> key r = k) ->
  exists_row p t = true -> count_rows p t = 1.
Proof.
  intros Hnd Hk Hex.
  pose proof (count_rows_key key k p t Hnd Hk). pose proof (count_rows_nonneg p t).
  destruct (decide (count_rows p t = 0)) as [Hz|]; [|lia].
  apply count_rows_0 in Hz. congruence.
Qed.

Lemma in_limit n (l : list A) x : In x (limit n l) -> In x l.
Proof. unfold limit. intros Hx. rewrite <- (take_drop n l). apply in_app_iff. by left. Qed.

(** ** Sorting *)

Lemma insert_by_perm le x l : Permutation (insert_by le x l) (x :: l).
Proof.
  induction l as [|y l IH]; simpl; [done|].
  destruct (le x y); [done|]. rewrite IH. apply perm_swap.
Qed.

Lemma order_by_perm le l : Permutation (order_by le l) l.
Proof.
  induction l as [|x l IH]; simpl; [done|]. rewrite insert_by_perm. by constructor.
Qed.

Lemma in_order_by le l x : In x (order_by le l) <-> In x l.
Proof.
  split; apply Permutation_in; [|symmetry]; apply order_by_perm.
Qed.

Section Sorted.
Variable le : A -> A -> bool.
Hypothesis le_total : forall x y, le x y = true \/ le y x = true.
Hypothesis le_trans : forall x y z, le x y = true -> le y z = true -> le x z = true.

Lemma insert_by_sorted x l :
  StronglySorted (fun a b => le a b = true) l ->
  StronglySorted (fun a b => le a b = true) (insert_by le x l).
Proof.
  induction 1 as [|y l Hl IH Hy]; simpl; [repeat constructor|].
  destruct (le x y) eqn:E.
  - constructor; [by constructor|]. constructor; [done|].
    eapply List.Forall_impl; [|exact Hy]. simpl. eauto.
  - constructor; [done|]. apply Forall_forall. intros z Hz%list_elem_of_In.
    apply (Permutation_in _ (insert_by_perm le x l)) in Hz as [<-|Hz].
    + destruct (le_total x y); congruence.
    + rewrite List.Forall_forall in Hy. auto.
Qed.

Lemma order_by_sorted l : StronglySorted (fun a b => le a b = true) (order_by le l).
Proof. induction l; simpl; [constructor|]. by apply insert_by_sorted. Qed.

(** The first row of an ordered query is a minimum of the selected rows. *)
Lemma order_by_head l x r :
  order_by le l = x :: r -> In x l /\ forall y, In y l -> y = x \/ le x y = true.
Proof.
  intros E. split.
  - apply (in_order_by le). rewrite E. by left.
  - intros y Hy. apply (in_order_by le) in Hy. rewrite E in Hy.
    destruct Hy as [->|Hy]; [by left|right].
    pose proof (order_by_sorted l) as Hs. rewrite E in Hs.
    inversion_clear Hs as [|? ? _ Hall]. rewrite List.Forall_forall in Hall. auto.
Qed.
End Sorted.

Lemma order_by_nil le l : order_by le l = [] <-> l = [].
Proof.
  split; [|by intros ->]. intros E. apply Permutation_nil.
  rewrite <- E. apply order_by_perm.
Qed.
End Tables.

(** ** One row replaced *)

Section Replace.
Context {A : Type} (key : A -> string).
Implicit Types (l : list A) (x y : A).

Definition replace_row x l : list A := update (fun y => key y ==? key x) (fun _ => x) l.

Lemma replace_keys x l : map key (replace_row x l) = map key l.
Proof.
  unfold replace_row, update. rewrite map_map. apply map_ext. intros y.
  case_bool_decide as E; [by rewrite E|done].
Qed.

Lemma in_replace x x' l y : List.NoDup (map key l) -> In x l -> key x' = key x ->
  In y (replace_row x' l) <-> y = x' \/ (In y l /\ y <> x).
Proof.
  intros Hnd Hx Hk. unfold replace_row. rewrite in_update. split.
  - intros (y0 & Hy & [[Hp ->]|[Hp ->]]); reflect_bools; [by left|right].
    split; [done|]. intros ->. congruence.
  - intros [->|[Hy Hne]].
    + exists x. split; [done|]. left. split; [|done]. by apply bool_decide_eq_true.
    + exists y. split; [done|]. right. split; [|done]. apply bool_decide_eq_false.
      intros E. apply Hne, (map_key_inj key l); congruence.
Qed.

Lemma replace_replace x x' l : key x' = key x -> replace_row x' (replace_row x l) = replace_row x' l.
Proof.
  intros Hk. unfold replace_row, update. rewrite map_map. apply map_ext. intros y. rewrite Hk.
  destruct (decide (key y = key x)) as [E|E].
  - rewrite (bool_decide_eq_true_2 (key y = key x)) by done. by rewrite bool_decide_eq_true_2.
  - by rewrite !(bool_decide_eq_false_2 (key y = key x)) by done.
Qed.

Lemma replace_absent x l : ~ In (key x) (map key l) -> replace_row x l = l.
Proof.
  intros Hn. apply update_none, exists_row_false. intros y Hy. apply bool_decide_eq_false.
  intros E. apply Hn. rewrite <- E. by apply in_map.
Qed.

Lemma count_replace q x x' l : List.NoDup (map key l) -> In x l -> key x' = key x ->
  count_rows q (replace_row x' l) + Z.b2z (q x) = count_rows q l + Z.b2z (q x').
Proof.
  unfold count_rows, select, replace_row, update. intros Hnd Hin Hk. induction l as [|y l IH]; [done|].
  cbn [map List.filter] in *. apply List.NoDup_cons_iff in Hnd as [Hy Hl]. destruct Hin as [->|Hin].
  - rewrite bool_decide_eq_true_2 by done. assert (replace_row x' l = l) as E by (apply replace_absent; by rewrite Hk).
    unfold replace_row, update in E. rewrite E. destruct (q x), (q x'); simpl length; simpl Z.b2z; lia.
  - assert (key y <> key x') as Hne by (intros E; apply Hy; rewrite E, Hk; by apply in_map).
    rewrite bool_decide_eq_false_2 by done. specialize (IH Hl Hin). destruct (q y); simpl length; lia.
Qed.

(** An UPDATE that matches one row replaces it. *)
Lemma update_replace p f x l : List.NoDup (map key l) -> In x l -> p x = true -> key (f x) = key x ->
  (forall y, In y l -> p y = true -> key y = key x) -> update p f l = replace_row (f x) l.
Proof.
  intros Hnd Hx Hp Hk Hu. unfold replace_row, update. apply map_ext_in. intros y Hy.
  destruct (p y) eqn:E.
  - assert (y = x) as -> by (apply (map_key_inj key l); auto). by rewrite bool_decide_eq_true_2.
  - rewrite bool_decide_eq_false_2; [done|]. intros Ey.
    assert (y = x) as -> by (apply (map_key_inj key l); congruence). congruence.
Qed.
End Replace.

(** ** Tables rewritten row by row *)

Section Pointwise.
Context {A : Type} (R : A -> A -> Prop).

Lemma Forall2_new (l l' : list A) y : Forall2 R l l' -> In y l' -> exists x, In x l /\ R x y.
Proof. induction 1 as [|a b l l' Hr _ IH]; [done|]. intros [<-|Hy]; [|destruct (IH Hy) as (x & ? & ?)]; simpl; eauto. Qed.
Lemma Forall2_old (l l' : list A) x : Forall2 R l l' -> In x l -> exists y, In y l' /\ R x y.
Proof. induction 1 as [|a b l l' Hr _ IH]; [done|]. intros [<-|Hy]; [|destruct (IH Hy) as (y & ? & ?)]; simpl; eauto. Qed.

Lemma Forall2_keys {B} (key : A -> B) (l l' : list A) : (forall x y, R x y -> key y = key x) ->
  Forall2 R l l' -> map key l' = map key l.
Proof. intros Hk. induction 1; simpl; [done|]. f_equal; auto. Qed.

Lemma Forall2_count (q q' : A -> bool) (l l' : list A) : (forall x y, R x y -> q' y = q x) ->
  Forall2 R l l' -> count_rows q' l' = count_rows q l.
Proof.
  unfold count_rows, select. intros Hq. induction 1 as [|x y l l' Hr _ IH]; [done|]. simpl. rewrite (Hq x y Hr).
  destruct (q x); simpl; lia.
Qed.
Lemma Forall2_count_le (q q' : A -> bool) (l l' : list A) : (forall x y, R x y -> q' y = true -> q x = true) ->
  Forall2 R l l' -> count_rows q' l' <= count_rows q l.
Proof.
  unfold count_rows, select. intros Hq. induction 1 as [|x y l l' Hr _ IH]; [done|]. simpl.
  specialize (Hq x y Hr). destruct (q' y), (q x); simpl; try lia.
Qed.

Lemma Forall2_update (p : A -> bool) (f : A -> A) (l : list A) : (forall x, R x x) ->
  (forall x, In x l -> p x = true -> R x (f x)) -> Forall2 R l (update p f l).
Proof.
  intros Hr Hf. unfold update. induction l as [|x l IH]; simpl; constructor.
  - destruct (p x) eqn:E; [apply Hf; simpl; auto|apply Hr].
  - apply IH. intros y Hy. apply Hf. by right.
Qed.
End Pointwise.

#[export] Hint Resolve count_rows_nonneg : plane.
