(* ===== verification/Tables.v ===== *)
(** * The rows and tables of the execution plane

    One record per table of PostgreSQL that the job, executor, runtime, inbox
    and node stores touch, with the columns those stores read or write, and
    the record [DB] of all tables.  Enumerations carry the constructors of
    internal/models. *)

From S2P Require Import Prelude Sql.
From stdpp Require Import base option list strings pretty gmap.

Open Scope string_scope.
Open Scope Z_scope.

(** ** JSON payloads

    A [jsonb] object is a finite map from keys to values.  A value is a scalar
    or an array of scalars; any deeper value (an object, a nested array, a
    non-integral number) is carried as its text, [SRaw]. *)

Inductive scalar :=
  | SNull
  | SBool (b : bool)
  | SInt (z : Z)
  | SStr (s : string)
  | SRaw (text : string).
#[export] Instance scalar_eq_dec : EqDecision scalar.
Proof. solve_decision. Defined.

Inductive json :=
  | JScalar (s : scalar)
  | JArr (l : list scalar).
#[export] Instance json_eq_dec : EqDecision json.
Proof. solve_decision. Defined.

Abbreviation payload := (gmap string json).

(** Escapes of a JSON string literal in jsonb output. *)
Definition hex_digit (n : nat) : Ascii.ascii :=
  if (n <? 10)%nat then Ascii.ascii_of_nat (48 + n) else Ascii.ascii_of_nat (87 + n).
Fixpoint escape_json (s : string) : string :=
  match s with
  | EmptyString => EmptyString
  | String c s' =>
      let n := Ascii.nat_of_ascii c in
      let bs (k : nat) := String (Ascii.ascii_of_nat 92) (String (Ascii.ascii_of_nat k) EmptyString) in
      (if (n =? 34)%nat then bs 34%nat
       else if (n =? 92)%nat then bs 92%nat
       else if (n =? 8)%nat then bs 98%nat
       else if (n =? 9)%nat then bs 116%nat
       else if (n =? 10)%nat then bs 110%nat
       else if (n =? 12)%nat then bs 102%nat
       else if (n =? 13)%nat then bs 114%nat
       else if (n <? 32)%nat
            then bs 117%nat +:+ "00" +:+ String (hex_digit (n / 16)) (String (hex_digit (n mod 16)) EmptyString)
       else String c EmptyString)%string +:+ escape_json s'
  end.
Definition quote : string := String (Ascii.ascii_of_nat 34) EmptyString.

(** The text of a value inside an array, and of an array. *)
Definition scalar_json (s : scalar) : string :=
  match s with
  | SNull => "null"
  | SBool b => if b then "true" else "false"
  | SInt z => pretty z
  | SStr s => quote +:+ escape_json s +:+ quote
  | SRaw t => t
  end.
Definition array_json (l : list scalar) : string :=
  "[" +:+ String.concat ", " (map scalar_json l) +:+ "]".

(** The operator [->>]: the text of a field, NULL when absent or JSON null. *)
Definition json_text (j : json) : option string :=
  match j with
  | JScalar SNull => None
  | JScalar (SStr s) => Some s
  | JScalar s => Some (scalar_json s)
  | JArr l => Some (array_json l)
  end.
Definition payload_text (p : payload) (k : string) : option string :=
  match p !! k with Some j => json_text j | None => None end.
(** [COALESCE(p->>k, '')]. *)
Definition text_or_empty (p : payload) (k : string) : string :=
  default "" (payload_text p k).
(** [NULLIF(p->>k, '')]. *)
Definition text_nonempty (p : payload) (k : string) : option string :=
  match payload_text p k with
  | Some s => nullif_empty s
  | None => None
  end.
Definition jstr (s : string) : json := JScalar (SStr s).

(** ** Enumerations *)

(** models.JobStatus. *)
Inductive JobStatus :=
  | JobStatusPending | JobStatusRunning | JobStatusSucceeded
  | JobStatusFailed | JobStatusCancelled | JobStatusDeadLetter.
#[export] Instance JobStatus_eq_dec : EqDecision JobStatus.
Proof. solve_decision. Defined.

(** models.JobOwnerKind. *)
Inductive JobOwnerKind := JobOwnerKindWorker | JobOwnerKindSessionExecutor.
#[export] Instance JobOwnerKind_eq_dec : EqDecision JobOwnerKind.
Proof. solve_decision. Defined.

(** models.NodeStatus, models.NodeMode, models.DrainIntent. *)
Inductive NodeStatus := NodeStatusActive | NodeStatusDraining | NodeStatusDead.
#[export] Instance NodeStatus_eq_dec : EqDecision NodeStatus.
Proof. solve_decision. Defined.
Inductive NodeMode := NodeModeAll | NodeModeAPI | NodeModeWorker.
#[export] Instance NodeMode_eq_dec : EqDecision NodeMode.
Proof. solve_decision. Defined.
Inductive DrainIntent :=
  | DrainIntentNone | DrainIntentPlannedRollout | DrainIntentDeployBudgetExpired
  | DrainIntentRuntimeCeiling | DrainIntentHumanInputCheckpoint
  | DrainIntentHostMaintenance | DrainIntentEmergencyForce.
#[export] Instance DrainIntent_eq_dec : EqDecision DrainIntent.
Proof. solve_decision. Defined.

(** models.SessionExecutorStatus. *)
Inductive SessionExecutorStatus :=
  | SessionExecutorStatusStarting | SessionExecutorStatusRunning
  | SessionExecutorStatusDraining | SessionExecutorStatusRequeued
  | SessionExecutorStatusCompleted | SessionExecutorStatusFailed
  | SessionExecutorStatusLost.
#[export] Instance SessionExecutorStatus_eq_dec : EqDecision SessionExecutorStatus.
Proof. solve_decision. Defined.

(** models.SessionStatus. *)
Inductive SessionStatus :=
  | SessionStatusPending | SessionStatusRunning | SessionStatusIdle
  | SessionStatusAwaitingInput | SessionStatusNeedsHumanGuidance
  | SessionStatusCompleted | SessionStatusPRCreated | SessionStatusFailed
  | SessionStatusCancelled | SessionStatusSkipped.
#[export] Instance SessionStatus_eq_dec : EqDecision SessionStatus.
Proof. solve_decision. Defined.

(** models.ResumableSessionStatuses. *)
Definition resumable_status (s : SessionStatus) : bool :=
  match s with
  | SessionStatusCompleted | SessionStatusPRCreated | SessionStatusFailed | SessionStatusCancelled
  | SessionStatusAwaitingInput | SessionStatusNeedsHumanGuidance => true
  | _ => false
  end.

(** models.ThreadRuntimeStatus and models.ThreadInboxDeliveryState. *)
Inductive ThreadRuntimeStatus :=
  | ThreadRuntimeStatusStarting | ThreadRuntimeStatusLive | ThreadRuntimeStatusPaused
  | ThreadRuntimeStatusDraining | ThreadRuntimeStatusLost | ThreadRuntimeStatusClosed
  | ThreadRuntimeStatusFailed.
#[export] Instance ThreadRuntimeStatus_eq_dec : EqDecision ThreadRuntimeStatus.
Proof. solve_decision. Defined.
Inductive ThreadInboxDeliveryState :=
  | ThreadInboxDeliveryStatePending | ThreadInboxDeliveryStateDelivering
  | ThreadInboxDeliveryStateDelivered | ThreadInboxDeliveryStateUnknownDelivery
  | ThreadInboxDeliveryStateAcked | ThreadInboxDeliveryStateDeadLetter.
#[export] Instance ThreadInboxDeliveryState_eq_dec : EqDecision ThreadInboxDeliveryState.
Proof. solve_decision. Defined.
Inductive ThreadInboxEntryType :=
  | ThreadInboxEntryTypeUserMessage | ThreadInboxEntryTypeHumanInputAnswer
  | ThreadInboxEntryTypeControl.
#[export] Instance ThreadInboxEntryType_eq_dec : EqDecision ThreadInboxEntryType.
Proof. solve_decision. Defined.

(** models.PRCreationState. *)
Inductive PRCreationState :=
  | PRCreationStateIdle | PRCreationStateQueued | PRCreationStatePushing
  | PRCreationStateSucceeded | PRCreationStateFailed.
#[export] Instance PRCreationState_eq_dec : EqDecision PRCreationState.
Proof. solve_decision. Defined.

(** ** Rows *)

(** A row of [jobs]: models.Job. *)
Record Job := MkJob {
  j_id : uuid;
  j_org_id : uuid;
  j_queue : string;
  j_job_type : string;
  j_payload : payload;
  j_priority : Z;
  j_status : JobStatus;
  j_attempts : Z;
  j_max_attempts : Z;
  j_run_at : time;
  j_locked_by_node_id : option string;
  j_locked_at : option time;
  j_lease_expires_at : option time;
  j_lock_token : option uuid;
  j_run_owner_id : option string;
  j_owner_kind : JobOwnerKind;
  j_last_error : option string;
  j_dedupe_key : option string;
  j_target_node_id : option string;
  j_retry_window_started_at : option time;
  j_created_at : time;
  j_updated_at : time;
  j_completed_at : option time
}.
#[export] Instance eta_Job : Eta Job := fun j =>
  MkJob (j_id j) (j_org_id j) (j_queue j) (j_job_type j) (j_payload j) (j_priority j)
    (j_status j) (j_attempts j) (j_max_attempts j) (j_run_at j) (j_locked_by_node_id j)
    (j_locked_at j) (j_lease_expires_at j) (j_lock_token j) (j_run_owner_id j)
    (j_owner_kind j) (j_last_error j) (j_dedupe_key j) (j_target_node_id j)
    (j_retry_window_started_at j) (j_created_at j) (j_updated_at j) (j_completed_at j).

(** A row of [nodes]: models.Node.  [n_metadata] is the heartbeat metadata. *)
Record Node := MkNode {
  n_id : string;
  n_mode : NodeMode;
  n_host : string;
  n_status : NodeStatus;
  n_drain_intent : DrainIntent;
  n_metadata : payload;
  n_started_at : time;
  n_last_heartbeat_at : time;
  n_drain_requested_at : option time;
  n_drain_budget_expires_at : option time;
  n_drain_requested_by : string;
  n_drain_reason : string;
  n_lifecycle_writer_version : Z
}.
#[export] Instance eta_Node : Eta Node := fun n =>
  MkNode (n_id n) (n_mode n) (n_host n) (n_status n) (n_drain_intent n) (n_metadata n)
    (n_started_at n) (n_last_heartbeat_at n) (n_drain_requested_at n)
    (n_drain_budget_expires_at n) (n_drain_requested_by n) (n_drain_reason n)
    (n_lifecycle_writer_version n).

(** A row of [session_executors]: models.SessionExecutor. *)
Record SessionExecutor := MkSessionExecutor {
  se_id : uuid;
  se_org_id : uuid;
  se_session_id : uuid;
  se_thread_id : option uuid;
  se_job_id : uuid;
  se_job_type : string;
  se_host_node_id : string;
  se_owner_id : string;
  se_lock_token : uuid;
  se_status : SessionExecutorStatus;
  se_container_id : option string;
  se_image : string;
  se_build_sha : string;
  se_heartbeat_at : option time;
  se_lease_expires_at : option time;
  se_runtime_deadline_at : option time;
  se_drain_intent : DrainIntent;
  se_drain_requested_at : option time;
  se_drain_deadline_at : option time;
  se_started_at : time;
  se_completed_at : option time;
  se_exit_code : option Z;
  se_last_error : option string;
  se_created_at : time;
  se_updated_at : time;
  se_lifecycle_writer_version : Z
}.
#[export] Instance eta_SessionExecutor : Eta SessionExecutor := fun e =>
  MkSessionExecutor (se_id e) (se_org_id e) (se_session_id e) (se_thread_id e) (se_job_id e)
    (se_job_type e) (se_host_node_id e) (se_owner_id e) (se_lock_token e) (se_status e)
    (se_container_id e) (se_image e) (se_build_sha e) (se_heartbeat_at e)
    (se_lease_expires_at e) (se_runtime_deadline_at e) (se_drain_intent e)
    (se_drain_requested_at e) (se_drain_deadline_at e) (se_started_at e)
    (se_completed_at e) (se_exit_code e) (se_last_error e) (se_created_at e) (se_updated_at e)
    (se_lifecycle_writer_version e).

(** A row of [sessions], the columns the plane uses. *)
Record Session := MkSession {
  s_id : uuid;
  s_org_id : uuid;
  s_status : SessionStatus;
  s_snapshot_key : option string;
  s_recovery_state : string;
  s_recovery_queued_at : option time;
  s_recovery_started_at : option time;
  s_runtime_stop_reason : string;
  s_automation_owner_generation_id : option uuid;
  s_turn_holding_container : bool;
  s_current_turn : Z;
  s_archived_at : option time;
  s_deleted_at : option time;
  s_agent_type : string;
  s_model_override : option string;
  s_reasoning_effort : option string;
  s_triggered_by_user_id : option uuid;
  s_pending_snapshot_key : option string;
  s_checkpoint_kind : string;
  s_checkpoint_size_bytes : Z;
  s_checkpointed_at : option time;
  s_sandbox_state : string;
  s_result_summary : option string;
  s_runtime_soft_deadline_at : option time;
  s_runtime_hard_deadline_at : option time;
  s_started_at : option time;
  s_completed_at : option time;
  s_last_activity_at : time;
  s_container_id : option string;
  s_worker_node_id : option string;
  s_code_review_owner_pr_id : option uuid;
  s_workspace_generation : Z;
  s_agent_session_id : option string;
  s_recovery_attempt_count : Z;
  s_runtime_graceful_stop_at : option time;
  s_runtime_extension_count : Z;
  s_runtime_extension_seconds : Z;
  s_pending_snapshot_set_at : option time
}.
#[export] Instance eta_Session : Eta Session := fun s =>
  MkSession (s_id s) (s_org_id s) (s_status s) (s_snapshot_key s) (s_recovery_state s)
    (s_recovery_queued_at s) (s_recovery_started_at s) (s_runtime_stop_reason s)
    (s_automation_owner_generation_id s) (s_turn_holding_container s) (s_current_turn s)
    (s_archived_at s) (s_deleted_at s) (s_agent_type s) (s_model_override s)
    (s_reasoning_effort s) (s_triggered_by_user_id s) (s_pending_snapshot_key s)
    (s_checkpoint_kind s) (s_checkpoint_size_bytes s) (s_checkpointed_at s)
    (s_sandbox_state s) (s_result_summary s) (s_runtime_soft_deadline_at s)
    (s_runtime_hard_deadline_at s) (s_started_at s) (s_completed_at s) (s_last_activity_at s)
    (s_container_id s) (s_worker_node_id s) (s_code_review_owner_pr_id s) (s_workspace_generation s)
    (s_agent_session_id s) (s_recovery_attempt_count s) (s_runtime_graceful_stop_at s)
    (s_runtime_extension_count s) (s_runtime_extension_seconds s) (s_pending_snapshot_set_at s).

(** A row as it is inserted, with the defaults of the schema. *)
Definition inserted_session (id org : uuid) (status : SessionStatus) (agent_type : string)
    (model effort : option string) (user : option uuid) (now : time) : Session :=
  MkSession id org status None "" None None "" None false 0 None None agent_type model effort
    user None "" 0 None "none" None None None None None now
    None None None 0 None 0 None 0 0 None.

(** A row of [session_threads], the columns the plane uses. *)
Record SessionThread := MkSessionThread {
  th_id : uuid;
  th_org_id : uuid;
  th_session_id : uuid;
  th_status : string;
  th_archived_at : option time;
  th_created_at : time;
  th_cancel_requested_at : option time;
  th_current_turn : Z;
  th_last_activity_at : option time;
  th_agent_session_id : option string;
  th_result_summary : option string;
  th_diff : option string;
  th_failure_explanation : option string;
  th_failure_category : option string;
  th_started_at : option time;
  th_completed_at : option time
}.
#[export] Instance eta_SessionThread : Eta SessionThread := fun th =>
  MkSessionThread (th_id th) (th_org_id th) (th_session_id th) (th_status th) (th_archived_at th)
    (th_created_at th) (th_cancel_requested_at th) (th_current_turn th) (th_last_activity_at th)
    (th_agent_session_id th) (th_result_summary th) (th_diff th) (th_failure_explanation th)
    (th_failure_category th) (th_started_at th) (th_completed_at th).
Definition inserted_thread (id org session : uuid) (status : string) (now : time) : SessionThread :=
  MkSessionThread id org session status None now None 0 None None None None None None None None.

(** A row of [thread_runtimes]: models.ThreadRuntime. *)
Record ThreadRuntime := MkThreadRuntime {
  tr_id : uuid;
  tr_org_id : uuid;
  tr_session_id : uuid;
  tr_thread_id : uuid;
  tr_sandbox_id : uuid;
  tr_container_id : string;
  tr_runtime_handle_id : string;
  tr_agent_type : string;
  tr_model : option string;
  tr_status : ThreadRuntimeStatus;
  tr_owner_node_id : string;
  tr_lease_token : uuid;
  tr_last_delivered_sequence : Z;
  tr_last_acked_sequence : Z;
  tr_base_workspace_generation : Z;
  tr_current_workspace_generation : Z;
  tr_started_at : time;
  tr_heartbeat_at : option time;
  tr_lease_expires_at : option time;
  tr_closed_at : option time;
  tr_stop_reason : option string;
  tr_last_error : option string;
  tr_created_at : time;
  tr_updated_at : time
}.
#[export] Instance eta_ThreadRuntime : Eta ThreadRuntime := fun r =>
  MkThreadRuntime (tr_id r) (tr_org_id r) (tr_session_id r) (tr_thread_id r)
    (tr_sandbox_id r) (tr_container_id r) (tr_runtime_handle_id r) (tr_agent_type r) (tr_model r)
    (tr_status r) (tr_owner_node_id r) (tr_lease_token r) (tr_last_delivered_sequence r)
    (tr_last_acked_sequence r) (tr_base_workspace_generation r) (tr_current_workspace_generation r)
    (tr_started_at r) (tr_heartbeat_at r) (tr_lease_expires_at r) (tr_closed_at r)
    (tr_stop_reason r) (tr_last_error r) (tr_created_at r) (tr_updated_at r).

(** A row of [thread_inbox_entries]: models.ThreadInboxEntry. *)
Record ThreadInboxEntry := MkThreadInboxEntry {
  e_id : uuid;
  e_org_id : uuid;
  e_session_id : uuid;
  e_thread_id : uuid;
  e_sequence_no : Z;
  e_message_id : option Z;
  e_client_message_id : option string;
  e_entry_type : ThreadInboxEntryType;
  e_payload : payload;
  e_delivery_state : ThreadInboxDeliveryState;
  e_delivery_attempts : Z;
  e_last_error : option string;
  e_owner_node_id : option string;
  e_runtime_id : option uuid;
  e_accepted_at : time;
  e_delivered_at : option time;
  e_acked_at : option time;
  e_applied_at : option time;
  e_created_at : time;
  e_updated_at : time
}.
#[export] Instance eta_ThreadInboxEntry : Eta ThreadInboxEntry := fun e =>
  MkThreadInboxEntry (e_id e) (e_org_id e) (e_session_id e) (e_thread_id e)
    (e_sequence_no e) (e_message_id e) (e_client_message_id e) (e_entry_type e)
    (e_payload e) (e_delivery_state e) (e_delivery_attempts e) (e_last_error e) (e_owner_node_id e)
    (e_runtime_id e) (e_accepted_at e) (e_delivered_at e) (e_acked_at e) (e_applied_at e)
    (e_created_at e) (e_updated_at e).

(** A row of [session_messages], the columns the plane uses. *)
Record SessionMessage := MkSessionMessage {
  m_id : Z;
  m_org_id : uuid;
  m_session_id : uuid;
  m_thread_id : option uuid;
  m_role : string;
  m_created_at : time;
  m_activity_phase_id : option uuid;
  m_turn_number : Z;
  m_content : string;
  m_source : string;
  m_automation_run_id : option uuid
}.

(** models.ActivityPhaseStatus, ActivityPhaseBoundaryReason,
    ActivityPhaseTriggerKind and InboxDeliveryBatchStatus. *)
Inductive ActivityPhaseStatus :=
  | ActivityPhaseStatusRunning | ActivityPhaseStatusCompleted | ActivityPhaseStatusFailed
  | ActivityPhaseStatusCancelled | ActivityPhaseStatusInterrupted.
#[export] Instance ActivityPhaseStatus_eq_dec : EqDecision ActivityPhaseStatus.
Proof. solve_decision. Defined.
Inductive ActivityPhaseBoundaryReason :=
  | ActivityPhaseBoundaryFinalResponse | ActivityPhaseBoundaryHumanInput | ActivityPhaseBoundaryApproval
  | ActivityPhaseBoundaryPlanApproval | ActivityPhaseBoundarySteered | ActivityPhaseBoundaryMaintenance
  | ActivityPhaseBoundaryRuntimeLost | ActivityPhaseBoundaryCapacitySuspended
  | ActivityPhaseBoundaryInterrupted | ActivityPhaseBoundaryStopped | ActivityPhaseBoundaryCancelled
  | ActivityPhaseBoundaryError.
#[export] Instance ActivityPhaseBoundaryReason_eq_dec : EqDecision ActivityPhaseBoundaryReason.
Proof. solve_decision. Defined.
Inductive ActivityPhaseTriggerKind :=
  | ActivityPhaseTriggerInitial | ActivityPhaseTriggerInboxBatch | ActivityPhaseTriggerRecovery.
#[export] Instance ActivityPhaseTriggerKind_eq_dec : EqDecision ActivityPhaseTriggerKind.
Proof. solve_decision. Defined.
Inductive InboxDeliveryBatchStatus :=
  | InboxDeliveryBatchAcknowledged | InboxDeliveryBatchStarted | InboxDeliveryBatchAbandoned.
#[export] Instance InboxDeliveryBatchStatus_eq_dec : EqDecision InboxDeliveryBatchStatus.
Proof. solve_decision. Defined.

(** A row of [session_activity_phases]: models.SessionActivityPhase. *)
Record SessionActivityPhase := MkSessionActivityPhase {
  ph_id : uuid;
  ph_org_id : uuid;
  ph_session_id : uuid;
  ph_thread_id : uuid;
  ph_turn_number : Z;
  ph_phase_number : Z;
  ph_status : ActivityPhaseStatus;
  ph_boundary_reason : option ActivityPhaseBoundaryReason;
  ph_started_at : time;
  ph_completed_at : option time;
  ph_runtime_id : option uuid;
  ph_trigger_kind : ActivityPhaseTriggerKind;
  ph_trigger_batch_id : option uuid;
  ph_trigger_sequence_start : option Z;
  ph_trigger_sequence_end : option Z;
  ph_created_at : time;
  ph_updated_at : time
}.
#[export] Instance eta_SessionActivityPhase : Eta SessionActivityPhase := fun p =>
  MkSessionActivityPhase (ph_id p) (ph_org_id p) (ph_session_id p) (ph_thread_id p) (ph_turn_number p)
    (ph_phase_number p) (ph_status p) (ph_boundary_reason p) (ph_started_at p) (ph_completed_at p)
    (ph_runtime_id p) (ph_trigger_kind p) (ph_trigger_batch_id p) (ph_trigger_sequence_start p)
    (ph_trigger_sequence_end p) (ph_created_at p) (ph_updated_at p).

(** A row of [thread_inbox_delivery_batches]: models.ThreadInboxDeliveryBatch. *)
Record ThreadInboxDeliveryBatch := MkThreadInboxDeliveryBatch {
  b_id : uuid;
  b_org_id : uuid;
  b_session_id : uuid;
  b_thread_id : uuid;
  b_runtime_id : uuid;
  b_sequence_start : Z;
  b_sequence_end : Z;
  b_status : InboxDeliveryBatchStatus;
  b_acknowledged_at : time;
  b_started_at : option time;
  b_abandoned_at : option time;
  b_created_at : time;
  b_updated_at : time
}.
#[export] Instance eta_ThreadInboxDeliveryBatch : Eta ThreadInboxDeliveryBatch := fun b =>
  MkThreadInboxDeliveryBatch (b_id b) (b_org_id b) (b_session_id b) (b_thread_id b) (b_runtime_id b)
    (b_sequence_start b) (b_sequence_end b) (b_status b) (b_acknowledged_at b) (b_started_at b)
    (b_abandoned_at b) (b_created_at b) (b_updated_at b).

(** A row of [session_sandbox_holders]: models.SessionSandboxHolder. *)
Record SandboxHolder := MkSandboxHolder {
  h_id : uuid;
  h_org_id : uuid;
  h_session_id : uuid;
  h_container_id : string;
  h_holder_kind : string;
  h_holder_id : uuid;
  h_owner_node_id : string;
  h_lease_token : uuid;
  h_status : string;
  h_heartbeat_at : time;
  h_expires_at : time;
  h_created_at : time;
  h_released_at : option time;
  h_updated_at : time
}.
#[export] Instance eta_SandboxHolder : Eta SandboxHolder := fun h =>
  MkSandboxHolder (h_id h) (h_org_id h) (h_session_id h) (h_container_id h) (h_holder_kind h)
    (h_holder_id h) (h_owner_node_id h) (h_lease_token h) (h_status h) (h_heartbeat_at h)
    (h_expires_at h) (h_created_at h) (h_released_at h) (h_updated_at h).

(** A row of [session_changesets], the columns the plane uses. *)
Record Changeset := MkChangeset {
  cs_id : uuid;
  cs_org_id : uuid;
  cs_session_id : uuid;
  cs_pr_creation_state : PRCreationState;
  cs_pr_creation_error : option string;
  cs_updated_at : time
}.
#[export] Instance eta_Changeset : Eta Changeset := fun c =>
  MkChangeset (cs_id c) (cs_org_id c) (cs_session_id c) (cs_pr_creation_state c)
    (cs_pr_creation_error c) (cs_updated_at c).

(** A row of [worker_retirement_seals]: db.NodeRetirementSeal. *)
Record RetirementSeal := MkRetirementSeal {
  sl_node_id : string;
  sl_deploy_id : string;
  sl_build_sha : string;
  sl_sealed_at : time
}.

(** A row of [worker_deploy_events], in the order of its serial id. *)
Record DeployEvent := MkDeployEvent {
  de_deploy_id : string;
  de_node_id : string;
  de_host : string;
  de_build_sha : string;
  de_event_type : string;
  de_drain_intent : DrainIntent;
  de_requested_by : string;
  de_reason : string;
  de_metadata : payload;
  de_created_at : time
}.

(** ** The database *)

Record DB := MkDB {
  jobs : list Job;
  nodes : list Node;
  session_executors : list SessionExecutor;
  sessions : list Session;
  session_threads : list SessionThread;
  thread_runtimes : list ThreadRuntime;
  thread_inbox_entries : list ThreadInboxEntry;
  session_messages : list SessionMessage;
  session_activity_phases : list SessionActivityPhase;
  thread_inbox_delivery_batches : list ThreadInboxDeliveryBatch;
  session_sandbox_holders : list SandboxHolder;
  session_changesets : list Changeset;
  worker_retirement_seals : list RetirementSeal;
  worker_deploy_events : list DeployEvent
}.
#[export] Instance eta_DB : Eta DB := fun d =>
  MkDB (jobs d) (nodes d) (session_executors d) (sessions d) (session_threads d)
    (thread_runtimes d) (thread_inbox_entries d) (session_messages d)
    (session_activity_phases d) (thread_inbox_delivery_batches d) (session_sandbox_holders d) (session_changesets d)
    (worker_retirement_seals d) (worker_deploy_events d).

(** Only the phase store writes phases and delivery batches. *)
Definition same_phases (db db' : DB) : Prop :=
  session_activity_phases db' = session_activity_phases db
  /\ thread_inbox_delivery_batches db' = thread_inbox_delivery_batches db.

Definition empty_db : DB := MkDB [] [] [] [] [] [] [] [] [] [] [] [] [] [].

(** ** Shared predicates on rows *)

(** [status IN ('pending', 'running')]: the job still owns its dedupe key. *)
Definition job_active (j : Job) : bool :=
  match j_status j with JobStatusPending | JobStatusRunning => true | _ => false end.

(** [job_type IN ('run_agent', 'continue_session')]. *)
Definition session_job_type (t : string) : bool :=
  (t ==? "run_agent") || (t ==? "continue_session").

(** [status IN ('starting', 'running', 'draining')]. *)
Definition executor_active (e : SessionExecutor) : bool :=
  match se_status e with
  | SessionExecutorStatusStarting | SessionExecutorStatusRunning
  | SessionExecutorStatusDraining => true
  | _ => false
  end.

(** [status IN ('starting', 'live', 'paused', 'draining')]. *)
Definition runtime_active (r : ThreadRuntime) : bool :=
  match tr_status r with
  | ThreadRuntimeStatusStarting | ThreadRuntimeStatusLive | ThreadRuntimeStatusPaused
  | ThreadRuntimeStatusDraining => true
  | _ => false
  end.

(** [status IN ('starting', 'live', 'paused')]. *)
Definition runtime_attachable (r : ThreadRuntime) : bool :=
  match tr_status r with
  | ThreadRuntimeStatusStarting | ThreadRuntimeStatusLive | ThreadRuntimeStatusPaused => true
  | _ => false
  end.

(** [status IN ('completed', 'failed', 'cancelled', 'skipped')]. *)
Definition session_ended (s : Session) : bool :=
  match s_status s with
  | SessionStatusCompleted | SessionStatusFailed | SessionStatusCancelled
  | SessionStatusSkipped => true
  | _ => false
  end.

(** [mode IN ('worker', 'all')]. *)
Definition worker_mode (n : Node) : bool :=
  match n_mode n with NodeModeWorker | NodeModeAll => true | NodeModeAPI => false end.
