(* ===== verification/Continuation.v ===== *)
(** * Recovery of an interrupted continuation turn

    internal/db/continuation_recovery.go: the payload a job is requeued with
    ([continuationRetryPayloadSQL], evaluated in the same fenced write that
    releases the lease), the recording of the attempt that a later requeue
    relies on, and the checks a recovering executor makes. *)

From S2P Require Import Prelude Sql Tables.
From stdpp Require Import base option list strings pretty gmap.

Open Scope string_scope.
Open Scope Z_scope.

(** [(SELECT t.id FROM session_threads t WHERE ... archived_at IS NULL
    ORDER BY t.created_at, t.id LIMIT 1)]. *)
Definition thread_le (a b : SessionThread) : bool :=
  (th_created_at a <? th_created_at b)
  || ((th_created_at a =? th_created_at b) && String.leb (th_id a) (th_id b)).
Definition first_open_thread (db : DB) (org session : uuid) : option uuid :=
  match order_by thread_le
          (select (fun t => (th_org_id t ==? org) && (th_session_id t ==? session)
                            && is_null (th_archived_at t)) (session_threads db)) with
  | t :: _ => Some (th_id t)
  | [] => None
  end.

(** A message belongs to a thread, or has no thread and the thread is the
    first open one of the session. *)
Definition message_in_thread (db : DB) (m : SessionMessage) (org session thread : uuid) : bool :=
  col_is (m_thread_id m) thread
  || (is_null (m_thread_id m) && col_is (first_open_thread db org session) thread).

Definition boundary_outcome (p : SessionActivityPhase) : bool :=
  (ph_status p <>? ActivityPhaseStatusRunning)
  && match ph_boundary_reason p with
     | Some ActivityPhaseBoundaryFinalResponse | Some ActivityPhaseBoundaryHumanInput
     | Some ActivityPhaseBoundaryApproval | Some ActivityPhaseBoundaryPlanApproval
     | Some ActivityPhaseBoundaryCancelled | Some ActivityPhaseBoundaryStopped => true
     | _ => false
     end.

Definition phase_of_runtime (p : SessionActivityPhase) (r : ThreadRuntime) : bool :=
  (ph_org_id p ==? tr_org_id r) && (ph_session_id p ==? tr_session_id r)
  && (ph_thread_id p ==? tr_thread_id r) && col_is (ph_runtime_id p) (tr_id r).

(** [continuationRuntimeHasOutcomeSQL]. *)
Definition continuationRuntimeHasOutcome (db : DB) (r : ThreadRuntime) (m : SessionMessage) : bool :=
  exists_row (fun p => phase_of_runtime p r && boundary_outcome p) (session_activity_phases db)
  || exists_row (fun response =>
       (m_org_id response ==? tr_org_id r) && (m_session_id response ==? tr_session_id r)
       && col_is (m_thread_id response) (tr_thread_id r)
       && (m_role response ==? "assistant") && is_null (m_activity_phase_id response)
       && (m_id m <? m_id response) && (tr_started_at r <=? m_created_at response)
       && negb (exists_row (fun p => phase_of_runtime p r) (session_activity_phases db)))
     (session_messages db).

(** [jsonb_array_elements(CASE WHEN v IS NULL THEN [] WHEN array THEN v ELSE [v])]. *)
Definition json_elements (v : option json) : list scalar :=
  match v with
  | None => []
  | Some (JArr l) => l
  | Some (JScalar s) => [s]
  end.

(** The order of jsonb scalars: null, strings, numbers, booleans. *)
Definition scalar_rank (s : scalar) : Z :=
  match s with SNull => 0 | SStr _ => 1 | SInt _ => 2 | SBool _ => 3 | SRaw _ => 4 end.
Definition scalar_le (a b : scalar) : bool :=
  match a, b with
  | SStr x, SStr y => String.leb x y
  | SInt x, SInt y => x <=? y
  | SBool x, SBool y => implb x y
  | SRaw x, SRaw y => String.leb x y
  | _, _ => scalar_rank a <=? scalar_rank b
  end.

(** [continuationRecoveryMessageIDsSQL]: the union of every recorded identity
    and of the input confirmed by the runtime, ordered. *)
Definition continuationRecoveryMessageIDs (db : DB) (j : Job) (r : ThreadRuntime) : list scalar :=
  order_by scalar_le (remove_dups
    (json_elements (j_payload j !! "continuation_task_message_ids")
     ++ json_elements (j_payload j !! "recovery_message_ids")
     ++ omap (fun e => SInt <$> e_message_id e)
          (select (fun input =>
             (e_org_id input ==? tr_org_id r) && (e_session_id input ==? tr_session_id r)
             && (e_thread_id input ==? tr_thread_id r) && col_is (e_runtime_id input) (tr_id r)
             && (e_delivery_state input ==? ThreadInboxDeliveryStateAcked)
             && negb (is_null (e_applied_at input))) (thread_inbox_entries db)))).

(** Only ordinary continuation attempts participate. *)
Definition ordinary_continuation (j : Job) : bool :=
  let p := j_payload j in
  ((j_job_type j ==? "continue_session")
   || ((j_job_type j ==? "run_agent") && (text_or_empty p "continuation_runtime_id" <>? "")))
  && ((text_or_empty p "execution_purpose" ==? "")
      || (text_or_empty p "execution_purpose" ==? "continue")
      || (text_or_empty p "execution_purpose" ==? "checkpoint_retry")
      || (text_or_empty p "execution_purpose" ==? "checkpoint_recovery"))
  && (text_or_empty p "command_type" ==? "")
  && (text_or_empty p "feedback_batch_id" ==? "")
  && (text_or_empty p "automation_run_id" ==? "")
  && (text_or_empty p "code_review_assessment_id" ==? "")
  && (text_or_empty p "human_input_request_id" ==? "")
  && (text_or_empty p "changeset_id" ==? "")
  && (text_or_empty p "post_success_action" ==? "").

(** The join of the inner SELECT: runtime, message and inbox entry that prove
    the original instruction boundary of the attempt. *)
Definition recovery_match (db : DB) (j : Job) (rme : ThreadRuntime * SessionMessage * ThreadInboxEntry) : bool :=
  let '(r, m, e) := rme in
  let p := j_payload j in
  let purpose := text_or_empty p "execution_purpose" in
  (m_org_id m ==? tr_org_id r) && (m_session_id m ==? tr_session_id r) && (m_role m ==? "user")
  && (e_org_id e ==? tr_org_id r) && (e_session_id e ==? tr_session_id r)
  && (e_thread_id e ==? tr_thread_id r) && col_is (e_message_id e) (m_id m)
  && (tr_org_id r ==? j_org_id j) && col_is (payload_text p "session_id") (tr_session_id r)
  && col_le (j_locked_at j) (tr_started_at r)
  && (col_is (text_nonempty p "continuation_runtime_id") (tr_id r)
      || ((text_or_empty p "continuation_runtime_id" ==? "")
          && (text_or_empty p "queued_message_id" <>? "") && col_is (e_runtime_id e) (tr_id r)))
  && (col_is (text_nonempty p "continuation_message_id") (pretty (m_id m))
      || (text_or_empty p "continuation_message_id" ==? ""))
  && (col_is (text_nonempty p "thread_id") (tr_thread_id r)
      || ((text_or_empty p "thread_id" ==? "")
          && col_is (first_open_thread db (j_org_id j) (tr_session_id r)) (tr_thread_id r)))
  && message_in_thread db m (j_org_id j) (tr_session_id r) (tr_thread_id r)
  && (e_delivery_state e ==? ThreadInboxDeliveryStateAcked) && negb (is_null (e_applied_at e))
  && (negb ((purpose ==? "") || (purpose ==? "continue")) || col_is (e_runtime_id e) (tr_id r))
  && (col_is (text_nonempty p "queued_message_id") (pretty (m_id m))
      || ((text_or_empty p "queued_message_id" ==? "") && col_is (e_runtime_id e) (tr_id r)
          && (m_created_at m <=? tr_started_at r))
      || (col_is (payload_text p "execution_purpose") "checkpoint_retry"
          && col_is (payload_text p "continuation_message_id") (pretty (m_id m))
          && exists_row (fun phase => phase_of_runtime phase r) (session_activity_phases db))).

(** [ORDER BY r.started_at DESC, r.id DESC, m.id DESC]. *)
Definition recovery_le (a b : ThreadRuntime * SessionMessage * ThreadInboxEntry) : bool :=
  let '(ra, ma, _) := a in
  let '(rb, mb, _) := b in
  (tr_started_at rb <? tr_started_at ra)
  || ((tr_started_at ra =? tr_started_at rb)
      && (String.ltb (tr_id rb) (tr_id ra)
          || ((tr_id ra ==? tr_id rb) && (m_id mb <=? m_id ma)))).

Definition recovery_candidates (db : DB) (j : Job) : list (ThreadRuntime * SessionMessage * ThreadInboxEntry) :=
  select (recovery_match db j)
    (list_prod (list_prod (thread_runtimes db) (session_messages db)) (thread_inbox_entries db)).

(** The payload of a proved recovery. *)
Definition recovery_payload (db : DB) (j : Job) (r : ThreadRuntime) (m : SessionMessage) : payload :=
  list_to_map [ ("thread_id", jstr (tr_thread_id r));
                ("queued_message_id", jstr (pretty (m_id m)));
                ("execution_purpose", jstr "checkpoint_recovery");
                ("recovery_runtime_id", jstr (tr_id r));
                ("recovery_message_ids", JArr (continuationRecoveryMessageIDs db j r)) ]
  ∪ delete "recovery_runtime_id" (delete "execution_purpose" (j_payload j)).

(** Input was applied by an untracked runtime of this lease. *)
Definition unproven_input (db : DB) (j : Job) : bool :=
  let p := j_payload j in
  (text_or_empty p "continuation_runtime_id" ==? "") && (text_or_empty p "queued_message_id" ==? "")
  && exists_row (fun oi : ThreadRuntime * ThreadInboxEntry =>
       let '(old, input) := oi in
       (e_org_id input ==? tr_org_id old) && (e_session_id input ==? tr_session_id old)
       && (e_thread_id input ==? tr_thread_id old) && col_is (e_runtime_id input) (tr_id old)
       && (tr_org_id old ==? j_org_id j) && col_is (payload_text p "session_id") (tr_session_id old)
       && col_le (j_locked_at j) (tr_started_at old)
       && col_is (payload_text p "thread_id") (tr_thread_id old)
       && (e_delivery_state input ==? ThreadInboxDeliveryStateAcked)
       && negb (is_null (e_applied_at input)))
     (list_prod (thread_runtimes db) (thread_inbox_entries db)).

(** [continuationRetryPayloadSQL]. *)
Definition continuation_retry_payload (db : DB) (j : Job) : payload :=
  if ordinary_continuation j then
    match order_by recovery_le (recovery_candidates db j) with
    | (r, m, _) :: _ => recovery_payload db j r m
    | [] =>
        if unproven_input db j
        then list_to_map [ ("execution_purpose", jstr "checkpoint_recovery");
                           ("recovery_unproven", JScalar (SBool true)) ] ∪ j_payload j
        else j_payload j
    end
  else j_payload j.

(** InspectContinuationRecovery: the outcome and settled bits of an attempt,
    an error when the ownership proof is missing. *)
Definition InspectContinuationRecovery (db : DB) (orgID sessionID threadID runtimeID : uuid)
    (messageID : Z) : result (bool * bool) :=
  let rows := select (fun rme : ThreadRuntime * SessionMessage * ThreadInboxEntry =>
      let '(r, m, e) := rme in
      (tr_org_id r ==? orgID) && (tr_session_id r ==? sessionID)
      && (tr_thread_id r ==? threadID) && (tr_id r ==? runtimeID)
      && (m_org_id m ==? tr_org_id r) && (m_session_id m ==? tr_session_id r)
      && (m_id m =? messageID) && (m_role m ==? "user")
      && (e_org_id e ==? tr_org_id r) && (e_session_id e ==? tr_session_id r)
      && (e_thread_id e ==? tr_thread_id r) && col_is (e_message_id e) (m_id m)
      && (e_delivery_state e ==? ThreadInboxDeliveryStateAcked) && negb (is_null (e_applied_at e)))
    (list_prod (list_prod (thread_runtimes db) (session_messages db)) (thread_inbox_entries db)) in
  match rows with
  | (r, m, _) :: _ =>
      Ok (continuationRuntimeHasOutcome db r m,
          exists_row (fun p =>
            phase_of_runtime p r && boundary_outcome p
            && exists_row (fun t =>
                 (th_org_id t ==? ph_org_id p) && (th_session_id t ==? ph_session_id p)
                 && (th_id t ==? ph_thread_id p)
                 && (th_status t <>? "pending") && (th_status t <>? "running")
                 && (ph_turn_number p <=? th_current_turn t)
                 && match ph_completed_at p with
                    | Some c => negb (col_lt (th_last_activity_at t) c) && negb (is_null (th_last_activity_at t))
                    | None => false
                    end) (session_threads db)
            && exists_row (fun s => (s_org_id s ==? ph_org_id p) && (s_id s ==? ph_session_id p))
                 (sessions db))
            (session_activity_phases db))
  | [] => Err "verify continuation recovery receipt: no rows in result set"
  end.

(** RecordContinuationAttemptWithLease. *)
Definition record_attempt_payload (j : Job) (threadID runtimeID : uuid) (messageID : Z)
    (taskMessageIDs : list Z) : payload :=
  let base := list_to_map [ ("continuation_runtime_id", jstr runtimeID);
                            ("continuation_message_id", jstr (pretty messageID));
                            ("thread_id", jstr threadID);
                            ("continuation_task_message_ids", JArr (map SInt taskMessageIDs)) ]
              ∪ j_payload j in
  if col_is (payload_text (j_payload j) "execution_purpose") "checkpoint_retry"
  then base
  else <["queued_message_id" := jstr (pretty messageID)]> base.

Definition attempt_recordable (db : DB) (clock : time) (orgID jobID jobToken sessionID threadID
    runtimeID runtimeToken : uuid) (messageID : Z) (taskMessageIDs : list Z) (j : Job) : bool :=
  let p := j_payload j in
  let user_message (m : SessionMessage) :=
    (m_org_id m ==? orgID) && (m_session_id m ==? sessionID) && (m_role m ==? "user")
    && message_in_thread db m orgID sessionID threadID in
  (j_org_id j ==? orgID) && (j_id j ==? jobID) && col_is (j_lock_token j) jobToken
  && (j_status j ==? JobStatusRunning) && session_job_type (j_job_type j)
  && col_is (payload_text p "session_id") sessionID
  && existsb (Z.eqb messageID) taskMessageIDs
  && ((text_or_empty p "thread_id" ==? "") || (text_or_empty p "thread_id" ==? threadID))
  && ((text_or_empty p "queued_message_id" ==? "")
      || (text_or_empty p "queued_message_id" ==? pretty messageID))
  && exists_row (fun r =>
       (tr_org_id r ==? orgID) && (tr_session_id r ==? sessionID) && (tr_thread_id r ==? threadID)
       && (tr_id r ==? runtimeID) && (tr_lease_token r ==? runtimeToken)
       && runtime_attachable r && col_gt (tr_lease_expires_at r) clock) (thread_runtimes db)
  && exists_row (fun m => (m_id m =? messageID) && user_message m) (session_messages db)
  && (count_rows (fun task => existsb (Z.eqb (m_id task)) taskMessageIDs && user_message task)
        (session_messages db)
      =? Z.of_nat (length (remove_dups taskMessageIDs))).

Definition RecordContinuationAttemptWithLease (now clock : time) (orgID jobID jobToken sessionID
    threadID runtimeID runtimeToken : uuid) (messageID : Z) (taskMessageIDs : list Z) (db : DB)
    : DB * bool :=
  let p := attempt_recordable db clock orgID jobID jobToken sessionID threadID runtimeID
             runtimeToken messageID taskMessageIDs in
  (db <| jobs := update p (fun j =>
           j <| j_payload := record_attempt_payload j threadID runtimeID messageID taskMessageIDs |>
             <| j_updated_at := now |>) (jobs db) |>,
   count_rows p (jobs db) =? 1).

(** ListAppliedRecoveryMessageIDs: every requested identity must be applied
    in this scope, otherwise recovery fails. *)
Definition original_runtime (db : DB) (orgID sessionID threadID : uuid) (messageID : Z)
    : option uuid :=
  match select (fun e =>
          (e_org_id e ==? orgID) && (e_session_id e ==? sessionID) && (e_thread_id e ==? threadID)
          && col_is (e_message_id e) messageID
          && (e_delivery_state e ==? ThreadInboxDeliveryStateAcked) && negb (is_null (e_applied_at e)))
          (thread_inbox_entries db) with
  | e :: _ => e_runtime_id e
  | [] => None
  end.
Definition applied_recovery_ids (db : DB) (orgID sessionID threadID : uuid) (messageID : Z)
    (requested : list Z) : list Z :=
  order_by Z.leb
    (omap (fun em : ThreadInboxEntry * SessionMessage => e_message_id em.1)
      (select (fun em : ThreadInboxEntry * SessionMessage =>
         let '(e, m) := em in
         (m_org_id m ==? e_org_id e) && (m_session_id m ==? e_session_id e)
         && col_is (e_message_id e) (m_id m) && (m_role m ==? "user")
         && (e_org_id e ==? orgID) && (e_session_id e ==? sessionID) && (e_thread_id e ==? threadID)
         && (e_delivery_state e ==? ThreadInboxDeliveryStateAcked) && negb (is_null (e_applied_at e))
         && (existsb (Z.eqb (m_id m)) requested
             || ((requested ==? [])
                 && match original_runtime db orgID sessionID threadID messageID with
                    | Some rt => col_is (e_runtime_id e) rt
                    | None => false
                    end))
         && message_in_thread db m orgID sessionID threadID)
       (list_prod (thread_inbox_entries db) (session_messages db)))).
Definition ListAppliedRecoveryMessageIDs (db : DB) (orgID sessionID threadID : uuid)
    (messageID : Z) (requested : list Z) : result (list Z) :=
  let ids := applied_recovery_ids db orgID sessionID threadID messageID requested in
  let expected := length (remove_dups requested) in
  if negb (existsb (Z.eqb messageID) ids) || (length ids =? 0)%nat
     || ((0 <? expected)%nat && negb (length ids =? expected)%nat)
  then Err "recovery task input lacks complete applied scope proof"
  else Ok ids.

(** ** What a requeue keeps *)

Lemma in_recovery_ids db j r s :
  In s (continuationRecoveryMessageIDs db j r) <->
  In s (json_elements (j_payload j !! "continuation_task_message_ids"))
  \/ In s (json_elements (j_payload j !! "recovery_message_ids"))
  \/ exists e id, In e (thread_inbox_entries db) /\ e_message_id e = Some id /\ s = SInt id
       /\ e_org_id e = tr_org_id r /\ e_session_id e = tr_session_id r
       /\ e_thread_id e = tr_thread_id r /\ e_runtime_id e = Some (tr_id r)
       /\ e_delivery_state e = ThreadInboxDeliveryStateAcked /\ e_applied_at e <> None.
Proof.
  unfold continuationRecoveryMessageIDs. rewrite in_order_by.
  rewrite <- !list_elem_of_In, elem_of_remove_dups, !elem_of_app, !list_elem_of_In.
  apply or_iff_compat_l, or_iff_compat_l.
  rewrite <- list_elem_of_In, list_elem_of_omap. split.
  - intros (e & He & Hs). apply list_elem_of_In, in_filter_iff in He as [He Hp].
    destruct (e_message_id e) as [id|] eqn:Hid; simplify_eq/=.
    exists e, id. unfold col_is in Hp. reflect_bools.
    destruct (e_applied_at e); simplify_eq/=. repeat (split; [done|]). done.
  - intros (e & id & He & Hid & -> & ? & ? & ? & ? & ? & Hap).
    exists e. rewrite Hid. split; [|done].
    apply list_elem_of_In, in_filter_iff. split; [done|]. unfold col_is.
    destruct (e_applied_at e); [|done].
    rewrite !bool_decide_eq_true_2 by done. done.
Qed.

Lemma payload_text_union_l (p q : payload) k v :
  p !! k = Some v -> payload_text (p ∪ q) k = json_text v.
Proof. intros H. unfold payload_text. by rewrite (lookup_union_Some_l _ _ _ _ H). Qed.

(** A payload is either kept or marked as a checkpoint recovery. *)
Lemma retry_payload_cases db j :
  continuation_retry_payload db j = j_payload j
  \/ (payload_text (continuation_retry_payload db j) "execution_purpose" = Some "checkpoint_recovery"
      /\ ordinary_continuation j = true).
Proof.
  unfold continuation_retry_payload.
  destruct (ordinary_continuation j) eqn:Ho; [|by left].
  destruct (order_by _ _) as [|[[r m] e] l].
  - destruct (unproven_input db j); [right|by left].
    by rewrite (payload_text_union_l _ _ _ (jstr "checkpoint_recovery")).
  - right. unfold recovery_payload.
    by rewrite (payload_text_union_l _ _ _ (jstr "checkpoint_recovery")).
Qed.
