(* ===== verification/JobStore.v ===== *)
(** * The durable job queue

    internal/db/jobs.go: every operation of [JobStore] that writes the [jobs]
    table and the lookups its callers decide on, with the triggers of the schema that guard it.  A
    statement takes the clocks it reads ([now] for the transaction timestamp
    of PostgreSQL, [wall] for [time.Now()] of the caller), the fresh
    identifiers it draws and, for [FOR UPDATE SKIP LOCKED], the set [locked]
    of rows held by concurrent transactions. *)

From S2P Require Import Prelude Sql Tables Continuation.
From stdpp Require Import base option list strings pretty gmap.

Open Scope string_scope.
Open Scope Z_scope.

(** ** Dedupe keys *)

Definition RunAgentDedupeKey (sessionID : uuid) : string := "run_agent:" +:+ sessionID.
Definition OpenPRDedupeKey (changesetID : uuid) : string := "open_pr:" +:+ changesetID.
Definition ContinueSessionDedupeKey (scopeID : uuid) : string := "continue_session:" +:+ scopeID.

Definition RunAgentPayload (sessionID orgID : uuid) (primaryThreadID : option uuid) : payload :=
  let base : payload := {[ "session_id" := jstr sessionID; "org_id" := jstr orgID ]} in
  match primaryThreadID with
  | Some t => if t ==? uuid_Nil then base else <["thread_id" := jstr t]> base
  | None => base
  end.

(** ** Admission triggers *)

(** check_worker_retirement_admission: a sealed generation is rejected. *)
Definition retirement_admits (db : DB) (node : option string) : bool :=
  match node with
  | None => true
  | Some n => (n ==? "") || negb (exists_row (fun s => sl_node_id s ==? n) (worker_retirement_seals db))
  end.

(** guard_worker_retirement_job on UPDATE. *)
Definition guard_worker_retirement_job (db : DB) (old new : Job) : bool :=
  if j_status new ==? JobStatusRunning then
    if (j_status old <>? JobStatusRunning)
       || (j_locked_by_node_id new <>? j_locked_by_node_id old)
       || (j_lock_token new <>? j_lock_token old)
       || (j_run_owner_id new <>? j_run_owner_id old)
       || (j_owner_kind new <>? j_owner_kind old)
    then retirement_admits db (j_locked_by_node_id new)
    else true
  else true.

(** An UPDATE of [jobs] under the trigger: one rejected row fails the
    statement and nothing is written. *)
Definition update_jobs (db : DB) (p : Job -> bool) (f : Job -> Job) : result DB :=
  if forallb (fun j => negb (p j) || guard_worker_retirement_job db j (f j)) (jobs db)
  then Ok (db <| jobs := update p f (jobs db) |>)
  else Err "worker generation is sealed for retirement".

(** The columns every release of a job resets. *)
Definition release_lock (now : time) (j : Job) : Job :=
  j <| j_locked_by_node_id := None |>
    <| j_run_owner_id := None |>
    <| j_owner_kind := JobOwnerKindWorker |>
    <| j_lock_token := None |>
    <| j_locked_at := None |>
    <| j_lease_expires_at := None |>
    <| j_updated_at := now |>.

(** ** Enqueue *)

Record EnqueueOpts := MkEnqueueOpts {
  eo_Queue : string;
  eo_JobType : string;
  eo_Payload : payload;
  eo_Priority : Z;
  eo_DedupeKey : option string;
  eo_RunAt : option time;
  eo_MaxAttempts : Z;
  eo_TargetNodeID : option string
}.

(** A row in conflict with the insert: the primary key, or the partial unique
    index on (queue, dedupe_key) of active jobs. *)
Definition dedupe_conflict (queue : string) (key : option string) (j : Job) : bool :=
  match key with
  | Some k => (j_queue j ==? queue) && col_is (j_dedupe_key j) k && job_active j
  | None => false
  end.

Definition new_job (now : time) (fresh orgID : uuid) (opts : EnqueueOpts) : Job :=
  MkJob fresh orgID (eo_Queue opts) (eo_JobType opts) (eo_Payload opts) (eo_Priority opts)
    JobStatusPending 0
    (if 0 <? eo_MaxAttempts opts then eo_MaxAttempts opts else 3)
    (default now (eo_RunAt opts))
    None None None None None JobOwnerKindWorker None
    (eo_DedupeKey opts) (eo_TargetNodeID opts) None now now None.

Definition enqueueOn (now : time) (fresh orgID : uuid) (opts : EnqueueOpts) (db : DB)
    : result (DB * uuid) :=
  if eo_MaxAttempts opts <? 0 then Err "max attempts must not be negative"
  else if eo_JobType opts ==? "run_pr_readiness"
  then Err "job type was removed with the PR readiness subsystem"
  else if exists_row (fun j => (j_id j ==? fresh)
                               || dedupe_conflict (eo_Queue opts) (eo_DedupeKey opts) j) (jobs db)
  then Ok (db, uuid_Nil)
  else Ok (db <| jobs := (jobs db ++ [new_job now fresh orgID opts])%list |>, fresh).

Definition EnqueueWithOpts := enqueueOn.
Definition Enqueue (now : time) (fresh orgID : uuid) (queue jobType : string) (p : payload)
    (priority : Z) (dedupeKey : option string) (db : DB) : result (DB * uuid) :=
  enqueueOn now fresh orgID (MkEnqueueOpts queue jobType p priority dedupeKey None 0 None) db.
Definition EnqueueWithTarget (now : time) (fresh orgID : uuid) (queue jobType : string)
    (p : payload) (priority : Z) (dedupeKey targetNodeID : option string) (db : DB)
    : result (DB * uuid) :=
  enqueueOn now fresh orgID (MkEnqueueOpts queue jobType p priority dedupeKey None 0 targetNodeID) db.

(** [time.Parse("2006010215", s)] succeeds: a year, a month, a day of that
    month and an hour, as fixed-width decimal digits. *)
Definition digit (c : Ascii.ascii) : option Z :=
  let n := Z.of_nat (Ascii.nat_of_ascii c) in
  if (48 <=? n) && (n <=? 57) then Some (n - 48) else None.
Fixpoint digits_from (acc : Z) (s : string) : option Z :=
  match s with
  | EmptyString => Some acc
  | String c s' => match digit c with Some d => digits_from (10 * acc + d) s' | None => None end
  end.
Definition digits (s : string) : option Z := digits_from 0 s.
Definition is_leap (y : Z) : bool :=
  (y mod 4 =? 0) && (negb (y mod 100 =? 0) || (y mod 400 =? 0)).
Definition days_in (m y : Z) : Z :=
  if m =? 2 then (if is_leap y then 29 else 28)
  else if (m =? 4) || (m =? 6) || (m =? 9) || (m =? 11) then 30 else 31.
Definition parse_bucket_hour (s : string) : bool :=
  match digits (String.substring 0 4 s), digits (String.substring 4 2 s),
        digits (String.substring 6 2 s), digits (String.substring 8 2 s) with
  | Some y, Some m, Some d, Some h =>
      (1 <=? m) && (m <=? 12) && (1 <=? d) && (d <=? days_in m y) && (0 <=? h) && (h <? 24)
  | _, _, _, _ => false
  end.

Definition reconcile_job_type : string := "reconcile_pull_request_state".

Definition EnqueuePullRequestReconciliationOnce (now : time) (fresh orgID : uuid)
    (opts : EnqueueOpts) (db : DB) : result (DB * uuid) :=
  let prefix := reconcile_job_type +:+ ":" +:+ orgID +:+ ":" in
  match eo_DedupeKey opts with
  | None => Err "reconciliation admission requires its organization-scoped periodic job key"
  | Some key =>
      if (orgID ==? uuid_Nil) || (eo_Queue opts <>? "default")
         || (eo_JobType opts <>? reconcile_job_type) || negb (String.prefix prefix key)
      then Err "reconciliation admission requires its organization-scoped periodic job key"
      else
        let bucket := String.substring (String.length prefix) (String.length key) key in
        if negb (String.length bucket =? 11)%nat
           || negb (match String.get 10 bucket with
                    | Some c => match digit c with Some d => d <=? 5 | None => false end
                    | None => false
                    end)
        then Err "reconciliation admission requires a UTC ten-minute bucket"
        else if negb (parse_bucket_hour (String.substring 0 10 bucket))
        then Err "parse reconciliation admission bucket"
        else if exists_row (fun j => (j_org_id j ==? orgID) && (j_queue j ==? eo_Queue opts)
                  && (j_job_type j ==? eo_JobType opts) && col_is (j_dedupe_key j) key) (jobs db)
        then Ok (db, uuid_Nil)
        else enqueueOn now fresh orgID opts db
  end.

(** ** Reads by dedupe key *)

Definition keyed (orgID : uuid) (queue key : string) (j : Job) : bool :=
  (j_org_id j ==? orgID) && (j_queue j ==? queue) && col_is (j_dedupe_key j) key.

Definition HasActiveByDedupeKey (db : DB) (orgID : uuid) (queue key : string) : bool :=
  exists_row (fun j => keyed orgID queue key j && job_active j) (jobs db).

Definition GetActiveByDedupeKey (db : DB) (orgID : uuid) (queue key : string)
    : result (uuid * JobStatus) :=
  match select (fun j => keyed orgID queue key j && job_active j) (jobs db) with
  | j :: _ => Ok (j_id j, j_status j)
  | [] => Err "no rows in result set"
  end.

Definition FirstJobCreatedAtByDedupeKey (db : DB) (orgID : uuid) (queue key : string)
    : result time :=
  match order_by (fun a b => j_created_at a <=? j_created_at b)
          (select (keyed orgID queue key) (jobs db)) with
  | j :: _ => Ok (j_created_at j)
  | [] => Err "first job creation by dedupe key: no rows in result set"
  end.

(** [ORDER BY created_at DESC, id DESC]. *)
Definition latest_le (a b : Job) : bool :=
  (j_created_at b <? j_created_at a)
  || ((j_created_at a =? j_created_at b) && String.leb (j_id b) (j_id a)).

Definition LatestJobOutcomeByDedupeKey (db : DB) (orgID : uuid) (queue key : string)
    : result (JobStatus * option string) :=
  match order_by latest_le (select (keyed orgID queue key) (jobs db)) with
  | j :: _ => Ok (j_status j, j_last_error j)
  | [] => Err "latest job outcome by dedupe key: no rows in result set"
  end.

Definition LatestJobStatusByDedupeKey (db : DB) (orgID : uuid) (queue key : string)
    : result JobStatus :=
  match order_by latest_le (select (keyed orgID queue key) (jobs db)) with
  | j :: _ => Ok (j_status j)
  | [] => Err "latest job status by dedupe key: no rows in result set"
  end.

Definition GetLatestFailedByType (db : DB) (orgID : uuid) (jobType : string)
    : option (uuid * option string * time) :=
  match order_by (fun a b => j_updated_at b <=? j_updated_at a)
          (select (fun j => (j_org_id j ==? orgID) && (j_job_type j ==? jobType)
             && ((j_status j ==? JobStatusFailed) || (j_status j ==? JobStatusDeadLetter))) (jobs db)) with
  | j :: _ => Some (j_id j, j_last_error j, j_updated_at j)
  | [] => None
  end.

(** ** Cancellation and PR creation *)

Definition cancel_job (now : time) (j : Job) : Job :=
  release_lock now (j <| j_status := JobStatusCancelled |> <| j_completed_at := Some now |>).

Definition CancelActiveCodeReviewPreparation (now : time) (orgID : uuid) (queue key : string)
    (db : DB) : DB * Z :=
  let p j := keyed orgID queue key j && (j_job_type j ==? "prepare_code_review_workspace")
             && job_active j in
  (db <| jobs := update p (cancel_job now) (jobs db) |>, count_rows p (jobs db)).

Definition changeset_is (orgID sessionID changesetID : uuid) (c : Changeset) : bool :=
  (cs_org_id c ==? orgID) && (cs_session_id c ==? sessionID) && (cs_id c ==? changesetID).
Definition pr_slot_reserved (c : Changeset) : bool :=
  match cs_pr_creation_state c with
  | PRCreationStateQueued | PRCreationStatePushing | PRCreationStateSucceeded => true
  | _ => false
  end.

Definition QueueChangesetPRCreation (now : time) (fresh orgID sessionID changesetID : uuid)
    (queue : string) (p : payload) (priority : Z) (db : DB) : result (DB * (uuid * bool)) :=
  let free c := changeset_is orgID sessionID changesetID c && negb (pr_slot_reserved c) in
  let db' := db <| session_changesets := update free (fun c =>
                     c <| cs_pr_creation_state := PRCreationStateQueued |>
                       <| cs_pr_creation_error := None |> <| cs_updated_at := now |>)
                   (session_changesets db) |> in
  let enqueue :=
    let? (db'', jobID) := enqueueOn now fresh orgID
         (MkEnqueueOpts queue "open_pr" p priority (Some (OpenPRDedupeKey changesetID)) None 0 None) db'
    in Ok (db'', (jobID, jobID <>? uuid_Nil)) in
  if count_rows free (session_changesets db) =? 0 then
    match select (changeset_is orgID sessionID changesetID) (session_changesets db) with
    | [] => Ok (db, (uuid_Nil, false))
    | c :: _ =>
        if (cs_pr_creation_state c <>? PRCreationStateQueued)
           && (cs_pr_creation_state c <>? PRCreationStatePushing)
        then Ok (db, (uuid_Nil, false))
        else enqueue
    end
  else enqueue.

(** ** Claim *)

Definition nodeDeadHeartbeatThreshold : duration := 90 * second.
Definition dead_before (wall : time) : time := wall - nodeDeadHeartbeatThreshold.

(** The nodes a pinned job no longer waits for. *)
Definition node_unavailable (deadBefore : time) (n : Node) : bool :=
  (n_status n ==? NodeStatusDead) || (n_status n ==? NodeStatusDraining)
  || (n_drain_intent n <>? DrainIntentNone) || negb (worker_mode n)
  || (n_last_heartbeat_at n <? deadBefore).

(** A node that may accept work. *)
Definition node_healthy (deadBefore : time) (n : Node) : bool :=
  (n_status n ==? NodeStatusActive) && (n_drain_intent n ==? DrainIntentNone)
  && worker_mode n && (deadBefore <=? n_last_heartbeat_at n).

Definition claimable (now deadBefore : time) (nodeID : string) (db : DB) (j : Job) : bool :=
  (j_status j ==? JobStatusPending) && (j_run_at j <=? now)
  && match j_target_node_id j with
     | None => true
     | Some t => (t ==? nodeID)
                 || exists_row (fun n => (n_id n ==? t) && node_unavailable deadBefore n) (nodes db)
     end.

(** [ORDER BY j.priority DESC, j.created_at ASC]. *)
Definition claim_le (a b : Job) : bool :=
  (j_priority b <? j_priority a)
  || ((j_priority a =? j_priority b) && (j_created_at a <=? j_created_at b)).

Definition claim_job (now : time) (nodeID ownerID : string) (lockToken : uuid) (leaseSeconds : Z)
    (j : Job) : Job :=
  j <| j_status := JobStatusRunning |>
    <| j_locked_by_node_id := Some nodeID |>
    <| j_run_owner_id := Some ownerID |>
    <| j_owner_kind := JobOwnerKindWorker |>
    <| j_lock_token := Some lockToken |>
    <| j_locked_at := Some now |>
    <| j_lease_expires_at := Some (now + leaseSeconds * second) |>
    <| j_attempts := j_attempts j + 1 |>
    <| j_updated_at := now |>.

Definition next_job (now wall : time) (nodeID : string) (locked : uuid -> bool) (db : DB)
    : option Job :=
  if exists_row (fun n => (n_id n ==? nodeID) && node_healthy (dead_before wall) n) (nodes db)
  then head (order_by claim_le
               (select (fun j => claimable now (dead_before wall) nodeID db j
                                 && negb (locked (j_id j))) (jobs db)))
  else None.

Definition ClaimNextRunnable (now wall : time) (nodeID ownerID : string) (lockToken : uuid)
    (leaseDuration : duration) (locked : uuid -> bool) (db : DB) : result (DB * option Job) :=
  match next_job now wall nodeID locked db with
  | None => Ok (db, None)
  | Some next =>
      let claim := claim_job now nodeID ownerID lockToken (duration_seconds leaseDuration) in
      let? db' := update_jobs db (fun j => j_id j ==? j_id next) claim in
      Ok (db', Some (claim next))
  end.

(** ** Fenced operations on a running job *)

(** [id = $ AND status = 'running' AND lock_token = $]. *)
Definition owns (jobID lockToken : uuid) (j : Job) : bool :=
  (j_id j ==? jobID) && (j_status j ==? JobStatusRunning) && col_is (j_lock_token j) lockToken.

(** A fenced UPDATE: the new table, and whether exactly one row matched. *)
Definition fenced_update (jobID lockToken : uuid) (f : Job -> Job) (db : DB) : DB * bool :=
  (db <| jobs := update (owns jobID lockToken) f (jobs db) |>,
   count_rows (owns jobID lockToken) (jobs db) =? 1).

Definition EnsureRetryWindowStartedAtWithLease (now : time) (jobID lockToken : uuid)
    (startedAt : time) (db : DB) : DB * option time :=
  let f j := j <| j_retry_window_started_at := coalesce (j_retry_window_started_at j) startedAt |>
               <| j_updated_at := now |> in
  ((fenced_update jobID lockToken f db).1,
   match select (owns jobID lockToken) (jobs db) with
   | j :: _ => j_retry_window_started_at (f j)
   | [] => None
   end).

Definition GetRunningForSessionExecutor (db : DB) (orgID jobID lockToken executorID : uuid)
    : option Job :=
  head (select (fun j => (j_org_id j ==? orgID) && owns jobID lockToken j
    && (j_owner_kind j ==? JobOwnerKindSessionExecutor) && col_is (j_run_owner_id j) executorID)
    (jobs db)).

Definition HandoffToSessionExecutorWithLease (now : time) (orgID jobID lockToken executorID : uuid)
    (db : DB) : result (DB * bool) :=
  let p j := (j_org_id j ==? orgID) && owns jobID lockToken j in
  let? db' := update_jobs db p (fun j =>
       j <| j_owner_kind := JobOwnerKindSessionExecutor |> <| j_run_owner_id := Some executorID |>
         <| j_updated_at := now |>) in
  Ok (db', count_rows p (jobs db) =? 1).

(** The session a job's payload names, when it exists in the job's org. *)
Definition referenced_session (db : DB) (j : Job) (q : Session -> bool) : bool :=
  exists_row (fun s => (s_org_id s ==? j_org_id j)
    && col_is (payload_text (j_payload j) "session_id") (s_id s) && q s) (sessions db).

(** A session job whose session has ended may not renew its lease. *)
Definition lease_renewable (db : DB) (j : Job) : bool :=
  negb (session_job_type (j_job_type j))
  || is_null (text_nonempty (j_payload j) "session_id")
  || referenced_session db j (fun s => negb (session_ended s)).

Definition close_executor (now : time) (reason : string) (e : SessionExecutor) : SessionExecutor :=
  e <| se_status := SessionExecutorStatusFailed |> <| se_completed_at := Some now |>
    <| se_exit_code := Some 1 |> <| se_last_error := Some reason |> <| se_updated_at := now |>.

Definition fail_job (now : time) (reason : string) (j : Job) : Job :=
  release_lock now (j <| j_status := JobStatusFailed |> <| j_last_error := Some reason |>
                      <| j_completed_at := Some now |>).

(** The two CTE updates of the terminalizing statements: the executors that
    own a target job are closed and the target jobs are failed. *)
Definition terminalize (now : time) (reason : string) (target : Job -> bool) (db : DB) : DB :=
  db <| session_executors := update (fun e =>
          exists_row (fun j => target j && (j_owner_kind j ==? JobOwnerKindSessionExecutor)
            && (se_org_id e ==? j_org_id j) && (se_job_id e ==? j_id j)
            && col_is (j_lock_token j) (se_lock_token e)) (jobs db)
          && executor_active e) (close_executor now reason) (session_executors db) |>
     <| jobs := update target (fail_job now reason) (jobs db) |>.

Definition terminal_session_reason : string :=
  "referenced session is already terminal; stopping session job lease renewal".

Definition terminalizeIfReferencedSessionTerminal (now : time) (jobID lockToken : uuid) (db : DB) : DB :=
  terminalize now terminal_session_reason (fun j =>
    owns jobID lockToken j && session_job_type (j_job_type j)
    && negb (is_null (text_nonempty (j_payload j) "session_id"))
    && referenced_session db j session_ended) db.

Definition TerminalizeRunningSessionJobs (now : time) (orgID sessionID : uuid) (reason : string)
    (db : DB) : DB * Z :=
  let target j := (j_org_id j ==? orgID) && (j_status j ==? JobStatusRunning)
    && session_job_type (j_job_type j) && col_is (payload_text (j_payload j) "session_id") sessionID in
  (terminalize now reason target db, count_rows target (jobs db)).

Definition renew_job (now : time) (leaseSeconds : Z) (j : Job) : Job :=
  j <| j_lease_expires_at := Some (now + leaseSeconds * second) |> <| j_updated_at := now |>.

(** The renewed expiry, or [None] with the job terminalized when its session
    has ended. *)
Definition renew_where (now : time) (jobID lockToken : uuid) (leaseDuration : duration)
    (p : Job -> bool) (db : DB) : DB * option time :=
  if exists_row p (jobs db) then
    (db <| jobs := update p (renew_job now (duration_seconds leaseDuration)) (jobs db) |>,
     Some (now + duration_seconds leaseDuration * second))
  else (terminalizeIfReferencedSessionTerminal now jobID lockToken db, None).

Definition RenewLease (now : time) (jobID lockToken : uuid) (leaseDuration : duration) (db : DB)
    : DB * option time :=
  renew_where now jobID lockToken leaseDuration
    (fun j => owns jobID lockToken j && lease_renewable db j) db.

Definition RenewLeaseForSessionExecutor (now : time) (orgID jobID lockToken executorID : uuid)
    (leaseDuration : duration) (db : DB) : DB * option time :=
  renew_where now jobID lockToken leaseDuration
    (fun j => owns jobID lockToken j && (j_org_id j ==? orgID)
       && (j_owner_kind j ==? JobOwnerKindSessionExecutor) && col_is (j_run_owner_id j) executorID
       && lease_renewable db j) db.

Definition MarkSucceededWithLease (now : time) (jobID lockToken : uuid) : DB -> DB * bool :=
  fenced_update jobID lockToken (fun j =>
    release_lock now (j <| j_status := JobStatusSucceeded |> <| j_completed_at := Some now |>)).

Definition MarkFailedWithLease (now : time) (jobID lockToken : uuid) (errMsg : string)
    : DB -> DB * bool :=
  fenced_update jobID lockToken (fun j =>
    release_lock now (j <| j_status := JobStatusFailed |> <| j_last_error := Some errMsg |>)).

Definition DeadLetterWithLease (now : time) (jobID lockToken : uuid) (errMsg : string)
    : DB -> DB * bool :=
  fenced_update jobID lockToken (fun j =>
    release_lock now (j <| j_status := JobStatusDeadLetter |> <| j_last_error := Some errMsg |>
                        <| j_completed_at := Some now |>)).

(** The requeue shared by the retry statements. *)
Definition requeue_job (now : time) (db : DB) (errMsg : string) (runAt : time) (j : Job) : Job :=
  release_lock now (j <| j_status := JobStatusPending |>
                      <| j_payload := continuation_retry_payload db j |>
                      <| j_last_error := Some errMsg |> <| j_run_at := runAt |>).

(** [attempts = GREATEST(attempts - 1, 0)]. *)
Definition refund_attempt (j : Job) : Job := j <| j_attempts := Z.max (j_attempts j - 1) 0 |>.

Definition RetryWithLease (now : time) (jobID lockToken : uuid) (errMsg : string) (runAt : time)
    (db : DB) : DB * bool :=
  fenced_update jobID lockToken (requeue_job now db errMsg runAt) db.

Definition RetryWithLeaseAndTarget (now : time) (jobID lockToken : uuid) (errMsg : string)
    (runAt : time) (targetNodeID : option string) (db : DB) : DB * bool :=
  fenced_update jobID lockToken
    (fun j => (requeue_job now db errMsg runAt j) <| j_target_node_id := targetNodeID |>) db.

Definition RetryWithoutConsumingAttemptWithLease (now : time) (jobID lockToken : uuid)
    (errMsg : string) (runAt : time) (db : DB) : DB * bool :=
  fenced_update jobID lockToken
    (fun j => refund_attempt (requeue_job now db errMsg runAt j)) db.

Definition RetryWithoutConsumingAttemptWithLeaseAndResetWindow (now : time) (jobID lockToken : uuid)
    (errMsg : string) (runAt : time) (db : DB) : DB * bool :=
  fenced_update jobID lockToken
    (fun j => (refund_attempt (requeue_job now db errMsg runAt j))
                <| j_retry_window_started_at := None |>) db.

Definition RetryWithoutConsumingAttemptWithLeaseAndTarget (now : time) (jobID lockToken : uuid)
    (errMsg : string) (runAt : time) (targetNodeID : option string) (db : DB) : DB * bool :=
  fenced_update jobID lockToken
    (fun j => (refund_attempt (requeue_job now db errMsg runAt j))
                <| j_target_node_id := targetNodeID |>) db.

(** ** Reclaim of lost jobs *)

Definition node_dead (staleBefore : time) (n : Node) : bool :=
  (n_status n ==? NodeStatusDead) || (n_last_heartbeat_at n <? staleBefore).

Definition owner_node_dead (staleBefore : time) (db : DB) (j : Job) : bool :=
  match j_locked_by_node_id j with
  | Some n => exists_row (fun d => (n_id d ==? n) && node_dead staleBefore d) (nodes db)
  | None => false
  end.

(** The lease has expired or the owning node is dead. *)
Definition job_lost (now staleBefore : time) (db : DB) (j : Job) : bool :=
  (j_status j ==? JobStatusRunning)
  && (col_lt (j_lease_expires_at j) now || owner_node_dead staleBefore db j).

(** [COALESCE(sess.snapshot_key, '') <> ''] for the session of the job. *)
Definition has_snapshot (db : DB) (j : Job) : bool :=
  match text_nonempty (j_payload j) "session_id" with
  | Some sid => exists_row (fun s => (s_org_id s ==? j_org_id j) && (s_id s ==? sid)
                   && (default "" (s_snapshot_key s) <>? "")) (sessions db)
  | None => false
  end.

(** NULL sorts last in ascending order. *)
Definition time_le_nulls_last (a b : option time) : bool :=
  match a, b with
  | Some x, Some y => x <=? y
  | Some _, None => true
  | None, Some _ => false
  | None, None => true
  end.
Definition time_eq (a b : option time) : bool := a ==? b.

(** [ORDER BY CASE WHEN snapshot THEN 0 ELSE 1, locked_at]. *)
Definition recovery_order (db : DB) (a b : Job) : bool :=
  match has_snapshot db a, has_snapshot db b with
  | true, false => true
  | false, true => false
  | _, _ => time_le_nulls_last (j_locked_at a) (j_locked_at b)
  end.

(** [ROW_NUMBER() OVER (PARTITION BY org_id ORDER BY ...) <= 3] over all
    candidates of the organisation. *)
Definition org_recovery_window : nat := 3.
Definition org_ranked (db : DB) (candidates : list Job) (j : Job) : bool :=
  existsb (fun c => j_id c ==? j_id j)
    (limit org_recovery_window
       (order_by (recovery_order db) (select (fun c => j_org_id c ==? j_org_id j) candidates))).

Definition reclaim_candidates (now staleBefore : time) (db : DB) : list Job :=
  select (job_lost now staleBefore db) (jobs db).
Definition reclaim_eligible (now staleBefore : time) (db : DB) : list Job :=
  let candidates := reclaim_candidates now staleBefore db in
  select (fun j => negb (session_job_type (j_job_type j)) || org_ranked db candidates j) candidates.

Definition reclaim_le (db : DB) (a b : Job) : bool :=
  match session_job_type (j_job_type a), session_job_type (j_job_type b) with
  | true, false => true
  | false, true => false
  | _, _ => recovery_order db a b
  end.

Definition reclaimable (now staleBefore : time) (batch : nat) (locked : uuid -> bool) (db : DB)
    : list Job :=
  limit batch (order_by (reclaim_le db)
    (select (fun j => negb (locked (j_id j))) (reclaim_eligible now staleBefore db))).

Definition queue_recovery (now : time) (s : Session) : Session :=
  s <| s_recovery_state := "queued" |> <| s_recovery_queued_at := Some now |>
    <| s_recovery_started_at := None |> <| s_runtime_stop_reason := "worker_recovery" |>.

(** The requeue of the jobs of [picked], and the recovery marker on the
    sessions that [marked] rows among the requeued ones name. *)
Definition job_in (l : list Job) (j : Job) : bool := existsb (fun c => j_id c ==? j_id j) l.
Definition mark_recovering (now : time) (requeued : list Job) (l : list Session) : list Session :=
  update (fun s => existsb (fun j => (s_org_id s ==? j_org_id j)
      && col_is (text_nonempty (j_payload j) "session_id") (s_id s)) requeued)
    (queue_recovery now) l.
Definition requeue_lost (now : time) (reason : string) (marked picked : Job -> bool) (db : DB) : DB :=
  let requeue := requeue_job now db reason now in
  db <| jobs := update picked requeue (jobs db) |>
     <| sessions := mark_recovering now (select marked (map requeue (select picked (jobs db)))) (sessions db) |>.

Definition job_lost_reason : string := "job ownership lost; queued for bounded recovery".

Definition ReclaimLostRunningJobs (now staleBefore : time) (batch : nat) (locked : uuid -> bool)
    (db : DB) : DB * Z :=
  let picked := job_in (reclaimable now staleBefore batch locked db) in
  (requeue_lost now job_lost_reason (fun j => session_job_type (j_job_type j)) picked db,
   count_rows picked (jobs db)).

Definition session_reclaimable (now : time) (orgID sessionID : uuid) (staleBefore : time)
    (batch : nat) (locked : uuid -> bool) (db : DB) : list Job :=
  limit batch (order_by (fun a b => time_le_nulls_last (j_locked_at a) (j_locked_at b))
    (select (fun j => (j_org_id j ==? orgID) && session_job_type (j_job_type j)
       && col_is (payload_text (j_payload j) "session_id") sessionID
       && job_lost now staleBefore db j && negb (locked (j_id j))) (jobs db))).

Definition ReclaimLostRunningSessionJobsForSession (now : time) (orgID sessionID : uuid)
    (staleBefore : time) (batch : nat) (locked : uuid -> bool) (db : DB) : DB * Z :=
  let picked := job_in (session_reclaimable now orgID sessionID staleBefore batch locked db) in
  (requeue_lost now job_lost_reason (fun _ => true) picked db, count_rows picked (jobs db)).

(** ** Retention *)

(** delete_expired_completed_jobs, with the rows that tables outside the plane
    still reference given as [retained]. *)
Definition day : duration := 24 * hour.
Definition expired_job (now : time) (retentionDays : Z) (retained : Job -> bool) (db : DB) (j : Job)
    : bool :=
  ((j_status j ==? JobStatusSucceeded) || (j_status j ==? JobStatusFailed))
  && (j_updated_at j <? now - retentionDays * day)
  && negb (exists_row (fun e => se_job_id e ==? j_id j) (session_executors db))
  && (j_job_type j <>? "snapshot_object_cleanup")
  && negb (retained j).
Definition retention_le (a b : Job) : bool :=
  (j_updated_at a <? j_updated_at b)
  || ((j_updated_at a =? j_updated_at b) && String.leb (j_id a) (j_id b)).
Definition delete_expired (batch : nat) (now : time) (retentionDays : Z) (retained : Job -> bool)
    (locked : uuid -> bool) (db : DB) : DB * Z :=
  if retentionDays <=? 0 then (db, 0)
  else
    let doomed := job_in (limit batch (order_by retention_le
      (select (fun j => expired_job now retentionDays retained db j && negb (locked (j_id j)))
         (jobs db)))) in
    (db <| jobs := select (fun j => negb (doomed j)) (jobs db) |>, count_rows doomed (jobs db)).
Definition DeleteExpiredCompleted : time -> Z -> (Job -> bool) -> (uuid -> bool) -> DB -> DB * Z :=
  delete_expired (Z.to_nat 10000).

(** ** Queue pressure and node load *)

Definition OldestPendingSessionJobAge (now wall : time) (db : DB) : option duration :=
  match order_by (fun a b => j_run_at a <=? j_run_at b)
          (select (fun j => (j_status j ==? JobStatusPending) && (j_run_at j <=? now)
             && session_job_type (j_job_type j)) (jobs db)) with
  | j :: _ => Some (wall - j_run_at j)
  | [] => None
  end.

Definition CountRunningOwnedByNode (db : DB) (nodeID : string) : Z :=
  count_rows (fun j => (j_status j ==? JobStatusRunning) && col_is (j_locked_by_node_id j) nodeID) (jobs db).

Definition IsHealthyWorkerNode (wall : time) (db : DB) (nodeID : string) : bool :=
  exists_row (fun n => (n_id n ==? nodeID) && node_healthy (dead_before wall) n) (nodes db).

(** ** Writes of the automation turns *)

Definition lease_lapsed (now : time) (j : Job) : bool :=
  match j_lease_expires_at j with Some t => t <=? now | None => true end.
Definition abandoned_reason : string := "the automation turn was recovered after its lease expired".

(** The revocation in lockAutomationRunLifecycle: a running job whose lease
    has lapsed fails, and its token is taken away. *)
Definition revoked (now : time) (j : Job) : Job :=
  release_lock now (j <| j_status := JobStatusFailed |>
    <| j_last_error := coalesce (match j_last_error j with Some e => nullif_empty e | None => None end) abandoned_reason |>
    <| j_completed_at := Some now |>).
Definition revocable (now : time) (orgID jobID : uuid) (j : Job) : bool :=
  (j_id j ==? jobID) && (j_org_id j ==? orgID) && (j_status j ==? JobStatusRunning) && lease_lapsed now j.
Definition RevokeAbandonedLease (now : time) (orgID jobID : uuid) (db : DB) : DB :=
  db <| jobs := update (revocable now orgID jobID) (revoked now) (jobs db) |>.

Definition delayed (now : time) (orgID : uuid) (key : string) (j : Job) : bool :=
  (j_org_id j ==? orgID) && col_is (j_dedupe_key j) key && (j_status j ==? JobStatusPending) && (now <? j_run_at j).
Definition RescheduleActiveByDedupeKey (now : time) (orgID : uuid) (key : string) (db : DB) : DB * bool :=
  (db <| jobs := update (delayed now orgID key) (fun j => j <| j_run_at := now |>) (jobs db) |>,
   exists_row (delayed now orgID key) (jobs db)).

Definition ActiveJobPayloadByDedupeKeyInTx (db : DB) (orgID : uuid) (queue key : string)
    : result (uuid * payload) :=
  match select (fun j => keyed orgID queue key j && job_active j) (jobs db) with
  | j :: _ => Ok (j_id j, j_payload j)
  | [] => Err "no rows in result set"
  end.
