(* ===== verification/ExecutorStore.v ===== *)
(** * Session executors

    internal/db/session_executor_store.go: the rows that tell which process
    runs a session job, the fenced writes of that process, and the recovery of
    executors whose heartbeat was lost. *)

From S2P Require Import Prelude Sql Tables Continuation JobStore.
From stdpp Require Import base option list strings gmap.

Open Scope string_scope.
Open Scope Z_scope.

(** ** Reservation *)

Definition pre_handoff_error : string :=
  "executor launch or handoff did not complete; cleared stale pre-handoff reservation before retry".

Definition ClearPreHandoffReservation (now : time) (orgID sessionID jobID : uuid) (db : DB) : DB * Z :=
  let p e := (se_org_id e ==? orgID) && (se_session_id e ==? sessionID) && (se_job_id e ==? jobID)
    && (se_status e ==? SessionExecutorStatusStarting)
    && exists_row (fun j => (j_org_id j ==? se_org_id e) && (j_id j ==? se_job_id e)
         && (j_status j ==? JobStatusRunning) && (j_owner_kind j ==? JobOwnerKindWorker)) (jobs db) in
  (db <| session_executors := update p (close_executor now pre_handoff_error) (session_executors db) |>,
   count_rows p (session_executors db)).

Definition sessionExecutorLifecycleWriterVersion : Z := 0.

Record CreateSessionExecutorParams := MkCreateSessionExecutorParams {
  cse_SessionID : uuid;
  cse_ThreadID : option uuid;
  cse_JobID : uuid;
  cse_JobType : string;
  cse_HostNodeID : string;
  cse_OwnerID : string;
  cse_LockToken : uuid;
  cse_Image : string;
  cse_BuildSHA : string;
  cse_RuntimeDeadlineAt : option time
}.

(** idx_session_executors_one_active_unthreaded and _thread: one active
    executor per session without a thread, and per thread. *)
Definition same_slot (org session : uuid) (thread : option uuid) (e : SessionExecutor) : bool :=
  (se_org_id e ==? org) && (se_session_id e ==? session) && (se_thread_id e ==? thread).

Definition new_executor (now : time) (fresh orgID : uuid) (p : CreateSessionExecutorParams)
    : SessionExecutor :=
  MkSessionExecutor fresh orgID (cse_SessionID p) (cse_ThreadID p) (cse_JobID p) (cse_JobType p)
    (cse_HostNodeID p) (cse_OwnerID p) (cse_LockToken p) SessionExecutorStatusStarting None
    (cse_Image p) (cse_BuildSHA p) (Some now) (Some (now + 60 * second)) (cse_RuntimeDeadlineAt p)
    DrainIntentNone None None now None None None now now sessionExecutorLifecycleWriterVersion.

Definition CreateStarting (now : time) (fresh orgID : uuid) (p : CreateSessionExecutorParams) (db : DB)
    : result (DB * uuid) :=
  if exists_row (fun e => (se_id e ==? fresh)
       || (executor_active e && same_slot orgID (cse_SessionID p) (cse_ThreadID p) e))
       (session_executors db)
     || negb (exists_row (fun s => s_id s ==? cse_SessionID p) (sessions db))
     || negb (exists_row (fun j => j_id j ==? cse_JobID p) (jobs db))
     || negb (exists_row (fun n => n_id n ==? cse_HostNodeID p) (nodes db))
  then Err "create session executor"
  else Ok (db <| session_executors := (session_executors db ++ [new_executor now fresh orgID p])%list |>,
           fresh).

(** ** Fenced writes of the executor process *)

Definition owns_executor (orgID executorID lockToken : uuid) (e : SessionExecutor) : bool :=
  (se_org_id e ==? orgID) && (se_id e ==? executorID) && (se_lock_token e ==? lockToken).

Definition fenced_executor (p : SessionExecutor -> bool) (f : SessionExecutor -> SessionExecutor)
    (db : DB) : DB * bool :=
  (db <| session_executors := update p f (session_executors db) |>,
   count_rows p (session_executors db) =? 1).

(** [status IN ('starting', 'running')]. *)
Definition executor_attaching (e : SessionExecutor) : bool :=
  (se_status e ==? SessionExecutorStatusStarting) || (se_status e ==? SessionExecutorStatusRunning).

Definition RecordContainerIDWithLease (now : time) (orgID executorID lockToken : uuid)
    (containerID : string) : DB -> DB * bool :=
  fenced_executor (fun e => owns_executor orgID executorID lockToken e
      && (se_status e ==? SessionExecutorStatusStarting))
    (fun e => e <| se_container_id := Some containerID |> <| se_updated_at := now |>).

(** The thread of the executor was asked to stop. *)
Definition thread_cancelled (db : DB) (e : SessionExecutor) : bool :=
  exists_row (fun st => (th_org_id st ==? se_org_id e) && col_is (se_thread_id e) (th_id st)
    && (negb (is_null (th_cancel_requested_at st)) || (th_status st ==? "cancelled")))
    (session_threads db).

Definition renew_executor (now : time) (leaseDuration : duration) (e : SessionExecutor)
    : SessionExecutor :=
  e <| se_heartbeat_at := Some now |>
    <| se_lease_expires_at := Some (now + duration_seconds leaseDuration * second) |>
    <| se_lifecycle_writer_version := sessionExecutorLifecycleWriterVersion |>
    <| se_updated_at := now |>.

Definition HeartbeatWithLease (now : time) (orgID executorID lockToken : uuid)
    (leaseDuration : duration) (db : DB) : DB * (bool * DrainIntent * bool) :=
  let p e := owns_executor orgID executorID lockToken e && executor_active e in
  (db <| session_executors := update p (renew_executor now leaseDuration) (session_executors db) |>,
   match select p (session_executors db) with
   | e :: _ => (true, se_drain_intent e, thread_cancelled db e)
   | [] => (false, DrainIntentNone, false)
   end).

Definition GetByID (db : DB) (executorID : uuid) : result SessionExecutor :=
  match select (fun e => se_id e ==? executorID) (session_executors db) with
  | e :: _ => Ok e
  | [] => Err "get session executor: no rows in result set"
  end.

Definition MarkRunningWithLease (now : time) (orgID executorID lockToken : uuid)
    (leaseDuration : duration) : DB -> DB * bool :=
  fenced_executor (fun e => owns_executor orgID executorID lockToken e && executor_attaching e)
    (fun e => (renew_executor now leaseDuration e) <| se_status := SessionExecutorStatusRunning |>).

Definition MarkDrainingWithLease (now : time) (orgID executorID lockToken : uuid) : DB -> DB * bool :=
  fenced_executor (fun e => owns_executor orgID executorID lockToken e && executor_attaching e)
    (fun e => e <| se_status := SessionExecutorStatusDraining |>
                <| se_drain_intent := DrainIntentHostMaintenance |>
                <| se_drain_requested_at := coalesce (se_drain_requested_at e) now |>
                <| se_updated_at := now |>).

(** [now] is the caller's clock, [clock] the transaction timestamp. *)
Definition MarkDeployBudgetExpiredByNode (clock now : time) (nodeID : string) (graceWindow : duration)
    (db : DB) : result (DB * Z) :=
  if nodeID ==? "" then Err "node id is required"
  else
    let grace := if duration_seconds graceWindow <=? 0 then 30 else duration_seconds graceWindow in
    let p e := (se_host_node_id e ==? nodeID) && executor_active e
      && (se_drain_intent e <>? DrainIntentDeployBudgetExpired)
      && col_le (se_runtime_deadline_at e) now in
    Ok (db <| session_executors := update p (fun e =>
              e <| se_status := SessionExecutorStatusDraining |>
                <| se_drain_intent := DrainIntentDeployBudgetExpired |>
                <| se_drain_requested_at := coalesce (se_drain_requested_at e) now |>
                <| se_drain_deadline_at := Some (now + grace * second) |>
                <| se_updated_at := clock |>) (session_executors db) |>,
        count_rows p (session_executors db)).

Definition MarkHumanInputCheckpointByJob (now : time) (orgID jobID lockToken : uuid) (db : DB)
    : DB * bool :=
  let p e := (se_org_id e ==? orgID) && (se_job_id e ==? jobID) && (se_lock_token e ==? lockToken)
    && executor_active e
    && ((se_drain_intent e ==? DrainIntentNone) || (se_drain_intent e ==? DrainIntentPlannedRollout))
    && exists_row (fun sess => (s_id sess ==? se_session_id e) && (s_org_id sess ==? se_org_id e)
         && ((s_status sess ==? SessionStatusAwaitingInput)
             || exists_row (fun th => (th_org_id th ==? se_org_id e)
                  && col_is (se_thread_id e) (th_id th) && (th_status th ==? "awaiting_input"))
                  (session_threads db))) (sessions db) in
  (db <| session_executors := update p (fun e =>
           e <| se_drain_intent := DrainIntentHumanInputCheckpoint |>
             <| se_drain_requested_at := coalesce (se_drain_requested_at e) now |>
             <| se_updated_at := now |>) (session_executors db) |>,
   0 <? count_rows p (session_executors db)).

Definition terminal_executor_status (s : SessionExecutorStatus) : bool :=
  (s ==? SessionExecutorStatusCompleted) || (s ==? SessionExecutorStatusRequeued)
  || (s ==? SessionExecutorStatusFailed) || (s ==? SessionExecutorStatusLost).

Definition MarkTerminalWithLease (now : time) (orgID executorID lockToken : uuid)
    (status : SessionExecutorStatus) (exitCode : option Z) (lastError : string) (db : DB)
    : result (DB * bool) :=
  if negb (terminal_executor_status status) then Err "terminal session executor status required"
  else Ok (fenced_executor (fun e => owns_executor orgID executorID lockToken e && executor_active e)
    (fun e => e <| se_status := status |> <| se_completed_at := Some now |>
                <| se_exit_code := exitCode |> <| se_last_error := nullif_empty lastError |>
                <| se_updated_at := now |>) db).

(** ** Recovery of lost executors *)

(** [status IN ('succeeded', 'failed', 'cancelled', 'skipped', 'dead_letter')]. *)
Definition job_finished (j : Job) : bool :=
  match j_status j with
  | JobStatusSucceeded | JobStatusFailed | JobStatusCancelled | JobStatusDeadLetter => true
  | _ => false
  end.

(** [j.lock_token IS NULL OR j.lock_token = se.lock_token]. *)
Definition token_free (e : SessionExecutor) (j : Job) : bool :=
  is_null (j_lock_token j) || col_is (j_lock_token j) (se_lock_token e).

(** The three ways a stale executor row and its job disagree. *)
Definition stale_pair (now : time) (e : SessionExecutor) (j : Job) : bool :=
  ((j_status j ==? JobStatusRunning) && (j_owner_kind j ==? JobOwnerKindSessionExecutor)
     && col_is (j_lock_token j) (se_lock_token e) && col_lt (j_lease_expires_at j) now)
  || ((se_status e ==? SessionExecutorStatusStarting) && (j_owner_kind j ==? JobOwnerKindWorker)
      && token_free e j)
  || (job_finished j && token_free e j).

(** The thread's runtime still holds a live lease. *)
Definition runtime_still_leased (now : time) (db : DB) (e : SessionExecutor) : bool :=
  exists_row (fun tr => (tr_org_id tr ==? se_org_id e) && col_is (se_thread_id e) (tr_thread_id tr)
    && runtime_active tr && col_gt (tr_lease_expires_at tr) now) (thread_runtimes db).

Definition heartbeat_order (a b : SessionExecutor * Job) : bool :=
  time_le_nulls_last (se_heartbeat_at a.1) (se_heartbeat_at b.1).

(** The [stale_active] CTE: candidate pairs, skipping locked rows. *)
Definition stale_active (now staleBefore : time) (batch : nat) (locked : uuid -> bool)
    (p : SessionExecutor -> bool) (db : DB) : list (SessionExecutor * Job) :=
  limit batch (order_by heartbeat_order
    (select (fun ej : SessionExecutor * Job =>
       let '(e, j) := ej in
       p e && (j_org_id j ==? se_org_id e) && (j_id j ==? se_job_id e) && executor_active e
       && col_lt (se_heartbeat_at e) staleBefore && stale_pair now e j
       && negb (locked (se_id e)) && negb (locked (j_id j)))
     (list_prod (session_executors db) (jobs db)))).

Definition orphan_pair (ej : SessionExecutor * Job) : bool :=
  (j_owner_kind ej.2 ==? JobOwnerKindWorker) || job_finished ej.2.
Definition lost_pair (ej : SessionExecutor * Job) : bool :=
  (j_owner_kind ej.2 ==? JobOwnerKindSessionExecutor) && (j_status ej.2 ==? JobStatusRunning).

Definition executor_in (l : list (SessionExecutor * Job)) (e : SessionExecutor) : bool :=
  existsb (fun ej => se_id ej.1 ==? se_id e) l.

Definition orphan_error : string :=
  "executor launch or handoff did not complete; cleared stale pre-handoff reservation".
Definition lose_executor (now : time) (e : SessionExecutor) : SessionExecutor :=
  e <| se_status := SessionExecutorStatusLost |> <| se_completed_at := Some now |>
    <| se_last_error := Some "executor heartbeat lost; queued for bounded recovery" |>
    <| se_updated_at := now |>.

(** The executor updates of both recovery statements. *)
Definition settle_executors (now : time) (stale : list (SessionExecutor * Job))
    (l : list SessionExecutor) : list SessionExecutor :=
  update (executor_in (select lost_pair stale)) (lose_executor now)
    (update (executor_in (select orphan_pair stale)) (close_executor now orphan_error) l).

(** The jobs of the lost executors. *)
Definition lost_job (stale : list (SessionExecutor * Job)) (j : Job) : bool :=
  existsb (fun ej => lost_pair ej && (j_org_id j ==? se_org_id ej.1) && (j_id j ==? se_job_id ej.1)
                     && col_is (j_lock_token j) (se_lock_token ej.1)) stale.

Definition executor_lost_reason : string :=
  "session executor ownership lost; queued for bounded recovery".

Definition reclaimed_count (stale : list (SessionExecutor * Job)) (l : list SessionExecutor) : Z :=
  count_rows (executor_in (select lost_pair stale)) l
  + count_rows (executor_in (select orphan_pair stale)) l.

(** The runtimes of the threads of lost executors whose lease ran out. *)
Definition lost_runtime (now : time) (stale : list (SessionExecutor * Job)) (tr : ThreadRuntime) : bool :=
  existsb (fun ej => lost_pair ej && (tr_org_id tr ==? se_org_id ej.1)
             && (tr_session_id tr ==? se_session_id ej.1)
             && col_is (se_thread_id ej.1) (tr_thread_id tr)) stale
  && runtime_active tr
  && (is_null (tr_lease_expires_at tr) || col_le (tr_lease_expires_at tr) now).

Definition lose_runtime (now : time) (reason : string) (error : option string) (tr : ThreadRuntime)
    : ThreadRuntime :=
  tr <| tr_status := ThreadRuntimeStatusLost |>
     <| tr_closed_at := coalesce (tr_closed_at tr) now |>
     <| tr_stop_reason := coalesce (tr_stop_reason tr) reason |>
     <| tr_last_error := match error with Some e => coalesce (tr_last_error tr) e | None => tr_last_error tr end |>
     <| tr_updated_at := now |>.

(** The sandbox holders of the runtimes in [lost] expire. *)
Definition holder_of (r : ThreadRuntime) (h : SandboxHolder) : bool :=
  (h_org_id h ==? tr_org_id r) && (h_session_id h ==? tr_session_id r)
  && (h_holder_kind h ==? "thread_runtime") && (h_holder_id h ==? tr_id r)
  && ((h_status h ==? "active") || (h_status h ==? "draining")).
Definition expire_holder (now : time) (h : SandboxHolder) : SandboxHolder :=
  h <| h_status := "expired" |> <| h_released_at := coalesce (h_released_at h) now |>
    <| h_updated_at := now |>.
Definition expire_holders (now : time) (lost : list ThreadRuntime) (l : list SandboxHolder)
    : list SandboxHolder :=
  update (fun h => existsb (fun r => holder_of r h) lost) (expire_holder now) l.

(** Inbox entries a lost runtime was delivering go back to pending; those it
    had delivered become uncertain. *)
Definition entry_of (state : ThreadInboxDeliveryState) (lost : list ThreadRuntime)
    (e : ThreadInboxEntry) : bool :=
  existsb (fun r => (e_org_id e ==? tr_org_id r) && col_is (e_runtime_id e) (tr_id r)) lost
  && (e_delivery_state e ==? state).
Definition reset_entry (now : time) (error : string) (e : ThreadInboxEntry) : ThreadInboxEntry :=
  e <| e_delivery_state := ThreadInboxDeliveryStatePending |> <| e_runtime_id := None |>
    <| e_owner_node_id := None |> <| e_last_error := coalesce (e_last_error e) error |>
    <| e_updated_at := now |>.
Definition doubt_entry (now : time) (error : string) (e : ThreadInboxEntry) : ThreadInboxEntry :=
  e <| e_delivery_state := ThreadInboxDeliveryStateUnknownDelivery |>
    <| e_last_error := coalesce (e_last_error e) error |> <| e_updated_at := now |>.
Definition release_inbox (now : time) (resetError doubtError : string) (lost : list ThreadRuntime)
    (l : list ThreadInboxEntry) : list ThreadInboxEntry :=
  map (fun e => if entry_of ThreadInboxDeliveryStateDelivering lost e then reset_entry now resetError e
                else if entry_of ThreadInboxDeliveryStateDelivered lost e then doubt_entry now doubtError e
                else e) l.

Definition ReclaimLost (now staleBefore : time) (batch : nat) (locked : uuid -> bool) (db : DB)
    : DB * Z :=
  let stale := stale_active now staleBefore batch locked
                 (fun e => negb (runtime_still_leased now db e)) db in
  let lost := select (lost_runtime now stale) (thread_runtimes db) in
  let db' := requeue_lost now executor_lost_reason (fun _ => true) (lost_job stale) db in
  (db' <| session_executors := settle_executors now stale (session_executors db) |>
       <| thread_runtimes := update (lost_runtime now stale)
            (lose_runtime now "executor_lease_lost"
               (Some "session executor lease was lost before runtime closed")) (thread_runtimes db) |>
       <| session_sandbox_holders := expire_holders now lost (session_sandbox_holders db) |>
       <| thread_inbox_entries := release_inbox now "session executor lease lost before ack"
            "session executor lease lost after live delivery before ack" lost (thread_inbox_entries db) |>,
   reclaimed_count stale (session_executors db)).

Definition ReclaimLostForSession (now : time) (orgID sessionID : uuid) (staleBefore : time)
    (batch : nat) (locked : uuid -> bool) (db : DB) : DB * Z :=
  let stale := stale_active now staleBefore batch locked
                 (fun e => (se_org_id e ==? orgID) && (se_session_id e ==? sessionID)) db in
  let db' := requeue_lost now executor_lost_reason (fun _ => true) (lost_job stale) db in
  (db' <| session_executors := settle_executors now stale (session_executors db) |>,
   reclaimed_count stale (session_executors db)).
