(* ===== verification/ThreadRuntimeStore.v ===== *)
(** * Thread runtimes

    internal/db/thread_runtime_store.go: the leased process that serves one
    thread, its delivery cursors, and the recovery of expired leases.  [now]
    is the transaction timestamp, [clock] is [clock_timestamp()]. *)

From S2P Require Import Prelude Sql Tables JobStore ExecutorStore.
From stdpp Require Import base option list strings gmap.

Open Scope string_scope.
Open Scope Z_scope.

Record CreateThreadRuntimeParams := MkCreateThreadRuntimeParams {
  ctr_SessionID : uuid;
  ctr_ThreadID : uuid;
  ctr_SandboxID : uuid;
  ctr_ContainerID : string;
  ctr_RuntimeHandleID : string;
  ctr_AgentType : string;
  ctr_Model : string;
  ctr_OwnerNodeID : string;
  ctr_LeaseToken : uuid;
  ctr_LastDeliveredSequence : Z;
  ctr_LastAckedSequence : Z;
  ctr_BaseWorkspaceGeneration : Z;
  ctr_CurrentWorkspaceGeneration : Z;
  ctr_LeaseDuration : duration
}.

(** AgentType.Validate of internal/models/org_settings.go: the planning agent
    has no runtime. *)
Definition AgentType_Validate (a : string) : bool :=
  existsb (fun b => a ==? b) ["claude_code"; "codex"; "amp"; "pi"; "opencode"].

(** The whole seconds of a lease, 60 when not positive. *)
Definition lease_seconds (d : duration) : Z :=
  if duration_seconds d <=? 0 then 60 else duration_seconds d.

Definition lease_expired (now : time) (r : ThreadRuntime) : bool :=
  is_null (tr_lease_expires_at r) || col_le (tr_lease_expires_at r) now.

(** ** Creation *)

Definition new_runtime (now : time) (fresh orgID : uuid) (p : CreateThreadRuntimeParams)
    : ThreadRuntime :=
  MkThreadRuntime fresh orgID (ctr_SessionID p) (ctr_ThreadID p) (ctr_SandboxID p) (ctr_ContainerID p)
    (ctr_RuntimeHandleID p) (ctr_AgentType p) (nullif_empty (ctr_Model p)) ThreadRuntimeStatusStarting
    (ctr_OwnerNodeID p) (ctr_LeaseToken p) (ctr_LastDeliveredSequence p) (ctr_LastAckedSequence p)
    (ctr_BaseWorkspaceGeneration p) (ctr_CurrentWorkspaceGeneration p) now (Some now)
    (Some (now + lease_seconds (ctr_LeaseDuration p) * second)) None None None now now.

(** The [expired] CTE: active runtimes of the thread whose lease ran out. *)
Definition superseded (now : time) (orgID threadID : uuid) (r : ThreadRuntime) : bool :=
  (tr_org_id r ==? orgID) && (tr_thread_id r ==? threadID) && runtime_active r && lease_expired now r.

Definition ErrActiveThreadRuntimeExists : string := "active thread runtime already exists".

(** idx_thread_runtimes_one_active. *)
Definition occupies (orgID threadID : uuid) (r : ThreadRuntime) : bool :=
  (tr_org_id r ==? orgID) && (tr_thread_id r ==? threadID) && runtime_active r.

(** One statement closes the expired runtimes of the thread and inserts the
    new one.  PostgreSQL does not fix the order in which the updates of a
    [WITH] and the insert of the main query take effect; [insert_first] is
    that order, and the unique index is checked when the insert runs. *)
Definition CreateStarting (insert_first : bool) (now : time) (fresh orgID : uuid)
    (p : CreateThreadRuntimeParams) (db : DB) : result (DB * ThreadRuntime) :=
  if negb (AgentType_Validate (ctr_AgentType p)) then Err "invalid agent type" else
  let gone := superseded now orgID (ctr_ThreadID p) in
  let closed := update gone (lose_runtime now "lease_expired_before_restart" None) (thread_runtimes db) in
  let seen := if insert_first then thread_runtimes db else closed in
  if exists_row (occupies orgID (ctr_ThreadID p)) seen then Err ErrActiveThreadRuntimeExists
  else if exists_row (fun r => tr_id r ==? fresh) (thread_runtimes db)
          || (ctr_LastDeliveredSequence p <? 0) || (ctr_LastAckedSequence p <? 0)
          || (ctr_BaseWorkspaceGeneration p <? 0) || (ctr_CurrentWorkspaceGeneration p <? 0)
  then Err "create thread runtime"
  else
    let lost := select gone (thread_runtimes db) in
    let r := new_runtime now fresh orgID p in
    Ok (db <| thread_runtimes := (closed ++ [r])%list |>
           <| session_sandbox_holders := expire_holders now lost (session_sandbox_holders db) |>
           <| thread_inbox_entries := release_inbox now
                "runtime lease expired before replacement runtime started"
                "runtime lease expired after live delivery before replacement runtime started"
                lost (thread_inbox_entries db) |>, r).

(** [ORDER BY started_at DESC LIMIT 1] over the live runtimes of the thread. *)
Definition GetActiveByThread (now : time) (db : DB) (orgID threadID : uuid) : result ThreadRuntime :=
  match order_by (fun a b => tr_started_at b <=? tr_started_at a)
          (select (fun r => occupies orgID threadID r && col_gt (tr_lease_expires_at r) now)
             (thread_runtimes db)) with
  | r :: _ => Ok r
  | [] => Err "get active thread runtime: no rows in result set"
  end.

(** ** Fenced writes *)

Definition owns_runtime (orgID runtimeID leaseToken : uuid) (r : ThreadRuntime) : bool :=
  (tr_org_id r ==? orgID) && (tr_id r ==? runtimeID) && (tr_lease_token r ==? leaseToken).

Definition renew_runtime (now : time) (leaseDuration : duration) (r : ThreadRuntime) : ThreadRuntime :=
  r <| tr_heartbeat_at := Some now |>
    <| tr_lease_expires_at := Some (now + lease_seconds leaseDuration * second) |>
    <| tr_updated_at := now |>.

(** [runtime_handle_id] is NOT NULL: an empty handle fails the statement when
    a row matches. *)
Definition MarkLiveWithLease (now : time) (orgID runtimeID leaseToken : uuid)
    (runtimeHandleID : string) (leaseDuration : duration) (db : DB) : result (DB * bool) :=
  let p r := owns_runtime orgID runtimeID leaseToken r && runtime_attachable r in
  if exists_row p (thread_runtimes db) && (runtimeHandleID ==? "")
  then Err "mark thread runtime live: null value in column runtime_handle_id"
  else Ok (db <| thread_runtimes := update p (fun r =>
                (renew_runtime now leaseDuration r) <| tr_status := ThreadRuntimeStatusLive |>
                  <| tr_runtime_handle_id := runtimeHandleID |>) (thread_runtimes db) |>,
           count_rows p (thread_runtimes db) =? 1).

Definition HeartbeatWithLease (now : time) (orgID runtimeID leaseToken : uuid)
    (leaseDuration : duration) (db : DB) : DB * bool :=
  let p r := owns_runtime orgID runtimeID leaseToken r && runtime_active r in
  (db <| thread_runtimes := update p (renew_runtime now leaseDuration) (thread_runtimes db) |>,
   count_rows p (thread_runtimes db) =? 1).

(** [GREATEST] on both cursors. *)
Definition advance_runtime (now : time) (delivered acked : Z) (r : ThreadRuntime) : ThreadRuntime :=
  r <| tr_last_delivered_sequence := Z.max (tr_last_delivered_sequence r) delivered |>
    <| tr_last_acked_sequence := Z.max (tr_last_acked_sequence r) acked |>
    <| tr_heartbeat_at := Some now |> <| tr_updated_at := now |>.

Definition AdvanceDeliveryWithLease (now : time) (orgID runtimeID leaseToken : uuid)
    (deliveredSequence ackedSequence : Z) (db : DB) : DB * bool :=
  let p r := owns_runtime orgID runtimeID leaseToken r && runtime_active r in
  (db <| thread_runtimes := update p (advance_runtime now deliveredSequence ackedSequence)
           (thread_runtimes db) |>,
   count_rows p (thread_runtimes db) =? 1).

Definition apply_entry (now : time) (runtimeID : uuid) (e : ThreadInboxEntry) : ThreadInboxEntry :=
  e <| e_delivery_state := ThreadInboxDeliveryStateAcked |> <| e_runtime_id := Some runtimeID |>
    <| e_delivered_at := coalesce (e_delivered_at e) now |>
    <| e_acked_at := coalesce (e_acked_at e) now |>
    <| e_applied_at := coalesce (e_applied_at e) now |> <| e_updated_at := now |>.

Definition ErrInboxBatchConflict : string := "inbox delivery batch lifecycle conflict".

(** The entries a commit may apply: exactly the confirmed sequences this
    runtime has delivered. *)
Definition committable (orgID threadID runtimeID : uuid) (confirmed : list Z) (e : ThreadInboxEntry)
    : bool :=
  (e_org_id e ==? orgID) && (e_thread_id e ==? threadID)
  && existsb (Z.eqb (e_sequence_no e)) confirmed && col_is (e_runtime_id e) runtimeID
  && ((e_delivery_state e ==? ThreadInboxDeliveryStateDelivered)
      || (e_delivery_state e ==? ThreadInboxDeliveryStateAcked)
      || (e_delivery_state e ==? ThreadInboxDeliveryStateUnknownDelivery)).

Definition CommitInboxDeliveryWithLease (now clock : time) (orgID runtimeID leaseToken threadID : uuid)
    (ownerNodeID : string) (deliveredSequence ackedSequence : Z) (confirmedSequences : list Z) (db : DB)
    : result (DB * bool) :=
  if existsb (fun s => (s <=? 0) || (ackedSequence <? s)) confirmedSequences
  then Err "confirmed inbox sequence outside acknowledgment boundary"
  else
    let p r := owns_runtime orgID runtimeID leaseToken r && (tr_thread_id r ==? threadID)
               && col_gt (tr_lease_expires_at r) clock && runtime_active r in
    if negb (count_rows p (thread_runtimes db) =? 1) then Ok (db, false)
    else
      let q := committable orgID threadID runtimeID confirmedSequences in
      if negb (count_rows q (thread_inbox_entries db)
               =? Z.of_nat (length (remove_dups confirmedSequences)))
      then Err ErrInboxBatchConflict
      else Ok (db <| thread_runtimes := update p (advance_runtime now deliveredSequence ackedSequence)
                       (thread_runtimes db) |>
                  <| thread_inbox_entries := update q (fun e =>
                       (apply_entry now runtimeID e) <| e_owner_node_id := nullif_empty ownerNodeID |>)
                       (thread_inbox_entries db) |>, true).

Definition terminal_runtime_status (s : ThreadRuntimeStatus) : bool :=
  (s ==? ThreadRuntimeStatusClosed) || (s ==? ThreadRuntimeStatusFailed) || (s ==? ThreadRuntimeStatusLost).

Definition MarkTerminalWithLease (now : time) (orgID runtimeID leaseToken : uuid)
    (status : ThreadRuntimeStatus) (stopReason lastError : string) (db : DB) : result (DB * bool) :=
  if negb (terminal_runtime_status status) then Err "terminal thread runtime status required"
  else
    let p r := owns_runtime orgID runtimeID leaseToken r && runtime_active r in
    let held state e := (e_delivery_state e ==? state) && is_null (e_applied_at e)
      && exists_row (fun t => p t && (e_org_id e ==? tr_org_id t) && (e_session_id e ==? tr_session_id t)
           && (e_thread_id e ==? tr_thread_id t) && col_is (e_runtime_id e) (tr_id t)) (thread_runtimes db) in
    Ok (db <| thread_runtimes := update p (fun r =>
                r <| tr_status := status |> <| tr_closed_at := Some now |>
                  <| tr_stop_reason := nullif_empty stopReason |>
                  <| tr_last_error := nullif_empty lastError |> <| tr_updated_at := now |>)
                (thread_runtimes db) |>
           <| thread_inbox_entries := map (fun e =>
                if held ThreadInboxDeliveryStateDelivering e
                then e <| e_delivery_state := ThreadInboxDeliveryStatePending |>
                       <| e_runtime_id := None |> <| e_owner_node_id := None |> <| e_updated_at := now |>
                else if held ThreadInboxDeliveryStateDelivered e
                then doubt_entry now "runtime closed after delivery before acknowledgment" e
                else e) (thread_inbox_entries db) |>,
        exists_row p (thread_runtimes db)).

(** ** The reaper *)

(** [ORDER BY lease_expires_at NULLS FIRST, started_at]. *)
Definition lease_order (a b : ThreadRuntime) : bool :=
  match tr_lease_expires_at a, tr_lease_expires_at b with
  | None, None => tr_started_at a <=? tr_started_at b
  | None, Some _ => true
  | Some _, None => false
  | Some x, Some y => (x <? y) || ((x =? y) && (tr_started_at a <=? tr_started_at b))
  end.

Definition ReclaimExpiredLeases (now expiredBefore : time) (batch : Z) (locked : uuid -> bool) (db : DB)
    : DB * (Z * Z * Z * Z) :=
  let n := if batch <=? 0 then 100 else batch in
  let candidates := limit (Z.to_nat n) (order_by lease_order
    (select (fun r => runtime_active r && lease_expired expiredBefore r && negb (locked (tr_id r)))
       (thread_runtimes db))) in
  let gone r := existsb (fun c => (tr_id r ==? tr_id c) && (tr_org_id r ==? tr_org_id c)) candidates in
  let lost := select gone (thread_runtimes db) in
  (db <| thread_runtimes := update gone (lose_runtime now "lease_expired"
            (Some "runtime lease expired before terminal close")) (thread_runtimes db) |>
      <| session_sandbox_holders := expire_holders now lost (session_sandbox_holders db) |>
      <| thread_inbox_entries := release_inbox now "runtime lease expired before ack"
           "runtime lease expired after live delivery before ack" lost (thread_inbox_entries db) |>,
   (count_rows gone (thread_runtimes db),
    count_rows (fun h => existsb (fun r => holder_of r h) lost) (session_sandbox_holders db),
    count_rows (entry_of ThreadInboxDeliveryStateDelivering lost) (thread_inbox_entries db),
    count_rows (entry_of ThreadInboxDeliveryStateDelivered lost) (thread_inbox_entries db))).
