(* ===== verification/ThreadInboxStore.v ===== *)
(** * The thread inbox

    internal/db/thread_inbox_store.go: the durable queue of input for one
    thread, from acceptance to provider admission.  [now] is the transaction
    timestamp, [clock] is [clock_timestamp()]. *)

From S2P Require Import Prelude Sql Tables JobStore ExecutorStore ThreadRuntimeStore.
From stdpp Require Import base option list strings pretty gmap.

Open Scope string_scope.
Open Scope Z_scope.

Definition DefaultThreadInboxMaxDeliveryAttempts : Z := 5.
Definition threadInboxDeliveryRetryCooldownSeconds : Z := 5.

Definition entry_in_thread (orgID threadID : uuid) (e : ThreadInboxEntry) : bool :=
  (e_org_id e ==? orgID) && (e_thread_id e ==? threadID).

(** ** Acceptance *)

Record AppendThreadInboxEntryParams := MkAppendThreadInboxEntryParams {
  ati_SessionID : uuid;
  ati_ThreadID : uuid;
  ati_MessageID : Z;
  ati_ClientMessageID : string;
  ati_EntryType : ThreadInboxEntryType;
  ati_Payload : payload
}.

(** [MAX(sequence_no)] over the selected rows. *)
Definition max_sequence (l : list ThreadInboxEntry) : option Z :=
  foldr (fun e acc => match acc with
                      | Some m => Some (Z.max (e_sequence_no e) m)
                      | None => Some (e_sequence_no e)
                      end) None l.
Definition min_sequence (l : list ThreadInboxEntry) : option Z :=
  foldr (fun e acc => match acc with
                      | Some m => Some (Z.min (e_sequence_no e) m)
                      | None => Some (e_sequence_no e)
                      end) None l.

Definition next_sequence (db : DB) (orgID threadID : uuid) : Z :=
  default 0 (max_sequence (select (entry_in_thread orgID threadID) (thread_inbox_entries db))) + 1.

Definition client_message_id (p : AppendThreadInboxEntryParams) : string :=
  if (ati_ClientMessageID p ==? "") && (ati_MessageID p <>? 0)
  then "message:" +:+ pretty (ati_MessageID p) else ati_ClientMessageID p.

Definition new_entry (now : time) (fresh orgID : uuid) (seq : Z) (p : AppendThreadInboxEntryParams)
    : ThreadInboxEntry :=
  MkThreadInboxEntry fresh orgID (ati_SessionID p) (ati_ThreadID p) seq
    (if ati_MessageID p =? 0 then None else Some (ati_MessageID p))
    (nullif_empty (client_message_id p)) (ati_EntryType p)
    (ati_Payload p) ThreadInboxDeliveryStatePending 0 None None None now None None None now now.

(** idx_thread_inbox_entries_client_message and _message. *)
Definition same_client_message (orgID threadID : uuid) (client : string) (e : ThreadInboxEntry) : bool :=
  entry_in_thread orgID threadID e && (client <>? "") && col_is (e_client_message_id e) client.
Definition same_message (orgID : uuid) (messageID : Z) (e : ThreadInboxEntry) : bool :=
  (e_org_id e ==? orgID) && (messageID <>? 0) && col_is (e_message_id e) messageID.

Definition AppendForMessage (now : time) (fresh orgID : uuid) (p : AppendThreadInboxEntryParams) (db : DB)
    : result (DB * ThreadInboxEntry) :=
  let client := client_message_id p in
  if negb (exists_row (fun t => (th_org_id t ==? orgID) && (th_session_id t ==? ati_SessionID p)
              && (th_id t ==? ati_ThreadID p) && is_null (th_archived_at t)) (session_threads db))
  then Err "append thread inbox entry: no rows in result set"
  else match select (same_client_message orgID (ati_ThreadID p) client) (thread_inbox_entries db) with
       | e :: _ => Ok (db, e)
       | [] =>
           if exists_row (fun e => same_message orgID (ati_MessageID p) e || (e_id e ==? fresh))
                (thread_inbox_entries db)
           then Err "append thread inbox entry: unique violation"
           else if next_sequence db orgID (ati_ThreadID p) <=? 0 then Err "append thread inbox entry: check violation"
           else let e := new_entry now fresh orgID (next_sequence db orgID (ati_ThreadID p)) p in
                Ok (db <| thread_inbox_entries := (thread_inbox_entries db ++ [e])%list |>, e)
       end.

(** ** Delivery by the owner of a leased runtime *)

(** The [owned_runtime] CTE. *)
Definition owned_runtime (clock : time) (orgID threadID runtimeID leaseToken : uuid) (r : ThreadRuntime)
    : bool :=
  (tr_org_id r ==? orgID) && (tr_thread_id r ==? threadID) && (tr_id r ==? runtimeID)
  && (tr_lease_token r ==? leaseToken) && runtime_attachable r && col_gt (tr_lease_expires_at r) clock.

Definition MarkDeliveredForEntry (now clock : time) (orgID threadID runtimeID leaseToken : uuid)
    (ownerNodeID : string) (entryID : uuid) (sequenceNo : Z) (db : DB) : DB * Z :=
  let attempt (r : ThreadRuntime) e := entry_in_thread orgID threadID e
    && (e_session_id e ==? tr_session_id r) && col_is (e_runtime_id e) (tr_id r)
    && (e_id e ==? entryID) && (e_sequence_no e =? sequenceNo)
    && (e_delivery_state e ==? ThreadInboxDeliveryStateDelivering) && is_null (e_applied_at e) in
  let p r := owned_runtime clock orgID threadID runtimeID leaseToken r
             && exists_row (attempt r) (thread_inbox_entries db) in
  let q e := exists_row (fun r => p r && attempt r e) (thread_runtimes db) in
  (db <| thread_runtimes := update p (fun r =>
           r <| tr_last_delivered_sequence := Z.max (tr_last_delivered_sequence r) sequenceNo |>
             <| tr_updated_at := now |>) (thread_runtimes db) |>
      <| thread_inbox_entries := update q (fun e =>
           e <| e_delivery_state := ThreadInboxDeliveryStateDelivered |>
             <| e_owner_node_id := nullif_empty ownerNodeID |>
             <| e_delivered_at := coalesce (e_delivered_at e) now |> <| e_updated_at := now |>)
           (thread_inbox_entries db) |>,
   count_rows q (thread_inbox_entries db)).

Definition ResetUnsentDelivery (now clock : time) (orgID threadID runtimeID leaseToken entryID : uuid)
    (db : DB) : DB * Z :=
  let q e := entry_in_thread orgID threadID e && (e_id e ==? entryID)
    && (e_delivery_state e ==? ThreadInboxDeliveryStateDelivered)
    && is_null (e_applied_at e) && is_null (e_acked_at e)
    && exists_row (fun r => owned_runtime clock orgID threadID runtimeID leaseToken r
         && (e_session_id e ==? tr_session_id r) && col_is (e_runtime_id e) (tr_id r))
         (thread_runtimes db) in
  let other_delivered r := max_sequence (select (fun e => entry_in_thread orgID threadID e
    && (e_session_id e ==? tr_session_id r) && col_is (e_runtime_id e) (tr_id r)
    && (e_id e <>? entryID) && (e_delivery_state e ==? ThreadInboxDeliveryStateDelivered))
    (thread_inbox_entries db)) in
  let p r := (tr_org_id r ==? orgID) && (tr_thread_id r ==? threadID) && (tr_id r ==? runtimeID)
    && (tr_lease_token r ==? leaseToken) && exists_row q (thread_inbox_entries db) in
  (db <| thread_runtimes := update p (fun r =>
           r <| tr_last_delivered_sequence := Z.max (tr_last_acked_sequence r) (default 0 (other_delivered r)) |>
             <| tr_updated_at := now |>) (thread_runtimes db) |>
      <| thread_inbox_entries := update q (fun e =>
           e <| e_delivery_state := ThreadInboxDeliveryStateDelivering |> <| e_delivered_at := None |>
             <| e_updated_at := now |>) (thread_inbox_entries db) |>,
   count_rows p (thread_runtimes db)).

(** [e.message_id = ANY(ids)]. *)
Definition message_in (ids : list Z) (e : ThreadInboxEntry) : bool :=
  match e_message_id e with Some m => existsb (Z.eqb m) ids | None => false end.

Definition MarkAckedForSeedMessages (now clock : time) (orgID threadID runtimeID leaseToken : uuid)
    (messageIDs : list Z) (db : DB) : DB * Z :=
  if (length messageIDs =? 0)%nat then (db, 0)
  else
    let seed e := entry_in_thread orgID threadID e && message_in messageIDs e
      && ((e_delivery_state e ==? ThreadInboxDeliveryStatePending)
          || (e_delivery_state e ==? ThreadInboxDeliveryStateDelivering)
          || (e_delivery_state e ==? ThreadInboxDeliveryStateDelivered))
      && is_null (e_applied_at e)
      && exists_row (fun r => owned_runtime clock orgID threadID runtimeID leaseToken r
           && (tr_session_id r ==? e_session_id e)
           && (is_null (e_runtime_id e) || col_is (e_runtime_id e) (tr_id r))) (thread_runtimes db) in
    let complete := count_rows seed (thread_inbox_entries db)
                    =? Z.of_nat (length (remove_dups messageIDs)) in
    let q e := seed e && complete in
    (db <| thread_inbox_entries := update q (apply_entry now runtimeID) (thread_inbox_entries db) |>,
     count_rows q (thread_inbox_entries db)).

(** An entry that still holds back the acknowledged prefix. *)
Definition unsettled (e : ThreadInboxEntry) : bool :=
  match e_delivery_state e with
  | ThreadInboxDeliveryStateAcked => is_null (e_applied_at e)
  | ThreadInboxDeliveryStateDeadLetter => false
  | _ => true
  end.

Definition LastAcknowledgedSequence (db : DB) (orgID threadID : uuid) : Z :=
  let l := select (entry_in_thread orgID threadID) (thread_inbox_entries db) in
  match min_sequence (select unsettled l) with
  | Some m => m - 1
  | None => default 0 (max_sequence l)
  end.

(** A closed owner that never attached a process or a phase. *)
Definition never_attached (db : DB) (orgID threadID sessionID : uuid) (owner : option uuid) : bool :=
  exists_row (fun previous => (tr_org_id previous ==? orgID) && (tr_session_id previous ==? sessionID)
    && (tr_thread_id previous ==? threadID) && col_is owner (tr_id previous)
    && terminal_runtime_status (tr_status previous) && (tr_runtime_handle_id previous ==? "")
    && negb (exists_row (fun ph => (ph_org_id ph ==? orgID) && col_is (ph_runtime_id ph) (tr_id previous))
               (session_activity_phases db))) (thread_runtimes db).

Definition MarkDeliveringForMessages (now clock : time) (orgID threadID runtimeID leaseToken : uuid)
    (ownerNodeID : string) (messageIDs : list Z) (db : DB) : DB * Z :=
  if (length messageIDs =? 0)%nat then (db, 0)
  else
    let q e := entry_in_thread orgID threadID e && message_in messageIDs e && is_null (e_applied_at e)
      && exists_row (fun r => owned_runtime clock orgID threadID runtimeID leaseToken r
           && (e_session_id e ==? tr_session_id r)
           && (((e_delivery_state e ==? ThreadInboxDeliveryStatePending) && is_null (e_runtime_id e))
               || ((e_delivery_state e ==? ThreadInboxDeliveryStateDelivering)
                   && (col_is (e_runtime_id e) (tr_id r)
                       || never_attached db orgID threadID (tr_session_id r) (e_runtime_id e)))))
           (thread_runtimes db) in
    (db <| thread_inbox_entries := update q (fun e =>
             e <| e_delivery_state := ThreadInboxDeliveryStateDelivering |>
               <| e_runtime_id := Some runtimeID |> <| e_owner_node_id := nullif_empty ownerNodeID |>
               <| e_updated_at := now |>) (thread_inbox_entries db) |>,
     count_rows q (thread_inbox_entries db)).

(** ** Failure and recovery *)

(** [delivery_state IN ('pending', 'delivering', 'delivered', 'unknown_delivery')]. *)
Definition outstanding (e : ThreadInboxEntry) : bool :=
  match e_delivery_state e with
  | ThreadInboxDeliveryStatePending | ThreadInboxDeliveryStateDelivering
  | ThreadInboxDeliveryStateDelivered | ThreadInboxDeliveryStateUnknownDelivery => true
  | _ => false
  end.

(** An UPDATE ... RETURNING of one entry: the written row, or an error. *)
Definition update_entry (p : ThreadInboxEntry -> bool) (f : ThreadInboxEntry -> ThreadInboxEntry)
    (db : DB) : result (DB * ThreadInboxEntry) :=
  match select p (thread_inbox_entries db) with
  | e :: _ => Ok (db <| thread_inbox_entries := update p f (thread_inbox_entries db) |>, f e)
  | [] => Err "no rows in result set"
  end.

Definition MarkDeadLetter (now : time) (orgID threadID entryID : uuid) (reason : string) (db : DB)
    : result (DB * ThreadInboxEntry) :=
  update_entry (fun e => entry_in_thread orgID threadID e && (e_id e ==? entryID) && outstanding e)
    (fun e => e <| e_delivery_state := ThreadInboxDeliveryStateDeadLetter |>
                <| e_delivery_attempts := e_delivery_attempts e + 1 |>
                <| e_last_error := nullif_empty reason |> <| e_owner_node_id := None |>
                <| e_updated_at := now |>) db.

Definition DeadLetterPendingByThread (now : time) (orgID threadID : uuid) (reason : string) (db : DB)
    : DB * Z :=
  let p e := entry_in_thread orgID threadID e && outstanding e in
  (db <| thread_inbox_entries := update p (fun e =>
           e <| e_delivery_state := ThreadInboxDeliveryStateDeadLetter |>
             <| e_last_error := nullif_empty reason |> <| e_owner_node_id := None |>
             <| e_runtime_id := None |> <| e_updated_at := now |>) (thread_inbox_entries db) |>,
   count_rows p (thread_inbox_entries db)).

Definition fail_entry (now : time) (reason : string) (maxAttempts : Z) (e : ThreadInboxEntry)
    : ThreadInboxEntry :=
  e <| e_delivery_state := if maxAttempts <=? e_delivery_attempts e + 1
                           then ThreadInboxDeliveryStateDeadLetter else ThreadInboxDeliveryStatePending |>
    <| e_delivery_attempts := e_delivery_attempts e + 1 |>
    <| e_last_error := nullif_empty reason |> <| e_owner_node_id := None |>
    <| e_runtime_id := None |> <| e_updated_at := now |>.

Definition MarkDeliveryFailed (now : time) (orgID threadID runtimeID entryID : uuid) (reason : string)
    (maxAttempts : Z) (db : DB) : result (DB * ThreadInboxEntry) :=
  let budget := if maxAttempts <=? 0 then DefaultThreadInboxMaxDeliveryAttempts else maxAttempts in
  update_entry (fun e => entry_in_thread orgID threadID e && col_is (e_runtime_id e) runtimeID
      && (e_id e ==? entryID) && (e_delivery_state e ==? ThreadInboxDeliveryStateDelivering))
    (fail_entry now reason budget) db.

Definition sequence_le (a b : ThreadInboxEntry) : bool := e_sequence_no a <=? e_sequence_no b.
Definition inbox_limit (n : Z) : nat := Z.to_nat (if n <=? 0 then 50 else n).

Definition ListDeliverableAfter (db : DB) (orgID threadID : uuid) (afterSequence n : Z)
    : list ThreadInboxEntry :=
  limit (inbox_limit n) (order_by sequence_le (select (fun e => entry_in_thread orgID threadID e
    && ((afterSequence <? e_sequence_no e) || (e_delivery_state e ==? ThreadInboxDeliveryStatePending))
    && ((e_delivery_state e ==? ThreadInboxDeliveryStatePending)
        || (e_delivery_state e ==? ThreadInboxDeliveryStateDelivering))) (thread_inbox_entries db))).

(** A runtime with every delivered entry acknowledged may take more. *)
Definition claiming_runtime (clock : time) (orgID threadID runtimeID leaseToken : uuid) (db : DB)
    (r : ThreadRuntime) : bool :=
  owned_runtime clock orgID threadID runtimeID leaseToken r
  && (tr_last_delivered_sequence r <=? tr_last_acked_sequence r)
  && negb (exists_row (fun a => entry_in_thread orgID threadID a && (e_session_id a ==? tr_session_id r)
       && col_is (e_runtime_id a) runtimeID
       && ((e_delivery_state a ==? ThreadInboxDeliveryStateDelivered)
           || (e_delivery_state a ==? ThreadInboxDeliveryStateUnknownDelivery))
       && is_null (e_applied_at a)) (thread_inbox_entries db)).

(** A previously failed entry waits for the cooldown. *)
Definition cooled (now : time) (e : ThreadInboxEntry) : bool :=
  (e_delivery_attempts e =? 0)
  || (e_updated_at e <=? now - threadInboxDeliveryRetryCooldownSeconds * second).

Definition deliverable (now clock : time) (orgID threadID runtimeID leaseToken : uuid)
    (afterSequence : Z) (db : DB) (e : ThreadInboxEntry) : bool :=
  entry_in_thread orgID threadID e
  && ((afterSequence <? e_sequence_no e) || (e_delivery_state e ==? ThreadInboxDeliveryStatePending))
  && is_null (e_applied_at e)
  && exists_row (fun r => claiming_runtime clock orgID threadID runtimeID leaseToken db r
       && (tr_session_id r ==? e_session_id e)) (thread_runtimes db)
  && (((e_delivery_state e ==? ThreadInboxDeliveryStatePending) && is_null (e_runtime_id e))
      || ((e_delivery_state e ==? ThreadInboxDeliveryStateDelivering) && col_is (e_runtime_id e) runtimeID))
  && cooled now e.

Definition claim_entry (now : time) (runtimeID : uuid) (ownerNodeID : string) (e : ThreadInboxEntry)
    : ThreadInboxEntry :=
  e <| e_delivery_state := ThreadInboxDeliveryStateDelivering |> <| e_runtime_id := Some runtimeID |>
    <| e_owner_node_id := nullif_empty ownerNodeID |> <| e_updated_at := now |>.

Definition ClaimDeliverableAfter (now clock : time) (orgID threadID runtimeID leaseToken : uuid)
    (ownerNodeID : string) (afterSequence n : Z) (locked : uuid -> bool) (db : DB)
    : DB * list ThreadInboxEntry :=
  let candidates := limit (inbox_limit n) (order_by sequence_le (select (fun e =>
    deliverable now clock orgID threadID runtimeID leaseToken afterSequence db e
    && negb (locked (e_id e))) (thread_inbox_entries db))) in
  let candidate e := entry_in_thread orgID threadID e && existsb (fun c => e_id c ==? e_id e) candidates in
  let claimed e := candidate e && (e_delivery_state e ==? ThreadInboxDeliveryStatePending) in
  let held e := candidate e && (e_delivery_state e ==? ThreadInboxDeliveryStateDelivering)
                && col_is (e_runtime_id e) runtimeID in
  (db <| thread_inbox_entries := update claimed (claim_entry now runtimeID ownerNodeID)
           (thread_inbox_entries db) |>,
   order_by sequence_le
     (map (claim_entry now runtimeID ownerNodeID) (select claimed (thread_inbox_entries db))
      ++ select held (thread_inbox_entries db))%list).

Definition ListRecoverableByThread (db : DB) (orgID threadID : uuid) (n : Z) : list ThreadInboxEntry :=
  limit (inbox_limit n) (order_by sequence_le (select (fun e => entry_in_thread orgID threadID e
    && ((e_delivery_state e ==? ThreadInboxDeliveryStateDeadLetter)
        || (e_delivery_state e ==? ThreadInboxDeliveryStateUnknownDelivery))) (thread_inbox_entries db))).

Definition RetryRecoverable (now : time) (orgID threadID entryID : uuid) (allowUnknownDelivery : bool)
    (db : DB) : result (DB * ThreadInboxEntry) :=
  update_entry (fun e => entry_in_thread orgID threadID e && (e_id e ==? entryID)
      && ((e_delivery_state e ==? ThreadInboxDeliveryStateDeadLetter)
          || (allowUnknownDelivery && (e_delivery_state e ==? ThreadInboxDeliveryStateUnknownDelivery))))
    (fun e => e <| e_delivery_state := ThreadInboxDeliveryStatePending |> <| e_delivery_attempts := 0 |>
                <| e_last_error := None |> <| e_owner_node_id := None |> <| e_runtime_id := None |>
                <| e_delivered_at := if e_delivery_state e ==? ThreadInboxDeliveryStateUnknownDelivery
                                     then e_delivered_at e else None |>
                <| e_acked_at := None |> <| e_updated_at := now |>) db.

(** ** Reads *)

Definition CountPendingByThread (db : DB) (orgID threadID : uuid) : Z :=
  count_rows (fun e => entry_in_thread orgID threadID e && outstanding e) (thread_inbox_entries db).
Definition CountPendingBySession (db : DB) (orgID sessionID : uuid) : Z :=
  count_rows (fun e => (e_org_id e ==? orgID) && (e_session_id e ==? sessionID) && outstanding e)
    (thread_inbox_entries db).
Definition GetByClientMessageID (db : DB) (orgID threadID : uuid) (client : string)
    : result ThreadInboxEntry :=
  match select (fun e => entry_in_thread orgID threadID e && col_is (e_client_message_id e) client)
          (thread_inbox_entries db) with
  | e :: _ => Ok e
  | [] => Err "get thread inbox by client message id: no rows in result set"
  end.
Definition IsMessageAcked (db : DB) (orgID threadID : uuid) (messageID : Z) : bool :=
  match select (fun e => entry_in_thread orgID threadID e && col_is (e_message_id e) messageID)
          (thread_inbox_entries db) with
  | e :: _ => e_delivery_state e ==? ThreadInboxDeliveryStateAcked
  | [] => false
  end.
Definition ListAppliedMessageIDs (db : DB) (orgID sessionID threadID : uuid) (messageIDs : list Z)
    : list Z :=
  if (length messageIDs =? 0)%nat then []
  else order_by Z.leb (omap e_message_id (select (fun e => entry_in_thread orgID threadID e
    && (e_session_id e ==? sessionID) && message_in messageIDs e
    && (e_delivery_state e ==? ThreadInboxDeliveryStateAcked) && negb (is_null (e_applied_at e)))
    (thread_inbox_entries db))).
