(* ===== verification/HolderStore.v ===== *)
(** * Sandbox holders

    internal/db/session_sandbox_holder_store.go: the leases that keep a
    session's container alive, as thread runtimes use them.  The statements on
    holders of code reviews are not part of the model. *)

From S2P Require Import Prelude GoRuntime Sql Tables ExecutorStore ThreadRuntimeStore.
From stdpp Require Import base option list strings gmap.

Open Scope string_scope.
Open Scope Z_scope.

Definition SessionSandboxHolderKindThreadRuntime : string := "thread_runtime".
Definition holder_kind_valid (kind : string) : bool :=
  existsb (String.eqb kind) ["thread_runtime"; "preview"; "snapshot"; "operator"; "code_review"].

Record CreateSessionSandboxHolderParams := MkCreateSessionSandboxHolderParams {
  chp_SessionID : uuid;
  chp_ContainerID : string;
  chp_HolderKind : string;
  chp_HolderID : uuid;
  chp_OwnerNodeID : string;
  chp_LeaseToken : uuid;
  chp_LeaseDuration : duration
}.

(** The row of idx_session_sandbox_holders_one_active. *)
Definition holds_sandbox (orgID sessionID : uuid) (kind : string) (holderID : uuid) (h : SandboxHolder) : bool :=
  (h_org_id h ==? orgID) && (h_session_id h ==? sessionID) && (h_holder_kind h ==? kind) && (h_holder_id h ==? holderID)
  && ((h_status h ==? "active") || (h_status h ==? "draining")).
Definition holds_with_lease (orgID sessionID : uuid) (kind : string) (holderID leaseToken : uuid) (h : SandboxHolder) : bool :=
  holds_sandbox orgID sessionID kind holderID h && (h_lease_token h ==? leaseToken).

(** INSERT ... ON CONFLICT DO UPDATE on the partial index. *)
Definition CreateActive (now : time) (fresh orgID : uuid) (p : CreateSessionSandboxHolderParams) (db : DB)
    : result (DB * SandboxHolder) :=
  let t := session_sandbox_holders db in
  let q := holds_sandbox orgID (chp_SessionID p) (chp_HolderKind p) (chp_HolderID p) in
  let expires := now + lease_seconds (chp_LeaseDuration p) * second in
  if negb (holder_kind_valid (chp_HolderKind p)) then Err "invalid SessionSandboxHolderKind"
  else if chp_ContainerID p ==? "" then Err "create session sandbox holder: check violation"
  else match select q t with
  | h :: _ =>
      let take h := h <| h_container_id := chp_ContainerID p |> <| h_owner_node_id := chp_OwnerNodeID p |>
        <| h_lease_token := chp_LeaseToken p |> <| h_status := "active" |> <| h_heartbeat_at := now |>
        <| h_expires_at := expires |> <| h_updated_at := now |> in
      Ok (db <| session_sandbox_holders := update q take t |>, take h)
  | [] =>
      if exists_row (fun h => h_id h ==? fresh) t then Err "create session sandbox holder: unique violation"
      else let h := MkSandboxHolder fresh orgID (chp_SessionID p) (chp_ContainerID p) (chp_HolderKind p) (chp_HolderID p)
                      (chp_OwnerNodeID p) (chp_LeaseToken p) "active" now expires now None now in
           Ok (db <| session_sandbox_holders := (t ++ [h])%list |>, h)
  end.

Definition ReleaseWithLease (now : time) (orgID sessionID : uuid) (kind : string) (holderID leaseToken : uuid) (db : DB)
    : result (DB * bool) :=
  let q := holds_with_lease orgID sessionID kind holderID leaseToken in
  if negb (holder_kind_valid kind) then Err "invalid SessionSandboxHolderKind"
  else Ok (db <| session_sandbox_holders := update q (fun h =>
                   h <| h_status := "released" |> <| h_released_at := Some now |> <| h_updated_at := now |>)
                   (session_sandbox_holders db) |>,
           count_rows q (session_sandbox_holders db) =? 1).

Definition HeartbeatWithLease (now : time) (orgID sessionID : uuid) (kind : string) (holderID leaseToken : uuid)
    (leaseDuration : duration) (db : DB) : result (DB * bool) :=
  let q := holds_with_lease orgID sessionID kind holderID leaseToken in
  if negb (holder_kind_valid kind) then Err "invalid SessionSandboxHolderKind"
  else Ok (db <| session_sandbox_holders := update q (fun h =>
                   h <| h_heartbeat_at := now |> <| h_expires_at := now + lease_seconds leaseDuration * second |>
                     <| h_updated_at := now |>) (session_sandbox_holders db) |>,
           count_rows q (session_sandbox_holders db) =? 1).

Definition active_runtime_holder (now : time) (orgID sessionID : uuid) (h : SandboxHolder) : bool :=
  (h_org_id h ==? orgID) && (h_session_id h ==? sessionID) && (h_holder_kind h ==? SessionSandboxHolderKindThreadRuntime)
  && ((h_status h ==? "active") || (h_status h ==? "draining")) && (now <? h_expires_at h).
Definition CountActiveThreadRuntimesBySession (now : time) (orgID sessionID : uuid) (db : DB) : Z :=
  count_rows (active_runtime_holder now orgID sessionID) (session_sandbox_holders db).
Definition CountActiveThreadRuntimesBySessionExcluding (now : time) (orgID sessionID excluded : uuid) (db : DB) : Z :=
  count_rows (fun h => active_runtime_holder now orgID sessionID h && (h_holder_id h <>? excluded))
    (session_sandbox_holders db).
