(* ===== verification/ActivityPhaseStore.v ===== *)
(** * Activity phases and delivery batches

    internal/db/session_activity_phases.go and session_activity_seed.go: the
    phases of provider work on a thread, the batches of inbox input that start
    them, and the admission of seed messages.  An operation is one transaction;
    an error leaves the database as it was.  [now] is the transaction
    timestamp, [clock] is [clock_timestamp()]. *)

From S2P Require Import Prelude GoRuntime Sql Tables Continuation JobStore ExecutorStore ThreadRuntimeStore ThreadInboxStore.
From stdpp Require Import base option list strings pretty gmap.

Open Scope string_scope.
Open Scope Z_scope.

Definition ErrActivityPhaseConflict : string := "activity phase lifecycle conflict".
Definition ErrInboxBatchNoPhaseTransition : string := "inbox receipt requires no phase transition".

Record ActivityPhaseTrigger := MkActivityPhaseTrigger {
  tg_Kind : ActivityPhaseTriggerKind;
  tg_BatchID : option uuid
}.

(** [Truncate(time.Microsecond)]. *)
Definition microsecond : duration := 1000.
Definition postgresTimestamp (t : time) : time := t - t mod microsecond.

(** ** Constraints of the tables *)

(** chk_session_activity_phases_status_reason. *)
Definition status_reason (s : ActivityPhaseStatus) (r : option ActivityPhaseBoundaryReason) : bool :=
  match s, r with
  | ActivityPhaseStatusRunning, None => true
  | ActivityPhaseStatusCompleted,
    Some (ActivityPhaseBoundaryFinalResponse | ActivityPhaseBoundaryHumanInput
          | ActivityPhaseBoundaryApproval | ActivityPhaseBoundaryPlanApproval
          | ActivityPhaseBoundarySteered) => true
  | ActivityPhaseStatusFailed, Some ActivityPhaseBoundaryError => true
  | ActivityPhaseStatusCancelled,
    Some (ActivityPhaseBoundaryStopped | ActivityPhaseBoundaryCancelled) => true
  | ActivityPhaseStatusInterrupted,
    Some (ActivityPhaseBoundaryMaintenance | ActivityPhaseBoundaryRuntimeLost
          | ActivityPhaseBoundaryCapacitySuspended | ActivityPhaseBoundaryInterrupted) => true
  | _, _ => false
  end.

(** idx_session_activity_phases_one_running and _trigger_batch. *)
Definition running_in (orgID threadID : uuid) (p : SessionActivityPhase) : bool :=
  (ph_org_id p ==? orgID) && (ph_thread_id p ==? threadID) && (ph_status p ==? ActivityPhaseStatusRunning).
Definition triggered_by (orgID : uuid) (batchID : option uuid) (p : SessionActivityPhase) : bool :=
  (ph_org_id p ==? orgID)
  && match batchID with Some b => col_is (ph_trigger_batch_id p) b | None => false end.

(** The keys of the unique indexes of thread_inbox_entries, of the rows that
    an index covers. *)
Definition entry_keys_distinct (t : list ThreadInboxEntry) : bool :=
  bool_decide (NoDup (map e_id t))
  && bool_decide (NoDup (map (fun e => (e_org_id e, e_thread_id e, e_sequence_no e)) t))
  && bool_decide (NoDup (omap (fun e => (fun m => (e_org_id e, m)) <$> e_message_id e) t))
  && bool_decide (NoDup (omap (fun e => (fun c => (e_org_id e, e_thread_id e, c)) <$> e_client_message_id e) t)).

(** ** Starting a phase *)

(** The rows of a batch: [sequence_no BETWEEN sequence_start AND sequence_end]
    under the batch's runtime. *)
Definition in_range (orgID sessionID threadID runtimeID : uuid) (first last : Z) (e : ThreadInboxEntry) : bool :=
  (e_org_id e ==? orgID) && (e_session_id e ==? sessionID) && (e_thread_id e ==? threadID)
  && col_is (e_runtime_id e) runtimeID && (first <=? e_sequence_no e) && (e_sequence_no e <=? last).

Definition scoped_runtime (orgID sessionID threadID runtimeID leaseToken : uuid) (r : ThreadRuntime) : bool :=
  (tr_org_id r ==? orgID) && (tr_session_id r ==? sessionID) && (tr_thread_id r ==? threadID)
  && (tr_id r ==? runtimeID) && (tr_lease_token r ==? leaseToken).

(** The batch of the trigger becomes started and its entries applied. *)
Definition awaiting_batch (orgID sessionID threadID batchID : uuid) (b : ThreadInboxDeliveryBatch) : bool :=
  (b_org_id b ==? orgID) && (b_id b ==? batchID) && (b_session_id b ==? sessionID)
  && (b_thread_id b ==? threadID) && (b_status b ==? InboxDeliveryBatchAcknowledged).
Definition batch_entry (b : ThreadInboxDeliveryBatch) (e : ThreadInboxEntry) : bool :=
  in_range (b_org_id b) (b_session_id b) (b_thread_id b) (b_runtime_id b) (b_sequence_start b) (b_sequence_end b) e.
Definition started_batch (now startedAt : time) (b : ThreadInboxDeliveryBatch) : ThreadInboxDeliveryBatch :=
  b <| b_status := InboxDeliveryBatchStarted |> <| b_started_at := Some startedAt |> <| b_updated_at := now |>.
Definition started_entry (now startedAt : time) (e : ThreadInboxEntry) : ThreadInboxEntry :=
  e <| e_applied_at := coalesce (e_applied_at e) startedAt |> <| e_updated_at := now |>.

Definition start_batch (now : time) (orgID sessionID threadID batchID : uuid) (leaseToken : option uuid)
    (startedAt : time) (db : DB) : result (DB * ThreadInboxDeliveryBatch) :=
  let p := awaiting_batch orgID sessionID threadID batchID in
  match select p (thread_inbox_delivery_batches db) with
  | [] => Err ErrInboxBatchConflict
  | b :: _ =>
      if is_null leaseToken then Err "start activity phase: inbox trigger requires runtime lease token"
      else
        let q e := batch_entry b e && (e_delivery_state e ==? ThreadInboxDeliveryStateAcked) in
        if negb (count_rows q (thread_inbox_entries db) =? b_sequence_end b - b_sequence_start b + 1)
        then Err ErrInboxBatchConflict
        else Ok (db <| thread_inbox_delivery_batches := update p (started_batch now startedAt)
                         (thread_inbox_delivery_batches db) |>
                    <| thread_inbox_entries := update q (started_entry now startedAt) (thread_inbox_entries db) |>, b)
  end.

(** The fresh owner retires the running phases of terminal owners. *)
Definition retire_phases (now : time) (orgID sessionID threadID runtimeID : uuid) (startedAt : time) (db : DB) : DB :=
  let p ph := (ph_org_id ph ==? orgID) && (ph_session_id ph ==? sessionID) && (ph_thread_id ph ==? threadID)
    && (ph_status ph ==? ActivityPhaseStatusRunning)
    && exists_row (fun old => (tr_org_id old ==? orgID) && (tr_session_id old ==? sessionID)
         && (tr_thread_id old ==? threadID) && (tr_id old <>? runtimeID)
         && terminal_runtime_status (tr_status old) && col_is (ph_runtime_id ph) (tr_id old))
         (thread_runtimes db) in
  db <| session_activity_phases := update p (fun ph =>
          ph <| ph_status := ActivityPhaseStatusInterrupted |>
             <| ph_boundary_reason := Some ActivityPhaseBoundaryRuntimeLost |>
             <| ph_completed_at := Some (Z.max (ph_started_at ph) startedAt) |> <| ph_updated_at := now |>)
          (session_activity_phases db) |>.

(** [COALESCE(MAX(phase_number), 0) + 1] over the turn. *)
Definition next_phase_number (orgID threadID : uuid) (turn : Z) (t : list SessionActivityPhase) : Z :=
  foldr (fun p acc => Z.max (ph_phase_number p) acc) 0
    (select (fun p => (ph_org_id p ==? orgID) && (ph_thread_id p ==? threadID) && (ph_turn_number p =? turn)) t) + 1.

Definition insert_phase (p : SessionActivityPhase) (db : DB) : result (DB * SessionActivityPhase) :=
  let t := session_activity_phases db in
  if (ph_turn_number p <? 0)
     || ((ph_trigger_kind p ==? ActivityPhaseTriggerInboxBatch) ==? is_null (ph_trigger_batch_id p))
  then Err "insert activity phase: check violation"
  else if exists_row (fun x => ph_id x ==? ph_id p) t
          || exists_row (running_in (ph_org_id p) (ph_thread_id p)) t
          || exists_row (triggered_by (ph_org_id p) (ph_trigger_batch_id p)) t
  then Err "insert activity phase: unique violation"
  else Ok (db <| session_activity_phases := (t ++ [p])%list |>, p).

Definition startActivityPhaseTx (now clock : time) (fresh orgID sessionID threadID : uuid) (turnNumber : Z)
    (runtimeID runtimeLeaseToken : option uuid) (trigger : ActivityPhaseTrigger) (startedAt : time) (db : DB)
    : result (DB * SessionActivityPhase) :=
  if negb (exists_row (fun t => (th_org_id t ==? orgID) && (th_session_id t ==? sessionID) && (th_id t ==? threadID))
             (session_threads db))
  then Err "lock activity phase thread: no rows in result set"
  else
    let? (db, runtimeID, range) :=
      match tg_BatchID trigger with
      | None => Ok (db, runtimeID, None)
      | Some batchID =>
          let? (db, b) := start_batch now orgID sessionID threadID batchID runtimeLeaseToken startedAt db in
          Ok (db, Some (b_runtime_id b), Some (b_sequence_start b, b_sequence_end b))
      end in
    let? db :=
      match runtimeID, runtimeLeaseToken with
      | None, _ => Ok db
      | Some rt, Some token =>
          if exists_row (fun r => scoped_runtime orgID sessionID threadID rt token r && runtime_attachable r
               && col_gt (tr_lease_expires_at r) startedAt && col_gt (tr_lease_expires_at r) clock)
               (thread_runtimes db)
          then Ok (retire_phases now orgID sessionID threadID rt startedAt db)
          else Err "validate active activity phase runtime lease: no rows in result set"
      | Some _, None => Err "invalid memory address or nil pointer dereference"
      end in
    insert_phase (MkSessionActivityPhase fresh orgID sessionID threadID turnNumber
      (next_phase_number orgID threadID turnNumber (session_activity_phases db)) ActivityPhaseStatusRunning None
      startedAt None runtimeID (tg_Kind trigger) (tg_BatchID trigger) (fst <$> range) (snd <$> range) now now) db.

Definition StartPhase (now clock : time) (fresh orgID sessionID threadID : uuid) (turnNumber : Z)
    (runtimeID runtimeLeaseToken : option uuid) (trigger : ActivityPhaseTrigger) (startedAt : time) (db : DB)
    : result (DB * SessionActivityPhase) :=
  let startedAt := postgresTimestamp startedAt in
  if (turnNumber <? 0) || IsZero startedAt then Err "start activity phase: invalid turn or start time"
  else if (tg_Kind trigger ==? ActivityPhaseTriggerInboxBatch) ==? is_null (tg_BatchID trigger)
  then Err "start activity phase: inbox trigger requires exactly one batch id"
  else if (tg_Kind trigger <>? ActivityPhaseTriggerInboxBatch)
          && (is_null runtimeID <>? is_null runtimeLeaseToken)
  then Err "start activity phase: runtime id and lease token must be supplied together"
  else startActivityPhaseTx now clock fresh orgID sessionID threadID turnNumber runtimeID runtimeLeaseToken
         trigger startedAt db.

(** ** Completing a phase *)

Definition validateTerminalActivityPhase (status : ActivityPhaseStatus) (reason : ActivityPhaseBoundaryReason)
    (completedAt : time) : bool :=
  negb (IsZero completedAt) && (status <>? ActivityPhaseStatusRunning) && status_reason status (Some reason).

Definition complete_phase (now : time) (status : ActivityPhaseStatus) (reason : ActivityPhaseBoundaryReason)
    (completedAt : time) (p : SessionActivityPhase) : SessionActivityPhase :=
  p <| ph_status := status |> <| ph_boundary_reason := Some reason |> <| ph_completed_at := Some completedAt |>
    <| ph_updated_at := now |>.
Definition completable (orgID phaseID : uuid) (completedAt : time) (p : SessionActivityPhase) : bool :=
  (ph_org_id p ==? orgID) && (ph_id p ==? phaseID) && (ph_status p ==? ActivityPhaseStatusRunning)
  && (ph_started_at p <=? completedAt).

Definition completeActivityPhaseInTransaction (now : time) (orgID phaseID : uuid) (status : ActivityPhaseStatus)
    (reason : ActivityPhaseBoundaryReason) (completedAt : time) (db : DB) : result (DB * SessionActivityPhase) :=
  let completedAt := postgresTimestamp completedAt in
  if negb (validateTerminalActivityPhase status reason completedAt) then Err "invalid terminal activity phase"
  else match select (completable orgID phaseID completedAt) (session_activity_phases db) with
       | p :: _ =>
           Ok (db <| session_activity_phases := update (completable orgID phaseID completedAt)
                       (complete_phase now status reason completedAt) (session_activity_phases db) |>,
               complete_phase now status reason completedAt p)
       | [] => Err ErrActivityPhaseConflict
       end.

(** The transition is repeated without effect by the same outcome. *)
Definition CompletePhaseWithTransition (now : time) (orgID phaseID : uuid) (status : ActivityPhaseStatus)
    (reason : ActivityPhaseBoundaryReason) (completedAt : time) (db : DB)
    : result (DB * (SessionActivityPhase * bool)) :=
  let at_ := postgresTimestamp completedAt in
  if negb (validateTerminalActivityPhase status reason at_) then Err "invalid terminal activity phase"
  else match select (completable orgID phaseID at_) (session_activity_phases db) with
       | p :: _ =>
           Ok (db <| session_activity_phases := update (completable orgID phaseID at_)
                       (complete_phase now status reason at_) (session_activity_phases db) |>,
               (complete_phase now status reason at_ p, true))
       | [] =>
           match select (fun p => (ph_org_id p ==? orgID) && (ph_id p ==? phaseID)) (session_activity_phases db) with
           | p :: _ =>
               if (ph_status p ==? status) && col_is (ph_boundary_reason p) reason && col_is (ph_completed_at p) at_
               then Ok (db, (p, false)) else Err ErrActivityPhaseConflict
           | [] => Err "collect terminal activity phase: no rows in result set"
           end
       end.

(** persistBoundaryAndComplete: what [persist] writes in the same transaction,
    then the strict transition. *)
Definition persistBoundaryAndComplete (now : time) (orgID phaseID : uuid) (reason : ActivityPhaseBoundaryReason)
    (completedAt : time) (persist : DB -> result DB) (db : DB) : result (DB * SessionActivityPhase) :=
  if negb (validateTerminalActivityPhase ActivityPhaseStatusCompleted reason (postgresTimestamp completedAt))
  then Err "invalid terminal activity phase"
  else let? db := persist db in
       completeActivityPhaseInTransaction now orgID phaseID ActivityPhaseStatusCompleted reason completedAt db.

(** ** Stranded phases *)

(** A running phase that nobody can finish: its runtime is gone, terminal or
    past the grace of its lease, or it has no runtime and the thread is at
    rest. *)
Definition stranded (leaseExpiredBefore : time) (db : DB) (p : SessionActivityPhase) : bool :=
  match ph_runtime_id p with
  | None =>
      (ph_started_at p <? leaseExpiredBefore)
      && exists_row (fun t => (th_org_id t ==? ph_org_id p) && (th_id t ==? ph_thread_id p)
           && (th_status t <>? "pending") && (th_status t <>? "running")) (session_threads db)
  | Some rt =>
      match select (fun r => (tr_org_id r ==? ph_org_id p) && (tr_id r ==? rt)) (thread_runtimes db) with
      | [] => true
      | r :: _ => terminal_runtime_status (tr_status r)
                  || match tr_lease_expires_at r with Some x => x <? leaseExpiredBefore | None => true end
      end
  end.

(** [ORDER BY p.started_at, p.id]. *)
Definition phase_le (a b : SessionActivityPhase) : bool :=
  (ph_started_at a <? ph_started_at b)
  || ((ph_started_at a =? ph_started_at b) && String.leb (ph_id a) (ph_id b)).

(** The rows of the listing join the thread by its session as well. *)
Definition joined_thread (db : DB) (p : SessionActivityPhase) : bool :=
  exists_row (fun t => (th_org_id t ==? ph_org_id p) && (th_session_id t ==? ph_session_id p)
    && (th_id t ==? ph_thread_id p)) (session_threads db).
Definition listed_stranded (leaseExpiredBefore : time) (db : DB) (p : SessionActivityPhase) : bool :=
  (ph_status p ==? ActivityPhaseStatusRunning) && joined_thread db p && stranded leaseExpiredBefore db p.

Definition ListStrandedRunning (orgID : uuid) (leaseExpiredBefore : time) (n : Z) (db : DB)
    : result (list SessionActivityPhase) :=
  if (n <=? 0) || (500 <? n) then Err "list stranded activity phases: limit must be between 1 and 500"
  else Ok (limit (Z.to_nat n) (order_by phase_le (select (fun p =>
         (ph_org_id p ==? orgID) && listed_stranded leaseExpiredBefore db p) (session_activity_phases db)))).

Definition ListStrandedRunningAcrossOrgs (leaseExpiredBefore : time) (n : Z) (db : DB)
    : result (list SessionActivityPhase) :=
  if (n <=? 0) || (500 <? n) then Err "list stranded activity phases across orgs: limit must be between 1 and 500"
  else Ok (limit (Z.to_nat n) (order_by phase_le
         (select (listed_stranded leaseExpiredBefore db) (session_activity_phases db)))).

(** The state is read again under the locks of the runtime, or of the thread,
    and of the phase. *)
Definition ReconcileStrandedPhase (now : time) (orgID phaseID : uuid) (leaseExpiredBefore completedAt : time)
    (db : DB) : result (DB * bool) :=
  let completedAt := postgresTimestamp completedAt in
  let running p := (ph_org_id p ==? orgID) && (ph_id p ==? phaseID) && (ph_status p ==? ActivityPhaseStatusRunning) in
  match select running (session_activity_phases db) with
  | [] => Ok (db, false)
  | p :: _ =>
      if is_null (ph_runtime_id p)
         && negb (exists_row (fun t => (th_org_id t ==? orgID) && (th_id t ==? ph_thread_id p)) (session_threads db))
      then Err "lock runtime-less activity phase thread: no rows in result set"
      else if completedAt <? ph_started_at p then Ok (db, false)
      else if negb (stranded leaseExpiredBefore db p) then Ok (db, false)
      else Ok (db <| session_activity_phases := update running
                       (complete_phase now ActivityPhaseStatusInterrupted ActivityPhaseBoundaryRuntimeLost completedAt)
                       (session_activity_phases db) |>, true)
  end.

(** ** Batches *)

Definition abandon_batch (now abandonedAt : time) (b : ThreadInboxDeliveryBatch) : ThreadInboxDeliveryBatch :=
  b <| b_status := InboxDeliveryBatchAbandoned |> <| b_abandoned_at := Some abandonedAt |> <| b_updated_at := now |>.

(** strandedInboxEntriesUpdate: the entries of the abandoned batches. *)
Definition strand_entries (now : time) (abandoned : list ThreadInboxDeliveryBatch) (t : list ThreadInboxEntry)
    : list ThreadInboxEntry :=
  update (fun e => existsb (fun b => batch_entry b e) abandoned
            && (e_delivery_state e ==? ThreadInboxDeliveryStateAcked) && is_null (e_applied_at e))
    (fun e => e <| e_delivery_state := ThreadInboxDeliveryStateUnknownDelivery |>
                <| e_last_error := coalesce (e_last_error e)
                     "delivery batch abandoned after acknowledgment before execution started" |>
                <| e_updated_at := now |>) t.

Definition batch_le (a b : ThreadInboxDeliveryBatch) : bool :=
  (b_acknowledged_at a <? b_acknowledged_at b)
  || ((b_acknowledged_at a =? b_acknowledged_at b) && String.leb (b_id a) (b_id b)).

Definition ReconcileAbandonedInboxBatchesAcrossOrgs (now leaseExpiredBefore abandonedAt : time) (n : Z)
    (locked : uuid -> bool) (db : DB) : result (DB * list ThreadInboxDeliveryBatch) :=
  if (n <=? 0) || (500 <? n) then Err "reconcile abandoned inbox delivery batches: limit must be between 1 and 500"
  else
    let abandonedAt := postgresTimestamp abandonedAt in
    let lost b := exists_row (fun r => (tr_org_id r ==? b_org_id b) && (tr_id r ==? b_runtime_id b)
      && (terminal_runtime_status (tr_status r)
          || match tr_lease_expires_at r with Some x => x <? leaseExpiredBefore | None => true end))
      (thread_runtimes db) in
    let candidates := limit (Z.to_nat n) (order_by batch_le (select (fun b =>
      (b_status b ==? InboxDeliveryBatchAcknowledged) && (b_acknowledged_at b <? leaseExpiredBefore) && lost b
      && negb (locked (b_id b))) (thread_inbox_delivery_batches db))) in
    let p b := existsb (fun c => b_id c ==? b_id b) candidates && (b_status b ==? InboxDeliveryBatchAcknowledged) in
    let gone := map (abandon_batch now abandonedAt) (select p (thread_inbox_delivery_batches db)) in
    Ok (db <| thread_inbox_delivery_batches := update p (abandon_batch now abandonedAt)
                (thread_inbox_delivery_batches db) |>
           <| thread_inbox_entries := strand_entries now gone (thread_inbox_entries db) |>, gone).

Definition AbandonInboxBatch (now : time) (orgID batchID : uuid) (abandonedAt : time) (db : DB)
    : result (DB * ThreadInboxDeliveryBatch) :=
  let abandonedAt := postgresTimestamp abandonedAt in
  let p b := (b_org_id b ==? orgID) && (b_id b ==? batchID) && (b_status b ==? InboxDeliveryBatchAcknowledged) in
  match map (abandon_batch now abandonedAt) (select p (thread_inbox_delivery_batches db)) with
  | [] => Err ErrInboxBatchConflict
  | b :: gone =>
      Ok (db <| thread_inbox_delivery_batches := update p (abandon_batch now abandonedAt)
                  (thread_inbox_delivery_batches db) |>
             <| thread_inbox_entries := strand_entries now (b :: gone) (thread_inbox_entries db) |>, b)
  end.

(** uq_thread_inbox_delivery_batches_range. *)
Definition same_batch_range (orgID threadID : uuid) (first last : Z) (b : ThreadInboxDeliveryBatch) : bool :=
  (b_org_id b ==? orgID) && (b_thread_id b ==? threadID) && (b_sequence_start b =? first) && (b_sequence_end b =? last).

Definition new_batch (now : time) (fresh orgID sessionID threadID runtimeID : uuid) (first last : Z)
    (acknowledgedAt : time) : ThreadInboxDeliveryBatch :=
  MkThreadInboxDeliveryBatch fresh orgID sessionID threadID runtimeID first last InboxDeliveryBatchAcknowledged
    acknowledgedAt None None now now.

(** acknowledgeInboxBatchInTx: the delivered input after the cursor becomes one
    batch and the phase it steers ends.  The flag is concurrentReplay. *)
Definition acknowledgeInboxBatchInTx (now : time) (fresh orgID sessionID threadID runtimeID leaseToken : uuid)
    (activePhaseID : option uuid) (sequenceEnd : Z) (acknowledgedAt : time) (db : DB)
    : result (DB * (ThreadInboxDeliveryBatch * option SessionActivityPhase * bool)) :=
  let acknowledgedAt := postgresTimestamp acknowledgedAt in
  if (sequenceEnd <=? 0) || IsZero acknowledgedAt
  then Err "acknowledge inbox delivery batch: invalid sequence or acknowledgment time"
  else
    let owner r := scoped_runtime orgID sessionID threadID runtimeID leaseToken r in
    match select (fun r => owner r && runtime_active r && col_gt (tr_lease_expires_at r) acknowledgedAt)
            (thread_runtimes db) with
    | [] => Err "lock thread runtime for inbox acknowledgment: no rows in result set"
    | r :: _ =>
        let previous := tr_last_acked_sequence r in
        let first := previous + 1 in
        if sequenceEnd <? previous then Err ErrInboxBatchConflict
        else if sequenceEnd =? previous then
          match select (fun b => (b_org_id b ==? orgID) && (b_session_id b ==? sessionID) && (b_thread_id b ==? threadID)
                  && (b_runtime_id b ==? runtimeID) && (b_sequence_end b =? sequenceEnd))
                  (thread_inbox_delivery_batches db) with
          | b :: _ => Ok (db, (b, None, true))
          | [] => Err ErrInboxBatchConflict
          end
        else
          let q e := in_range orgID sessionID threadID runtimeID first sequenceEnd e
                     && (e_delivery_state e ==? ThreadInboxDeliveryStateDelivered) in
          if negb (count_rows q (thread_inbox_entries db) =? sequenceEnd - first + 1) then Err ErrInboxBatchConflict
          else
            let steered ph := completable orgID (default "" activePhaseID) acknowledgedAt ph
              && (ph_session_id ph ==? sessionID) && (ph_thread_id ph ==? threadID) && col_is (ph_runtime_id ph) runtimeID in
            let close := complete_phase now ActivityPhaseStatusCompleted ActivityPhaseBoundarySteered acknowledgedAt in
            let? (phases, completed) :=
              match activePhaseID with
              | None => Ok (session_activity_phases db, None)
              | Some _ =>
                  match select steered (session_activity_phases db) with
                  | ph :: _ => Ok (update steered close (session_activity_phases db), Some (close ph))
                  | [] => Err ErrActivityPhaseConflict
                  end
              end in
            if (first <=? 0) || exists_row (fun b => (b_id b ==? fresh) || same_batch_range orgID threadID first sequenceEnd b)
                 (thread_inbox_delivery_batches db)
            then Err "insert inbox delivery batch: constraint violation"
            else
              let b := new_batch now fresh orgID sessionID threadID runtimeID first sequenceEnd acknowledgedAt in
              let p r := owner r && (tr_last_acked_sequence r =? previous) in
              if negb (count_rows p (thread_runtimes db) =? 1) then Err ErrInboxBatchConflict
              else Ok (db <| session_activity_phases := phases |>
                          <| thread_inbox_delivery_batches := (thread_inbox_delivery_batches db ++ [b])%list |>
                          <| thread_inbox_entries := update q (fun e =>
                               e <| e_delivery_state := ThreadInboxDeliveryStateAcked |>
                                 <| e_acked_at := coalesce (e_acked_at e) acknowledgedAt |> <| e_updated_at := now |>)
                               (thread_inbox_entries db) |>
                          <| thread_runtimes := update p (fun r =>
                               r <| tr_last_acked_sequence := sequenceEnd |> <| tr_heartbeat_at := Some acknowledgedAt |>
                                 <| tr_updated_at := now |>) (thread_runtimes db) |>,
                       (b, completed, false))
    end.

(** Every number of the range exactly once. *)
Definition exactInboxSequenceRange (sequences : list Z) (first last : Z) : bool :=
  (first <=? last) && (Z.of_nat (length sequences) =? last - first + 1)
  && forallb (fun s => (first <=? s) && (s <=? last)) sequences && bool_decide (NoDup sequences).

(** AcknowledgeInboxBatchAndStartPhase: the steering boundary and the phase
    that replaces it.  The fresh ids are the batch's and the phase's. *)
Definition AcknowledgeInboxBatchAndStartPhase (now clock : time) (freshBatch freshPhase : uuid)
    (orgID sessionID threadID runtimeID leaseToken : uuid) (activePhaseID : option uuid) (turn sequenceEnd : Z)
    (confirmedSequences : list Z) (at_ : time) (db : DB)
    : result (DB * (SessionActivityPhase * ThreadInboxDeliveryBatch * option SessionActivityPhase)) :=
  let at_ := postgresTimestamp at_ in
  if (sequenceEnd <=? 0) || IsZero at_ || (turn <? 0) then Err "invalid steered phase boundary"
  else if negb (exists_row (fun t => (th_org_id t ==? orgID) && (th_session_id t ==? sessionID) && (th_id t ==? threadID))
                  (session_threads db))
  then Err "lock atomic steering thread: no rows in result set"
  else
    match select (fun r => scoped_runtime orgID sessionID threadID runtimeID leaseToken r && runtime_attachable r
            && col_gt (tr_lease_expires_at r) clock) (thread_runtimes db) with
    | [] => Err "lock atomic steering runtime: no rows in result set"
    | r :: _ =>
        let previous := tr_last_acked_sequence r in
        let start (db : DB) (b : ThreadInboxDeliveryBatch) (completed : option SessionActivityPhase) :=
          let? (db, phase) := startActivityPhaseTx now clock freshPhase orgID sessionID threadID turn
            (Some runtimeID) (Some leaseToken) (MkActivityPhaseTrigger ActivityPhaseTriggerInboxBatch (Some (b_id b)))
            at_ db in
          Ok (db, (phase, b <| b_status := InboxDeliveryBatchStarted |> <| b_started_at := Some at_ |>
                            <| b_abandoned_at := None |>, completed)) in
        match select (fun b => (b_org_id b ==? orgID) && (b_session_id b ==? sessionID) && (b_thread_id b ==? threadID)
                && (b_runtime_id b ==? runtimeID) && (b_sequence_end b =? sequenceEnd))
                (thread_inbox_delivery_batches db) with
        | [] =>
            if negb (exactInboxSequenceRange confirmedSequences (previous + 1) sequenceEnd)
            then Err ErrInboxBatchNoPhaseTransition
            else let? (db, (b, completed, _)) := acknowledgeInboxBatchInTx now freshBatch orgID sessionID threadID
                        runtimeID leaseToken activePhaseID sequenceEnd at_ db in
                 start db b completed
        | b :: _ =>
            if negb (exactInboxSequenceRange confirmedSequences (b_sequence_start b) (b_sequence_end b))
            then Err ErrInboxBatchConflict
            else match b_status b with
            | InboxDeliveryBatchStarted =>
                match select (fun ph => (ph_org_id ph ==? orgID) && (ph_session_id ph ==? sessionID)
                        && (ph_thread_id ph ==? threadID) && col_is (ph_runtime_id ph) runtimeID
                        && col_is (ph_trigger_batch_id ph) (b_id b) && (ph_status ph ==? ActivityPhaseStatusRunning))
                        (session_activity_phases db) with
                | ph :: _ => Ok (db, (ph, b, None))
                | [] => Err ErrActivityPhaseConflict
                end
            | InboxDeliveryBatchAcknowledged => start db b None
            | InboxDeliveryBatchAbandoned =>
                let q e := (e_org_id e ==? orgID) && (e_session_id e ==? sessionID) && (e_thread_id e ==? threadID)
                  && col_is (e_runtime_id e) runtimeID && existsb (Z.eqb (e_sequence_no e)) confirmedSequences
                  && ((e_delivery_state e ==? ThreadInboxDeliveryStateAcked)
                      || (e_delivery_state e ==? ThreadInboxDeliveryStateUnknownDelivery))
                  && is_null (e_applied_at e) in
                if negb (count_rows q (thread_inbox_entries db) =? b_sequence_end b - b_sequence_start b + 1)
                then Err ErrInboxBatchConflict
                else start (db <| thread_inbox_delivery_batches := update (fun x => (b_org_id x ==? orgID)
                                    && (b_session_id x ==? sessionID) && (b_thread_id x ==? threadID)
                                    && (b_runtime_id x ==? runtimeID) && (b_id x ==? b_id b)
                                    && (b_status x ==? InboxDeliveryBatchAbandoned))
                                  (fun x => x <| b_status := InboxDeliveryBatchAcknowledged |>
                                              <| b_abandoned_at := None |> <| b_updated_at := now |>)
                                  (thread_inbox_delivery_batches db) |>
                               <| thread_inbox_entries := update q (fun e =>
                                    e <| e_delivery_state := ThreadInboxDeliveryStateAcked |> <| e_updated_at := now |>)
                                    (thread_inbox_entries db) |>) b None
            end
        end
    end.

Definition GetInboxDeliveryBatch (orgID batchID : uuid) (db : DB) : result ThreadInboxDeliveryBatch :=
  match select (fun b => (b_org_id b ==? orgID) && (b_id b ==? batchID)) (thread_inbox_delivery_batches db) with
  | b :: _ => Ok b
  | [] => Err "collect inbox delivery batch: no rows in result set"
  end.

(** acknowledgeInboxBatch: the standalone acknowledgment, which answers a
    replay from the stored batch. *)
Definition AcknowledgeInboxBatchWithTransition (now : time) (fresh orgID sessionID threadID runtimeID leaseToken : uuid)
    (activePhaseID : option uuid) (sequenceEnd : Z) (acknowledgedAt : time) (db : DB)
    : result (DB * (ThreadInboxDeliveryBatch * option SessionActivityPhase)) :=
  if (sequenceEnd <=? 0) || IsZero (postgresTimestamp acknowledgedAt)
  then Err "acknowledge inbox delivery batch: invalid sequence or acknowledgment time"
  else match select (fun b => (b_org_id b ==? orgID) && (b_session_id b ==? sessionID) && (b_thread_id b ==? threadID)
               && (b_runtime_id b ==? runtimeID) && (b_sequence_end b =? sequenceEnd))
               (thread_inbox_delivery_batches db) with
       | b :: _ => Ok (db, (b, None))
       | [] => let? (db, (b, completed, _)) := acknowledgeInboxBatchInTx now fresh orgID sessionID threadID runtimeID
                      leaseToken activePhaseID sequenceEnd acknowledgedAt db in
               Ok (db, (b, completed))
       end.

(** ** Seeds *)

Definition validateSeedPhaseStart (turnNumber : Z) (messageIDs : list Z) (startedAt : time) : bool :=
  negb ((turnNumber <? 0) || IsZero startedAt || (length messageIDs =? 0)%nat).

(** The user messages of the seed that no inbox entry carries yet, oldest id
    first. *)
Definition missing_seeds (orgID sessionID threadID : uuid) (messageIDs : list Z) (db : DB) : list SessionMessage :=
  order_by (fun a b => m_id a <=? m_id b) (select (fun m =>
    (m_org_id m ==? orgID) && (m_session_id m ==? sessionID) && (m_role m ==? "user")
    && existsb (Z.eqb (m_id m)) messageIDs && message_in_thread db m orgID sessionID threadID
    && negb (exists_row (fun e => (e_org_id e ==? orgID) && col_is (e_message_id e) (m_id m)) (thread_inbox_entries db)))
    (session_messages db)).

Definition seed_entry (now : time) (fresh : nat -> uuid) (orgID sessionID threadID : uuid) (watermark : Z)
    (i : nat) (m : SessionMessage) : ThreadInboxEntry :=
  MkThreadInboxEntry (fresh i) orgID sessionID threadID (watermark + Z.of_nat i + 1) (Some (m_id m))
    (Some ("message:" +:+ pretty (m_id m))) ThreadInboxEntryTypeUserMessage {[ "content" := jstr (m_content m) ]}
    ThreadInboxDeliveryStatePending 0 None None None now None None None now now.

Definition backfill_seeds (now : time) (fresh : nat -> uuid) (orgID sessionID threadID : uuid) (messageIDs : list Z)
    (db : DB) : result DB :=
  let watermark := default 0 (max_sequence (select (fun e => entry_in_thread orgID threadID e
    && (e_session_id e ==? sessionID)) (thread_inbox_entries db))) in
  let rows := imap (seed_entry now fresh orgID sessionID threadID watermark)
                (missing_seeds orgID sessionID threadID messageIDs db) in
  if (length rows =? 0)%nat then Ok db
  else if existsb (fun e => e_sequence_no e <=? 0) rows then Err "backfill legacy seed inbox: check violation"
  else if entry_keys_distinct (thread_inbox_entries db ++ rows)
  then Ok (db <| thread_inbox_entries := (thread_inbox_entries db ++ rows)%list |>)
  else Err "backfill legacy seed inbox: unique violation".

(** A batch that was acknowledged but never started, all of it in this seed,
    by an owner that never attached a provider. *)
Definition unstarted_seed (orgID sessionID threadID : uuid) (messageIDs : list Z) (db : DB) (e : ThreadInboxEntry) : bool :=
  exists_row (fun b => (b_org_id b ==? orgID) && (b_session_id b ==? sessionID) && (b_thread_id b ==? threadID)
    && col_is (e_runtime_id e) (b_runtime_id b)
    && (b_sequence_start b <=? e_sequence_no e) && (e_sequence_no e <=? b_sequence_end b)
    && (b_status b ==? InboxDeliveryBatchAcknowledged) && is_null (b_started_at b)
    && exists_row (fun old => (tr_org_id old ==? orgID) && (tr_session_id old ==? sessionID)
         && (tr_thread_id old ==? threadID) && (tr_id old ==? b_runtime_id b)
         && terminal_runtime_status (tr_status old) && (tr_runtime_handle_id old ==? "")
         && (count_rows (fun prior => in_range orgID sessionID threadID (tr_id old) (b_sequence_start b) (b_sequence_end b) prior
               && message_in messageIDs prior && (e_delivery_state prior ==? ThreadInboxDeliveryStateAcked)
               && is_null (e_applied_at prior)) (thread_inbox_entries db)
             =? b_sequence_end b - b_sequence_start b + 1)
         && negb (exists_row (fun ph => (ph_org_id ph ==? orgID)
               && (col_is (ph_runtime_id ph) (tr_id old) || col_is (ph_trigger_batch_id ph) (b_id b)))
               (session_activity_phases db))) (thread_runtimes db)) (thread_inbox_delivery_batches db).

Definition seed_claimable (orgID sessionID threadID runtimeID : uuid) (messageIDs : list Z) (db : DB)
    (e : ThreadInboxEntry) : bool :=
  (e_org_id e ==? orgID) && (e_session_id e ==? sessionID) && (e_thread_id e ==? threadID)
  && message_in messageIDs e && is_null (e_applied_at e)
  && (((e_delivery_state e ==? ThreadInboxDeliveryStatePending) && is_null (e_runtime_id e))
      || ((e_delivery_state e ==? ThreadInboxDeliveryStateDelivering)
          && (col_is (e_runtime_id e) runtimeID || never_attached db orgID threadID sessionID (e_runtime_id e)))
      || ((e_delivery_state e ==? ThreadInboxDeliveryStateAcked)
          && unstarted_seed orgID sessionID threadID messageIDs db e)).

Definition claim_seeds (now : time) (orgID sessionID threadID runtimeID : uuid) (messageIDs : list Z) (db : DB) : DB :=
  match select (fun r => (tr_org_id r ==? orgID) && (tr_session_id r ==? sessionID) && (tr_thread_id r ==? threadID)
          && (tr_id r ==? runtimeID)) (thread_runtimes db) with
  | [] => db
  | r :: _ =>
      db <| thread_inbox_entries := update (seed_claimable orgID sessionID threadID runtimeID messageIDs db)
              (fun e => e <| e_delivery_state := ThreadInboxDeliveryStateDelivering |> <| e_runtime_id := Some runtimeID |>
                          <| e_owner_node_id := Some (tr_owner_node_id r) |> <| e_updated_at := now |>)
              (thread_inbox_entries db) |>
  end.

(** INSERT ... ON CONFLICT (org_id, thread_id, sequence_start, sequence_end)
    DO UPDATE, with its WHERE. *)
Definition allocate_seed_batch (now : time) (fresh orgID sessionID threadID runtimeID : uuid) (first last : Z)
    (startedAt : time) (db : DB) : result (DB * ThreadInboxDeliveryBatch) :=
  let batches := thread_inbox_delivery_batches db in
  match select (same_batch_range orgID threadID first last) batches with
  | [] =>
      if (first <=? 0) || (last <? first) || exists_row (fun b => b_id b ==? fresh) batches
      then Err "allocate resumed seed batch: constraint violation"
      else let b := new_batch now fresh orgID sessionID threadID runtimeID first last startedAt in
           Ok (db <| thread_inbox_delivery_batches := (batches ++ [b])%list |>, b)
  | b :: _ =>
      if (b_session_id b ==? sessionID) && (b_status b ==? InboxDeliveryBatchAcknowledged) && is_null (b_started_at b)
         && never_attached db orgID threadID sessionID (Some (b_runtime_id b))
         && negb (exists_row (triggered_by orgID (Some (b_id b))) (session_activity_phases db))
      then let take b := b <| b_runtime_id := runtimeID |> <| b_acknowledged_at := startedAt |> <| b_updated_at := now |> in
           Ok (db <| thread_inbox_delivery_batches := update (same_batch_range orgID threadID first last) take batches |>,
               take b)
      else Err ErrInboxBatchConflict
  end.

(** The seeds after the cursor become one batch, acknowledged and started. *)
Definition admit_seeds (now clock : time) (freshBatch freshPhase orgID sessionID threadID : uuid) (turnNumber : Z)
    (runtimeID leaseToken : uuid) (first last total : Z) (startedAt : time) (db : DB)
    : result (DB * (SessionActivityPhase * option ThreadInboxDeliveryBatch)) :=
  let? (db, b) := allocate_seed_batch now freshBatch orgID sessionID threadID runtimeID first last startedAt db in
  let q e := in_range orgID sessionID threadID runtimeID first last e
    && (e_delivery_state e ==? ThreadInboxDeliveryStateDelivering) && is_null (e_applied_at e) in
  if negb (count_rows q (thread_inbox_entries db) =? total) then Err ErrInboxBatchConflict
  else
    let db := db <| thread_inbox_entries := update q (fun e =>
      e <| e_delivery_state := ThreadInboxDeliveryStateAcked |>
        <| e_delivered_at := coalesce (e_delivered_at e) startedAt |>
        <| e_acked_at := coalesce (e_acked_at e) startedAt |> <| e_updated_at := now |>)
      (thread_inbox_entries db) |> in
    let? (db, phase) := startActivityPhaseTx now clock freshPhase orgID sessionID threadID turnNumber
      (Some runtimeID) (Some leaseToken)
      (MkActivityPhaseTrigger ActivityPhaseTriggerInboxBatch (Some (b_id b))) startedAt db in
    Ok (db <| thread_runtimes := update (fun r => (tr_org_id r ==? orgID) && (tr_session_id r ==? sessionID)
                  && (tr_thread_id r ==? threadID) && (tr_id r ==? runtimeID))
                (fun r => r <| tr_last_acked_sequence := last |>
                  <| tr_last_delivered_sequence := Z.max (tr_last_delivered_sequence r) last |>
                  <| tr_updated_at := now |>) (thread_runtimes db) |>,
        (phase, Some (b <| b_status := InboxDeliveryBatchStarted |> <| b_started_at := Some startedAt |>))).

(** StartSeedPhaseInTx.  [freshEntry] names the backfilled entries. *)
Definition StartSeedPhase (now clock : time) (freshEntry : nat -> uuid) (freshBatch freshPhase : uuid)
    (orgID sessionID threadID : uuid) (turnNumber : Z) (runtimeID leaseToken : uuid) (messageIDs : list Z)
    (startedAt : time) (db : DB)
    : result (DB * (SessionActivityPhase * option ThreadInboxDeliveryBatch)) :=
  let startedAt := postgresTimestamp startedAt in
  if negb (validateSeedPhaseStart turnNumber messageIDs startedAt)
  then Err "start seed phase: invalid turn, time, or seed"
  else if negb (exists_row (fun t => (th_org_id t ==? orgID) && (th_session_id t ==? sessionID) && (th_id t ==? threadID))
                  (session_threads db))
  then Err "lock seed activity thread: no rows in result set"
  else match select (fun r => scoped_runtime orgID sessionID threadID runtimeID leaseToken r && runtime_attachable r
               && col_gt (tr_lease_expires_at r) (Z.max startedAt clock)) (thread_runtimes db) with
  | [] => Err "lock seed runtime lease: no rows in result set"
  | r :: _ =>
      let previous := tr_last_acked_sequence r in
      let? db := backfill_seeds now freshEntry orgID sessionID threadID messageIDs db in
      let db := claim_seeds now orgID sessionID threadID runtimeID messageIDs db in
      let seeds := select (fun e => (e_org_id e ==? orgID) && (e_session_id e ==? sessionID) && (e_thread_id e ==? threadID)
        && message_in messageIDs e) (thread_inbox_entries db) in
      let total := Z.of_nat (length seeds) in
      let owned := count_rows (fun e => col_is (e_runtime_id e) runtimeID
        && (e_delivery_state e ==? ThreadInboxDeliveryStateDelivering) && is_null (e_applied_at e)) seeds in
      let first := default 0 (min_sequence seeds) in
      let last := default 0 (max_sequence seeds) in
      if negb (total =? Z.of_nat (length (remove_dups messageIDs))) then Err ErrInboxBatchConflict
      else if negb (0 <? total) then
        let? (db, phase) := startActivityPhaseTx now clock freshPhase orgID sessionID threadID turnNumber
          (Some runtimeID) (Some leaseToken) (MkActivityPhaseTrigger ActivityPhaseTriggerRecovery None) startedAt db in
        Ok (db, (phase, None))
      else if negb (owned =? total) || negb (first =? previous + 1) || negb (last - first + 1 =? total)
      then Err ErrInboxBatchConflict
      else
        admit_seeds now clock freshBatch freshPhase orgID sessionID threadID turnNumber runtimeID leaseToken
          first last total startedAt db
  end.
