(* ===== verification/SessionStore.v ===== *)
(** * Sessions

    internal/db/session_store.go and session_result_persistence.go: the
    statements that start and end the turns of a session, and the ones that
    hold and give up its container.  Columns that only describe a result
    (errors, diffs, token usage, progress) are left out of the row, and with
    them what a result stores in other tables (diff snapshots, the head of the
    primary changeset, the publish state).  The rows of preview_instances are
    not modelled: whether a preview holds the container is an argument. *)

From S2P Require Import Prelude GoRuntime Sql Tables HolderStore ActivityPhaseStore.
From stdpp Require Import base option list strings gmap.

Open Scope string_scope.
Open Scope Z_scope.

Definition is_this (orgID sessionID : uuid) (s : Session) : bool := (s_id s ==? sessionID) && (s_org_id s ==? orgID).
Definition is_live (orgID sessionID : uuid) (s : Session) : bool := is_this orgID sessionID s && is_null (s_deleted_at s).

(** UPDATE ... RETURNING of one row, and UPDATE with its count. *)
Definition returning (p : Session -> bool) (f : Session -> Session) (db : DB) : result (DB * Session) :=
  match select p (sessions db) with
  | s :: _ => Ok (db <| sessions := update p f (sessions db) |>, f s)
  | [] => Err "no rows in result set"
  end.
Definition updating (p : Session -> bool) (f : Session -> Session) (db : DB) : DB * Z :=
  (db <| sessions := update p f (sessions db) |>, count_rows p (sessions db)).

(** ** Turns *)

Definition clear_deadlines (s : Session) : Session :=
  s <| s_runtime_soft_deadline_at := None |> <| s_runtime_hard_deadline_at := None |>.

Definition BeginRuntime (now : time) (orgID sessionID : uuid) (softDeadline hardDeadline observedAt : time) (db : DB)
    : result (DB * Session) :=
  returning (is_live orgID sessionID) (fun s =>
    let recovering := s_recovery_state s ==? "recovering" in
    s <| s_status := SessionStatusRunning |> <| s_started_at := Some observedAt |> <| s_completed_at := None |>
      <| s_runtime_soft_deadline_at := Some softDeadline |> <| s_runtime_hard_deadline_at := Some hardDeadline |>
      <| s_runtime_extension_count := 0 |> <| s_runtime_extension_seconds := 0 |>
      <| s_runtime_stop_reason := "" |> <| s_runtime_graceful_stop_at := None |>
      <| s_recovery_state := if recovering then s_recovery_state s else "" |>
      <| s_recovery_queued_at := None |>
      <| s_recovery_started_at := if recovering then s_recovery_started_at s else None |>
      <| s_last_activity_at := now |>) db.

Definition MarkRuntimeStopRequested (orgID sessionID : uuid) (reason : string) (stopAfter : time) (db : DB) : DB * Z :=
  updating (fun s => is_live orgID sessionID s && (s_status s ==? SessionStatusRunning)) (fun s =>
    s <| s_runtime_stop_reason := if (s_runtime_stop_reason s ==? "") || (reason ==? "user_cancel") then reason
                                  else s_runtime_stop_reason s |>
      <| s_runtime_graceful_stop_at := if is_null (s_runtime_graceful_stop_at s) || (reason ==? "user_cancel") then Some stopAfter
                                       else s_runtime_graceful_stop_at s |>) db.

Definition GrantRuntimeExtension (orgID sessionID lockToken : uuid) (expectedSoftDeadline newSoftDeadline hardDeadline : time)
    (extensionSeconds : Z) (db : DB) : DB * bool :=
  let p s := is_live orgID sessionID s && (s_status s ==? SessionStatusRunning)
    && col_is (s_runtime_soft_deadline_at s) expectedSoftDeadline
    && ((lockToken ==? uuid_Nil)
        || exists_row (fun j => (j_status j ==? JobStatusRunning) && (j_org_id j ==? orgID) && col_is (j_lock_token j) lockToken
             && col_is (text_nonempty (j_payload j) "session_id") (s_id s)) (jobs db)) in
  let '(db, n) := updating p (fun s =>
    s <| s_runtime_soft_deadline_at := Some newSoftDeadline |> <| s_runtime_hard_deadline_at := Some hardDeadline |>
      <| s_runtime_extension_count := s_runtime_extension_count s + 1 |>
      <| s_runtime_extension_seconds := s_runtime_extension_seconds s + extensionSeconds |>) db in
  (db, n =? 1).

Definition UpdateRecoveryState (orgID sessionID : uuid) (state : string) (queuedAt startedAt : option time) (incrementAttempt : bool)
    (db : DB) : DB * Z :=
  updating (is_live orgID sessionID) (fun s =>
    s <| s_recovery_state := state |> <| s_recovery_queued_at := queuedAt |> <| s_recovery_started_at := startedAt |>
      <| s_recovery_attempt_count := if incrementAttempt then s_recovery_attempt_count s + 1 else s_recovery_attempt_count s |>) db.

(** Every status write drops the deadlines. *)
Definition status_written (now : time) (status : SessionStatus) (s : Session) : Session :=
  let s := clear_deadlines s <| s_status := status |> <| s_last_activity_at := now |> in
  match status with
  | SessionStatusRunning =>
      s <| s_started_at := Some now |> <| s_completed_at := None |> <| s_runtime_stop_reason := "" |> <| s_runtime_graceful_stop_at := None |>
  | SessionStatusCompleted | SessionStatusPRCreated | SessionStatusSkipped | SessionStatusFailed | SessionStatusCancelled =>
      s <| s_completed_at := Some now |>
  | _ => s
  end.
Definition updateStatusRow (now : time) (orgID runID : uuid) (status : SessionStatus) (db : DB) : result (DB * Session) :=
  returning (is_live orgID runID) (status_written now status) db.
Definition UpdateStatus (now : time) (orgID runID : uuid) (status : SessionStatus) (db : DB) : result (DB * unit) :=
  let? (db, _) := updateStatusRow now orgID runID status db in Ok (db, tt).

(** A result that leaves running ends the turn. *)
Definition result_written (now : time) (status : SessionStatus) (summary : option string) (s : Session) : Session :=
  let s := s <| s_status := status |> <| s_last_activity_at := now |> <| s_result_summary := summary |> in
  let s := match status with
           | SessionStatusCompleted | SessionStatusFailed | SessionStatusCancelled | SessionStatusNeedsHumanGuidance
           | SessionStatusPRCreated | SessionStatusSkipped => s <| s_completed_at := Some now |>
           | _ => s
           end in
  if status ==? SessionStatusRunning then s else clear_deadlines s.
Definition updateResultRow (now : time) (orgID runID : uuid) (status : SessionStatus) (summary : option string) (db : DB)
    : result (DB * Session) :=
  returning (is_live orgID runID) (result_written now status summary) db.

(** An automation's snapshot key is not this statement's to write. *)
Definition turn_written (now : time) (turn : Z) (summary : option string) (agentSessionID snapshotKey : string) (s : Session) : Session :=
  let owned := negb (is_null (s_automation_owner_generation_id s)) in
  clear_deadlines s
    <| s_status := SessionStatusIdle |> <| s_current_turn := Z.max (s_current_turn s + 1) turn |> <| s_last_activity_at := now |>
    <| s_agent_session_id := Some agentSessionID |>
    <| s_snapshot_key := if owned || (snapshotKey ==? "") then s_snapshot_key s else Some snapshotKey |>
    <| s_sandbox_state := if owned || (snapshotKey ==? "") then s_sandbox_state s else "snapshotted" |>
    <| s_workspace_generation := s_workspace_generation s + 1 |> <| s_result_summary := summary |>.
Definition updateTurnCompleteRow (now : time) (orgID sessionID : uuid) (turn : Z) (summary : option string)
    (agentSessionID snapshotKey : string) (db : DB) : DB * Z :=
  updating (is_this orgID sessionID) (turn_written now turn summary agentSessionID snapshotKey) db.

(** With the end of the phase in one transaction. *)
Definition UpdateResultAndCompleteActivityPhase (now : time) (orgID runID phaseID : uuid) (status : SessionStatus) (summary : option string)
    (phaseStatus : ActivityPhaseStatus) (reason : ActivityPhaseBoundaryReason) (completedAt : time) (db : DB)
    : result (DB * (SessionActivityPhase * Session)) :=
  let? (db, session) := updateResultRow now orgID runID status summary db in
  let? (db, phase) := completeActivityPhaseInTransaction now orgID phaseID phaseStatus reason completedAt db in
  Ok (db, (phase, session)).
Definition UpdateStatusAndCompleteActivityPhase (now : time) (orgID runID phaseID : uuid) (status : SessionStatus)
    (phaseStatus : ActivityPhaseStatus) (reason : ActivityPhaseBoundaryReason) (completedAt : time) (db : DB)
    : result (DB * (SessionActivityPhase * Session)) :=
  let? (db, session) := updateStatusRow now orgID runID status db in
  let? (db, phase) := completeActivityPhaseInTransaction now orgID phaseID phaseStatus reason completedAt db in
  Ok (db, (phase, session)).
Definition UpdateTurnCompleteAndCompleteActivityPhase (now : time) (orgID sessionID phaseID : uuid) (turn : Z) (summary : option string)
    (agentSessionID snapshotKey : string) (phaseStatus : ActivityPhaseStatus) (reason : ActivityPhaseBoundaryReason) (completedAt : time)
    (db : DB) : result (DB * SessionActivityPhase) :=
  let '(db, _) := updateTurnCompleteRow now orgID sessionID turn summary agentSessionID snapshotKey db in
  completeActivityPhaseInTransaction now orgID phaseID phaseStatus reason completedAt db.

(** A follow-up message takes the session for a continuation. *)
Definition ClaimIdle (now : time) (orgID sessionID : uuid) (db : DB) : result (DB * Session) :=
  returning (fun s => is_this orgID sessionID s && (s_status s ==? SessionStatusIdle) && (s_sandbox_state s <>? "destroyed")
               && is_null (s_code_review_owner_pr_id s))
    (fun s => clear_deadlines s <| s_status := SessionStatusRunning |> <| s_started_at := Some now |> <| s_completed_at := None |>
                <| s_last_activity_at := now |>) db.
(** sessionResumeRuntimeResetAssignments. *)
Definition reset_runtime (s : Session) : Session :=
  clear_deadlines s <| s_runtime_extension_count := 0 |> <| s_runtime_extension_seconds := 0 |> <| s_runtime_stop_reason := "" |>
    <| s_runtime_graceful_stop_at := None |>.
Definition ClaimForResume (now : time) (orgID sessionID : uuid) (db : DB) : result (DB * Session) :=
  returning (fun s => is_this orgID sessionID s && resumable_status (s_status s) && (s_sandbox_state s <>? "destroyed")
               && is_null (s_code_review_owner_pr_id s))
    (fun s => reset_runtime s <| s_status := SessionStatusRunning |> <| s_started_at := Some now |> <| s_completed_at := None |>
                <| s_last_activity_at := now |>) db.

Definition ErrSessionNotFound : string := "session not found".
Definition ErrSessionNotFailed : string := "session is not in failed status".
Definition ErrSessionAlreadyArchived : string := "session not found or already archived".
Definition ErrSessionNotArchived : string := "session not found or not archived".
(** [seen] is the table when the status was read. *)
Definition ResetForRetry (now : time) (orgID sessionID : uuid) (seen db : DB) : result DB :=
  match select (is_live orgID sessionID) (sessions seen) with
  | [] => Err ErrSessionNotFound
  | s :: _ =>
      if s_status s <>? SessionStatusFailed then Err ErrSessionNotFailed
      else Ok (updating (is_live orgID sessionID) (fun s =>
             s <| s_status := SessionStatusPending |> <| s_started_at := None |> <| s_completed_at := None |>
               <| s_result_summary := None |> <| s_last_activity_at := now |>) db).1
  end.
Definition UndoResetForRetry (now : time) (orgID sessionID : uuid) (db : DB) : DB :=
  (updating (is_live orgID sessionID) (fun s =>
     s <| s_status := SessionStatusFailed |> <| s_completed_at := Some now |> <| s_last_activity_at := now |>) db).1.

Definition MarkRunningWithSandboxState (now : time) (orgID sessionID : uuid) (state : string) (db : DB) : result (DB * unit) :=
  let? (db, _) := returning (is_live orgID sessionID) (fun s =>
    clear_deadlines s <| s_status := SessionStatusRunning |> <| s_sandbox_state := state |> <| s_started_at := Some now |>
      <| s_completed_at := None |> <| s_runtime_stop_reason := "" |> <| s_runtime_graceful_stop_at := None |>
      <| s_last_activity_at := now |>) db in
  Ok (db, tt).

Definition CountRunningByOrg (orgID : uuid) (db : DB) : Z :=
  count_rows (fun s => (s_org_id s ==? orgID) && (s_status s ==? SessionStatusRunning)) (sessions db).
(** The executing-turn marker. *)
Definition executing_turn (s : Session) : bool := (s_status s ==? SessionStatusRunning) && negb (is_null (s_runtime_hard_deadline_at s)).
Definition CountExecutingByOrg (orgID excludeSessionID : uuid) (db : DB) : Z :=
  count_rows (fun s => (s_org_id s ==? orgID) && (s_id s <>? excludeSessionID) && executing_turn s && is_null (s_deleted_at s)) (sessions db).

(** ** The container *)

(** A turn publishes the container it created, or finds another one. *)
Definition AcquireTurnHold (orgID sessionID : uuid) (proposed : string) (db : DB) : result (DB * string) :=
  let? (db, s) := returning (is_this orgID sessionID) (fun s =>
    s <| s_container_id := Some (default proposed (s_container_id s)) |>
      <| s_turn_holding_container := if is_null (s_container_id s) || col_is (s_container_id s) proposed then true
                                     else s_turn_holding_container s |>) db in
  Ok (db, default "" (s_container_id s)).
Definition AcquireExistingTurnHold (orgID sessionID : uuid) (expected : string) (db : DB) : DB * bool :=
  let '(db, n) := updating (fun s => is_this orgID sessionID s && col_is (s_container_id s) expected)
    (fun s => s <| s_turn_holding_container := true |>) db in
  (db, n =? 1).
Definition ResetAfterLostReuse (orgID sessionID : uuid) (db : DB) : DB * bool :=
  let '(db, n) := updating (fun s => is_this orgID sessionID s && (s_status s ==? SessionStatusRunning) && is_null (s_container_id s)
                           && negb (s_turn_holding_container s))
    (fun s => s <| s_status := SessionStatusIdle |>) db in
  (db, n =? 1).

(** A holder of the session's sandbox with a lease that has not expired. *)
Definition sandbox_holds (now : time) (orgID sessionID : uuid) (db : DB) : bool :=
  exists_row (fun h => (h_session_id h ==? sessionID) && (h_org_id h ==? orgID)
    && ((h_status h ==? "active") || (h_status h ==? "draining")) && (now <? h_expires_at h)) (session_sandbox_holders db).

Definition ReleaseTurnHold (now : time) (orgID sessionID : uuid) (preview : bool) (db : DB) : result (DB * (bool * string)) :=
  let? (db, s) := returning (is_this orgID sessionID) (fun s => s <| s_turn_holding_container := false |>) db in
  let container := default "" (s_container_id s) in
  Ok (db, ((container <>? "") && negb preview && negb (sandbox_holds now orgID sessionID db), container)).

Definition PublishHydratedContainerID (orgID sessionID : uuid) (proposed : string) (db : DB) : result (DB * string) :=
  let? (db, s) := returning (fun s => is_this orgID sessionID s && is_null (s_code_review_owner_pr_id s)) (fun s =>
    s <| s_container_id := Some (default proposed (s_container_id s)) |>
      <| s_sandbox_state := if is_null (s_container_id s) then "running" else s_sandbox_state s |>) db in
  Ok (db, default "" (s_container_id s)).
Definition PeekContainerID (orgID sessionID : uuid) (db : DB) : string :=
  match select (is_live orgID sessionID) (sessions db) with
  | s :: _ => default "" (s_container_id s)
  | [] => ""
  end.
Definition ContainerHoldState (orgID sessionID : uuid) (expected : string) (preview : bool) (db : DB) : result (bool * bool) :=
  match select (fun s => is_this orgID sessionID s && col_is (s_container_id s) expected) (sessions db) with
  | s :: _ => Ok (s_turn_holding_container s, preview)
  | [] => Err "container hold state: no rows in result set"
  end.
Definition SetWorkerNodeIDForContainer (orgID sessionID : uuid) (expected node : string) (db : DB) : result DB :=
  let '(db, n) := updating (fun s => is_this orgID sessionID s && col_is (s_container_id s) expected
      && ((default "" (s_worker_node_id s) ==? "") || (default "" (s_worker_node_id s) ==? node)))
    (fun s => s <| s_worker_node_id := Some node |>) db in
  if n =? 0 then Err "session container ownership changed before worker ownership could be recorded" else Ok db.

(** The reconciler gives up a container that is gone from its host. *)
Definition ClearContainerID (now : time) (orgID sessionID : uuid) (expected : string) (preview : bool) (db : DB) : DB * bool :=
  let '(db, n) := updating (fun s => is_this orgID sessionID s && col_is (s_container_id s) expected && negb preview
                           && negb (sandbox_holds now orgID sessionID db))
    (fun s => s <| s_container_id := None |> <| s_worker_node_id := None |> <| s_turn_holding_container := false |>) db in
  (db, 0 <? n).
(** The last holder gives up the container it is about to destroy. *)
Definition FinalizeContainerDestroy (now : time) (orgID sessionID : uuid) (expected : string) (preview : bool) (db : DB) : DB * bool :=
  let '(db, n) := updating (fun s => is_this orgID sessionID s && col_is (s_container_id s) expected && negb (s_turn_holding_container s)
                           && negb preview && negb (sandbox_holds now orgID sessionID db))
    (fun s => s <| s_container_id := None |> <| s_worker_node_id := None |>
                <| s_sandbox_state := if default "" (s_snapshot_key s) ==? "" then "none" else "snapshotted" |>) db in
  (db, 0 <? n).

Definition UpdateSandboxState (orgID sessionID : uuid) (state : string) (db : DB) : DB * Z :=
  updating (is_this orgID sessionID) (fun s => s <| s_sandbox_state := state |>) db.

(** ** Snapshots *)

Definition ClearSnapshotKey (orgID sessionID : uuid) (db : DB) : DB :=
  (updating (fun s => is_this orgID sessionID s && negb (is_null (s_snapshot_key s)))
     (fun s => s <| s_snapshot_key := None |> <| s_sandbox_state := "destroyed" |>) db).1.
Definition SetPendingSnapshotKey (now : time) (orgID sessionID : uuid) (key : string) (db : DB) : DB :=
  (updating (is_this orgID sessionID) (fun s => s <| s_pending_snapshot_key := Some key |> <| s_pending_snapshot_set_at := Some now |>) db).1.
Definition ClearPendingSnapshot (orgID sessionID : uuid) (db : DB) : DB :=
  (updating (is_this orgID sessionID) (fun s => s <| s_pending_snapshot_key := None |> <| s_pending_snapshot_set_at := None |>) db).1.
Definition ReapStrandedPendingSnapshots (olderThan : time) (db : DB) : DB * Z :=
  updating (fun s => negb (is_null (s_pending_snapshot_key s))
          && match s_pending_snapshot_set_at s with Some t => t <=? olderThan | None => false end)
    (fun s => s <| s_pending_snapshot_key := None |> <| s_pending_snapshot_set_at := None |>) db.

(** ** Archive *)

Definition Archive (now : time) (orgID sessionID : uuid) (db : DB) : result DB :=
  let '(db, n) := updating (fun s => is_live orgID sessionID s && is_null (s_archived_at s)) (fun s => s <| s_archived_at := Some now |>) db in
  if n =? 0 then Err ErrSessionAlreadyArchived else Ok db.
Definition ArchiveSystem (now : time) (orgID sessionID : uuid) (db : DB) : DB * bool :=
  let '(db, n) := updating (fun s => is_live orgID sessionID s && is_null (s_archived_at s)) (fun s => s <| s_archived_at := Some now |>) db in
  (db, 0 <? n).
Definition Unarchive (now : time) (orgID sessionID : uuid) (db : DB) : result DB :=
  let '(db, n) := updating (fun s => is_live orgID sessionID s && negb (is_null (s_archived_at s)))
    (fun s => s <| s_archived_at := None |> <| s_last_activity_at := now |>) db in
  if n =? 0 then Err ErrSessionNotArchived else Ok db.
