(* ===== verification/NodeStore.v ===== *)
(** * Worker nodes

    internal/cluster/node.go (NodeManager: registration, heartbeat, drain and
    the stale-node scan), internal/db/node_store.go (operator drains and the
    retire-safety summary) and internal/db/node_retirement.go (the permanent
    seal of one process generation), with the trigger that guards [nodes]. *)

From S2P Require Import Prelude Sql Tables JobStore.
From stdpp Require Import base option list strings pretty gmap.

Open Scope string_scope.
Open Scope Z_scope.

(** ** The admission trigger on nodes *)

Definition guard_worker_retirement_node (db : DB) (old new : Node) : bool :=
  if (n_status new ==? NodeStatusActive) || (n_drain_intent new ==? DrainIntentNone) then
    if (n_status new <>? n_status old) || (n_drain_intent new <>? n_drain_intent old)
    then retirement_admits db (Some (n_id new))
    else true
  else true.

Definition sealed_error : string := "worker generation is sealed for retirement".

Definition update_nodes (db : DB) (p : Node -> bool) (f : Node -> Node) : result DB :=
  if forallb (fun n => negb (p n) || guard_worker_retirement_node db n (f n)) (nodes db)
  then Ok (db <| nodes := update p f (nodes db) |>)
  else Err sealed_error.

(** ** NodeManager *)

(** The manager of one process: [draining] is the local latch, [metadata] what
    the metadata provider currently returns. *)
Definition lifecycleWriterVersion : Z := 0.

Record NodeManager := MkNodeManager {
  nm_nodeID : string;
  nm_mode : NodeMode;
  nm_draining : bool;
  nm_metadata : payload
}.
#[export] Instance eta_NodeManager : Eta NodeManager := fun m =>
  MkNodeManager (nm_nodeID m) (nm_mode m) (nm_draining m) (nm_metadata m).

Definition heartbeatInterval : duration := 30 * second.
Definition heartbeatTimeout : duration := 10 * second.

Definition buildMetadata (m : NodeManager) (extra : payload) : payload := extra ∪ nm_metadata m.

Definition register_conflict (now : time) (m : NodeManager) (host : string) (n : Node) : Node :=
  let kept := n_drain_intent n <>? DrainIntentNone in
  n <| n_mode := nm_mode m |> <| n_host := host |>
    <| n_started_at := now |> <| n_last_heartbeat_at := now |>
    <| n_status := if kept then NodeStatusDraining else NodeStatusActive |>
    <| n_drain_requested_at := if kept then n_drain_requested_at n else None |>
    <| n_drain_budget_expires_at := if kept then n_drain_budget_expires_at n else None |>
    <| n_drain_requested_by := if kept then n_drain_requested_by n else "" |>
    <| n_drain_reason := if kept then n_drain_reason n else "" |>
    <| n_metadata := buildMetadata m ∅ |>
    <| n_lifecycle_writer_version := lifecycleWriterVersion |>.

Definition new_node (now : time) (m : NodeManager) (host : string) : Node :=
  MkNode (nm_nodeID m) (nm_mode m) host NodeStatusActive DrainIntentNone (buildMetadata m ∅)
    now now None None "" "" lifecycleWriterVersion.

(** The insert trigger fires before the conflict is found. *)
Definition Register (now : time) (m : NodeManager) (host : string) (db : DB) : result DB :=
  if negb (retirement_admits db (Some (nm_nodeID m))) then Err sealed_error
  else if exists_row (fun n => n_id n ==? nm_nodeID m) (nodes db)
  then update_nodes db (fun n => n_id n ==? nm_nodeID m) (register_conflict now m host)
  else Ok (db <| nodes := (nodes db ++ [new_node now m host])%list |>).

Definition HeartbeatOnce (now : time) (m : NodeManager) (db : DB) : result DB :=
  let status := if nm_draining m then NodeStatusDraining else NodeStatusActive in
  update_nodes db (fun n => n_id n ==? nm_nodeID m) (fun n =>
    n <| n_last_heartbeat_at := now |>
      <| n_status := if (n_drain_intent n <>? DrainIntentNone) || (n_status n ==? NodeStatusDraining)
                     then NodeStatusDraining else status |>
      <| n_metadata := buildMetadata m ∅ |>
      <| n_lifecycle_writer_version := lifecycleWriterVersion |>).

Definition MarkLocalDraining (m : NodeManager) : NodeManager := m <| nm_draining := true |>.

(** The calendar date of a day number, and [time.RFC3339] in UTC. *)
Definition pad2 (n : Z) : string := (if n <? 10 then "0" else "") +:+ pretty n.
Definition civil_from_days (days : Z) : Z * Z * Z :=
  let z := days + 719468 in
  let era := z / 146097 in
  let doe := z mod 146097 in
  let yoe := (doe - doe / 1460 + doe / 36524 - doe / 146096) / 365 in
  let doy := doe - (365 * yoe + yoe / 4 - yoe / 100) in
  let mp := (5 * doy + 2) / 153 in
  let d := doy - (153 * mp + 2) / 5 + 1 in
  let m := if mp <? 10 then mp + 3 else mp - 9 in
  (yoe + era * 400 + (if m <=? 2 then 1 else 0), m, d).
Definition rfc3339 (t : time) : string :=
  let secs := t / second in
  let '(y, mo, d) := civil_from_days (secs / 86400) in
  let s := secs mod 86400 in
  pretty y +:+ "-" +:+ pad2 mo +:+ "-" +:+ pad2 d +:+ "T" +:+ pad2 (s / 3600) +:+ ":"
  +:+ pad2 (s mod 3600 / 60) +:+ ":" +:+ pad2 (s mod 60) +:+ "Z".

Definition RequestDrain (m : NodeManager) (requestedAt : time) (db : DB) : NodeManager * result DB :=
  let m' := MarkLocalDraining m in
  (m', update_nodes db (fun n => n_id n ==? nm_nodeID m) (fun n =>
    n <| n_status := NodeStatusDraining |>
      <| n_drain_requested_at := coalesce (n_drain_requested_at n) requestedAt |>
      <| n_metadata := buildMetadata m' {[ "drain_requested_at" := jstr (rfc3339 requestedAt) ]} |>)).

Definition MarkStaleNodesDead (staleBefore : time) (db : DB) : result (DB * Z) :=
  let p n := (n_status n <>? NodeStatusDead) && (n_last_heartbeat_at n <? staleBefore) in
  let? db' := update_nodes db p (fun n => n <| n_status := NodeStatusDead |>) in
  Ok (db', count_rows p (nodes db)).

(** ** NodeStore *)

(** [strings.TrimSpace(s) == ""] for ASCII white space. *)
Definition white (c : Ascii.ascii) : bool :=
  let n := Ascii.nat_of_ascii c in ((9 <=? n) && (n <=? 13) || (n =? 32))%nat.
Fixpoint blank (s : string) : bool :=
  match s with
  | EmptyString => true
  | String c s' => white c && blank s'
  end.

Definition ResumeOnRestart (now : time) (nodeID reason requestedBy deployID : string) (db : DB)
    : result DB :=
  if blank nodeID || blank reason || blank requestedBy
  then Err "resume requires node id, reason and requesting operator"
  else
    let p n := (n_id n ==? nodeID) && (n_drain_intent n <>? DrainIntentNone) in
    let? db' := update_nodes db p (fun n =>
        n <| n_drain_intent := DrainIntentNone |>
          <| n_status := if n_status n ==? NodeStatusDead then NodeStatusDead else NodeStatusDraining |>
          <| n_drain_requested_at := None |> <| n_drain_budget_expires_at := None |>
          <| n_drain_requested_by := "" |> <| n_drain_reason := "" |>) in
    if negb (count_rows p (nodes db) =? 1) then Err "node not found or has no durable drain intent"
    else Ok (db' <| worker_deploy_events := (worker_deploy_events db ++
               map (fun n => MkDeployEvent deployID (n_id n) (n_host n) "" "node_drain_cleared" DrainIntentNone
                               requestedBy reason {["restart_required" := JScalar (SBool true)]} now)
                 (select p (nodes db)))%list |>).

Record MarkNodeDrainingParams := MkMarkNodeDrainingParams {
  md_NodeID : string;
  md_Intent : option DrainIntent;
  md_DeployID : string;
  md_Reason : string;
  md_RequestedBy : string;
  md_BudgetExpiresAt : option time;
  md_BuildSHA : string;
  md_Metadata : payload
}.

(** [fresh] is the deploy id drawn when the caller gave none. *)
Definition MarkDraining (now : time) (fresh : string) (p : MarkNodeDrainingParams) (db : DB) : result DB :=
  if md_NodeID p ==? "" then Err "node id is required"
  else
    let intent := default DrainIntentPlannedRollout (md_Intent p) in
    let here n := n_id n ==? md_NodeID p in
    let? db' := update_nodes db here (fun n =>
        n <| n_status := NodeStatusDraining |> <| n_drain_intent := intent |>
          <| n_drain_requested_at := Some now |> <| n_drain_budget_expires_at := md_BudgetExpiresAt p |>
          <| n_drain_requested_by := md_RequestedBy p |> <| n_drain_reason := md_Reason p |>) in
    if negb (count_rows here (nodes db) =? 1) then Err "mark node draining: node not found"
    else
      let deployID := if md_DeployID p ==? "" then fresh else md_DeployID p in
      Ok (db' <| worker_deploy_events := (worker_deploy_events db ++
            map (fun n => MkDeployEvent deployID (n_id n) (n_host n) (md_BuildSHA p) "node_marked_draining" intent
                            (md_RequestedBy p) (md_Reason p) (md_Metadata p) now)
              (select here (nodes db)))%list |>).

Definition accepting (n : Node) : bool :=
  worker_mode n && (n_status n ==? NodeStatusActive) && (n_drain_intent n ==? DrainIntentNone).

(** Active, fresh and stale workers, and the age of the newest heartbeat. *)
Definition WorkerHeartbeatHealth (now staleBefore : time) (db : DB) : Z * Z * Z * duration :=
  let newest := foldr (fun n acc => match acc with
                                    | Some t => Some (Z.max (n_last_heartbeat_at n) t)
                                    | None => Some (n_last_heartbeat_at n)
                                    end) None (select accepting (nodes db)) in
  (count_rows accepting (nodes db),
   count_rows (fun n => accepting n && (staleBefore <=? n_last_heartbeat_at n)) (nodes db),
   count_rows (fun n => accepting n && (n_last_heartbeat_at n <? staleBefore)) (nodes db),
   match newest with Some t => now - t | None => 0 end).

(** Owners of a node recorded outside the tables of the plane: previews,
    session holds, sandbox holders, snapshot uploads. *)
Record OwnerObservation := MkOwnerObservation {
  ob_ActivePreviewCount : Z;
  ob_MaxPreviewLeaseExpiresAt : option time;
  ob_ActiveSessionHoldCount : Z;
  ob_ActiveSandboxHolderCount : Z;
  ob_EndpointBlockerCount : Z;
  ob_PendingSnapshotUploadCount : Z;
  ob_previewOwners : Z
}.

Record WorkerDeployStatus := MkWorkerDeployStatus {
  wd_NodeID : string;
  wd_Host : string;
  wd_Status : NodeStatus;
  wd_DrainIntent : DrainIntent;
  wd_LastHeartbeatAt : option time;
  wd_FreshHeartbeat : bool;
  wd_DrainRequestedAt : option time;
  wd_DrainBudgetExpiresAt : option time;
  wd_ActiveExecutorCount : Z;
  wd_MaxExecutorDeadlineAt : option time;
  wd_ActivePreviewCount : Z;
  wd_MaxPreviewLeaseExpiresAt : option time;
  wd_OwnedRunningJobCount : Z;
  wd_ActiveSessionHoldCount : Z;
  wd_ActiveSandboxHolderCount : Z;
  wd_EndpointBlockerCount : Z;
  wd_PendingSnapshotUploadCount : Z;
  wd_DetachedCleanupJobCount : Z;
  wd_RetireReady : bool
}.

Definition detached_cleanup_type (t : string) : bool :=
  existsb (fun k => k ==? t)
    ["open_pr"; "push_pr_changes"; "create_branch"; "start_preview"; "stop_preview"; "cleanup_stale_sandbox"].

(** [MAX] over nullable instants. *)
Definition max_time (l : list (option time)) : option time :=
  foldr (fun t acc => match t, acc with
                      | Some t, Some m => Some (Z.max t m)
                      | Some t, None => Some t
                      | None, _ => acc
                      end) None l.

Definition worker_deploy_status (wall : time) (obs : OwnerObservation) (nodeID : string) (db : DB)
    : result WorkerDeployStatus :=
  match select (fun n => n_id n ==? nodeID) (nodes db) with
  | [] => Err "worker deploy status: no rows in result set"
  | n :: _ =>
      let hosted e := (se_host_node_id e ==? nodeID) && executor_active e in
      let executors := count_rows hosted (session_executors db) in
      let running := CountRunningOwnedByNode db nodeID in
      let detached := count_rows (fun j => (j_status j ==? JobStatusRunning)
                        && col_is (j_locked_by_node_id j) nodeID && detached_cleanup_type (j_job_type j))
                        (jobs db) in
      Ok (MkWorkerDeployStatus (n_id n) (n_host n) (n_status n) (n_drain_intent n)
            (Some (n_last_heartbeat_at n)) (wall - n_last_heartbeat_at n <=? 60 * second)
            (n_drain_requested_at n) (n_drain_budget_expires_at n)
            executors (max_time (map se_runtime_deadline_at (select hosted (session_executors db))))
            (ob_ActivePreviewCount obs) (ob_MaxPreviewLeaseExpiresAt obs) running
            (ob_ActiveSessionHoldCount obs) (ob_ActiveSandboxHolderCount obs) (ob_EndpointBlockerCount obs)
            (ob_PendingSnapshotUploadCount obs) detached
            ((executors =? 0) && (ob_ActivePreviewCount obs =? 0) && (running =? 0)
             && (ob_ActiveSessionHoldCount obs =? 0) && (ob_ActiveSandboxHolderCount obs =? 0)
             && (ob_EndpointBlockerCount obs =? 0) && (ob_PendingSnapshotUploadCount obs =? 0)
             && (detached =? 0)))
  end.

(** ** Retirement seals *)

Definition readNodeRetirementSeal (db : DB) (nodeID deployID buildSHA : string)
    : result (option RetirementSeal) :=
  match select (fun s => sl_node_id s ==? nodeID) (worker_retirement_seals db) with
  | [] => Ok None
  | s :: _ =>
      if (sl_deploy_id s <>? deployID) || (sl_build_sha s <>? buildSHA)
      then Err "retirement seal belongs to a different deployment attempt"
      else Ok (Some s)
  end.

(** The drain of this exact deployment, proved by the latest drain event. *)
Definition planned_drain (clock : time) (deployID buildSHA : string) (db : DB) (n : Node) : bool :=
  (n_status n ==? NodeStatusDraining) && (n_drain_intent n ==? DrainIntentPlannedRollout)
  && worker_mode n
  && (clock - 60 * second <=? n_last_heartbeat_at n) && (n_last_heartbeat_at n <=? clock + 5 * second)
  && match n_drain_requested_at n with
     | None => false
     | Some requested =>
         match last (select (fun e => (de_node_id e ==? n_id n)
                 && (de_event_type e ==? "node_marked_draining")) (worker_deploy_events db)) with
         | Some e => (de_deploy_id e ==? deployID) && (de_build_sha e ==? buildSHA)
                     && (de_drain_intent e ==? DrainIntentPlannedRollout)
                     && (requested <=? de_created_at e)
         | None => false
         end
     end.

Definition ErrNodeRetirementBusy : string := "worker generation still owns work".

(** [clock] is [clock_timestamp()]; it also stands for the caller's clock, which
    only the freshness flag of the status reads. *)
Definition Seal (clock : time) (obs : OwnerObservation) (nodeID deployID buildSHA : string) (db : DB)
    : result (DB * RetirementSeal) :=
  if blank nodeID || blank deployID || blank buildSHA
  then Err "retirement seal requires node id, deploy id and build sha"
  else
    match readNodeRetirementSeal db nodeID deployID buildSHA with
    | Err e => Err e
    | Ok (Some s) => Ok (db, s)
    | Ok None =>
        match select (fun n => n_id n ==? nodeID) (nodes db) with
        | [] => Err "lock exact retirement generation: no rows in result set"
        | n :: _ =>
            if negb (planned_drain clock deployID buildSHA db n)
            then Err "retirement generation lacks fresh planned drain for this deployment"
            else
              let? status := worker_deploy_status clock obs nodeID db in
              if (wd_Status status <>? NodeStatusDraining)
                 || (wd_DrainIntent status <>? DrainIntentPlannedRollout)
              then Err "retirement generation changed drain intent"
              else if negb (wd_RetireReady status) || (ob_previewOwners obs <>? 0)
              then Err ErrNodeRetirementBusy
              else
                let s := MkRetirementSeal nodeID deployID buildSHA clock in
                Ok (db <| worker_retirement_seals := (worker_retirement_seals db ++ [s])%list |>, s)
        end
    end.
