(* ===== verification/Recovery.v ===== *)
(** * The recovery loop

    internal/cluster/recovery.go: one pass of [RecoveryLoop.runOnce].  The
    loop sees its stores through interfaces; [RecoveryStores] is that
    interface, with the promises the pass relies on stated as laws. *)

From S2P Require Import Prelude Sql Tables JobStore ExecutorStore NodeStore.
From stdpp Require Import base option list strings gmap.

Open Scope string_scope.
Open Scope Z_scope.

(** recoveryNodeStore, recoverySessionExecutorStore, recoveryPreviewRuntimeStore
    and recoveryJobStore.  A store may be absent ([None]). *)
Record RecoveryStores (St : Type) := MkRecoveryStores {
  rs_MarkStaleNodesDead : time -> St -> result (St * Z);
  rs_ReclaimLost : option (time -> nat -> St -> result (St * Z));
  rs_MarkExpiredPreviewRuntimesLost : option (time -> string -> St -> result (St * Z));
  rs_ReclaimLostRunningJobs : time -> nat -> St -> result (St * Z)
}.
Arguments rs_MarkStaleNodesDead {St}.
Arguments rs_ReclaimLost {St}.
Arguments rs_MarkExpiredPreviewRuntimesLost {St}.
Arguments rs_ReclaimLostRunningJobs {St}.

Section Loop.
Context {St : Type} (stores : RecoveryStores St).
Variables (deadNodeTimeout : duration) (reclaimBatchSize : nat).

(** A pass reports its first error; the stores' earlier writes stay. *)
Definition runOnce (now : time) (s0 : St) : St * option string :=
  let staleBefore := now - deadNodeTimeout in
  match rs_MarkStaleNodesDead stores staleBefore s0 with
  | Err e => (s0, Some ("mark stale nodes dead: " +:+ e))
  | Ok (s1, _) =>
      match (match rs_ReclaimLost stores with
             | Some reclaim => reclaim staleBefore reclaimBatchSize s1
             | None => Ok (s1, 0)
             end) with
      | Err e => (s1, Some ("reclaim lost session executors: " +:+ e))
      | Ok (s2, _) =>
          match (match rs_MarkExpiredPreviewRuntimesLost stores with
                 | Some mark => mark now "preview runtime lease expired" s2
                 | None => Ok (s2, 0)
                 end) with
          | Err e => (s2, Some ("mark expired preview runtimes lost: " +:+ e))
          | Ok (s3, _) =>
              match rs_ReclaimLostRunningJobs stores staleBefore reclaimBatchSize s3 with
              | Err e => (s3, Some ("reclaim lost running jobs: " +:+ e))
              | Ok (s4, _) => (s4, None)
              end
          end
      end
  end.
End Loop.

(** The stores the server wires in, with no preview store: [clock] is the
    transaction timestamp of the statements of the pass. *)
Definition plane_stores (clock : time) (locked : uuid -> bool) : RecoveryStores DB :=
  MkRecoveryStores DB
    (fun staleBefore db => MarkStaleNodesDead staleBefore db)
    (Some (fun staleBefore n db => Ok (ReclaimLost clock staleBefore n locked db)))
    None
    (fun staleBefore n db => Ok (ReclaimLostRunningJobs clock staleBefore n locked db)).
