(* ===== verification/JobLifecycle.v ===== *)
(** * The lifecycle a queued job follows

    The specification of the queue: a job is queued, held under one lock token
    or done, and [queue_step] says how one statement may change the table.
    Every operation of [JobStore] and [ExecutorStore] that writes [jobs] is
    shown to be such a step, and what holds of every sequence of steps is
    proved once. *)

From S2P Require Import Prelude Sql Tables Continuation JobStore ExecutorStore.
From stdpp Require Import base option list strings gmap.

Open Scope string_scope.
Open Scope Z_scope.

(** ** The specification *)

Inductive phase :=
  | Queued
  | Held (token : uuid)
  | Done (s : JobStatus).

Definition phase_of (j : Job) : phase :=
  match j_status j with
  | JobStatusPending => Queued
  | JobStatusRunning => Held (default "" (j_lock_token j))
  | s => Done s
  end.

(** A claim draws a lock token for a worker node. *)
Abbreviation claim := (option (uuid * string)).

(** The legal moves of one job. *)
Inductive phase_step (drawn : claim) : phase -> phase -> Prop :=
  | phase_stay a : phase_step drawn a a
  | phase_claim t node : drawn = Some (t, node) -> phase_step drawn Queued (Held t)
  | phase_release t : phase_step drawn (Held t) Queued
  | phase_finish t s : phase_step drawn (Held t) (Done s)
  | phase_cancel : phase_step drawn Queued (Done JobStatusCancelled).

(** The lock columns are set exactly while the job runs. *)
Definition job_wf (j : Job) : Prop :=
  match j_status j with
  | JobStatusRunning =>
      is_Some (j_locked_by_node_id j) /\ is_Some (j_run_owner_id j) /\ is_Some (j_lock_token j)
      /\ is_Some (j_locked_at j) /\ is_Some (j_lease_expires_at j)
  | _ =>
      j_locked_by_node_id j = None /\ j_run_owner_id j = None /\ j_lock_token j = None
      /\ j_locked_at j = None /\ j_lease_expires_at j = None /\ j_owner_kind j = JobOwnerKindWorker
  end /\ 0 <= j_attempts j /\ 0 < j_max_attempts j.
#[export] Instance job_wf_dec j : Decision (job_wf j).
Proof. unfold job_wf. destruct (j_status j); apply _. Defined.

(** A write of the rows of [t] selected by [p]. *)
Record job_write (drawn : claim) (t : list Job) (p : Job -> bool) (f : Job -> Job) : Prop := {
  jw_id : forall j, j_id (f j) = j_id j;
  jw_queue : forall j, j_queue (f j) = j_queue j;
  jw_key : forall j, j_dedupe_key (f j) = j_dedupe_key j;
  jw_step : forall j, In j t -> p j = true -> job_wf j ->
    job_wf (f j) /\ phase_step drawn (phase_of j) (phase_of (f j));
  jw_owner : forall j, In j t -> p j = true ->
    j_locked_by_node_id (f j) = j_locked_by_node_id j \/ j_locked_by_node_id (f j) = None
    \/ exists tok node, drawn = Some (tok, node) /\ j_locked_by_node_id (f j) = Some node;
  jw_single : forall c i j, drawn = Some c -> In i t -> In j t -> p i = true -> p j = true -> i = j
}.

Inductive queue_step (drawn : claim) : list Job -> list Job -> Prop :=
  | queue_write t p f : job_write drawn t p f -> queue_step drawn t (update p f t)
  | queue_insert t j :
      ~ In (j_id j) (map j_id t) ->
      exists_row (dedupe_conflict (j_queue j) (j_dedupe_key j)) t = false ->
      job_wf j -> phase_of j = Queued -> queue_step drawn t (t ++ [j])%list
  | queue_prune t p :
      (forall j, In j t -> p j = false -> exists s, phase_of j = Done s) ->
      queue_step drawn t (select p t).

(** Two active jobs of one queue never share a dedupe key. *)
Definition unique_active (t : list Job) : Prop :=
  forall i j k, In i t -> In j t -> job_active i = true -> job_active j = true ->
    j_queue i = j_queue j -> j_dedupe_key i = Some k -> j_dedupe_key j = Some k -> i = j.

(** Lock tokens come from [used] and identify the job that holds them. *)
Definition tokens_ok (used : list uuid) (t : list Job) : Prop :=
  (forall j tok, In j t -> phase_of j = Held tok -> In tok used)
  /\ (forall i j tok, In i t -> In j t -> phase_of i = Held tok -> phase_of j = Held tok -> i = j).

Record queue_inv (used : list uuid) (t : list Job) : Prop := {
  qi_ids : List.NoDup (map j_id t);
  qi_wf : Forall job_wf t;
  qi_keys : unique_active t;
  qi_tokens : tokens_ok used t
}.

Definition spend (drawn : claim) (used : list uuid) : list uuid :=
  match drawn with Some (tok, _) => tok :: used | None => used end.
Definition unspent (drawn : claim) (used : list uuid) : Prop :=
  match drawn with Some (tok, _) => ~ In tok used | None => True end.

(** ** Facts about single jobs *)

Lemma active_phase j : job_active j = true <-> forall s, phase_of j <> Done s.
Proof. unfold job_active, phase_of. destruct (j_status j); naive_solver. Qed.

Lemma running_held j : j_status j = JobStatusRunning -> job_wf j ->
  exists tok, j_lock_token j = Some tok /\ phase_of j = Held tok.
Proof.
  unfold job_wf, phase_of. intros -> [(_ & _ & [tok Ht] & _) _]. exists tok. by rewrite Ht.
Qed.

Lemma held_running j tok : job_wf j -> phase_of j = Held tok ->
  j_status j = JobStatusRunning /\ j_lock_token j = Some tok.
Proof.
  unfold job_wf, phase_of. destruct (j_status j) eqn:E; try done.
  intros [(_ & _ & [t Ht] & _) _]. rewrite Ht. naive_solver.
Qed.

Lemma phase_step_active drawn j j' :
  phase_step drawn (phase_of j) (phase_of j') -> job_active j' = true -> job_active j = true.
Proof.
  rewrite !active_phase. intros Hs Ha s Hs'. rewrite Hs' in Hs.
  inversion Hs; subst; naive_solver.
Qed.

Lemma release_wf now j : j_status j <> JobStatusRunning ->
  0 <= j_attempts j -> 0 < j_max_attempts j -> job_wf (release_lock now j).
Proof. unfold job_wf. destruct j; simpl. destruct j_status; naive_solver. Qed.

Lemma owns_running jobID tok j : owns jobID tok j = true ->
  j_id j = jobID /\ j_status j = JobStatusRunning /\ j_lock_token j = Some tok.
Proof. unfold owns, col_is. intros. by reflect_bools. Qed.

(** ** Writes by the holder of a job *)

(** What every write to a running job keeps; the instances below cover the
    row updates of the stores. *)
Class HolderWrite (f : Job -> Job) : Prop := {
  hw_id : forall j, j_id (f j) = j_id j;
  hw_queue : forall j, j_queue (f j) = j_queue j;
  hw_key : forall j, j_dedupe_key (f j) = j_dedupe_key j;
  hw_wf : forall j, j_status j = JobStatusRunning -> job_wf j -> job_wf (f j);
  hw_phase : forall j tok, j_status j = JobStatusRunning -> j_lock_token j = Some tok ->
    phase_of (f j) = Held tok \/ phase_of (f j) = Queued \/ exists s, phase_of (f j) = Done s;
  hw_owner : forall j, j_locked_by_node_id (f j) = j_locked_by_node_id j
                       \/ j_locked_by_node_id (f j) = None
}.

Ltac holder_write :=
  split; intros []; simpl; unfold job_wf, phase_of, coalesce; simpl; intros; subst; simpl in *;
  repeat case_match; simplify_eq/=; intuition (eauto; lia).

#[export] Instance hw_succeed now : HolderWrite (fun j => release_lock now
  (j <| j_status := JobStatusSucceeded |> <| j_completed_at := Some now |>)).
Proof. holder_write. Qed.
#[export] Instance hw_fail now msg : HolderWrite (fun j => release_lock now
  (j <| j_status := JobStatusFailed |> <| j_last_error := Some msg |>)).
Proof. holder_write. Qed.
#[export] Instance hw_dead_letter now msg : HolderWrite (fun j => release_lock now
  (j <| j_status := JobStatusDeadLetter |> <| j_last_error := Some msg |>
     <| j_completed_at := Some now |>)).
Proof. holder_write. Qed.
#[export] Instance hw_fail_job now reason : HolderWrite (fail_job now reason).
Proof. holder_write. Qed.
#[export] Instance hw_requeue now db msg runAt : HolderWrite (requeue_job now db msg runAt).
Proof. holder_write. Qed.
#[export] Instance hw_renew now secs : HolderWrite (renew_job now secs).
Proof. holder_write. Qed.
#[export] Instance hw_target f node : HolderWrite f ->
  HolderWrite (fun j => (f j) <| j_target_node_id := node |>).
Proof.
  intros [Hi Hq Hk Hw Hp Ho]; split; intros j; [apply Hi|apply Hq|apply Hk| | |apply Ho].
  - intros Hr Hj. exact (Hw j Hr Hj).
  - intros tok Hr Ht. exact (Hp j tok Hr Ht).
Qed.
#[export] Instance hw_window f w : HolderWrite f ->
  HolderWrite (fun j => (f j) <| j_retry_window_started_at := w |>).
Proof.
  intros [Hi Hq Hk Hw Hp Ho]; split; intros j; [apply Hi|apply Hq|apply Hk| | |apply Ho].
  - intros Hr Hj. exact (Hw j Hr Hj).
  - intros tok Hr Ht. exact (Hp j tok Hr Ht).
Qed.
#[export] Instance hw_refund f : HolderWrite f -> HolderWrite (fun j => refund_attempt (f j)).
Proof.
  intros [Hi Hq Hk Hw Hp Ho]; split; intros j; [apply Hi|apply Hq|apply Hk| | |apply Ho].
  - intros Hr Hj. destruct (Hw j Hr Hj) as [Hl [_ Hm]]. split; [exact Hl|split; [simpl; lia|exact Hm]].
  - intros tok Hr Ht. exact (Hp j tok Hr Ht).
Qed.
#[export] Instance hw_window_start now startedAt : HolderWrite (fun j =>
  j <| j_retry_window_started_at := coalesce (j_retry_window_started_at j) startedAt |>
    <| j_updated_at := now |>).
Proof. holder_write. Qed.
#[export] Instance hw_handoff now executorID : HolderWrite (fun j =>
  j <| j_owner_kind := JobOwnerKindSessionExecutor |> <| j_run_owner_id := Some executorID |>
    <| j_updated_at := now |>).
Proof. holder_write. Qed.
#[export] Instance hw_record now threadID runtimeID messageID ids : HolderWrite (fun j =>
  j <| j_payload := record_attempt_payload j threadID runtimeID messageID ids |>
    <| j_updated_at := now |>).
Proof. holder_write. Qed.

Lemma holder_job_write t p f : HolderWrite f ->
  (forall j, In j t -> p j = true -> j_status j = JobStatusRunning) -> job_write None t p f.
Proof.
  intros Hf Hp. split; [apply hw_id|apply hw_queue|apply hw_key| | |done].
  2: { intros j _ _. destruct (hw_owner j); auto. }
  intros j Hin Hpj Hwf. pose proof (Hp j Hin Hpj) as Hr.
  destruct (running_held j Hr Hwf) as (tok & Ht & Hph).
  split; [by apply hw_wf|]. rewrite Hph.
  destruct (hw_phase j tok Hr Ht) as [E|[E|[s E]]]; rewrite E; constructor.
Qed.

Lemma holder_step t p f : HolderWrite f ->
  (forall j, In j t -> p j = true -> j_status j = JobStatusRunning) ->
  queue_step None t (update p f t).
Proof. intros Hf Hp. apply queue_write. by apply holder_job_write. Qed.

Lemma fenced_step jobID tok f db : HolderWrite f ->
  queue_step None (jobs db) (jobs (fenced_update jobID tok f db).1).
Proof. intros Hf. apply holder_step; [done|]. intros j _ Hj. apply owns_running in Hj. tauto. Qed.
#[export] Hint Resolve fenced_step : plane.

Lemma queue_idle drawn t : queue_step drawn t t.
Proof.
  replace t with (update (fun _ => false) id t) at 2.
  - apply queue_write. split; done.
  - apply update_none. by apply exists_row_false.
Qed.
#[export] Hint Resolve queue_idle : plane.

(** ** Steps keep the invariant *)

Lemma job_write_image drawn t p f j' : job_write drawn t p f -> Forall job_wf t ->
  In j' (update p f t) ->
  exists j, In j t /\ j' = (if p j then f j else j) /\ j_id j' = j_id j
    /\ j_queue j' = j_queue j /\ j_dedupe_key j' = j_dedupe_key j
    /\ job_wf j' /\ phase_step drawn (phase_of j) (phase_of j')
    /\ (phase_of j' = phase_of j \/ p j = true).
Proof.
  intros Hw Hwf (j & Hin & ->)%in_update_image. exists j.
  rewrite List.Forall_forall in Hwf. specialize (Hwf j Hin).
  destruct (p j) eqn:Hp.
  - destruct (jw_step _ _ _ _ Hw j Hin Hp Hwf).
    rewrite (jw_id _ _ _ _ Hw), (jw_queue _ _ _ _ Hw), (jw_key _ _ _ _ Hw). naive_solver.
  - do 6 (split; [done|]). split; [constructor|by left].
Qed.

Section WriteKeeps.
Variables (drawn : claim) (used : list uuid) (t : list Job) (p : Job -> bool) (f : Job -> Job).
Hypothesis write : job_write drawn t p f.
Hypothesis fresh : unspent drawn used.
Hypothesis inv : queue_inv used t.

Lemma write_unique_active : unique_active (update p f t).
Proof.
  intros i' j' k Hi Hj Hai Haj Hq Hki Hkj.
  destruct (job_write_image _ _ _ _ _ write (qi_wf _ _ inv) Hi) as (i & Hii & -> & _ & Hqi & Hk & _ & Hs & _).
  destruct (job_write_image _ _ _ _ _ write (qi_wf _ _ inv) Hj) as (j & Hjj & -> & _ & Hqj & Hk' & _ & Hs' & _).
  assert (i = j) as ->; [|done].
  apply (qi_keys _ _ inv i j k); auto; try congruence; eapply phase_step_active; eauto.
Qed.

Lemma write_tokens : tokens_ok (spend drawn used) (update p f t).
Proof.
  destruct (qi_tokens _ _ inv) as [Hused Hsole]. split.
  - intros j' tok Hj Hh.
    destruct (job_write_image _ _ _ _ _ write (qi_wf _ _ inv) Hj) as (j & Hin & -> & _ & _ & _ & _ & Hs & _).
    rewrite Hh in Hs. inversion Hs as [? E|? ? E| | |]; subst.
    + specialize (Hused j tok Hin). destruct drawn as [[]|]; simpl; auto.
    + by left.
  - intros i' j' tok Hi Hj Hhi Hhj.
    destruct (job_write_image _ _ _ _ _ write (qi_wf _ _ inv) Hi) as (i & Hii & -> & _ & _ & _ & _ & Hs & Hpi).
    destruct (job_write_image _ _ _ _ _ write (qi_wf _ _ inv) Hj) as (j & Hjj & -> & _ & _ & _ & _ & Hs' & Hpj).
    assert (i = j) as ->; [|done].
    rewrite Hhi in Hs, Hpi. rewrite Hhj in Hs', Hpj.
    inversion Hs as [? E|? ? E1 E| | |]; inversion Hs' as [? E'|? ? E1' E'| | |]; subst.
    + by apply (Hsole i j tok).
    + exfalso. apply fresh. by apply (Hused i).
    + exfalso. apply fresh. by apply (Hused j).
    + assert (p i = true) by (destruct Hpi; [congruence|done]).
      assert (p j = true) by (destruct Hpj; [congruence|done]).
      by eapply (jw_single _ _ _ _ write).
Qed.

Lemma write_keeps : queue_inv (spend drawn used) (update p f t).
Proof.
  split.
  - rewrite update_key; [apply inv|apply (jw_id _ _ _ _ write)].
  - apply Forall_update; [|apply inv]. intros j Hin Hj Hp. by apply (jw_step _ _ _ _ write).
  - apply write_unique_active.
  - apply write_tokens.
Qed.
End WriteKeeps.

Lemma spend_tokens drawn used t : tokens_ok used t -> tokens_ok (spend drawn used) t.
Proof.
  intros [Hu Hs]. split; [|done]. intros j tok Hin Hh. specialize (Hu j tok Hin Hh).
  destruct drawn as [[]|]; simpl; auto.
Qed.

Lemma insert_keeps used t j : queue_inv used t -> ~ In (j_id j) (map j_id t) ->
  exists_row (dedupe_conflict (j_queue j) (j_dedupe_key j)) t = false ->
  job_wf j -> phase_of j = Queued -> queue_inv used (t ++ [j])%list.
Proof.
  intros inv Hid Hconf Hwf Hph.
  assert (Hnone : forall i k, In i t -> job_active i = true -> j_queue i = j_queue j ->
    j_dedupe_key i = Some k -> j_dedupe_key j = Some k -> False).
  { intros i k Hi Ha Hq Hk Hk'.
    assert (exists_row (dedupe_conflict (j_queue j) (j_dedupe_key j)) t = true) as Hex; [|congruence].
    apply exists_row_true. exists i. split; [done|]. unfold dedupe_conflict, col_is.
    rewrite Hk', Hk, Hq, Ha, !bool_decide_eq_true_2 by done. done. }
  split.
  - rewrite map_app. simpl. apply List.NoDup_app; [apply inv|repeat constructor; auto|].
    intros x Hx [<-|[]]. auto.
  - apply Forall_app. split; [apply inv|by constructor].
  - intros i i' k Hi Hi' Ha Ha' Hq Hk Hk'.
    apply in_app_iff in Hi as [Hi|[<-|[]]]; apply in_app_iff in Hi' as [Hi'|[<-|[]]]; try done.
    + by apply (qi_keys _ _ inv i i' k).
    + exfalso. by apply (Hnone i k).
    + exfalso. by apply (Hnone i' k).
  - destruct (qi_tokens _ _ inv) as [Hu Hs]. split.
    + intros i tok Hi Hh. apply in_app_iff in Hi as [Hi|[<-|[]]]; [by apply (Hu i)|congruence].
    + intros i i' tok Hi Hi' Hh Hh'.
      apply in_app_iff in Hi as [Hi|[<-|[]]]; apply in_app_iff in Hi' as [Hi'|[<-|[]]];
        [by apply (Hs i i' tok)|congruence..].
Qed.

Lemma prune_keeps used t p : queue_inv used t -> queue_inv used (select p t).
Proof.
  intros [Hids Hwf Hkeys [Hu Hs]]. unfold select.
  assert (forall j, In j (List.filter p t) -> In j t) as Hsub by (intros j Hj; apply in_filter_iff in Hj; tauto).
  split; [by apply NoDup_map_filter| | |split].
  - rewrite List.Forall_forall in *. eauto.
  - intros i j k Hi Hj. apply Hkeys; auto.
  - intros j tok Hj. apply Hu; auto.
  - intros i j tok Hi Hj. apply Hs; auto.
Qed.

Lemma queue_step_inv drawn used t t' :
  unspent drawn used -> queue_inv used t -> queue_step drawn t t' -> queue_inv (spend drawn used) t'.
Proof.
  intros Hf Hinv Hs. destruct Hs as [t p f Hw|t j Hid Hc Hwf Hph|t p Hp].
  - by apply write_keeps.
  - destruct (insert_keeps used t j Hinv Hid Hc Hwf Hph). split; auto. by apply spend_tokens.
  - destruct (prune_keeps used t p Hinv). split; auto. by apply spend_tokens.
Qed.

(** A lock owner after a step owned a job before it, or has just claimed. *)
Lemma queue_step_owner drawn t t' j' node : Forall job_wf t -> queue_step drawn t t' ->
  In j' t' -> j_locked_by_node_id j' = Some node ->
  (exists j, In j t /\ j_locked_by_node_id j = Some node) \/ exists tok, drawn = Some (tok, node).
Proof.
  intros Hwf Hs Hin Hn. destruct Hs as [t p f Hw|t j Hid Hc Hj Hph|t p Hp].
  - apply in_update_image in Hin as (j & Hin & ->).
    destruct (p j) eqn:E; [|by eauto].
    destruct (jw_owner _ _ _ _ Hw j Hin E) as [Ho|[Ho|(tok & n & Hd & Ho)]]; rewrite Hn in Ho.
    + left. eauto.
    + done.
    + right. exists tok. congruence.
  - apply in_app_iff in Hin as [Hin|[<-|[]]]; [by eauto|].
    unfold job_wf, phase_of in *. destruct (j_status j); try done.
    destruct Hj as [(Hl & _) _]. congruence.
  - apply in_filter_iff in Hin as [Hin _]. eauto.
Qed.

(** A spent token that no job holds is never held again. *)
Lemma queue_step_token drawn used t t' tok : Forall job_wf t -> queue_step drawn t t' ->
  unspent drawn used -> In tok used -> (forall j, In j t -> phase_of j <> Held tok) ->
  forall j', In j' t' -> phase_of j' <> Held tok.
Proof.
  intros Hwf Hs Hf Hu Hno j' Hin Hh. destruct Hs as [t p f Hw|t j Hid Hc Hj Hph|t p Hp].
  - destruct (job_write_image _ _ _ _ _ Hw Hwf Hin) as (j & Hj & _ & _ & _ & _ & _ & Hst & _).
    rewrite Hh in Hst. inversion Hst as [? E|? ? E| | |]; subst; [by eapply Hno|].
    by apply Hf.
  - apply in_app_iff in Hin as [Hin|[<-|[]]]; [by eapply Hno|congruence].
  - apply in_filter_iff in Hin as [Hin _]. by eapply Hno.
Qed.

(** A finished job keeps its outcome as long as its row exists. *)
Lemma queue_step_done drawn t t' j j' s : List.NoDup (map j_id t) -> Forall job_wf t ->
  queue_step drawn t t' -> In j t -> phase_of j = Done s ->
  In j' t' -> j_id j' = j_id j -> phase_of j' = Done s.
Proof.
  intros Hids Hwf Hs Hin Hd Hin' Hid. destruct Hs as [t p f Hw|t i Hni Hc Hi Hph|t p Hp].
  - destruct (job_write_image _ _ _ _ _ Hw Hwf Hin') as (i & Hi & _ & Hii & _ & _ & _ & Hst & _).
    replace i with j in Hst by (apply (map_key_inj j_id t); auto; congruence).
    rewrite Hd in Hst. by inversion Hst.
  - apply in_app_iff in Hin' as [Hin'|[<-|[]]].
    + by replace j' with j by (apply (map_key_inj j_id t); auto).
    + exfalso. apply Hni. rewrite Hid. by apply in_map.
  - apply in_filter_iff in Hin' as [Hin' _].
    by replace j' with j by (apply (map_key_inj j_id t); auto).
Qed.
