(* ===== verification/JobSteps.v ===== *)
(** * Every write of the stores is a step of the queue

    One lemma per operation of [JobStore] and [ExecutorStore] that writes
    [jobs]: its effect on the table is a [queue_step]. *)

From S2P Require Import Prelude Sql Tables Continuation JobStore ExecutorStore JobLifecycle.
From stdpp Require Import base option list strings gmap.

Open Scope string_scope.
Open Scope Z_scope.

(** ** Enqueue *)

Lemma new_job_queued now fresh orgID opts :
  job_wf (new_job now fresh orgID opts) /\ phase_of (new_job now fresh orgID opts) = Queued.
Proof.
  split; [|done]. unfold job_wf, new_job. simpl. repeat split; try done.
  destruct (0 <? eo_MaxAttempts opts) eqn:E; reflect_bools; lia.
Qed.

Lemma enqueue_step now fresh orgID opts db db' id :
  enqueueOn now fresh orgID opts db = Ok (db', id) -> queue_step None (jobs db) (jobs db').
Proof.
  unfold enqueueOn. intros H. split_ifs; simplify_eq/=; [by apply queue_idle|].
  match goal with E : exists_row _ _ = false |- _ => rename E into Hnone end.
  apply queue_insert; [| |apply new_job_queued..]; simpl.
  - intros (j & Hid & Hin)%in_map_iff. apply (exists_row_none _ _ j Hnone) in Hin. by reflect_bools.
  - apply exists_row_false. intros j Hin. apply (exists_row_none _ _ j Hnone) in Hin. by reflect_bools.
Qed.
#[export] Hint Resolve enqueue_step : plane.

Lemma reconciliation_step now fresh orgID opts db db' id :
  EnqueuePullRequestReconciliationOnce now fresh orgID opts db = Ok (db', id) ->
  queue_step None (jobs db) (jobs db').
Proof.
  unfold EnqueuePullRequestReconciliationOnce. intros H.
  destruct (eo_DedupeKey opts); [|done]. split_ifs; simplify_eq; eauto with plane.
Qed.

Lemma queue_pr_step now fresh orgID sessionID changesetID q p pr db db' r :
  QueueChangesetPRCreation now fresh orgID sessionID changesetID q p pr db = Ok (db', r) ->
  queue_step None (jobs db) (jobs db').
Proof.
  unfold QueueChangesetPRCreation. intros H.
  repeat (case_match; simplify_eq/=); eauto with plane;
    match goal with E : enqueueOn _ _ _ _ _ = Ok _ |- _ => exact (enqueue_step _ _ _ _ _ _ _ E) end.
Qed.
#[export] Hint Resolve reconciliation_step queue_pr_step : plane.

Lemma cancel_step now orgID q key db :
  queue_step None (jobs db) (jobs (CancelActiveCodeReviewPreparation now orgID q key db).1).
Proof.
  apply queue_write. split; try done; [|by right; left].
  intros j _ Hp Hwf. reflect_bools. split.
  - apply release_wf; simpl; [done|apply Hwf..].
  - unfold job_active in *. unfold cancel_job, phase_of. simpl.
    destruct (j_status j); try done; constructor.
Qed.

(** ** Claim *)

Section Claim.
Variables (now wall : time) (nodeID ownerID : string) (tok : uuid) (lease : duration).
Variables (locked : uuid -> bool) (db : DB).

Lemma next_job_pending j : next_job now wall nodeID locked db = Some j ->
  In j (jobs db) /\ claimable now (dead_before wall) nodeID db j = true.
Proof.
  unfold next_job. intros H. case_match; [|done].
  apply head_Some in H as [l Hl].
  assert (In j (order_by claim_le (select (fun j => claimable now (dead_before wall) nodeID db j
    && negb (locked (j_id j))) (jobs db)))) as Hin by (rewrite Hl; by left).
  apply in_order_by, in_filter_iff in Hin as [Hin Hc]. by reflect_bools.
Qed.

Lemma claim_step db' r : List.NoDup (map j_id (jobs db)) ->
  ClaimNextRunnable now wall nodeID ownerID tok lease locked db = Ok (db', r) ->
  queue_step (match r with Some _ => Some (tok, nodeID) | None => None end) (jobs db) (jobs db').
Proof.
  unfold ClaimNextRunnable. intros Hids H.
  destruct (next_job now wall nodeID locked db) as [next|] eqn:Hn; [|simplify_eq; by apply queue_idle].
  apply next_job_pending in Hn as [Hin Hc]. unfold update_jobs in H. case_match; [|done].
  case_match; simplify_eq/=. unfold claimable in Hc. reflect_bools.
  assert (Hsame : forall i, In i (jobs db) -> (j_id i ==? j_id next) = true -> i = next).
  { intros i Hi E. reflect_bools. by apply (map_key_inj j_id (jobs db)). }
  apply queue_write. split; try done.
  - intros i Hi Hp Hwf. rewrite (Hsame i Hi Hp) in *.
    unfold job_wf, phase_of in *. simpl. destruct Hwf as [_ [? ?]].
    split; [repeat split; eauto; lia|].
    destruct (j_status next); try done. by eapply phase_claim.
  - intros i Hi Hp. right; right. eauto.
  - intros c i j _ Hi Hj Hpi Hpj. rewrite (Hsame i Hi Hpi), (Hsame j Hj Hpj). done.
Qed.
End Claim.

(** ** Fenced writes *)

Lemma guarded_step db p f db' : HolderWrite f ->
  (forall j, p j = true -> j_status j = JobStatusRunning) ->
  update_jobs db p f = Ok db' -> queue_step None (jobs db) (jobs db').
Proof.
  unfold update_jobs. intros Hf Hp H. case_match; simplify_eq/=. apply holder_step; eauto.
Qed.

Lemma handoff_step now orgID jobID tok ex db db' r :
  HandoffToSessionExecutorWithLease now orgID jobID tok ex db = Ok (db', r) ->
  queue_step None (jobs db) (jobs db').
Proof.
  unfold HandoffToSessionExecutorWithLease. intros H. case_match eqn:E; simplify_eq/=.
  refine (guarded_step _ _ _ _ (hw_handoff now ex) _ E). intros j Hj. reflect_bools.
  match goal with O : owns _ _ _ = true |- _ => apply owns_running in O; tauto end.
Qed.
#[export] Hint Resolve handoff_step : plane.

Lemma window_step now jobID tok startedAt db :
  queue_step None (jobs db) (jobs (EnsureRetryWindowStartedAtWithLease now jobID tok startedAt db).1).
Proof. exact (fenced_step jobID tok _ db (hw_window_start now startedAt)). Qed.

Lemma record_attempt_step now clock org job tok s th rt rtok m ids db :
  queue_step None (jobs db)
    (jobs (RecordContinuationAttemptWithLease now clock org job tok s th rt rtok m ids db).1).
Proof.
  apply (holder_step _ _ _ (hw_record now th rt m ids)). intros j _ Hj. unfold attempt_recordable in Hj. reflect_bools. done.
Qed.

Lemma terminalize_step now reason target db :
  (forall j, target j = true -> j_status j = JobStatusRunning) ->
  queue_step None (jobs db) (jobs (terminalize now reason target db)).
Proof. intros H. apply (holder_step _ target _ (hw_fail_job now reason)). auto. Qed.

Lemma renew_step now jobID tok lease p db :
  (forall j, p j = true -> owns jobID tok j = true) ->
  queue_step None (jobs db) (jobs (renew_where now jobID tok lease p db).1).
Proof.
  intros Hp. unfold renew_where. case_match; simpl.
  - apply (holder_step _ p _ (hw_renew now _)). intros j _ Hj. apply Hp, owns_running in Hj. tauto.
  - apply terminalize_step. intros j Hj. reflect_bools.
    match goal with O : owns _ _ _ = true |- _ => apply owns_running in O; tauto end.
Qed.

Lemma renew_lease_step now jobID tok lease db :
  queue_step None (jobs db) (jobs (RenewLease now jobID tok lease db).1).
Proof. apply renew_step. intros j Hj. by reflect_bools. Qed.

Lemma renew_executor_lease_step now org jobID tok ex lease db :
  queue_step None (jobs db) (jobs (RenewLeaseForSessionExecutor now org jobID tok ex lease db).1).
Proof. apply renew_step. intros j Hj. by reflect_bools. Qed.

Lemma terminalize_session_step now org s reason db :
  queue_step None (jobs db) (jobs (TerminalizeRunningSessionJobs now org s reason db).1).
Proof. apply terminalize_step. intros j Hj. by reflect_bools. Qed.
#[export] Hint Resolve cancel_step window_step record_attempt_step renew_lease_step
  renew_executor_lease_step terminalize_session_step : plane.

(** ** Reclaim and retention *)

Lemma requeue_lost_step now reason marked picked db :
  (forall j, In j (jobs db) -> picked j = true -> j_status j = JobStatusRunning) ->
  queue_step None (jobs db) (jobs (requeue_lost now reason marked picked db)).
Proof. intros H. exact (holder_step _ picked _ (hw_requeue now db reason now) H). Qed.

(** A row named by id among rows of the table is that row. *)
Lemma job_in_row t l j : List.NoDup (map j_id t) -> (forall c, In c l -> In c t) ->
  In j t -> job_in l j = true -> In j l.
Proof.
  unfold job_in. intros Hids Hsub Hin (c & Hc & E)%existsb_exists. reflect_bools.
  replace j with c; [done|]. by apply (map_key_inj j_id t); auto.
Qed.

Lemma reclaimable_lost now staleBefore n locked db j :
  In j (reclaimable now staleBefore n locked db) ->
  In j (jobs db) /\ job_lost now staleBefore db j = true /\ locked (j_id j) = false.
Proof.
  unfold reclaimable, reclaim_eligible, reclaim_candidates. intros Hin.
  apply in_limit, in_order_by, in_filter_iff in Hin as [Hin Hl].
  apply in_filter_iff in Hin as [Hin _]. apply in_filter_iff in Hin as [Hin Hlost]. by reflect_bools.
Qed.

Lemma session_reclaimable_lost now org s staleBefore n locked db j :
  In j (session_reclaimable now org s staleBefore n locked db) ->
  In j (jobs db) /\ job_lost now staleBefore db j = true.
Proof.
  unfold session_reclaimable. intros Hin.
  apply in_limit, in_order_by, in_filter_iff in Hin as [Hin Hl]. by reflect_bools.
Qed.

Lemma job_lost_running now staleBefore db j :
  job_lost now staleBefore db j = true -> j_status j = JobStatusRunning.
Proof. unfold job_lost. intros H. by reflect_bools. Qed.

Lemma stale_active_pair now staleBefore n locked p db e j :
  In (e, j) (stale_active now staleBefore n locked p db) ->
  In e (session_executors db) /\ In j (jobs db) /\ j_id j = se_job_id e /\ j_org_id j = se_org_id e
  /\ p e = true /\ executor_active e = true /\ stale_pair now e j = true
  /\ col_lt (se_heartbeat_at e) staleBefore = true.
Proof.
  unfold stale_active. intros Hin.
  apply in_limit, in_order_by, in_filter_iff in Hin as [Hin Hc].
  apply in_prod_iff in Hin as [? ?]. reflect_bools. naive_solver.
Qed.

Lemma lost_job_running now staleBefore n locked p db j : List.NoDup (map j_id (jobs db)) ->
  In j (jobs db) -> lost_job (stale_active now staleBefore n locked p db) j = true ->
  j_status j = JobStatusRunning.
Proof.
  unfold lost_job. intros Hids Hin ([e j0] & Hej & Hc)%existsb_exists.
  apply stale_active_pair in Hej as (_ & Hj0 & Hid & _). unfold lost_pair in Hc. simpl in Hc.
  reflect_bools. replace j with j0; [done|]. apply (map_key_inj j_id (jobs db)); auto; congruence.
Qed.

Section Reclaim.
Variable db : DB.
Hypothesis ids : List.NoDup (map j_id (jobs db)).

Lemma reclaim_jobs_step now staleBefore n locked :
  queue_step None (jobs db) (jobs (ReclaimLostRunningJobs now staleBefore n locked db).1).
Proof.
  apply requeue_lost_step. intros j Hin Hp.
  apply (job_in_row (jobs db)) in Hp; auto; [|intros c Hc; by apply reclaimable_lost in Hc as [? _]].
  apply reclaimable_lost in Hp as (_ & Hl & _). by eapply job_lost_running.
Qed.

Lemma reclaim_session_jobs_step now org s staleBefore n locked :
  queue_step None (jobs db)
    (jobs (ReclaimLostRunningSessionJobsForSession now org s staleBefore n locked db).1).
Proof.
  apply requeue_lost_step. intros j Hin Hp.
  apply (job_in_row (jobs db)) in Hp; auto;
    [|intros c Hc; by apply session_reclaimable_lost in Hc as [? _]].
  apply session_reclaimable_lost in Hp as [_ Hl]. by eapply job_lost_running.
Qed.

Lemma reclaim_executors_step now staleBefore n locked :
  queue_step None (jobs db) (jobs (ReclaimLost now staleBefore n locked db).1).
Proof. apply requeue_lost_step. intros j Hin Hp. by eapply lost_job_running. Qed.

Lemma reclaim_session_executors_step now org s staleBefore n locked :
  queue_step None (jobs db) (jobs (ReclaimLostForSession now org s staleBefore n locked db).1).
Proof. apply requeue_lost_step. intros j Hin Hp. by eapply lost_job_running. Qed.

Lemma delete_expired_step batch now days retained locked :
  queue_step None (jobs db) (jobs (delete_expired batch now days retained locked db).1).
Proof.
  unfold delete_expired. case_match; simpl; [apply queue_idle|].
  apply queue_prune. intros j Hin Hp. apply negb_false_iff in Hp.
  set (doomed := limit batch _) in Hp.
  assert (Hd : forall c, In c doomed -> In c (jobs db) /\ expired_job now days retained db c = true).
  { subst doomed. intros c Hc.
    apply in_limit, in_order_by, in_filter_iff in Hc as [Hc He]. by reflect_bools. }
  apply (job_in_row (jobs db)) in Hp; auto; [|intros c Hc; by apply Hd].
  apply Hd in Hp as [_ He]. unfold expired_job, phase_of in *. reflect_bools.
  destruct (j_status j); simplify_eq/=; eauto; done.
Qed.

Lemma retention_step now days retained locked :
  queue_step None (jobs db) (jobs (DeleteExpiredCompleted now days retained locked db).1).
Proof. exact (delete_expired_step _ now days retained locked). Qed.
End Reclaim.

(** ** Writes of the automation turns *)

#[export] Instance hw_revoked now : HolderWrite (revoked now).
Proof. unfold revoked. holder_write. Qed.

Lemma revoke_step now org id db : queue_step None (jobs db) (jobs (RevokeAbandonedLease now org id db)).
Proof. apply (holder_step _ _ _ (hw_revoked now)). unfold revocable. intros j _ Hj. by reflect_bools. Qed.

Lemma reschedule_step now org key db :
  queue_step None (jobs db) (jobs (RescheduleActiveByDedupeKey now org key db).1).
Proof.
  apply queue_write. split; try done; auto. intros j _ _ Hw. split; [by destruct j|].
  replace (phase_of _) with (phase_of j) by by destruct j. constructor.
Qed.
#[export] Hint Resolve revoke_step reschedule_step : plane.

(** ** The operations of the queue *)

(** One write of [jobs] by the job store; the label is the token and node of
    a successful claim. *)
Inductive job_op (db : DB) : claim -> DB -> Prop :=
  | op_enqueue now fresh org opts db' id :
      EnqueueWithOpts now fresh org opts db = Ok (db', id) -> job_op db None db'
  | op_reconciliation now fresh org opts db' id :
      EnqueuePullRequestReconciliationOnce now fresh org opts db = Ok (db', id) -> job_op db None db'
  | op_queue_pr now fresh org s cs q p pr db' r :
      QueueChangesetPRCreation now fresh org s cs q p pr db = Ok (db', r) -> job_op db None db'
  | op_cancel now org q key :
      job_op db None (CancelActiveCodeReviewPreparation now org q key db).1
  | op_claim now wall node owner tok lease locked db' r :
      ClaimNextRunnable now wall node owner tok lease locked db = Ok (db', r) ->
      job_op db (match r with Some _ => Some (tok, node) | None => None end) db'
  | op_window now id tok t :
      job_op db None (EnsureRetryWindowStartedAtWithLease now id tok t db).1
  | op_record now clock org job tok s th rt rtok m ids :
      job_op db None (RecordContinuationAttemptWithLease now clock org job tok s th rt rtok m ids db).1
  | op_handoff now org id tok ex db' r :
      HandoffToSessionExecutorWithLease now org id tok ex db = Ok (db', r) -> job_op db None db'
  | op_renew now id tok lease : job_op db None (RenewLease now id tok lease db).1
  | op_renew_executor now org id tok ex lease :
      job_op db None (RenewLeaseForSessionExecutor now org id tok ex lease db).1
  | op_terminalize now org s reason : job_op db None (TerminalizeRunningSessionJobs now org s reason db).1
  | op_succeed now id tok : job_op db None (MarkSucceededWithLease now id tok db).1
  | op_fail now id tok msg : job_op db None (MarkFailedWithLease now id tok msg db).1
  | op_dead_letter now id tok msg : job_op db None (DeadLetterWithLease now id tok msg db).1
  | op_retry now id tok msg runAt : job_op db None (RetryWithLease now id tok msg runAt db).1
  | op_retry_target now id tok msg runAt node :
      job_op db None (RetryWithLeaseAndTarget now id tok msg runAt node db).1
  | op_refund now id tok msg runAt :
      job_op db None (RetryWithoutConsumingAttemptWithLease now id tok msg runAt db).1
  | op_refund_reset now id tok msg runAt :
      job_op db None (RetryWithoutConsumingAttemptWithLeaseAndResetWindow now id tok msg runAt db).1
  | op_refund_target now id tok msg runAt node :
      job_op db None (RetryWithoutConsumingAttemptWithLeaseAndTarget now id tok msg runAt node db).1
  | op_reclaim now staleBefore n locked :
      job_op db None (ReclaimLostRunningJobs now staleBefore n locked db).1
  | op_reclaim_session now org s staleBefore n locked :
      job_op db None (ReclaimLostRunningSessionJobsForSession now org s staleBefore n locked db).1
  | op_retention now days retained locked :
      job_op db None (DeleteExpiredCompleted now days retained locked db).1
  | op_revoke now org id : job_op db None (RevokeAbandonedLease now org id db)
  | op_reschedule now org key : job_op db None (RescheduleActiveByDedupeKey now org key db).1.

Lemma job_op_step db drawn db' : List.NoDup (map j_id (jobs db)) -> job_op db drawn db' ->
  queue_step drawn (jobs db) (jobs db').
Proof.
  intros Hids []; eauto using claim_step, reclaim_jobs_step, reclaim_session_jobs_step, retention_step
    with plane.
  - exact (fenced_step id tok _ db (hw_succeed now)).
  - exact (fenced_step id tok _ db (hw_fail now msg)).
  - exact (fenced_step id tok _ db (hw_dead_letter now msg)).
  - exact (fenced_step id tok _ db (hw_requeue now db msg runAt)).
  - exact (fenced_step id tok _ db (hw_target _ node (hw_requeue now db msg runAt))).
  - exact (fenced_step id tok _ db (hw_refund _ (hw_requeue now db msg runAt))).
  - exact (fenced_step id tok _ db (hw_window _ None (hw_refund _ (hw_requeue now db msg runAt)))).
  - exact (fenced_step id tok _ db (hw_target _ node (hw_refund _ (hw_requeue now db msg runAt)))).
Qed.

(** The tables the job store never writes. *)
Definition same_outside_jobs (db db' : DB) : Prop :=
  nodes db' = nodes db /\ thread_runtimes db' = thread_runtimes db
  /\ thread_inbox_entries db' = thread_inbox_entries db
  /\ worker_retirement_seals db' = worker_retirement_seals db /\ same_phases db db'.

Lemma job_op_frame db drawn db' : job_op db drawn db' -> same_outside_jobs db db'.
Proof.
  unfold same_outside_jobs, same_phases. intros []; try done;
    try match goal with
    | |- context [renew_where] => idtac
    | |- context [RenewLease] => unfold RenewLease, renew_where; by case_match
    | |- context [RenewLeaseForSessionExecutor] =>
        unfold RenewLeaseForSessionExecutor, renew_where; by case_match
    | |- context [DeleteExpiredCompleted] => idtac
    | H : _ = Ok _ |- _ =>
        unfold EnqueueWithOpts, EnqueuePullRequestReconciliationOnce, QueueChangesetPRCreation,
          HandoffToSessionExecutorWithLease, ClaimNextRunnable, enqueueOn, update_jobs in H;
        repeat (case_match; simplify_eq/=); done
    end.
  unfold DeleteExpiredCompleted, delete_expired. by case_match.
Qed.
