(* ===== verification/NodeSteps.v ===== *)
(** * Steps of the node registry

    The writes of [nodes] and of the retirement seals, the invariant they
    keep, and what a seal guarantees about job ownership. *)

From S2P Require Import Prelude Sql Tables JobStore NodeStore JobLifecycle JobSteps.
From stdpp Require Import base option list strings gmap.

Open Scope string_scope.
Open Scope Z_scope.

(** What a process does to its own row, and the stale-node scan. *)
Inductive process_op (db : DB) : DB -> Prop :=
  | op_register now m host db' : Register now m host db = Ok db' -> process_op db db'
  | op_heartbeat now m db' : HeartbeatOnce now m db = Ok db' -> process_op db db'
  | op_request_drain m t db' : (RequestDrain m t db).2 = Ok db' -> process_op db db'
  | op_stale staleBefore db' k : MarkStaleNodesDead staleBefore db = Ok (db', k) -> process_op db db'.

Inductive node_op (db : DB) : DB -> Prop :=
  | op_process db' : process_op db db' -> node_op db db'
  | op_resume now node reason by_ deploy db' :
      ResumeOnRestart now node reason by_ deploy db = Ok db' -> node_op db db'
  | op_drain now fresh p db' : MarkDraining now fresh p db = Ok db' -> node_op db db'
  | op_seal clock obs node deploy sha db' s :
      Seal clock obs node deploy sha db = Ok (db', s) -> node_op db db'.

(** ** The invariant *)

Definition sealed (db : DB) (node : string) : Prop :=
  exists s, In s (worker_retirement_seals db) /\ sl_node_id s = node.

Definition node_wf (n : Node) : Prop :=
  n_status n = NodeStatusActive -> n_drain_intent n = DrainIntentNone.

Record node_inv (db : DB) : Prop := {
  ni_ids : List.NoDup (map n_id (nodes db));
  ni_wf : Forall node_wf (nodes db);
  ni_named : ~ sealed db "";
  ni_sealed : forall n, In n (nodes db) -> sealed db (n_id n) -> n_drain_intent n <> DrainIntentNone
}.

(** No job is locked by a sealed generation. *)
Definition seal_inv (db : DB) : Prop :=
  forall j node, In j (jobs db) -> sealed db node -> j_locked_by_node_id j <> Some node.

Lemma admits_sealed db node : retirement_admits db (Some node) = true -> sealed db node -> node = "".
Proof.
  unfold retirement_admits. intros H (s & Hin & <-). apply orb_true_iff in H as [H|H]; reflect_bools; [done|].
  apply (exists_row_none _ _ s H) in Hin. by reflect_bools.
Qed.

(** ** Node writes *)

Lemma update_nodes_inv db p f db' : node_inv db -> update_nodes db p f = Ok db' ->
  (forall n, n_id (f n) = n_id n) -> (forall n, p n = true -> node_wf n -> node_wf (f n)) ->
  node_inv db'.
Proof.
  unfold update_nodes. intros [Hids Hwf Hnamed Hsealed] H Hid Hf. case_match eqn:Hg; simplify_eq/=.
  split; simpl.
  - by rewrite update_key.
  - apply Forall_update; auto.
  - done.
  - intros n' (n & Hin & ->)%in_update_image Hs.
    assert (sealed db (n_id n)) as Hsn by (destruct (p n); [rewrite <- (Hid n)|]; exact Hs).
    specialize (Hsealed n Hin Hsn). destruct (p n) eqn:Hp; [|done]. intros Hnone.
    rewrite forallb_forall in Hg. specialize (Hg n Hin). rewrite Hp in Hg. simpl in Hg.
    unfold guard_worker_retirement_node in Hg.
    rewrite (bool_decide_eq_true_2 (n_drain_intent (f n) = _) Hnone), orb_true_r in Hg.
    rewrite (bool_decide_eq_false_2 (n_drain_intent (f n) = n_drain_intent n)), orb_true_r in Hg
      by congruence.
    apply Hnamed. rewrite <- (admits_sealed db (n_id n)); [done| |done]. by rewrite <- (Hid n).
Qed.

Lemma update_nodes_frame db p f db' : update_nodes db p f = Ok db' ->
  jobs db' = jobs db /\ worker_retirement_seals db' = worker_retirement_seals db
  /\ session_executors db' = session_executors db /\ thread_runtimes db' = thread_runtimes db
  /\ thread_inbox_entries db' = thread_inbox_entries db /\ nodes db' = update p f (nodes db) /\ same_phases db db'.
Proof. unfold update_nodes. intros H. by case_match; simplify_eq/=. Qed.

Lemma insert_node_inv db n : node_inv db -> retirement_admits db (Some (n_id n)) = true ->
  node_wf n -> exists_row (fun m => n_id m ==? n_id n) (nodes db) = false ->
  node_inv (db <| nodes := (nodes db ++ [n])%list |>).
Proof.
  intros [Hids Hwf Hnamed Hsealed] Ha Hn Hnew. split; simpl.
  - rewrite map_app. simpl. apply List.NoDup_app; [done|repeat constructor; auto|].
    intros x (m & <- & Hm)%in_map_iff [E|[]]. apply (exists_row_none _ _ m Hnew) in Hm. by reflect_bools.
  - apply Forall_app. auto.
  - done.
  - intros m Hm Hs. apply in_app_iff in Hm as [Hm|[<-|[]]]; [by apply Hsealed|].
    exfalso. apply Hnamed. rewrite <- (admits_sealed db (n_id n)); done.
Qed.

Lemma process_op_inv db db' : node_inv db -> process_op db db' -> node_inv db'.
Proof.
  intros Hinv []; simplify_eq/=.
  - unfold Register in *. split_ifs; simplify_eq.
    + eapply update_nodes_inv; eauto. intros n _ _. unfold node_wf. simpl.
      case_match; [done|]. intros _. by reflect_bools.
    + apply insert_node_inv; auto; [by reflect_bools|done].
  - eapply update_nodes_inv; eauto. intros n _ _. unfold node_wf. simpl.
    case_match eqn:E; [done|]. intros _. by reflect_bools.
  - eapply update_nodes_inv; eauto; done.
  - unfold MarkStaleNodesDead in *. case_match eqn:E; simplify_eq. eapply update_nodes_inv; eauto; done.
Qed.

(** ** Sealing *)

Lemma seal_cases clock obs node deploy sha db db' s :
  Seal clock obs node deploy sha db = Ok (db', s) ->
  db' = db \/ (db' = db <| worker_retirement_seals := (worker_retirement_seals db ++ [s])%list |>
    /\ sl_node_id s = node /\ blank node = false /\ CountRunningOwnedByNode db node = 0
    /\ exists n, In n (nodes db) /\ n_id n = node /\ planned_drain clock deploy sha db n = true).
Proof.
  unfold Seal. intros H. destruct (blank node || blank deploy || blank sha) eqn:Hb in H; [done|].
  destruct (readNodeRetirementSeal _ _ _ _) as [[s0|]|]; simplify_eq/=; [by left|].
  destruct (select _ (nodes db)) as [|n l] eqn:Hsel; [done|].
  destruct (planned_drain _ _ _ _ n) eqn:Hd; [|done]. simpl in H.
  unfold worker_deploy_status in H. rewrite Hsel in H. simpl in H.
  split_ifs; [done|done|simplify_eq/=]. right. reflect_bools.
  assert (In n (List.filter (fun n => n_id n ==? node) (nodes db))) as Hin.
  { unfold select in Hsel. rewrite Hsel. by left. }
  apply in_filter_iff in Hin as [Hin E]. reflect_bools. do 3 (split; [done|]). split; [by apply Z.eqb_eq|]. by exists n.
Qed.

Lemma sealed_app db s node :
  sealed (db <| worker_retirement_seals := (worker_retirement_seals db ++ [s])%list |>) node ->
  sealed db node \/ node = sl_node_id s.
Proof.
  intros (s' & Hin & <-). simpl in Hin. apply in_app_iff in Hin as [Hin|[<-|[]]]; [left|by right].
  by exists s'.
Qed.

Lemma seal_keeps_nodes clock obs node deploy sha db db' s : node_inv db ->
  Seal clock obs node deploy sha db = Ok (db', s) -> node_inv db'.
Proof.
  intros Hinv H. apply seal_cases in H as [->|(-> & Hs & Hb & _ & n & Hin & Hid & Hd)]; [done|].
  pose proof Hinv as [Hids Hwf Hnamed Hsealed]. split; simpl; [done|done| |].
  - intros [?|E]%sealed_app; [done|]. rewrite Hs in E. by rewrite <- E in Hb.
  - intros m Hm [?|E]%sealed_app; [by apply Hsealed|].
    replace m with n by (apply (map_key_inj n_id (nodes db)); auto; congruence).
    unfold planned_drain in Hd. reflect_bools. congruence.
Qed.

Lemma seal_keeps_jobs clock obs node deploy sha db db' s : Forall job_wf (jobs db) -> seal_inv db ->
  Seal clock obs node deploy sha db = Ok (db', s) -> seal_inv db'.
Proof.
  intros Hwf Hinv H. apply seal_cases in H as [->|(-> & Hs & _ & Hc & _)]; [done|].
  intros j nd Hj [?|E]%sealed_app; [by apply Hinv|]. simpl in Hj. intros Hl.
  unfold CountRunningOwnedByNode in Hc. apply count_rows_0 in Hc.
  apply (exists_row_none _ _ j Hc) in Hj as Hno. rewrite List.Forall_forall in Hwf.
  specialize (Hwf j Hj). unfold job_wf in Hwf.
  destruct (j_status j) eqn:Est; try (destruct Hwf as [(Hn & _) _]; congruence).
  unfold col_is in Hno. by rewrite !bool_decide_eq_true_2 in Hno by congruence.
Qed.

Lemma node_op_inv db db' : node_inv db -> node_op db db' -> node_inv db'.
Proof.
  intros Hinv []; eauto using process_op_inv, seal_keeps_nodes.
  - unfold ResumeOnRestart in *. case_match; [done|]. case_match eqn:E; [|done].
    case_match; simplify_eq.
    enough (node_inv a) as [] by (by split).
    eapply update_nodes_inv; eauto. intros n _ _. unfold node_wf. simpl. by case_match.
  - unfold MarkDraining in *. case_match; [done|]. case_match eqn:E; [|done].
    case_match; simplify_eq.
    enough (node_inv a) as [] by (by split). eapply update_nodes_inv; eauto. done.
Qed.

(** Node writes leave the other tables alone, and only [Seal] adds a seal. *)
Ltac node_frame :=
  repeat match goal with
  | E : update_nodes _ _ _ = Ok _ |- _ => apply update_nodes_frame in E as (? & ? & ? & ? & ? & ? & ?)
  | E : HeartbeatOnce _ _ _ = Ok _ |- _ => unfold HeartbeatOnce in E
  | E : MarkStaleNodesDead _ _ = Ok _ |- _ => unfold MarkStaleNodesDead in E
  | E : Register _ _ _ _ = Ok _ |- _ => unfold Register in E
  | E : ResumeOnRestart _ _ _ _ _ _ = Ok _ |- _ => unfold ResumeOnRestart in E
  | E : MarkDraining _ _ _ _ = Ok _ |- _ => unfold MarkDraining in E
  | _ => case_match; simplify_eq/=
  end.

Lemma node_op_frame db db' : node_op db db' ->
  (jobs db' = jobs db /\ session_executors db' = session_executors db
   /\ thread_runtimes db' = thread_runtimes db /\ thread_inbox_entries db' = thread_inbox_entries db
   /\ same_phases db db')
  /\ (worker_retirement_seals db' = worker_retirement_seals db
      \/ exists clock obs node deploy sha s, Seal clock obs node deploy sha db = Ok (db', s)).
Proof.
  intros [? []|? ? ? ? ? ? H|? ? ? ? H|? ? ? ? ? ? ? H]; simplify_eq/=.
  1-6: node_frame; auto 10; by repeat split; auto.
  split; [|right; eauto 10]. apply seal_cases in H as [->|(-> & _)]; done.
Qed.

Ltac node_row Hin :=
  match goal with E : nodes _ = update _ _ _ |- _ => rewrite E in Hin end;
  apply in_update_image in Hin as (n & Hn & ->).

(** Processes never change an operator's drain intent. *)
Lemma process_op_intent db db' n' : process_op db db' -> In n' (nodes db') ->
  (exists n, In n (nodes db) /\ n_id n = n_id n' /\ n_drain_intent n' = n_drain_intent n
             /\ (n_drain_intent n <> DrainIntentNone -> n_status n' = NodeStatusActive ->
                  n_status n = NodeStatusActive))
  \/ (n_drain_intent n' = DrainIntentNone /\ ~ In (n_id n') (map n_id (nodes db))).
Proof.
  intros Hop Hin. destruct Hop; simplify_eq/=.
  - unfold Register in *. split_ifs; simplify_eq.
    + node_frame. node_row Hin. left.
      exists n. case_match; [|naive_solver]. simpl. repeat split; auto.
      intros Hd. by rewrite (bool_decide_eq_false_2 _ Hd).
    + simpl in Hin. apply in_app_iff in Hin as [Hin|[<-|[]]]; [left; by exists n'|right].
      split; [done|]. simpl. intros (x & E & Hx)%in_map_iff.
      match goal with E : exists_row _ _ = false |- _ => apply (exists_row_none _ _ x E) in Hx end.
      by reflect_bools.
  - unfold HeartbeatOnce in *. apply update_nodes_frame in H as (_ & _ & _ & _ & _ & H & _). node_row Hin.
    left. exists n. destruct (n_id n ==? nm_nodeID m); [|naive_solver]. simpl. repeat split; auto.
    intros Hd. by rewrite (bool_decide_eq_false_2 _ Hd).
  - node_frame. node_row Hin. left. exists n. case_match; naive_solver.
  - node_frame. node_row Hin. left. exists n. case_match; naive_solver.
Qed.
