(* ===== verification/ExecutorSteps.v ===== *)
(** * Steps of the executor table

    How one statement may change [session_executors], the invariant this
    keeps, and the operations that perform such steps. *)

From S2P Require Import Prelude Sql Tables Continuation JobStore ExecutorStore JobLifecycle JobSteps.
From stdpp Require Import base option list strings gmap.

Open Scope string_scope.
Open Scope Z_scope.

(** An executor has completed exactly when it is no longer active. *)
Definition executor_wf (e : SessionExecutor) : Prop :=
  executor_active e = true <-> se_completed_at e = None.

(** The partial unique indexes on active executors. *)
Definition one_active_executor (t : list SessionExecutor) : Prop :=
  forall a b, In a t -> In b t -> executor_active a = true -> executor_active b = true ->
    se_org_id a = se_org_id b -> se_session_id a = se_session_id b -> se_thread_id a = se_thread_id b ->
    a = b.

Record executors_inv (t : list SessionExecutor) : Prop := {
  xi_ids : List.NoDup (map se_id t);
  xi_wf : Forall executor_wf t;
  xi_slots : one_active_executor t
}.

(** Writes touch active executors only and keep their identity. *)
Record executor_write (t : list SessionExecutor) (p : SessionExecutor -> bool)
    (f : SessionExecutor -> SessionExecutor) : Prop := {
  xw_id : forall e, se_id (f e) = se_id e;
  xw_org : forall e, se_org_id (f e) = se_org_id e;
  xw_session : forall e, se_session_id (f e) = se_session_id e;
  xw_thread : forall e, se_thread_id (f e) = se_thread_id e;
  xw_live : forall e, In e t -> p e = true -> executor_active e = true;
  xw_wf : forall e, In e t -> p e = true -> executor_wf e -> executor_wf (f e)
}.

Inductive executors_step : list SessionExecutor -> list SessionExecutor -> Prop :=
  | executors_idle t : executors_step t t
  | executors_write t p f : executor_write t p f -> executors_step t (update p f t)
  | executors_insert t e : ~ In (se_id e) (map se_id t) -> executor_wf e ->
      (forall a, In a t -> executor_active a = true ->
         same_slot (se_org_id e) (se_session_id e) (se_thread_id e) a = false) ->
      executors_step t (t ++ [e])%list
  | executors_trans t1 t2 t3 : executors_step t1 t2 -> executors_step t2 t3 -> executors_step t1 t3.
#[export] Hint Constructors executors_step : plane.

Lemma executors_step_inv t t' : executors_inv t -> executors_step t t' -> executors_inv t'.
Proof.
  intros Hinv Hs. induction Hs as [t|t p f Hw|t e Hid Hwf Hslot|? ? ? ? IH1 ? IH2]; auto.
  - destruct Hinv as [Hids Hwf Hslots]. split.
    + rewrite update_key; [done|apply (xw_id _ _ _ Hw)].
    + apply Forall_update; [|done]. intros e ? ? ?. by apply (xw_wf _ _ _ Hw).
    + intros a' b' (a & Ha & ->)%in_update_image (b & Hb & ->)%in_update_image Haa Hba Ho Hse Ht.
      assert (a = b) as ->; [|done].
      apply Hslots; auto; destruct (p a) eqn:Ea, (p b) eqn:Eb;
        rewrite ?(xw_org _ _ _ Hw), ?(xw_session _ _ _ Hw), ?(xw_thread _ _ _ Hw) in *;
        eauto using xw_live.
  - destruct Hinv as [Hids Hwfs Hslots]. split.
    + rewrite map_app. simpl. apply List.NoDup_app; [done|repeat constructor; auto|].
      intros x Hx [<-|[]]. auto.
    + apply Forall_app. auto.
    + assert (Hno : forall a, In a t -> executor_active a = true -> se_org_id a = se_org_id e ->
        se_session_id a = se_session_id e -> se_thread_id a = se_thread_id e -> False).
      { intros a Ha Haa Ho Hse Ht. specialize (Hslot a Ha Haa). unfold same_slot in Hslot.
        by rewrite !bool_decide_eq_true_2 in Hslot by done. }
      intros a b Ha Hb Haa Hba Ho Hse Ht.
      apply in_app_iff in Ha as [Ha|[<-|[]]]; apply in_app_iff in Hb as [Hb|[<-|[]]]; auto.
      * exfalso. by apply (Hno a).
      * exfalso. by apply (Hno b).
Qed.

(** A completed executor row is never written again. *)
Lemma executors_step_done t t' e : executors_step t t' -> In e t -> executor_active e = false -> In e t'.
Proof.
  induction 1 as [t|t p f Hw|t x|]; intros Hin Hd; auto.
  - apply in_update. exists e. split; [done|]. right. split; [|done].
    destruct (p e) eqn:E; [|done]. rewrite (xw_live _ _ _ Hw e Hin E) in Hd. done.
  - apply in_app_iff. by left.
Qed.

(** ** The operations *)

Ltac executor_write :=
  split; try done; intros e ?; unfold owns_executor, executor_attaching, executor_wf, executor_active;
  intros; reflect_bools; simpl in *; repeat case_match; simplify_eq/=; reflect_bools; naive_solver.

Lemma fenced_executor_step p f db : executor_write (session_executors db) p f ->
  executors_step (session_executors db) (session_executors (fenced_executor p f db).1).
Proof. intros Hw. by apply executors_write. Qed.

Lemma create_executor_step now fresh orgID p db db' id :
  CreateStarting now fresh orgID p db = Ok (db', id) ->
  executors_step (session_executors db) (session_executors db').
Proof.
  unfold CreateStarting. intros H. case_match eqn:E; simplify_eq/=. reflect_bools.
  apply executors_insert; simpl; [| |].
  - intros (e & Hid & Hin)%in_map_iff. apply (exists_row_none _ _ e H) in Hin. by reflect_bools.
  - done.
  - intros a Ha Haa. apply (exists_row_none _ _ a H) in Ha. reflect_bools.
    rewrite Haa in *. done.
Qed.

(** Of one stale pair, the job decides whether the executor is lost or an
    orphan, never both. *)
Lemma stale_pair_exclusive now staleBefore n locked p db x y :
  List.NoDup (map j_id (jobs db)) -> List.NoDup (map se_id (session_executors db)) ->
  In x (select lost_pair (stale_active now staleBefore n locked p db)) ->
  In y (select orphan_pair (stale_active now staleBefore n locked p db)) ->
  se_id x.1 = se_id y.1 -> False.
Proof.
  intros Hj He [Hx Hlx]%in_filter_iff [Hy Hly]%in_filter_iff Hid.
  destruct x as [e j], y as [e' j']. apply stale_active_pair in Hx as (Hex & Hjx & Hjid & _).
  apply stale_active_pair in Hy as (Hey & Hjy & Hjid' & _). simpl in Hid.
  assert (e' = e) as -> by (symmetry; by apply (map_key_inj se_id (session_executors db))).
  assert (j' = j) as -> by (apply (map_key_inj j_id (jobs db)); auto; congruence).
  unfold lost_pair, orphan_pair, job_finished in *. simpl in *. reflect_bools.
  apply orb_true_iff in Hly as [Hly|Hly]; reflect_bools; [congruence|].
  match goal with H : j_status j = _ |- _ => by rewrite H in Hly end.
Qed.

Lemma settle_step now staleBefore n locked p db :
  List.NoDup (map j_id (jobs db)) -> List.NoDup (map se_id (session_executors db)) ->
  executors_step (session_executors db)
    (settle_executors now (stale_active now staleBefore n locked p db) (session_executors db)).
Proof.
  intros Hj He. unfold settle_executors.
  set (stale := stale_active now staleBefore n locked p db).
  assert (Hlive : forall q e, In e (session_executors db) -> executor_in (select q stale) e = true ->
    executor_active e = true).
  { unfold executor_in. intros q e Hin (ej & Hej & E)%existsb_exists. reflect_bools.
    apply in_filter_iff in Hej as [Hej _]. destruct ej as [e' j]. simpl in E.
    apply stale_active_pair in Hej as (Hin' & _ & _ & _ & _ & Ha & _).
    replace e with e'; [done|]. by apply (map_key_inj se_id (session_executors db)). }
  eapply executors_trans; apply executors_write; split; try done.
  - intros e ? ?. eauto.
  - intros e' (e & Hin & ->)%in_update_image Hl.
    destruct (executor_in (select orphan_pair stale) e) eqn:Ho; [|eauto].
    exfalso. unfold executor_in in Hl, Ho. apply existsb_exists in Hl as (x & Hx & Ex).
    apply existsb_exists in Ho as (y & Hy & Ey). reflect_bools. simpl in Ex.
    eapply stale_pair_exclusive; [exact Hj|exact He|exact Hx|exact Hy|congruence].
Qed.

Lemma terminalize_executors now reason target db :
  executors_step (session_executors db) (session_executors (terminalize now reason target db)).
Proof. apply executors_write. split; try done. intros e ? ?. by reflect_bools. Qed.

Lemma job_op_executors db drawn db' : job_op db drawn db' ->
  executors_step (session_executors db) (session_executors db').
Proof.
  intros []; try apply executors_idle.
  - unfold EnqueueWithOpts, enqueueOn in *. split_ifs; simplify_eq/=; apply executors_idle.
  - unfold EnqueuePullRequestReconciliationOnce, enqueueOn in *.
    repeat (case_match; simplify_eq/=); apply executors_idle.
  - unfold QueueChangesetPRCreation, enqueueOn in *.
    repeat (case_match; simplify_eq/=); apply executors_idle.
  - unfold ClaimNextRunnable, update_jobs in *. repeat (case_match; simplify_eq/=); apply executors_idle.
  - unfold HandoffToSessionExecutorWithLease, update_jobs in *.
    repeat (case_match; simplify_eq/=); apply executors_idle.
  - unfold RenewLease, renew_where. case_match; [apply executors_idle|apply terminalize_executors].
  - unfold RenewLeaseForSessionExecutor, renew_where.
    case_match; [apply executors_idle|apply terminalize_executors].
  - apply terminalize_executors.
  - unfold DeleteExpiredCompleted, delete_expired. case_match; apply executors_idle.
Qed.

Inductive executor_op (db : DB) : DB -> Prop :=
  | op_clear now org s job : executor_op db (ClearPreHandoffReservation now org s job db).1
  | op_create now fresh org p db' id :
      CreateStarting now fresh org p db = Ok (db', id) -> executor_op db db'
  | op_container now org id tok c : executor_op db (RecordContainerIDWithLease now org id tok c db).1
  | op_executor_heartbeat now org id tok lease :
      executor_op db (HeartbeatWithLease now org id tok lease db).1
  | op_running now org id tok lease : executor_op db (MarkRunningWithLease now org id tok lease db).1
  | op_draining now org id tok : executor_op db (MarkDrainingWithLease now org id tok db).1
  | op_budget clock now node grace db' k :
      MarkDeployBudgetExpiredByNode clock now node grace db = Ok (db', k) -> executor_op db db'
  | op_human_input now org job tok : executor_op db (MarkHumanInputCheckpointByJob now org job tok db).1
  | op_terminal now org id tok status code err db' r :
      MarkTerminalWithLease now org id tok status code err db = Ok (db', r) -> executor_op db db'
  | op_reclaim_lost now staleBefore n locked :
      executor_op db (ReclaimLost now staleBefore n locked db).1
  | op_reclaim_lost_session now org s staleBefore n locked :
      executor_op db (ReclaimLostForSession now org s staleBefore n locked db).1.

Lemma executor_op_step db db' : List.NoDup (map j_id (jobs db)) ->
  List.NoDup (map se_id (session_executors db)) -> executor_op db db' ->
  executors_step (session_executors db) (session_executors db').
Proof.
  intros Hj He []; eauto using create_executor_step.
  - apply executors_write. executor_write.
  - apply fenced_executor_step. executor_write.
  - apply executors_write. executor_write.
  - apply fenced_executor_step. executor_write.
  - apply fenced_executor_step. executor_write.
  - unfold MarkDeployBudgetExpiredByNode in *. case_match; simplify_eq/=.
    apply executors_write. executor_write.
  - apply executors_write. executor_write.
  - unfold MarkTerminalWithLease in *. case_match eqn:Et; simplify_eq/=.
    apply executors_write. unfold terminal_executor_status in Et. destruct status; try done; executor_write.
  - by apply settle_step.
  - by apply settle_step.
Qed.

Lemma executor_op_jobs db db' : List.NoDup (map j_id (jobs db)) -> executor_op db db' ->
  queue_step None (jobs db) (jobs db').
Proof.
  intros Hids []; try apply queue_idle.
  - unfold CreateStarting in *. case_match; simplify_eq/=. apply queue_idle.
  - unfold MarkDeployBudgetExpiredByNode in *. case_match; simplify_eq/=. apply queue_idle.
  - unfold MarkTerminalWithLease in *. case_match; simplify_eq/=. apply queue_idle.
  - by apply reclaim_executors_step.
  - by apply reclaim_session_executors_step.
Qed.

Lemma executor_op_frame db db' : executor_op db db' ->
  nodes db' = nodes db /\ worker_retirement_seals db' = worker_retirement_seals db /\ same_phases db db'.
Proof.
  intros []; try done.
  - unfold CreateStarting in *. by case_match; simplify_eq/=.
  - unfold MarkDeployBudgetExpiredByNode in *. by case_match; simplify_eq/=.
  - unfold MarkTerminalWithLease in *. by case_match; simplify_eq/=.
Qed.
