(* ===== verification/RuntimeSteps.v ===== *)
(** * Steps of the runtime table

    How one statement may change [thread_runtimes], and the operations that
    perform such steps. *)

From S2P Require Import Prelude Sql Tables JobStore ExecutorStore ThreadRuntimeStore ThreadInboxStore.
From S2P Require Import JobLifecycle JobSteps ExecutorSteps.
From stdpp Require Import base option list strings gmap.

Open Scope string_scope.
Open Scope Z_scope.

(** A runtime is closed exactly when it is no longer active, and its cursors
    are not negative. *)
Definition runtime_wf (r : ThreadRuntime) : Prop :=
  (runtime_active r = true <-> tr_closed_at r = None)
  /\ 0 <= tr_last_delivered_sequence r /\ 0 <= tr_last_acked_sequence r.

(** idx_thread_runtimes_one_active. *)
Definition one_active_runtime (t : list ThreadRuntime) : Prop :=
  forall a b, In a t -> In b t -> runtime_active a = true -> runtime_active b = true ->
    tr_org_id a = tr_org_id b -> tr_thread_id a = tr_thread_id b -> a = b.

Record runtimes_inv (t : list ThreadRuntime) : Prop := {
  ri_ids : List.NoDup (map tr_id t);
  ri_wf : Forall runtime_wf t;
  ri_threads : one_active_runtime t
}.

(** What a write keeps of a runtime: its identity, its lease token and the
    acknowledged prefix. *)
Record runtime_kept (r r' : ThreadRuntime) : Prop := {
  rk_id : tr_id r' = tr_id r;
  rk_org : tr_org_id r' = tr_org_id r;
  rk_thread : tr_thread_id r' = tr_thread_id r;
  rk_token : tr_lease_token r' = tr_lease_token r;
  rk_acked : tr_last_acked_sequence r <= tr_last_acked_sequence r';
  rk_wf : runtime_wf r -> runtime_wf r'
}.

Inductive runtimes_step : list ThreadRuntime -> list ThreadRuntime -> Prop :=
  | runtimes_idle t : runtimes_step t t
  | runtimes_write t p f :
      (forall r, In r t -> p r = true -> runtime_active r = true /\ runtime_kept r (f r)) ->
      runtimes_step t (update p f t)
  | runtimes_insert t r : ~ In (tr_id r) (map tr_id t) -> runtime_wf r ->
      exists_row (occupies (tr_org_id r) (tr_thread_id r)) t = false ->
      runtimes_step t (t ++ [r])%list
  | runtimes_trans t1 t2 t3 : runtimes_step t1 t2 -> runtimes_step t2 t3 -> runtimes_step t1 t3.

Section Keeps.
Variables (t : list ThreadRuntime) (p : ThreadRuntime -> bool) (f : ThreadRuntime -> ThreadRuntime).
Hypothesis write : forall r, In r t -> p r = true -> runtime_active r = true /\ runtime_kept r (f r).

Lemma runtime_image r' : In r' (update p f t) ->
  exists r, In r t /\ r' = (if p r then f r else r) /\ runtime_kept r r'
    /\ (runtime_active r' = true -> runtime_active r = true).
Proof.
  intros (r & Hin & ->)%in_update_image. exists r. split; [done|]. split; [done|].
  destruct (p r) eqn:E; [|split; [by split|done]].
  destruct (write r Hin E). auto.
Qed.

Lemma runtime_write_inv : runtimes_inv t -> runtimes_inv (update p f t).
Proof.
  intros [Hids Hwf Hone]. split.
  - replace (map tr_id (update p f t)) with (map tr_id t); [done|].
    unfold update. rewrite map_map. apply map_ext_in. intros r Hin.
    destruct (p r) eqn:E; [|done]. symmetry. by apply write.
  - apply Forall_update; [|done]. intros r Hin Hr E. by apply (write r Hin E).
  - intros a' b' (a & Ha & -> & Hka & Haa)%runtime_image (b & Hb & -> & Hkb & Hab)%runtime_image H1 H2 Ho Ht.
    assert (a = b) as ->; [|done]. destruct Hka, Hkb. apply Hone; auto; congruence.
Qed.
End Keeps.

Lemma runtimes_step_inv t t' : runtimes_inv t -> runtimes_step t t' -> runtimes_inv t'.
Proof.
  intros Hinv Hs. induction Hs as [t|t p f Hw|t r Hid Hwf Hno|? ? ? ? IH1 ? IH2]; auto.
  - by apply runtime_write_inv.
  - destruct Hinv as [Hids Hwfs Hone].
    assert (Hfree : forall a, In a t -> runtime_active a = true -> tr_org_id a = tr_org_id r ->
      tr_thread_id a = tr_thread_id r -> False).
    { intros a Ha Haa Ho Ht. apply (exists_row_none _ _ a Hno) in Ha. unfold occupies in Ha.
      by rewrite Haa, !bool_decide_eq_true_2 in Ha by done. }
    split.
    + rewrite map_app. simpl. apply List.NoDup_app; [done|repeat constructor; auto|].
      intros x Hx [<-|[]]. auto.
    + apply Forall_app. auto.
    + intros a b Ha Hb Haa Hba Ho Ht.
      apply in_app_iff in Ha as [Ha|[<-|[]]]; apply in_app_iff in Hb as [Hb|[<-|[]]]; auto.
      * exfalso. by apply (Hfree a).
      * exfalso. by apply (Hfree b).
Qed.

(** A closed runtime is never written again, and the acknowledged prefix of a
    live one only grows. *)
Lemma runtimes_step_row t t' r : List.NoDup (map tr_id t) -> runtimes_step t t' -> In r t ->
  exists r', In r' t' /\ tr_id r' = tr_id r /\ tr_last_acked_sequence r <= tr_last_acked_sequence r'
    /\ (runtime_active r = false -> r' = r).
Proof.
  intros Hids Hs. revert Hids r.
  induction Hs as [t|t p f Hw|t x Hx ? ?|t1 t2 t3 Hs1 IH1 Hs2 IH2]; intros Hids r Hin.
  - exists r. repeat split; auto. lia.
  - exists (if p r then f r else r).
    split; [apply in_update; exists r; split; [done|]; destruct (p r); auto|].
    destruct (p r) eqn:E; [|repeat split; auto; lia].
    destruct (Hw r Hin E) as [Ha []]. repeat split; auto. congruence.
  - exists r. rewrite in_app_iff. repeat split; auto. lia.
  - destruct (IH1 Hids r Hin) as (r2 & Hin2 & Hid2 & Ha2 & Hd2).
    assert (List.NoDup (map tr_id t2)) as Hids2.
    { clear -Hids Hs1. induction Hs1 as [|t p f Hw|t x Hx ? ?|]; auto.
      - replace (map tr_id (update p f t)) with (map tr_id t); [done|].
        unfold update. rewrite map_map. apply map_ext_in. intros r Hin.
        destruct (p r) eqn:E; [|done]. symmetry. by apply Hw.
      - rewrite map_app. simpl. apply List.NoDup_app; [done|repeat constructor; auto|].
        intros y Hy [<-|[]]. auto. }
    destruct (IH2 Hids2 r2 Hin2) as (r3 & Hin3 & Hid3 & Ha3 & Hd3).
    exists r3. repeat split; [done|congruence|lia|].
    intros Hr. specialize (Hd2 Hr). subst r2. auto.
Qed.

(** ** The operations *)

Ltac runtime_kept :=
  split; [done..| |];
  unfold runtime_wf, runtime_active, runtime_attachable in *; simpl in *; unfold coalesce in *;
  repeat case_match; simplify_eq/=; intuition (try done; try lia; try congruence).

Lemma lose_runtime_kept now reason err r : runtime_active r = true ->
  runtime_kept r (lose_runtime now reason err r).
Proof.
  intros Ha. split; [done..|simpl; lia|]. unfold runtime_wf, lose_runtime. simpl. unfold coalesce.
  intros (_ & ? & ?). split; [|lia]. split; [done|]. by case_match.
Qed.

Lemma create_runtime_step first now fresh org p db db' r :
  CreateStarting first now fresh org p db = Ok (db', r) ->
  runtimes_step (thread_runtimes db) (thread_runtimes db').
Proof.
  unfold CreateStarting. intros H. case_match; [done|]. case_match eqn:Hocc; [done|]. case_match eqn:Hid; simplify_eq/=.
  reflect_bools. eapply runtimes_trans.
  - apply (runtimes_write _ (superseded now org (ctr_ThreadID p))
             (lose_runtime now "lease_expired_before_restart" None)).
    intros x _ Hx. unfold superseded in Hx. reflect_bools. split; [done|by apply lose_runtime_kept].
  - apply runtimes_insert; simpl.
    + rewrite update_key by done. intros (x & E & Hx)%in_map_iff.
      match goal with E : exists_row _ _ = false |- _ => apply (exists_row_none _ _ x E) in Hx end.
      by reflect_bools.
    + split; [done|]. simpl. lia.
    + destruct first; [|done]. apply exists_row_false. intros x' (x & Hx & ->)%in_update_image.
      apply (exists_row_none _ _ x Hocc) in Hx. case_match; [|done].
      unfold occupies, superseded in *. reflect_bools. rewrite !bool_decide_eq_true_2 in Hx by done. by simpl in *; congruence.
Qed.

Inductive runtime_op (db : DB) : DB -> Prop :=
  | op_create_runtime first now fresh org p db' r :
      CreateStarting first now fresh org p db = Ok (db', r) -> runtime_op db db'
  | op_live now org id tok handle lease db' r :
      MarkLiveWithLease now org id tok handle lease db = Ok (db', r) -> runtime_op db db'
  | op_runtime_heartbeat now org id tok lease :
      runtime_op db (HeartbeatWithLease now org id tok lease db).1
  | op_advance now org id tok delivered acked :
      runtime_op db (AdvanceDeliveryWithLease now org id tok delivered acked db).1
  | op_commit now clock org id tok th node delivered acked confirmed db' r :
      CommitInboxDeliveryWithLease now clock org id tok th node delivered acked confirmed db = Ok (db', r) ->
      runtime_op db db'
  | op_runtime_terminal now org id tok status reason err db' r :
      MarkTerminalWithLease now org id tok status reason err db = Ok (db', r) -> runtime_op db db'
  | op_reap now expiredBefore batch locked :
      runtime_op db (ReclaimExpiredLeases now expiredBefore batch locked db).1.

Lemma reap_step now expiredBefore batch locked db : List.NoDup (map tr_id (thread_runtimes db)) ->
  runtimes_step (thread_runtimes db) (thread_runtimes (ReclaimExpiredLeases now expiredBefore batch locked db).1).
Proof.
  intros Hids. unfold ReclaimExpiredLeases. simpl. apply runtimes_write.
  intros r Hin (c & Hc & E)%existsb_exists. reflect_bools.
  apply in_limit, in_order_by, in_filter_iff in Hc as [Hc Hp]. reflect_bools.
  assert (c = r) as -> by (by apply (map_key_inj tr_id (thread_runtimes db))).
  split; [done|by apply lose_runtime_kept].
Qed.

Lemma runtime_op_step db db' : List.NoDup (map tr_id (thread_runtimes db)) -> runtime_op db db' ->
  runtimes_step (thread_runtimes db) (thread_runtimes db').
Proof.
  intros Hids []; eauto using create_runtime_step, reap_step.
  - unfold MarkLiveWithLease in *. case_match; simplify_eq/=. apply runtimes_write.
    intros x _ Hx. reflect_bools. unfold runtime_attachable, runtime_active in *.
    split; [by destruct (tr_status x)|]. runtime_kept.
  - apply runtimes_write. intros x _ Hx. reflect_bools. split; [done|]. runtime_kept.
  - apply runtimes_write. intros x _ Hx. reflect_bools. split; [done|]. runtime_kept.
  - unfold CommitInboxDeliveryWithLease in *. split_ifs; simplify_eq/=; [apply runtimes_idle|].
    apply runtimes_write. intros x _ Hx. reflect_bools. split; [done|]. runtime_kept.
  - unfold MarkTerminalWithLease in *. case_match eqn:Et; simplify_eq/=. apply runtimes_write.
    intros x _ Hx. reflect_bools. split; [done|]. unfold terminal_runtime_status in Et.
    destruct status; try done; runtime_kept.
Qed.

Lemma reclaim_lost_runtimes now staleBefore n locked db :
  runtimes_step (thread_runtimes db) (thread_runtimes (ReclaimLost now staleBefore n locked db).1).
Proof.
  apply runtimes_write. intros r _ Hr. unfold lost_runtime in Hr. reflect_bools.
  split; [done|by apply lose_runtime_kept].
Qed.

Lemma executor_op_runtimes db db' : executor_op db db' ->
  runtimes_step (thread_runtimes db) (thread_runtimes db').
Proof.
  intros []; try apply runtimes_idle.
  - unfold ExecutorStore.CreateStarting in *. case_match; simplify_eq/=. apply runtimes_idle.
  - unfold MarkDeployBudgetExpiredByNode in *. case_match; simplify_eq/=. apply runtimes_idle.
  - unfold ExecutorStore.MarkTerminalWithLease in *. case_match; simplify_eq/=. apply runtimes_idle.
  - apply reclaim_lost_runtimes.
Qed.

Lemma runtime_op_frame db db' : runtime_op db db' ->
  jobs db' = jobs db /\ nodes db' = nodes db /\ session_executors db' = session_executors db
  /\ worker_retirement_seals db' = worker_retirement_seals db /\ same_phases db db'.
Proof.
  intros []; try done.
  - unfold CreateStarting in *. by repeat (case_match; simplify_eq/=).
  - unfold MarkLiveWithLease in *. by case_match; simplify_eq/=.
  - unfold CommitInboxDeliveryWithLease in *. by split_ifs; simplify_eq/=.
  - unfold MarkTerminalWithLease in *. by case_match; simplify_eq/=.
Qed.
