(* ===== verification/InboxSteps.v ===== *)
(** * Steps of the inbox

    The delivery state machine of one inbox entry, how one statement may
    change [thread_inbox_entries], and the operations that perform such
    steps. *)

From S2P Require Import Prelude Sql Tables JobStore ExecutorStore ThreadRuntimeStore ThreadInboxStore.
From S2P Require Import JobLifecycle JobSteps ExecutorSteps RuntimeSteps.
From stdpp Require Import base option list strings gmap.

Open Scope string_scope.
Open Scope Z_scope.

(** ** The state machine of an entry *)

(** [manual] marks the two moves that only a definite provider rejection or
    an operator makes. *)
Inductive delivery_step (manual : bool) : ThreadInboxDeliveryState -> ThreadInboxDeliveryState -> Prop :=
  | ds_stay s : delivery_step manual s s
  | ds_claim : delivery_step manual ThreadInboxDeliveryStatePending ThreadInboxDeliveryStateDelivering
  | ds_attempt : delivery_step manual ThreadInboxDeliveryStateDelivering ThreadInboxDeliveryStateDelivered
  | ds_release : delivery_step manual ThreadInboxDeliveryStateDelivering ThreadInboxDeliveryStatePending
  | ds_doubt : delivery_step manual ThreadInboxDeliveryStateDelivered ThreadInboxDeliveryStateUnknownDelivery
  | ds_apply s : s <> ThreadInboxDeliveryStateDeadLetter -> delivery_step manual s ThreadInboxDeliveryStateAcked
  | ds_dead s : s <> ThreadInboxDeliveryStateAcked -> delivery_step manual s ThreadInboxDeliveryStateDeadLetter
  | ds_unsent : manual = true ->
      delivery_step manual ThreadInboxDeliveryStateDelivered ThreadInboxDeliveryStateDelivering
  | ds_retry s : manual = true ->
      s = ThreadInboxDeliveryStateDeadLetter \/ s = ThreadInboxDeliveryStateUnknownDelivery ->
      delivery_step manual s ThreadInboxDeliveryStatePending.

(** Input a runtime has, or may have, written to its provider, and settled
    input. *)
Definition attempted (e : ThreadInboxEntry) : bool :=
  match e_delivery_state e with
  | ThreadInboxDeliveryStatePending | ThreadInboxDeliveryStateDelivering => false
  | _ => true
  end.

(** The columns each delivery state needs. *)
Definition entry_wf (e : ThreadInboxEntry) : Prop :=
  match e_delivery_state e with
  | ThreadInboxDeliveryStatePending => e_runtime_id e = None /\ e_applied_at e = None
  | ThreadInboxDeliveryStateDelivering => is_Some (e_runtime_id e) /\ e_applied_at e = None
  | ThreadInboxDeliveryStateDelivered | ThreadInboxDeliveryStateUnknownDelivery =>
      is_Some (e_runtime_id e) /\ is_Some (e_delivered_at e) /\ e_applied_at e = None
  | ThreadInboxDeliveryStateAcked =>
      is_Some (e_runtime_id e) /\ is_Some (e_delivered_at e) /\ is_Some (e_acked_at e)
      /\ is_Some (e_applied_at e)
  | ThreadInboxDeliveryStateDeadLetter => e_applied_at e = None
  end /\ 0 <= e_delivery_attempts e /\ 0 < e_sequence_no e.
#[export] Instance entry_wf_dec e : Decision (entry_wf e).
Proof. unfold entry_wf. destruct (e_delivery_state e); apply _. Defined.

(** What a write keeps of an entry. *)
Record entry_kept (manual : bool) (e e' : ThreadInboxEntry) : Prop := {
  ek_id : e_id e' = e_id e;
  ek_org : e_org_id e' = e_org_id e;
  ek_session : e_session_id e' = e_session_id e;
  ek_thread : e_thread_id e' = e_thread_id e;
  ek_sequence : e_sequence_no e' = e_sequence_no e;
  ek_message : e_message_id e' = e_message_id e;
  ek_client : e_client_message_id e' = e_client_message_id e;
  ek_state : delivery_step manual (e_delivery_state e) (e_delivery_state e');
  ek_applied : e_applied_at e <> None ->
    e_applied_at e' = e_applied_at e /\ e_runtime_id e' = e_runtime_id e;
  ek_wf : entry_wf e'
}.

(** ** Steps of the table *)

(** The unique indexes, as partial keys. *)
Definition sequence_key (e : ThreadInboxEntry) : option (uuid * uuid * Z) :=
  Some (e_org_id e, e_thread_id e, e_sequence_no e).
Definition message_key (e : ThreadInboxEntry) : option (uuid * Z) :=
  (fun m => (e_org_id e, m)) <$> e_message_id e.
Definition client_key (e : ThreadInboxEntry) : option (uuid * uuid * string) :=
  (fun c => (e_org_id e, e_thread_id e, c)) <$> e_client_message_id e.

Definition unique_on {K} (key : ThreadInboxEntry -> option K) (t : list ThreadInboxEntry) : Prop :=
  forall a b k, In a t -> In b t -> key a = Some k -> key b = Some k -> a = b.

Inductive entries_step (manual : bool) : list ThreadInboxEntry -> list ThreadInboxEntry -> Prop :=
  | entries_map t g : (forall e, In e t -> entry_wf e -> entry_kept manual e (g e)) ->
      entries_step manual t (map g t)
  | entries_insert t e : entry_wf e -> e_delivery_state e = ThreadInboxDeliveryStatePending ->
      ~ In (e_id e) (map e_id t) ->
      (forall a, In a t -> sequence_key a <> sequence_key e) ->
      (forall a k, In a t -> message_key e = Some k -> message_key a <> Some k) ->
      (forall a k, In a t -> client_key e = Some k -> client_key a <> Some k) ->
      entries_step manual t (t ++ [e])%list
  | entries_extend t g rows : (forall e, In e t -> entry_wf e -> entry_kept manual e (g e)) ->
      Forall entry_wf rows -> List.NoDup (map e_id (map g t ++ rows)) ->
      unique_on sequence_key (map g t ++ rows) -> unique_on message_key (map g t ++ rows) ->
      unique_on client_key (map g t ++ rows) -> entries_step manual t (map g t ++ rows)%list.

Record entries_inv (t : list ThreadInboxEntry) : Prop := {
  ei_ids : List.NoDup (map e_id t);
  ei_wf : Forall entry_wf t;
  ei_sequence : unique_on sequence_key t;
  ei_message : unique_on message_key t;
  ei_client : unique_on client_key t
}.

Lemma entry_kept_refl manual e : entry_wf e -> entry_kept manual e e.
Proof. intros. split; try done. constructor. Qed.
#[export] Hint Resolve entry_kept_refl : plane.

Lemma entries_idle manual t : entries_step manual t t.
Proof.
  rewrite <- (map_id t) at 2. apply entries_map. intros. by apply entry_kept_refl.
Qed.

Lemma entries_update manual p f t :
  (forall e, In e t -> p e = true -> entry_wf e -> entry_kept manual e (f e)) ->
  entries_step manual t (update p f t).
Proof.
  intros H. apply entries_map. intros e Hin Hwf. destruct (p e) eqn:E; auto with plane.
Qed.

Lemma unique_on_map {K} (key : ThreadInboxEntry -> option K) g t :
  (forall e, In e t -> key (g e) = key e) -> unique_on key t -> unique_on key (map g t).
Proof.
  intros Hk Hu a' b' k (a & <- & Ha)%in_map_iff (b & <- & Hb)%in_map_iff Hka Hkb.
  f_equal. apply (Hu a b k); auto; by rewrite <- Hk.
Qed.

Lemma unique_on_snoc {K} (key : ThreadInboxEntry -> option K) t e :
  (forall a k, In a t -> key e = Some k -> key a <> Some k) -> unique_on key t ->
  unique_on key (t ++ [e])%list.
Proof.
  intros Hn Hu a b k Ha Hb Hka Hkb.
  apply in_app_iff in Ha as [Ha|[<-|[]]]; apply in_app_iff in Hb as [Hb|[<-|[]]]; auto.
  - by apply (Hu a b k).
  - exfalso. by apply (Hn a k).
  - exfalso. by apply (Hn b k).
Qed.

Lemma entries_step_inv manual t t' : entries_inv t -> entries_step manual t t' -> entries_inv t'.
Proof.
  intros [Hids Hwf Hseq Hmsg Hcli] Hs. rewrite List.Forall_forall in Hwf.
  destruct Hs as [t g Hg|t e He Hst Hid Hs Hm Hc|t g rows Hg Hr Hi Hs Hm Hc].
  - assert (forall e, In e t -> entry_kept manual e (g e)) as Hk by auto. split.
    + rewrite map_map. erewrite map_ext_in; [exact Hids|]. intros e Hin. by apply (ek_id _ _ _ (Hk e Hin)).
    + apply List.Forall_forall. intros e' (e & <- & Hin)%in_map_iff. apply (ek_wf _ _ _ (Hk e Hin)).
    + apply unique_on_map; [|done]. intros e Hin. destruct (Hk e Hin). unfold sequence_key. congruence.
    + apply unique_on_map; [|done]. intros e Hin. unfold message_key.
      by rewrite (ek_org _ _ _ (Hk e Hin)), (ek_message _ _ _ (Hk e Hin)).
    + apply unique_on_map; [|done]. intros e Hin. unfold client_key.
      by rewrite (ek_org _ _ _ (Hk e Hin)), (ek_thread _ _ _ (Hk e Hin)), (ek_client _ _ _ (Hk e Hin)).
  - split.
    + rewrite map_app. simpl. apply List.NoDup_app; [done|repeat constructor; auto|].
      intros x Hx [<-|[]]. auto.
    + apply Forall_app. rewrite List.Forall_forall. auto.
    + apply unique_on_snoc; [|done]. intros a k Ha Hk Hka. apply (Hs a Ha). congruence.
    + by apply unique_on_snoc.
    + by apply unique_on_snoc.
  - split; try done. apply Forall_app. split; [|done]. apply List.Forall_forall.
    intros e' (e & <- & Hin)%in_map_iff. apply (ek_wf _ _ _ (Hg e Hin (Hwf e Hin))).
Qed.

(** Every row survives a step, with what the step must keep of it. *)
Lemma entries_step_row manual t t' e : Forall entry_wf t -> entries_step manual t t' -> In e t ->
  exists e', In e' t' /\ entry_kept manual e e'.
Proof.
  intros Hwf Hs Hin. rewrite List.Forall_forall in Hwf. destruct Hs as [t g Hg|t x|t g rows Hg].
  - exists (g e). split; [by apply in_map|auto].
  - exists e. rewrite in_app_iff. split; [by left|]. by apply entry_kept_refl, Hwf.
  - exists (g e). rewrite in_app_iff. split; [left; by apply in_map|auto].
Qed.

(** ** The operations *)

Ltac entry_kept :=
  split; try done; unfold entry_wf, outstanding in *; simpl in *; unfold coalesce in *;
  repeat case_match; simplify_eq/=; try (by constructor; auto); try (by intros []);
  intuition (eauto; try lia; try congruence).

Lemma reset_entry_kept manual now err e : e_delivery_state e = ThreadInboxDeliveryStateDelivering ->
  entry_wf e -> entry_kept manual e (reset_entry now err e).
Proof. intros Hs Hwf. unfold entry_wf in Hwf. rewrite Hs in Hwf. entry_kept. rewrite Hs. constructor. Qed.

Lemma doubt_entry_kept manual now err e : e_delivery_state e = ThreadInboxDeliveryStateDelivered ->
  entry_wf e -> entry_kept manual e (doubt_entry now err e).
Proof. intros Hs Hwf. unfold entry_wf in Hwf. rewrite Hs in Hwf. entry_kept. rewrite Hs. constructor. Qed.

Lemma apply_entry_kept manual now rt owner e : e_delivery_state e <> ThreadInboxDeliveryStateDeadLetter ->
  (e_applied_at e <> None -> e_runtime_id e = Some rt) -> entry_wf e ->
  entry_kept manual e (apply_entry now rt e) /\
  entry_kept manual e ((apply_entry now rt e) <| e_owner_node_id := owner |>).
Proof.
  intros Hs Hr [_ Ha]. split; (split; try done; [by constructor| |]).
  all: simpl; try (intros Hap; split; [by apply coalesce_kept|by rewrite Hr]).
  all: split; simpl; [|done]; auto 6 with plane.
Qed.

Lemma release_inbox_step manual now e1 e2 lost t :
  entries_step manual t (release_inbox now e1 e2 lost t).
Proof.
  apply entries_map. intros e _ Hwf. unfold entry_of.
  destruct (existsb _ lost); simpl; [|by apply entry_kept_refl].
  case_match eqn:E1; [reflect_bools; by apply reset_entry_kept|].
  case_match eqn:E2; [reflect_bools; by apply doubt_entry_kept|by apply entry_kept_refl].
Qed.

(** Sequence numbers are handed out in increasing order. *)
Lemma max_sequence_ge l e : In e l -> e_sequence_no e <= default 0 (max_sequence l).
Proof.
  induction l as [|x l IH]; simpl; [done|]. intros [->|Hin].
  - destruct (max_sequence l); simpl; lia.
  - specialize (IH Hin). destruct l; [done|]. simpl in *. destruct (max_sequence l); simpl in *; lia.
Qed.

Lemma next_sequence_fresh db org th e : In e (thread_inbox_entries db) ->
  e_org_id e = org -> e_thread_id e = th -> e_sequence_no e < next_sequence db org th.
Proof.
  intros Hin Ho Ht. unfold next_sequence.
  assert (In e (select (entry_in_thread org th) (thread_inbox_entries db))) as Hsel.
  { apply in_filter_iff. split; [done|]. unfold entry_in_thread. by rewrite !bool_decide_eq_true_2. }
  apply max_sequence_ge in Hsel. lia.
Qed.

Lemma append_step manual now fresh org p db db' e :
  AppendForMessage now fresh org p db = Ok (db', e) ->
  entries_step manual (thread_inbox_entries db) (thread_inbox_entries db').
Proof.
  unfold AppendForMessage. intros H. case_match; [done|].
  destruct (select _ _) as [|x l] eqn:Hsel; [|simplify_eq; apply entries_idle].
  case_match eqn:Hnone; [done|]. case_match eqn:Hpos; simplify_eq/=. apply entries_insert; try done; simpl.
  - unfold entry_wf. simpl. apply Z.leb_gt in Hpos. auto with lia.
  - intros (a & Hid & Ha)%in_map_iff. apply (exists_row_none _ _ a Hnone) in Ha. by reflect_bools.
  - intros a Ha. unfold sequence_key. simpl. intros [= Ho Ht Hs].
    pose proof (next_sequence_fresh db org (ati_ThreadID p) a Ha Ho Ht). lia.
  - intros a k Ha. apply (exists_row_none _ _ a Hnone) in Ha. unfold message_key. simpl.
    destruct (ati_MessageID p =? 0) eqn:Ez; [done|]. simpl. intros [= <-] Hm.
    destruct (e_message_id a) eqn:Em; [|done]. simplify_eq/=. reflect_bools.
    unfold same_message, col_is in *. rewrite Em in *.
    rewrite (bool_decide_eq_false_2 (ati_MessageID p = 0)), !bool_decide_eq_true_2 in * by (auto; lia). done.
  - intros a k Ha. unfold client_key. simpl. unfold nullif_empty.
    case_bool_decide as Hc; [done|]. simpl. intros [= <-] Hk.
    destruct (e_client_message_id a) eqn:Ec; [|done]. simplify_eq/=.
    assert (In a (List.filter (same_client_message (e_org_id a) (ati_ThreadID p) (client_message_id p))
      (thread_inbox_entries db))) as Hin.
    { apply in_filter_iff. split; [done|]. unfold same_client_message, entry_in_thread, col_is.
      rewrite Ec. rewrite (bool_decide_eq_false_2 _ Hc), !bool_decide_eq_true_2 by congruence. done. }
    unfold select in Hsel. by rewrite Hsel in Hin.
Qed.

(** The writes of the inbox store; the label tells the manual ones. *)
Inductive inbox_op (db : DB) : bool -> DB -> Prop :=
  | op_append now fresh org p db' e : AppendForMessage now fresh org p db = Ok (db', e) -> inbox_op db false db'
  | op_delivered now clock org th rt tok node id seq :
      inbox_op db false (MarkDeliveredForEntry now clock org th rt tok node id seq db).1
  | op_unsent now clock org th rt tok id :
      inbox_op db true (ResetUnsentDelivery now clock org th rt tok id db).1
  | op_seed now clock org th rt tok ids :
      inbox_op db false (MarkAckedForSeedMessages now clock org th rt tok ids db).1
  | op_delivering now clock org th rt tok node ids :
      inbox_op db false (MarkDeliveringForMessages now clock org th rt tok node ids db).1
  | op_mark_dead now org th id reason db' e :
      MarkDeadLetter now org th id reason db = Ok (db', e) -> inbox_op db false db'
  | op_dead_thread now org th reason : inbox_op db false (DeadLetterPendingByThread now org th reason db).1
  | op_failed now org th rt id reason n db' e :
      MarkDeliveryFailed now org th rt id reason n db = Ok (db', e) -> inbox_op db false db'
  | op_claim_entries now clock org th rt tok node after n locked :
      inbox_op db false (ClaimDeliverableAfter now clock org th rt tok node after n locked db).1
  | op_retry_entry now org th id allow db' e :
      RetryRecoverable now org th id allow db = Ok (db', e) -> inbox_op db true db'.

Lemma update_entry_step manual p f db db' e : update_entry p f db = Ok (db', e) ->
  (forall x, p x = true -> entry_wf x -> entry_kept manual x (f x)) ->
  entries_step manual (thread_inbox_entries db) (thread_inbox_entries db').
Proof.
  unfold update_entry. intros H Hf. case_match; simplify_eq/=. apply entries_update. auto.
Qed.

Lemma claim_entry_kept manual now rt node e :
  e_delivery_state e = ThreadInboxDeliveryStatePending
  \/ e_delivery_state e = ThreadInboxDeliveryStateDelivering -> entry_wf e ->
  entry_kept manual e (claim_entry now rt node e).
Proof.
  intros Hs Hwf. unfold entry_wf in Hwf.
  destruct Hs as [Hs|Hs]; rewrite Hs in Hwf; entry_kept; rewrite Hs; constructor.
Qed.

Lemma dead_entry_kept manual now reason rt k e : outstanding e = true -> 0 <= k -> entry_wf e ->
  entry_kept manual e
    (e <| e_delivery_state := ThreadInboxDeliveryStateDeadLetter |> <| e_delivery_attempts := k |>
       <| e_last_error := reason |> <| e_owner_node_id := None |> <| e_runtime_id := rt |>
       <| e_updated_at := now |>).
Proof.
  intros Ho Hk Hwf. assert (e_applied_at e = None) as Hap.
  { unfold outstanding, entry_wf in *. destruct (e_delivery_state e); simplify_eq; tauto. }
  split; try done; simpl.
  - apply ds_dead. unfold outstanding in Ho. by destruct (e_delivery_state e).
  - split; [done|]. split; [done|apply Hwf].
Qed.

(** A move from one known state. *)
Ltac entry_move x Hwf :=
  match goal with H : e_delivery_state x = _ |- _ =>
    unfold entry_wf in Hwf; rewrite H in Hwf; entry_kept; rewrite H; by constructor
  end.
(** Keep only the state test among the guards of an entry. *)
Ltac entry_state x :=
  reflect_bools;
  repeat match goal with
  | H : (_ || _)%bool = true |- _ => apply orb_true_iff in H
  | H : exists_row _ _ = true |- _ => apply exists_row_true in H as (? & ? & ?); reflect_bools
  end.

Lemma inbox_op_step db manual db' : inbox_op db manual db' ->
  entries_step manual (thread_inbox_entries db) (thread_inbox_entries db').
Proof.
  intros []; eauto using append_step.
  - apply entries_update. intros x _ Hx Hwf. entry_state x. entry_move x Hwf.
  - apply entries_update. intros x _ Hx Hwf. reflect_bools. entry_move x Hwf.
  - unfold MarkAckedForSeedMessages. case_match; [apply entries_idle|]. apply entries_update.
    intros x _ Hx Hwf. reflect_bools.
    apply (apply_entry_kept false now rt None); [| |done].
    + intros E. rewrite E in *. by rewrite !bool_decide_eq_false_2 in * by done.
    + destruct (e_applied_at x); done.
  - unfold MarkDeliveringForMessages. case_match; [apply entries_idle|]. apply entries_update.
    intros x _ Hx Hwf. entry_state x. apply claim_entry_kept; [|done].
    match goal with H : _ \/ _ |- _ => destruct H; reflect_bools; auto end.
  - eapply update_entry_step; [done|]. cbv beta. intros x Hx Hwf. reflect_bools.
    apply (dead_entry_kept _ _ _ (e_runtime_id x) (e_delivery_attempts x + 1)); [done| |done].
    destruct Hwf. lia.
  - apply entries_update. intros x _ Hx Hwf. reflect_bools.
    apply (dead_entry_kept _ _ _ None (e_delivery_attempts x)); [done|apply Hwf|done].
  - eapply update_entry_step; [done|]. cbv beta. intros x Hx Hwf. reflect_bools.
    unfold fail_entry. case_match.
    + apply (dead_entry_kept _ _ _ None (e_delivery_attempts x + 1)); [|destruct Hwf; lia|done].
      unfold outstanding. by match goal with H : e_delivery_state x = _ |- _ => rewrite H end.
    + entry_move x Hwf.
  - apply entries_update. intros x _ Hx Hwf. reflect_bools. apply claim_entry_kept; auto.
  - eapply update_entry_step; [done|]. cbv beta. intros x Hx Hwf. entry_state x.
    assert (e_delivery_state x = ThreadInboxDeliveryStateDeadLetter
            \/ e_delivery_state x = ThreadInboxDeliveryStateUnknownDelivery) as Hs.
    { match goal with H : _ \/ _ |- _ => destruct H; reflect_bools; auto end. }
    unfold entry_wf in Hwf. split; try done; simpl; [by apply ds_retry| |].
    + destruct Hs as [Hs|Hs]; rewrite Hs in Hwf; intuition congruence.
    + destruct Hs as [Hs|Hs]; rewrite Hs in Hwf; unfold entry_wf; simpl; tauto || (split; [tauto|lia]).
Qed.

(** The other stores' writes of the inbox are automatic ones. *)
Lemma runtime_op_entries db db' : runtime_op db db' ->
  entries_step false (thread_inbox_entries db) (thread_inbox_entries db').
Proof.
  intros []; try apply entries_idle.
  - unfold CreateStarting in *. repeat (case_match; simplify_eq/=); apply release_inbox_step.
  - unfold MarkLiveWithLease in *. case_match; simplify_eq/=. apply entries_idle.
  - unfold CommitInboxDeliveryWithLease in *. split_ifs; simplify_eq/=; [apply entries_idle|].
    apply entries_update. intros x _ Hx Hwf. unfold committable, col_is in Hx. reflect_bools.
    apply apply_entry_kept; [|done..].
    intros E. rewrite E in *. by rewrite !bool_decide_eq_false_2 in * by done.
  - unfold MarkTerminalWithLease in *. case_match; simplify_eq/=. apply entries_map.
    intros x _ Hwf. case_match eqn:E1; [|case_match eqn:E2; [|by apply entry_kept_refl]]; reflect_bools.
    + entry_move x Hwf.
    + by apply doubt_entry_kept.
  - apply release_inbox_step.
Qed.

Lemma executor_op_entries db db' : executor_op db db' ->
  entries_step false (thread_inbox_entries db) (thread_inbox_entries db').
Proof.
  intros []; try apply entries_idle.
  - unfold ExecutorStore.CreateStarting in *. case_match; simplify_eq/=. apply entries_idle.
  - unfold MarkDeployBudgetExpiredByNode in *. case_match; simplify_eq/=. apply entries_idle.
  - unfold ExecutorStore.MarkTerminalWithLease in *. case_match; simplify_eq/=. apply entries_idle.
  - apply release_inbox_step.
Qed.

Lemma inbox_op_runtimes db manual db' : runtimes_inv (thread_runtimes db) -> inbox_op db manual db' ->
  runtimes_step (thread_runtimes db) (thread_runtimes db').
Proof.
  intros Hinv []; try apply runtimes_idle;
    try (unfold AppendForMessage, MarkDeadLetter, MarkDeliveryFailed, RetryRecoverable, update_entry in *;
         repeat (case_match; simplify_eq/=); apply runtimes_idle).
  - apply runtimes_write. intros r _ Hr. unfold owned_runtime in Hr. reflect_bools.
    unfold runtime_attachable, runtime_active in *.
    split; [by destruct (tr_status r)|]. runtime_kept.
  - apply runtimes_write. intros r Hin Hr. reflect_bools. entry_state r.
    match goal with H : owned_runtime _ _ _ _ _ ?r' = true |- _ => assert (r' = r) as -> end.
    { unfold owned_runtime in *. reflect_bools.
      apply (map_key_inj tr_id (thread_runtimes db)); [apply Hinv|done|done|congruence]. }
    unfold owned_runtime, runtime_attachable, runtime_active in *. reflect_bools.
    split; [by destruct (tr_status r)|]. runtime_kept.
  - unfold MarkAckedForSeedMessages. case_match; apply runtimes_idle.
  - unfold MarkDeliveringForMessages. case_match; apply runtimes_idle.
Qed.

Lemma inbox_op_frame db manual db' : inbox_op db manual db' ->
  jobs db' = jobs db /\ nodes db' = nodes db /\ session_executors db' = session_executors db
  /\ worker_retirement_seals db' = worker_retirement_seals db /\ same_phases db db'.
Proof.
  intros []; try done;
    try (unfold AppendForMessage, MarkDeadLetter, MarkDeliveryFailed, RetryRecoverable, update_entry in *;
         by repeat (case_match; simplify_eq/=)).
  - unfold MarkAckedForSeedMessages. by case_match.
  - unfold MarkDeliveringForMessages. by case_match.
Qed.
