(* ===== verification/PhaseSteps.v ===== *)
(** * Steps of the phase and batch tables

    How one transaction may change [session_activity_phases] and
    [thread_inbox_delivery_batches], and that the transactions of
    [ActivityPhaseStore] are steps of every table of the plane. *)

From S2P Require Import Prelude GoRuntime Sql Tables Continuation JobStore ExecutorStore ThreadRuntimeStore ThreadInboxStore ActivityPhaseStore.
From S2P Require Import JobLifecycle JobSteps ExecutorSteps RuntimeSteps InboxSteps.
From stdpp Require Import base option list strings gmap.

Open Scope string_scope.
Open Scope Z_scope.

(** The condition or the call that decides the outcome of a transaction. *)
Ltac outcome_if H := match goal with |- (if ?c then _ else _) = _ -> _ => destruct c eqn:H end.
Ltac outcome_match E :=
  match goal with |- match ?m with Ok _ => _ | Err _ => _ end = _ -> _ => destruct m as [?|?] eqn:E; [|done] end.

(** ** Phases *)

(** The CHECK constraints of session_activity_phases. *)
Definition phase_wf (p : SessionActivityPhase) : Prop :=
  status_reason (ph_status p) (ph_boundary_reason p) = true
  /\ (ph_status p = ActivityPhaseStatusRunning <-> ph_completed_at p = None)
  /\ (forall t, ph_completed_at p = Some t -> ph_started_at p <= t)
  /\ (ph_trigger_kind p = ActivityPhaseTriggerInboxBatch <-> is_Some (ph_trigger_batch_id p)).

Definition running (p : SessionActivityPhase) : Prop := ph_status p = ActivityPhaseStatusRunning.

Record phases_inv (t : list SessionActivityPhase) : Prop := {
  hi_ids : List.NoDup (map ph_id t);
  hi_wf : Forall phase_wf t;
  (** idx_session_activity_phases_one_running *)
  hi_running : forall a b, In a t -> In b t -> running a -> running b ->
    ph_org_id a = ph_org_id b -> ph_thread_id a = ph_thread_id b -> a = b;
  (** idx_session_activity_phases_trigger_batch *)
  hi_trigger : forall a b id, In a t -> In b t -> ph_trigger_batch_id a = Some id -> ph_trigger_batch_id b = Some id ->
    ph_org_id a = ph_org_id b -> a = b
}.

(** What the end of a phase keeps. *)
Record phase_ended (p p' : SessionActivityPhase) : Prop := {
  he_running : running p;
  he_ended : ~ running p';
  he_id : ph_id p' = ph_id p;
  he_org : ph_org_id p' = ph_org_id p;
  he_session : ph_session_id p' = ph_session_id p;
  he_thread : ph_thread_id p' = ph_thread_id p;
  he_runtime : ph_runtime_id p' = ph_runtime_id p;
  he_trigger : ph_trigger_batch_id p' = ph_trigger_batch_id p;
  he_wf : phase_wf p -> phase_wf p'
}.

Inductive phases_step : list SessionActivityPhase -> list SessionActivityPhase -> Prop :=
  | phases_idle t : phases_step t t
  | phases_end t p f : (forall x, In x t -> p x = true -> phase_ended x (f x)) -> phases_step t (update p f t)
  | phases_insert t x : phase_wf x -> running x -> ~ In (ph_id x) (map ph_id t) ->
      exists_row (running_in (ph_org_id x) (ph_thread_id x)) t = false ->
      exists_row (triggered_by (ph_org_id x) (ph_trigger_batch_id x)) t = false ->
      phases_step t (t ++ [x])%list
  | phases_trans t1 t2 t3 : phases_step t1 t2 -> phases_step t2 t3 -> phases_step t1 t3.

Lemma phase_image p f t x' : (forall x, In x t -> p x = true -> phase_ended x (f x)) -> In x' (update p f t) ->
  exists x, In x t /\ x' = (if p x then f x else x) /\ ph_id x' = ph_id x /\ ph_org_id x' = ph_org_id x
    /\ ph_thread_id x' = ph_thread_id x /\ ph_trigger_batch_id x' = ph_trigger_batch_id x /\ (running x' -> x' = x).
Proof.
  intros Hf (x & Hin & ->)%in_update_image. exists x. split; [done|]. split; [done|].
  destruct (p x) eqn:E; [|done]. destruct (Hf x Hin E). repeat split; auto. intros Hr. by destruct he_ended0.
Qed.

Lemma phases_end_inv p f t : (forall x, In x t -> p x = true -> phase_ended x (f x)) -> phases_inv t ->
  phases_inv (update p f t).
Proof.
  intros Hf [Hids Hwf Hrun Htrig]. split.
  - replace (map ph_id (update p f t)) with (map ph_id t); [done|]. unfold update. rewrite map_map.
    apply map_ext_in. intros x Hin. destruct (p x) eqn:E; [|done]. by rewrite (he_id _ _ (Hf x Hin E)).
  - apply Forall_update; [|done]. intros x Hin Hx E. by apply (he_wf _ _ (Hf x Hin E)).
  - intros a' b' Ha Hb Hra Hrb Ho Ht. apply (phase_image _ _ _ _ Hf) in Ha as (a & Ha & _ & _ & _ & _ & _ & Ea).
    apply (phase_image _ _ _ _ Hf) in Hb as (b & Hb & _ & _ & _ & _ & _ & Eb).
    specialize (Ea Hra). specialize (Eb Hrb). subst a' b'. by apply Hrun.
  - intros a' b' id Ha Hb Hia Hib Ho.
    apply (phase_image _ _ _ _ Hf) in Ha as (a & Ha & -> & _ & Eoa & _ & Eta & _).
    apply (phase_image _ _ _ _ Hf) in Hb as (b & Hb & -> & _ & Eob & _ & Etb & _).
    assert (a = b) as ->; [|done]. apply (Htrig a b id); congruence.
Qed.

Lemma phases_insert_inv x t : phase_wf x -> ~ In (ph_id x) (map ph_id t) ->
  exists_row (running_in (ph_org_id x) (ph_thread_id x)) t = false ->
  exists_row (triggered_by (ph_org_id x) (ph_trigger_batch_id x)) t = false ->
  phases_inv t -> phases_inv (t ++ [x])%list.
Proof.
  intros Hwf Hid Hr Ht [Hids Hwfs Hrun Htrig]. split.
  - rewrite map_app. apply List.NoDup_app; [done|repeat constructor; auto|]. intros y Hy [<-|[]]. auto.
  - apply Forall_app. auto.
  - assert (forall a, In a t -> running a -> ph_org_id a = ph_org_id x -> ph_thread_id a = ph_thread_id x -> False) as Hno.
    { intros a Ha Hra Ho Hth. apply (exists_row_none _ _ a Hr) in Ha. unfold running_in in Ha.
      by rewrite !bool_decide_eq_true_2 in Ha by done. }
    intros a b Ha Hb Hra Hrb Ho Hth.
    apply in_app_iff in Ha as [Ha|[<-|[]]]; apply in_app_iff in Hb as [Hb|[<-|[]]]; auto.
    + exfalso. by apply (Hno a).
    + exfalso. by apply (Hno b).
  - assert (forall a id, In a t -> ph_trigger_batch_id a = Some id -> ph_trigger_batch_id x = Some id ->
      ph_org_id a = ph_org_id x -> False) as Hno.
    { intros a id Ha Hia Hix Ho. apply (exists_row_none _ _ a Ht) in Ha. unfold triggered_by, col_is in Ha.
      rewrite Hix in Ha. by rewrite !bool_decide_eq_true_2 in Ha by done. }
    intros a b id Ha Hb Hia Hib Ho.
    apply in_app_iff in Ha as [Ha|[<-|[]]]; apply in_app_iff in Hb as [Hb|[<-|[]]]; auto.
    + by eapply Htrig.
    + exfalso. by eapply (Hno a).
    + exfalso. by eapply (Hno b).
Qed.

Lemma phases_step_inv t t' : phases_inv t -> phases_step t t' -> phases_inv t'.
Proof.
  intros Hi Hs. induction Hs; auto using phases_end_inv, phases_insert_inv.
Qed.

(** An ended phase is never written again, and no phase loses its trigger. *)
Lemma phases_step_row t t' x : phases_step t t' -> In x t ->
  exists x', In x' t' /\ ph_id x' = ph_id x /\ ph_org_id x' = ph_org_id x /\ ph_thread_id x' = ph_thread_id x
    /\ ph_runtime_id x' = ph_runtime_id x
    /\ ph_trigger_batch_id x' = ph_trigger_batch_id x /\ (~ running x -> x' = x).
Proof.
  intros Hs. revert x. induction Hs as [t|t p f Hf|t y|t1 t2 t3 _ IH1 _ IH2]; intros x Hin.
  - exists x. auto 8.
  - exists (if p x then f x else x).
    split; [apply in_update; exists x; split; [done|]; destruct (p x); auto|].
    destruct (p x) eqn:E; [|auto 8]. destruct (Hf x Hin E). repeat split; auto. intros Hn. by destruct Hn.
  - exists x. rewrite in_app_iff. auto 8.
  - destruct (IH1 x Hin) as (y & Hy & ? & ? & ? & ? & ? & Hyx). destruct (IH2 y Hy) as (z & Hz & ? & ? & ? & ? & ? & Hzy).
    exists z. repeat split; try congruence. intros Hn. specialize (Hyx Hn). subst y. auto.
Qed.

Lemma end_phase now status reason at_ p : status <> ActivityPhaseStatusRunning ->
  status_reason status (Some reason) = true -> running p -> ph_started_at p <= at_ ->
  phase_ended p (complete_phase now status reason at_ p).
Proof.
  intros Hn Hs Hr Ht. split; try done. intros (_ & _ & _ & Htr). split; [done|].
  split; [|split; [|done]]; simpl; [split; [congruence|done]|]. by intros t [= <-].
Qed.
Lemma complete_phase_ended now status reason at_ p : validateTerminalActivityPhase status reason at_ = true ->
  running p -> ph_started_at p <= at_ -> phase_ended p (complete_phase now status reason at_ p).
Proof. unfold validateTerminalActivityPhase. intros Hv. reflect_bools. by apply end_phase. Qed.

Lemma completable_running org id at_ p : completable org id at_ p = true -> running p /\ ph_started_at p <= at_.
Proof. unfold completable. intros H. reflect_bools. done. Qed.

(** ** Batches *)

(** A batch whose input a provider took: every number of its range is applied
    under its runtime, and a phase was started for it. *)
Record batch_done (phases : list SessionActivityPhase) (entries : list ThreadInboxEntry) (b : ThreadInboxDeliveryBatch)
    : Prop := {
  bd_status : b_status b = InboxDeliveryBatchStarted;
  bd_started : is_Some (b_started_at b);
  bd_range : 0 < b_sequence_start b <= b_sequence_end b;
  bd_applied : forall s, b_sequence_start b <= s <= b_sequence_end b ->
    exists e, In e entries /\ e_org_id e = b_org_id b /\ e_thread_id e = b_thread_id b /\ e_sequence_no e = s
      /\ e_runtime_id e = Some (b_runtime_id b) /\ e_delivery_state e = ThreadInboxDeliveryStateAcked
      /\ e_applied_at e <> None;
  bd_phase : exists p, In p phases /\ ph_org_id p = b_org_id b /\ ph_thread_id p = b_thread_id b
    /\ ph_runtime_id p = Some (b_runtime_id b) /\ ph_trigger_batch_id p = Some (b_id b)
}.

Definition overlap (a b : ThreadInboxDeliveryBatch) : Prop :=
  b_org_id a = b_org_id b /\ b_thread_id a = b_thread_id b
  /\ exists s, b_sequence_start a <= s <= b_sequence_end a /\ b_sequence_start b <= s <= b_sequence_end b.

Record batches_inv (phases : list SessionActivityPhase) (entries : list ThreadInboxEntry)
    (t : list ThreadInboxDeliveryBatch) : Prop := {
  bi_ids : List.NoDup (map b_id t);
  bi_done : forall b, In b t -> batch_done phases entries b;
  bi_disjoint : forall a b, In a t -> In b t -> overlap a b -> a = b
}.

Lemma entry_acked e : entry_wf e -> e_applied_at e <> None -> e_delivery_state e = ThreadInboxDeliveryStateAcked.
Proof. unfold entry_wf. intros Hw Ha. destruct (e_delivery_state e); tauto. Qed.

Lemma batch_done_step manual phases phases' entries entries' b : Forall entry_wf entries ->
  phases_step phases phases' -> entries_step manual entries entries' ->
  batch_done phases entries b -> batch_done phases' entries' b.
Proof.
  intros Hwf Hp He [Hs Hst Hr Ha (p & Hin & Ho & Ht & Hrt & Htr)]. split; auto.
  - intros s Hsr. destruct (Ha s Hsr) as (e & Hine & Eo & Et & Es & Er & Est & Eap).
    destruct (entries_step_row _ _ _ e Hwf He Hine) as (e' & Hin' & Hk).
    destruct (ek_applied _ _ _ Hk Eap) as [Hap Hrt'].
    exists e'. split; [done|]. rewrite (ek_org _ _ _ Hk), (ek_thread _ _ _ Hk), (ek_sequence _ _ _ Hk), Hrt', Hap.
    repeat split; auto. apply entry_acked; [apply (ek_wf _ _ _ Hk)|congruence].
  - destruct (phases_step_row _ _ p Hp Hin) as (p' & Hin' & _ & ? & ? & ? & ? & _). exists p'. repeat split; congruence.
Qed.

Lemma batches_step_inv manual phases phases' entries entries' t : Forall entry_wf entries ->
  phases_step phases phases' -> entries_step manual entries entries' ->
  batches_inv phases entries t -> batches_inv phases' entries' t.
Proof. intros Hwf Hp He [Hi Hd Hdj]. split; eauto using batch_done_step. Qed.

(** ** What a transaction of the phase store does *)

Record phase_move (db db' : DB) : Prop := {
  pm_frame : jobs db' = jobs db /\ nodes db' = nodes db /\ session_executors db' = session_executors db
    /\ worker_retirement_seals db' = worker_retirement_seals db;
  pm_phases : phases_step (session_activity_phases db) (session_activity_phases db');
  pm_entries : entries_step false (thread_inbox_entries db) (thread_inbox_entries db');
  pm_runtimes : runtimes_step (thread_runtimes db) (thread_runtimes db');
  pm_batches : batches_inv (session_activity_phases db') (thread_inbox_entries db') (thread_inbox_delivery_batches db')
}.

(** The tables that starting a phase leaves alone. *)
Definition phase_frame (db db' : DB) : Prop :=
  jobs db' = jobs db /\ nodes db' = nodes db /\ session_executors db' = session_executors db
  /\ worker_retirement_seals db' = worker_retirement_seals db /\ thread_runtimes db' = thread_runtimes db.

Lemma retire_phases_step now org s th rt at_ db :
  phases_step (session_activity_phases db) (session_activity_phases (retire_phases now org s th rt at_ db)).
Proof.
  apply phases_end. intros x _ Hx. reflect_bools. split; try done.
  intros (_ & _ & _ & Htr). split; [done|]. split; [split; done|]. split; [|done].
  simpl. intros t [= <-]. lia.
Qed.

Lemma insert_phase_step p db db' x : phase_wf p -> running p -> insert_phase p db = Ok (db', x) ->
  x = p /\ db' = db <| session_activity_phases := (session_activity_phases db ++ [p])%list |>
  /\ phases_step (session_activity_phases db) (session_activity_phases db').
Proof.
  intros Hw Hr. unfold insert_phase. destruct (_ || _); [done|]. destruct (_ || _ || _) eqn:E; [done|].
  intros [= <- <-]. split; [done|]. split; [done|]. simpl. reflect_bools. apply phases_insert; try done.
  intros (y & Ey & Hy)%in_map_iff. match goal with H : exists_row (fun x => bool_decide _) _ = false |- _ => apply (exists_row_none _ _ y H) in Hy end.
  by reflect_bools.
Qed.

(** A trigger of the right kind. *)
Definition trigger_ok (tr : ActivityPhaseTrigger) : Prop :=
  tg_Kind tr = ActivityPhaseTriggerInboxBatch <-> is_Some (tg_BatchID tr).

(** The start of a phase without a batch only writes phases. *)
Lemma start_phase_plain now clock fresh org s th turn rt tok tr at_ db db' ph :
  trigger_ok tr -> tg_BatchID tr = None ->
  startActivityPhaseTx now clock fresh org s th turn rt tok tr at_ db = Ok (db', ph) ->
  phase_frame db db' /\ thread_inbox_entries db' = thread_inbox_entries db
  /\ thread_inbox_delivery_batches db' = thread_inbox_delivery_batches db
  /\ phases_step (session_activity_phases db) (session_activity_phases db').
Proof.
  intros Htr Hb. unfold startActivityPhaseTx. destruct (negb _); [done|]. rewrite Hb.
  set (d1 := match rt with Some _ => _ | None => _ end). intros H.
  assert (exists d, d1 = Ok d /\ phase_frame db d /\ thread_inbox_entries d = thread_inbox_entries db
    /\ thread_inbox_delivery_batches d = thread_inbox_delivery_batches db
    /\ phases_step (session_activity_phases db) (session_activity_phases d)) as (d & E & (? & ? & ? & ? & ?) & ? & ? & Hp).
  { unfold d1 in *. destruct rt as [rt|]; [|exists db; repeat split; apply phases_idle].
    destruct tok as [tok|]; [|done]. destruct (exists_row _ _); [|done].
    eexists. split; [done|]. repeat split; auto using retire_phases_step. }
  rewrite E in H. apply insert_phase_step in H as (_ & -> & Hs); [|split; [done|]|done].
  - repeat split; auto. by eapply phases_trans.
  - split; [done|]. split; [done|]. unfold trigger_ok in Htr. simpl. rewrite Hb in *. done.
Qed.

(** The start of a phase for a batch. *)
Record batch_start (now at_ : time) (org s th id : uuid) (db db' : DB) (b : ThreadInboxDeliveryBatch) : Prop := {
  bs_in : In b (thread_inbox_delivery_batches db);
  bs_awaiting : awaiting_batch org s th id b = true;
  bs_count : count_rows (fun e => batch_entry b e && (e_delivery_state e ==? ThreadInboxDeliveryStateAcked))
    (thread_inbox_entries db) = b_sequence_end b - b_sequence_start b + 1;
  bs_frame : phase_frame db db';
  bs_entries : thread_inbox_entries db' = update (fun e => batch_entry b e && (e_delivery_state e ==? ThreadInboxDeliveryStateAcked))
    (started_entry now at_) (thread_inbox_entries db);
  bs_batches : thread_inbox_delivery_batches db' = update (awaiting_batch org s th id) (started_batch now at_)
    (thread_inbox_delivery_batches db);
  bs_phases : phases_step (session_activity_phases db) (session_activity_phases db');
  bs_phase : exists p, In p (session_activity_phases db') /\ ph_org_id p = org /\ ph_thread_id p = th
    /\ ph_runtime_id p = Some (b_runtime_id b) /\ ph_trigger_batch_id p = Some id
}.

Lemma start_phase_batch now clock fresh org s th turn rt tok id at_ db db' ph :
  startActivityPhaseTx now clock fresh org s th turn rt tok
    (MkActivityPhaseTrigger ActivityPhaseTriggerInboxBatch (Some id)) at_ db = Ok (db', ph) ->
  exists b, batch_start now at_ org s th id db db' b.
Proof.
  unfold startActivityPhaseTx. destruct (negb _); [done|]. cbn [tg_BatchID tg_Kind].
  destruct (start_batch now org s th id tok at_ db) as [[d b]|] eqn:Es; [|done].
  unfold start_batch in Es. destruct (select _ (thread_inbox_delivery_batches db)) as [|b0 l] eqn:El; [done|].
  destruct (is_null tok); [done|]. destruct (negb _) eqn:Ec; [done|]. injection Es as <- <-.
  destruct tok as [tok|]; [|done].
  destruct (exists_row _ _); [|done]. intros H. exists b0.
  assert (In b0 (b0 :: l)) as Hb by (by left). rewrite <- El in Hb. apply in_filter_iff in Hb as [Hb Hp].
  apply negb_false_iff, Z.eqb_eq in Ec.
  apply insert_phase_step in H as (_ & -> & Hs); [| |done].
  - pose proof (retire_phases_step now org s th (b_runtime_id b0) at_
      (db <| thread_inbox_delivery_batches := update (awaiting_batch org s th id) (started_batch now at_) (thread_inbox_delivery_batches db) |>
          <| thread_inbox_entries := update (fun e => batch_entry b0 e && (e_delivery_state e ==? ThreadInboxDeliveryStateAcked))
               (started_entry now at_) (thread_inbox_entries db) |>)) as Hr. cbn in Hr.
    split; try done.
    + eapply phases_trans; [exact Hr|exact Hs].
    + eexists. split; [apply in_app_iff; right; by left|]. done.
  - split; [done|]. split; [done|]. split; [done|]. done.
Qed.

(** The ranges of a table that count as many rows as numbers leave none out. *)
Lemma range_covered (l : list Z) first last : List.NoDup l -> (forall x, In x l -> first <= x <= last) ->
  Z.of_nat (length l) = last - first + 1 -> forall s, first <= s <= last -> In s l.
Proof.
  intros Hnd Hin Hlen s Hs.
  assert (incl (seqZ first (last - first + 1)) l) as Hincl.
  { apply NoDup_length_incl; [done|rewrite length_seqZ; lia|]. intros x Hx. apply list_elem_of_In, elem_of_seqZ.
    specialize (Hin x Hx). lia. }
  apply Hincl, list_elem_of_In, elem_of_seqZ. lia.
Qed.

Lemma unique_sequences (t : list ThreadInboxEntry) (p : ThreadInboxEntry -> bool) org th : List.NoDup (map e_id t) ->
  unique_on sequence_key t -> (forall e, p e = true -> e_org_id e = org /\ e_thread_id e = th) ->
  List.NoDup (map e_sequence_no (List.filter p t)).
Proof.
  intros Hids Hu Hp. assert (Hf := NoDup_map_filter e_id p t Hids).
  assert (forall e, In e (List.filter p t) -> In e t /\ p e = true) as Hin by (intros e; by rewrite in_filter_iff).
  revert Hf Hin. generalize (List.filter p t). induction l as [|x l IH]; [constructor|]. cbn [map].
  intros [Hx Hl]%List.NoDup_cons_iff Hin. apply List.NoDup_cons_iff. split; [|apply IH; [done|]; intros e He; apply Hin; by right].
  intros (y & Ey & Hy)%in_map_iff. apply Hx.
  destruct (Hin x) as [Hxt Hxp]; [by left|]. destruct (Hin y) as [Hyt Hyp]; [by right|].
  destruct (Hp x Hxp) as [? ?], (Hp y Hyp) as [? ?].
  assert (x = y) as ->; [|by apply in_map]. eapply (Hu x y); [done|done|reflexivity|]. unfold sequence_key. congruence.
Qed.

(** So every number of the range of such a count has its row. *)
Lemma counted_range (t : list ThreadInboxEntry) (p : ThreadInboxEntry -> bool) org th first last :
  List.NoDup (map e_id t) -> unique_on sequence_key t ->
  (forall e, p e = true -> e_org_id e = org /\ e_thread_id e = th /\ first <= e_sequence_no e <= last) ->
  count_rows p t = last - first + 1 ->
  forall s, first <= s <= last -> exists e, In e t /\ p e = true /\ e_sequence_no e = s.
Proof.
  intros Hids Hu Hp Hc s Hs.
  assert (In s (map e_sequence_no (List.filter p t))) as (e & Es & He)%in_map_iff.
  { apply (range_covered _ first last); [| | |done].
    - apply (unique_sequences t p org th); [done|done|]. intros e He. by destruct (Hp e He) as (? & ? & _).
    - intros x (e & <- & He)%in_map_iff. apply in_filter_iff in He as [_ He]. apply (Hp e He).
    - rewrite length_map. exact Hc. }
  apply in_filter_iff in He as [? ?]. eauto.
Qed.

(** ** Acknowledged input becomes applied input *)

(** The columns that an acknowledgment leaves alone. *)
Definition same_entry (e e' : ThreadInboxEntry) : Prop :=
  e_id e' = e_id e /\ e_org_id e' = e_org_id e /\ e_session_id e' = e_session_id e /\ e_thread_id e' = e_thread_id e
  /\ e_sequence_no e' = e_sequence_no e /\ e_message_id e' = e_message_id e
  /\ e_client_message_id e' = e_client_message_id e /\ e_runtime_id e' = e_runtime_id e
  /\ e_delivery_attempts e' = e_delivery_attempts e.

(** A move in flight: claimed or written, and not applied. *)
Definition in_flight (e : ThreadInboxEntry) : Prop :=
  (e_delivery_state e = ThreadInboxDeliveryStateDelivering \/ e_delivery_state e = ThreadInboxDeliveryStateDelivered)
  /\ e_applied_at e = None.

Lemma kept_applied e e1 e2 : entry_kept false e e1 -> in_flight e1 -> same_entry e1 e2 ->
  e_delivery_state e2 = ThreadInboxDeliveryStateAcked -> is_Some (e_delivered_at e2) -> is_Some (e_acked_at e2) ->
  is_Some (e_applied_at e2) -> entry_kept false e e2.
Proof.
  intros Hk [Hst Hap] (Ei & Eo & Es & Et & Eq & Em & Ec & Er & Ea) Hst2 Hd Hk2 Hap2. destruct Hk. split; try congruence.
  - rewrite Hst2. apply ds_apply. intros E. rewrite E in ek_state. destruct Hst as [Hst|Hst]; rewrite Hst in ek_state; inversion ek_state; done.
  - intros Hn. destruct (ek_applied Hn). congruence.
  - unfold entry_wf in *. rewrite Hst2, Ea, Er, Eq. split; [|by destruct ek_wf]. split; [|done].
    destruct Hst as [Hst|Hst]; rewrite Hst in ek_wf; tauto.
Qed.

Lemma kept_touched e e1 e2 : entry_kept false e e1 -> same_entry e1 e2 -> e_delivery_state e2 = e_delivery_state e1 ->
  e_delivered_at e2 = e_delivered_at e1 -> e_acked_at e2 = e_acked_at e1 -> e_applied_at e2 = e_applied_at e1 ->
  entry_kept false e e2.
Proof.
  intros Hk (Ei & Eo & Es & Et & Eq & Em & Ec & Er & Ea) Est Ed Eac Eap. destruct Hk. split; try congruence.
  - intros Hn. destruct (ek_applied Hn). split; congruence.
  - unfold entry_wf in *. by rewrite Est, Er, Ed, Eac, Eap, Ea, Eq.
Qed.

(** The two updates of a batch, after whatever [e1] the statements before made
    of [e]. *)
Section Settle.
Variables (now at_ : time) (b : ThreadInboxDeliveryBatch) (q : ThreadInboxEntry -> bool) (ack : ThreadInboxEntry -> ThreadInboxEntry).
Hypothesis q_batch : forall e, q e = true -> batch_entry b e = true.
Hypothesis q_flight : forall e, entry_wf e -> q e = true -> in_flight e.
Hypothesis ack_same : forall e, same_entry e (ack e) /\ e_delivery_state (ack e) = ThreadInboxDeliveryStateAcked
  /\ is_Some (e_acked_at (ack e)) /\ e_applied_at (ack e) = e_applied_at e.
Hypothesis ack_delivered : forall e, entry_wf e -> q e = true -> is_Some (e_delivered_at (ack e)).

Definition settled (e : ThreadInboxEntry) : bool :=
  batch_entry b e && (e_delivery_state e ==? ThreadInboxDeliveryStateAcked).
Definition settle (e : ThreadInboxEntry) : ThreadInboxEntry :=
  let e := if q e then ack e else e in if settled e then started_entry now at_ e else e.

Lemma batch_entry_same e e' : same_entry e e' -> batch_entry b e' = batch_entry b e.
Proof. intros (_ & Eo & Es & Et & Eq & _ & _ & Er & _). unfold batch_entry, in_range. by rewrite Eo, Es, Et, Eq, Er. Qed.

Lemma settle_acks e : q e = true -> settle e = started_entry now at_ (ack e).
Proof.
  intros Hq. unfold settle. rewrite Hq. destruct (ack_same e) as (Hs & Hst & _ & _). unfold settled.
  rewrite (batch_entry_same _ _ Hs), q_batch by done. by rewrite bool_decide_eq_true_2.
Qed.

Lemma settle_kept e e1 : entry_kept false e e1 -> entry_kept false e (settle e1).
Proof.
  intros Hk. destruct (q e1) eqn:Hq.
  - rewrite settle_acks by done. destruct (ack_same e1) as (Hs & Hst & Hac & Hap). pose proof (q_flight e1 (ek_wf _ _ _ Hk) Hq) as Hf.
    apply (kept_applied e e1); simpl; [done|done| |done| |done|auto with plane].
    + destruct Hs as (? & ? & ? & ? & ? & ? & ? & ? & ?). by repeat split.
    + apply (ack_delivered e1); [apply (ek_wf _ _ _ Hk)|done].
  - unfold settle. rewrite Hq. destruct (settled e1) eqn:Es; [|done].
    apply (kept_touched e e1); try done. simpl. unfold settled in Es. reflect_bools.
    apply coalesce_kept. pose proof (ek_wf _ _ _ Hk) as Hw. unfold entry_wf in Hw.
    match goal with H : e_delivery_state e1 = _ |- _ => rewrite H in Hw end.
    destruct Hw as [(_ & _ & _ & [x ->]) _]. done.
Qed.

Lemma settle_table t : update settled (started_entry now at_) (update q ack t) = map settle t.
Proof. unfold update. rewrite map_map. apply map_ext. intros e. unfold settle. done. Qed.

(** The rows of the range are all among the acknowledged ones. *)
Lemma settled_applied t : Forall entry_wf t -> List.NoDup (map e_id t) -> unique_on sequence_key t ->
  count_rows q t = b_sequence_end b - b_sequence_start b + 1 ->
  (forall s, b_sequence_start b <= s <= b_sequence_end b ->
     exists e, In e (map settle t) /\ e_org_id e = b_org_id b /\ e_thread_id e = b_thread_id b /\ e_sequence_no e = s
       /\ e_runtime_id e = Some (b_runtime_id b) /\ e_delivery_state e = ThreadInboxDeliveryStateAcked
       /\ e_applied_at e <> None)
  /\ (forall e, In e t -> e_org_id e = b_org_id b -> e_thread_id e = b_thread_id b ->
        b_sequence_start b <= e_sequence_no e <= b_sequence_end b -> in_flight e).
Proof.
  rewrite List.Forall_forall. intros Hwf Hids Hu Hc.
  assert (forall e, q e = true -> e_org_id e = b_org_id b /\ e_thread_id e = b_thread_id b
    /\ e_runtime_id e = Some (b_runtime_id b) /\ b_sequence_start b <= e_sequence_no e <= b_sequence_end b) as Hq.
  { intros e He%q_batch. unfold batch_entry, in_range, col_is in He. reflect_bools. done. }
  assert (Hcov := counted_range t q (b_org_id b) (b_thread_id b) (b_sequence_start b) (b_sequence_end b) Hids Hu).
  split.
  - intros s Hs. destruct (Hcov) with (s := s) as (e & Hin & Hqe & Es); [|done|done|].
    { intros e He. destruct (Hq e He) as (? & ? & ? & ?). done. }
    exists (settle e). split; [by apply in_map|]. rewrite settle_acks by done.
    destruct (ack_same e) as ((_ & Eo & _ & Et & Esq & _ & _ & Er & _) & Hst & _ & _), (Hq e Hqe) as (? & ? & ? & ?). simpl.
    repeat split; try congruence. destruct (coalesce_some (e_applied_at (ack e)) at_) as [? ->]. done.
  - intros e Hin Ho Ht Hs. destruct (Hcov) with (s := e_sequence_no e) as (e0 & Hin0 & Hq0 & Es); [|done|done|].
    { intros x Hx. destruct (Hq x Hx) as (? & ? & ? & ?). done. }
    destruct (Hq e0 Hq0) as (? & ? & ? & ?).
    assert (e0 = e) as <-; [|by apply q_flight; [apply Hwf|]]. eapply (Hu e0 e); [done|done|reflexivity|]. unfold sequence_key. congruence.
Qed.
End Settle.

(** A new batch that a phase has started. *)
Lemma new_batch_inv phases phases' entries entries' t b : Forall entry_wf entries ->
  phases_step phases phases' -> entries_step false entries entries' -> batches_inv phases entries t ->
  ~ In (b_id b) (map b_id t) -> batch_done phases' entries' b ->
  (forall e, In e entries -> e_org_id e = b_org_id b -> e_thread_id e = b_thread_id b ->
     b_sequence_start b <= e_sequence_no e <= b_sequence_end b -> e_applied_at e = None) ->
  batches_inv phases' entries' (t ++ [b])%list.
Proof.
  intros Hwf Hp He Hinv Hid Hd Hfl. pose proof (batches_step_inv _ _ _ _ _ _ Hwf Hp He Hinv) as [Hi Hdone Hdj].
  assert (forall a, In a t -> overlap a b \/ overlap b a -> False) as Hno.
  { intros a Ha Hov. assert (overlap a b) as (Ho & Ht & s & Hsa & Hsb).
    { destruct Hov as [|(? & ? & s & ? & ?)]; [done|]. split; [done|]. split; [done|]. by exists s. }
    destruct (bd_applied _ _ _ (bi_done _ _ _ Hinv a Ha) s Hsa) as (e & Hin & Eo & Et & Es & _ & _ & Hap).
    apply Hap, Hfl; [done|congruence..|by rewrite Es]. }
  split.
  - rewrite map_app. apply List.NoDup_app; [done|repeat constructor; auto|]. intros y Hy [<-|[]]. auto.
  - intros x [Hx|[<-|[]]]%in_app_iff; auto.
  - intros x y Hx Hy Hov. apply in_app_iff in Hx as [Hx|[<-|[]]]; apply in_app_iff in Hy as [Hy|[<-|[]]]; auto.
    + exfalso. eauto.
    + exfalso. eauto.
Qed.

(** ** The transactions *)

Record phase_ctx (db : DB) : Prop := {
  px_phases : phases_inv (session_activity_phases db);
  px_entries : entries_inv (thread_inbox_entries db);
  px_runtimes : runtimes_inv (thread_runtimes db);
  px_batches : batches_inv (session_activity_phases db) (thread_inbox_entries db) (thread_inbox_delivery_batches db)
}.

Lemma phase_move_refl db : phase_ctx db -> phase_move db db.
Proof. intros [_ _ _ Hb]. split; auto using phases_idle, entries_idle, runtimes_idle. Qed.

(** Nothing waits to be started. *)
Lemma no_awaiting db org s th id b : phase_ctx db -> In b (thread_inbox_delivery_batches db) ->
  awaiting_batch org s th id b = false.
Proof.
  intros Hx Hb. unfold awaiting_batch. rewrite (bd_status _ _ _ (bi_done _ _ _ (px_batches _ Hx) b Hb)).
  by rewrite (bool_decide_eq_false_2 (InboxDeliveryBatchStarted = _)), andb_false_r.
Qed.

(** A transaction that only writes phases. *)
Lemma phase_only_move db db' : phase_ctx db -> phase_frame db db' -> thread_inbox_entries db' = thread_inbox_entries db ->
  thread_inbox_delivery_batches db' = thread_inbox_delivery_batches db ->
  phases_step (session_activity_phases db) (session_activity_phases db') -> phase_move db db'.
Proof.
  intros Hx (? & ? & ? & ? & Er) Ee Eb Hp. split; auto.
  - rewrite Ee. apply entries_idle.
  - rewrite Er. apply runtimes_idle.
  - rewrite Ee, Eb. eapply batches_step_inv; [apply Hx|exact Hp|apply (entries_idle false)|apply Hx].
Qed.

Lemma set_phases_move db p f : phase_ctx db -> (forall x, In x (session_activity_phases db) -> p x = true -> phase_ended x (f x)) ->
  phase_move db (db <| session_activity_phases := update p f (session_activity_phases db) |>).
Proof. intros Hx Hf. apply phase_only_move; try done. by apply phases_end. Qed.

(** A batch of the table's own, started in the same transaction: the last row
    of [batches] is the only one that waits. *)
Lemma start_fresh_batch db d b org s th id : phase_ctx db ->
  thread_inbox_delivery_batches d = (thread_inbox_delivery_batches db ++ [b])%list ->
  forall b', In b' (thread_inbox_delivery_batches d) -> awaiting_batch org s th id b' = true -> b' = b.
Proof.
  intros Hx E b' Hb Ha. rewrite E in Hb. apply in_app_iff in Hb as [Hb|[<-|[]]]; [|done].
  by rewrite (no_awaiting db) in Ha.
Qed.
Lemma start_last_batch db now at_ org s th b : phase_ctx db -> awaiting_batch org s th (b_id b) b = true ->
  update (awaiting_batch org s th (b_id b)) (started_batch now at_) (thread_inbox_delivery_batches db ++ [b])
  = (thread_inbox_delivery_batches db ++ [started_batch now at_ b])%list.
Proof.
  intros Hx Ha. unfold update. rewrite map_app. simpl. rewrite Ha. f_equal.
  rewrite <- (map_id (thread_inbox_delivery_batches db)) at 2. apply map_ext_in. intros x Hin. by rewrite (no_awaiting db).
Qed.

(** The acknowledgment of the delivered input after the cursor. *)
Definition delivered_range (org s th rt : uuid) (first last : Z) (e : ThreadInboxEntry) : bool :=
  in_range org s th rt first last e && (e_delivery_state e ==? ThreadInboxDeliveryStateDelivered).
Definition ack_delivered_entry (now at_ : time) (e : ThreadInboxEntry) : ThreadInboxEntry :=
  e <| e_delivery_state := ThreadInboxDeliveryStateAcked |> <| e_acked_at := coalesce (e_acked_at e) at_ |>
    <| e_updated_at := now |>.

Record acknowledged (now at_ : time) (fresh org s th rt tok : uuid) (last : Z) (db d : DB) (first : Z) : Prop := {
  ak_range : 0 < first <= last;
  ak_first : forall r, In r (thread_runtimes db) -> tr_id r = rt -> first = tr_last_acked_sequence r + 1;
  ak_count : count_rows (delivered_range org s th rt first last) (thread_inbox_entries db) = last - first + 1;
  ak_fresh : ~ In fresh (map b_id (thread_inbox_delivery_batches db));
  ak_frame : jobs d = jobs db /\ nodes d = nodes db /\ session_executors d = session_executors db
    /\ worker_retirement_seals d = worker_retirement_seals db;
  ak_phases : phases_step (session_activity_phases db) (session_activity_phases d);
  ak_entries : thread_inbox_entries d = update (delivered_range org s th rt first last) (ack_delivered_entry now at_) (thread_inbox_entries db);
  ak_batches : thread_inbox_delivery_batches d = (thread_inbox_delivery_batches db ++ [new_batch now fresh org s th rt first last at_])%list;
  ak_runtimes : runtimes_step (thread_runtimes db) (thread_runtimes d)
}.

Lemma acknowledge_spec now fresh org s th rt tok active last at_ db d b completed replay : phase_ctx db ->
  acknowledgeInboxBatchInTx now fresh org s th rt tok active last at_ db = Ok (d, (b, completed, replay)) ->
  (d = db /\ In b (thread_inbox_delivery_batches db))
  \/ exists first, b = new_batch now fresh org s th rt first last (postgresTimestamp at_)
       /\ acknowledged now (postgresTimestamp at_) fresh org s th rt tok last db d first.
Proof.
  intros Hx. unfold acknowledgeInboxBatchInTx. outcome_if Hv; [done|].
  destruct (select _ (thread_runtimes db)) as [|r l] eqn:El; [done|].
  assert (In r (r :: l)) as Hr by (by left). rewrite <- El in Hr. apply in_filter_iff in Hr as [Hr Hp].
  outcome_if Hlt; [done|]. outcome_if Heq.
  { destruct (select _ (thread_inbox_delivery_batches db)) as [|b0 l0] eqn:E0; [done|]. intros [= <- <- <- <-]. left. split; [done|].
    assert (In b0 (b0 :: l0)) as Hb by (by left). rewrite <- E0 in Hb. by apply in_filter_iff in Hb as [Hb _]. }
  outcome_if Hc; [done|]. outcome_match Eph. destruct a as [phases c].
  outcome_if Hb; [done|]. outcome_if Hc1; [done|]. intros [= <- <- <- <-]. right.
  exists (tr_last_acked_sequence r + 1). split; [done|].
  reflect_bools. apply Z.eqb_neq in Heq. apply Z.eqb_eq in Hc.
  split; try done.
  - lia.
  - intros x Hin Hid. f_equal. unfold scoped_runtime in *. reflect_bools.
    by rewrite (map_key_inj tr_id (thread_runtimes db) x r) by (apply Hx || congruence).
  - intros (x & Ex & Hin)%in_map_iff. match goal with H : exists_row _ _ = false |- _ => apply (exists_row_none _ _ x H) in Hin end.
    by reflect_bools.
  - simpl. destruct active as [ph|]; [|by injection Eph as <- _; apply phases_idle].
    destruct (select _ (session_activity_phases db)) as [|x lx]; [done|]. injection Eph as <- _. apply phases_end.
    intros y _ Hy. unfold completable in Hy. reflect_bools. apply complete_phase_ended; [|done|done].
    unfold validateTerminalActivityPhase. by match goal with H : IsZero _ = false |- _ => rewrite H end.
  - simpl. apply runtimes_write. intros x Hin Hxp. reflect_bools.
    assert (x = r) as ->.
    { unfold scoped_runtime in *. reflect_bools. apply (map_key_inj tr_id (thread_runtimes db)); [apply Hx|done..|congruence]. }
    split; [done|]. split; try done. unfold runtime_wf, runtime_active. simpl. intuition lia.
Qed.

(** A batch whose rows [q] selects is acknowledged by [ack] and started in the
    same transaction. *)
Section OpenBatch.
Variables (now at_ : time) (org s th rt : uuid) (b : ThreadInboxDeliveryBatch).
Variables (q : ThreadInboxEntry -> bool) (ack : ThreadInboxEntry -> ThreadInboxEntry).
Hypothesis q_batch : forall e, q e = true -> batch_entry b e = true.
Hypothesis q_flight : forall e, entry_wf e -> q e = true -> in_flight e.
Hypothesis ack_same : forall e, same_entry e (ack e) /\ e_delivery_state (ack e) = ThreadInboxDeliveryStateAcked
  /\ is_Some (e_acked_at (ack e)) /\ e_applied_at (ack e) = e_applied_at e.
Hypothesis b_waits : awaiting_batch org s th (b_id b) b = true.
Hypothesis b_range : 0 < b_sequence_start b <= b_sequence_end b.

(** [t] is the inbox before the acknowledgment, [d] the database after it. *)
Lemma open_batch db d db' t b' : phase_ctx db ->
  phases_step (session_activity_phases db) (session_activity_phases d) ->
  thread_inbox_delivery_batches d = (thread_inbox_delivery_batches db ++ [b])%list ->
  ~ In (b_id b) (map b_id (thread_inbox_delivery_batches db)) ->
  thread_inbox_entries d = update q ack t ->
  entries_step false (thread_inbox_entries db) (map (settle now at_ b q ack) t) ->
  Forall entry_wf t -> List.NoDup (map e_id t) -> unique_on sequence_key t ->
  count_rows q t = b_sequence_end b - b_sequence_start b + 1 ->
  (forall e, In e (thread_inbox_entries db) -> e_applied_at e <> None ->
     exists e', In e' t /\ e_org_id e' = e_org_id e /\ e_thread_id e' = e_thread_id e
       /\ e_sequence_no e' = e_sequence_no e /\ e_applied_at e' <> None) ->
  batch_start now at_ org s th (b_id b) d db' b' ->
  phases_step (session_activity_phases db) (session_activity_phases db')
  /\ entries_step false (thread_inbox_entries db) (thread_inbox_entries db')
  /\ batches_inv (session_activity_phases db') (thread_inbox_entries db') (thread_inbox_delivery_batches db').
Proof.
  intros Hx Hp Eb Hid Ee Hs Hwf Hids Hu Hc Happ Hst.
  assert (b' = b) as ->.
  { eapply (start_fresh_batch db d); [done|done|apply Hst|apply Hst]. }
  assert (thread_inbox_entries db' = map (settle now at_ b q ack) t) as Ef.
  { rewrite (bs_entries _ _ _ _ _ _ _ _ _ Hst), Ee. apply settle_table. }
  assert (phases_step (session_activity_phases db) (session_activity_phases db')) as Hp'.
  { eapply phases_trans; [exact Hp|apply Hst]. }
  split; [done|]. rewrite Ef. split; [done|].
  rewrite (bs_batches _ _ _ _ _ _ _ _ _ Hst), Eb, start_last_batch by done.
  destruct (settled_applied now at_ b q ack q_batch q_flight ack_same t Hwf Hids Hu Hc) as [Hcov Hfl].
  eapply new_batch_inv; [apply Hx|done|done|apply Hx|done| |].
  - split; try done. destruct (bs_phase _ _ _ _ _ _ _ _ _ Hst) as (p & Hin & Ho & Ht & Hr & Htr).
    unfold awaiting_batch in b_waits. reflect_bools. exists p. simpl. repeat split; congruence.
  - intros e Hin Ho Ht Hsq. simpl in *.
    destruct (e_applied_at e) as [x|] eqn:Ea; [|done]. exfalso.
    destruct (Happ e Hin) as (e' & Hin' & Eo & Et & Es & Hap); [congruence|].
    destruct (Hfl e' Hin'); [congruence..|by rewrite Es|done].
Qed.
End OpenBatch.

(** ** Steering *)

Lemma ack_delivered_same now at_ e : same_entry e (ack_delivered_entry now at_ e)
  /\ e_delivery_state (ack_delivered_entry now at_ e) = ThreadInboxDeliveryStateAcked
  /\ is_Some (e_acked_at (ack_delivered_entry now at_ e))
  /\ e_applied_at (ack_delivered_entry now at_ e) = e_applied_at e.
Proof. split; [by repeat split|]. split; [done|]. split; [apply coalesce_some|done]. Qed.

Lemma delivered_in_flight org s th rt first last e : entry_wf e -> delivered_range org s th rt first last e = true ->
  in_flight e /\ is_Some (e_delivered_at e).
Proof.
  unfold delivered_range, entry_wf, in_flight. intros Hw Hd. reflect_bools.
  match goal with H : e_delivery_state e = _ |- _ => rewrite H in * end. tauto.
Qed.

Lemma steer_move now clock fb fp org s th rt tok active turn last confirmed at_ db db' r : phase_ctx db ->
  AcknowledgeInboxBatchAndStartPhase now clock fb fp org s th rt tok active turn last confirmed at_ db = Ok (db', r) ->
  phase_move db db'.
Proof.
  intros Hx. unfold AcknowledgeInboxBatchAndStartPhase. outcome_if H1; [done|]. outcome_if H2; [done|].
  destruct (select _ (thread_runtimes db)) as [|rt0 l]; [done|].
  destruct (select _ (thread_inbox_delivery_batches db)) as [|b l0] eqn:Eb.
  - outcome_if H3; [done|]. outcome_match Ea. destruct a as [d [[b c] replay]].
    set (at' := postgresTimestamp at_) in *. outcome_match Es. destruct a as [db'' ph]. intros [= <- _].
    apply start_phase_batch in Es as [b' Hst].
    apply (acknowledge_spec _ _ _ _ _ _ _ _ _ _ _ _ _ _ _ Hx) in Ea as [[-> _]|(first & -> & Hak)].
    { exfalso. pose proof (bs_awaiting _ _ _ _ _ _ _ _ _ Hst) as Hw. by rewrite (no_awaiting db) in Hw by (done || apply Hst). }
    set (b := new_batch _ _ _ _ _ _ _ _ _) in *.
    set (q := delivered_range org s th rt first last). set (ack := ack_delivered_entry now (postgresTimestamp at')).
    assert (Hqb : forall e, q e = true -> batch_entry b e = true) by (intros e He; unfold q, delivered_range in He; by reflect_bools).
    assert (Hqf : forall e, entry_wf e -> q e = true -> in_flight e) by (intros e Hw He; by apply (delivered_in_flight _ _ _ _ _ _ _ Hw He)).
    assert (Hst' := Hst).
    eapply (open_batch now at' org s th b q ack Hqb Hqf (ack_delivered_same now _)) in Hst as (Hp & He & Hb);
      [| | |exact Hx|apply Hak|apply Hak|apply Hak|apply Hak| |apply Hx..|apply Hak| ].
    + destruct (bs_frame _ _ _ _ _ _ _ _ _ Hst') as (Ej & En & Ex & Ese & Er), (ak_frame _ _ _ _ _ _ _ _ _ _ _ _ Hak) as (? & ? & ? & ?).
      split; [repeat split; congruence|done|done|rewrite Er; apply Hak|done].
    + unfold awaiting_batch. simpl. by rewrite !bool_decide_eq_true_2 by done.
    + apply Hak.
    + apply entries_map. intros e _ Hw. apply settle_kept; auto with plane; [apply ack_delivered_same|].
      intros e0 Hw0 Hq0. apply (delivered_in_flight _ _ _ _ _ _ _ Hw0 Hq0).
    + intros e Hin Hap. by exists e.
  - outcome_if H3; [done|]. assert (In b (b :: l0)) as Hb by (by left). rewrite <- Eb in Hb. apply in_filter_iff in Hb as [Hb _].
    rewrite (bd_status _ _ _ (bi_done _ _ _ (px_batches _ Hx) b Hb)).
    destruct (select _ (session_activity_phases db)); [done|]. intros [= <- _]. by apply phase_move_refl.
Qed.

(** The range of a batch that the transaction leaves covers what was confirmed. *)
Lemma exact_range sequences first last x : exactInboxSequenceRange sequences first last = true -> In x sequences -> first <= x <= last.
Proof.
  unfold exactInboxSequenceRange. intros Hr Hin. reflect_bools.
  match goal with H : forallb _ _ = true |- _ => rewrite forallb_forall in H; apply H in Hin end. reflect_bools. lia.
Qed.

Lemma steer_batch now clock fb fp org s th rt tok active turn last confirmed at_ db db' r : phase_ctx db ->
  AcknowledgeInboxBatchAndStartPhase now clock fb fp org s th rt tok active turn last confirmed at_ db = Ok (db', r) ->
  exists b, In b (thread_inbox_delivery_batches db') /\ b_org_id b = org /\ b_thread_id b = th /\ b_runtime_id b = rt
    /\ forall x, In x confirmed -> b_sequence_start b <= x <= b_sequence_end b.
Proof.
  intros Hx. unfold AcknowledgeInboxBatchAndStartPhase. outcome_if H1; [done|]. outcome_if H2; [done|].
  destruct (select _ (thread_runtimes db)) as [|rt0 l] eqn:Er; [done|].
  assert (In rt0 (rt0 :: l)) as Hr by (by left). rewrite <- Er in Hr. apply in_filter_iff in Hr as [Hr Hp].
  destruct (select _ (thread_inbox_delivery_batches db)) as [|b l0] eqn:Eb.
  - outcome_if H3; [done|]. outcome_match Ea. destruct a as [d [[b c] replay]].
    outcome_match Es. destruct a as [db'' ph]. intros [= <- _]. apply start_phase_batch in Es as [b' Hst].
    apply (acknowledge_spec _ _ _ _ _ _ _ _ _ _ _ _ _ _ _ Hx) in Ea as [[-> _]|(first & -> & Hak)].
    { exfalso. pose proof (bs_awaiting _ _ _ _ _ _ _ _ _ Hst) as Hw. by rewrite (no_awaiting db) in Hw by (done || apply Hst). }
    eexists. rewrite (bs_batches _ _ _ _ _ _ _ _ _ Hst), (ak_batches _ _ _ _ _ _ _ _ _ _ _ _ Hak), start_last_batch;
      [|done|unfold awaiting_batch; simpl; by rewrite !bool_decide_eq_true_2 by done].
    split; [apply in_app_iff; right; by left|]. repeat (split; [done|]). intros x Hin.
    rewrite negb_false_iff in H3. pose proof (exact_range _ _ _ x H3 Hin) as Hr'. simpl.
    unfold scoped_runtime in Hp. rewrite (ak_first _ _ _ _ _ _ _ _ _ _ _ _ Hak rt0 Hr); [done|by reflect_bools].
  - outcome_if H3; [done|]. assert (In b (b :: l0)) as Hb by (by left). rewrite <- Eb in Hb. apply in_filter_iff in Hb as [Hb Hq].
    rewrite (bd_status _ _ _ (bi_done _ _ _ (px_batches _ Hx) b Hb)).
    destruct (select _ (session_activity_phases db)); [done|]. intros [= <- _]. exists b. reflect_bools.
    repeat (split; [done|]). intros x. by apply exact_range.
Qed.

Lemma steer_covers now clock fb fp org s th rt tok active turn last confirmed at_ db db' r x : phase_ctx db ->
  AcknowledgeInboxBatchAndStartPhase now clock fb fp org s th rt tok active turn last confirmed at_ db = Ok (db', r) ->
  In x confirmed -> exists e, In e (thread_inbox_entries db') /\ e_org_id e = org /\ e_thread_id e = th /\ e_sequence_no e = x
    /\ e_delivery_state e = ThreadInboxDeliveryStateAcked /\ e_applied_at e <> None.
Proof.
  intros Hx Ho Hin. destruct (steer_batch _ _ _ _ _ _ _ _ _ _ _ _ _ _ _ _ _ Hx Ho) as (b & Hb & <- & <- & _ & Hr).
  destruct (bd_applied _ _ _ (bi_done _ _ _ (pm_batches _ _ (steer_move _ _ _ _ _ _ _ _ _ _ _ _ _ _ _ _ _ Hx Ho)) b Hb) x (Hr x Hin))
    as (e & He & Eo & Et & Es & _ & Est & Ea). by exists e.
Qed.

(** ** Seeds *)

Definition claimed_seed (now : time) (rt : uuid) (owner : string) (e : ThreadInboxEntry) : ThreadInboxEntry :=
  e <| e_delivery_state := ThreadInboxDeliveryStateDelivering |> <| e_runtime_id := Some rt |>
    <| e_owner_node_id := Some owner |> <| e_updated_at := now |>.

Lemma claim_seed_kept now org s th rt ids owner db e : entry_wf e ->
  entry_kept false e (if seed_claimable org s th rt ids db e then claimed_seed now rt owner e else e).
Proof.
  intros Hw. destruct (seed_claimable _ _ _ _ _ _ e) eqn:E; [|by apply entry_kept_refl].
  unfold seed_claimable, is_null in E. destruct (e_applied_at e) eqn:Ea; [by rewrite !andb_false_r in E|]. unfold entry_wf in Hw.
  assert (e_delivery_state e = ThreadInboxDeliveryStatePending \/ e_delivery_state e = ThreadInboxDeliveryStateDelivering) as Hs.
  { reflect_bools. repeat match goal with H : (_ || _)%bool = true |- _ => apply orb_true_iff in H as [H|H] end; reflect_bools; auto.
    match goal with H : e_delivery_state e = _ |- _ => rewrite H, Ea in Hw end. by destruct Hw as [(_ & _ & _ & [? ?]) _]. }
  split; try done; simpl.
  - destruct Hs as [-> | ->]; constructor.
  - unfold entry_wf. simpl. destruct Hs as [E'|E']; rewrite E' in Hw; destruct Hw as [_ ?]; eauto.
Qed.

(** What the backfill leaves: the old rows and new pending ones. *)
Lemma NoDup_omap_unique {K} (key : ThreadInboxEntry -> option K) t : NoDup (omap key t) -> unique_on key t.
Proof.
  intros Hnd a b k Ha Hb Hka Hkb. induction t as [|x t IH]; [done|].
  assert (forall y, In y t -> key y = Some k -> k ∈ omap key t) as Hmem.
  { intros y Hy Hky. apply list_elem_of_omap. exists y. split; [by apply list_elem_of_In|done]. }
  simpl in Hnd. destruct Ha as [->|Ha], Hb as [->|Hb]; [done| | |].
  - rewrite Hka in Hnd. apply NoDup_cons in Hnd as [Hn _]. exfalso. eauto.
  - rewrite Hkb in Hnd. apply NoDup_cons in Hnd as [Hn _]. exfalso. eauto.
  - apply IH; auto. destruct (key x); [by apply NoDup_cons in Hnd as [_ ?]|done].
Qed.
Lemma NoDup_map_unique {K} (key : ThreadInboxEntry -> K) t : NoDup (map key t) -> unique_on (fun e => Some (key e)) t.
Proof.
  intros Hnd a b k Ha Hb [= Hka] [= Hkb]. apply (map_key_inj key t); [by apply NoDup_ListNoDup|done|done|congruence].
Qed.

Lemma existsb_none {A} (p : A -> bool) l x : existsb p l = false -> In x l -> p x = false.
Proof. intros Hl Hx. apply not_true_iff_false. intros Hp. rewrite <- not_true_iff_false in Hl. apply Hl, existsb_exists. eauto. Qed.

Lemma backfill_spec now fresh org s th ids db d : entries_inv (thread_inbox_entries db) ->
  backfill_seeds now fresh org s th ids db = Ok d ->
  exists rows, d = db <| thread_inbox_entries := (thread_inbox_entries db ++ rows)%list |>
    /\ entries_inv (thread_inbox_entries db ++ rows).
Proof.
  intros Hi. unfold backfill_seeds. set (rows := imap _ _). destruct (length rows =? 0)%nat eqn:E0.
  { intros [= <-]. exists []. rewrite app_nil_r. by destruct db. }
  destruct (existsb _ rows) eqn:Ep; [done|].
  destruct (entry_keys_distinct _) eqn:Ek; [|done]. intros [= <-]. exists rows. split; [done|].
  unfold entry_keys_distinct in Ek. reflect_bools. split.
  - by apply NoDup_ListNoDup.
  - apply Forall_app. split; [apply Hi|]. apply List.Forall_forall. intros e He. pose proof (existsb_none _ _ e Ep He) as Hs.
    apply list_elem_of_In in He. unfold rows in He. apply elem_of_lookup_imap in He as (i & m & -> & _). split; [done|]. simpl in *. lia.
  - by apply NoDup_map_unique.
  - by apply NoDup_omap_unique.
  - by apply NoDup_omap_unique.
Qed.

Lemma claim_spec now org s th rt ids db : exists c,
  claim_seeds now org s th rt ids db = db <| thread_inbox_entries := map c (thread_inbox_entries db) |>
  /\ (forall e, entry_wf e -> entry_kept false e (c e)) /\ (forall e, e_applied_at e <> None -> c e = e).
Proof.
  unfold claim_seeds. destruct (select _ _) as [|r l].
  - exists id. rewrite map_id. split; [by destruct db|]. split; [intros; by apply entry_kept_refl|done].
  - exists (fun e => if seed_claimable org s th rt ids db e then claimed_seed now rt (tr_owner_node_id r) e else e).
    split; [done|]. split; [intros e; by apply claim_seed_kept|].
    intros e He. unfold seed_claimable, is_null. destruct (e_applied_at e); [|done]. by rewrite !andb_false_r.
Qed.

(** A table rewritten by kept rows has the keys it had. *)
Lemma kept_map_inv (g : ThreadInboxEntry -> ThreadInboxEntry) t : (forall e, In e t -> entry_wf e -> entry_kept false e (g e)) ->
  entries_inv t -> entries_inv (map g t).
Proof. intros Hg Hi. eapply entries_step_inv; [exact Hi|]. by apply (entries_map false). Qed.

Lemma extend_step (g : ThreadInboxEntry -> ThreadInboxEntry) t rows : (forall e, entry_wf e -> entry_kept false e (g e)) ->
  entries_inv (t ++ rows) -> entries_step false t (map g (t ++ rows)).
Proof.
  intros Hg Hi. assert (entries_inv (map g (t ++ rows))) as [Hids Hwf Hs Hm Hc] by (apply kept_map_inv; auto).
  rewrite map_app in *. apply entries_extend; auto. by apply Forall_app in Hwf as [_ ?].
Qed.

Definition seed_range (org s th rt : uuid) (first last : Z) (e : ThreadInboxEntry) : bool :=
  in_range org s th rt first last e && (e_delivery_state e ==? ThreadInboxDeliveryStateDelivering) && is_null (e_applied_at e).
Definition ack_seed (now at_ : time) (e : ThreadInboxEntry) : ThreadInboxEntry :=
  e <| e_delivery_state := ThreadInboxDeliveryStateAcked |> <| e_delivered_at := coalesce (e_delivered_at e) at_ |>
    <| e_acked_at := coalesce (e_acked_at e) at_ |> <| e_updated_at := now |>.
Lemma ack_seed_same now at_ e : same_entry e (ack_seed now at_ e)
  /\ e_delivery_state (ack_seed now at_ e) = ThreadInboxDeliveryStateAcked
  /\ is_Some (e_acked_at (ack_seed now at_ e)) /\ e_applied_at (ack_seed now at_ e) = e_applied_at e.
Proof. split; [by repeat split|]. split; [done|]. split; [apply coalesce_some|done]. Qed.
Lemma seed_in_flight org s th rt first last e : seed_range org s th rt first last e = true -> in_flight e.
Proof. unfold seed_range, in_flight, is_null. intros H. reflect_bools. destruct (e_applied_at e); auto. done. Qed.

(** Every batch has started, so a range that has one cannot be taken again. *)
Lemma allocate_spec now fresh org s th rt first last at_ db d b :
  (forall x, In x (thread_inbox_delivery_batches db) -> b_status x = InboxDeliveryBatchStarted) ->
  allocate_seed_batch now fresh org s th rt first last at_ db = Ok (d, b) ->
  b = new_batch now fresh org s th rt first last at_ /\ 0 < first <= last
  /\ ~ In fresh (map b_id (thread_inbox_delivery_batches db))
  /\ d = db <| thread_inbox_delivery_batches := (thread_inbox_delivery_batches db ++ [b])%list |>.
Proof.
  intros Hd. unfold allocate_seed_batch.
  destruct (select _ (thread_inbox_delivery_batches db)) as [|x l] eqn:El.
  - outcome_if E; [done|]. intros [= <- <-]. reflect_bools. split; [done|]. split; [lia|]. split; [|done].
    intros (x & Ex & Hx)%in_map_iff. match goal with H : exists_row _ _ = false |- _ => apply (exists_row_none _ _ x H) in Hx end.
    by reflect_bools.
  - assert (In x (x :: l)) as Hx by (by left). rewrite <- El in Hx. apply in_filter_iff in Hx as [Hx _].
    outcome_if E; [|done]. reflect_bools. exfalso. by rewrite (Hd x Hx) in *.
Qed.

Lemma advance_seed_runtimes org s th rt tok now last t (r : ThreadRuntime) : runtimes_inv t -> In r t ->
  scoped_runtime org s th rt tok r = true -> runtime_attachable r = true -> tr_last_acked_sequence r <= last ->
  runtimes_step t (update (fun r => (tr_org_id r ==? org) && (tr_session_id r ==? s) && (tr_thread_id r ==? th) && (tr_id r ==? rt))
    (fun r => r <| tr_last_acked_sequence := last |> <| tr_last_delivered_sequence := Z.max (tr_last_delivered_sequence r) last |>
                <| tr_updated_at := now |>) t).
Proof.
  intros Hi Hin Hs Ha Hl. apply runtimes_write. intros x Hx Hp. unfold scoped_runtime in Hs. reflect_bools.
  assert (x = r) as -> by (apply (map_key_inj tr_id t); [apply Hi|done..|congruence]).
  unfold runtime_attachable, runtime_active in *. split; [by destruct (tr_status r)|].
  split; try done. unfold runtime_wf, runtime_active. simpl. intuition lia.
Qed.

Lemma remove_dups_nonempty (l : list Z) : (length l =? 0)%nat = false -> 0 < Z.of_nat (length (remove_dups l)).
Proof.
  destruct l as [|x l]; [done|]. intros _. assert (x ∈ remove_dups (x :: l)) as H by (apply elem_of_remove_dups; by left).
  destruct (remove_dups (x :: l)); [by apply elem_of_nil in H|simpl; lia].
Qed.

(** [d] is the database with the seeds backfilled and claimed. *)
Lemma admit_move now clock fb fp org s th turn rt tok first last total at_ db rows c r0 db' r : phase_ctx db ->
  entries_inv (thread_inbox_entries db ++ rows) ->
  (forall e, entry_wf e -> entry_kept false e (c e)) -> (forall e, e_applied_at e <> None -> c e = e) ->
  In r0 (thread_runtimes db) -> scoped_runtime org s th rt tok r0 = true -> runtime_attachable r0 = true ->
  first = tr_last_acked_sequence r0 + 1 -> last - first + 1 = total ->
  admit_seeds now clock fb fp org s th turn rt tok first last total at_
    (db <| thread_inbox_entries := map c (thread_inbox_entries db ++ rows) |>) = Ok (db', r) -> phase_move db db'.
Proof.
  intros Hx Hi Hck Hca Hr0 Hs0 Ha0 Hfirst Htot. unfold admit_seeds.
  destruct (allocate_seed_batch _ _ _ _ _ _ _ _ _ _) as [[d b]|] eqn:Eal; [|done].
  apply allocate_spec in Eal as (Eb & Hfl & Hid & ->);
    [|intros x Hin; apply (bd_status _ _ _ (bi_done _ _ _ (px_batches _ Hx) x Hin))].
  outcome_if Hcnt; [done|]. outcome_match Es. destruct a as [db1 ph]. intros [= <- _].
  apply start_phase_batch in Es as [b' Hst]. apply negb_false_iff, Z.eqb_eq in Hcnt.
  set (T := (thread_inbox_entries db ++ rows)%list) in *. set (q := seed_range org s th rt first last).
  assert (entries_inv (map c T)) as Hc by (apply kept_map_inv; auto).
  assert (Hqb : forall e, q e = true -> batch_entry b e = true) by (intros e He; subst b; unfold q, seed_range in He; by reflect_bools).
  assert (Hqf : forall e, entry_wf e -> q e = true -> in_flight e) by (intros e _; apply seed_in_flight).
  assert (Hst' := Hst).
  eapply (open_batch now at_ org s th b q (ack_seed now at_) Hqb Hqf (ack_seed_same now at_)) with (db := db) (t := map c T) in Hst
    as (Hp & He & Hb); subst b.
  - destruct (bs_frame _ _ _ _ _ _ _ _ _ Hst') as (? & ? & ? & ? & Er). split; simpl; try done.
    rewrite Er. simpl. eapply advance_seed_runtimes; [apply Hx|done|done|done|lia].
  - unfold awaiting_batch. simpl. by rewrite !bool_decide_eq_true_2 by done.
  - exact Hfl.
  - exact Hx.
  - apply phases_idle.
  - done.
  - exact Hid.
  - done.
  - rewrite map_map. apply extend_step; [|exact Hi]. intros e Hw. apply settle_kept; auto.
    + apply ack_seed_same.
    + intros e0 _ _. apply coalesce_some.
  - apply Hc.
  - apply Hc.
  - apply Hc.
  - simpl. rewrite Htot. exact Hcnt.
  - intros e Hin Hap. exists e. split; [|done]. rewrite <- (Hca e Hap). apply in_map, in_app_iff. by left.
Qed.

Lemma seed_move now clock fe fb fp org s th turn rt tok ids at_ db db' r : phase_ctx db ->
  StartSeedPhase now clock fe fb fp org s th turn rt tok ids at_ db = Ok (db', r) -> phase_move db db'.
Proof.
  intros Hx. unfold StartSeedPhase. outcome_if Hv; [done|]. outcome_if Ht; [done|].
  destruct (select _ (thread_runtimes db)) as [|rt0 l] eqn:El; [done|].
  assert (In rt0 (rt0 :: l)) as Hr by (by left). rewrite <- El in Hr. apply in_filter_iff in Hr as [Hr Hrp].
  destruct (backfill_seeds _ _ _ _ _ _ db) as [d0|] eqn:Ebf; [|done].
  apply backfill_spec in Ebf as (rows & -> & Hi); [|apply Hx].
  destruct (claim_spec now org s th rt ids (db <| thread_inbox_entries := (thread_inbox_entries db ++ rows)%list |>)) as (c & -> & Hck & Hca).
  outcome_if Htot; [done|]. outcome_if Hz.
  { exfalso. unfold validateSeedPhaseStart in Hv. reflect_bools. apply Z.eqb_eq in Htot.
    match goal with H : (length ids =? 0)%nat = false |- _ => apply remove_dups_nonempty in H end. lia. }
  outcome_if Hseq; [done|]. reflect_bools.
  intros Had. eapply (admit_move _ _ _ _ _ _ _ _ _ _ _ _ _ _ db rows c rt0); [done..|by apply Z.eqb_eq|by apply Z.eqb_eq|exact Had].
Qed.

(** ** The writes of the phase store *)

(** A message, a human input request or the result of a turn, stored with the
    end of a phase, is none of the plane's rows. *)
Definition beside_plane (db d : DB) : Prop :=
  phase_frame db d /\ thread_inbox_entries d = thread_inbox_entries db
  /\ thread_inbox_delivery_batches d = thread_inbox_delivery_batches db
  /\ session_activity_phases d = session_activity_phases db.

Inductive phase_op (db : DB) : DB -> Prop :=
  | op_start_phase now clock fresh org s th turn rt tok tr at_ db' p :
      StartPhase now clock fresh org s th turn rt tok tr at_ db = Ok (db', p) -> phase_op db db'
  | op_start_seed now clock fe fb fp org s th turn rt tok ids at_ db' r :
      StartSeedPhase now clock fe fb fp org s th turn rt tok ids at_ db = Ok (db', r) -> phase_op db db'
  | op_steer now clock fb fp org s th rt tok active turn last confirmed at_ db' r :
      AcknowledgeInboxBatchAndStartPhase now clock fb fp org s th rt tok active turn last confirmed at_ db = Ok (db', r) ->
      phase_op db db'
  | op_complete_phase now org id status reason at_ db' r :
      CompletePhaseWithTransition now org id status reason at_ db = Ok (db', r) -> phase_op db db'
  | op_complete_in_tx now org id status reason at_ d db' p : beside_plane db d ->
      completeActivityPhaseInTransaction now org id status reason at_ d = Ok (db', p) -> phase_op db db'
  | op_boundary now org id reason at_ persist db' p :
      (forall d, persist db = Ok d -> beside_plane db d) ->
      persistBoundaryAndComplete now org id reason at_ persist db = Ok (db', p) -> phase_op db db'
  | op_reconcile_phase now org id before at_ db' r :
      ReconcileStrandedPhase now org id before at_ db = Ok (db', r) -> phase_op db db'
  | op_reconcile_batches now before at_ n locked db' r :
      ReconcileAbandonedInboxBatchesAcrossOrgs now before at_ n locked db = Ok (db', r) -> phase_op db db'
  | op_abandon_batch now org id at_ db' b :
      AbandonInboxBatch now org id at_ db = Ok (db', b) -> phase_op db db'.

Lemma complete_move now org id status reason at_ db db' p : phase_ctx db ->
  completeActivityPhaseInTransaction now org id status reason at_ db = Ok (db', p) -> phase_move db db'.
Proof.
  intros Hx. unfold completeActivityPhaseInTransaction. outcome_if Hv; [done|].
  destruct (select _ _) as [|y l]; [done|]. intros [= <- _]. apply negb_false_iff in Hv. apply set_phases_move; [done|].
  intros x _ [Hr Ht]%completable_running. by apply complete_phase_ended.
Qed.

Lemma start_phase_move now clock fresh org s th turn rt tok tr at_ db db' p : phase_ctx db ->
  StartPhase now clock fresh org s th turn rt tok tr at_ db = Ok (db', p) -> phase_move db db'.
Proof.
  intros Hx. unfold StartPhase. outcome_if H1; [done|]. outcome_if H2; [done|]. outcome_if H3; [done|].
  apply bool_decide_eq_false in H2. destruct tr as [k [b|]]; simpl in *; intros H.
  - assert (k = ActivityPhaseTriggerInboxBatch) as -> by (case_bool_decide; done).
    apply start_phase_batch in H as [b' Hst]. exfalso. pose proof (bs_awaiting _ _ _ _ _ _ _ _ _ Hst) as Hw.
    by rewrite (no_awaiting db) in Hw by (done || apply Hst).
  - apply start_phase_plain in H as (? & ? & ? & ?); [by apply phase_only_move| |done].
    unfold trigger_ok. simpl. case_bool_decide; [done|]. split; [done|by intros [? ?]].
Qed.

(** No batch is left to abandon. *)
Lemma abandon_none db (p : ThreadInboxDeliveryBatch -> bool) : phase_ctx db ->
  (forall b, p b = true -> b_status b = InboxDeliveryBatchAcknowledged) ->
  select p (thread_inbox_delivery_batches db) = [] /\ exists_row p (thread_inbox_delivery_batches db) = false.
Proof.
  intros Hx Hp. assert (forall b, In b (thread_inbox_delivery_batches db) -> p b = false) as Hn.
  { intros b Hb. apply not_true_iff_false. intros Hpb%Hp. by rewrite (bd_status _ _ _ (bi_done _ _ _ (px_batches _ Hx) b Hb)) in Hpb. }
  split; [|by apply exists_row_false]. unfold select. destruct (List.filter p _) as [|b l] eqn:E; [done|].
  assert (In b (b :: l)) as Hb by (by left). rewrite <- E in Hb. apply in_filter_iff in Hb as [Hb Hpb]. by rewrite Hn in Hpb.
Qed.

Lemma reconcile_batches_idle now before at_ n locked db db' r : phase_ctx db ->
  ReconcileAbandonedInboxBatchesAcrossOrgs now before at_ n locked db = Ok (db', r) -> db' = db /\ r = [].
Proof.
  intros Hx. unfold ReconcileAbandonedInboxBatchesAcrossOrgs. outcome_if H1; [done|].
  set (p := fun b => existsb _ _ && _). destruct (abandon_none db p Hx) as [E1 E2]; [intros b Hb; unfold p in Hb; by reflect_bools|].
  intros [= <- <-]. rewrite (update_none p) by done. unfold strand_entries. rewrite E1. simpl.
  rewrite update_none by (by apply exists_row_false). by destruct db.
Qed.

Lemma complete_beside now org id status reason at_ db d db' p : phase_ctx db -> beside_plane db d ->
  completeActivityPhaseInTransaction now org id status reason at_ d = Ok (db', p) -> phase_move db db'.
Proof.
  intros Hx ((? & ? & ? & ? & Er) & Ee & Eb & Eph) Hc.
  apply complete_move in Hc; [|split; rewrite ?Ee, ?Er, ?Eb, ?Eph; apply Hx].
  destruct Hc as [(? & ? & ? & ?) Hp He Hr Hb]. rewrite Eph, Ee, Er in *. split; auto. repeat split; congruence.
Qed.

Lemma phase_op_move db db' : phase_ctx db -> phase_op db db' -> phase_move db db'.
Proof.
  intros Hx []; eauto using seed_move, steer_move, complete_beside, start_phase_move.
  - match goal with H : _ = Ok _ |- _ => revert H end. unfold CompletePhaseWithTransition. outcome_if Hv; [done|].
    destruct (select (completable _ _ _) _) as [|y l].
    + destruct (select _ _); [done|]. outcome_if Hs; [|done]. intros [= <- _]. by apply phase_move_refl.
    + intros [= <- _]. apply negb_false_iff in Hv. apply set_phases_move; [done|].
      intros x _ [Hr Ht]%completable_running. by apply complete_phase_ended.
  - match goal with H : persistBoundaryAndComplete _ _ _ _ _ _ _ = _ |- _ => revert H end.
    unfold persistBoundaryAndComplete. outcome_if Hv; [done|]. destruct (persist db) as [d|] eqn:Ep; [|done].
    match goal with H : forall d, _ -> beside_plane _ _ |- _ => specialize (H d eq_refl) end. by apply complete_beside.
  - match goal with H : _ = Ok _ |- _ => revert H end. unfold ReconcileStrandedPhase.
    destruct (select _ (session_activity_phases db)) as [|p l] eqn:El; [intros [= <- _]; by apply phase_move_refl|].
    assert (In p (p :: l)) as Hp by (by left). rewrite <- El in Hp. apply in_filter_iff in Hp as [Hp Hpp].
    outcome_if H1; [done|]. outcome_if H2; [intros [= <- _]; by apply phase_move_refl|].
    outcome_if H3; [intros [= <- _]; by apply phase_move_refl|]. intros [= <- _]. apply set_phases_move; [done|].
    intros x Hin Hr. reflect_bools. assert (x = p) as -> by (apply (map_key_inj ph_id (session_activity_phases db)); [apply Hx|done..|congruence]).
    by apply end_phase.
  - match goal with H : _ = Ok _ |- _ => apply reconcile_batches_idle in H as [-> _]; [|done] end. by apply phase_move_refl.
  - match goal with H : _ = Ok _ |- _ => revert H end. unfold AbandonInboxBatch.
    match goal with |- context [select ?p _] => destruct (abandon_none db p Hx) as [-> _]; [intros x Hb; by reflect_bools|done] end.
Qed.
