(* ===== verification/Plane.v ===== *)
(** * The execution plane as one transition system

    Every write of the job, executor, runtime, inbox, phase and node stores is a
    [step] of the database; anything the rest of the program does to the other
    tables is an environment step.  [reachable] collects the states such steps
    reach from an empty database, together with the lock tokens drawn so far
    ([uuid.New()] never repeats a token). *)

From S2P Require Import Prelude Sql Tables Continuation JobStore ExecutorStore ThreadRuntimeStore.
From S2P Require Import ThreadInboxStore ActivityPhaseStore NodeStore Recovery JobLifecycle JobSteps NodeSteps ExecutorSteps RuntimeSteps InboxSteps PhaseSteps.
From stdpp Require Import base option list strings gmap.

Open Scope string_scope.
Open Scope Z_scope.

(** The rest of the program leaves the tables of the plane alone. *)
Definition same_plane (db db' : DB) : Prop :=
  jobs db' = jobs db /\ nodes db' = nodes db /\ session_executors db' = session_executors db
  /\ thread_runtimes db' = thread_runtimes db /\ thread_inbox_entries db' = thread_inbox_entries db
  /\ worker_retirement_seals db' = worker_retirement_seals db
  /\ session_activity_phases db' = session_activity_phases db
  /\ thread_inbox_delivery_batches db' = thread_inbox_delivery_batches db.

Inductive step (db : DB) : claim -> DB -> Prop :=
  | step_job drawn db' : job_op db drawn db' -> step db drawn db'
  | step_executor db' : executor_op db db' -> step db None db'
  | step_runtime db' : runtime_op db db' -> step db None db'
  | step_inbox manual db' : inbox_op db manual db' -> step db None db'
  | step_phase db' : phase_op db db' -> step db None db'
  | step_node db' : node_op db db' -> step db None db'
  | step_environment db' : same_plane db db' -> step db None db'.

Inductive steps (used : list uuid) (db : DB) : list uuid -> DB -> Prop :=
  | steps_refl : steps used db used db
  | steps_next used1 db1 drawn db2 : steps used db used1 db1 -> unspent drawn used1 ->
      step db1 drawn db2 -> steps used db (spend drawn used1) db2.

Definition reachable : list uuid -> DB -> Prop := steps [] empty_db.

Record plane_inv (used : list uuid) (db : DB) : Prop := {
  pi_queue : queue_inv used (jobs db);
  pi_executors : executors_inv (session_executors db);
  pi_runtimes : runtimes_inv (thread_runtimes db);
  pi_entries : entries_inv (thread_inbox_entries db);
  pi_nodes : node_inv db;
  pi_seals : seal_inv db;
  pi_phases : phases_inv (session_activity_phases db);
  pi_batches : batches_inv (session_activity_phases db) (thread_inbox_entries db) (thread_inbox_delivery_batches db)
}.

Lemma inv_ctx used db : plane_inv used db -> phase_ctx db.
Proof. intros Hi. split; apply Hi. Qed.

(** ** What one step does to each table *)

(** What the tables of input and work go through. *)
Section OneStep.
Variables (db : DB) (drawn : claim) (db' : DB).
Hypothesis ctx : phase_ctx db.
Hypothesis one : step db drawn db'.

Lemma step_runtimes : runtimes_step (thread_runtimes db) (thread_runtimes db').
Proof.
  pose proof (px_runtimes _ ctx) as Hr.
  destruct one as [drawn' db'' H|? H|? H|? ? H|? H|? H|? H].
  - apply job_op_frame in H as (_ & -> & _). apply runtimes_idle.
  - by apply executor_op_runtimes.
  - by apply runtime_op_step; [apply Hr|].
  - by eapply inbox_op_runtimes.
  - apply (pm_runtimes _ _ (phase_op_move _ _ ctx H)).
  - apply node_op_frame in H as [(_ & _ & -> & _) _]. apply runtimes_idle.
  - destruct H as (_ & _ & _ & -> & _). apply runtimes_idle.
Qed.

Lemma step_entries : exists manual,
  entries_step manual (thread_inbox_entries db) (thread_inbox_entries db').
Proof.
  destruct one as [drawn' db'' H|? H|? H|manual ? H|? H|? H|? H].
  - exists false. apply job_op_frame in H as (_ & _ & -> & _). apply entries_idle.
  - exists false. by apply executor_op_entries.
  - exists false. by apply runtime_op_entries.
  - exists manual. by apply inbox_op_step.
  - exists false. apply (pm_entries _ _ (phase_op_move _ _ ctx H)).
  - exists false. apply node_op_frame in H as [(_ & _ & _ & -> & _) _]. apply entries_idle.
  - exists false. destruct H as (_ & _ & _ & _ & -> & _). apply entries_idle.
Qed.

Lemma step_seals :
  (nodes db' = nodes db /\ worker_retirement_seals db' = worker_retirement_seals db)
  \/ (node_op db db' /\ drawn = None).
Proof.
  destruct one as [drawn' db'' H|? H|? H|? ? H|? H|? H|? H]; [left..|by right|left].
  - apply job_op_frame in H as (-> & _ & _ & -> & _). done.
  - by apply executor_op_frame in H as (-> & -> & _).
  - apply runtime_op_frame in H as (_ & -> & _ & -> & _). done.
  - apply inbox_op_frame in H as (_ & -> & _ & -> & _). done.
  - destruct (pm_frame _ _ (phase_op_move _ _ ctx H)) as (_ & -> & _ & ->). done.
  - destruct H as (_ & -> & _ & _ & _ & -> & _). done.
Qed.

Lemma step_phases : phases_step (session_activity_phases db) (session_activity_phases db')
  /\ batches_inv (session_activity_phases db') (thread_inbox_entries db') (thread_inbox_delivery_batches db').
Proof.
  assert (same_phases db db' -> phases_step (session_activity_phases db) (session_activity_phases db')
    /\ batches_inv (session_activity_phases db') (thread_inbox_entries db') (thread_inbox_delivery_batches db')) as Hsame.
  { intros [Ep Eb]. rewrite Ep, Eb. split; [apply phases_idle|]. destruct step_entries as [manual He].
    eapply batches_step_inv; [apply ctx|apply phases_idle|exact He|apply ctx]. }
  destruct one as [drawn' db'' H|? H|? H|? ? H|? H|? H|? H].
  - apply Hsame. by apply job_op_frame in H as (_ & _ & _ & _ & ?).
  - apply Hsame. by apply executor_op_frame in H as (_ & _ & ?).
  - apply Hsame. by apply runtime_op_frame in H as (_ & _ & _ & _ & ?).
  - apply Hsame. by apply inbox_op_frame in H as (_ & _ & _ & _ & ?).
  - destruct (phase_op_move _ _ ctx H) as [_ Hp _ _ Hb]. done.
  - apply Hsame. by apply node_op_frame in H as [(_ & _ & _ & _ & ?) _].
  - apply Hsame. by destruct H as (_ & _ & _ & _ & _ & _ & ?).
Qed.

Lemma step_ctx : phase_ctx db'.
Proof.
  destruct step_phases as [Hp Hb], step_entries as [manual He]. split; [| | |done].
  - eapply phases_step_inv; [apply ctx|done].
  - eapply entries_step_inv; [apply ctx|done].
  - eapply runtimes_step_inv; [apply ctx|apply step_runtimes].
Qed.
End OneStep.

Section QueueStep.
Variables (used : list uuid) (db : DB) (drawn : claim) (db' : DB).
Hypothesis inv : plane_inv used db.
Hypothesis one : step db drawn db'.

Lemma step_queue : queue_step drawn (jobs db) (jobs db').
Proof.
  pose proof (qi_ids _ _ (pi_queue _ _ inv)) as Hids.
  destruct one as [drawn' db'' H|? H|? H|? ? H|? H|? H|? H].
  - by apply job_op_step.
  - by apply executor_op_jobs.
  - apply runtime_op_frame in H as [-> _]. apply queue_idle.
  - apply inbox_op_frame in H as [-> _]. apply queue_idle.
  - destruct (pm_frame _ _ (phase_op_move _ _ (inv_ctx _ _ inv) H)) as [-> _]. apply queue_idle.
  - apply node_op_frame in H as [[-> _] _]. apply queue_idle.
  - destruct H as [-> _]. apply queue_idle.
Qed.

Lemma step_executors : executors_step (session_executors db) (session_executors db').
Proof.
  pose proof (qi_ids _ _ (pi_queue _ _ inv)) as Hids.
  pose proof (xi_ids _ (pi_executors _ _ inv)) as Hx.
  destruct one as [drawn' db'' H|? H|? H|? ? H|? H|? H|? H].
  - by eapply job_op_executors.
  - by apply executor_op_step.
  - apply runtime_op_frame in H as (_ & _ & -> & _). apply executors_idle.
  - apply inbox_op_frame in H as (_ & _ & -> & _). apply executors_idle.
  - destruct (pm_frame _ _ (phase_op_move _ _ (inv_ctx _ _ inv) H)) as (_ & _ & -> & _). apply executors_idle.
  - apply node_op_frame in H as [(_ & -> & _) _]. apply executors_idle.
  - destruct H as (_ & _ & -> & _). apply executors_idle.
Qed.

(** Only a node that the seals admit can claim. *)
Lemma step_claim_admitted tok node : drawn = Some (tok, node) ->
  retirement_admits db (Some node) = true.
Proof.
  destruct one as [drawn' db'' H| | | | | |]; try done.
  destruct H as [| | | |now wall nd owner tk lease locked db3 r H| | | | | | | | | | | | | | | | | | |]; try done.
  destruct r as [j|]; [|done]. intros [= -> ->].
  unfold ClaimNextRunnable in H. destruct (next_job _ _ _ _ _) as [next|] eqn:Hn; [|done].
  apply next_job_pending in Hn as [Hin Hc]. unfold claimable, update_jobs in *.
  destruct (forallb _ _) eqn:Hg; [|done]. rewrite forallb_forall in Hg. specialize (Hg next Hin).
  reflect_bools. rewrite bool_decide_eq_true_2 in Hg by done. simpl in Hg.
  unfold guard_worker_retirement_job in Hg. simpl in Hg.
  match goal with H : j_status next = _ |- _ => rewrite H in Hg end. done.
Qed.
End QueueStep.

Lemma step_inv used db drawn db' : plane_inv used db -> unspent drawn used -> step db drawn db' ->
  plane_inv (spend drawn used) db'.
Proof.
  intros Hinv Hf Hs. pose proof (step_queue used db drawn db' Hinv Hs) as Hq. pose proof (inv_ctx _ _ Hinv) as Hctx.
  pose proof (step_ctx db drawn db' Hctx Hs) as Hctx'.
  assert (queue_inv (spend drawn used) (jobs db')) as Hq' by (eapply queue_step_inv; eauto; apply Hinv).
  assert (node_inv db' /\ seal_inv db') as [Hn Hse].
  { destruct (step_seals db drawn db' Hctx Hs) as [[En Es]|[Hop Ed]].
    - split.
      + destruct (pi_nodes _ _ Hinv) as [? ? Hnm Hsd]. unfold sealed in *.
        split; unfold sealed; rewrite ?En, ?Es; auto.
      + intros j node Hj Hsd Hl. assert (sealed db node) as Hsd' by (unfold sealed in *; by rewrite <- Es).
        destruct (queue_step_owner _ _ _ j node (qi_wf _ _ (pi_queue _ _ Hinv)) Hq Hj Hl)
          as [(i & Hi & Hli)|[tok Hd]].
        * by apply (pi_seals _ _ Hinv i node).
        * apply (ni_named _ (pi_nodes _ _ Hinv)).
          rewrite <- (admits_sealed db node); [done| |done]. by eapply step_claim_admitted.
    - split; [by eapply node_op_inv; [apply Hinv|]|].
      pose proof (node_op_frame _ _ Hop) as [[Ej _] [Es|(c & obs & nd & dp & sh & s & Hseal)]].
      + intros j node Hj Hsd. rewrite Ej in Hj. apply (pi_seals _ _ Hinv j node Hj).
        unfold sealed in *. by rewrite <- Es.
      + eapply seal_keeps_jobs; [apply Hinv|apply Hinv|exact Hseal]. }
  split; auto; [|apply Hctx'..]. eapply executors_step_inv; [apply Hinv|]. by eapply step_executors.
Qed.

Lemma steps_inv used db used' db' : plane_inv used db -> steps used db used' db' -> plane_inv used' db'.
Proof. intros Hinv. induction 1; [done|]. by eapply step_inv. Qed.

Lemma empty_inv : plane_inv [] empty_db.
Proof.
  split.
  - split; [apply List.NoDup_nil|constructor|by intros ? ? ? []|split; [by intros ? ? []|by intros ? ? ? []]].
  - split; [apply List.NoDup_nil|constructor|by intros ? ? []].
  - split; [apply List.NoDup_nil|constructor|by intros ? ? []].
  - split; [apply List.NoDup_nil|constructor|by intros ? ? ? []..].
  - split; [apply List.NoDup_nil|constructor|by intros (s & [] & _)|by intros ? []].
  - by intros ? ? [].
  - split; [apply List.NoDup_nil|constructor|by intros ? ? []|by intros ? ? ? []].
  - split; [apply List.NoDup_nil|by intros ? []|by intros ? ? []].
Qed.

Lemma reachable_inv used db : reachable used db -> plane_inv used db.
Proof. apply steps_inv, empty_inv. Qed.

(** ** What the processes do by themselves *)

(** The steps nobody has to ask for: everything but the reset of a definitely
    rejected write and an operator's retry. *)
Inductive automatic_step (db : DB) : DB -> Prop :=
  | auto_job drawn db' : job_op db drawn db' -> automatic_step db db'
  | auto_executor db' : executor_op db db' -> automatic_step db db'
  | auto_runtime db' : runtime_op db db' -> automatic_step db db'
  | auto_inbox db' : inbox_op db false db' -> automatic_step db db'
  | auto_phase db' : phase_op db db' -> automatic_step db db'
  | auto_node db' : node_op db db' -> automatic_step db db'
  | auto_environment db' : same_plane db db' -> automatic_step db db'.

Lemma automatic_is_step db db' : automatic_step db db' -> exists drawn, step db drawn db'.
Proof.
  intros [drawn ? H|? H|? H|? H|? H|? H|? H]; [by exists drawn; apply step_job|exists None..].
  - by apply step_executor.
  - by apply step_runtime.
  - by eapply step_inbox.
  - by apply step_phase.
  - by apply step_node.
  - by apply step_environment.
Qed.

Lemma automatic_entries db db' : phase_ctx db -> automatic_step db db' ->
  entries_step false (thread_inbox_entries db) (thread_inbox_entries db').
Proof.
  intros Hctx [? ? H|? H|? H|? H|? H|? H|? H].
  - apply job_op_frame in H as (_ & _ & -> & _). apply entries_idle.
  - by apply executor_op_entries.
  - by apply runtime_op_entries.
  - by apply inbox_op_step in H.
  - apply (pm_entries _ _ (phase_op_move _ _ Hctx H)).
  - apply node_op_frame in H as [(_ & _ & _ & -> & _) _]. apply entries_idle.
  - destruct H as (_ & _ & _ & _ & -> & _). apply entries_idle.
Qed.
