(* ===== verification/Scenario.v ===== *)
(** * A concrete run of the plane

    One worker registers, a session job is enqueued, claimed and finished, a
    thread receives and applies one message, and a drained worker is sealed.
    The witnesses of the properties evaluate the model on these states. *)

From S2P Require Import Prelude Sql Tables Continuation JobStore ExecutorStore ThreadRuntimeStore.
From S2P Require Import ThreadInboxStore NodeStore JobLifecycle JobSteps NodeSteps ExecutorSteps RuntimeSteps InboxSteps Plane.
From stdpp Require Import base option list strings gmap.

Open Scope string_scope.
Open Scope Z_scope.

Definition ok {A} (d : A) (r : result A) : A := match r with Ok a => a | Err _ => d end.

Definition t0 : time := 1000 * second.
Definition nobody : uuid -> bool := fun _ => false.
Definition manager1 : NodeManager := MkNodeManager "w1" NodeModeWorker false ∅.
Definition session_opts : EnqueueOpts :=
  MkEnqueueOpts "default" "run_agent" {[ "session_id" := jstr "s1" ]} 0 (Some "run_agent:s1") None 0 None.

Definition db_registered : DB := ok empty_db (Register t0 manager1 "host1" empty_db).
Definition db_enqueued : DB := (ok (empty_db, "") (EnqueueWithOpts t0 "job1" "org1" session_opts db_registered)).1.
Definition db_claimed : DB := (ok (empty_db, None)
  (ClaimNextRunnable t0 t0 "w1" "w1-loop" "tok1" (60 * second) nobody db_enqueued)).1.
Definition db_done : DB := (MarkSucceededWithLease (t0 + second) "job1" "tok1" db_claimed).1.
Definition db_retried : DB := (RetryWithLease (t0 + second) "job1" "tok1" "boom" (t0 + 10 * second) db_claimed).1.

Lemma reachable_registered : reachable [] db_registered.
Proof.
  change [] with (spend None []).
  eapply steps_next; [apply steps_refl|done|].
  apply step_node, op_process, (op_register _ t0 manager1 "host1"). by vm_compute.
Qed.

Lemma reachable_enqueued : reachable [] db_enqueued.
Proof.
  change [] with (spend None []).
  eapply steps_next; [apply reachable_registered|done|].
  apply step_job, (op_enqueue _ t0 "job1" "org1" session_opts _ "job1"). by vm_compute.
Qed.

Lemma step_claimed : step db_enqueued (Some ("tok1", "w1")) db_claimed.
Proof.
  apply step_job.
  apply (op_claim db_enqueued t0 t0 "w1" "w1-loop" "tok1" (60 * second) nobody db_claimed
           (ok (empty_db, None) (ClaimNextRunnable t0 t0 "w1" "w1-loop" "tok1" (60 * second) nobody
              db_enqueued)).2).
  by vm_compute.
Qed.

Lemma reachable_claimed : reachable ["tok1"] db_claimed.
Proof.
  eapply (steps_next _ _ [] db_enqueued (Some ("tok1", "w1"))); [apply reachable_enqueued| |apply step_claimed].
  by intros [].
Qed.

Lemma reachable_done : reachable ["tok1"] db_done.
Proof.
  change ["tok1"] with (spend None ["tok1"]).
  eapply steps_next; [apply reachable_claimed|done|]. apply step_job, op_succeed.
Qed.

Lemma reachable_retried : reachable ["tok1"] db_retried.
Proof.
  change ["tok1"] with (spend None ["tok1"]).
  eapply steps_next; [apply reachable_claimed|done|]. apply step_job, op_retry.
Qed.

(** ** One message through the inbox *)

Definition db_thread : DB :=
  empty_db <| session_threads := [inserted_thread "th1" "org1" "s1" "idle" t0] |>.
Definition append1 : AppendThreadInboxEntryParams :=
  MkAppendThreadInboxEntryParams "s1" "th1" 7 "" ThreadInboxEntryTypeUserMessage ∅.
Definition db_accepted : DB := (ok (empty_db, new_entry t0 "" "" 0 append1)
  (AppendForMessage t0 "e1" "org1" append1 db_thread)).1.
Definition runtime_params : CreateThreadRuntimeParams :=
  MkCreateThreadRuntimeParams "s1" "th1" "sb1" "c1" "" "codex" "" "w1" "lease1" 0 0 0 0 (60 * second).
Definition db_started : DB := (ok (empty_db, new_runtime t0 "" "" runtime_params)
  (ThreadRuntimeStore.CreateStarting true t0 "rt1" "org1" runtime_params db_accepted)).1.
Definition db_claimed_entry : DB :=
  (ClaimDeliverableAfter t0 t0 "org1" "th1" "rt1" "lease1" "w1" 0 10 nobody db_started).1.
Definition db_attempted : DB :=
  (MarkDeliveredForEntry t0 t0 "org1" "th1" "rt1" "lease1" "w1" "e1" 1 db_claimed_entry).1.
Definition db_applied : DB := (ok (empty_db, false)
  (CommitInboxDeliveryWithLease t0 t0 "org1" "rt1" "lease1" "th1" "w1" 1 1 [1] db_attempted)).1.

Lemma reachable_attempted : reachable [] db_attempted.
Proof.
  change [] with (spend None (spend None (spend None (spend None (spend None []))))).
  eapply (steps_next _ _ _ db_claimed_entry); [|done|apply (step_inbox _ false), op_delivered].
  eapply (steps_next _ _ _ db_started); [|done|apply (step_inbox _ false), op_claim_entries].
  eapply (steps_next _ _ _ db_accepted); [|done|apply step_runtime, (op_create_runtime _ true t0 "rt1" "org1" runtime_params _
    (new_runtime t0 "rt1" "org1" runtime_params)); by vm_compute].
  eapply (steps_next _ _ _ db_thread); [|done|apply (step_inbox _ false), (op_append _ t0 "e1" "org1" append1 _
    (new_entry t0 "e1" "org1" 1 append1)); by vm_compute].
  eapply steps_next; [apply steps_refl|done|]. by apply step_environment.
Qed.

Lemma reachable_applied : reachable [] db_applied.
Proof.
  change [] with (spend None []).
  eapply steps_next; [apply reachable_attempted|done|].
  apply step_runtime, (op_commit _ t0 t0 "org1" "rt1" "lease1" "th1" "w1" 1 1 [1] _ true). by vm_compute.
Qed.

(** ** A sealed generation *)

Definition drain_params : MarkNodeDrainingParams :=
  MkMarkNodeDrainingParams "w1" None "d1" "rollout" "op" None "sha1" ∅.
Definition db_draining : DB := ok empty_db (MarkDraining t0 "fresh" drain_params db_registered).
Definition idle : OwnerObservation := MkOwnerObservation 0 None 0 0 0 0 0.
Definition db_sealed : DB := (ok (empty_db, MkRetirementSeal "" "" "" 0)
  (Seal t0 idle "w1" "d1" "sha1" db_draining)).1.

Lemma reachable_sealed : reachable [] db_sealed.
Proof.
  change [] with (spend None (spend None [])).
  eapply (steps_next _ _ _ db_draining); [|done|apply step_node,
    (op_seal _ t0 idle "w1" "d1" "sha1" _ (MkRetirementSeal "w1" "d1" "sha1" t0)); by vm_compute].
  eapply steps_next; [apply reachable_registered|done|].
  apply step_node, (op_drain _ t0 "fresh" drain_params). by vm_compute.
Qed.
