(* ===== verification/PlaneProperties.v ===== *)
(** * What holds of every reachable state of the plane

    The properties of the transition system of [Plane], with the concrete
    states of [Scenario] as witnesses. *)

From S2P Require Import Prelude Sql Tables Continuation JobStore ExecutorStore ThreadRuntimeStore.
From S2P Require Import ThreadInboxStore NodeStore Recovery JobLifecycle JobSteps NodeSteps ExecutorSteps RuntimeSteps.
From S2P Require Import InboxSteps PhaseSteps Plane Scenario.
From stdpp Require Import base option list strings gmap relations.

Open Scope string_scope.
Open Scope Z_scope.

(** ** Shared lemmas *)

(** The states after a reachable one. *)
Lemma later_inv used db used' db' : reachable used db -> steps used db used' db' -> plane_inv used' db'.
Proof. intros Hr Hs. eapply steps_inv; [by apply reachable_inv|done]. Qed.

Lemma steps_used used db used' db' tok : steps used db used' db' -> In tok used -> In tok used'.
Proof. induction 1 as [|u d dr d' Hs IH]; auto. intros Hin. destruct dr as [[]|]; simpl; auto. Qed.

(** A released token stays released. *)
Lemma steps_token used db used' db' tok : plane_inv used db -> steps used db used' db' ->
  In tok used -> (forall j, In j (jobs db) -> phase_of j <> Held tok) ->
  forall j, In j (jobs db') -> phase_of j <> Held tok.
Proof.
  intros Hinv Hs Hu Hno. induction Hs as [|u d dr d' Hs IH Hf Hstep]; [done|].
  pose proof (steps_inv _ _ _ _ Hinv Hs) as Hd.
  eapply queue_step_token; [apply Hd|by eapply step_queue|exact Hf|by eapply steps_used|exact IH].
Qed.

(** A fenced statement whose token no job holds changes nothing. *)
Lemma fenced_noop used db jobID tok f : plane_inv used db ->
  (forall j, In j (jobs db) -> phase_of j <> Held tok) ->
  fenced_update jobID tok f db = (db, false).
Proof.
  intros Hinv Hno.
  assert (exists_row (owns jobID tok) (jobs db) = false) as He.
  { apply exists_row_false. intros j Hin. apply not_true_iff_false. intros (_ & Hr & Ht)%owns_running.
    apply (Hno j Hin). unfold phase_of. by rewrite Hr, Ht. }
  unfold fenced_update. rewrite update_none by done. apply count_rows_0 in He. rewrite He. by destruct db.
Qed.

Lemma steps_sealed used db used' db' node : plane_inv used db -> steps used db used' db' ->
  sealed db node -> sealed db' node.
Proof.
  intros Hinv. induction 1 as [|u d dr d' Hs IH Hf Hstep]; [done|]. intros Hse. specialize (IH Hse).
  pose proof (inv_ctx _ _ (steps_inv _ _ _ _ Hinv Hs)) as Hctx.
  destruct (step_seals _ _ _ Hctx Hstep) as [[_ E]|[Hop _]].
  - unfold sealed. by rewrite E.
  - apply node_op_frame in Hop as [_ [E|(c & o & n & p & h & s & Hseal)]]; unfold sealed in *; [by rewrite E|].
    apply seal_cases in Hseal as [->|(-> & _)]; [done|]. simpl.
    destruct IH as (s' & Hin & Hn). exists s'. rewrite in_app_iff. auto.
Qed.

(** A node that is not healthy claims nothing. *)
Lemma unhealthy_claims_nothing now wall node owner tok lease locked db :
  (forall n, In n (nodes db) -> n_id n = node -> node_healthy (dead_before wall) n = false) ->
  ClaimNextRunnable now wall node owner tok lease locked db = Ok (db, None).
Proof.
  intros Hun. unfold ClaimNextRunnable, next_job.
  replace (exists_row _ (nodes db)) with false; [done|]. symmetry. apply exists_row_false.
  intros n Hin. destruct (bool_decide (n_id n = node)) eqn:E; [|done]. reflect_bools. simpl. auto.
Qed.

(** The row of an entry after any number of steps. *)
Lemma steps_entry used db used' db' e : plane_inv used db -> steps used db used' db' ->
  In e (thread_inbox_entries db) -> e_applied_at e <> None ->
  exists e', In e' (thread_inbox_entries db') /\ e_id e' = e_id e
    /\ e_delivery_state e' = ThreadInboxDeliveryStateAcked
    /\ e_applied_at e' = e_applied_at e /\ e_runtime_id e' = e_runtime_id e.
Proof.
  intros Hinv Hs Hin Hap.
  assert (forall x, entry_wf x -> e_applied_at x <> None ->
    e_delivery_state x = ThreadInboxDeliveryStateAcked) as Hacked.
  { intros x Hx Ha. unfold entry_wf in Hx. destruct (e_delivery_state x); tauto. }
  induction Hs as [|u d dr d' Hs IH Hf Hstep].
  - exists e. repeat split; auto. apply Hacked; [|done].
    pose proof (ei_wf _ (pi_entries _ _ Hinv)) as Hw. rewrite List.Forall_forall in Hw. auto.
  - destruct IH as (x & Hx & Hid & Hst & Ha & Hr).
    pose proof (steps_inv _ _ _ _ Hinv Hs) as Hd.
    destruct (step_entries _ _ _ (inv_ctx _ _ Hd) Hstep) as [manual He].
    destruct (entries_step_row _ _ _ x (ei_wf _ (pi_entries _ _ Hd)) He Hx) as (y & Hy & Hk).
    destruct (ek_applied _ _ _ Hk) as [Hya Hyr]; [congruence|].
    exists y. split; [done|]. split; [by rewrite (ek_id _ _ _ Hk)|].
    split; [apply Hacked; [apply (ek_wf _ _ _ Hk)|congruence]|]. split; congruence.
Qed.

(** ** Properties *)

(** C1: in every reachable state the lock columns of a job are set exactly
    while it runs, every lock token in use was drawn by a claim, and no two
    jobs hold the same token. *)
Theorem reachable_lock_discipline used db : reachable used db ->
  Forall job_wf (jobs db) /\ tokens_ok used (jobs db).
Proof. intros Hr%reachable_inv. split; apply Hr. Qed.

Lemma reachable_lock_discipline_witness :
  Forall job_wf (jobs db_claimed) /\ tokens_ok ["tok1"] (jobs db_claimed).
Proof. apply (reachable_lock_discipline ["tok1"] db_claimed). exact reachable_claimed. Defined.

(** C2: in every reachable state at most one pending or running job of a queue
    carries a given dedupe key, whatever order the stores' operations took. *)
Theorem reachable_dedupe_unique used db : reachable used db -> unique_active (jobs db).
Proof. intros Hr%reachable_inv. apply Hr. Qed.

Lemma reachable_dedupe_unique_witness : unique_active (jobs db_enqueued).
Proof. apply (reachable_dedupe_unique [] db_enqueued). exact reachable_enqueued. Defined.



(** C4: no operation of the plane moves a finished job: after any step from a
    reachable state its row, if retention keeps it, has the same status. *)
Theorem finished_jobs_stay_finished used db drawn db' j j' :
  reachable used db -> step db drawn db' -> In j (jobs db) -> job_active j = false ->
  In j' (jobs db') -> j_id j' = j_id j -> j_status j' = j_status j.
Proof.
  intros Hr Hs Hin Ha Hin' Hid. pose proof (reachable_inv _ _ Hr) as Hinv.
  assert (exists s, phase_of j = Done s /\ j_status j = s) as (s & Hd & Hst).
  { unfold job_active, phase_of in *. destruct (j_status j); naive_solver. }
  assert (phase_of j' = Done s) as Hd'.
  { eapply (queue_step_done drawn (jobs db) (jobs db') j j' s); try done; [apply Hinv..|].
    by eapply step_queue. }
  unfold phase_of in Hd'. rewrite Hst. destruct (j_status j'); naive_solver.
Qed.

Definition done_job : Job :=
  Eval vm_compute in nth 0 (jobs db_done) (new_job 0 "" "" session_opts).
Lemma finished_jobs_stay_finished_witness : j_status done_job = JobStatusSucceeded.
Proof.
  refine (finished_jobs_stay_finished ["tok1"] db_done None
    (DeadLetterWithLease t0 "job1" "tok1" "late" db_done).1 done_job done_job _ _ _ _ _ _).
  - exact reachable_done.
  - apply step_job, op_dead_letter.
  - vm_compute. by left.
  - by vm_compute.
  - vm_compute. by left.
  - done.
Defined.

(** C7: a sealed worker generation owns no job in any later state, and every
    claim it attempts comes back empty. *)
Theorem sealed_generation_owns_nothing used db used' db' node now wall owner tok lease locked :
  reachable used db -> sealed db node -> steps used db used' db' ->
  (forall j, In j (jobs db') -> j_locked_by_node_id j <> Some node)
  /\ ClaimNextRunnable now wall node owner tok lease locked db' = Ok (db', None).
Proof.
  intros Hr Hse Hs. pose proof (later_inv _ _ _ _ Hr Hs) as Hinv.
  pose proof (steps_sealed _ _ _ _ _ (reachable_inv _ _ Hr) Hs Hse) as Hse'. split.
  - intros j Hin. by apply (pi_seals _ _ Hinv).
  - apply unhealthy_claims_nothing. intros n Hin Hid. subst node.
    pose proof (ni_sealed _ (pi_nodes _ _ Hinv) n Hin Hse') as Hd. unfold node_healthy.
    rewrite (bool_decide_eq_false_2 _ Hd), andb_false_r. done.
Qed.

Lemma sealed_generation_owns_nothing_witness :
  ClaimNextRunnable t0 t0 "w1" "w1-loop" "tok1" (60 * second) nobody db_sealed = Ok (db_sealed, None).
Proof.
  refine (proj2 (sealed_generation_owns_nothing [] db_sealed [] db_sealed "w1" t0 t0 "w1-loop" "tok1"
    (60 * second) nobody _ _ _)).
  - exact reachable_sealed.
  - exists (MkRetirementSeal "w1" "d1" "sha1" t0). vm_compute. split; [by left|done].
  - apply steps_refl.
Defined.

(** C8: input that a provider has applied stays acknowledged with the same
    receipt in every later state, so no runtime is ever handed it again. *)
Theorem applied_input_is_never_redelivered used db used' db' e now clock org th rt tok node after n locked :
  reachable used db -> steps used db used' db' -> In e (thread_inbox_entries db) ->
  e_applied_at e <> None ->
  (exists e', In e' (thread_inbox_entries db') /\ e_id e' = e_id e
     /\ e_delivery_state e' = ThreadInboxDeliveryStateAcked
     /\ e_applied_at e' = e_applied_at e /\ e_runtime_id e' = e_runtime_id e)
  /\ (forall x, In x (ClaimDeliverableAfter now clock org th rt tok node after n locked db').2 ->
       e_id x <> e_id e).
Proof.
  intros Hr Hs Hin Hap. pose proof (reachable_inv _ _ Hr) as Hinv.
  destruct (steps_entry _ _ _ _ e Hinv Hs Hin Hap) as (e' & Hin' & Hid & Hst & Ha & Hrt).
  split; [by exists e'|]. intros x Hx Hxid. pose proof (later_inv _ _ _ _ Hr Hs) as Hinv'.
  assert (forall y, In y (thread_inbox_entries db') -> e_id y = e_id e -> y = e') as Hsole.
  { intros y Hy Hyid. apply (map_key_inj e_id (thread_inbox_entries db')); auto; [apply Hinv'|congruence]. }
  unfold ClaimDeliverableAfter in Hx. simpl in Hx. apply in_order_by, in_app_iff in Hx as [Hx|Hx].
  - apply in_map_iff in Hx as (y & <- & Hy). apply in_filter_iff in Hy as [Hy Hp]. reflect_bools.
    rewrite (Hsole y Hy Hxid) in *. congruence.
  - apply in_filter_iff in Hx as [Hx Hp]. reflect_bools. rewrite (Hsole x Hx Hxid) in *. congruence.
Qed.

Definition applied_entry : ThreadInboxEntry :=
  Eval vm_compute in nth 0 (thread_inbox_entries db_applied) (new_entry 0 "" "" 0 append1).
Lemma applied_input_is_never_redelivered_witness :
  e_applied_at applied_entry = Some t0 /\
  (forall x, In x (ClaimDeliverableAfter t0 t0 "org1" "th1" "rt1" "lease1" "w1" 0 10 nobody db_applied).2 ->
     e_id x <> "e1").
Proof.
  split; [by vm_compute|].
  refine (proj2 (applied_input_is_never_redelivered [] db_applied [] db_applied applied_entry
    t0 t0 "org1" "th1" "rt1" "lease1" "w1" 0 10 nobody _ _ _ _)).
  - exact reachable_applied.
  - apply steps_refl.
  - vm_compute. by left.
  - by vm_compute.
Defined.

(** C9: in every reachable state a session without threads, or one thread of a
    session, has at most one active executor, and a thread has at most one
    active runtime. *)
Theorem reachable_single_owner used db : reachable used db ->
  one_active_executor (session_executors db) /\ one_active_runtime (thread_runtimes db).
Proof. intros Hr%reachable_inv. split; apply Hr. Qed.

Lemma reachable_single_owner_witness :
  one_active_executor (session_executors db_applied) /\ one_active_runtime (thread_runtimes db_applied).
Proof. apply (reachable_single_owner [] db_applied). exact reachable_applied. Defined.

(** a recovery pass over a reachable state never fails.  In particular the
    stale-node scan is not rejected by the retirement trigger, so a sealed
    generation cannot block the recovery of the other nodes' jobs. *)
Theorem recovery_pass_succeeds used db timeout batch now clock locked : reachable used db ->
  (runOnce (plane_stores clock locked) timeout batch now db).2 = None.
Proof.
  intros Hr. pose proof (pi_nodes _ _ (reachable_inv _ _ Hr)) as [Hids Hwf Hnamed Hsealed].
  unfold runOnce. simpl. unfold MarkStaleNodesDead, update_nodes.
  replace (forallb _ (nodes db)) with true; [done|]. symmetry. apply forallb_forall. intros n Hin.
  apply orb_true_iff. right.
  assert (n_drain_intent n = DrainIntentNone -> retirement_admits db (Some (n_id n)) = true) as Hadm.
  { intros Hi. apply orb_true_iff. right. apply negb_true_iff, exists_row_false. intros s Hs.
    apply bool_decide_eq_false. intros E. apply (Hsealed n Hin); [|done]. by exists s. }
  unfold guard_worker_retirement_node.
  destruct (decide (n_drain_intent n = DrainIntentNone)) as [Hi|Hi].
  - by repeat case_match; try apply Hadm.
  - simpl. by rewrite (bool_decide_eq_false_2 _ Hi).
Qed.

Lemma recovery_pass_succeeds_witness :
  (runOnce (plane_stores (t0 + hour) nobody) (90 * second) 10 (t0 + hour) db_sealed).2 = None.
Proof. apply (recovery_pass_succeeds [] db_sealed). exact reachable_sealed. Defined.

(** an operator's drain survives whatever worker processes do: no
    registration, heartbeat, shutdown drain or stale-node scan clears the
    intent, and a draining node of a reachable state is offered no job. *)
Theorem operator_drain_is_durable used db db' n n' now wall owner tok lease locked :
  reachable used db -> process_op db db' ->
  In n (nodes db) -> n_drain_intent n <> DrainIntentNone -> In n' (nodes db') -> n_id n' = n_id n ->
  n_drain_intent n' = n_drain_intent n
  /\ ClaimNextRunnable now wall (n_id n) owner tok lease locked db' = Ok (db', None).
Proof.
  intros Hr Hop Hin Hd Hin' Hid. pose proof (pi_nodes _ _ (reachable_inv _ _ Hr)) as Hinv.
  pose proof (process_op_inv _ _ Hinv Hop) as Hinv'.
  assert (n_drain_intent n' = n_drain_intent n) as Hkeep.
  { destruct (process_op_intent _ _ n' Hop Hin') as [(m & Hm & Hmid & Hint & _)|[_ Hno]].
    - replace m with n in Hint; [done|].
      apply (map_key_inj n_id (nodes db)); [apply Hinv|done|done|congruence].
    - exfalso. apply Hno. rewrite Hid. by apply in_map. }
  split; [done|]. apply unhealthy_claims_nothing. intros m Hm Hmid.
  assert (m = n') as -> by (apply (map_key_inj n_id (nodes db')); [apply Hinv'|done|done|congruence]).
  unfold node_healthy. rewrite (bool_decide_eq_false_2 (n_drain_intent n' = _)) by congruence.
  by rewrite andb_false_r.
Qed.

Definition draining_node : Node := Eval vm_compute in nth 0 (nodes db_draining) (new_node 0 manager1 "").
Definition db_reregistered : DB := ok empty_db (Register (t0 + hour) manager1 "host1" db_draining).
Definition reregistered_node : Node :=
  Eval vm_compute in nth 0 (nodes db_reregistered) (new_node 0 manager1 "").
Lemma operator_drain_is_durable_witness :
  n_drain_intent reregistered_node = DrainIntentPlannedRollout
  /\ ClaimNextRunnable t0 t0 "w1" "w1-loop" "tok1" (60 * second) nobody db_reregistered
     = Ok (db_reregistered, None).
Proof.
  refine (operator_drain_is_durable [] db_draining db_reregistered draining_node reregistered_node
    t0 t0 "w1-loop" "tok1" (60 * second) nobody _ _ _ _ _ _).
  - change [] with (spend None []). eapply (steps_next _ _ _ db_registered);
      [apply reachable_registered|done|apply step_node, (op_drain _ t0 "fresh" drain_params); by vm_compute].
  - apply (op_register _ (t0 + hour) manager1 "host1"). by vm_compute.
  - vm_compute. by left.
  - done.
  - vm_compute. by left.
  - done.
Defined.

(** the automatic operations of the stores never hand out again input
    that a runtime may already have written to its provider: an entry that
    was delivered, is in doubt or is settled stays in one of those states
    through any sequence of them, until a definite provider rejection or an
    operator intervenes. *)
Theorem attempted_input_is_not_replayed used db db' e :
  reachable used db -> rtc automatic_step db db' -> In e (thread_inbox_entries db) ->
  attempted e = true ->
  exists e', In e' (thread_inbox_entries db') /\ e_id e' = e_id e /\ attempted e' = true.
Proof.
  intros Hr Hs. pose proof (inv_ctx _ _ (reachable_inv _ _ Hr)) as Hctx. clear Hr. revert e Hctx.
  induction Hs as [|db db1 db' H1 Hs IH]; intros e Hctx Hin Ha; [by exists e|].
  pose proof (automatic_entries _ _ Hctx H1) as He. destruct (automatic_is_step _ _ H1) as [drawn Hstep].
  destruct (entries_step_row _ _ _ e (ei_wf _ (px_entries _ Hctx)) He Hin) as (e1 & Hin1 & Hk).
  destruct (IH e1) as (e2 & Hin2 & Hid2 & Ha2); [by eapply step_ctx|done| |].
  - pose proof (ek_state _ _ _ Hk) as Hst. unfold attempted in *.
    destruct (e_delivery_state e); inversion Hst; done.
  - exists e2. repeat split; auto. rewrite Hid2. apply (ek_id _ _ _ Hk).
Qed.

Definition attempted_entry : ThreadInboxEntry :=
  Eval vm_compute in nth 0 (thread_inbox_entries db_attempted) (new_entry 0 "" "" 0 append1).
Definition db_reaped : DB := (ReclaimExpiredLeases (t0 + hour) (t0 + hour) 0 nobody db_attempted).1.
Lemma attempted_input_is_not_replayed_witness :
  exists e', In e' (thread_inbox_entries db_reaped) /\ e_id e' = e_id attempted_entry
    /\ attempted e' = true.
Proof.
  refine (attempted_input_is_not_replayed [] db_attempted db_reaped attempted_entry _ _ _ _).
  - exact reachable_attempted.
  - eapply rtc_l; [|apply rtc_refl]. apply auto_runtime, op_reap.
  - vm_compute. by left.
  - done.
Defined.
