(* ===== verification/QueueProperties.v ===== *)
(** * The functional behaviour of the queue's operations

    Claim, enqueue, retry, lease renewal, recovery and the retry window, each
    on every branch. *)

From S2P Require Import Prelude Sql Tables Continuation JobStore ExecutorStore NodeStore.
From S2P Require Import JobLifecycle JobSteps Plane Scenario.
From stdpp Require Import base option list strings gmap.

Open Scope string_scope.
Open Scope Z_scope.

(** ** Claim order *)

Lemma claim_le_total a b : claim_le a b = true \/ claim_le b a = true.
Proof.
  unfold claim_le. destruct (Z.lt_total (j_priority a) (j_priority b)) as [H|[H|H]].
  - right. apply orb_true_iff. left. by apply Z.ltb_lt.
  - rewrite H, Z.ltb_irrefl, Z.eqb_refl. simpl. rewrite !Z.leb_le. lia.
  - left. apply orb_true_iff. left. by apply Z.ltb_lt.
Qed.

Lemma claim_le_spec a b : claim_le a b = true <->
  j_priority b < j_priority a \/ (j_priority a = j_priority b /\ j_created_at a <= j_created_at b).
Proof. unfold claim_le. rewrite orb_true_iff, andb_true_iff, Z.ltb_lt, Z.eqb_eq, Z.leb_le. done. Qed.

Lemma claim_le_trans a b c : claim_le a b = true -> claim_le b c = true -> claim_le a c = true.
Proof. rewrite !claim_le_spec. lia. Qed.

Definition offered (now wall : time) (node : string) (locked : uuid -> bool) (db : DB) (j : Job) : Prop :=
  In j (jobs db) /\ claimable now (dead_before wall) node db j = true /\ locked (j_id j) = false.

Lemma next_job_best now wall node locked db next : next_job now wall node locked db = Some next ->
  IsHealthyWorkerNode wall db node = true /\ offered now wall node locked db next
  /\ forall i, offered now wall node locked db i -> claim_le next i = true.
Proof.
  unfold next_job, IsHealthyWorkerNode, offered. intros H. case_match; [|done].
  apply head_Some in H as [l Hl].
  destruct (order_by_head claim_le claim_le_total claim_le_trans _ _ _ Hl) as [Hin Hmin].
  apply in_filter_iff in Hin as [Hin Hc]. reflect_bools. split; [done|]. split; [done|].
  intros i (Hi & Hci & Hli). destruct (Hmin i) as [->|Hle]; [| |done].
  - apply in_filter_iff. split; [done|]. by rewrite Hci, Hli.
  - rewrite claim_le_spec. lia.
Qed.

Lemma claim_cases now wall node owner tok lease locked db db' j :
  ClaimNextRunnable now wall node owner tok lease locked db = Ok (db', Some j) ->
  exists next, next_job now wall node locked db = Some next
    /\ j = claim_job now node owner tok (duration_seconds lease) next
    /\ jobs db' = update (fun i => j_id i ==? j_id next)
                    (claim_job now node owner tok (duration_seconds lease)) (jobs db).
Proof.
  unfold ClaimNextRunnable, update_jobs. intros H.
  destruct (next_job now wall node locked db) as [next|]; [|done]. exists next.
  case_match; [|done]. case_match; by simplify_eq/=.
Qed.

(** a claim succeeds only for a healthy worker, and takes the offered job
    of highest priority, the oldest among equals; the row it returns is the
    running job under the caller's token, and nothing else changes. *)
Theorem claim_takes_the_best now wall node owner tok lease locked db db' j :
  ClaimNextRunnable now wall node owner tok lease locked db = Ok (db', Some j) ->
  IsHealthyWorkerNode wall db node = true
  /\ exists next, offered now wall node locked db next
     /\ j = claim_job now node owner tok (duration_seconds lease) next
     /\ jobs db' = update (fun i => j_id i ==? j_id next)
                     (claim_job now node owner tok (duration_seconds lease)) (jobs db)
     /\ forall i, offered now wall node locked db i ->
          j_priority i < j_priority next
          \/ (j_priority i = j_priority next /\ j_created_at next <= j_created_at i).
Proof.
  intros (next & Hn & -> & Hj)%claim_cases.
  apply next_job_best in Hn as (Hh & Ho & Hbest). split; [done|]. exists next.
  split; [done|]. split; [done|]. split; [done|]. intros i Hi. apply Hbest, claim_le_spec in Hi. lia.
Qed.

Lemma claim_takes_the_best_witness : IsHealthyWorkerNode t0 db_enqueued "w1" = true.
Proof.
  refine (proj1 (claim_takes_the_best t0 t0 "w1" "w1-loop" "tok1" (60 * second) nobody db_enqueued db_claimed
    (claim_job t0 "w1" "w1-loop" "tok1" 60 (new_job t0 "job1" "org1" session_opts)) _)).
  by vm_compute.
Defined.

(** whenever a healthy, unsealed worker asks and some job is due, unlocked
    and not pinned to another available node, the claim returns a job. *)
Theorem claim_finds_work now wall node owner tok lease locked db i :
  IsHealthyWorkerNode wall db node = true -> retirement_admits db (Some node) = true ->
  offered now wall node locked db i ->
  exists db' j, ClaimNextRunnable now wall node owner tok lease locked db = Ok (db', Some j).
Proof.
  intros Hh Ha (Hin & Hc & Hl). unfold ClaimNextRunnable, next_job.
  unfold IsHealthyWorkerNode in Hh. rewrite Hh.
  destruct (order_by claim_le _) as [|next l] eqn:E; simpl.
  - exfalso. apply order_by_nil in E.
    assert (In i (select (fun j => claimable now (dead_before wall) node db j && negb (locked (j_id j)))
      (jobs db))) as Hi by (apply in_filter_iff; by rewrite Hc, Hl).
    by rewrite E in Hi.
  - unfold update_jobs. replace (forallb _ (jobs db)) with true; [by eauto|]. symmetry.
    apply forallb_forall. intros j _. apply orb_true_iff. right. unfold guard_worker_retirement_job.
    by repeat case_match.
Qed.

Lemma claim_finds_work_witness : exists db' j,
  ClaimNextRunnable t0 t0 "w1" "w1-loop" "tok1" (60 * second) nobody db_enqueued = Ok (db', Some j).
Proof.
  apply (claim_finds_work t0 t0 "w1" "w1-loop" "tok1" (60 * second) nobody db_enqueued
    (new_job t0 "job1" "org1" session_opts)).
  - by vm_compute.
  - by vm_compute.
  - split; [|by vm_compute]. vm_compute. by left.
Defined.

(** an enqueue with a new id either finds an active job with the same
    queue and dedupe key and changes nothing, or appends one pending row with
    the requested fields, run time and attempt budget. *)
Theorem enqueue_once now fresh org opts db :
  0 <= eo_MaxAttempts opts -> eo_JobType opts <> "run_pr_readiness" ->
  ~ In fresh (map j_id (jobs db)) ->
  (exists_row (dedupe_conflict (eo_Queue opts) (eo_DedupeKey opts)) (jobs db) = true /\
   EnqueueWithOpts now fresh org opts db = Ok (db, uuid_Nil))
  \/ (exists_row (dedupe_conflict (eo_Queue opts) (eo_DedupeKey opts)) (jobs db) = false /\
      exists db' j, EnqueueWithOpts now fresh org opts db = Ok (db', fresh)
      /\ jobs db' = (jobs db ++ [j])%list /\ j_id j = fresh /\ j_org_id j = org
      /\ j_status j = JobStatusPending /\ j_payload j = eo_Payload opts
      /\ j_priority j = eo_Priority opts /\ j_run_at j = default now (eo_RunAt opts)
      /\ j_attempts j = 0 /\ 0 < j_max_attempts j
      /\ (0 < eo_MaxAttempts opts -> j_max_attempts j = eo_MaxAttempts opts)).
Proof.
  intros Hmax Hty Hfresh. unfold EnqueueWithOpts, enqueueOn.
  replace (eo_MaxAttempts opts <? 0) with false by (symmetry; by apply Z.ltb_ge).
  rewrite (bool_decide_eq_false_2 _ Hty).
  assert (exists_row (fun j => (j_id j ==? fresh) || dedupe_conflict (eo_Queue opts) (eo_DedupeKey opts) j)
    (jobs db) = exists_row (dedupe_conflict (eo_Queue opts) (eo_DedupeKey opts)) (jobs db)) as ->.
  { unfold exists_row. induction (jobs db) as [|j l IH]; simpl; [done|].
    rewrite IH by (intros ?; apply Hfresh; by right).
    rewrite bool_decide_eq_false_2; [done|]. intros E. apply Hfresh. by left. }
  destruct (exists_row _ _) eqn:E; [by left|right]. split; [done|].
  eexists _, (new_job now fresh org opts). do 9 (split; [done|]).
  simpl. destruct (0 <? eo_MaxAttempts opts) eqn:Em; reflect_bools; split; lia.
Qed.

Lemma enqueue_once_witness :
  exists_row (dedupe_conflict "default" (Some "run_agent:s1")) (jobs db_enqueued) = true /\
  EnqueueWithOpts t0 "job2" "org1" session_opts db_enqueued = Ok (db_enqueued, uuid_Nil).
Proof.
  destruct (enqueue_once t0 "job2" "org1" session_opts db_enqueued) as [H|[H _]].
  - done.
  - done.
  - vm_compute. by intros [|[]].
  - exact H.
  - exfalso. by vm_compute in H.
Defined.

(** ** Retry *)

Lemma fenced_row jobID tok f db j : List.NoDup (map j_id (jobs db)) -> In j (jobs db) ->
  owns jobID tok j = true ->
  In (f j) (jobs (fenced_update jobID tok f db).1) /\ (fenced_update jobID tok f db).2 = true.
Proof.
  intros Hids Hin Ho. split.
  - simpl. apply in_update. exists j. auto.
  - simpl. apply Z.eqb_eq. apply (count_rows_key_1 j_id jobID); [done| |].
    + intros r Hr. by apply owns_running in Hr as [-> _].
    + apply exists_row_true. eauto.
Qed.

(** At most one row matches the fence. *)
Lemma select_owned jobID tok db j : List.NoDup (map j_id (jobs db)) -> In j (jobs db) -> owns jobID tok j = true ->
  exists rest, select (owns jobID tok) (jobs db) = j :: rest.
Proof.
  intros Hd Hi Hoi. destruct (select (owns jobID tok) (jobs db)) as [|x l] eqn:E.
  - exfalso. assert (In j (select (owns jobID tok) (jobs db))) as H by (by apply in_filter_iff). by rewrite E in H.
  - assert (In x (select (owns jobID tok) (jobs db))) as Hx by (rewrite E; by left).
    apply in_filter_iff in Hx as [Hx Hox]. exists l. f_equal.
    apply owns_running in Hox as [Hxi _]. apply owns_running in Hoi as [Hii _].
    apply (map_key_inj j_id (jobs db)); auto. congruence.
Qed.

(** a retry that does not consume an attempt undoes the claim: the job is
    pending again, unlocked, due when asked, with the attempts it had before. *)
Theorem refund_undoes_claim now wall node owner tok lease locked db db1 j i now' msg runAt :
  List.NoDup (map j_id (jobs db)) ->
  ClaimNextRunnable now wall node owner tok lease locked db = Ok (db1, Some j) ->
  In i (jobs db) -> j_id i = j_id j -> 0 <= j_attempts i ->
  let r := RetryWithoutConsumingAttemptWithLease now' (j_id j) tok msg runAt db1 in
  r.2 = true /\ exists i', In i' (jobs r.1) /\ j_id i' = j_id i /\ j_attempts i' = j_attempts i
    /\ j_status i' = JobStatusPending /\ j_lock_token i' = None /\ j_locked_by_node_id i' = None
    /\ j_run_at i' = runAt.
Proof.
  intros Hids (next & Hn & -> & Hj)%claim_cases Hin Hid Ha.
  apply next_job_pending in Hn as [Hnin _]. set (cj := claim_job _ _ _ _ _) in *.
  assert (i = next) as -> by (by apply (map_key_inj j_id (jobs db))).
  assert (List.NoDup (map j_id (jobs db1))) as Hids1 by (rewrite Hj; by rewrite update_key).
  assert (In (cj next) (jobs db1)) as Hin1.
  { rewrite Hj. apply in_update. exists next. split; [done|]. left. by rewrite bool_decide_eq_true_2. }
  assert (owns (j_id next) tok (cj next) = true) as Ho
    by (unfold owns, col_is; simpl; by rewrite !bool_decide_eq_true_2).
  destruct (fenced_row (j_id next) tok (fun j => refund_attempt (requeue_job now' db1 msg runAt j))
    db1 (cj next) Hids1 Hin1 Ho) as [Hrow Hok].
  split; [exact Hok|]. eexists. split; [exact Hrow|]. simpl. repeat split. lia.
Qed.

Lemma refund_undoes_claim_witness :
  (RetryWithoutConsumingAttemptWithLease (t0 + second) "job1" "tok1" "busy" (t0 + minute) db_claimed).2 = true.
Proof.
  refine (proj1 (refund_undoes_claim t0 t0 "w1" "w1-loop" "tok1" (60 * second) nobody db_enqueued db_claimed
    (claim_job t0 "w1" "w1-loop" "tok1" 60 (new_job t0 "job1" "org1" session_opts))
    (new_job t0 "job1" "org1" session_opts) (t0 + second) "busy" (t0 + minute) _ _ _ _ _)).
  - vm_compute. repeat constructor. by intros [].
  - by vm_compute.
  - vm_compute. by left.
  - done.
  - done.
Defined.

(** ** Leases of ended sessions *)

Section EndedSession.
Variables (db : DB) (j : Job) (tok : uuid) (s : Session).
Hypothesis ids : List.NoDup (map j_id (jobs db)).
Hypothesis sids : List.NoDup (map s_id (sessions db)).
Hypothesis row : In j (jobs db).
Hypothesis running : j_status j = JobStatusRunning.
Hypothesis held : j_lock_token j = Some tok.
Hypothesis type : session_job_type (j_job_type j) = true.
Hypothesis names : payload_text (j_payload j) "session_id" = Some (s_id s).
Hypothesis named : s_id s <> "".
Hypothesis session : In s (sessions db).
Hypothesis org : s_org_id s = j_org_id j.
Hypothesis over : session_ended s = true.

Lemma ended_owned i : In i (jobs db) -> owns (j_id j) tok i = true -> i = j.
Proof. intros Hi (Hid & _)%owns_running. by apply (map_key_inj j_id (jobs db)). Qed.

Lemma ended_referenced q : referenced_session db j q = q s.
Proof.
  unfold referenced_session. destruct (q s) eqn:Hq.
  - apply exists_row_true. exists s. split; [done|]. unfold col_is.
    by rewrite names, Hq, !bool_decide_eq_true_2.
  - apply exists_row_false. intros x Hx. apply not_true_iff_false. unfold col_is. intros H. reflect_bools.
    assert (x = s) as ->; [|congruence]. apply (map_key_inj s_id (sessions db)); auto. congruence.
Qed.

Lemma ended_text : text_nonempty (j_payload j) "session_id" = Some (s_id s).
Proof. unfold text_nonempty, nullif_empty. rewrite names. by rewrite bool_decide_eq_false_2. Qed.

Lemma ended_not_renewable : lease_renewable db j = false.
Proof. unfold lease_renewable. by rewrite type, ended_text, ended_referenced, over. Qed.
End EndedSession.

(** the holder of a session job whose session has ended cannot renew its
    lease: the renewal reports the loss, the job is failed and unlocked, and
    the executor it was handed to is closed as failed. *)
Theorem ended_session_loses_lease now db j tok s lease :
  List.NoDup (map j_id (jobs db)) -> List.NoDup (map s_id (sessions db)) ->
  In j (jobs db) -> j_status j = JobStatusRunning -> j_lock_token j = Some tok ->
  session_job_type (j_job_type j) = true ->
  payload_text (j_payload j) "session_id" = Some (s_id s) -> s_id s <> "" ->
  In s (sessions db) -> s_org_id s = j_org_id j -> session_ended s = true ->
  let r := RenewLease now (j_id j) tok lease db in
  r.2 = None
  /\ (exists j', In j' (jobs r.1) /\ j_id j' = j_id j /\ j_status j' = JobStatusFailed
        /\ j_lock_token j' = None /\ j_last_error j' = Some terminal_session_reason)
  /\ (forall e, In e (session_executors db) -> executor_active e = true ->
        j_owner_kind j = JobOwnerKindSessionExecutor -> se_org_id e = j_org_id j ->
        se_job_id e = j_id j -> se_lock_token e = tok ->
        In (close_executor now terminal_session_reason e) (session_executors r.1)).
Proof.
  intros Hids Hsids Hin Hrun Ht Hty Hn Hne Hs Ho Hend. simpl.
  assert (owns (j_id j) tok j = true) as Hown
    by (unfold owns, col_is; by rewrite Ht, Hrun, !bool_decide_eq_true_2).
  unfold RenewLease, renew_where.
  replace (exists_row _ (jobs db)) with false.
  2: { symmetry. apply exists_row_false. intros i Hi. apply not_true_iff_false. intros H. reflect_bools.
       assert (i = j) as -> by (eapply ended_owned; eauto).
       rewrite (ended_not_renewable db j s) in *; done. }
  set (target := fun i => owns (j_id j) tok i && session_job_type (j_job_type i)
    && negb (is_null (text_nonempty (j_payload i) "session_id")) && referenced_session db i session_ended).
  assert (target j = true) as Htj.
  { unfold target. rewrite (ended_referenced db j s) by done. rewrite (ended_text j s), Hown, Hty, Hend by done. done. }
  split; [done|]. split.
  - exists (fail_job now terminal_session_reason j). split; [|done]. simpl. apply in_update. exists j. auto.
  - intros e He Hae Hk Heo Hej Het. simpl. apply in_update. exists e. split; [done|]. left.
    split; [|done]. rewrite Hae, andb_true_r. apply exists_row_true. exists j. split; [done|].
    unfold target in Htj. rewrite Htj. unfold col_is.
    by rewrite Hk, Heo, Hej, Ht, Het, !bool_decide_eq_true_2.
Qed.

Definition ended_session : Session := inserted_session "s1" "org1" SessionStatusCancelled "" None None None t0.
Definition db_ended : DB := db_claimed <| sessions := [ended_session] |>.
Definition claimed_job : Job := Eval vm_compute in nth 0 (jobs db_ended) (new_job 0 "" "" session_opts).
Lemma ended_session_loses_lease_witness : (RenewLease t0 "job1" "tok1" minute db_ended).2 = None.
Proof.
  refine (proj1 (ended_session_loses_lease t0 db_ended claimed_job "tok1" ended_session minute
    _ _ _ _ _ _ _ _ _ _ _)); try done.
  - vm_compute. repeat constructor. by intros [].
  - vm_compute. repeat constructor. by intros [].
  - vm_compute. by left.
  - vm_compute. by left.
Defined.

(** ** Recovery of lost jobs *)

Lemma requeued_not_lost now staleBefore db0 db msg runAt j :
  job_lost now staleBefore db (requeue_job now db0 msg runAt j) = false.
Proof. done. Qed.

(** Some lost job is always eligible, whatever the per-organisation window. *)
Lemma reclaim_eligible_nonempty now staleBefore db j : In j (jobs db) ->
  job_lost now staleBefore db j = true -> exists c, In c (reclaim_eligible now staleBefore db).
Proof.
  intros Hin Hl. assert (In j (reclaim_candidates now staleBefore db)) as Hc by (by apply in_filter_iff).
  destruct (session_job_type (j_job_type j)) eqn:Hty.
  - unfold reclaim_eligible, org_ranked.
    set (cands := reclaim_candidates now staleBefore db) in *.
    set (l := select (fun c => j_org_id c ==? j_org_id j) cands).
    destruct (order_by (recovery_order db) l) as [|c rest] eqn:E.
    + exfalso. apply order_by_nil in E.
      assert (In j l) as Hj by (apply in_filter_iff; by rewrite bool_decide_eq_true_2). by rewrite E in Hj.
    + assert (In c l) as Hcl by (apply (in_order_by (recovery_order db)); rewrite E; by left).
      apply in_filter_iff in Hcl as [Hcc Horg]. reflect_bools. exists c.
      apply in_filter_iff. split; [done|]. apply orb_true_iff. right. rewrite Horg. fold l. rewrite E.
      simpl. by rewrite bool_decide_eq_true_2.
  - exists j. unfold reclaim_eligible. apply in_filter_iff. by rewrite Hty.
Qed.

Lemma reclaim_progress now staleBefore batch db : (0 < batch)%nat -> List.NoDup (map j_id (jobs db)) ->
  let db' := (ReclaimLostRunningJobs now staleBefore batch nobody db).1 in
  count_rows (job_lost now staleBefore db') (jobs db') <= count_rows (job_lost now staleBefore db) (jobs db)
  /\ (0 < count_rows (job_lost now staleBefore db) (jobs db) ->
      count_rows (job_lost now staleBefore db') (jobs db')
      < count_rows (job_lost now staleBefore db) (jobs db)).
Proof.
  intros Hb Hids. simpl.
  set (picked := job_in (reclaimable now staleBefore batch nobody db)).
  change (count_rows (job_lost now staleBefore _) (update picked ?f (jobs db)))
    with (count_rows (job_lost now staleBefore db) (update picked f (jobs db))).
  pose proof (count_rows_update picked (job_lost now staleBefore db) (requeue_job now db job_lost_reason now)
    (jobs db) (fun _ _ _ => eq_refl)) as Hsum.
  pose proof (count_rows_nonneg (fun r => picked r && job_lost now staleBefore db r) (jobs db)).
  split; [lia|]. intros Hpos.
  enough (0 < count_rows (fun r => picked r && job_lost now staleBefore db r) (jobs db)) by lia.
  destruct (exists_row (job_lost now staleBefore db) (jobs db)) eqn:E;
    [|apply count_rows_0 in E; lia].
  apply exists_row_true in E as (j & Hj & Hl).
  destruct (reclaim_eligible_nonempty now staleBefore db j Hj Hl) as [c Hc].
  assert (exists x, In x (reclaimable now staleBefore batch nobody db)) as [x Hx].
  { unfold reclaimable, limit. destruct (order_by _ _) as [|x l] eqn:Eo.
    - exfalso. apply order_by_nil in Eo.
      assert (In c (select (fun j => negb (nobody (j_id j))) (reclaim_eligible now staleBefore db))) as Hcs
        by (by apply in_filter_iff). by rewrite Eo in Hcs.
    - exists x. destruct batch; [lia|]. by left. }
  pose proof (reclaimable_lost _ _ _ _ _ _ Hx) as (Hxj & Hxl & _).
  apply (count_rows_pos _ _ x); [done|]. rewrite Hxl, andb_true_r. unfold picked, job_in.
  apply existsb_exists. exists x. by rewrite bool_decide_eq_true_2.
Qed.

(** [n] passes of the recovery sweep at one instant. *)
Fixpoint reclaim_passes (n : nat) (now staleBefore : time) (batch : nat) (db : DB) : DB :=
  match n with
  | O => db
  | S n' => reclaim_passes n' now staleBefore batch (ReclaimLostRunningJobs now staleBefore batch nobody db).1
  end.

(** C36: recovery is live: with a positive batch and no competing transaction,
    as many passes as there are lost jobs leave none, although a pass takes at
    most three session jobs of an organisation. *)
Theorem repeated_passes_recover_everything n now staleBefore batch db :
  (0 < batch)%nat -> List.NoDup (map j_id (jobs db)) ->
  count_rows (job_lost now staleBefore db) (jobs db) <= Z.of_nat n ->
  let db' := reclaim_passes n now staleBefore batch db in
  exists_row (job_lost now staleBefore db') (jobs db') = false.
Proof.
  intros Hb. revert db. induction n as [|n IH]; intros db Hids Hc; cbn [reclaim_passes]; cbv zeta.
  - apply count_rows_0. pose proof (count_rows_nonneg (job_lost now staleBefore db) (jobs db)). lia.
  - pose proof (reclaim_progress now staleBefore batch db Hb Hids) as [Hle Hlt]. cbv zeta in *. apply IH.
    + simpl. by rewrite update_key.
    + destruct (decide (0 < count_rows (job_lost now staleBefore db) (jobs db))); [specialize (Hlt l); lia|].
      pose proof (count_rows_nonneg (job_lost now staleBefore db) (jobs db)). lia.
Qed.

Lemma repeated_passes_recover_everything_witness :
  let db' := reclaim_passes 1 (t0 + hour) (t0 + hour) 10 db_claimed in
  exists_row (job_lost (t0 + hour) (t0 + hour) db') (jobs db') = false.
Proof.
  apply (repeated_passes_recover_everything 1 (t0 + hour) (t0 + hour) 10 db_claimed).
  - lia.
  - vm_compute. repeat constructor. by intros [].
  - by vm_compute.
Defined.

(** ** What a requeue remembers *)

(** The task inputs a payload records. *)
Definition recorded (p : payload) : list scalar :=
  (json_elements (p !! "continuation_task_message_ids") ++ json_elements (p !! "recovery_message_ids"))%list.

Lemma recovery_payload_lookup db j r m k :
  k <> "thread_id" -> k <> "queued_message_id" -> k <> "execution_purpose" ->
  k <> "recovery_runtime_id" -> k <> "recovery_message_ids" ->
  recovery_payload db j r m !! k = j_payload j !! k.
Proof.
  intros. unfold recovery_payload. rewrite lookup_union_r.
  - by rewrite !lookup_delete_ne.
  - apply not_elem_of_list_to_map_1. simpl. set_solver.
Qed.

Lemma recovery_payload_ids db j r m : recovery_payload db j r m !! "recovery_message_ids"
  = Some (JArr (continuationRecoveryMessageIDs db j r)).
Proof. unfold recovery_payload. by apply lookup_union_Some_l. Qed.

(** whatever way a job goes back to the queue, its payload still names its
    session and every task input it recorded, and if input may have reached a
    provider it is marked as a checkpoint recovery instead of new work. *)
Theorem requeue_keeps_task_inputs db j now msg runAt :
  let p := j_payload (requeue_job now db msg runAt j) in
  payload_text p "session_id" = payload_text (j_payload j) "session_id"
  /\ (forall s, In s (recorded (j_payload j)) -> In s (recorded p))
  /\ (ordinary_continuation j = true ->
      unproven_input db j = true \/ recovery_candidates db j <> [] ->
      payload_text p "execution_purpose" = Some "checkpoint_recovery").
Proof.
  cbv zeta. change (j_payload (requeue_job now db msg runAt j)) with (continuation_retry_payload db j).
  unfold continuation_retry_payload. destruct (ordinary_continuation j); [|done].
  destruct (order_by recovery_le (recovery_candidates db j)) as [|[[r m] e] l] eqn:E.
  - apply order_by_nil in E. destruct (unproven_input db j).
    + split; [|split].
      * unfold payload_text. by rewrite lookup_union_r.
      * intros s. unfold recorded. by rewrite !lookup_union_r.
      * intros _ _. by apply (payload_text_union_l _ _ _ (jstr "checkpoint_recovery")).
    + split; [done|]. split; [done|]. intros _ [?|?]; done.
  - split; [|split].
    + unfold payload_text. by rewrite recovery_payload_lookup.
    + intros s Hs. unfold recorded in *. rewrite recovery_payload_ids. simpl.
      apply in_app_iff. right. apply in_recovery_ids. apply in_app_iff in Hs. tauto.
    + intros _ _. unfold recovery_payload. by apply (payload_text_union_l _ _ _ (jstr "checkpoint_recovery")).
Qed.

(** the start of a job's retry window is written once: whoever holds the
    lease, a second call returns the first timestamp and keeps it. *)
Theorem retry_window_is_anchored now now' db j tok startedAt later :
  List.NoDup (map j_id (jobs db)) -> In j (jobs db) -> owns (j_id j) tok j = true ->
  let w := default startedAt (j_retry_window_started_at j) in
  let r1 := EnsureRetryWindowStartedAtWithLease now (j_id j) tok startedAt db in
  let r2 := EnsureRetryWindowStartedAtWithLease now' (j_id j) tok later r1.1 in
  r1.2 = Some w /\ r2.2 = Some w.
Proof.
  intros Hids Hin Ho. cbv zeta. unfold EnsureRetryWindowStartedAtWithLease at 1.
  destruct (select_owned (j_id j) tok db j Hids Hin Ho) as [l ->]. split; [simpl; by destruct (j_retry_window_started_at j)|].
  set (f := fun i : Job => i <| j_retry_window_started_at := coalesce (j_retry_window_started_at i) startedAt |>
                             <| j_updated_at := now |>).
  destruct (fenced_row (j_id j) tok f db j Hids Hin Ho) as [Hrow _].
  unfold EnsureRetryWindowStartedAtWithLease.
  destruct (select_owned (j_id j) tok (fenced_update (j_id j) tok f db).1 (f j)) as [l' Hl']; [simpl; by rewrite update_key|done|exact Ho|].
  simpl in *. fold f. rewrite Hl'. simpl. by destruct (j_retry_window_started_at j).
Qed.

Lemma retry_window_is_anchored_witness :
  (EnsureRetryWindowStartedAtWithLease t0 "job1" "tok1" t0 db_claimed).2 = Some t0.
Proof.
  refine (proj1 (retry_window_is_anchored t0 t0 db_claimed claimed_job "tok1" t0 (t0 + hour) _ _ _)).
  - vm_compute. repeat constructor. by intros [].
  - vm_compute. by left.
  - by vm_compute.
Defined.
