(* ===== verification/InboxProperties.v ===== *)
(** * The functional behaviour of the inbox and runtime operations

    The acknowledged prefix, the commit of a delivery, the delivery budget and
    the replacement of an expired runtime. *)

From S2P Require Import Prelude Sql Tables JobStore ExecutorStore ThreadRuntimeStore ThreadInboxStore.
From S2P Require Import RuntimeSteps InboxSteps Plane Scenario.
From stdpp Require Import base option list strings gmap.

Open Scope string_scope.
Open Scope Z_scope.

(** ** The acknowledged prefix *)

Lemma min_sequence_none l : min_sequence l = None -> l = [].
Proof. destruct l; simpl; [done|]. by destruct (min_sequence l). Qed.

Lemma min_sequence_le l m e : min_sequence l = Some m -> In e l -> m <= e_sequence_no e.
Proof.
  revert m. induction l as [|x l IH]; simpl; [done|]. intros m.
  destruct (min_sequence l) as [k|] eqn:E; intros [= <-] [->|Hin].
  - lia.
  - specialize (IH k eq_refl Hin). lia.
  - lia.
  - apply min_sequence_none in E. by subst l.
Qed.

Lemma min_sequence_in l m : min_sequence l = Some m -> exists e, In e l /\ e_sequence_no e = m.
Proof.
  revert m. induction l as [|x l IH]; simpl; [done|]. intros m.
  destruct (min_sequence l) as [k|]; intros [= <-].
  - destruct (IH k eq_refl) as (e & He & Hk).
    destruct (Z.min_spec (e_sequence_no x) k) as [[_ ->]|[_ ->]]; eauto.
  - eauto.
Qed.

(** the cursor a new runtime starts from covers exactly the settled
    prefix: nothing at or below it is waiting, in doubt or acknowledged without
    having been applied, and if anything of the thread is, the entry right
    after the cursor is. *)
Theorem acknowledged_prefix_is_settled db org th :
  let l := select (entry_in_thread org th) (thread_inbox_entries db) in
  let n := LastAcknowledgedSequence db org th in
  (forall e, In e l -> e_sequence_no e <= n -> unsettled e = false)
  /\ ((exists e, In e l /\ unsettled e = true) ->
      exists e, In e l /\ unsettled e = true /\ e_sequence_no e = n + 1).
Proof.
  cbv zeta. unfold LastAcknowledgedSequence. set (l := select _ _).
  destruct (min_sequence (select unsettled l)) as [m|] eqn:E.
  - split.
    + intros e He Hle. destruct (unsettled e) eqn:Hu; [|done]. exfalso.
      assert (In e (select unsettled l)) as Hs by (by apply in_filter_iff).
      pose proof (min_sequence_le _ _ _ E Hs). lia.
    + intros _. destruct (min_sequence_in _ _ E) as (e & He & Hm).
      apply in_filter_iff in He as [He Hu]. exists e. repeat split; auto. lia.
  - apply min_sequence_none in E.
    assert (forall e, In e l -> unsettled e = false) as Hall.
    { intros e He. destruct (unsettled e) eqn:Hu; [|done].
      assert (In e (select unsettled l)) as Hs by (by apply in_filter_iff). by rewrite E in Hs. }
    split; [auto|]. intros (e & He & Hu). rewrite (Hall e He) in Hu. done.
Qed.

(** ** Commit *)

Lemma commit_cases now clock org rt tok th node dseq aseq confirmed db db' :
  CommitInboxDeliveryWithLease now clock org rt tok th node dseq aseq confirmed db = Ok (db', true) ->
  thread_inbox_entries db' = update (committable org th rt confirmed)
    (fun e => (apply_entry now rt e) <| e_owner_node_id := nullif_empty node |>) (thread_inbox_entries db)
  /\ count_rows (committable org th rt confirmed) (thread_inbox_entries db)
     = Z.of_nat (length (remove_dups confirmed)).
Proof.
  unfold CommitInboxDeliveryWithLease. intros H. split_ifs; simplify_eq/=. reflect_bools.
  split; [done|]. by apply Z.eqb_eq.
Qed.

Lemma committable_spec org th rt confirmed e : committable org th rt confirmed e = true ->
  e_org_id e = org /\ e_thread_id e = th /\ In (e_sequence_no e) confirmed /\ e_runtime_id e = Some rt.
Proof.
  unfold committable, col_is. intros H. reflect_bools. repeat split; auto.
  match goal with H : existsb _ _ = true |- _ => apply existsb_exists in H as (x & Hx & Ex) end.
  apply Z.eqb_eq in Ex. by subst.
Qed.

(** Rows of one thread picked by sequence number: their numbers do not repeat. *)
Lemma sequences_nodup p l org th : unique_on sequence_key l ->
  (forall e, p e = true -> e_org_id e = org /\ e_thread_id e = th) -> List.NoDup (map e_id l) ->
  List.NoDup (map e_sequence_no (select p l)).
Proof.
  intros Hu Hp Hids. apply (NoDup_map_filter e_id p) in Hids. fold (select p l) in Hids.
  assert (forall e, In e (select p l) -> In e l /\ e_org_id e = org /\ e_thread_id e = th) as Hin.
  { intros e He. apply in_filter_iff in He as [He E]. split; [done|]. by apply Hp. }
  revert Hids Hin. generalize (select p l) as t. intros t. induction t as [|x t IH]; simpl; [constructor|].
  intros Hids Hin. apply List.NoDup_cons_iff in Hids as [Hx Hids]. constructor; [|auto].
  intros (y & Hs & Hy)%in_map_iff. apply Hx. apply in_map_iff. exists y. split; [|done].
  destruct (Hin x) as (Hxl & Hxo & Hxt); [by left|]. destruct (Hin y) as (Hyl & Hyo & Hyt); [by right|].
  replace y with x; [done|]. eapply (Hu x y); [done|done|done|]. unfold sequence_key. congruence.
Qed.

(** a successful commit is exact: every confirmed sequence number is now
    applied by this runtime, and every entry outside the confirmed ones is
    unchanged. *)
Theorem commit_applies_exactly_the_confirmed now clock org rt tok th node dseq aseq confirmed db db' :
  entries_inv (thread_inbox_entries db) ->
  CommitInboxDeliveryWithLease now clock org rt tok th node dseq aseq confirmed db = Ok (db', true) ->
  (forall s, In s confirmed -> exists e, In e (thread_inbox_entries db') /\ e_org_id e = org
     /\ e_thread_id e = th /\ e_sequence_no e = s /\ e_delivery_state e = ThreadInboxDeliveryStateAcked
     /\ e_runtime_id e = Some rt /\ e_applied_at e <> None)
  /\ (forall e, In e (thread_inbox_entries db) -> ~ In (e_sequence_no e) confirmed ->
      In e (thread_inbox_entries db')).
Proof.
  intros Hinv (Hdb & Hc)%commit_cases. set (q := committable org th rt confirmed) in *. split.
  - intros s Hs.
    assert (List.NoDup (map e_sequence_no (select q (thread_inbox_entries db)))) as Hnd.
    { apply (sequences_nodup q _ org th); [apply Hinv| |apply Hinv].
      intros e He. apply committable_spec in He. tauto. }
    assert (incl (remove_dups confirmed) (map e_sequence_no (select q (thread_inbox_entries db)))) as Hincl.
    { apply NoDup_length_incl; [done| |].
      - rewrite length_map. unfold count_rows in Hc. lia.
      - intros x (e & <- & He)%in_map_iff. apply in_filter_iff in He as [_ He].
        apply committable_spec in He as (_ & _ & He & _).
        by apply list_elem_of_In, elem_of_remove_dups, list_elem_of_In. }
    assert (In s (remove_dups confirmed)) as Hs' by (by apply list_elem_of_In, elem_of_remove_dups, list_elem_of_In).
    apply Hincl, in_map_iff in Hs' as (e & Hes & He). apply in_filter_iff in He as [He Hq].
    pose proof (committable_spec _ _ _ _ _ Hq) as (Ho & Ht & _ & _).
    eexists. split; [rewrite Hdb; apply in_update; exists e; split; [done|]; left; split; [exact Hq|reflexivity]|].
    simpl. repeat split; auto. by destruct (e_applied_at e).
  - intros e He Hno. rewrite Hdb. apply in_update. exists e. split; [done|]. right. split; [|done].
    apply not_true_iff_false. intros (_ & _ & Hin & _)%committable_spec. done.
Qed.

Lemma commit_applies_exactly_the_confirmed_witness :
  exists e, In e (thread_inbox_entries db_applied) /\ e_org_id e = "org1"
     /\ e_thread_id e = "th1" /\ e_sequence_no e = 1 /\ e_delivery_state e = ThreadInboxDeliveryStateAcked
     /\ e_runtime_id e = Some "rt1" /\ e_applied_at e <> None.
Proof.
  refine (proj1 (commit_applies_exactly_the_confirmed t0 t0 "org1" "rt1" "lease1" "th1" "w1" 1 1 [1]
    db_attempted db_applied _ _) 1 _).
  - apply (pi_entries [] db_attempted). apply reachable_inv. exact reachable_attempted.
  - by vm_compute.
  - by left.
Defined.

(** ** The delivery budget *)

Section Budget.
Variables (rt : uuid) (node reason : string) (budget : Z).

(** One claim at [tc] whose delivery fails at [tf]. *)
Definition failure_cycle (tc tf : time) (e : ThreadInboxEntry) : ThreadInboxEntry :=
  fail_entry tf reason budget (claim_entry tc rt node e).

(** Claims only take pending entries that have cooled down. *)
Inductive failing_run : ThreadInboxEntry -> list (time * time) -> ThreadInboxEntry -> Prop :=
  | run_stop e : failing_run e [] e
  | run_cycle e tc tf l e' : e_delivery_state e = ThreadInboxDeliveryStatePending ->
      cooled tc e = true -> tc <= tf -> failing_run (failure_cycle tc tf e) l e' ->
      failing_run e ((tc, tf) :: l) e'.

Definition last_failure (u : time) (l : list (time * time)) : time := default u (snd <$> last l).

Lemma last_failure_cons u tc tf l : last_failure u ((tc, tf) :: l) = last_failure tf l.
Proof.
  unfold last_failure. destruct l as [|x l]; [done|]. rewrite last_cons_cons.
  destruct (last (x :: l)) eqn:E; [done|]. by apply last_None in E.
Qed.

(** From an entry that has already failed, every further cycle costs a
    cooldown and one attempt. *)
Lemma failing_run_after e l e' : failing_run e l e' -> 0 < e_delivery_attempts e ->
  e_delivery_state e = ThreadInboxDeliveryStatePending \/ l = [] ->
  e_delivery_attempts e' = e_delivery_attempts e + Z.of_nat (length l)
  /\ e_updated_at e + threadInboxDeliveryRetryCooldownSeconds * second * Z.of_nat (length l)
     <= last_failure (e_updated_at e) l
  /\ (l <> [] -> e_delivery_state e' =
       if budget <=? e_delivery_attempts e' then ThreadInboxDeliveryStateDeadLetter
       else ThreadInboxDeliveryStatePending)
  /\ (e_delivery_attempts e < budget -> e_delivery_attempts e' <= budget).
Proof.
  induction 1 as [e|e tc tf l e' Hp Hc Ht Hrun IH]; intros Ha Hs; simpl.
  - unfold last_failure. simpl. repeat split; try lia. done.
  - destruct IH as (IHa & IHt & IHs & IHb); [simpl; lia| |].
    { inversion Hrun; subst; [by right|by left]. }
    rewrite last_failure_cons. unfold cooled in Hc. apply orb_true_iff in Hc as [Hc|Hc];
      [apply Z.eqb_eq in Hc; lia|reflect_bools].
    simpl in IHa, IHt, IHb. unfold threadInboxDeliveryRetryCooldownSeconds, second in *.
    split; [lia|]. split; [lia|]. split.
    + intros _. destruct l as [|x l].
      * inversion Hrun; subst. simpl. done.
      * by apply IHs.
    + intros Hlt. destruct (decide (e_delivery_attempts e + 1 < budget)) as [Hlt'|Hge]; [auto|].
      inversion Hrun as [|? ? ? ? ? Hp' _ _ _]; subst; [simpl; lia|].
      simpl in Hp'. by replace (budget <=? e_delivery_attempts e + 1) with true in Hp'
        by (symmetry; apply Z.leb_le; lia).
Qed.
End Budget.

(** an entry that fails on every delivery is dead-lettered exactly when
    its budget is spent, and [n] failures take at least [n - 1] cooldowns
    between the first claim and the last failure. *)
Theorem delivery_budget_is_spent_slowly rt node reason budget e e' tc tf l :
  0 < budget -> e_delivery_attempts e = 0 -> failing_run rt node reason budget e ((tc, tf) :: l) e' ->
  e_delivery_attempts e' = Z.of_nat (S (length l)) /\ Z.of_nat (S (length l)) <= budget
  /\ (e_delivery_state e' = ThreadInboxDeliveryStateDeadLetter <-> Z.of_nat (S (length l)) = budget)
  /\ tc + threadInboxDeliveryRetryCooldownSeconds * second * Z.of_nat (length l) <= last_failure tf l.
Proof.
  intros Hb Ha Hrun. inversion Hrun as [|? ? ? ? ? Hp Hc Ht Hrest]; subst.
  destruct (failing_run_after _ _ _ _ _ _ _ Hrest) as (Hat & Htm & Hst & Hbd); [simpl; lia| |].
  { inversion Hrest; subst; [by right|by left]. }
  simpl in Hat, Htm, Hbd. rewrite Ha in *.
  assert (Z.of_nat (S (length l)) <= budget) as Hle.
  { destruct (decide (1 < budget)); [specialize (Hbd ltac:(lia)); lia|].
    inversion Hrest as [|? ? ? ? ? Hp' _ _ _]; subst; [simpl; lia|]. simpl in Hp'. rewrite Ha in Hp'.
    by replace (budget <=? 0 + 1) with true in Hp' by (symmetry; apply Z.leb_le; lia). }
  split; [lia|]. split; [done|]. split; [|lia].
  assert (e_delivery_state e' = if budget <=? e_delivery_attempts e'
    then ThreadInboxDeliveryStateDeadLetter else ThreadInboxDeliveryStatePending) as ->.
  { destruct l; [|by apply Hst]. inversion Hrest; subst. simpl. done. }
  destruct (budget <=? e_delivery_attempts e') eqn:E; reflect_bools; split; (done || lia).
Qed.

Definition pending_entry : ThreadInboxEntry := new_entry t0 "e1" "org1" 1 append1.
Lemma delivery_budget_is_spent_slowly_witness :
  1 <= 1 /\ t0 + threadInboxDeliveryRetryCooldownSeconds * second * 0 <= last_failure t0 [].
Proof.
  destruct (delivery_budget_is_spent_slowly "rt1" "w1" "boom" 1 pending_entry
    (failure_cycle "rt1" "w1" "boom" 1 t0 t0 pending_entry) t0 t0 []) as (_ & H & _ & H').
  - lia.
  - done.
  - by repeat constructor.
  - split; [exact H|exact H'].
Defined.

(** One claim at [t] followed at once by a failed delivery. *)
Definition fail_cycle_at (t : time) (db : DB) : DB :=
  let db' := (ClaimDeliverableAfter t t "org1" "th1" "rt1" "lease1" "w1" 0 10 nobody db).1 in
  match MarkDeliveryFailed t "org1" "th1" "rt1" "e1" "boom" 0 db' with Ok (d, _) => d | Err _ => db' end.
(** five failed deliveries can dead-letter an entry twenty seconds after
    its first claim: the first attempt is not subject to the cooldown. *)
Theorem dead_letter_after_twenty_seconds :
  let db' := foldl (fun db k => fail_cycle_at (t0 + k * 5 * second) db) db_started [0; 1; 2; 3; 4] in
  map e_delivery_state (thread_inbox_entries db') = [ThreadInboxDeliveryStateDeadLetter]
  /\ map e_updated_at (thread_inbox_entries db') = [t0 + 20 * second].
Proof. by vm_compute. Qed.

(** ** Replacing an expired runtime *)

(** when a thread still has an active row whose lease ran out, whether a
    replacement can start depends on the order in which PostgreSQL runs the
    insert and the closing update of the same statement: insert first is
    refused as if the runtime were alive, update first succeeds. *)
Theorem replacement_depends_on_statement_order now fresh org p db r :
  In r (thread_runtimes db) -> superseded now org (ctr_ThreadID p) r = true ->
  (forall x, In x (thread_runtimes db) -> occupies org (ctr_ThreadID p) x = true ->
     lease_expired now x = true) ->
  ~ In fresh (map tr_id (thread_runtimes db)) ->
  AgentType_Validate (ctr_AgentType p) = true ->
  0 <= ctr_LastDeliveredSequence p -> 0 <= ctr_LastAckedSequence p ->
  0 <= ctr_BaseWorkspaceGeneration p -> 0 <= ctr_CurrentWorkspaceGeneration p ->
  ThreadRuntimeStore.CreateStarting true now fresh org p db = Err ErrActiveThreadRuntimeExists
  /\ exists db', ThreadRuntimeStore.CreateStarting false now fresh org p db
                 = Ok (db', new_runtime now fresh org p).
Proof.
  intros Hin Hsup Hexp Hfresh Hag Hd Ha Hb Hc. unfold ThreadRuntimeStore.CreateStarting. rewrite Hag. cbn [negb]. split.
  - replace (exists_row _ (thread_runtimes db)) with true; [done|]. symmetry. apply exists_row_true.
    exists r. split; [done|]. unfold superseded, occupies in *. by reflect_bools; rewrite !bool_decide_eq_true_2.
  - replace (exists_row (occupies org (ctr_ThreadID p)) _) with false.
    2: { symmetry. apply exists_row_false. intros x' (x & Hx & ->)%in_update_image.
         destruct (superseded now org (ctr_ThreadID p) x) eqn:E.
         - unfold occupies. simpl. by rewrite andb_false_r.
         - destruct (occupies org (ctr_ThreadID p) x) eqn:Eo; [|done].
           specialize (Hexp x Hx Eo). unfold superseded, occupies in *. rewrite Hexp, andb_true_r in E. congruence. }
    replace (exists_row (fun r => tr_id r ==? fresh) (thread_runtimes db)) with false.
    2: { symmetry. apply exists_row_false. intros x Hx. apply bool_decide_eq_false. intros E. apply Hfresh.
         apply in_map_iff. eauto. }
    replace (ctr_LastDeliveredSequence p <? 0) with false by (symmetry; by apply Z.ltb_ge).
    replace (ctr_LastAckedSequence p <? 0) with false by (symmetry; by apply Z.ltb_ge).
    replace (ctr_BaseWorkspaceGeneration p <? 0) with false by (symmetry; by apply Z.ltb_ge).
    replace (ctr_CurrentWorkspaceGeneration p <? 0) with false by (symmetry; by apply Z.ltb_ge).
    simpl. eauto.
Qed.

Lemma replacement_depends_on_statement_order_witness :
  ThreadRuntimeStore.CreateStarting true (t0 + hour) "rt2" "org1" runtime_params db_started
    = Err ErrActiveThreadRuntimeExists.
Proof.
  refine (proj1 (replacement_depends_on_statement_order (t0 + hour) "rt2" "org1" runtime_params db_started
    (new_runtime t0 "rt1" "org1" runtime_params) _ _ _ _ _ _ _ _ _)).
  - vm_compute. by left.
  - by vm_compute.
  - intros x Hx _. vm_compute in Hx. destruct Hx as [<-|[]]. by vm_compute.
  - intros Hx. vm_compute in Hx. by destruct Hx as [Hx|[]].
  - by vm_compute.
  - done.
  - done.
  - done.
  - done.
Defined.
