(* ===== verification/PhaseProperties.v ===== *)
(** * Properties of activity phases and delivery batches

    What holds of [session_activity_phases] and
    [thread_inbox_delivery_batches] in every reachable state of the plane: no
    input starts work twice, a thread has one running phase, and the end of a
    phase is final. *)

From S2P Require Import Prelude GoRuntime Sql Tables Continuation JobStore ExecutorStore ThreadRuntimeStore ThreadInboxStore ActivityPhaseStore.
From S2P Require Import JobLifecycle JobSteps NodeSteps ExecutorSteps RuntimeSteps InboxSteps PhaseSteps Plane Scenario PlaneProperties.
From stdpp Require Import base option list strings gmap.

Open Scope string_scope.
Open Scope Z_scope.

(** ** A concrete run: one seed, then one steering message *)

Definition steer_append : AppendThreadInboxEntryParams :=
  MkAppendThreadInboxEntryParams "s1" "th1" 8 "" ThreadInboxEntryTypeUserMessage ∅.
Definition no_phase : SessionActivityPhase :=
  MkSessionActivityPhase "" "" "" "" 0 0 ActivityPhaseStatusRunning None 0 None None ActivityPhaseTriggerInitial None None None 0 0.
Definition db_seeded : DB := (ok (empty_db, (no_phase, None))
  (StartSeedPhase t0 t0 (fun _ => "e9") "b1" "p1" "org1" "s1" "th1" 1 "rt1" "lease1" [7] t0 db_started)).1.
Definition db_more : DB := (ok (empty_db, new_entry t0 "" "" 0 append1) (AppendForMessage t0 "e2" "org1" steer_append db_seeded)).1.
Definition db_more_claimed : DB := (ClaimDeliverableAfter t0 t0 "org1" "th1" "rt1" "lease1" "w1" 1 10 nobody db_more).1.
Definition db_more_written : DB := (MarkDeliveredForEntry t0 t0 "org1" "th1" "rt1" "lease1" "w1" "e2" 2 db_more_claimed).1.
Definition no_batch : ThreadInboxDeliveryBatch := new_batch 0 "" "" "" "" "" 0 0 0.
Definition db_steered : DB := (ok (empty_db, (no_phase, no_batch, None))
  (AcknowledgeInboxBatchAndStartPhase t0 t0 "b2" "p2" "org1" "s1" "th1" "rt1" "lease1" (Some "p1") 1 2 [2] t0 db_more_written)).1.
Definition db_finished : DB := (ok (empty_db, (no_phase, false))
  (CompletePhaseWithTransition t0 "org1" "p2" ActivityPhaseStatusCompleted ActivityPhaseBoundaryFinalResponse t0 db_steered)).1.

(** The seed and the steering message are two batches, the first phase ended
    steered, the second runs. *)
Example steered_run :
  (map (fun b => (b_id b, b_sequence_start b, b_sequence_end b, b_status b)) (thread_inbox_delivery_batches db_steered),
   map (fun p => (ph_id p, ph_phase_number p, ph_status p, ph_boundary_reason p, ph_trigger_batch_id p)) (session_activity_phases db_steered),
   map (fun e => (e_sequence_no e, e_delivery_state e, e_applied_at e)) (thread_inbox_entries db_steered))
  = ([("b1", 1, 1, InboxDeliveryBatchStarted); ("b2", 2, 2, InboxDeliveryBatchStarted)],
     [("p1", 1, ActivityPhaseStatusCompleted, Some ActivityPhaseBoundarySteered, Some "b1");
      ("p2", 2, ActivityPhaseStatusRunning, None, Some "b2")],
     [(1, ThreadInboxDeliveryStateAcked, Some t0); (2, ThreadInboxDeliveryStateAcked, Some t0)]).
Proof. by vm_compute. Qed.

Definition result_of {A B} (r : result (A * B)) (d : B) : B := match r with Ok (_, b) => b | Err _ => d end.

Lemma reachable_seeded : reachable [] db_seeded.
Proof.
  change [] with (spend None (spend None (spend None (spend None [])))).
  eapply (steps_next _ _ _ db_started); [|done|apply step_phase, (op_start_seed _ t0 t0 (fun _ => "e9") "b1" "p1" "org1" "s1" "th1" 1
    "rt1" "lease1" [7] t0 _ (result_of (StartSeedPhase t0 t0 (fun _ => "e9") "b1" "p1" "org1" "s1" "th1" 1 "rt1" "lease1" [7] t0 db_started)
    (no_phase, None))); by vm_compute].
  eapply (steps_next _ _ _ db_accepted); [|done|apply step_runtime, (op_create_runtime _ true t0 "rt1" "org1" runtime_params _
    (new_runtime t0 "rt1" "org1" runtime_params)); by vm_compute].
  eapply (steps_next _ _ _ db_thread); [|done|apply (step_inbox _ false), (op_append _ t0 "e1" "org1" append1 _
    (new_entry t0 "e1" "org1" 1 append1)); by vm_compute].
  eapply steps_next; [apply steps_refl|done|]. by apply step_environment.
Qed.

Lemma reachable_steered : reachable [] db_steered.
Proof.
  change [] with (spend None (spend None (spend None (spend None [])))).
  eapply (steps_next _ _ _ db_more_written); [|done|apply step_phase, (op_steer _ t0 t0 "b2" "p2" "org1" "s1" "th1" "rt1" "lease1" (Some "p1") 1 2
    [2] t0 _ (result_of (AcknowledgeInboxBatchAndStartPhase t0 t0 "b2" "p2" "org1" "s1" "th1" "rt1" "lease1" (Some "p1") 1 2 [2] t0
    db_more_written) (no_phase, no_batch, None))); by vm_compute].
  eapply (steps_next _ _ _ db_more_claimed); [|done|apply (step_inbox _ false), op_delivered].
  eapply (steps_next _ _ _ db_more); [|done|apply (step_inbox _ false), op_claim_entries].
  eapply (steps_next _ _ _ db_seeded); [apply reachable_seeded|done|].
  apply (step_inbox _ false), (op_append _ t0 "e2" "org1" steer_append _ (new_entry t0 "e2" "org1" 2 steer_append)). by vm_compute.
Qed.

(** ** Properties *)

(** C10: the input of a thread starts provider work at most once: in every
    reachable state a delivery batch has started, every number of its range is
    applied under its runtime, exactly one phase was started for it, and no
    input belongs to two batches. *)
Theorem input_starts_one_phase used db b : reachable used db -> In b (thread_inbox_delivery_batches db) ->
  b_status b = InboxDeliveryBatchStarted
  /\ (exists p, (In p (session_activity_phases db) /\ ph_org_id p = b_org_id b /\ ph_trigger_batch_id p = Some (b_id b))
        /\ ph_thread_id p = b_thread_id b /\ ph_runtime_id p = Some (b_runtime_id b)
        /\ forall p', In p' (session_activity_phases db) -> ph_org_id p' = b_org_id b ->
             ph_trigger_batch_id p' = Some (b_id b) -> p' = p)
  /\ (forall e, In e (thread_inbox_entries db) -> e_org_id e = b_org_id b -> e_thread_id e = b_thread_id b ->
        b_sequence_start b <= e_sequence_no e <= b_sequence_end b ->
        e_runtime_id e = Some (b_runtime_id b) /\ e_applied_at e <> None
        /\ forall a, In a (thread_inbox_delivery_batches db) -> b_org_id a = e_org_id e -> b_thread_id a = e_thread_id e ->
             b_sequence_start a <= e_sequence_no e <= b_sequence_end a -> a = b).
Proof.
  intros Hr Hb. pose proof (reachable_inv _ _ Hr) as Hi. pose proof (bi_done _ _ _ (pi_batches _ _ Hi) b Hb) as Hd.
  split; [apply Hd|]. split.
  - destruct (bd_phase _ _ _ Hd) as (p & Hp & Ho & Ht & Hrt & Htr). exists p. repeat split; auto.
    intros p' Hp' Ho' Htr'. apply (hi_trigger _ (pi_phases _ _ Hi) p' p (b_id b)); congruence.
  - intros e He Ho Ht Hs. destruct (bd_applied _ _ _ Hd _ Hs) as (e' & He' & Eo & Et & Es & Er & _ & Ha).
    assert (e' = e) as ->.
    { eapply (ei_sequence _ (pi_entries _ _ Hi) e' e); [done|done|reflexivity|]. unfold sequence_key. congruence. }
    split; [done|]. split; [done|]. intros a Ha' Hao Hat Has. apply (bi_disjoint _ _ _ (pi_batches _ _ Hi)); [done|done|].
    split; [congruence|]. split; [congruence|]. by exists (e_sequence_no e).
Qed.

Definition steered_batch : ThreadInboxDeliveryBatch := Eval vm_compute in nth 1 (thread_inbox_delivery_batches db_steered) no_batch.
Lemma input_starts_one_phase_witness : b_id steered_batch = "b2" /\ b_status steered_batch = InboxDeliveryBatchStarted.
Proof.
  split; [done|]. refine (proj1 (input_starts_one_phase [] db_steered steered_batch _ _)).
  - exact reachable_steered.
  - vm_compute. auto.
Defined.

(** C11: a thread does one thing at a time and its phases are well formed: in every
    reachable state a thread has at most one running phase, a phase has an end
    and a reason exactly when it is not running, it does not end before it
    starts, and it names a batch exactly when input triggered it. *)
Theorem one_phase_runs used db : reachable used db ->
  Forall phase_wf (session_activity_phases db)
  /\ forall a b, In a (session_activity_phases db) -> In b (session_activity_phases db) ->
       ph_status a = ActivityPhaseStatusRunning -> ph_status b = ActivityPhaseStatusRunning ->
       ph_org_id a = ph_org_id b -> ph_thread_id a = ph_thread_id b -> a = b.
Proof. intros Hr%reachable_inv. split; apply (pi_phases _ _ Hr). Qed.

Lemma one_phase_runs_witness : Forall phase_wf (session_activity_phases db_steered).
Proof. exact (proj1 (one_phase_runs [] db_steered reachable_steered)). Defined.

(** ** The end of a phase *)

Lemma ended_phase_stays used db used' db' p : plane_inv used db -> steps used db used' db' ->
  In p (session_activity_phases db) -> ~ running p -> In p (session_activity_phases db').
Proof.
  intros Hi Hs Hp Hn. induction Hs as [|u1 d1 drawn d2 Hs IH _ Hstep]; [done|].
  destruct (step_phases d1 drawn d2 (inv_ctx _ _ (steps_inv _ _ _ _ Hi Hs)) Hstep) as [Hph _].
  destruct (phases_step_row _ _ p Hph IH) as (p' & Hp' & _ & _ & _ & _ & _ & E). by rewrite <- (E Hn).
Qed.

(** An ended phase is what its key finds, and no statement on running phases
    finds it. *)
Lemma select_ended t p q : phases_inv t -> In p t -> ~ running p ->
  (forall x, q x = true -> ph_id x = ph_id p /\ running x) -> select q t = [].
Proof.
  intros Hi Hp Hn Hq. unfold select. destruct (List.filter q t) as [|x l] eqn:E; [done|].
  assert (In x (x :: l)) as Hx by (by left). rewrite <- E in Hx. apply in_filter_iff in Hx as [Hx [Hid Hr]%Hq].
  assert (x = p) as -> by (apply (map_key_inj ph_id t); [apply Hi|done..]). done.
Qed.
Lemma select_key_head t p q : phases_inv t -> In p t -> q p = true -> (forall x, q x = true -> ph_id x = ph_id p) ->
  exists l, select q t = p :: l.
Proof.
  intros Hi Hp Hqp Hq. unfold select. assert (In p (List.filter q t)) as Hin by (by apply in_filter_iff).
  destruct (List.filter q t) as [|x l] eqn:E; [done|]. exists l. f_equal.
  assert (In x (x :: l)) as Hx by (by left). rewrite <- E in Hx. apply in_filter_iff in Hx as [Hx Hqx%Hq].
  by apply (map_key_inj ph_id t); [apply Hi|..].
Qed.

(** C12: the end of a phase is final: whatever the plane does afterwards, the same
    outcome reported again is answered from the row without a write, any other
    outcome is a conflict, the strict transition is a conflict always, and the
    sweep of stranded phases leaves the row alone. *)
Theorem ended_phase_is_final used db used' db' p now status reason at_ before :
  reachable used db -> steps used db used' db' -> In p (session_activity_phases db) ->
  ph_status p <> ActivityPhaseStatusRunning ->
  validateTerminalActivityPhase status reason (postgresTimestamp at_) = true ->
  CompletePhaseWithTransition now (ph_org_id p) (ph_id p) status reason at_ db'
    = (if bool_decide (ph_status p = status /\ ph_boundary_reason p = Some reason
                       /\ ph_completed_at p = Some (postgresTimestamp at_))
       then Ok (db', (p, false)) else Err ErrActivityPhaseConflict)
  /\ completeActivityPhaseInTransaction now (ph_org_id p) (ph_id p) status reason at_ db' = Err ErrActivityPhaseConflict
  /\ ReconcileStrandedPhase now (ph_org_id p) (ph_id p) before at_ db' = Ok (db', false).
Proof.
  intros Hr%reachable_inv Hs Hp Hn Hv. pose proof (ended_phase_stays _ _ _ _ _ Hr Hs Hp Hn) as Hp'.
  pose proof (pi_phases _ _ (steps_inv _ _ _ _ Hr Hs)) as Hi.
  assert (Hc : select (completable (ph_org_id p) (ph_id p) (postgresTimestamp at_)) (session_activity_phases db') = []).
  { apply (select_ended _ p); auto. intros x H. unfold completable in H. by reflect_bools. }
  unfold CompletePhaseWithTransition, completeActivityPhaseInTransaction, ReconcileStrandedPhase.
  rewrite Hv, Hc. simpl. split; [|split; [done|]].
  - destruct (select_key_head (session_activity_phases db') p (fun x => (ph_org_id x ==? ph_org_id p) && (ph_id x ==? ph_id p)) Hi Hp')
      as [l ->]; [by rewrite !bool_decide_eq_true_2|intros x H; by reflect_bools|].
    unfold col_is. destruct (ph_boundary_reason p), (ph_completed_at p); repeat case_bool_decide; try done; exfalso; intuition congruence.
  - rewrite (select_ended _ p); auto. intros x H. by reflect_bools.
Qed.

Lemma reachable_finished : reachable [] db_finished.
Proof.
  change [] with (spend None []). eapply (steps_next _ _ _ db_steered); [apply reachable_steered|done|].
  apply step_phase, (op_complete_phase _ t0 "org1" "p2" ActivityPhaseStatusCompleted ActivityPhaseBoundaryFinalResponse t0 _
    (result_of (CompletePhaseWithTransition t0 "org1" "p2" ActivityPhaseStatusCompleted ActivityPhaseBoundaryFinalResponse t0 db_steered)
      (no_phase, false))). by vm_compute.
Qed.

Definition finished_phase : SessionActivityPhase := Eval vm_compute in nth 1 (session_activity_phases db_finished) no_phase.
(** The turn that ended with a final response cannot be reported failed. *)
Lemma ended_phase_is_final_witness :
  CompletePhaseWithTransition t0 "org1" "p2" ActivityPhaseStatusFailed ActivityPhaseBoundaryError t0 db_finished
    = Err ErrActivityPhaseConflict.
Proof.
  etransitivity; [refine (proj1 (ended_phase_is_final [] db_finished [] db_finished finished_phase t0 ActivityPhaseStatusFailed
    ActivityPhaseBoundaryError t0 0 _ _ _ _ _))|by vm_compute].
  - exact reachable_finished.
  - apply steps_refl.
  - vm_compute. auto.
  - done.
  - by vm_compute.
Defined.
