(* ===== verification/DeliveryProtocol.v ===== *)
(** * The protocol of live input

    A message is handed to a provider in one of two ways: a delivery run writes
    it to the standard input of a running agent, or it is admitted as a seed
    before the agent starts.  A [Site] is the database with a ledger of what
    was handed over, by entry: [s_sent] has one item for every write that may
    have reached a provider and for every admission, [s_marks] the attempts
    that a run has recorded and not settled, [s_retried] the entries an
    operator reopened.  The ledger is no state of the program.

    [move run] is what one atomic action of the delivery run [run] may do to
    the site; the stores' own operations are moves as well.  The invariant
    [ledger_ok] bounds what was handed over by what the rows say. *)

From S2P Require Import Prelude GoRuntime Sql Tables Continuation JobStore ExecutorStore ThreadRuntimeStore ThreadInboxStore ActivityPhaseStore.
From S2P Require Import JobLifecycle JobSteps NodeSteps ExecutorSteps RuntimeSteps InboxSteps PhaseSteps Plane.
From stdpp Require Import base option list strings gmap relations.

Open Scope string_scope.
Open Scope Z_scope.

Record Site := MkSite {
  s_db : DB;
  s_sent : list uuid;
  s_marks : list (nat * uuid);
  s_retried : list uuid
}.
#[export] Instance eta_Site : Eta Site := fun s => MkSite (s_db s) (s_sent s) (s_marks s) (s_retried s).

(** Entries that are acknowledged now and that nobody had attempted: seeds. *)
Definition admitted (db db' : DB) : list uuid :=
  map e_id (select (fun e => (e_delivery_state e ==? ThreadInboxDeliveryStateAcked)
    && negb (exists_row (fun old => (e_id old ==? e_id e) && attempted old) (thread_inbox_entries db)))
    (thread_inbox_entries db')).

Definition plane_write (db' : DB) (s : Site) : Site :=
  s <| s_db := db' |> <| s_sent := (admitted (s_db s) db' ++ s_sent s)%list |>.

(** One occurrence of a mark is removed. *)
Fixpoint drop_mark (m : nat * uuid) (l : list (nat * uuid)) : list (nat * uuid) :=
  match l with
  | [] => []
  | x :: l => if x ==? m then l else x :: drop_mark m l
  end.

Inductive move (run : nat) (s : Site) : Site -> Prop :=
  | mv_plane db' : automatic_step (s_db s) db' -> move run s (plane_write db' s)
  (** the row is marked delivered before the write *)
  | mv_mark now clock org th rt tok node id seq db' : MarkDeliveredForEntry now clock org th rt tok node id seq (s_db s) = (db', 1) ->
      move run s (s <| s_db := db' |> <| s_marks := (run, id) :: s_marks s |>)
  (** the write, which the provider may have taken *)
  | mv_sent id : In (run, id) (s_marks s) ->
      move run s (s <| s_sent := id :: s_sent s |> <| s_marks := drop_mark (run, id) (s_marks s) |>)
  (** the mark is taken back when nothing was written *)
  | mv_unsent now clock org th rt tok id : In (run, id) (s_marks s) ->
      move run s (s <| s_db := (ResetUnsentDelivery now clock org th rt tok id (s_db s)).1 |> <| s_marks := drop_mark (run, id) (s_marks s) |>)
  (** an operator reopens an entry that ended unsettled *)
  | mv_retry now org th id allow db' e : RetryRecoverable now org th id allow (s_db s) = Ok (db', e) ->
      move run s (s <| s_db := db' |> <| s_retried := id :: s_retried s |>).

Definition moves : relation Site := rtc (fun s s' => exists run, move run s s').

(** What the other runs do leaves the marks of this one. *)
Definition others_moves (me : nat) : relation Site := rtc (fun s s' => exists run, run <> me /\ move run s s').

Lemma others_are_moves me s s' : others_moves me s s' -> moves s s'.
Proof. intros H. induction H as [|x y z (run & _ & Hm)]; [apply rtc_refl|]. eapply rtc_l; [by exists run|done]. Qed.

(** ** Counting *)

Definition occurrences (id : uuid) (l : list uuid) : nat := count_occ String.string_dec l id.
Arguments occurrences : simpl never.

Lemma occurrences_app id l k : occurrences id (l ++ k) = (occurrences id l + occurrences id k)%nat.
Proof. apply count_occ_app. Qed.
Lemma occurrences_cons id x l : occurrences id (x :: l) = ((if decide (x = id) then 1 else 0) + occurrences id l)%nat.
Proof. unfold occurrences. simpl. destruct (String.string_dec x id), (decide (x = id)); done. Qed.
Lemma occurrences_none id l : ~ In id l -> occurrences id l = 0%nat.
Proof. apply count_occ_not_In. Qed.
Lemma occurrences_nodup id l : List.NoDup l -> (occurrences id l <= 1)%nat.
Proof. intros H. by apply (NoDup_count_occ String.string_dec l). Qed.

Lemma drop_mark_count run id x l : In (run, id) l ->
  occurrences x (map snd l) = (occurrences x (map snd (drop_mark (run, id) l)) + (if decide (id = x) then 1 else 0))%nat.
Proof.
  induction l as [|m l IH]; intros Hin; [done|]. simpl drop_mark. case_bool_decide as E.
  - subst m. simpl. rewrite occurrences_cons. lia.
  - destruct Hin as [->|Hin]; [done|]. simpl. rewrite !occurrences_cons, IH by done. lia.
Qed.
Lemma drop_mark_in m l x : In x (drop_mark m l) -> In x l.
Proof. induction l as [|y l IH]; [done|]. simpl. case_bool_decide; [by right|]. intros [->|]; auto. Qed.
Lemma drop_mark_other m l x : x <> m -> In x l -> In x (drop_mark m l).
Proof. intros Hx. induction l as [|y l IH]; [done|]. simpl. case_bool_decide; intros [->|]; simpl; auto. done. Qed.

Lemma others_keep_marks me s s' id : others_moves me s s' -> In (me, id) (s_marks s) -> In (me, id) (s_marks s').
Proof.
  intros H. induction H as [|x y z (run & Hn & Hm) _ IH]; [done|]. intros Hin. apply IH.
  destruct Hm; simpl; auto; apply drop_mark_other; auto; congruence.
Qed.

(** ** The invariant *)

(** An entry in one of the states that no run claims counts as handed over
    once, and so does every retry of it. *)
Record ledger_ok (s : Site) : Prop := {
  lo_ctx : phase_ctx (s_db s);
  lo_known : forall id, In id (s_sent s) \/ In id (map snd (s_marks s)) -> In id (map e_id (thread_inbox_entries (s_db s)));
  lo_bound : forall e, In e (thread_inbox_entries (s_db s)) ->
    (occurrences (e_id e) (s_sent s) + occurrences (e_id e) (map snd (s_marks s))
     <= occurrences (e_id e) (s_retried s) + (if attempted e then 1 else 0))%nat
}.

(** A row after a step is a row of before, or new. *)
Lemma entries_step_back manual t t' e' : Forall entry_wf t -> entries_step manual t t' -> In e' t' ->
  (exists e, In e t /\ entry_kept manual e e') \/ ~ In (e_id e') (map e_id t).
Proof.
  intros Hwf Hs Hin. rewrite List.Forall_forall in Hwf. destruct Hs as [t g Hg|t x ? ? Hid|t g rows Hg _ Hnd].
  - left. apply in_map_iff in Hin as (e & <- & Hin). eauto.
  - apply in_app_iff in Hin as [Hin|[<-|[]]]; [|by right]. left. exists e'. split; [done|]. by apply entry_kept_refl, Hwf.
  - apply in_app_iff in Hin as [Hin|Hin].
    + left. apply in_map_iff in Hin as (e & <- & Hin). eauto.
    + right. intros (e & He & Hin')%in_map_iff. rewrite map_app in Hnd. apply NoDup_ListNoDup, NoDup_app in Hnd as (_ & Hd & _).
      apply (Hd (e_id e')); apply list_elem_of_In; [|by apply in_map].
      rewrite <- He, <- (ek_id _ _ _ (Hg e Hin' (Hwf e Hin'))). by apply in_map, in_map.
Qed.

Lemma entries_step_ids manual t t' id : Forall entry_wf t -> entries_step manual t t' -> In id (map e_id t) -> In id (map e_id t').
Proof.
  intros Hwf Hs (e & <- & Hin)%in_map_iff. destruct (entries_step_row _ _ _ e Hwf Hs Hin) as (e' & Hin' & Hk).
  rewrite <- (ek_id _ _ _ Hk). by apply in_map.
Qed.

Lemma admitted_in db db' id : In id (admitted db db') -> exists e, In e (thread_inbox_entries db') /\ e_id e = id /\ attempted e = true
  /\ forall old, In old (thread_inbox_entries db) -> e_id old = id -> attempted old = false.
Proof.
  unfold admitted. intros (e & <- & [He Hs]%in_filter_iff)%in_map_iff. exists e. reflect_bools.
  split; [done|]. split; [done|]. split; [unfold attempted; by match goal with H : e_delivery_state e = _ |- _ => rewrite H end|].
  intros old Ho Hid. match goal with H : exists_row _ _ = false |- _ => apply (exists_row_none _ _ old H) in Ho end.
  by rewrite bool_decide_eq_true_2 in Ho.
Qed.

Lemma admitted_bound db db' e : List.NoDup (map e_id (thread_inbox_entries db')) -> In e (thread_inbox_entries db') ->
  (occurrences (e_id e) (admitted db db') <= if attempted e then 1 else 0)%nat.
Proof.
  intros Hnd Hin. destruct (attempted e) eqn:E.
  - apply occurrences_nodup. unfold admitted, select. revert Hnd. generalize (thread_inbox_entries db'). intros l Hl.
    induction l as [|x l IH]; [constructor|]. inversion Hl; subst. simpl. case_match; [|auto]. simpl. constructor; [|auto].
    intros (y & Hy & [? _]%in_filter_iff)%in_map_iff. match goal with H : ~ In _ _ |- _ => apply H end. rewrite <- Hy. by apply in_map.
  - rewrite occurrences_none; [done|]. intros (x & Hx & Hid & Ha & _)%admitted_in.
    assert (x = e) as -> by (by apply (map_key_inj e_id (thread_inbox_entries db'))). congruence.
Qed.

Lemma auto_attempted e e' : entry_kept false e e' -> attempted e = true -> attempted e' = true.
Proof. intros Hk. pose proof (ek_state _ _ _ Hk) as Hs. unfold attempted. destruct (e_delivery_state e); inversion Hs; done. Qed.

Lemma plane_write_ok s db' : ledger_ok s -> automatic_step (s_db s) db' -> ledger_ok (plane_write db' s).
Proof.
  intros [Hctx Hk Hb] Hstep. pose proof (automatic_entries _ _ Hctx Hstep) as He.
  destruct (automatic_is_step _ _ Hstep) as [drawn Hst]. pose proof (step_ctx _ _ _ Hctx Hst) as Hctx'.
  pose proof (ei_wf _ (px_entries _ Hctx)) as Hwf. pose proof (ei_ids _ (px_entries _ Hctx')) as Hnd.
  split; simpl; [done| |].
  - intros id [Hin|Hin]; [apply in_app_iff in Hin as [Hin|Hin]|].
    + apply admitted_in in Hin as (e & Hin & <- & _). by apply in_map.
    + eapply entries_step_ids; eauto.
    + eapply entries_step_ids; eauto.
  - intros e' Hin. rewrite occurrences_app. pose proof (admitted_bound (s_db s) db' e' Hnd Hin) as Hadm.
    destruct (entries_step_back _ _ _ e' Hwf He Hin) as [(e & Hine & Hke)|Hnew].
    + specialize (Hb e Hine). rewrite <- (ek_id _ _ _ Hke) in Hb. destruct (attempted e) eqn:Ea; [|lia].
      rewrite (auto_attempted _ _ Hke Ea). rewrite (occurrences_none _ (admitted _ _)); [lia|].
      intros (x & _ & _ & _ & Hold)%admitted_in. rewrite (Hold e Hine) in Ea; [done|]. by rewrite (ek_id _ _ _ Hke).
    + rewrite (occurrences_none _ (s_sent s)), (occurrences_none _ (map snd _)); [lia|..]; intros H; apply Hnew, Hk; auto.
Qed.

Lemma count_rows_some {A} (p : A -> bool) t : count_rows p t <> 0 -> exists x, In x t /\ p x = true.
Proof.
  intros H. destruct (exists_row p t) eqn:E; [by apply exists_row_true in E|]. by apply count_rows_0 in E.
Qed.

(** The statements that name one entry write that row only. *)
Lemma one_entry_ok s db' marks' sent' retried' id (q : ThreadInboxEntry -> bool) (f : ThreadInboxEntry -> ThreadInboxEntry) :
  ledger_ok s -> phase_ctx db' -> thread_inbox_entries db' = update q f (thread_inbox_entries (s_db s)) ->
  (forall e, q e = true -> e_id e = id) -> (forall e, e_id (f e) = e_id e) ->
  (forall x, In x sent' \/ In x (map snd marks') -> In x (map e_id (thread_inbox_entries (s_db s)))) ->
  (forall x, x <> id -> occurrences x sent' = occurrences x (s_sent s)
     /\ occurrences x (map snd marks') = occurrences x (map snd (s_marks s)) /\ occurrences x retried' = occurrences x (s_retried s)) ->
  (forall e, In e (thread_inbox_entries (s_db s)) -> e_id e = id ->
     (occurrences id (s_sent s) + occurrences id (map snd (s_marks s)) <= occurrences id (s_retried s) + (if attempted e then 1 else 0))%nat ->
     (occurrences id sent' + occurrences id (map snd marks')
      <= occurrences id retried' + (if attempted (if q e then f e else e) then 1 else 0))%nat) ->
  ledger_ok (MkSite db' sent' marks' retried').
Proof.
  intros [Hctx Hk Hb] Hctx' Ee Hq Hf Hkn Hoth Hid. split; simpl; [done| |].
  - intros x Hx. apply Hkn in Hx. rewrite Ee. unfold update. rewrite map_map.
    erewrite map_ext; [exact Hx|]. intros e. simpl. by destruct (q e).
  - intros e'. rewrite Ee. intros (e & Hin & ->)%in_update_image. specialize (Hb e Hin).
    assert (e_id (if q e then f e else e) = e_id e) as E by (by destruct (q e)). rewrite E.
    destruct (decide (e_id e = id)) as [Ei|Ei]; [rewrite Ei in *; by apply Hid|].
    destruct (Hoth _ Ei) as (-> & -> & ->). destruct (q e) eqn:Eq; [|done]. by apply Hq in Eq.
Qed.

Lemma inbox_op_ctx manual db db' : phase_ctx db -> inbox_op db manual db' -> phase_ctx db'.
Proof. intros Hctx H. eapply step_ctx; [done|]. by apply (step_inbox _ manual). Qed.

Lemma mark_move_ok run s now clock org th rt tok node id seq db' : ledger_ok s ->
  MarkDeliveredForEntry now clock org th rt tok node id seq (s_db s) = (db', 1) ->
  ledger_ok (s <| s_db := db' |> <| s_marks := (run, id) :: s_marks s |>).
Proof.
  intros Hok Hm. assert (phase_ctx db') as Hctx'.
  { replace db' with (MarkDeliveredForEntry now clock org th rt tok node id seq (s_db s)).1 by (by rewrite Hm).
    apply (inbox_op_ctx false (s_db s)); [apply Hok|apply op_delivered]. }
  injection Hm as Hdb Hcount. set (q := fun e => exists_row _ (thread_runtimes _)) in *.
  assert (forall e, q e = true -> e_id e = id /\ attempted e = false) as Hq.
  { intros e (r & _ & Hr)%exists_row_true. unfold attempted. reflect_bools. by match goal with H : e_delivery_state e = _ |- _ => rewrite H end. }
  destruct (count_rows_some q (thread_inbox_entries (s_db s))) as (x & Hx & Hqx); [by rewrite Hcount|].
  destruct (Hq x Hqx) as [Hxid Hxa].
  eapply (one_entry_ok _ _ _ _ _ id q); [done|done|by rewrite <- Hdb|intros e He; by apply Hq|done| | |]; simpl.
  - intros y [Hy|[<-|Hy]]; [apply Hok; by left|rewrite <- Hxid; by apply in_map|apply Hok; by right].
  - intros y Hy. rewrite occurrences_cons. by destruct (decide (id = y)).
  - intros e Hin Hid Hb. assert (e = x) as -> by (apply (map_key_inj e_id (thread_inbox_entries (s_db s))); [apply Hok|congruence..]).
    rewrite Hqx, occurrences_cons, decide_True by done. rewrite Hxa in Hb. simpl. lia.
Qed.

Lemma sent_move_ok run s id : ledger_ok s -> In (run, id) (s_marks s) ->
  ledger_ok (s <| s_sent := id :: s_sent s |> <| s_marks := drop_mark (run, id) (s_marks s) |>).
Proof.
  intros Hok Hin. assert (In id (map snd (s_marks s))) as Hid by (apply in_map_iff; by exists (run, id)).
  apply (one_entry_ok s _ _ _ _ id (fun _ => false) (fun e => e) Hok); [apply Hok|..]; simpl; try done.
  - unfold update. by rewrite map_id.
  - intros x [[<-|Hx]|Hx]; [apply Hok; auto|apply Hok; auto|].
    apply Hok. right. apply in_map_iff in Hx as (m & <- & Hm). by apply in_map, (drop_mark_in (run, id)).
  - intros x Hx. rewrite occurrences_cons, (drop_mark_count run id x (s_marks s) Hin), !decide_False by done. lia.
  - intros e He Hide. rewrite occurrences_cons, (drop_mark_count run id id (s_marks s) Hin), !decide_True by done. lia.
Qed.

Lemma unsent_move_ok run s now clock org th rt tok id : ledger_ok s -> In (run, id) (s_marks s) ->
  ledger_ok (s <| s_db := (ResetUnsentDelivery now clock org th rt tok id (s_db s)).1 |> <| s_marks := drop_mark (run, id) (s_marks s) |>).
Proof.
  intros Hok Hin. assert (phase_ctx (ResetUnsentDelivery now clock org th rt tok id (s_db s)).1) as Hctx'.
  { apply (inbox_op_ctx true (s_db s)); [apply Hok|apply op_unsent]. }
  eapply (one_entry_ok s _ _ _ _ id); [done|done|reflexivity| |done| | |]; simpl.
  - intros e He. by reflect_bools.
  - intros x [Hx|Hx]; [apply Hok; auto|].
    apply Hok. right. apply in_map_iff in Hx as (m & <- & Hm). by apply in_map, (drop_mark_in (run, id)).
  - intros x Hx. rewrite (drop_mark_count run id x (s_marks s) Hin), !decide_False by done. lia.
  - intros e He Hide. rewrite (drop_mark_count run id id (s_marks s) Hin), !decide_True by done.
    match goal with |- context [attempted (if ?c then _ else _)] => destruct c end; simpl; [destruct (attempted e)|]; lia.
Qed.

Lemma retry_move_ok s now org th id allow db' e : ledger_ok s -> RetryRecoverable now org th id allow (s_db s) = Ok (db', e) ->
  ledger_ok (s <| s_db := db' |> <| s_retried := id :: s_retried s |>).
Proof.
  intros Hok Hr. assert (phase_ctx db') as Hctx' by (eapply inbox_op_ctx; [apply Hok|by eapply op_retry_entry]).
  unfold RetryRecoverable, update_entry in Hr. case_match; [done|]. simplify_eq.
  eapply (one_entry_ok s _ _ _ _ id); [done|done|reflexivity| |done| | |]; simpl.
  - intros x Hx. by reflect_bools.
  - apply Hok.
  - intros x Hx. rewrite occurrences_cons, decide_False by done. done.
  - intros x _ _ Hb. rewrite occurrences_cons, decide_True by done. destruct (attempted x); lia.
Qed.

Lemma move_ok run s s' : ledger_ok s -> move run s s' -> ledger_ok s'.
Proof.
  intros Hok []; eauto using plane_write_ok, mark_move_ok, sent_move_ok, unsent_move_ok, retry_move_ok.
Qed.
Lemma moves_ok s s' : ledger_ok s -> moves s s' -> ledger_ok s'.
Proof. intros Hok H. revert Hok. induction H as [|x y z [run Hm]]; eauto using move_ok. Qed.

Definition empty_site : Site := MkSite empty_db [] [] [].
Lemma empty_site_ok : ledger_ok empty_site.
Proof. split; [apply (inv_ctx []), empty_inv|by intros ? [[]|[]]|done]. Qed.
