(* ===== verification/Delivery.v ===== *)
(** * Delivery of live input

    internal/services/agent/thread_runtime_delivery.go: one process feeds the
    inbox of one thread to the agent that runs it, keeps receipts of the writes
    the agent took until they are acknowledged in the database, and opens and
    closes the thread's runtime.  With it activity_phase_execution.go
    (acknowledgeAndResume, complete), cancel_thread.go (the registry of
    handles) and providers/docker_handle.go (WriteInput).

    A program is a sequence of statements and writes.  Before each of them the
    other processes act on the [Site], the turn changes the phase it runs and
    the handle it registered; a statement may fail, or take effect although
    its reply is lost.  acquireThreadDelivery makes the programs of one thread
    in one process follow each other, so the receipts are theirs alone.  An
    error is the innermost error of its chain, which is what errors.Is finds;
    the prefixes of wraps are not kept. *)

From S2P Require Import Prelude GoRuntime Sql Tables Continuation JobStore ExecutorStore ThreadRuntimeStore ThreadInboxStore HolderStore ActivityPhaseStore SessionStore.
From S2P Require Import InboxSteps Plane DeliveryProtocol.
From Stdlib Require Import Sorting.Sorted.
From stdpp Require Import base option list sorting strings gmap.

Open Scope string_scope.
Open Scope Z_scope.

Definition threadInboxDeliveryBatchSize : Z := 50.
Definition threadRuntimeLeaseDuration : duration := 60 * second.

(** ** Errors *)

Inductive DeliveryError :=
  | Plain (msg : string)
  | ThreadRuntimeOwnedElsewhereError (runtimeID threadID : uuid) (ownerNodeID : string).
Definition is_error (e : DeliveryError) (msg : string) : bool := match e with Plain m => m ==? msg | _ => false end.

(** [err.Error()]. *)
Definition error_text (e : DeliveryError) : string :=
  match e with
  | Plain m => m
  | ThreadRuntimeOwnedElsewhereError rt th node =>
      "thread runtime " +:+ rt +:+ " for thread " +:+ th +:+ " is owned by worker " +:+ quote +:+ node +:+ quote
  end.

Definition ErrThreadRuntimeLeaseLost : string := "thread runtime lease lost".
Definition ErrThreadRuntimeLiveInputUnsupported : string := "thread runtime live input unsupported".
Definition ErrThreadRuntimeAlreadyActive : string := "thread runtime already active".
Definition ErrThreadHandleUnavailable : string := "thread runtime handle unavailable".
Definition ErrInputNotOpen : string := "interactive handle: stdin not open".
Definition errActivityPhaseDeliveryClosed : string := "activity phase closed for input transitions".
Definition no_active_runtime : string := "get active thread runtime: no rows in result set".

(** ** Handles *)

(** InteractiveCommandHandle: [WriteInput h n data] is the error of the write,
    if any, and whether bytes may have reached the command; [n] is the moment
    of the write. *)
Class Handle := {
  handle : Type;
  handle_ID : handle -> string;
  WriteInput : handle -> nat -> string -> option string * bool
}.

(** A definite refusal wrote nothing. *)
Class HandleLaws (H : Handle) := {
  refusal_writes_nothing h n data msg : (WriteInput h n data).1 = Some msg ->
    msg = ErrThreadHandleUnavailable \/ msg = ErrInputNotOpen -> (WriteInput h n data).2 = false
}.

(** providers/docker_handle.go: the write runs in a goroutine of its own, and
    the context may end first. *)
Inductive docker_event := WriteDone | WriteBroken (msg : string) | ContextDone (msg : string).
Record dockerInteractiveHandle := MkDockerHandle { dh_id : string; dh_stdin : bool }.

Definition docker_WriteInput (events : nat -> docker_event) (h : dockerInteractiveHandle) (n : nat) (data : string)
    : option string * bool :=
  if negb (dh_stdin h) then (Some ErrInputNotOpen, false)
  else if data ==? "" then (None, false)
  else match events n with
       | WriteDone => (None, true)
       | WriteBroken msg => (Some ("write interactive stdin: " +:+ msg), true)
       | ContextDone msg => (Some msg, true)
       end.
Definition docker_handle (events : nat -> docker_event) : Handle :=
  {| handle := dockerInteractiveHandle; handle_ID := dh_id; WriteInput := docker_WriteInput events |}.

(** The context's error is one of the two of the standard library. *)
Lemma docker_handle_laws events :
  (forall n msg, events n = ContextDone msg -> msg = "context canceled" \/ msg = "context deadline exceeded") ->
  HandleLaws (docker_handle events).
Proof.
  intros Hc. split. intros h n data msg. simpl. unfold docker_WriteInput.
  destruct (dh_stdin h); [|done]. simpl. case_bool_decide; [done|].
  destruct (events n) as [|m|m] eqn:E; [done| |]; intros [= <-] [H1|H1]; try done.
  - by destruct (Hc n m E); subst.
  - by destruct (Hc n m E); subst.
Qed.

(** ** Receipts and executions *)

Definition confirmedThreadInputKey : Type := uuid * uuid * uuid * uuid.
Record confirmedThreadInputs := MkConfirmed { rc_sequences : list Z; rc_ackedBeforeDelivery : Z }.
Definition confirmedThreadInputKeyFor (runtime : ThreadRuntime) (threadID : uuid) : confirmedThreadInputKey :=
  (tr_org_id runtime, threadID, tr_id runtime, tr_lease_token runtime).

(** [sort.Search(len(s), f)] with its bounds [i] and [j]. *)
Fixpoint search (fuel : nat) (f : nat -> bool) (i j : nat) : nat :=
  match fuel with
  | O => i
  | S fuel => if (i <? j)%nat
              then let h := ((i + j) / 2)%nat in
                   if f h then search fuel f i h else search fuel f (S h) j
              else i
  end.
Definition sort_Search (n : nat) (f : nat -> bool) : nat := search n f 0 n.

Lemma search_spec fuel f i j : (i <= j <= i + fuel)%nat -> (forall a b : nat, (a <= b < j)%nat -> f a = true -> f b = true) ->
  let k := search fuel f i j in (i <= k <= j)%nat /\ (forall m, (i <= m < k)%nat -> f m = false) /\ forall m, (k <= m < j)%nat -> f m = true.
Proof.
  revert i j. induction fuel as [|fuel IH]; intros i j Hij Hf; cbn [search]; cbv zeta; [repeat split; lia|].
  destruct (Nat.ltb_spec i j) as [Hlt|Hge]; [|repeat split; lia]. set (h := ((i + j) / 2)%nat).
  assert (i <= h < j)%nat as Hh.
  { pose proof (Nat.div_mod_eq (i + j) 2) as Hd. pose proof (Nat.mod_upper_bound (i + j) 2 ltac:(done)) as Hm.
    change (Nat.div (i + j) 2) with h in Hd. lia. }
  clearbody h. destruct (f h) eqn:Eh.
  - destruct (IH i h) as (Hk & Hlow & Hhigh); [lia|intros a b Hab; apply Hf; lia|]. cbv zeta in *. split; [lia|]. split; [done|].
    intros m Hm. destruct (Nat.lt_ge_cases m h); [apply Hhigh; lia|]. apply (Hf h m); [lia|done].
  - destruct (IH (S h) j) as (Hk & Hlow & Hhigh); [lia|done|]. cbv zeta in *. split; [lia|]. split; [|done].
    intros m Hm. destruct (Nat.lt_ge_cases h m); [apply Hlow; lia|]. destruct (f m) eqn:Em; [|done].
    rewrite (Hf m h) in Eh; [done|lia|done].
Qed.

(** The cut of an ascending list at the old cursor: cutting either part again
    gives nothing new, so one cut is what the recursion of
    acknowledgeConfirmedThreadInboxInputs comes to. *)
Definition cut (acked : Z) (l : list Z) : nat := sort_Search (length l) (fun i => acked <? nth i l 0).

Lemma cut_spec acked l : StronglySorted Z.le l ->
  (cut acked l <= length l)%nat /\ Forall (fun x => x <= acked) (take (cut acked l) l) /\ Forall (fun x => acked < x) (drop (cut acked l) l).
Proof.
  intros Hs. destruct (search_spec (length l) (fun i => acked <? nth i l 0) 0 (length l)) as (Hk & Hlow & Hhigh); [lia| |].
  { intros a b Hab. rewrite !Z.ltb_lt. assert (nth a l 0 <= nth b l 0); [|lia].
    revert a b Hab. induction Hs as [|x l _ IH Hx]; intros [|a] [|b] Hab; simpl in *; try lia.
    - rewrite List.Forall_forall in Hx. apply Hx, nth_In. lia.
    - apply IH. lia. }
  fold (sort_Search (length l) (fun i => acked <? nth i l 0)) in *. fold (cut acked l) in *.
  split; [lia|]. split; apply List.Forall_forall; intros x (n & Hn & <-)%(In_nth _ _ 0).
  - rewrite length_take in Hn. rewrite nth_firstn. destruct (Nat.ltb_spec n (cut acked l)); [|lia]. apply Z.ltb_ge, Hlow. lia.
  - rewrite length_drop in Hn. rewrite nth_skipn. apply Z.ltb_lt, Hhigh. lia.
Qed.

Lemma cut_side acked l : StronglySorted Z.le l ->
  cut acked (take (cut acked l) l) = length (take (cut acked l) l) /\ cut acked (drop (cut acked l) l) = 0%nat.
Proof.
  intros Hs. destruct (cut_spec acked l Hs) as (Hk & Hlow & Hhigh). set (k := cut acked l) in *.
  rewrite <- (take_drop k l) in Hs. apply StronglySorted_app in Hs as (_ & Hs1 & Hs2).
  destruct (cut_spec acked (take k l) Hs1) as (Hk1 & _ & Hh1), (cut_spec acked (drop k l) Hs2) as (Hk2 & Hl2 & _). split.
  - destruct (drop (cut acked (take k l)) (take k l)) as [|x r] eqn:Ed.
    + apply (f_equal length) in Ed. rewrite length_drop in Ed. simpl in Ed. lia.
    + inversion Hh1; subst. rewrite List.Forall_forall in Hlow. assert (In x (take k l)) as Hx.
      { rewrite <- (take_drop (cut acked (take k l)) (take k l)), Ed. apply in_app_iff. right. by left. }
      apply Hlow in Hx. lia.
  - destruct (cut acked (drop k l)) as [|n] eqn:Ec; [done|]. destruct (drop k l) as [|x r]; [simpl in Hk2; lia|].
    inversion Hl2; inversion Hhigh; subst. lia.
Qed.

Record activityPhaseExecution := MkExecution {
  x_orgID : uuid;
  x_sessionID : uuid;
  x_threadID : uuid;
  x_turnNumber : Z;
  x_runtimeID : option uuid;
  x_leaseToken : option uuid;
  x_phase : option SessionActivityPhase;
  x_deliveryClosed : bool
}.
#[export] Instance eta_activityPhaseExecution : Eta activityPhaseExecution := fun x =>
  MkExecution (x_orgID x) (x_sessionID x) (x_threadID x) (x_turnNumber x) (x_runtimeID x) (x_leaseToken x)
    (x_phase x) (x_deliveryClosed x).

(** ** The default encoding of an entry *)

Definition newline : string := String (Ascii.ascii_of_nat 10) EmptyString.
Fixpoint ends_with_newline (s : string) : bool :=
  match s with
  | EmptyString => false
  | String c EmptyString => Ascii.nat_of_ascii c =? 10
  | String _ s => ends_with_newline s
  end%nat.

(** A payload is a JSON object, never an empty text; its writers spell the
    key this way. *)
Definition formatThreadInboxRuntimeInput (e : ThreadInboxEntry) : result string :=
  let encode content :=
    if content ==? "" then Err ("thread inbox entry " +:+ e_id e +:+ " has no live-delivery content")
    else Ok (if ends_with_newline content then content else content +:+ newline) in
  match e_entry_type e with
  | ThreadInboxEntryTypeControl => Err "unsupported thread inbox entry type for live delivery: control"
  | _ => match e_payload e !! "content" with
         | Some (JScalar (SStr content)) => encode content
         | None | Some (JScalar SNull) => encode ""
         | Some _ => Err ("decode thread inbox entry " +:+ e_id e +:+ " payload")
         end
  end.

(** The ids of the seed messages of a turn. *)
Definition threadRuntimeSeedMessageIDs (messages : list SessionMessage) : list Z :=
  map m_id (List.filter (fun m => negb (m_id m =? 0) && (m_role m ==? "user")) messages).

(** ** Programs *)

Inductive reply := Answered | Refused | Unheard.

Record Orchestrator := MkOrchestrator {
  o_nodeID : string;
  (** the activity phase service is wired *)
  o_activityPhases : bool;
  (** the session store can end a phase in its own transaction *)
  o_atomicSessions : bool;
  (** adapters that encode entries themselves, by agent type *)
  o_adapters : string -> option (ThreadInboxEntry -> result string)
}.

Definition threadRuntimeInputFormatter (o : Orchestrator) (agentType : string) : ThreadInboxEntry -> result string :=
  default formatThreadInboxRuntimeInput (o_adapters o agentType).

Section Programs.
Context {H : Handle}.

(** The registry of handles has an entry for the thread while a turn runs, and
    a handle in it while the command runs. *)
Record World := MkWorld {
  w_step : nat;
  w_site : Site;
  w_confirmed : gmap confirmedThreadInputKey confirmedThreadInputs;
  w_execution : option activityPhaseExecution;
  w_registry : option (option handle);
  (** the writes of this process to a handle, and whether they succeeded; no
      state of the program *)
  w_written : list (ThreadInboxEntry * bool)
}.
#[export] Instance eta_DWorld : Eta World := fun w => MkWorld (w_step w) (w_site w) (w_confirmed w) (w_execution w) (w_registry w) (w_written w).

Record DeliveryEnv := MkDeliveryEnv {
  d_run : nat;
  d_others : nat -> Site -> Site;
  d_turn : nat -> option activityPhaseExecution -> option activityPhaseExecution;
  d_registry : nat -> option (option handle) -> option (option handle);
  d_reply : nat -> reply;
  d_now : nat -> time;
  d_clock : nat -> time;
  (** the clock of the process *)
  d_wall : nat -> time;
  d_uuid : nat -> uuid;
  d_locked : nat -> uuid -> bool;
  d_insert_first : nat -> bool;
  (** the acknowledgment context has ended *)
  d_expired : nat -> bool
}.

Definition M (A : Type) : Type := World -> World * (DeliveryError + A).
#[export] Instance M_ret : MRet M := fun _ a w => (w, inr a).
#[export] Instance M_bind : MBind M := fun _ _ k m w =>
  let '(w, r) := m w in match r with inl e => (w, inl e) | inr a => k a w end.
Definition throw {A} (e : DeliveryError) : M A := fun w => (w, inl e).
Definition fail {A} (msg : string) : M A := throw (Plain msg).
(** The error as a value. *)
Definition attempt {A} (m : M A) : M (DeliveryError + A) := fun w => let '(w, r) := m w in (w, inr r).

Context (E : DeliveryEnv) (o : Orchestrator).

(** [book] says what the effect of a statement means for the ledger. *)
Definition statement_as {A} (book : DB -> A -> Site -> Site) (f : nat -> DB -> result (DB * A)) : M A := fun w =>
  let n := w_step w in
  let s := d_others E n (w_site w) in
  let w := w <| w_step := S n |> in
  match d_reply E n, f n (s_db s) with
  | Refused, _ => (w <| w_site := s |>, inl (Plain "connection failed"))
  | _, Err m => (w <| w_site := s |>, inl (Plain m))
  | Answered, Ok (db, a) => (w <| w_site := book db a s |>, inr a)
  | Unheard, Ok (db, a) => (w <| w_site := book db a s |>, inl (Plain "connection failed"))
  end.
Definition statement {A} (f : nat -> DB -> result (DB * A)) : M A := statement_as (fun db _ s => plane_write db s) f.
Definition read {A} (f : nat -> DB -> result A) : M A := statement_as (fun _ _ s => s) (fun n d => let? a := f n d in Ok (d, a)).

Definition mark_statement (id : uuid) (f : nat -> DB -> DB * Z) : M Z :=
  statement_as (fun db rows s => if rows =? 1 then s <| s_db := db |> <| s_marks := (d_run E, id) :: s_marks s |>
                                 else plane_write db s) (fun n d => Ok (f n d)).
Definition reset_statement (id : uuid) (f : nat -> DB -> DB * Z) : M Z :=
  statement_as (fun db _ s => s <| s_db := db |> <| s_marks := drop_mark (d_run E, id) (s_marks s) |>) (fun n d => Ok (f n d)).

(** The local state, as it is now. *)
Definition look_execution : M (option activityPhaseExecution) := fun w =>
  let n := w_step w in let x := d_turn E n (w_execution w) in
  (w <| w_step := S n |> <| w_execution := x |>, inr x).
Definition set_execution (x : activityPhaseExecution) : M unit := fun w => (w <| w_execution := Some x |>, inr tt).
Definition hasHandle : M bool := fun w =>
  let n := w_step w in let r := d_registry E n (w_registry w) in
  (w <| w_step := S n |> <| w_registry := r |>, inr (match r with Some (Some _) => true | _ => false end)).
Definition expired : M bool := fun w => (w <| w_step := S (w_step w) |>, inr (d_expired E (w_step w))).
Definition load_receipt (key : confirmedThreadInputKey) : M (option confirmedThreadInputs) := fun w => (w, inr (w_confirmed w !! key)).
Definition delete_receipt (key : confirmedThreadInputKey) : M unit := fun w => (w <| w_confirmed := delete key (w_confirmed w) |>, inr tt).

(** The write, and its entries in the ledger. *)
Definition DeliverInput (entry : ThreadInboxEntry) (data : string) : M unit := fun w =>
  let n := w_step w in
  let s := d_others E n (w_site w) in
  let registry := d_registry E n (w_registry w) in
  let w := w <| w_step := S n |> <| w_site := s |> <| w_registry := registry |> in
  match registry with
  | Some (Some h) =>
      let '(err, written) := WriteInput h n data in
      let w := w <| w_written := (w_written w ++ [(entry, is_null err)])%list |> in
      (if written then w <| w_site := s <| s_sent := e_id entry :: s_sent s |>
                                        <| s_marks := drop_mark (d_run E, e_id entry) (s_marks s) |> |> else w,
       match err with None => inr tt | Some msg => inl (Plain msg) end)
  | _ => (w, inl (Plain ErrThreadHandleUnavailable))
  end.

(** *** Acknowledgment *)

Definition commitThreadInboxWatermark (runtime : ThreadRuntime) (threadID : uuid) (sequence : Z) (confirmed : list Z) : M unit :=
  ok ← statement (fun n => CommitInboxDeliveryWithLease (d_now E n) (d_clock E n) (tr_org_id runtime) (tr_id runtime)
         (tr_lease_token runtime) threadID (tr_owner_node_id runtime) sequence sequence confirmed);
  if ok : bool then mret tt else fail ErrThreadRuntimeLeaseLost.

(** The mutex of the execution is held from the look to the end. *)
Definition acknowledgeAndResume (x : activityPhaseExecution) (sequenceEnd : Z) (confirmed : list Z) : M unit :=
  match x_runtimeID x, x_leaseToken x with
  | Some runtimeID, Some leaseToken =>
      match x_deliveryClosed x, x_phase x with
      | false, Some phase =>
          r ← attempt (statement (fun n => AcknowledgeInboxBatchAndStartPhase (d_now E n) (d_clock E n) (d_uuid E n) (d_uuid E (S n))
                (x_orgID x) (x_sessionID x) (x_threadID x) runtimeID leaseToken (Some (ph_id phase)) (x_turnNumber x)
                sequenceEnd confirmed (d_wall E n)));
          match r with
          | inl e => if is_error e ErrInboxBatchNoPhaseTransition then fail errActivityPhaseDeliveryClosed else throw e
          | inr (next, _, _) => set_execution (x <| x_phase := Some next |> <| x_deliveryClosed := false |>)
          end
      | _, _ => fail errActivityPhaseDeliveryClosed
      end
  | _, _ => mret tt
  end.

(** acknowledgeConfirmedThreadInboxInputs on a set that lies on one side of
    the old cursor. *)
Definition acknowledge_side (runtime : ThreadRuntime) (threadID : uuid) (sequences : list Z) : M unit :=
  match last sequences with
  | None => fail "index out of range [-1]"
  | Some end_ =>
      x ← look_execution;
      match x with
      | Some x =>
          if o_activityPhases o then
            r ← attempt (acknowledgeAndResume x end_ sequences);
            match r with
            | inr _ => mret tt
            | inl e => if is_error e errActivityPhaseDeliveryClosed
                       then commitThreadInboxWatermark runtime threadID end_ sequences else throw e
            end
          else commitThreadInboxWatermark runtime threadID end_ sequences
      | None => commitThreadInboxWatermark runtime threadID end_ sequences
      end
  end.

Definition acknowledgeConfirmedThreadInboxInputs (runtime : ThreadRuntime) (threadID : uuid) (sequences : list Z) : M unit :=
  let split := cut (tr_last_acked_sequence runtime) sequences in
  if (0 <? split)%nat && (split <? length sequences)%nat then
    _ ← acknowledge_side runtime threadID (take split sequences);
    acknowledge_side runtime threadID (drop split sequences)
  else acknowledge_side runtime threadID sequences.

Definition rememberConfirmedThreadInput (runtime : ThreadRuntime) (threadID : uuid) (sequence : Z) : M unit := fun w =>
  let key := confirmedThreadInputKeyFor runtime threadID in
  let receipt := match w_confirmed w !! key with
                 | None => Some (MkConfirmed [sequence] (tr_last_acked_sequence runtime))
                 | Some r => if existsb (Z.eqb sequence) (rc_sequences r) then None
                             else Some (MkConfirmed (order_by Z.leb (sequence :: rc_sequences r)) (rc_ackedBeforeDelivery r))
                 end in
  (match receipt with None => w | Some r => w <| w_confirmed := <[key := r]> (w_confirmed w) |> end, inr tt).

Definition flushConfirmedThreadInput (runtime : ThreadRuntime) (threadID : uuid) (closing : bool) : M unit :=
  let key := confirmedThreadInputKeyFor runtime threadID in
  receipt ← load_receipt key;
  match receipt with
  | None => mret tt
  | Some receipt =>
      let sequences := rc_sequences receipt in
      match last sequences with
      | None => fail "index out of range [-1]"
      | Some sequence =>
          let acknowledge :=
            if closing then commitThreadInboxWatermark runtime threadID sequence sequences
            else acknowledgeConfirmedThreadInboxInputs
                   (runtime <| tr_last_acked_sequence := rc_ackedBeforeDelivery receipt |>) threadID sequences in
          r ← attempt acknowledge;
          match r with
          | inr _ => delete_receipt key
          | inl e =>
              over ← expired;
              if over : bool then throw e
              else
                r ← attempt acknowledge;
                match r with inr _ => delete_receipt key | inl e => throw e end
          end
      end
  end.

(** *** Delivery *)

Definition advance_to (runtime : ThreadRuntime) (sequence : Z) : ThreadRuntime :=
  runtime <| tr_last_delivered_sequence := Z.max (tr_last_delivered_sequence runtime) sequence |>
          <| tr_last_acked_sequence := Z.max (tr_last_acked_sequence runtime) sequence |>.

(** What was written since the last flush, up to [deliveredEnd], 0 for
    nothing. *)
Definition flushDelivered (runtime : ThreadRuntime) (threadID : uuid) (deliveredEnd : Z) : M ThreadRuntime :=
  if deliveredEnd =? 0 then mret runtime
  else
    _ ← flushConfirmedThreadInput runtime threadID false;
    mret (advance_to runtime deliveredEnd).

Definition advanceDeadLetter (runtime : ThreadRuntime) (threadID : uuid) (sequenceNo : Z) : M ThreadRuntime :=
  if negb (sequenceNo =? tr_last_acked_sequence runtime + 1) then fail "dead-letter sequence is discontinuous"
  else
    _ ← commitThreadInboxWatermark runtime threadID sequenceNo [];
    mret (runtime <| tr_last_delivered_sequence := Z.max (tr_last_delivered_sequence runtime) sequenceNo |>
                  <| tr_last_acked_sequence := sequenceNo |>).

(** An entry that cannot be encoded ends here, after what was written before
    it is acknowledged. *)
Definition dead_letter (orgID threadID : uuid) (runtime : ThreadRuntime) (deliveredEnd : Z) (entry : ThreadInboxEntry) (reason : string)
    : M ThreadRuntime :=
  runtime ← flushDelivered runtime threadID deliveredEnd;
  _ ← statement (fun n => MarkDeadLetter (d_now E n) orgID threadID (e_id entry) reason);
  advanceDeadLetter runtime threadID (e_sequence_no entry).

Definition definite_refusal (e : DeliveryError) : bool := is_error e ErrThreadHandleUnavailable || is_error e ErrInputNotOpen.

Fixpoint deliver_entries (orgID threadID : uuid) (runtime : ThreadRuntime) (deliveredEnd : Z) (entries : list ThreadInboxEntry) : M unit :=
  match entries with
  | [] => _ ← flushDelivered runtime threadID deliveredEnd; mret tt
  | entry :: entries =>
      match threadRuntimeInputFormatter o (tr_agent_type runtime) entry with
      | Err reason =>
          runtime ← dead_letter orgID threadID runtime deliveredEnd entry reason;
          deliver_entries orgID threadID runtime 0 entries
      | Ok input =>
          attempted ← mark_statement (e_id entry) (fun n => MarkDeliveredForEntry (d_now E n) (d_clock E n) orgID threadID
            (tr_id runtime) (tr_lease_token runtime) (tr_owner_node_id runtime) (e_id entry) (e_sequence_no entry));
          if negb (attempted =? 1) then fail ErrThreadRuntimeLeaseLost
          else
            r ← attempt (DeliverInput entry input);
            match r with
            | inl e =>
                if definite_refusal e then
                  rows ← reset_statement (e_id entry) (fun n => ResetUnsentDelivery (d_now E n) (d_clock E n) orgID threadID
                    (tr_id runtime) (tr_lease_token runtime) (e_id entry));
                  if negb (rows =? 1) then fail ErrThreadRuntimeLeaseLost
                  else _ ← flushDelivered runtime threadID deliveredEnd; mret tt
                else _ ← flushDelivered runtime threadID deliveredEnd; throw e
            | inr _ =>
                _ ← rememberConfirmedThreadInput runtime threadID (e_sequence_no entry);
                deliver_entries orgID threadID runtime (e_sequence_no entry) entries
            end
      end
  end.

(** The active runtime, when it is this node's to feed. *)
Definition active_runtime (orgID sessionID threadID : uuid) : M (option ThreadRuntime) :=
  r ← attempt (read (fun n d => GetActiveByThread (d_now E n) d orgID threadID));
  match r with
  | inl e => if is_error e no_active_runtime then mret None else throw e
  | inr runtime =>
      if tr_session_id runtime <>? sessionID then fail "active thread runtime session mismatch"
      else if (tr_owner_node_id runtime <>? "") && (o_nodeID o <>? "") && (tr_owner_node_id runtime <>? o_nodeID o)
      then throw (ThreadRuntimeOwnedElsewhereError (tr_id runtime) threadID (tr_owner_node_id runtime))
      else mret (Some runtime)
  end.

(** The dead letters at the head of the inbox that an earlier process did not
    get past. *)
Definition recover_watermark (orgID threadID : uuid) (runtime : ThreadRuntime) : M ThreadRuntime :=
  terminal ← read (fun _ d => Ok (LastAcknowledgedSequence d orgID threadID));
  if tr_last_acked_sequence runtime <? terminal then
    _ ← commitThreadInboxWatermark runtime threadID terminal [];
    mret (runtime <| tr_last_delivered_sequence := Z.max (tr_last_delivered_sequence runtime) terminal |>
                  <| tr_last_acked_sequence := terminal |>)
  else mret runtime.

(** Receipts an earlier run could not acknowledge. *)
Definition retry_receipt (threadID : uuid) (runtime : ThreadRuntime) : M ThreadRuntime :=
  receipt ← load_receipt (confirmedThreadInputKeyFor runtime threadID);
  match receipt with
  | None => mret runtime
  | Some receipt =>
      _ ← flushConfirmedThreadInput runtime threadID false;
      match last (rc_sequences receipt) with
      | None => fail "index out of range [-1]"
      | Some sequence => mret (advance_to runtime sequence)
      end
  end.

Definition DeliverThreadInbox (orgID sessionID threadID : uuid) : M unit :=
  first ← active_runtime orgID sessionID threadID;
  match first with
  | None => mret tt
  | Some _ =>
      second ← active_runtime orgID sessionID threadID;
      match second with
      | None => mret tt
      | Some runtime =>
          runtime ← recover_watermark orgID threadID runtime;
          runtime ← retry_receipt threadID runtime;
          attached ← hasHandle;
          if negb attached || (tr_status runtime <>? ThreadRuntimeStatusLive) then mret tt
          else
            entries ← statement (fun n d => Ok (ClaimDeliverableAfter (d_now E n) (d_clock E n) orgID threadID (tr_id runtime)
              (tr_lease_token runtime) (tr_owner_node_id runtime) (tr_last_delivered_sequence runtime)
              threadInboxDeliveryBatchSize (d_locked E n) d));
            deliver_entries orgID threadID runtime 0 entries
      end
  end.

(** *** The runtime of a turn *)

Record threadRuntimeControl := MkControl {
  c_runtime : ThreadRuntime;
  c_leaseDuration : duration;
  c_seedMessageIDs : list Z
}.

Definition draw_uuid : M uuid := fun w => (w <| w_step := S (w_step w) |>, inr (d_uuid E (w_step w))).

(** The terminal mark and the release of the holder are tried whatever happened
    before. *)
Definition Close (c : threadRuntimeControl) (status : ThreadRuntimeStatus) (stopReason lastError : string) : M unit :=
  let runtime := c_runtime c in
  _ ← attempt (flushConfirmedThreadInput runtime (tr_thread_id runtime) true);
  marked ← attempt (statement (fun n => ThreadRuntimeStore.MarkTerminalWithLease (d_now E n) (tr_org_id runtime) (tr_id runtime)
    (tr_lease_token runtime) status stopReason lastError));
  _ ← match marked with
      | inr _ => delete_receipt (confirmedThreadInputKeyFor runtime (tr_thread_id runtime))
      | inl _ => mret tt
      end;
  _ ← attempt (statement (fun n => HolderStore.ReleaseWithLease (d_now E n) (tr_org_id runtime) (tr_session_id runtime)
    SessionSandboxHolderKindThreadRuntime (tr_id runtime) (tr_lease_token runtime)));
  mret tt.

Definition startThreadRuntimeControl (session : Session) (threadID : uuid) (sandboxID : string)
    (seedMessageIDs : list Z) : M (option threadRuntimeControl) :=
  if threadID ==? uuid_Nil then mret None
  else
    leaseToken ← draw_uuid;
    sequence ← read (fun _ d => Ok (LastAcknowledgedSequence d (s_org_id session) threadID));
    created ← attempt (statement (fun n => ThreadRuntimeStore.CreateStarting (d_insert_first E n) (d_now E n) (d_uuid E n) (s_org_id session)
      (MkCreateThreadRuntimeParams (s_id session) threadID (s_id session) sandboxID "" (s_agent_type session) (default "" (s_model_override session)) (o_nodeID o) leaseToken
         sequence sequence (s_workspace_generation session) (s_workspace_generation session) threadRuntimeLeaseDuration)));
    match created with
    | inl e => if is_error e ErrActiveThreadRuntimeExists then fail ErrThreadRuntimeAlreadyActive else throw e
    | inr runtime =>
        let c := MkControl runtime threadRuntimeLeaseDuration seedMessageIDs in
        holder ← attempt (statement (fun n => CreateActive (d_now E n) (d_uuid E n) (s_org_id session)
          (MkCreateSessionSandboxHolderParams (s_id session) sandboxID SessionSandboxHolderKindThreadRuntime (tr_id runtime) (o_nodeID o)
             (tr_lease_token runtime) threadRuntimeLeaseDuration)));
        match holder with
        | inl e => _ ← Close c ThreadRuntimeStatusFailed "holder_create_failed" (error_text e); throw e
        | inr _ =>
            if (length seedMessageIDs =? 0)%nat then mret (Some c)
            else
              claimed ← attempt (statement (fun n d => Ok (MarkDeliveringForMessages (d_now E n) (d_clock E n) (s_org_id session) threadID
                (tr_id runtime) (tr_lease_token runtime) (o_nodeID o) seedMessageIDs d)));
              match claimed with
              | inl e => _ ← Close c ThreadRuntimeStatusFailed "seed_inbox_delivering_failed" (error_text e); throw e
              | inr _ => mret (Some c)
              end
        end
    end.

(** Admission of the seeds of a turn that has no activity phase. *)
Definition admitSeedWithoutPhase (c : threadRuntimeControl) : M threadRuntimeControl :=
  let runtime := c_runtime c in
  if (length (c_seedMessageIDs c) =? 0)%nat then mret c
  else
    count ← statement (fun n d => Ok (MarkAckedForSeedMessages (d_now E n) (d_clock E n) (tr_org_id runtime) (tr_thread_id runtime)
      (tr_id runtime) (tr_lease_token runtime) (c_seedMessageIDs c) d));
    if negb (count =? Z.of_nat (length (remove_dups (c_seedMessageIDs c)))) then fail ErrInboxBatchConflict
    else mret (MkControl runtime (c_leaseDuration c) []).

(** AttachHandle and DetachHandle: only a registered thread has a handle. *)
Definition set_handle (h : option handle) : M unit := fun w =>
  let n := w_step w in
  let r := d_registry E n (w_registry w) in
  (w <| w_step := S n |> <| w_registry := match r with Some _ => Some h | None => None end |>, inr tt).

Definition Attach (c : threadRuntimeControl) (h : handle) : M unit :=
  let runtime := c_runtime c in
  _ ← set_handle (Some h);
  if (tr_id runtime ==? uuid_Nil) || (tr_lease_token runtime ==? uuid_Nil) then mret tt
  else
    live ← attempt (statement (fun n => MarkLiveWithLease (d_now E n) (tr_org_id runtime) (tr_id runtime) (tr_lease_token runtime)
      (handle_ID h) (c_leaseDuration c)));
    match live with
    | inl _ | inr false => set_handle None
    | inr true =>
        if (length (c_seedMessageIDs c) =? 0)%nat then mret tt
        else
          acked ← attempt (statement (fun n d => Ok (MarkAckedForSeedMessages (d_now E n) (d_clock E n) (tr_org_id runtime)
            (tr_thread_id runtime) (tr_id runtime) (tr_lease_token runtime) (c_seedMessageIDs c) d)));
          match acked with inl _ => set_handle None | inr _ => mret tt end
    end.
Definition Detach : M unit := set_handle None.

(** heartbeatFailureStartedAt is the zero time while the heartbeats succeed. *)
Definition recordHeartbeatError (leaseDuration : duration) (failureStartedAt now : time) : bool * time :=
  let since := if IsZero failureStartedAt then now else failureStartedAt in
  ((leaseDuration <=? 0) || (Sub now since <? leaseDuration), since).

(** Whether the turn goes on, and since when heartbeats fail. *)
Definition heartbeatOnce (c : threadRuntimeControl) (failureStartedAt : time) : M (bool * time) :=
  let runtime := c_runtime c in
  let failed : M (bool * time) := fun w =>
    (w <| w_step := S (w_step w) |>, inr (recordHeartbeatError (c_leaseDuration c) failureStartedAt (d_wall E (w_step w)))) in
  r ← attempt (statement (fun n d => Ok (ThreadRuntimeStore.HeartbeatWithLease (d_now E n) (tr_org_id runtime) (tr_id runtime)
    (tr_lease_token runtime) (c_leaseDuration c) d)));
  match r with
  | inl _ => failed
  | inr false => mret (false, failureStartedAt)
  | inr true =>
      r ← attempt (statement (fun n => HolderStore.HeartbeatWithLease (d_now E n) (tr_org_id runtime) (tr_session_id runtime)
        SessionSandboxHolderKindThreadRuntime (tr_id runtime) (tr_lease_token runtime) (c_leaseDuration c)));
      match r with
      | inl _ => failed
      | inr false => mret (false, failureStartedAt)
      | inr true => mret (true, zero_time)
      end
  end.

(** The nudge that keeps a session running while other threads of it run. *)
Definition keepSessionRunningIfSiblingRuntimesActive (orgID sessionID : uuid) : M unit :=
  active ← attempt (read (fun n d => Ok (CountActiveThreadRuntimesBySession (d_now E n) orgID sessionID d)));
  match active with
  | inl _ => mret tt
  | inr active =>
      if active =? 0 then mret tt
      else _ ← attempt (statement (fun n => MarkRunningWithSandboxState (d_now E n) orgID sessionID "running")); mret tt
  end.

(** *** The phase of a turn *)

Definition newActivityPhaseExecution (orgID sessionID threadID : uuid) (turnNumber : Z) (runtimeID leaseToken : option uuid)
    (trigger : ActivityPhaseTrigger) : M (option activityPhaseExecution) :=
  if negb (o_activityPhases o) || (threadID ==? uuid_Nil) then mret None
  else
    phase ← statement (fun n => StartPhase (d_now E n) (d_clock E n) (d_uuid E n) orgID sessionID threadID turnNumber runtimeID leaseToken
      trigger (d_wall E n));
    mret (Some (MkExecution orgID sessionID threadID turnNumber runtimeID leaseToken (Some phase) false)).

(** The entries that StartSeedPhase backfills are named from one identifier. *)
Definition newSeedActivityPhaseExecution (orgID sessionID threadID : uuid) (turnNumber : Z) (runtimeID leaseToken : uuid)
    (messageIDs : list Z) : M activityPhaseExecution :=
  '(phase, _) ← statement (fun n => StartSeedPhase (d_now E n) (d_clock E n) (fun i => d_uuid E (n + i)) (d_uuid E n) (d_uuid E n)
    orgID sessionID threadID turnNumber runtimeID leaseToken messageIDs (d_wall E n));
  mret (MkExecution orgID sessionID threadID turnNumber (Some runtimeID) (Some leaseToken) (Some phase) false).

Definition complete (status : ActivityPhaseStatus) (reason : ActivityPhaseBoundaryReason) : M unit :=
  x ← look_execution;
  match x with
  | Some x =>
      match x_phase x with
      | None => mret tt
      | Some phase =>
          _ ← statement (fun n => CompletePhaseWithTransition (d_now E n) (x_orgID x) (ph_id phase) status reason (d_wall E n));
          set_execution (x <| x_phase := None |> <| x_deliveryClosed := true |>)
      end
  | None => mret tt
  end.

(** A message or a human input request that ends the phase; what it stores is
    an argument. *)
Definition persistAndComplete (persist : DB -> result DB) (reason : ActivityPhaseBoundaryReason) : M unit :=
  x ← look_execution;
  match x with
  | Some x =>
      match x_phase x with
      | None => mret tt
      | Some phase =>
          _ ← statement (fun n => persistBoundaryAndComplete (d_now E n) (x_orgID x) (ph_id phase) reason (d_wall E n) persist);
          set_execution (x <| x_phase := None |> <| x_deliveryClosed := true |>)
      end
  | None => mret tt
  end.

(** The end of a turn: [alone] writes the session, [both] the session and the
    end of the phase in one transaction. *)
Definition persist_turn {A B} (alone : activityPhaseExecution -> nat -> DB -> result (DB * A))
    (both : activityPhaseExecution -> uuid -> nat -> DB -> result (DB * B))
    (phaseStatus : ActivityPhaseStatus) (reason : ActivityPhaseBoundaryReason) : M unit :=
  x ← look_execution;
  match x with
  | None => fail "activity phase execution is nil"
  | Some x =>
      match x_phase x with
      | None => _ ← statement (alone x); mret tt
      | Some phase =>
          if negb (o_activityPhases o) then _ ← statement (alone x); mret tt
          else
            _ ← (if o_atomicSessions o then _ ← statement (both x (ph_id phase)); mret tt
                 else _ ← statement (alone x);
                      _ ← statement (fun n => CompletePhaseWithTransition (d_now E n) (x_orgID x) (ph_id phase) phaseStatus reason (d_wall E n));
                      mret tt);
            set_execution (x <| x_phase := None |> <| x_deliveryClosed := true |>)
      end
  end.
Definition persistSessionResultAndComplete (status : SessionStatus) (summary : option string) (phaseStatus : ActivityPhaseStatus)
    (reason : ActivityPhaseBoundaryReason) : M unit :=
  persist_turn (fun x n => updateResultRow (d_now E n) (x_orgID x) (x_sessionID x) status summary)
    (fun x phase n => UpdateResultAndCompleteActivityPhase (d_now E n) (x_orgID x) (x_sessionID x) phase status summary phaseStatus reason (d_wall E n))
    phaseStatus reason.
Definition persistSessionStatusAndComplete (status : SessionStatus) (phaseStatus : ActivityPhaseStatus)
    (reason : ActivityPhaseBoundaryReason) : M unit :=
  persist_turn (fun x n => UpdateStatus (d_now E n) (x_orgID x) (x_sessionID x) status)
    (fun x phase n => UpdateStatusAndCompleteActivityPhase (d_now E n) (x_orgID x) (x_sessionID x) phase status phaseStatus reason (d_wall E n))
    phaseStatus reason.
Definition persistTurnCompleteAndComplete (turn : Z) (summary : option string) (agentSessionID snapshotKey : string)
    (phaseStatus : ActivityPhaseStatus) (reason : ActivityPhaseBoundaryReason) : M unit :=
  persist_turn (fun x n d => Ok (updateTurnCompleteRow (d_now E n) (x_orgID x) (x_sessionID x) turn summary agentSessionID snapshotKey d))
    (fun x phase n => UpdateTurnCompleteAndCompleteActivityPhase (d_now E n) (x_orgID x) (x_sessionID x) phase turn summary agentSessionID
       snapshotKey phaseStatus reason (d_wall E n)) phaseStatus reason.

(** *** Reconciliation *)

(** The number of phases that were interrupted, and whether one failed. *)
Fixpoint reconcilePhases (leaseExpiredBefore : time) (phases : list SessionActivityPhase) : M (nat * bool) :=
  match phases with
  | [] => mret (0%nat, false)
  | phase :: phases =>
      r ← attempt (statement (fun n => ReconcileStrandedPhase (d_now E n) (ph_org_id phase) (ph_id phase) leaseExpiredBefore (d_wall E n)));
      '(reconciled, failed) ← reconcilePhases leaseExpiredBefore phases;
      mret (match r with
            | inl _ => (reconciled, true)
            | inr b => ((if b : bool then S reconciled else reconciled), failed)
            end)
  end.

Definition ReconcileAllStrandedPhases (leaseExpiredBefore : time) (n : Z) : M (nat * bool) :=
  phases ← read (fun _ d => ListStrandedRunningAcrossOrgs leaseExpiredBefore n d);
  reconcilePhases leaseExpiredBefore phases.
Definition ReconcileStrandedPhases (orgID : uuid) (leaseExpiredBefore : time) (n : Z) : M (nat * bool) :=
  phases ← read (fun _ d => ListStrandedRunning orgID leaseExpiredBefore n d);
  reconcilePhases leaseExpiredBefore phases.
Definition ReconcileAbandonedInboxBatches (leaseExpiredBefore : time) (n : Z) : M nat :=
  batches ← statement (fun k => ReconcileAbandonedInboxBatchesAcrossOrgs (d_now E k) leaseExpiredBefore (d_wall E k) n (d_locked E k));
  mret (length batches).

End Programs.
