(* ===== verification/DeliveryRun.v ===== *)
(** * Runs of live delivery

    Every program of [Delivery] is a sequence of moves of the protocol,
    whatever the other processes do and whatever fails. *)

From S2P Require Import Prelude GoRuntime Sql Tables Continuation JobStore ExecutorStore ThreadRuntimeStore ThreadInboxStore HolderStore ActivityPhaseStore SessionStore.
From S2P Require Import JobLifecycle JobSteps ExecutorSteps RuntimeSteps InboxSteps PhaseSteps Plane InboxProperties DeliveryProtocol Delivery.
From stdpp Require Import base option list strings gmap relations.

Open Scope string_scope.
Open Scope Z_scope.

Section Runs.
Context {H : Handle} {L : HandleLaws H} (E : DeliveryEnv) (o : Orchestrator).

(** The other processes act by moves of their own. *)
Definition orderly : Prop := forall n s, others_moves (d_run E) s (d_others E n s).
Context (HE : orderly).

(** ** Programs that move the site *)

Definition steady {A} (m : M A) : Prop := forall w, moves (w_site w) (w_site (m w).1).

Lemma moves_one run s s' : move run s s' -> moves s s'.
Proof. intros Hm. apply rtc_once. by exists run. Qed.
Lemma moves_others n s : moves s (d_others E n s).
Proof. eapply others_are_moves, HE. Qed.

Lemma steady_ret {A} (a : A) : steady (mret a).
Proof. intros w. apply rtc_refl. Qed.
Lemma steady_throw {A} e : steady (throw (A:=A) e).
Proof. intros w. apply rtc_refl. Qed.
Lemma steady_fail {A} msg : steady (fail (A:=A) msg).
Proof. apply steady_throw. Qed.
Lemma moves_bind {A B} (m : M A) (k : A -> M B) w : moves (w_site w) (w_site (m w).1) ->
  (forall w1 a, m w = (w1, inr a) -> moves (w_site w1) (w_site (k a w1).1)) -> moves (w_site w) (w_site ((m ≫= k) w).1).
Proof.
  intros Hm Hk. unfold mbind, M_bind. destruct (m w) as [w1 [e|a]]; [done|]. etrans; [exact Hm|by apply Hk].
Qed.
Lemma steady_bind {A B} (m : M A) (k : A -> M B) : steady m -> (forall a, steady (k a)) -> steady (m ≫= k).
Proof.
  intros Hm Hk w. apply moves_bind; [apply Hm|intros; apply Hk].
Qed.
Lemma steady_attempt {A} (m : M A) : steady m -> steady (attempt m).
Proof. intros Hm w. unfold attempt. specialize (Hm w). by destruct (m w). Qed.

(** A program that leaves the site alone. *)
Lemma steady_local {A} (m : M A) : (forall w, w_site (m w).1 = w_site w) -> steady m.
Proof. intros Hm w. rewrite Hm. apply rtc_refl. Qed.

Lemma steady_statement_as {A} book (f : nat -> DB -> result (DB * A)) :
  (forall n s db a, f n (s_db s) = Ok (db, a) -> moves s (book db a s)) -> steady (statement_as E book f).
Proof.
  intros Hb w. unfold statement_as. set (s := d_others E (w_step w) (w_site w)).
  assert (moves (w_site w) s) as Hs by apply moves_others.
  destruct (d_reply E (w_step w)), (f (w_step w) (s_db s)) as [[db a]|] eqn:Ef; simpl; try done;
    (etrans; [exact Hs|by eapply Hb]).
Qed.
Lemma steady_statement {A} (f : nat -> DB -> result (DB * A)) :
  (forall n db db' a, f n db = Ok (db', a) -> automatic_step db db') -> steady (statement E f).
Proof. intros Hf. apply steady_statement_as. intros n s db a Ho. apply (moves_one 0), mv_plane. by eapply Hf. Qed.
Lemma steady_total {A} (f : nat -> DB -> DB * A) : (forall n db, automatic_step db (f n db).1) -> steady (statement E (fun n d => Ok (f n d))).
Proof. intros Hf. apply steady_statement. intros n db db' a Hc. replace db' with (f n db).1; [apply Hf|]. by injection Hc as ->. Qed.
Lemma steady_read {A} (f : nat -> DB -> result A) : steady (read E f).
Proof. apply steady_statement_as. intros. apply rtc_refl. Qed.

Lemma steady_mark id f : (forall n db, exists now clock org th rt tok node seq,
  f n db = MarkDeliveredForEntry now clock org th rt tok node id seq db) -> steady (mark_statement E id f).
Proof.
  intros Hf. apply steady_statement_as. intros n s db rows [= Ho].
  destruct (Hf n (s_db s)) as (now & clock & org & th & rt & tok & node & seq & Ef). rewrite Ef in Ho.
  destruct (rows =? 1) eqn:Er.
  - apply Z.eqb_eq in Er. subst rows. eapply (moves_one (d_run E)), mv_mark, Ho.
  - apply (moves_one 0), mv_plane. replace db with (MarkDeliveredForEntry now clock org th rt tok node id seq (s_db s)).1 by (by rewrite Ho).
    apply auto_inbox, op_delivered.
Qed.

(** An answered mark of one row leaves the run's mark. *)
Lemma mark_remembered id f w w' : mark_statement E id f w = (w', inr 1) -> In (d_run E, id) (s_marks (w_site w')).
Proof.
  unfold mark_statement, statement_as. destruct (f _ _) as [db rows]. destruct (d_reply E _); intros Hw; simplify_eq/=. by left.
Qed.

Lemma reset_moves id f w : (forall n db, exists now clock org th rt tok, f n db = ResetUnsentDelivery now clock org th rt tok id db) ->
  In (d_run E, id) (s_marks (w_site w)) -> moves (w_site w) (w_site (reset_statement E id f w).1).
Proof.
  intros Hf Hin. unfold reset_statement, statement_as. set (s := d_others E (w_step w) (w_site w)).
  assert (moves (w_site w) s) as Hs by apply moves_others.
  assert (In (d_run E, id) (s_marks s)) as Hm by (by eapply others_keep_marks; [apply HE|]).
  destruct (Hf (w_step w) (s_db s)) as (now & clock & org & th & rt & tok & Ef). rewrite Ef.
  destruct (d_reply E (w_step w)); simpl; [|done|]; (etrans; [exact Hs|]; by eapply (moves_one (d_run E)), mv_unsent).
Qed.

(** After a definite refusal the mark is still there. *)
Lemma deliver_input_spec entry data w w' r : In (d_run E, e_id entry) (s_marks (w_site w)) -> DeliverInput E entry data w = (w', r) ->
  moves (w_site w) (w_site w')
  /\ (forall e, r = inl e -> definite_refusal e = true -> In (d_run E, e_id entry) (s_marks (w_site w'))).
Proof.
  intros Hin. unfold DeliverInput. set (s := d_others E (w_step w) (w_site w)).
  assert (moves (w_site w) s) as Hs by apply moves_others.
  assert (In (d_run E, e_id entry) (s_marks s)) as Hm by (by eapply others_keep_marks; [apply HE|]).
  destruct (d_registry E _ _) as [[h|]|]; [|by intros [= <- <-]..].
  destruct (WriteInput h (w_step w) data) as [err written] eqn:Ew. intros [= <- <-]. split.
  - destruct written; simpl; [|done]. etrans; [exact Hs|]. by apply (moves_one (d_run E)), mv_sent.
  - intros e Ee Hd. destruct err as [msg|]; [|done]. injection Ee as <-.
    assert (written = false) as ->; [|done].
    pose proof (refusal_writes_nothing h (w_step w) data msg) as Hl. rewrite Ew in Hl. apply Hl; [done|].
    unfold definite_refusal, is_error in Hd. apply orb_true_iff in Hd as [Hd|Hd]; apply bool_decide_eq_true in Hd; auto.
Qed.

(** ** Programs that keep the receipts *)

(** What is true of the phase of the turn, whatever the turn does to it. *)
Definition stable (P : option activityPhaseExecution -> Prop) : Prop :=
  (forall n x, P x -> P (d_turn E n x))
  /\ forall x phase closed, P (Some x) -> P (Some (x <| x_phase := phase |> <| x_deliveryClosed := closed |>)).

(** Acknowledging moves the site and the phase; receipts and writes stay. *)
Record calm (w w' : World) : Prop := {
  cm_moves : moves (w_site w) (w_site w');
  cm_execution : forall P, stable P -> P (w_execution w) -> P (w_execution w');
  cm_confirmed : w_confirmed w' = w_confirmed w;
  cm_written : w_written w' = w_written w
}.
#[export] Instance calm_preorder : PreOrder calm.
Proof.
  split; [intros w; by split; [apply rtc_refl|..]|]. intros x y z [Hm Hex Hc Hw] [Hm' Hex' Hc' Hw'].
  split; [by etrans| |congruence..]. intros P HP Hx. by apply (Hex' P HP), (Hex P HP).
Qed.
Definition gentle {A} (m : M A) : Prop := forall w, calm w (m w).1.

Lemma gentle_steady {A} (m : M A) : gentle m -> steady m.
Proof. intros Hm w. apply Hm. Qed.
Lemma gentle_throw {A} e : gentle (throw (A:=A) e).
Proof. intros w. simpl. reflexivity. Qed.
Lemma gentle_ret {A} (a : A) : gentle (mret a).
Proof. intros w. simpl. reflexivity. Qed.
Lemma gentle_bind {A B} (m : M A) (k : A -> M B) : gentle m -> (forall a, gentle (k a)) -> gentle (m ≫= k).
Proof.
  intros Hm Hk w. specialize (Hm w). unfold mbind, M_bind. destruct (m w) as [w1 [e|a]]; [done|]. etrans; [exact Hm|apply Hk].
Qed.
Lemma gentle_attempt {A} (m : M A) : gentle m -> gentle (attempt m).
Proof. intros Hm w. unfold attempt. specialize (Hm w). by destruct (m w). Qed.
Lemma gentle_statement_as {A} book (f : nat -> DB -> result (DB * A)) : steady (statement_as E book f) -> gentle (statement_as E book f).
Proof. intros Hs w. split; [apply Hs|..]; unfold statement_as; by repeat case_match. Qed.
Lemma gentle_statement {A} (f : nat -> DB -> result (DB * A)) :
  (forall n db db' a, f n db = Ok (db', a) -> automatic_step db db') -> gentle (statement E f).
Proof. intros Hf. by apply gentle_statement_as, steady_statement. Qed.
Lemma gentle_read {A} (f : nat -> DB -> result A) : gentle (read E f).
Proof. apply gentle_statement_as, steady_read. Qed.
Lemma gentle_look : gentle (look_execution E).
Proof. intros w. split; [apply rtc_refl|intros P [HP _]; apply HP|done..]. Qed.

(** ** The programs *)

Lemma gentle_commit runtime th seq confirmed : gentle (commitThreadInboxWatermark E runtime th seq confirmed).
Proof.
  apply gentle_bind; [|intros []; [apply gentle_ret|apply gentle_throw]].
  apply gentle_statement. intros n db db' a Hc. by eapply auto_runtime, op_commit.
Qed.
Lemma steady_commit runtime th seq confirmed : steady (commitThreadInboxWatermark E runtime th seq confirmed).
Proof. apply gentle_steady, gentle_commit. Qed.

Lemma gentle_transition x runtimeID leaseToken phase end_ confirmed :
  gentle (statement E (fun n => AcknowledgeInboxBatchAndStartPhase (d_now E n) (d_clock E n) (d_uuid E n) (d_uuid E (S n))
    (x_orgID x) (x_sessionID x) (x_threadID x) runtimeID leaseToken phase (x_turnNumber x) end_ confirmed (d_wall E n))).
Proof. apply gentle_statement. intros n db db' a Hc. by eapply auto_phase, op_steer. Qed.

(** [x] is the phase the turn runs. *)
Lemma calm_resume x end_ confirmed w : w_execution w = Some x -> calm w (acknowledgeAndResume E x end_ confirmed w).1.
Proof.
  intros Hx. unfold acknowledgeAndResume. destruct (x_runtimeID x) as [rt|], (x_leaseToken x) as [tok|]; try reflexivity.
  destruct (x_deliveryClosed x), (x_phase x) as [phase|]; try reflexivity.
  pose proof (gentle_attempt _ (gentle_transition x rt tok (Some (ph_id phase)) end_ confirmed) w) as Ht.
  unfold mbind, M_bind. unfold attempt in *. destruct (statement E _ w) as [w1 [e|[[next ?] ?]]]; simpl in *.
  - by destruct (is_error _ _).
  - destruct Ht as [Hm Hex Hc Hw]. split; simpl; [done| |done|done]. intros P HP Hp. rewrite Hx in Hp.
    by apply HP.
Qed.

Lemma gentle_side runtime th seqs : gentle (acknowledge_side E o runtime th seqs).
Proof.
  intros w. unfold acknowledge_side. destruct (last seqs) as [end_|]; [|reflexivity].
  pose proof (gentle_look w) as Hl. unfold mbind, M_bind. destruct (look_execution E w) as [w1 r] eqn:El.
  assert (r = inr (w_execution w1)) as -> by (by injection El as <- <-). simpl in Hl. etrans; [exact Hl|].
  destruct (w_execution w1) as [x|] eqn:Ex; [|apply gentle_commit]. destruct (o_activityPhases o); [|apply gentle_commit].
  pose proof (calm_resume x end_ seqs w1 Ex) as Hr. unfold attempt.
  destruct (acknowledgeAndResume E x end_ seqs w1) as [w2 [e|[]]]; [|done]. simpl in Hr.
  destruct (is_error _ _); [|done]. etrans; [exact Hr|apply gentle_commit].
Qed.

Lemma gentle_acknowledge runtime th seqs : gentle (acknowledgeConfirmedThreadInboxInputs E o runtime th seqs).
Proof.
  unfold acknowledgeConfirmedThreadInboxInputs. cbv zeta. destruct (_ && _)%bool; [|apply gentle_side].
  apply gentle_bind; [apply gentle_side|intros; apply gentle_side].
Qed.
Lemma steady_acknowledge runtime th seqs : steady (acknowledgeConfirmedThreadInboxInputs E o runtime th seqs).
Proof. apply gentle_steady, gentle_acknowledge. Qed.

Lemma steady_flush runtime th closing : steady (flushConfirmedThreadInput E o runtime th closing).
Proof.
  unfold flushConfirmedThreadInput. apply steady_bind; [by apply steady_local|]. intros [receipt|]; [|apply steady_ret].
  destruct (last _) as [seq|]; [|apply steady_fail]. cbv zeta. set (ack := if closing then _ else _).
  assert (steady ack) as Ha by (unfold ack; destruct closing; [apply steady_commit|apply steady_acknowledge]).
  apply steady_bind; [by apply steady_attempt|]. intros [e|[]]; [|by apply steady_local].
  apply steady_bind; [by apply steady_local|]. intros []; [apply steady_throw|].
  apply steady_bind; [by apply steady_attempt|]. intros [e'|[]]; [apply steady_throw|by apply steady_local].
Qed.

Lemma steady_flush_delivered runtime th end_ : steady (flushDelivered E o runtime th end_).
Proof. unfold flushDelivered. destruct (_ =? _); [apply steady_ret|]. apply steady_bind; [apply steady_flush|intros; apply steady_ret]. Qed.

Lemma steady_dead_letter org th runtime end_ entry reason : steady (dead_letter E o org th runtime end_ entry reason).
Proof.
  apply steady_bind; [apply steady_flush_delivered|intros rt]. apply steady_bind.
  - apply steady_statement. intros n db db' a Hc. by eapply auto_inbox, op_mark_dead.
  - intros _. unfold advanceDeadLetter. destruct (negb _); [apply steady_fail|].
    apply steady_bind; [apply steady_commit|intros; apply steady_ret].
Qed.

(** A mark, then the write, and the mark is taken back only if nothing was
    written. *)
Lemma steady_entries org th entries : forall runtime end_, steady (deliver_entries E o org th runtime end_ entries).
Proof.
  induction entries as [|entry entries IH]; intros runtime end_; simpl.
  { apply steady_bind; [apply steady_flush_delivered|intros; apply steady_ret]. }
  destruct (threadRuntimeInputFormatter _ _ _) as [input|reason]; [|apply steady_bind; [apply steady_dead_letter|auto]].
  intros w. apply moves_bind; [apply steady_mark; intros; repeat eexists|]. intros w1 rows Em.
  destruct (rows =? 1) eqn:Er; [|apply rtc_refl]. apply Z.eqb_eq in Er. subst rows. apply mark_remembered in Em. simpl negb. cbv iota.
  destruct (DeliverInput E entry input w1) as [w2 r] eqn:Ed.
  destruct (deliver_input_spec entry input w1 w2 r Em Ed) as [Hd Hrefused].
  assert (attempt (DeliverInput E entry input) w1 = (w2, inr r)) as Ea by (unfold attempt; by rewrite Ed).
  apply moves_bind; [by rewrite Ea|]. rewrite Ea. intros ? ? [= <- <-]. destruct r as [e|[]].
  - destruct (definite_refusal e) eqn:Edef; [|apply steady_bind; [apply steady_flush_delivered|intros; apply steady_throw]].
    apply moves_bind; [apply reset_moves; [intros; repeat eexists|by apply (Hrefused e)]|]. intros w3 rows _.
    destruct (negb _); [apply rtc_refl|]. apply steady_bind; [apply steady_flush_delivered|intros; apply steady_ret].
  - apply steady_bind; [|intros; apply IH]. apply steady_local. intros w0. unfold rememberConfirmedThreadInput. cbv zeta.
    by destruct (match w_confirmed w0 !! _ with None => _ | Some _ => _ end).
Qed.

Lemma steady_active org s th : steady (active_runtime E o org s th).
Proof.
  unfold active_runtime. apply steady_bind; [apply steady_attempt, steady_read|]. intros [e|rt].
  - destruct (is_error _ _); [apply steady_ret|apply steady_throw].
  - destruct (negb _); [apply steady_fail|]. destruct (_ && _)%bool; [apply steady_throw|apply steady_ret].
Qed.

Lemma steady_deliver org s th : steady (DeliverThreadInbox E o org s th).
Proof.
  unfold DeliverThreadInbox. apply steady_bind; [apply steady_active|]. intros [_|]; [|apply steady_ret].
  apply steady_bind; [apply steady_active|]. intros [rt|]; [|apply steady_ret]. apply steady_bind.
  { unfold recover_watermark. apply steady_bind; [apply steady_read|]. intros z. destruct (_ <? _); [|apply steady_ret].
    apply steady_bind; [apply steady_commit|intros; apply steady_ret]. }
  intros rt1. apply steady_bind.
  { unfold retry_receipt. apply steady_bind; [by apply steady_local|]. intros [r|]; [|apply steady_ret].
    apply steady_bind; [apply steady_flush|]. intros _. destruct (last _); [apply steady_ret|apply steady_fail]. }
  intros rt2. apply steady_bind; [by apply steady_local|]. intros b. destruct (_ || _)%bool; [apply steady_ret|].
  apply steady_bind; [|intros; apply steady_entries].
  eapply (steady_total (fun n => ClaimDeliverableAfter _ _ _ _ _ _ _ _ _ _)). intros. apply auto_inbox, op_claim_entries.
Qed.

(** ** The runtime and the phase of a turn *)

(** A statement on holders or sessions is none of the plane's. *)
Lemma beside db db' : same_plane db db' -> automatic_step db db'.
Proof. apply auto_environment. Qed.

Lemma steady_close c status reason err : steady (Close E o c status reason err).
Proof.
  unfold Close. cbv zeta. apply steady_bind; [apply steady_attempt, steady_flush|intros _]. apply steady_bind.
  { apply steady_attempt, steady_statement. intros n db db' a Hc. by eapply auto_runtime, op_runtime_terminal. }
  intros r. apply steady_bind; [destruct r; [apply steady_ret|by apply steady_local]|intros _].
  apply steady_bind; [|intros; apply steady_ret]. apply steady_attempt, steady_statement. intros n db db' a Hc.
  apply beside. injection Hc as <- _. by repeat split.
Qed.

Lemma steady_start session th sandbox seeds : steady (startThreadRuntimeControl E o session th sandbox seeds).
Proof.
  unfold startThreadRuntimeControl. destruct (bool_decide _); [apply steady_ret|]. apply steady_bind; [by apply steady_local|intros tok].
  apply steady_bind; [apply steady_read|intros seq]. apply steady_bind.
  { apply steady_attempt, steady_statement. intros n db db' a Hc. by eapply auto_runtime, op_create_runtime. }
  intros [e|rt]; [destruct (is_error _ _); [apply steady_fail|apply steady_throw]|]. cbv zeta. apply steady_bind.
  { apply steady_attempt, steady_statement. intros n db db' a Hc. apply beside. unfold CreateActive in Hc.
    repeat (case_match; simplify_eq/=); by repeat split. }
  intros [e|h]; [apply steady_bind; [apply steady_close|intros; apply steady_throw]|].
  destruct (_ =? _)%nat; [apply steady_ret|]. apply steady_bind.
  { apply steady_attempt. eapply (steady_total (fun n => MarkDeliveringForMessages _ _ _ _ _ _ _ _)). intros. apply auto_inbox, op_delivering. }
  intros [e|z]; [apply steady_bind; [apply steady_close|intros; apply steady_throw]|apply steady_ret].
Qed.

Lemma steady_seed_ack org th rt tok ids :
  steady (statement E (fun n d => Ok (MarkAckedForSeedMessages (d_now E n) (d_clock E n) org th rt tok ids d))).
Proof. eapply (steady_total (fun n => MarkAckedForSeedMessages _ _ _ _ _ _ _)). intros. apply auto_inbox, op_seed. Qed.

Lemma steady_admit c : steady (admitSeedWithoutPhase E c).
Proof.
  unfold admitSeedWithoutPhase. cbv zeta. destruct (_ =? _)%nat; [apply steady_ret|].
  apply steady_bind; [apply steady_seed_ack|]. intros z. destruct (negb _); [apply steady_fail|apply steady_ret].
Qed.

Lemma steady_attach c h : steady (Attach E c h).
Proof.
  unfold Attach. cbv zeta. apply steady_bind; [by apply steady_local|intros _]. destruct (_ || _)%bool; [apply steady_ret|].
  apply steady_bind. { apply steady_attempt, steady_statement. intros n db db' a Hc. by eapply auto_runtime, op_live. }
  intros [e|[]]; [by apply steady_local| |by apply steady_local]. destruct (_ =? _)%nat; [apply steady_ret|].
  apply steady_bind; [apply steady_attempt, steady_seed_ack|]. intros [e|z]; [by apply steady_local|apply steady_ret].
Qed.

Lemma steady_heartbeat c since : steady (heartbeatOnce E c since).
Proof.
  unfold heartbeatOnce. cbv zeta. apply steady_bind.
  { apply steady_attempt. eapply (steady_total (fun n => ThreadRuntimeStore.HeartbeatWithLease _ _ _ _ _)). intros. apply auto_runtime, op_runtime_heartbeat. }
  intros [e|[]]; [by apply steady_local| |apply steady_ret]. apply steady_bind.
  { apply steady_attempt, steady_statement. intros n db db' a Hc. apply beside. injection Hc as <- _. by repeat split. }
  intros [e|[]]; [by apply steady_local|apply steady_ret|apply steady_ret].
Qed.

Lemma steady_keep_running org s : steady (keepSessionRunningIfSiblingRuntimesActive E org s).
Proof.
  unfold keepSessionRunningIfSiblingRuntimesActive. apply steady_bind; [apply steady_attempt, steady_read|]. intros [e|z]; [apply steady_ret|].
  destruct (_ =? _); [apply steady_ret|]. apply steady_bind; [|intros; apply steady_ret]. apply steady_attempt, steady_statement.
  intros n db db' a Hc. apply beside. unfold MarkRunningWithSandboxState, returning in Hc. repeat (case_match; simplify_eq/=); by repeat split.
Qed.

Lemma steady_new_phase org s th turn rt tok tr : steady (newActivityPhaseExecution E o org s th turn rt tok tr).
Proof.
  unfold newActivityPhaseExecution. destruct (_ || _)%bool; [apply steady_ret|]. apply steady_bind; [|intros; apply steady_ret].
  apply steady_statement. intros n db db' a Hc. by eapply auto_phase, op_start_phase.
Qed.
Lemma steady_new_seed org s th turn rt tok ids : steady (newSeedActivityPhaseExecution E org s th turn rt tok ids).
Proof.
  unfold newSeedActivityPhaseExecution. apply steady_bind; [|intros []; apply steady_ret].
  apply steady_statement. intros n db db' a Hc. by eapply auto_phase, op_start_seed.
Qed.
Lemma steady_complete status reason : steady (complete E status reason).
Proof.
  unfold complete. apply steady_bind; [by apply steady_local|]. intros [x|]; [|apply steady_ret].
  destruct (x_phase x); [|apply steady_ret]. apply steady_bind; [|intros; by apply steady_local].
  apply steady_statement. intros n db db' a Hc. by eapply auto_phase, op_complete_phase.
Qed.

(** A statement on a session is none of the plane's. *)
Lemma returning_beside p f db db' s : returning p f db = Ok (db', s) -> beside_plane db db'.
Proof. unfold returning. case_match; [done|]. intros [= <- _]. by repeat split. Qed.
Lemma beside_step db db' : beside_plane db db' -> automatic_step db db'.
Proof. intros ((? & ? & ? & ? & ?) & ? & ? & ?). apply beside. by repeat split. Qed.
Lemma complete_step now org id status reason at_ db d db' p : beside_plane db d ->
  completeActivityPhaseInTransaction now org id status reason at_ d = Ok (db', p) -> automatic_step db db'.
Proof. intros Hb Hc. by eapply auto_phase, op_complete_in_tx. Qed.

Lemma steady_persist persist reason : (forall db d, persist db = Ok d -> beside_plane db d) -> steady (persistAndComplete E persist reason).
Proof.
  intros Hp. unfold persistAndComplete. apply steady_bind; [by apply steady_local|]. intros [x|]; [|apply steady_ret].
  destruct (x_phase x); [|apply steady_ret]. apply steady_bind; [|intros; by apply steady_local].
  apply steady_statement. intros n db db' a Hc. eapply auto_phase, op_boundary; [|exact Hc]. eauto.
Qed.

Lemma steady_persist_turn {A B} (alone : activityPhaseExecution -> nat -> DB -> result (DB * A))
    (both : activityPhaseExecution -> uuid -> nat -> DB -> result (DB * B)) status reason :
  (forall x n db db' a, alone x n db = Ok (db', a) -> beside_plane db db') ->
  (forall x id n db db' b, both x id n db = Ok (db', b) -> automatic_step db db') ->
  steady (persist_turn E o alone both status reason).
Proof.
  intros Ha Hb. unfold persist_turn. apply steady_bind; [by apply steady_local|]. intros [x|]; [|apply steady_fail].
  assert (steady (statement E (alone x))) as Halone by (apply steady_statement; intros n db db' a Hc; by eapply beside_step, Ha).
  assert (steady (_ ← statement E (alone x); mret tt)) as Hret by (apply steady_bind; [done|intros; apply steady_ret]).
  destruct (x_phase x) as [phase|]; [|done]. destruct (negb _); [done|]. apply steady_bind; [|intros; by apply steady_local].
  destruct (o_atomicSessions o); (apply steady_bind; [|intros; try apply steady_ret]).
  - apply steady_statement. intros n db db' b. apply Hb.
  - done.
  - apply steady_bind; [|intros; apply steady_ret]. apply steady_statement. intros n db db' b Hc. by eapply auto_phase, op_complete_phase.
Qed.

Lemma steady_persist_result status summary ps reason : steady (persistSessionResultAndComplete E o status summary ps reason).
Proof.
  apply steady_persist_turn; intros x.
  - intros n db db' a. apply returning_beside.
  - intros id n db db' b. unfold UpdateResultAndCompleteActivityPhase, updateResultRow.
    destruct (returning _ _ _) as [[d s]|] eqn:Er; [|done]. apply returning_beside in Er. simpl.
    destruct (completeActivityPhaseInTransaction _ _ _ _ _ _ _) as [[d' p]|] eqn:Ec; [|done]. intros [= <- _]. by eapply complete_step.
Qed.
Lemma steady_persist_status status ps reason : steady (persistSessionStatusAndComplete E o status ps reason).
Proof.
  apply steady_persist_turn; intros x.
  - intros n db db' a. unfold UpdateStatus, updateStatusRow. destruct (returning _ _ _) as [[d s]|] eqn:Er; [|done].
    apply returning_beside in Er. by intros [= <- _].
  - intros id n db db' b. unfold UpdateStatusAndCompleteActivityPhase, updateStatusRow.
    destruct (returning _ _ _) as [[d s]|] eqn:Er; [|done]. apply returning_beside in Er. simpl.
    destruct (completeActivityPhaseInTransaction _ _ _ _ _ _ _) as [[d' p]|] eqn:Ec; [|done]. intros [= <- _]. by eapply complete_step.
Qed.
Lemma steady_persist_complete turn summary agent key ps reason :
  steady (persistTurnCompleteAndComplete E o turn summary agent key ps reason).
Proof.
  apply steady_persist_turn; intros x.
  - intros n db db' a [= <- _]. by repeat split.
  - intros id n db db' b Hc. eapply complete_step; [|exact Hc]. by repeat split.
Qed.
Lemma steady_reconcile before phases : steady (reconcilePhases E before phases).
Proof.
  induction phases as [|p phases IH]; simpl; [apply steady_ret|]. apply steady_bind; [|intros r; apply steady_bind; [done|intros []; apply steady_ret]].
  apply steady_attempt, steady_statement. intros n db db' a Hc. by eapply auto_phase, op_reconcile_phase.
Qed.
Lemma steady_reconcile_all before n : steady (ReconcileAllStrandedPhases E before n).
Proof. apply steady_bind; [apply steady_read|intros; apply steady_reconcile]. Qed.
Lemma steady_reconcile_org org before n : steady (ReconcileStrandedPhases E org before n).
Proof. apply steady_bind; [apply steady_read|intros; apply steady_reconcile]. Qed.
Lemma steady_abandoned before n : steady (ReconcileAbandonedInboxBatches E before n).
Proof.
  apply steady_bind; [|intros; apply steady_ret]. apply steady_statement. intros k db db' a Hc. by eapply auto_phase, op_reconcile_batches.
Qed.
End Runs.
