(* ===== verification/DeliveryReceipts.v ===== *)
(** * Receipts of live delivery

    A write the agent took is remembered in a receipt until a transaction has
    acknowledged it.  Here: what each acknowledging program of [Delivery]
    guarantees when it succeeds, and that a delivery run that returns without
    an error leaves no write unacknowledged. *)

From S2P Require Import Prelude GoRuntime Sql Tables Continuation JobStore ExecutorStore ThreadRuntimeStore ThreadInboxStore ActivityPhaseStore.
From S2P Require Import JobLifecycle InboxSteps PhaseSteps Plane InboxProperties DeliveryProtocol Delivery DeliveryRun.
From Stdlib Require Import Sorting.Permutation Sorting.Sorted.
From stdpp Require Import base option list strings gmap relations.

Open Scope string_scope.
Open Scope Z_scope.

(** ** Applied input *)

(** The entry with this number has been taken by a provider and its row says
    so. *)
Definition applied (db : DB) (org th : uuid) (seq : Z) : Prop :=
  exists e, In e (thread_inbox_entries db) /\ e_org_id e = org /\ e_thread_id e = th /\ e_sequence_no e = seq
    /\ e_delivery_state e = ThreadInboxDeliveryStateAcked /\ e_applied_at e <> None.

Lemma applied_acked e : entry_wf e -> e_applied_at e <> None -> e_delivery_state e = ThreadInboxDeliveryStateAcked.
Proof. unfold entry_wf. intros Hw Ha. destruct (e_delivery_state e); intuition congruence. Qed.

(** No move takes an acknowledgment back. *)
Lemma entries_step_applied manual db db' org th seq : Forall entry_wf (thread_inbox_entries db) ->
  entries_step manual (thread_inbox_entries db) (thread_inbox_entries db') -> applied db org th seq -> applied db' org th seq.
Proof.
  intros Hwf Hs (e & Hin & <- & <- & <- & _ & Ha). destruct (entries_step_row _ _ _ e Hwf Hs Hin) as (e' & Hin' & Hk).
  assert (e_applied_at e' <> None) as Ha' by (destruct (ek_applied _ _ _ Hk Ha); congruence).
  exists e'. split; [done|]. rewrite (ek_org _ _ _ Hk), (ek_thread _ _ _ Hk), (ek_sequence _ _ _ Hk).
  repeat (split; [done|]). split; [apply applied_acked; [apply Hk|]|]; done.
Qed.

Lemma move_entries run s s' : ledger_ok s -> move run s s' ->
  exists manual, entries_step manual (thread_inbox_entries (s_db s)) (thread_inbox_entries (s_db s')).
Proof.
  intros Hok [db' Ha|now clock org th rt tok node id seq db' Hm|id Hin|now clock org th rt tok id Hin|now org th id allow db' e Hr].
  - exists false. by apply automatic_entries; [apply Hok|].
  - exists false. simpl. replace db' with (MarkDeliveredForEntry now clock org th rt tok node id seq (s_db s)).1 by (by rewrite Hm).
    apply inbox_op_step, op_delivered.
  - exists false. apply entries_idle.
  - exists true. apply inbox_op_step, op_unsent.
  - exists true. by eapply inbox_op_step, op_retry_entry.
Qed.

Lemma moves_applied s s' org th seq : ledger_ok s -> moves s s' -> applied (s_db s) org th seq -> applied (s_db s') org th seq.
Proof.
  intros Hok Hm. revert Hok. induction Hm as [|x y z [run Hm] _ IH]; [done|]. intros Hok Ha. apply IH; [by eapply move_ok|].
  destruct (move_entries _ _ _ Hok Hm) as [manual He]. eapply entries_step_applied; [apply Hok|exact He|done].
Qed.

(** ** The claimed entries come in order *)

Lemma sorted_by_key {A} (key : A -> Z) l : StronglySorted (fun a b => (key a <=? key b) = true) l -> List.NoDup (map key l) ->
  StronglySorted Z.lt (map key l).
Proof.
  induction 1 as [|x l _ IH Hx]; intros Hnd; simpl; [constructor|]. inversion Hnd as [|? ? Hni Hnd']; subst. constructor; [auto|].
  apply List.Forall_forall. intros k (y & <- & Hy)%in_map_iff. rewrite List.Forall_forall in Hx. specialize (Hx y Hy).
  apply Z.leb_le in Hx. assert (key y <> key x) by (intros E; apply Hni; rewrite <- E; by apply in_map). lia.
Qed.

Lemma claimed_in_order now clock org th rt tok node after n locked db : entries_inv (thread_inbox_entries db) ->
  let l := (ClaimDeliverableAfter now clock org th rt tok node after n locked db).2 in
  StronglySorted Z.lt (map e_sequence_no l) /\ Forall (fun e => 0 < e_sequence_no e) l.
Proof.
  intros Hinv. cbv zeta. unfold ClaimDeliverableAfter. cbn [snd]. set (candidates := limit _ _).
  set (cd := fun e => entry_in_thread org th e && existsb (fun c => e_id c ==? e_id e) candidates).
  set (claimed := fun e => cd e && (e_delivery_state e ==? ThreadInboxDeliveryStatePending)).
  set (held := fun e => cd e && (e_delivery_state e ==? ThreadInboxDeliveryStateDelivering) && col_is (e_runtime_id e) rt). set (t := thread_inbox_entries db) in *.
  assert (forall e, cd e = true -> e_org_id e = org /\ e_thread_id e = th) as Hcd.
  { intros e He. unfold cd, entry_in_thread in He. by reflect_bools. }
  assert (forall p, (forall e, p e = true -> cd e = true) -> List.NoDup (map e_sequence_no (select p t))) as Hnd.
  { intros p Hp. apply (sequences_nodup p t org th); [apply Hinv|intros e He; by apply Hcd, Hp|apply Hinv]. }
  assert (Hperm : Permutation (map e_sequence_no (map (claim_entry now rt node) (select claimed t) ++ select held t))
                    (map e_sequence_no (select claimed t) ++ map e_sequence_no (select held t))).
  { rewrite map_app, map_map. reflexivity. }
  split.
  - apply sorted_by_key.
    + apply (order_by_sorted sequence_le); intros; unfold sequence_le in *; reflect_bools; lia.
    + eapply Permutation_NoDup; [symmetry; etrans; [apply Permutation_map, order_by_perm|exact Hperm]|].
      apply List.NoDup_app; [apply Hnd; intros e He; unfold claimed in He; by reflect_bools|
        apply Hnd; intros e He; unfold held in He; by reflect_bools|].
      intros k (x & <- & [Hx Hcx]%in_filter_iff)%in_map_iff (y & Ek & [Hy Hhy]%in_filter_iff)%in_map_iff.
      unfold claimed, held in *. reflect_bools. destruct (Hcd x), (Hcd y); [done..|].
      assert (x = y) as ->; [|congruence]. eapply (ei_sequence _ Hinv x y); [done|done|reflexivity|]. unfold sequence_key. congruence.
  - apply List.Forall_forall. intros e He%in_order_by. pose proof (ei_wf _ Hinv) as Hwf. rewrite List.Forall_forall in Hwf.
    apply in_app_iff in He as [(x & <- & [Hx _]%in_filter_iff)%in_map_iff|[He _]%in_filter_iff]; [apply (Hwf x Hx)|apply (Hwf e He)].
Qed.

(** ** Acknowledgments *)

Section Acks.
Context {H : Handle} {L : HandleLaws H} (E : DeliveryEnv) (o : Orchestrator) (HE : orderly E) (org th : uuid).

(** A phase that runs in the thread under a runtime's lease. *)
Definition of_thread (x : option activityPhaseExecution) : Prop :=
  match x with
  | None => True
  | Some x => x_orgID x = org /\ x_threadID x = th /\ is_Some (x_runtimeID x) /\ is_Some (x_leaseToken x)
  end.
(** The turns of the thread register such phases only. *)
Definition turns_of_thread : Prop := forall n x, of_thread x -> of_thread (d_turn E n x).
Context (HT : turns_of_thread).

Lemma of_thread_stable : stable E of_thread.
Proof. split; [apply HT|]. by intros x phase closed. Qed.

(** The steps of a program that succeeded. *)
Lemma bind_done {A B} (m : M A) (k : A -> M B) w w' b : (m ≫= k) w = (w', inr b) ->
  exists w1 a, m w = (w1, inr a) /\ k a w1 = (w', inr b).
Proof. unfold mbind, M_bind. destruct (m w) as [w1 [e|a]]; [done|]. eauto. Qed.
Lemma attempt_done {A} (m : M A) w w' r : attempt m w = (w', inr r) -> m w = (w', r).
Proof. unfold attempt. destruct (m w). by intros [= -> ->]. Qed.

Record sound (w : World) : Prop := { so_ledger : ledger_ok (w_site w); so_thread : of_thread (w_execution w) }.

Lemma calm_sound w w' : sound w -> calm E w w' -> sound w'.
Proof.
  intros [Hl Ht] Hc. split; [eapply moves_ok; [done|apply Hc]|]. by apply (cm_execution _ _ _ Hc of_thread of_thread_stable).
Qed.
Lemma gentle_sound {A} (m : M A) w w' r : gentle E m -> sound w -> m w = (w', r) -> sound w'.
Proof. intros Hm Hs Em. eapply calm_sound; [done|]. specialize (Hm w). by rewrite Em in Hm. Qed.
Lemma gentle_calm {A} (m : M A) w w' r : gentle E m -> m w = (w', r) -> calm E w w'.
Proof. intros Hm Em. specialize (Hm w). by rewrite Em in Hm. Qed.

Definition w_applied (w : World) (x : Z) : Prop := applied (s_db (w_site w)) org th x.
Lemma calm_applied w w' x : sound w -> calm E w w' -> w_applied w x -> w_applied w' x.
Proof. intros Hs Hc. eapply moves_applied; [apply Hs|apply Hc]. Qed.

(** Success means that the numbers are applied. *)
Definition acks (m : M unit) (seqs : list Z) : Prop :=
  forall w w' u, sound w -> m w = (w', inr u) -> forall x, In x seqs -> w_applied w' x.

(** A statement that succeeded ran in a sound state of the others. *)
Lemma statement_done {A} (f : nat -> DB -> result (DB * A)) w w' a : sound w -> statement E f w = (w', inr a) ->
  exists n db, phase_ctx db /\ f n db = Ok (s_db (w_site w'), a).
Proof.
  intros Hs. unfold statement, statement_as. set (s := d_others E (w_step w) (w_site w)). intros Hw.
  exists (w_step w), (s_db s). split.
  - apply lo_ctx, (moves_ok (w_site w)); [apply Hs|by apply moves_others].
  - destruct (d_reply E (w_step w)), (f (w_step w) (s_db s)) as [[db b]|]; by simplify_eq/=.
Qed.

Lemma acks_commit runtime seq confirmed : tr_org_id runtime = org -> acks (commitThreadInboxWatermark E runtime th seq confirmed) confirmed.
Proof.
  intros Ho w w' u Hs. unfold commitThreadInboxWatermark, mbind, M_bind.
  destruct (statement E _ w) as [w1 [e|[]]] eqn:Est; [done| |done]. intros [= <- _] x Hin.
  apply statement_done in Est as (n & db & Hctx & Hc); [|done]. rewrite Ho in Hc.
  destruct (proj1 (commit_applies_exactly_the_confirmed _ _ _ _ _ _ _ _ _ _ _ _ (px_entries _ Hctx) Hc) x Hin)
    as (e & He & Eo & Et & Es & Ed & _ & Ea). by exists e.
Qed.

Lemma acks_resume x end_ confirmed : of_thread (Some x) -> acks (acknowledgeAndResume E x end_ confirmed) confirmed.
Proof.
  intros (Ho & Ht & [rt Hrt] & [tok Htok]) w w' u Hs. unfold acknowledgeAndResume. rewrite Hrt, Htok.
  destruct (x_deliveryClosed x), (x_phase x) as [phase|]; try done. unfold mbind, M_bind, attempt.
  destruct (statement E _ w) as [w1 [e|[[next b] c]]] eqn:Est; [by destruct (is_error _ _)|]. intros [= <- _] y Hin.
  apply statement_done in Est as (n & db & Hctx & Hc); [|done]. rewrite Ho, Ht in Hc.
  exact (steer_covers _ _ _ _ _ _ _ _ _ _ _ _ _ _ _ _ _ y Hctx Hc Hin).
Qed.

Lemma acks_side runtime seqs : tr_org_id runtime = org -> acks (acknowledge_side E o runtime th seqs) seqs.
Proof.
  intros Ho w w' u Hs. unfold acknowledge_side. destruct (last seqs) as [end_|]; [|done]. unfold mbind, M_bind.
  destruct (look_execution E w) as [w1 r] eqn:El. pose proof (gentle_sound _ _ _ _ (gentle_look E) Hs El) as Hs1.
  assert (r = inr (w_execution w1)) as -> by (by injection El as <- <-). destruct (w_execution w1) as [x|] eqn:Ex; [|by apply acks_commit].
  destruct (o_activityPhases o); [|by apply acks_commit]. unfold attempt.
  pose proof (calm_resume E HE x end_ seqs w1 Ex) as Hr. pose proof (so_thread _ Hs1) as Hx. rewrite Ex in Hx.
  destruct (acknowledgeAndResume E x end_ seqs w1) as [w2 [e|[]]] eqn:Er.
  - destruct (is_error _ _); [|done]. apply acks_commit; [done|]. by eapply calm_sound.
  - intros [= <- _]. by eapply acks_resume.
Qed.

Lemma acks_acknowledge runtime seqs : tr_org_id runtime = org -> acks (acknowledgeConfirmedThreadInboxInputs E o runtime th seqs) seqs.
Proof.
  intros Ho w w' u Hs. unfold acknowledgeConfirmedThreadInboxInputs. set (k := cut _ _). cbv zeta.
  destruct (_ && _)%bool; [|by apply acks_side]. unfold mbind, M_bind.
  destruct (acknowledge_side E o runtime th (take k seqs) w) as [w1 [e|u1]] eqn:E1; [done|]. intros E2 x.
  pose proof (gentle_sound _ _ _ _ (gentle_side E o HE runtime th _) Hs E1) as Hs1.
  rewrite <- (take_drop k seqs), in_app_iff. intros [Hin|Hin].
  - eapply (calm_applied w1); [done|by eapply gentle_calm; [apply (gentle_side E o HE)|]|].
    exact (acks_side runtime _ Ho w w1 u1 Hs E1 x Hin).
  - exact (acks_side runtime _ Ho w1 w' u Hs1 E2 x Hin).
Qed.

(** A flushed receipt is gone and its numbers are applied. *)
Record flushed (key : confirmedThreadInputKey) (w w' : World) : Prop := {
  fl_sound : sound w';
  fl_applied : forall x, w_applied w x -> w_applied w' x;
  fl_written : w_written w' = w_written w;
  fl_confirmed : w_confirmed w' = delete key (w_confirmed w);
  fl_receipt : forall r x, w_confirmed w !! key = Some r -> In x (rc_sequences r) -> w_applied w' x
}.

Lemma flushed_by key m w w1 u r : sound w -> gentle E m -> w_confirmed w !! key = Some r -> acks m (rc_sequences r) ->
  m w = (w1, inr u) -> flushed key w (w1 <| w_confirmed := delete key (w_confirmed w1) |>).
Proof.
  intros Hs Hq Hr Ha Em. pose proof (gentle_calm _ _ _ _ Hq Em) as Hc. split; simpl.
  - by destruct (calm_sound _ _ Hs Hc).
  - intros x. by apply (calm_applied w w1).
  - apply Hc.
  - by rewrite (cm_confirmed _ _ _ Hc).
  - intros r' x Hr' Hin. simplify_eq. by apply (Ha w w1 u).
Qed.

Lemma flush_spec runtime closing w w' u : sound w -> tr_org_id runtime = org ->
  flushConfirmedThreadInput E o runtime th closing w = (w', inr u) -> flushed (confirmedThreadInputKeyFor runtime th) w w'.
Proof.
  intros Hs Ho. unfold flushConfirmedThreadInput, load_receipt, mbind, M_bind. set (key := confirmedThreadInputKeyFor runtime th).
  destruct (w_confirmed w !! key) as [receipt|] eqn:Er.
  2:{ intros [= <- _]. split; try done; [by rewrite delete_id|]. intros. congruence. }
  destruct (last (rc_sequences receipt)) as [seq|]; [|done]. cbv zeta. set (ack := if closing then _ else _).
  assert (gentle E ack) as Hq by (unfold ack; destruct closing; [by apply gentle_commit|by apply gentle_acknowledge]).
  assert (acks ack (rc_sequences receipt)) as Ha by (unfold ack; destruct closing; [by apply acks_commit|by apply acks_acknowledge]).
  unfold attempt. destruct (ack w) as [w1 [e|u1]] eqn:E1.
  2:{ intros [= <- _]. by eapply flushed_by. }
  unfold expired. destruct (d_expired E (w_step w1)); [done|]. pose proof (gentle_calm _ _ _ _ Hq E1) as Hc1.
  set (w2 := _ : World). assert (calm E w w2) as Hc2 by (etrans; [exact Hc1|]; by split; [apply rtc_refl|..]).
  destruct (ack w2) as [w3 [e'|u3]] eqn:E3; [done|]. intros [= <- _].
  pose proof (calm_sound _ _ Hs Hc2) as Hs2. pose proof (cm_confirmed _ _ _ Hc2) as Hcf.
  destruct (flushed_by key ack w2 w3 u3 receipt Hs2 Hq) as [F1 F2 F3 F4 F5]; [by rewrite Hcf|done|done|].
  split; [done| |rewrite <- (cm_written _ _ _ Hc2); exact F3|rewrite <- Hcf; exact F4|rewrite <- Hcf; exact F5].
  intros x Hx. by apply F2, (calm_applied w w2).
Qed.

(** ** The loop *)

Lemma sorted_without (l r : list Z) x : StronglySorted Z.lt (l ++ x :: r) -> StronglySorted Z.lt (l ++ r).
Proof.
  induction l as [|y l IH]; simpl; intros Hs; inversion Hs as [|? ? Hs' Hall]; subst; [done|]. constructor; [auto|].
  rewrite List.Forall_forall in *. intros z Hz. apply Hall. rewrite in_app_iff in *. simpl. tauto.
Qed.
Lemma sorted_prefix (l r : list Z) : StronglySorted Z.lt (l ++ r) -> StronglySorted Z.lt l.
Proof. induction r as [|x r IH]; [by rewrite app_nil_r|]. intros Hs. by apply IH, (sorted_without _ _ x). Qed.

Definition written_sequences (w : World) : list Z := map (fun p => e_sequence_no p.1) (w_written w).

(** Every write that succeeded is applied or in the receipt, the receipt is
    empty when nothing was written since the last flush, and the entries that
    [rest] still holds come after what was written. *)
Record accounted (key : confirmedThreadInputKey) (end_ : Z) (rest : list ThreadInboxEntry) (w : World) : Prop := {
  ac_sound : sound w;
  ac_writes : forall e, In (e, true) (w_written w) -> w_applied w (e_sequence_no e)
    \/ exists r, w_confirmed w !! key = Some r /\ In (e_sequence_no e) (rc_sequences r);
  ac_settled : end_ = 0 -> w_confirmed w !! key = None;
  ac_order : StronglySorted Z.lt (written_sequences w ++ map e_sequence_no rest);
  ac_positive : Forall (fun e => 0 < e_sequence_no e) rest
}.

(** The run feeds the thread through this runtime. *)
Definition serves (key : confirmedThreadInputKey) (runtime : ThreadRuntime) : Prop :=
  tr_org_id runtime = org /\ confirmedThreadInputKeyFor runtime th = key.

Lemma calm_accounted key end_ rest w w' : accounted key end_ rest w -> calm E w w' -> accounted key end_ rest w'.
Proof.
  intros [Hs Hw Hz Ho Hp] Hc. split; [by eapply calm_sound| | | |done].
  - rewrite (cm_written _ _ _ Hc), (cm_confirmed _ _ _ Hc). intros e [Ha|Hr]%Hw; [left; by eapply calm_applied|by right].
  - by rewrite (cm_confirmed _ _ _ Hc).
  - unfold written_sequences. by rewrite (cm_written _ _ _ Hc).
Qed.
Lemma gentle_accounted {A} (m : M A) key end_ rest w w' r : gentle E m -> accounted key end_ rest w -> m w = (w', r) -> accounted key end_ rest w'.
Proof. intros Hq Ha Em. eapply calm_accounted; [done|by eapply gentle_calm]. Qed.
Lemma accounted_next key end_ e rest w : accounted key end_ (e :: rest) w -> accounted key end_ rest w.
Proof. intros [Hs Hw Hz Ho Hp]. inversion Hp. split; try done. by apply (sorted_without _ _ (e_sequence_no e)). Qed.

Lemma flush_delivered_spec key end_ rest runtime w w' runtime' : accounted key end_ rest w -> serves key runtime ->
  flushDelivered E o runtime th end_ w = (w', inr runtime') -> accounted key 0 rest w' /\ serves key runtime'.
Proof.
  intros Ha [Ho Hk]. unfold flushDelivered. destruct (Z.eqb_spec end_ 0) as [->|_]; [by intros [= <- <-]|].
  unfold mbind, M_bind. destruct (flushConfirmedThreadInput E o runtime th false w) as [w1 [e|u]] eqn:Ef; [done|]. intros [= <- <-].
  apply flush_spec in Ef as [F1 F2 F3 F4 F5]; [|apply Ha|done]. rewrite Hk in *. split; [|by split]. destruct Ha as [Hs Hw _ Hord Hp].
  split; [done| | | |done].
  - rewrite F3. intros e [Hap|(r & Hr & Hin)]%Hw; left; [by apply F2|by apply (F5 r)].
  - by rewrite F4, lookup_delete_eq.
  - unfold written_sequences. by rewrite F3.
Qed.

Lemma dead_letter_spec key end_ entry rest reason runtime w w' runtime' : accounted key end_ (entry :: rest) w -> serves key runtime ->
  dead_letter E o org th runtime end_ entry reason w = (w', inr runtime') -> accounted key 0 rest w' /\ serves key runtime'.
Proof.
  intros Ha%accounted_next Hk. unfold dead_letter, mbind, M_bind.
  destruct (flushDelivered E o runtime th end_ w) as [w1 [e|rt1]] eqn:E1; [done|].
  destruct (flush_delivered_spec _ _ _ _ _ _ _ Ha Hk E1) as [Ha1 Hk1].
  destruct (statement E _ w1) as [w2 [e|x]] eqn:E2; [done|]. eapply gentle_accounted in E2; [|apply gentle_statement|exact Ha1]; [|done|].
  2:{ intros n db db' a Hc. by eapply auto_inbox, op_mark_dead. }
  unfold advanceDeadLetter. destruct (negb _); [done|]. unfold mbind, M_bind.
  destruct (commitThreadInboxWatermark E rt1 th _ _ w2) as [w3 [e|u]] eqn:E3; [done|]. intros [= <- <-].
  split; [|by destruct Hk1]. by eapply gentle_accounted; [apply (gentle_commit E HE)| |].
Qed.

(** The write of the next entry. *)
Lemma deliver_input_log entry data w w' r : DeliverInput E entry data w = (w', r) ->
  w_confirmed w' = w_confirmed w /\ w_execution w' = w_execution w
  /\ (w_written w' = w_written w ++ [(entry, match r with inr _ => true | inl _ => false end)]
      \/ (exists e, r = inl e) /\ w_written w' = w_written w)%list.
Proof.
  unfold DeliverInput. destruct (d_registry E _ _) as [[h|]|]; [|intros [= <- <-]; eauto 10..].
  destruct (WriteInput h (w_step w) data) as [[msg|] []]; intros [= <- <-]; simpl; auto.
Qed.

Lemma write_spec key end_ entry rest data w w' r : accounted key end_ (entry :: rest) w ->
  In (d_run E, e_id entry) (s_marks (w_site w)) -> DeliverInput E entry data w = (w', r) ->
  match r with
  | inl _ => accounted key end_ [] w'
  | inr _ => forall w'' u receipt, rememberConfirmedThreadInput receipt th (e_sequence_no entry) w' = (w'', inr u) ->
      serves key receipt -> accounted key (e_sequence_no entry) rest w''
  end.
Proof.
  intros [Hs Hw Hz Hord Hp] Hm Ed. destruct (deliver_input_spec E HE entry data w w' r Hm Ed) as [Hmv _].
  destruct (deliver_input_log _ _ _ _ _ Ed) as (Hc & Hx & Hwr).
  assert (sound w') as Hs' by (split; [eapply moves_ok; [apply Hs|done]|rewrite Hx; apply Hs]).
  assert (forall x, w_applied w x -> w_applied w' x) as Hap by (intros x; by apply moves_applied; [apply Hs|]).
  destruct r as [e|[]].
  - split; [done| |by rewrite Hc| |constructor].
    + intros x Hin. rewrite Hc. assert (In (x, true) (w_written w)) as Hin'.
      { destruct Hwr as [Hwr|[_ Hwr]]; rewrite Hwr in Hin; [|done]. by apply in_app_iff in Hin as [?|[[=]|[]]]. }
      destruct (Hw x Hin'); auto.
    + rewrite app_nil_r. unfold written_sequences. destruct Hwr as [->|[_ ->]]; [|exact (sorted_prefix _ _ Hord)].
      rewrite map_app. simpl. simpl in Hord. rewrite cons_middle, app_assoc in Hord. exact (sorted_prefix _ _ Hord).
  - destruct Hwr as [Hwr|[[e [=]] _]]. intros w'' u rt Er [Ho Hk]. inversion Hp as [|? ? Hpos Hp']; subst.
    unfold rememberConfirmedThreadInput in Er. set (receipt := match w_confirmed w' !! _ with None => _ | Some _ => _ end) in Er.
    set (key := confirmedThreadInputKeyFor rt th) in *.
    assert (Hafter : w_written w'' = w_written w' /\ w_site w'' = w_site w' /\ w_execution w'' = w_execution w'
      /\ exists r, w_confirmed w'' !! key = Some r /\ In (e_sequence_no entry) (rc_sequences r)
           /\ forall r0, w_confirmed w' !! key = Some r0 -> incl (rc_sequences r0) (rc_sequences r)).
    { unfold receipt in Er. destruct (w_confirmed w' !! key) as [r0|] eqn:E0; [destruct (existsb _ _) eqn:Ee|]; injection Er as <- _; simpl.
      - repeat (split; [done|]). exists r0. apply existsb_exists in Ee as (y & Hy & ->%Z.eqb_eq).
        split; [done|]. split; [done|]. intros r1 [= ->]. apply incl_refl.
      - repeat (split; [done|]). eexists. rewrite lookup_insert_eq. split; [done|]. pose proof (in_order_by Z.leb (e_sequence_no entry :: rc_sequences r0)) as Hl.
        split; [apply Hl; by left|]. intros r1 [= ->] y Hy. apply Hl. by right.
      - repeat (split; [done|]). eexists. rewrite lookup_insert_eq. split; [done|]. split; [by left|done]. }
    destruct Hafter as (Hw'' & Hsite & Hex & rc & Hrc & Hin & Hincl).
    split; [split; [rewrite Hsite|rewrite Hex]; apply Hs'| |lia| |done].
    + rewrite Hw'', Hwr. unfold w_applied. rewrite Hsite. intros x [Hx'|[[= ->]|[]]]%in_app_iff; [|right; by exists rc].
      destruct (Hw x Hx') as [?|(r & Hr & ?)]; [left; by apply Hap|]. right. exists rc. split; [done|]. rewrite <- Hc in Hr. by apply (Hincl r).
    + unfold written_sequences. rewrite Hw'', Hwr, map_app, <- app_assoc. done.
Qed.

(** What a run leaves when it returns without an error. *)
Definition all_acknowledged (w : World) : Prop :=
  (forall e, In (e, true) (w_written w) -> w_applied w (e_sequence_no e)) /\ StronglySorted Z.lt (written_sequences w).

Lemma accounted_done key rest w : accounted key 0 rest w -> all_acknowledged w.
Proof.
  intros [Hs Hw Hz Ho _]. split; [|exact (sorted_prefix _ _ Ho)]. intros e He. specialize (Hz eq_refl).
  destruct (Hw e He) as [?|(r & Hr & _)]; [done|congruence].
Qed.

Lemma mark_gentle id f : (forall n db, exists now clock o th rt tok node seq,
  f n db = MarkDeliveredForEntry now clock o th rt tok node id seq db) -> gentle E (mark_statement E id f).
Proof. intros Hf. by apply gentle_statement_as, steady_mark. Qed.

Lemma reset_accounted key id f w w' rows : (forall n db, exists now clock o th rt tok, f n db = ResetUnsentDelivery now clock o th rt tok id db) ->
  In (d_run E, id) (s_marks (w_site w)) -> forall end_ rest, accounted key end_ rest w -> reset_statement E id f w = (w', inr rows) ->
  accounted key end_ rest w'.
Proof.
  intros Hf Hin end_ rest Ha Er. eapply calm_accounted; [exact Ha|]. pose proof (reset_moves E HE id f w Hf Hin) as Hm.
  rewrite Er in Hm. unfold reset_statement, statement_as in Er.
  split; [done|..]; by repeat case_match; simplify_eq/=.
Qed.

Lemma flush_last key end_ rest runtime w w' u : accounted key end_ rest w -> serves key runtime ->
  (_ ← flushDelivered E o runtime th end_; mret tt) w = (w', inr u) -> all_acknowledged w'.
Proof.
  intros Ha Hk (w1 & rt & Ef & [= <- _])%bind_done. eapply flush_delivered_spec in Ef as [Ha' _]; [|done|done]. by eapply accounted_done.
Qed.

Lemma entries_spec entries : forall key runtime end_ w w' u, accounted key end_ entries w -> serves key runtime ->
  deliver_entries E o org th runtime end_ entries w = (w', inr u) -> all_acknowledged w'.
Proof.
  induction entries as [|entry entries IH]; intros key runtime end_ w w' u Ha Hk; cbn [deliver_entries]; [by apply (flush_last key end_ [])|].
  destruct (threadRuntimeInputFormatter _ _ _) as [input|reason].
  2:{ intros (w1 & rt & Ed & Hrun)%bind_done. eapply dead_letter_spec in Ed as [Ha' Hk']; [|done|done]. by eapply (IH key). }
  intros (w1 & rows & Em & Hrun)%bind_done. destruct (Z.eqb_spec rows 1) as [->|_]; [|done]. simpl negb in Hrun. cbv iota in Hrun.
  pose proof (mark_remembered _ _ _ _ _ Em) as Hmark.
  eapply gentle_accounted in Em; [|apply mark_gentle; intros; repeat eexists|exact Ha].
  apply bind_done in Hrun as (w2 & r & Ed%attempt_done & Hrun). pose proof (write_spec _ _ _ _ _ _ _ _ Em Hmark Ed) as Hd.
  destruct r as [e|[]].
  - destruct (definite_refusal e) eqn:Er; apply bind_done in Hrun as (w3 & rows & E3 & Hrun); [|done].
    destruct (deliver_input_spec E HE entry input w1 w2 _ Hmark Ed) as [_ Hkept]. specialize (Hkept e eq_refl Er).
    eapply reset_accounted in E3; [|intros; repeat eexists|exact Hkept|exact Hd]. destruct (negb _); [done|]. by eapply flush_last.
  - apply bind_done in Hrun as (w3 & u3 & E3 & Hrun). eapply (IH key runtime); [|done|exact Hrun]. by eapply Hd.
Qed.

(** ** The run *)

Lemma active_runtime_spec session w w' r : active_runtime E o org session th w = (w', inr r) ->
  calm E w w' /\ match r with None => True | Some runtime => tr_org_id runtime = org end.
Proof.
  unfold active_runtime. intros (w1 & r1 & Er%attempt_done & Hrun)%bind_done.
  assert (calm E w w1) as Hc by (by eapply gentle_calm; [apply (gentle_read E HE)|]).
  destruct r1 as [e|runtime].
  - destruct (is_error _ _); [|done]. by injection Hrun as <- <-.
  - destruct (negb _) in Hrun; [done|]. destruct (_ && _)%bool in Hrun; [done|]. injection Hrun as <- <-. split; [done|].
    unfold read, statement_as in Er. destruct (GetActiveByThread _ _ _ _) as [x|] eqn:Eg; [|by destruct (d_reply E _)].
    assert (x = runtime) as -> by (destruct (d_reply E _); by simplify_eq/=).
    unfold GetActiveByThread in Eg. destruct (order_by _ _) as [|y l] eqn:Eo; [done|]. injection Eg as ->.
    assert (In runtime (runtime :: l)) as Hin by (by left). rewrite <- Eo in Hin. apply in_order_by, in_filter_iff in Hin as [_ Hp].
    unfold occupies in Hp. by reflect_bools.
Qed.

Lemma recover_spec runtime w w' runtime' : recover_watermark E org th runtime w = (w', inr runtime') ->
  calm E w w' /\ tr_org_id runtime' = tr_org_id runtime.
Proof.
  unfold recover_watermark. intros (w1 & z & Er & Hrun)%bind_done.
  assert (calm E w w1) as Hc by (by eapply gentle_calm; [apply (gentle_read E HE)|]). destruct (_ <? _); [|by injection Hrun as <- <-].
  apply bind_done in Hrun as (w2 & u & Ec & [= <- <-]). split; [|done]. etrans; [exact Hc|]. by eapply gentle_calm; [apply (gentle_commit E HE)|].
Qed.

(** Nothing is owed to the thread when the loop starts. *)
Lemma retry_spec runtime w w' runtime' : sound w -> w_written w = [] -> tr_org_id runtime = org ->
  retry_receipt E o th runtime w = (w', inr runtime') ->
  accounted (confirmedThreadInputKeyFor runtime th) 0 [] w' /\ w_written w' = [] /\ serves (confirmedThreadInputKeyFor runtime th) runtime'.
Proof.
  intros Hs Hw Ho. unfold retry_receipt. intros (w1 & receipt & [= <- <-] & Hrun)%bind_done.
  destruct (w_confirmed w !! _) as [receipt|] eqn:Er.
  - apply bind_done in Hrun as (w2 & u & [F1 F2 F3 F4 F5]%flush_spec & Hrun); [|done|done]. rewrite Hw in F3.
    destruct (last _); [|done]. injection Hrun as <- <-. split; [|done].
    split; [done|by rewrite F3|by rewrite F4, lookup_delete_eq|unfold written_sequences; rewrite F3; constructor|constructor].
  - injection Hrun as <- <-. split; [|done]. split; [done|by rewrite Hw|done|unfold written_sequences; rewrite Hw; constructor|constructor].
Qed.

Lemma claim_gentle rt tok node after n :
  gentle E (statement E (fun k d => Ok (ClaimDeliverableAfter (d_now E k) (d_clock E k) org th rt tok node after n (d_locked E k) d))).
Proof.
  apply gentle_statement_as. eapply (steady_total E HE (fun k => ClaimDeliverableAfter _ _ _ _ _ _ _ _ _ _)). intros.
  apply auto_inbox, op_claim_entries.
Qed.

Lemma claim_ordered rt tok node after n w w' entries : sound w ->
  statement E (fun k d => Ok (ClaimDeliverableAfter (d_now E k) (d_clock E k) org th rt tok node after n (d_locked E k) d)) w = (w', inr entries) ->
  StronglySorted Z.lt (map e_sequence_no entries) /\ Forall (fun e => 0 < e_sequence_no e) entries.
Proof.
  intros Hs (k & db & Hctx & Hcl)%statement_done; [|done].
  apply (f_equal (fun r => match r with Ok p => p.2 | Err _ => [] end)) in Hcl. cbv beta iota in Hcl.
  change (_, entries).2 with entries in Hcl. rewrite <- Hcl. apply claimed_in_order, Hctx.
Qed.

Lemma deliver_spec session w w' u : sound w -> w_written w = [] -> DeliverThreadInbox E o org session th w = (w', inr u) -> all_acknowledged w'.
Proof.
  intros Hs Hw. assert (forall w, w_written w = [] -> all_acknowledged w) as Hnone.
  { intros x Hx. split; [by rewrite Hx|unfold written_sequences; rewrite Hx; constructor]. }
  unfold DeliverThreadInbox. intros (w1 & r1 & [Hc1 _]%active_runtime_spec & Hrun)%bind_done.
  destruct r1 as [_r|]; [|injection Hrun as <- _; apply Hnone; by rewrite (cm_written _ _ _ Hc1)].
  apply bind_done in Hrun as (w2 & r2 & [Hc2 Ho]%active_runtime_spec & Hrun). assert (calm E w w2) as Hc by (by etrans).
  destruct r2 as [runtime|]; [|injection Hrun as <- _; apply Hnone; by rewrite (cm_written _ _ _ Hc)].
  apply bind_done in Hrun as (w3 & rt3 & [Hc3 Ho3]%recover_spec & Hrun). assert (calm E w w3) as Hc' by (by etrans).
  apply bind_done in Hrun as (w4 & rt4 & E4 & Hrun).
  apply retry_spec in E4 as (Ha & Hw4 & Hk); [|by eapply calm_sound|by rewrite (cm_written _ _ _ Hc')|congruence].
  apply bind_done in Hrun as (w5 & attached & E5 & Hrun). assert (calm E w4 w5) as Hc5 by (injection E5 as <- _; by split; [apply rtc_refl|..]).
  destruct (_ || _)%bool in Hrun; [injection Hrun as <- _; apply Hnone; by rewrite (cm_written _ _ _ Hc5)|].
  apply bind_done in Hrun as (w6 & entries & E6 & Hrun). pose proof (calm_accounted _ _ _ _ _ Ha Hc5) as Ha5.
  pose proof (gentle_accounted _ _ _ _ _ _ _ (claim_gentle _ _ _ _ _) Ha5 E6) as [Hs6 Hw6 Hz6 Ho6 _].
  pose proof (gentle_calm _ _ _ _ (claim_gentle _ _ _ _ _) E6) as Hc6.
  assert (w_written w6 = []) as Hn6 by (by rewrite (cm_written _ _ _ Hc6), (cm_written _ _ _ Hc5)).
  apply claim_ordered in E6 as [Hord Hpos]; [|apply Ha5]. eapply entries_spec; [|exact Hk|exact Hrun].
  split; [done|done|done| |done]. unfold written_sequences. rewrite Hn6. exact Hord.
Qed.
End Acks.
