(* ===== verification/DeliveryProperties.v ===== *)
(** * Properties of live delivery

    What a message sent to a running agent can rely on: it reaches a provider
    at most once, and a delivery run that reports success has acknowledged
    what it wrote, in the order of the thread. *)

From S2P Require Import Prelude GoRuntime Sql Tables Continuation JobStore ExecutorStore ThreadRuntimeStore ThreadInboxStore ActivityPhaseStore.
From S2P Require Import JobLifecycle JobSteps ExecutorSteps RuntimeSteps InboxSteps PhaseSteps Plane Scenario PhaseProperties.
From S2P Require Import DeliveryProtocol Delivery DeliveryRun DeliveryReceipts.
From Stdlib Require Import Sorting.Sorted.
From stdpp Require Import base option list strings gmap relations pretty.

Open Scope string_scope.
Open Scope Z_scope.

(** ** The programs of a process *)

Section Process.
Context {H : Handle} {L : HandleLaws H} (E : DeliveryEnv) (o : Orchestrator).

Definition done_with {A} (m : M A) : M unit := _ ← m; mret tt.

(** What a worker process runs for the threads it owns. *)
Inductive program : M unit -> Prop :=
  | p_deliver org s th : program (DeliverThreadInbox E o org s th)
  | p_start session th sandbox seeds : program (done_with (startThreadRuntimeControl E o session th sandbox seeds))
  | p_admit c : program (done_with (admitSeedWithoutPhase E c))
  | p_attach c h : program (Attach E c h)
  | p_detach : program (Detach E)
  | p_heartbeat c since : program (done_with (heartbeatOnce E c since))
  | p_close c status reason err : program (Close E o c status reason err)
  | p_keep_running org s : program (keepSessionRunningIfSiblingRuntimesActive E org s)
  | p_new_phase org s th turn rt tok trigger : program (done_with (newActivityPhaseExecution E o org s th turn rt tok trigger))
  | p_new_seed org s th turn rt tok ids : program (done_with (newSeedActivityPhaseExecution E org s th turn rt tok ids))
  | p_complete status reason : program (complete E status reason)
  | p_persist persist reason : (forall db d, persist db = Ok d -> beside_plane db d) -> program (persistAndComplete E persist reason)
  | p_persist_result status summary phase reason : program (persistSessionResultAndComplete E o status summary phase reason)
  | p_persist_status status phase reason : program (persistSessionStatusAndComplete E o status phase reason)
  | p_persist_complete turn summary agent key phase reason : program (persistTurnCompleteAndComplete E o turn summary agent key phase reason)
  | p_reconcile_all before n : program (done_with (ReconcileAllStrandedPhases E before n))
  | p_reconcile_org org before n : program (done_with (ReconcileStrandedPhases E org before n))
  | p_abandoned before n : program (done_with (ReconcileAbandonedInboxBatches E before n)).

(** One after the other, whether or not they fail. *)
Definition process (ms : list (M unit)) (w : World) : World := foldl (fun w m => (m w).1) w ms.

Lemma steady_done {A} (m : M A) : steady m -> steady (done_with m).
Proof. intros Hm. apply steady_bind; [done|intros; apply steady_ret]. Qed.

Lemma steady_program m : orderly E -> program m -> steady m.
Proof.
  intros HE []; try apply steady_done; auto using steady_deliver, steady_start, steady_admit, steady_attach, steady_heartbeat,
    steady_close, steady_keep_running, steady_new_phase, steady_new_seed, steady_complete, steady_persist, steady_persist_result,
    steady_persist_status, steady_persist_complete, steady_reconcile_all,
    steady_reconcile_org, steady_abandoned.
  by apply steady_local.
Qed.

Lemma process_moves ms w : orderly E -> Forall program ms -> moves (w_site w) (w_site (process ms w)).
Proof.
  intros HE. revert w. induction ms as [|m ms IH]; intros w Hms; [apply rtc_refl|]. inversion Hms as [|? ? Hm Hms']; subst.
  simpl. etrans; [by apply steady_program|by apply IH].
Qed.

(** C13: a message reaches a provider at most once: whatever programs a process
    runs, whatever fails in them and whatever the other processes do between
    their steps, the writes that may have reached an agent and the admissions
    as a seed are, for each entry, at most one more than the times an operator
    reopened it. *)
Theorem input_is_handed_over_at_most_once w ms e : orderly E -> moves empty_site (w_site w) -> Forall program ms ->
  let s := w_site (process ms w) in
  In e (thread_inbox_entries (s_db s)) ->
  (occurrences (e_id e) (s_sent s) <= 1 + occurrences (e_id e) (s_retried s))%nat.
Proof.
  intros HE Hw Hms s Hin. assert (ledger_ok s) as Hok.
  { apply (moves_ok empty_site); [apply empty_site_ok|]. etrans; [exact Hw|by apply process_moves]. }
  pose proof (lo_bound _ Hok e Hin). destruct (attempted e); lia.
Qed.

(** C14: a delivery run that returns without an error has acknowledged its
    writes: every message the agent took is applied in the database, and the
    messages were written in the order of the thread, none twice. *)
Theorem successful_delivery_is_acknowledged org session th w w' : orderly E -> turns_of_thread E org th ->
  moves empty_site (w_site w) -> of_thread org th (w_execution w) -> w_written w = [] ->
  DeliverThreadInbox E o org session th w = (w', inr tt) ->
  (forall e, In (e, true) (w_written w') -> applied (s_db (w_site w')) org th (e_sequence_no e))
  /\ StronglySorted Z.lt (map (fun p => e_sequence_no p.1) (w_written w')).
Proof.
  intros HE HT Hw Hx Hn Hd. eapply (deliver_spec E o HE org th HT session w w' tt); [|done|exact Hd].
  split; [by apply (moves_ok empty_site); [apply empty_site_ok|]|done].
Qed.
End Process.

(** ** A concrete run: a message for a turn that a seed started *)

Definition ask_append : AppendThreadInboxEntryParams :=
  MkAppendThreadInboxEntryParams "s1" "th1" 8 "" ThreadInboxEntryTypeUserMessage {[ "content" := jstr "also run the tests" ]}.
Definition db_asked : DB := (ok (empty_db, new_entry t0 "" "" 0 append1) (AppendForMessage t0 "e2" "org1" ask_append db_seeded)).1.
Definition site_asked : Site := foldl (fun s db => plane_write db s) empty_site [db_thread; db_accepted; db_started; db_seeded; db_asked].

Lemma site_asked_moves : moves empty_site site_asked.
Proof.
  assert (forall s db, automatic_step (s_db s) db -> moves s (plane_write db s)) as Hone.
  { intros s db Ha. apply rtc_once. exists 0%nat. by apply mv_plane. }
  unfold site_asked. simpl foldl.
  etrans; [apply (Hone _ db_thread), auto_environment; by repeat split|].
  etrans; [apply (Hone _ db_accepted), auto_inbox, (op_append _ t0 "e1" "org1" append1 _ (new_entry t0 "e1" "org1" 1 append1)); by vm_compute|].
  etrans; [apply (Hone _ db_started), auto_runtime, (op_create_runtime _ true t0 "rt1" "org1" runtime_params _
    (new_runtime t0 "rt1" "org1" runtime_params)); by vm_compute|].
  etrans; [apply (Hone _ db_seeded), auto_phase, (op_start_seed _ t0 t0 (fun _ => "e9") "b1" "p1" "org1" "s1" "th1" 1
    "rt1" "lease1" [7] t0 _ (result_of (StartSeedPhase t0 t0 (fun _ => "e9") "b1" "p1" "org1" "s1" "th1" 1 "rt1" "lease1" [7] t0 db_started)
    (no_phase, None))); by vm_compute|].
  apply (Hone _ db_asked), auto_inbox, (op_append _ t0 "e2" "org1" ask_append _ (new_entry t0 "e2" "org1" 2 ask_append)). by vm_compute.
Qed.

Definition agent : Handle := docker_handle (fun _ => WriteDone).
Lemma agent_laws : HandleLaws agent.
Proof. by apply docker_handle_laws. Qed.

(** Nobody else acts, and nothing fails. *)
Definition calm_env : @DeliveryEnv agent :=
  MkDeliveryEnv 0 (fun _ s => s) (fun _ x => x) (fun _ r => r) (fun _ => Answered) (fun _ => t0) (fun _ => t0) (fun _ => t0)
    (fun n => "u" +:+ pretty n) (fun _ _ => false) (fun _ => true) (fun _ => false).
(** The reply of the first acknowledgment is lost. *)
Definition lossy_env : @DeliveryEnv agent :=
  MkDeliveryEnv 0 (fun _ s => s) (fun _ x => x) (fun _ r => r) (fun n => if bool_decide (n = 10)%nat then Unheard else Answered) (fun _ => t0) (fun _ => t0)
    (fun _ => t0) (fun n => "u" +:+ pretty n) (fun _ _ => false) (fun _ => true) (fun _ => false).
Definition worker1 : Orchestrator := MkOrchestrator "w1" true true (fun _ => None).
Definition seed_execution : activityPhaseExecution :=
  MkExecution "org1" "s1" "th1" 1 (Some "rt1") (Some "lease1") (head (session_activity_phases db_seeded)) false.
Definition control1 : threadRuntimeControl :=
  MkControl (default (new_runtime t0 "" "" runtime_params) (head (thread_runtimes db_asked))) (60 * second) [].
Definition world0 : @World agent := MkWorld 0 site_asked ∅ (Some seed_execution) (Some None) [].
Definition world1 : @World agent := (Attach (H:=agent) calm_env control1 (MkDockerHandle "h1" true) world0).1.
Definition world2 : @World agent := (DeliverThreadInbox (H:=agent) calm_env worker1 "org1" "s1" "th1" world1).1.

(** The message is written once and its phase runs. *)
Example delivered_run :
  (map (fun p => (e_id p.1, p.2)) (w_written world2), s_sent (w_site world2), s_marks (w_site world2),
   map (fun e => (e_id e, e_delivery_state e, e_applied_at e)) (thread_inbox_entries (s_db (w_site world2))),
   map (fun p => (ph_status p, ph_boundary_reason p)) (session_activity_phases (s_db (w_site world2))),
   map_to_list (w_confirmed world2))
  = ([("e2", true)], ["e2"; "e1"], [],
     [("e1", ThreadInboxDeliveryStateAcked, Some t0); ("e2", ThreadInboxDeliveryStateAcked, Some t0)],
     [(ActivityPhaseStatusCompleted, Some ActivityPhaseBoundarySteered); (ActivityPhaseStatusRunning, None)], []).
Proof. by vm_compute. Qed.

(** Attached, fed twice and closed, and the reply of an acknowledgment is lost. *)
Definition lossy_programs : list (@M agent unit) :=
  [Attach (H:=agent) lossy_env control1 (MkDockerHandle "h1" true);
   DeliverThreadInbox (H:=agent) lossy_env worker1 "org1" "s1" "th1";
   DeliverThreadInbox (H:=agent) lossy_env worker1 "org1" "s1" "th1";
   Close (H:=agent) lossy_env worker1 control1 ThreadRuntimeStatusClosed "" ""].
Definition world_lossy : @World agent := process lossy_programs world0.

Lemma lossy_orderly : orderly lossy_env.
Proof. intros n s. apply rtc_refl. Qed.
Definition asked_entry : ThreadInboxEntry := Eval vm_compute in
  default (new_entry t0 "" "" 0 append1) (thread_inbox_entries (s_db (w_site world_lossy)) !! 1%nat).

(** The message was written once, and the seed admitted once. *)
Lemma input_is_handed_over_at_most_once_witness :
  s_sent (w_site world_lossy) = ["e2"; "e1"] /\ e_id asked_entry = "e2"
  /\ (occurrences "e2" (s_sent (w_site world_lossy)) <= 1 + occurrences "e2" (s_retried (w_site world_lossy)))%nat.
Proof.
  split; [by vm_compute|]. split; [done|].
  refine (input_is_handed_over_at_most_once (H:=agent) (L:=agent_laws) lossy_env worker1 world0 lossy_programs asked_entry _ _ _ _).
  - apply lossy_orderly.
  - apply site_asked_moves.
  - repeat apply List.Forall_cons; [apply p_attach|apply p_deliver|apply p_deliver|apply p_close|apply List.Forall_nil].
  - vm_compute. auto.
Defined.

Definition delivered_entry : ThreadInboxEntry := Eval vm_compute in
  from_option fst (new_entry t0 "" "" 0 append1) (w_written world2 !! 0%nat).

Lemma world1_moves : moves empty_site (w_site world1).
Proof.
  etrans; [apply site_asked_moves|]. apply (steady_attach (H:=agent) calm_env (fun n s => rtc_refl _ _) control1 (MkDockerHandle "h1" true) world0).
Qed.

Lemma successful_delivery_is_acknowledged_witness : applied (s_db (w_site world2)) "org1" "th1" 2.
Proof.
  refine (proj1 (successful_delivery_is_acknowledged (H:=agent) (L:=agent_laws) calm_env worker1 "org1" "s1" "th1" world1 world2
    _ _ _ _ _ _) delivered_entry _).
  - intros n s. apply rtc_refl.
  - by intros n x.
  - apply world1_moves.
  - vm_compute. eauto 10.
  - by vm_compute.
  - by vm_compute.
  - vm_compute. auto.
Defined.
