(* ===== verification/RateLimitStore.v ===== *)
(** * Installation-wide GitHub cooldown records

    internal/cache/github_rate_limits.go keeps one Redis hash per GitHub App
    installation and changes it with Lua scripts;
    internal/services/github/ratelimit/controller.go keeps the same record in
    a bounded process-local map, [localStore], for the times Redis cannot be
    reached.  Both are modelled here: the scripts statement by statement over
    the hash, the local store over its map. *)

From S2P Require Import Prelude GoRuntime.
From stdpp Require Import base option list strings gmap.

Open Scope string_scope.
Open Scope Z_scope.

(** ** The record *)

Record GitHubRateLimitState := MkState {
  Generation : Z;
  EpisodeCount : Z;
  BlockedUntil : time;
  Kind : string;
  Resource : string;
  Reason : string;
  ProbeOwner : string;
  ProbeToken : string;
  ProbeGeneration : Z;
  ProbeUntil : time
}.
#[export] Instance eta_state : Eta GitHubRateLimitState := fun s =>
  MkState (Generation s) (EpisodeCount s) (BlockedUntil s) (Kind s) (Resource s) (Reason s)
    (ProbeOwner s) (ProbeToken s) (ProbeGeneration s) (ProbeUntil s).
#[export] Instance state_eq_dec : EqDecision GitHubRateLimitState.
Proof. solve_decision. Defined.

(** [cache.GitHubRateLimitState{}]. *)
Definition zero_state : GitHubRateLimitState := MkState 0 0 zero_time "" "" "" "" "" 0 zero_time.

Definition clear_probe (s : GitHubRateLimitState) : GitHubRateLimitState :=
  s <| ProbeOwner := "" |> <| ProbeToken := "" |> <| ProbeGeneration := 0 |> <| ProbeUntil := zero_time |>.

Record GitHubRateLimitObservation := MkObservation {
  o_Now : time;
  o_BlockedUntil : time;
  o_Kind : string;
  o_Resource : string;
  o_Reason : string;
  o_ProbeGeneration : Z;
  o_ProbeToken : string;
  o_TTL : duration;
  o_ProviderDeadline : bool
}.

Definition recoveryStateTTL : duration := 2 * hour + 10 * minute.

Definition stateTTL (state : GitHubRateLimitState) (now : time) : duration :=
  let retainedUntil := if After (ProbeUntil state) (BlockedUntil state) then ProbeUntil state else BlockedUntil state in
  let minimumTTL := dur_add (Sub retainedUntil now) minute in
  if recoveryStateTTL <? minimumTTL then minimumTTL else recoveryStateTTL.

(** ** The process-local store *)

Module Local.

Record localEntry := MkEntry { state : GitHubRateLimitState; expiresAt : time }.
(** A missing map key reads as the zero entry. *)
Definition zero_entry : localEntry := MkEntry zero_state zero_time.

Record localStore := MkStore { limit : Z; entries : gmap string localEntry }.

Definition newLocalStore (limit : Z) : localStore := MkStore limit ∅.

Definition prune (now : time) (s : localStore) : localStore :=
  MkStore (limit s) (filter (fun kv : string * localEntry => After (expiresAt kv.2) now = true) (entries s)).

Definition entry_of (s : localStore) (key : string) : localEntry := default zero_entry (entries s !! key).

(** The least key in byte order, [sort.Strings(keys)[0]]. *)
Definition least_key (m : gmap string localEntry) : option string :=
  foldr (fun k acc => match acc with
    | None => Some k
    | Some k' => Some (if String.leb k k' then k else k')
    end) None (map fst (map_to_list m)).

(** A new key evicts the least one when the store is full. *)
Definition put (key : string) (entry : localEntry) (s : localStore) : localStore :=
  let es := match entries s !! key with
    | Some _ => entries s
    | None => if limit s <=? Z.of_nat (size (entries s))
        then match least_key (entries s) with Some k => delete k (entries s) | None => entries s end
        else entries s
    end in
  MkStore (limit s) (<[key := entry]> es).

Definition get (key : string) (now : time) (s : localStore) : localStore * GitHubRateLimitState :=
  let s := prune now s in (s, state (entry_of s key)).

(** A read of Redis that started before a concurrent claim can return after
    it: equal cooldown evidence with absent or older authority keeps the live
    local claim. *)
Definition keeps_claim (local st : GitHubRateLimitState) (now : time) : bool :=
  (Generation st =? Generation local) && (BlockedUntil st =? BlockedUntil local)
  && negb (IsZero (BlockedUntil st)) && (ProbeToken local <>? "") && (ProbeOwner local <>? "")
  && (ProbeGeneration local =? Generation st) && After (ProbeUntil local) now
  && ((ProbeToken st ==? "") || (ProbeOwner st ==? "") || negb (ProbeGeneration st =? Generation st)
      || Before (ProbeUntil st) (ProbeUntil local)).

Definition remember (key : string) (st : GitHubRateLimitState) (now : time) (s : localStore)
    : localStore * GitHubRateLimitState :=
  let s := prune now s in
  let entry := entry_of s key in
  let local := state entry in
  if (Generation st =? 0) || (Generation st <? Generation local)
     || ((Generation local =? Generation st) && negb (IsZero (BlockedUntil st))
         && After (BlockedUntil local) (BlockedUntil st))
  then (s, local)
  else
    let st := if keeps_claim local st now then
        st <| ProbeOwner := ProbeOwner local |> <| ProbeToken := ProbeToken local |>
           <| ProbeGeneration := ProbeGeneration local |> <| ProbeUntil := ProbeUntil local |>
      else st in
    let expires := now + stateTTL st now in
    let expires := if (Generation st =? Generation local) && IsZero (BlockedUntil st) && IsZero (BlockedUntil local)
      then expiresAt entry else expires in
    let expires := if negb (IsZero (BlockedUntil st)) && After (expiresAt entry) expires
      then expiresAt entry else expires in
    (put key (MkEntry st expires) s, st).

(** The observation comes from a probe whose authority is gone. *)
Definition fenced (o : GitHubRateLimitObservation) (st : GitHubRateLimitState) : bool :=
  (0 <? o_ProbeGeneration o)
  && (negb (o_ProbeGeneration o =? Generation st) || negb (o_ProbeGeneration o =? ProbeGeneration st)
      || (o_ProbeToken o ==? "") || (o_ProbeToken o <>? ProbeToken st)).

(** The record after an observation, whether it opened an episode and whether
    it was applied. *)
Definition observe_state (o : GitHubRateLimitObservation) (st : GitHubRateLimitState)
    : GitHubRateLimitState * bool * bool :=
  let fenced := fenced o st in
  if fenced && (negb (o_ProviderDeadline o) || IsZero (BlockedUntil st)
                || negb (After (o_BlockedUntil o) (BlockedUntil st)) || negb (After (o_BlockedUntil o) (o_Now o)))
  then (st, false, false)
  else
    let opened := negb fenced && ((0 <? o_ProbeGeneration o) || negb (After (BlockedUntil st) (o_Now o))) in
    let st := if opened then st <| Generation := Generation st + 1 |> <| EpisodeCount := EpisodeCount st + 1 |> else st in
    let st := if fenced || opened then clear_probe st else st in
    let st := if After (o_BlockedUntil o) (BlockedUntil st)
      then st <| BlockedUntil := o_BlockedUntil o |> <| Kind := o_Kind o |> <| Resource := o_Resource o |>
              <| Reason := o_Reason o |>
      else st in
    (st, opened, true).

Definition observe (key : string) (o : GitHubRateLimitObservation) (s : localStore)
    : localStore * (GitHubRateLimitState * bool * bool) :=
  let s := prune (o_Now o) s in
  let entry := entry_of s key in
  let r := observe_state o (state entry) in
  if negb r.2 then (s, r)
  else
    let st := r.1.1 in
    let expires := o_Now o + o_TTL o in
    let minimumExpiry := BlockedUntil st + minute in
    let expires := if After minimumExpiry expires then minimumExpiry else expires in
    let expires := if After (expiresAt entry) expires then expiresAt entry else expires in
    (put key (MkEntry st expires) s, r).

Definition claim_state (owner token : string) (now leaseUntil : time) (st : GitHubRateLimitState)
    : GitHubRateLimitState * bool :=
  if (Generation st =? 0) || IsZero (BlockedUntil st) || After (BlockedUntil st) now || After (ProbeUntil st) now
  then (st, false)
  else (st <| ProbeOwner := owner |> <| ProbeToken := token |> <| ProbeGeneration := Generation st |>
           <| ProbeUntil := leaseUntil |>, true).

Definition claim (key owner token : string) (now leaseUntil : time) (s : localStore)
    : localStore * (GitHubRateLimitState * bool) :=
  let s := prune now s in
  let r := claim_state owner token now leaseUntil (state (entry_of s key)) in
  if r.2 then (put key (MkEntry r.1 (now + recoveryStateTTL)) s, r) else (s, r).

Definition holds_probe (owner token : string) (generation : Z) (st : GitHubRateLimitState) : bool :=
  (Generation st =? generation) && (ProbeGeneration st =? generation)
  && (ProbeOwner st ==? owner) && (ProbeToken st ==? token).

Definition complete_state (generation : Z) (success : bool) (st : GitHubRateLimitState) : GitHubRateLimitState :=
  if success then zero_state <| Generation := generation |> <| EpisodeCount := EpisodeCount st |>
  else clear_probe st <| Generation := Generation st + 1 |>.

(** [complete] does not prune: the retained claim decides. *)
Definition complete (key owner token : string) (generation : Z) (success : bool) (now : time) (s : localStore)
    : localStore * bool :=
  match entries s !! key with
  | None => (s, false)
  | Some entry =>
      if holds_probe owner token generation (state entry)
      then (MkStore (limit s) (<[key := MkEntry (complete_state generation success (state entry)) (now + recoveryStateTTL)]> (entries s)), true)
      else (s, false)
  end.

End Local.

(** ** The Redis hash and its scripts *)

Module Redis.

(** The fields of the hash; numbers are the decimal integers the scripts
    write. *)
Record Hash := MkHash {
  generation : option Z;
  episode_count : option Z;
  blocked_until : option Z;
  kind : option string;
  resource : option string;
  reason : option string;
  probe_owner : option string;
  probe_token : option string;
  probe_generation : option Z;
  probe_until : option Z
}.
#[global] Instance eta_hash : Eta Hash := fun h =>
  MkHash (generation h) (episode_count h) (blocked_until h) (kind h) (resource h) (reason h)
    (probe_owner h) (probe_token h) (probe_generation h) (probe_until h).

Definition no_hash : Hash := MkHash None None None None None None None None None None.

(** A key with its expiry in server milliseconds; [None] never expires. *)
Record Key := MkKey { hash : Hash; expire_at : option Z }.
Definition no_key : Key := MkKey no_hash None.

(** An expired key reads as missing. *)
Definition live (clock : Z) (k : Key) : Key :=
  if match expire_at k with Some e => e <=? clock | None => false end then no_key else k.

(** [PTTL]: what is left of the expiry, negative without one. *)
Definition pttl (clock : Z) (k : Key) : Z :=
  match expire_at k with Some e => e - clock | None => -1 end.

(** [tonumber(HGET f or '0')] and [HGET f or '']. *)
Definition num (f : option Z) : Z := default 0 f.
Definition str (f : option string) : string := default "" f.

Definition hdel_probe (h : Hash) : Hash :=
  h <| probe_owner := None |> <| probe_token := None |> <| probe_generation := None |> <| probe_until := None |>.

Definition hset_label (kd rs rn : string) (h : Hash) : Hash :=
  h <| kind := Some kd |> <| resource := Some rs |> <| reason := Some rn |>.

Definition fenced (observed_generation : Z) (token : string) (h : Hash) : bool :=
  (0 <? observed_generation)
  && (negb (observed_generation =? num (generation h)) || negb (num (probe_generation h) =? observed_generation)
      || (str (probe_token h) <>? token)).

(** githubRateLimitObserveScript: the hash, the increment and whether the
    observation was applied; the key is left untouched when it is not. *)
Definition observe_script (clock now deadline : Z) (kd rs rn : string) (observed_generation : Z) (token : string)
    (ttl : Z) (provider : bool) (k : Key) : Key * (bool * bool) :=
  let k := live clock k in
  let h := hash k in
  let gen := num (generation h) in
  let episodes := num (episode_count h) in
  let blocked := num (blocked_until h) in
  let fenced := fenced observed_generation token h in
  if fenced && (negb provider || (blocked =? 0) || (deadline <=? blocked) || (deadline <=? now))
  then (k, (false, false))
  else
    let increment := negb fenced && ((0 <? observed_generation) || (blocked <=? now)) in
    let gen := if increment then gen + 1 else gen in
    let episodes := if increment then episodes + 1 else episodes in
    let h := if fenced || increment then hdel_probe h else h in
    let h := if blocked <? deadline then hset_label kd rs rn h else h in
    let blocked := if blocked <? deadline then deadline else blocked in
    let h := h <| generation := Some gen |> <| episode_count := Some episodes |> <| blocked_until := Some blocked |> in
    let minimum_ttl := blocked - now + 60000 in
    let ttl := if ttl <? minimum_ttl then minimum_ttl else ttl in
    let ttl := if ttl <? pttl clock k then pttl clock k else ttl in
    (MkKey h (Some (clock + ttl)), (increment, true)).

(** githubRateLimitClaimProbeScript. *)
Definition claim_script (clock now : Z) (owner token : string) (lease_until ttl : Z) (k : Key) : Key * bool :=
  let k := live clock k in
  let h := hash k in
  let gen := num (generation h) in
  let blocked := num (blocked_until h) in
  if (gen =? 0) || (blocked =? 0) || (now <? blocked) || (now <? num (probe_until h)) then (k, false)
  else (MkKey (h <| probe_owner := Some owner |> <| probe_token := Some token |>
                 <| probe_generation := Some gen |> <| probe_until := Some lease_until |>)
              (Some (clock + ttl)), true).

(** githubRateLimitCompleteProbeScript. *)
Definition complete_script (clock gen : Z) (owner token : string) (success : bool) (ttl : Z) (k : Key) : Key * bool :=
  let k := live clock k in
  let h := hash k in
  if negb (num (generation h) =? gen) || negb (num (probe_generation h) =? gen)
     || (str (probe_owner h) <>? owner) || (str (probe_token h) <>? token)
  then (k, false)
  else
    let h := if success
      then h <| blocked_until := Some 0 |> <| kind := None |> <| resource := None |> <| reason := None |>
      else h <| generation := Some (num (generation h) + 1) |> in
    (MkKey (hdel_probe h) (Some (clock + ttl)), true).

(** githubRateLimitReconcileScript. *)
Definition reconcile_script (clock now local_generation local_episodes local_blocked : Z) (kd rs rn owner local_probe_token : string)
    (local_probe_generation local_probe_until ttl : Z) (k : Key) : Key * bool :=
  let k := live clock k in
  let h := hash k in
  let gen := num (generation h) in
  let blocked := num (blocked_until h) in
  let token := str (probe_token h) in
  let until := num (probe_until h) in
  let set_local h := h <| probe_owner := Some owner |> <| probe_token := Some local_probe_token |>
    <| probe_generation := Some local_probe_generation |> <| probe_until := Some local_probe_until |> in
  let expire h blocked until :=
    let retained_until := if blocked <? until then until else blocked in
    let minimum_ttl := retained_until - now + 60000 in
    let ttl := if ttl <? minimum_ttl then minimum_ttl else ttl in
    let ttl := if ttl <? pttl clock k then pttl clock k else ttl in
    (MkKey h (Some (clock + ttl)), true) in
  if local_generation <? gen then
    if (blocked =? 0) || (local_blocked <=? blocked) || (local_blocked <=? now) then (k, false)
    else expire (hdel_probe (hset_label kd rs rn (h <| blocked_until := Some local_blocked |>))) local_blocked 0
  else if local_generation =? gen then
    if (gen =? 0) || (blocked =? 0) then (k, false)
    else
      let stronger := blocked <? local_blocked in
      let h := if stronger then hset_label kd rs rn (h <| blocked_until := Some local_blocked |>) else h in
      let blocked := if stronger then local_blocked else blocked in
      let fenced := stronger && (now <? blocked) in
      let h := if fenced then hdel_probe h else h in
      let token := if fenced then "" else token in
      let until := if fenced then 0 else until in
      let more := num (episode_count h) <? local_episodes in
      let h := if more then h <| episode_count := Some local_episodes |> else h in
      let restore := negb fenced && (token ==? "") && (local_probe_token <>? "") && (local_probe_generation =? gen) in
      let h := if restore then set_local h else h in
      if stronger || more || restore then expire h blocked until else (k, false)
  else
    let remote_episodes := num (episode_count h) in
    let episodes := if local_episodes <? remote_episodes then remote_episodes else local_episodes in
    let keep := local_blocked <? blocked in
    let h' := hset_label (if keep then str (kind h) else kd) (if keep then str (resource h) else rs)
                (if keep then str (reason h) else rn) h in
    let local_blocked := if keep then blocked else local_blocked in
    let h' := h' <| generation := Some local_generation |> <| episode_count := Some episodes |>
                 <| blocked_until := Some local_blocked |> in
    let h' := if (token <>? "") && (now <? until) then h'
      else if (local_probe_token <>? "") && (local_probe_generation =? local_generation) then set_local h'
      else hdel_probe h' in
    expire h' local_blocked until.

(** millisResult. *)
Definition millisResult (ms : Z) : time := if ms <=? 0 then zero_time else of_millis ms.

(** decodeGitHubRateLimitState and decodeGitHubRateLimitResult agree on a
    well-formed hash. *)
Definition decode (h : Hash) : GitHubRateLimitState :=
  MkState (num (generation h)) (num (episode_count h)) (millisResult (num (blocked_until h)))
    (str (kind h)) (str (resource h)) (str (reason h)) (str (probe_owner h)) (str (probe_token h))
    (num (probe_generation h)) (millisResult (num (probe_until h))).

(** The methods of [cache.Client]: instants go out as milliseconds and come
    back through [decode]. *)
Definition GetGitHubRateLimitState (clock : Z) (k : Key) : GitHubRateLimitState := decode (hash (live clock k)).

Definition ObserveGitHubRateLimit (clock : Z) (o : GitHubRateLimitObservation) (k : Key)
    : Key * (GitHubRateLimitState * bool * bool) :=
  let ttl := o_TTL o in
  let minimumTTL := dur_add (Sub (o_BlockedUntil o) (o_Now o)) minute in
  let ttl := if ttl <? minimumTTL then minimumTTL else ttl in
  let ttl := if ttl <=? 0 then minute else ttl in
  let '(k', (increment, applied)) := observe_script clock (UnixMilli (o_Now o)) (UnixMilli (o_BlockedUntil o))
    (o_Kind o) (o_Resource o) (o_Reason o) (o_ProbeGeneration o) (o_ProbeToken o) (Milliseconds ttl)
    (o_ProviderDeadline o) k in
  (k', (decode (hash k'), applied && increment, applied)).

Definition ClaimGitHubRateLimitProbe (clock : Z) (owner token : string) (now leaseUntil : time) (ttl : duration) (k : Key)
    : Key * (GitHubRateLimitState * bool) :=
  let ttl := if ttl <=? 0 then minute else ttl in
  let '(k', claimed) := claim_script clock (UnixMilli now) owner token (UnixMilli leaseUntil) (Milliseconds ttl) k in
  (k', (decode (hash k'), claimed)).

(** The script call of [ReconcileGitHubRateLimitState]; the read that follows
    it is a command of its own. *)
Definition reconcile (clock : Z) (st : GitHubRateLimitState) (now : time) (ttl : duration) (k : Key) : Key * bool :=
  let ttl := if ttl <=? 0 then minute else ttl in
  reconcile_script clock (UnixMilli now) (Generation st) (EpisodeCount st)
    (UnixMilli (BlockedUntil st)) (Kind st) (Resource st) (Reason st) (ProbeOwner st) (ProbeToken st)
    (ProbeGeneration st) (UnixMilli (ProbeUntil st)) (Milliseconds ttl) k.

Definition CompleteGitHubRateLimitProbe (clock : Z) (owner token : string) (gen : Z) (success : bool) (ttl : duration) (k : Key)
    : Key * bool :=
  let ttl := if ttl <=? 0 then minute else ttl in
  complete_script clock gen owner token success (Milliseconds ttl) k.

End Redis.
