(* ===== verification/Classifier.v ===== *)
(** * Throttle classification of GitHub responses

    internal/services/github/ratelimit/classifier.go: which responses are
    throttles, of which kind, and the instant the provider asks to wait for.
    [ParseTime] stands for [http.ParseTime], the HTTP date syntaxes. *)

From S2P Require Import Prelude GoRuntime.
From stdpp Require Import base option list strings gmap.
From Stdlib Require Import Ascii.

Open Scope string_scope.
Open Scope Z_scope.

(** ** Headers *)

(** [http.Header]: canonical keys to their values; [None] is the nil map. *)
Abbreviation Header := (gmap string (list string)) (only parsing).

(** [textproto.CanonicalMIMEHeaderKey] on a token. *)
Fixpoint canonical (upper : bool) (s : list ascii) : list ascii :=
  match s with
  | a :: s' => (if upper then to_upper a else to_lower a) :: canonical (a =? "-")%char s'
  | [] => []
  end.
Definition CanonicalKey (k : string) : string :=
  String.string_of_list_ascii (canonical true (String.list_ascii_of_string k)).

(** [header.Get]: the first value, or the empty string. *)
Definition Get (h : Header) (k : string) : string :=
  match h !! CanonicalKey k with Some (v :: _) => v | _ => "" end.

Definition headerInt64 (header : option Header) (name : string) : option Z :=
  match header with
  | None => None
  | Some h => ParseInt (TrimSpace (Get h name))
  end.

(** ** The classification *)

Definition KindPrimary : string := "primary".
Definition KindSecondary : string := "secondary".
Definition KindUnknown : string := "unknown".
Definition Kind_Validate (k : string) : bool :=
  (k ==? KindPrimary) || (k ==? KindSecondary) || (k ==? KindUnknown).

Record GraphQLError := MkGraphQLError { g_Message : string; g_Type : string }.

Record ResponseInput := MkResponseInput {
  StatusCode : Z;
  i_Header : option Header;
  Message : string;
  GraphQLErrors : list GraphQLError;
  Now : time
}.

Record Classification := MkClassification {
  RateLimited : bool;
  c_Kind : string;
  c_Resource : string;
  c_Reason : string;
  RetryAt : option time
}.
(** [Classification{}]. *)
Definition unclassified : Classification := MkClassification false "" "" "" None.

Definition StatusNotModified := 304.
Definition StatusForbidden := 403.
Definition StatusRequestTimeout := 408.
Definition StatusTooEarly := 425.
Definition StatusTooManyRequests := 429.
Definition StatusInternalServerError := 500.

(** Statuses that can prove provider recovery (controller.go). *)
Definition IsDefinitiveResponse (status : Z) : bool :=
  if (status =? StatusRequestTimeout) || (status =? StatusTooEarly) || (status =? StatusTooManyRequests) then false
  else ((200 <=? status) && (status <? 300)) || (status =? StatusNotModified) || ((400 <=? status) && (status <? 500)).

Definition bounded (value : string) (limit : nat) : string := String.substring 0 limit (TrimSpace value).

Fixpoint firstNonEmpty (values : list string) : string :=
  match values with
  | v :: vs => if TrimSpace v ==? "" then firstNonEmpty vs else TrimSpace v
  | [] => ""
  end.

Definition throttle_message (message : string) : bool :=
  Contains message "rate limit" || Contains message "abuse detection".

Fixpoint graphqlThrottle (items : list GraphQLError) : bool * string :=
  match items with
  | [] => (false, "")
  | item :: items =>
      let errorType := ToUpper (TrimSpace (g_Type item)) in
      if (errorType ==? "RATE_LIMITED") || (errorType ==? "RATE_LIMIT")
         || throttle_message (ToLower (TrimSpace (g_Message item)))
      then (true, g_Message item) else graphqlThrottle items
  end.

Fixpoint strongest_from (strongest : option time) (deadlines : list (option time)) : option time :=
  match deadlines with
  | [] => strongest
  | None :: ds => strongest_from strongest ds
  | Some d :: ds =>
      strongest_from (match strongest with
        | None => Some d
        | Some s => if After d s then Some d else Some s
        end) ds
  end.
Definition strongestDeadline : list (option time) -> option time := strongest_from None.

(** A reset in the past means now. *)
Definition resetDeadline (header : option Header) (now : time) : option time :=
  match headerInt64 header "X-RateLimit-Reset" with
  | None => None
  | Some reset => let deadline := reset * second in Some (if Before deadline now then now else deadline)
  end.

Section Classify.
Variable ParseTime : string -> option time.

(** Retry-After holds whole seconds or an HTTP date; a date in the past means
    now, and seconds are multiplied at the width of [Duration]. *)
Definition retryAfterDeadline (header : option Header) (now : time) : option time :=
  match header with
  | None => None
  | Some h =>
      let raw := TrimSpace (Get h "Retry-After") in
      if raw ==? "" then None else
      match ParseInt raw with
      | Some seconds =>
          if 0 <=? seconds then Some (now + dur_mul seconds second)
          else match ParseTime raw with
               | Some d => Some (if Before d now then now else d)
               | None => None
               end
      | None => match ParseTime raw with
                | Some d => Some (if Before d now then now else d)
                | None => None
                end
      end
  end.

Definition ClassifyResponse (wall : time) (input : ResponseInput) : Classification :=
  let now := if IsZero (Now input) then wall else Now input in
  let header := i_Header input in
  let remaining := headerInt64 header "X-RateLimit-Remaining" in
  let resource := match header with Some h => bounded (TrimSpace (Get h "X-RateLimit-Resource")) 64 | None => "" end in
  let '(structuredThrottle, structuredReason) := graphqlThrottle (GraphQLErrors input) in
  let message := ToLower (TrimSpace (Message input)) in
  let restThrottle := throttle_message message in
  let throttleStatus := (StatusCode input =? StatusForbidden) || (StatusCode input =? StatusTooManyRequests) in
  if match remaining with Some r => r =? 0 | None => false end
     && (throttleStatus || IsDefinitiveResponse (StatusCode input) || structuredThrottle)
  then MkClassification true KindPrimary resource
         (bounded (firstNonEmpty [structuredReason; Message input; "primary quota exhausted"]) 240)
         (strongestDeadline [resetDeadline header now; retryAfterDeadline header now])
  else match (if throttleStatus || structuredThrottle then retryAfterDeadline header now else None) with
  | Some retryAt =>
      MkClassification true KindSecondary resource
        (bounded (firstNonEmpty [structuredReason; Message input; "secondary throttle"]) 240) (Some retryAt)
  | None =>
      if StatusCode input =? StatusTooManyRequests
      then MkClassification true KindSecondary resource (bounded (firstNonEmpty [Message input; "HTTP 429"]) 240) None
      else if structuredThrottle
      then MkClassification true KindUnknown resource (bounded structuredReason 240) None
      else if (StatusCode input =? StatusForbidden) && restThrottle
      then MkClassification true
             (if Contains message "secondary rate limit" || Contains message "abuse detection" then KindSecondary else KindUnknown)
             resource (bounded (Message input) 240) None
      else unclassified
  end.

(** A timing hint even for a retryable response that is not a throttle. *)
Definition RetryDeadline (header : option Header) (now : time) : option time :=
  let reset := match headerInt64 header "X-RateLimit-Remaining" with
    | Some r => if r =? 0 then resetDeadline header now else None
    | None => None
    end in
  strongestDeadline [retryAfterDeadline header now; reset].

End Classify.

(** ** Deferrals *)

Record Deferral := MkDeferral {
  d_Kind : string;
  d_Resource : string;
  d_InstallationID : Z;
  d_RetryAt : time;
  d_Generation : Z;
  d_Reason : string
}.
