(* ===== verification/Envelope.v ===== *)
(** * The GraphQL envelope scanner

    internal/services/github/ratelimit/classifier.go, DecodeGraphQLErrors and
    the scanner below it: it locates the top-level [data] and [errors] members
    of a response without decoding the payload.  A position in the body is the
    text that remains from there; the scanners that fail do not report where.
    [json.Valid] and [json.Unmarshal] are parameters. *)

From S2P Require Import Prelude GoRuntime Classifier.
From stdpp Require Import base option list strings.
From Stdlib Require Import Ascii.

Open Scope char_scope.

Abbreviation text := (list ascii).

(** ** The scanners *)

Definition dquote : ascii := "034".

Definition json_space (c : ascii) : bool :=
  (c =? " ") || (c =? "009") || (c =? "013") || (c =? "010").

Fixpoint skipJSONSpace (s : text) : text :=
  match s with
  | c :: s' => if json_space c then skipJSONSpace s' else s
  | [] => []
  end.

(** The loop of skipJSONString, after the opening quote: what follows the
    closing quote, if there is one. *)
Fixpoint string_rest (s : text) : option text :=
  match s with
  | [] => None
  | c :: s' =>
      if c =? "\" then match s' with _ :: s'' => string_rest s'' | [] => None end
      else if c =? dquote then Some s' else string_rest s'
  end.
Definition skipJSONString (s : text) : option text :=
  match s with
  | c :: s' => if c =? dquote then string_rest s' else None
  | [] => None
  end.

Definition scalar_end (c : ascii) : bool := (c =? ",") || (c =? "}") || (c =? "]") || json_space c.
Fixpoint skip_scalar (s : text) : text :=
  match s with
  | c :: s' => if scalar_end c then s else skip_scalar s'
  | [] => []
  end.

Definition opens (c : ascii) : bool := (c =? "{") || (c =? "[").
Definition closes (c : ascii) : bool := (c =? "}") || (c =? "]").

(** The loop over the inside of an object or array; [depth] brackets are open.
    Every round consumes a character, so the length of the text is enough. *)
Fixpoint skip_nested (fuel depth : nat) (s : text) : option text :=
  match fuel, s with
  | S fuel, c :: s' =>
      if c =? dquote then match string_rest s' with Some s'' => skip_nested fuel depth s'' | None => None end
      else if opens c then skip_nested fuel (S depth) s'
      else if closes c then match depth with
        | S (S d) => skip_nested fuel (S d) s'
        | _ => Some s'
        end
      else skip_nested fuel depth s'
  | _, _ => None
  end.

Definition skipJSONValue (s : text) : option text :=
  match s with
  | [] => None
  | c :: s' =>
      if c =? dquote then skipJSONString s
      else if opens c then skip_nested (length s) 1 s'
      else let rest := skip_scalar s in if (length rest <? length s)%nat then Some rest else None
  end.

(** [body[start:end]] for the text at [start] and the rest at [end]. *)
Definition slice (from to : text) : text := take (length from - length to) from.

(** ** The envelope *)

Record envelope := MkEnvelope { dataPresent : bool; errorsValue : text; errorsPresent : bool }.
Definition no_fields : envelope := MkEnvelope false [] false.

Definition quoted (raw : text) : text := dquote :: raw ++ [dquote].
Definition data_key : text := quoted (String.list_ascii_of_string "data").
Definition errors_key : text := quoted (String.list_ascii_of_string "errors").

Definition note_member (key value : text) (e : envelope) : envelope :=
  if decide (key = data_key) then MkEnvelope true (errorsValue e) (errorsPresent e)
  else if decide (key = errors_key) then MkEnvelope (dataPresent e) value true
  else e.

(** The loop over the members; [None] when the fuel is spent. *)
Fixpoint scan_members (fuel : nat) (s : text) (e : envelope) : option (result envelope) :=
  match fuel with
  | O => None
  | S fuel =>
      let s := skipJSONSpace s in
      if match s with c :: _ => c =? "}" | [] => false end then Some (Ok e)
      else match skipJSONString s with
      | None => Some (Err "invalid GraphQL response object key"%string)
      | Some keyEnd =>
          match skipJSONSpace keyEnd with
          | c :: s1 =>
              if negb (c =? ":") then Some (Err "invalid GraphQL response object separator"%string)
              else let v := skipJSONSpace s1 in
                match skipJSONValue v with
                | None => Some (Err "invalid GraphQL response object value"%string)
                | Some valueEnd =>
                    let e := note_member (slice s keyEnd) (slice v valueEnd) e in
                    match skipJSONSpace valueEnd with
                    | c :: s2 => if c =? "," then scan_members fuel s2 e
                                 else if c =? "}" then Some (Ok e)
                                 else Some (Err "invalid GraphQL response object ending"%string)
                    | [] => Some (Err "invalid GraphQL response object ending"%string)
                    end
                end
          | [] => Some (Err "invalid GraphQL response object separator"%string)
          end
      end
  end.

Section Decode.
Variable json_Valid : text -> bool.

Definition envelope_loop (body : text) : option (result envelope) :=
  if negb (json_Valid body) then Some (Err "invalid GraphQL response JSON"%string)
  else match skipJSONSpace body with
  | c :: s => if c =? "{" then scan_members (length body) s no_fields
              else Some (Err "GraphQL response is not an object"%string)
  | [] => Some (Err "GraphQL response is not an object"%string)
  end.
Definition graphQLEnvelopeFields (body : text) : result envelope :=
  default (Err "unreachable"%string) (envelope_loop body).

(** An element of the decoded [errors] array. *)
Record graphQLItem := MkItem {
  it_Message : string; it_Type : string; it_ExtensionsCode : string; it_ExtensionsType : string
}.
Variable UnmarshalErrors : text -> option (list graphQLItem).

Definition error_of_item (i : graphQLItem) : GraphQLError :=
  let ty := TrimSpace (it_Type i) in
  let ty := if decide (ty = ""%string) then TrimSpace (it_ExtensionsCode i) else ty in
  let ty := if decide (ty = ""%string) then TrimSpace (it_ExtensionsType i) else ty in
  MkGraphQLError (TrimSpace (it_Message i)) ty.

Definition DecodeGraphQLErrors (body : text) : result (list GraphQLError) :=
  let? e := graphQLEnvelopeFields body in
  if negb (dataPresent e) && negb (errorsPresent e)
  then Err "GraphQL response contains neither data nor errors"%string
  else if negb (errorsPresent e) || bool_decide (errorsValue e = String.list_ascii_of_string "null")
  then Ok []
  else match UnmarshalErrors (errorsValue e) with
       | None => Err "decode GraphQL errors"%string
       | Some items => Ok (map error_of_item items)
       end.
End Decode.

(** ** JSON texts

    The grammar of RFC 8259, with its white space, over raw text.  An atom is
    any run of characters that are neither white space nor punctuation, which
    includes numbers and the literals. *)

Definition atom_char (c : ascii) : bool :=
  negb (scalar_end c) && negb (opens c) && negb (c =? dquote) && negb (c =? ":").

(** The inside of a string: escapes take two characters. *)
Inductive string_body : text -> Prop :=
  | sb_nil : string_body []
  | sb_char c s : (c =? dquote) = false -> (c =? "\") = false -> string_body s -> string_body (c :: s)
  | sb_escape c s : string_body s -> string_body ("\" :: c :: s).

Abbreviation blank w := (forallb json_space w = true).

Inductive value : text -> Prop :=
  | v_atom a : a <> [] -> forallb atom_char a = true -> value a
  | v_string s : string_body s -> value (quoted s)
  | v_empty_array w : blank w -> value ("[" :: w ++ ["]"])
  | v_empty_object w : blank w -> value ("{" :: w ++ ["}"])
  | v_array es : elements es -> value ("[" :: es ++ ["]"])
  | v_object ms : members ms -> value ("{" :: ms ++ ["}"])
with elements : text -> Prop :=
  | e_one w v w' : blank w -> value v -> blank w' -> elements (w ++ v ++ w')
  | e_more w v w' es : blank w -> value v -> blank w' -> elements es -> elements (w ++ v ++ w' ++ "," :: es)
with members : text -> Prop :=
  | m_one w k w1 w2 v w' : blank w -> string_body k -> blank w1 -> blank w2 -> value v -> blank w' ->
      members (w ++ quoted k ++ w1 ++ ":" :: w2 ++ v ++ w')
  | m_more w k w1 w2 v w' ms : blank w -> string_body k -> blank w1 -> blank w2 -> value v -> blank w' ->
      members ms -> members (w ++ quoted k ++ w1 ++ ":" :: w2 ++ v ++ w' ++ "," :: ms).

Scheme value_mut := Minimality for value Sort Prop
  with elements_mut := Minimality for elements Sort Prop
  with members_mut := Minimality for members Sort Prop.
Combined Scheme json_mut from value_mut, elements_mut, members_mut.

(** ** Scanning a text that follows the grammar *)

Lemma skip_space_app w s : blank w -> skipJSONSpace (w ++ s) = skipJSONSpace s.
Proof. induction w as [|c w IH]; simpl; [done|]. intros [-> H]%andb_true_iff. auto. Qed.

Lemma skip_space_length s : (length (skipJSONSpace s) <= length s)%nat.
Proof. induction s as [|c s IH]; simpl; [done|]. case_match; simpl; lia. Qed.

Lemma string_rest_length s r : string_rest s = Some r -> (length r < length s)%nat.
Proof.
  revert r. induction s as [s IH] using (induction_ltof1 _ (@length ascii)). unfold ltof in IH.
  destruct s as [|c s]; simpl in *; [done|]. intros r. destruct (c =? "\").
  - destruct s as [|d s]; [done|]. intros H. apply IH in H; simpl in *; lia.
  - destruct (c =? dquote); [intros [= <-]; lia|]. intros H. apply IH in H; simpl in *; lia.
Qed.

Lemma string_rest_body b r : string_body b -> string_rest (b ++ dquote :: r) = Some r.
Proof. intros H. induction H as [|c s H1 H2 _ IH|c s _ IH]; simpl; [done| |done]. by rewrite H2, H1. Qed.

Lemma skip_string_quoted k r : string_body k -> skipJSONString (quoted k ++ r) = Some r.
Proof. intros H. unfold quoted. simpl. rewrite <- app_assoc. simpl. by apply string_rest_body. Qed.

Lemma skip_nested_fuel f1 f2 d s : (length s <= f1)%nat -> (length s <= f2)%nat -> skip_nested f1 d s = skip_nested f2 d s.
Proof.
  revert f2 d s. induction f1 as [|f1 IH]; intros [|f2] d [|c s]; simpl; try done; try lia. intros H1 H2.
  destruct (c =? dquote).
  - destruct (string_rest s) as [r|] eqn:E; [|done]. apply string_rest_length in E. apply IH; lia.
  - destruct (opens c); [apply IH; lia|]. destruct (closes c); [|apply IH; lia]. destruct d as [|[|d]]; [done..|apply IH; lia].
Qed.

(** The loop with exactly the fuel it needs, and its equations. *)
Definition nested (d : nat) (s : text) : option text := skip_nested (length s) d s.

Lemma nested_quote d s : nested d (dquote :: s) = match string_rest s with Some r => nested d r | None => None end.
Proof.
  unfold nested. simpl. destruct (string_rest s) as [r|] eqn:E; [|done]. apply string_rest_length in E.
  apply skip_nested_fuel; lia.
Qed.
Lemma nested_open d o s : opens o = true -> nested d (o :: s) = nested (S d) s.
Proof. intros Ho. unfold nested. simpl. rewrite Ho. destruct (o =? dquote) eqn:E; [|done]. by apply Ascii.eqb_eq in E as ->. Qed.
Lemma nested_close d c s : closes c = true -> nested (S (S d)) (c :: s) = nested (S d) s.
Proof.
  intros Hc. unfold nested. simpl. rewrite Hc. destruct (c =? dquote) eqn:E; [by apply Ascii.eqb_eq in E as ->|].
  destruct (opens c) eqn:Ho; [|done]. exfalso. unfold opens, closes in *.
  apply orb_true_iff in Ho as [->%Ascii.eqb_eq | ->%Ascii.eqb_eq]; done.
Qed.
Lemma nested_end c s : closes c = true -> nested 1 (c :: s) = Some s.
Proof.
  intros Hc. unfold nested. simpl. rewrite Hc. destruct (c =? dquote) eqn:E; [by apply Ascii.eqb_eq in E as ->|].
  destruct (opens c) eqn:Ho; [|done]. exfalso. unfold opens, closes in *.
  apply orb_true_iff in Ho as [->%Ascii.eqb_eq | ->%Ascii.eqb_eq]; done.
Qed.
Lemma nested_plain d c s : (c =? dquote) || opens c || closes c = false -> nested d (c :: s) = nested d s.
Proof. intros [[H1 H2]%orb_false_iff H3]%orb_false_iff. unfold nested. simpl. by rewrite H1, H2, H3. Qed.

(** Text the nested loop walks over without changing its depth. *)
Definition transparent (s : text) : Prop := forall d r, nested (S d) (s ++ r) = nested (S d) r.

Lemma transparent_app s1 s2 : transparent s1 -> transparent s2 -> transparent (s1 ++ s2).
Proof. intros H1 H2 d r. rewrite <- app_assoc. by rewrite H1, H2. Qed.
Lemma transparent_chars s : forallb (fun c => negb ((c =? dquote) || opens c || closes c)) s = true -> transparent s.
Proof.
  induction s as [|c s IH]; simpl; [done|]. intros [H1%negb_true_iff H2]%andb_true_iff d r. simpl. rewrite nested_plain by done. by apply IH.
Qed.
Lemma transparent_quoted k : string_body k -> transparent (quoted k).
Proof. intros H d r. unfold quoted. simpl. rewrite <- app_assoc. simpl. rewrite nested_quote. by rewrite string_rest_body. Qed.
Lemma transparent_brackets o s c : opens o = true -> closes c = true -> transparent s -> transparent (o :: s ++ [c]).
Proof. intros Ho Hc Hs d r. simpl. rewrite nested_open, <- app_assoc, Hs by done. simpl. by apply nested_close. Qed.

Lemma space_plain c : json_space c = true -> negb ((c =? dquote) || opens c || closes c) = true.
Proof.
  unfold json_space. intros H. repeat (apply orb_true_iff in H as [H|H]); apply Ascii.eqb_eq in H as ->; done.
Qed.
Lemma forallb_weaken {A} (p q : A -> bool) l : (forall x, p x = true -> q x = true) -> forallb p l = true -> forallb q l = true.
Proof. intros H. rewrite !forallb_forall. auto. Qed.
Lemma transparent_blank w : blank w -> transparent w.
Proof. intros H. apply transparent_chars. eapply forallb_weaken; [apply space_plain|done]. Qed.
Lemma atom_plain c : atom_char c = true -> negb ((c =? dquote) || opens c || closes c) = true.
Proof.
  unfold atom_char, scalar_end, closes. intros H. reflect_bools. by rewrite !negb_true_iff, !orb_false_iff.
Qed.

Create HintDb scan.
#[export] Hint Resolve transparent_app transparent_quoted transparent_brackets transparent_blank : scan.

Lemma grammar_transparent :
  (forall v, value v -> transparent v) /\ (forall es, elements es -> transparent es) /\ (forall ms, members ms -> transparent ms).
Proof.
  assert (forall c s, negb ((c =? dquote) || opens c || closes c) = true -> transparent s -> transparent (c :: s)) as Hc.
  { intros c s H Hs. apply (transparent_app [c] s); [|done]. apply transparent_chars. by simpl; rewrite H. }
  apply json_mut; intros; auto 10 with scan.
  apply transparent_chars. eapply forallb_weaken; [apply atom_plain|done].
Qed.

(** What may follow a member value. *)
Definition delimited (r : text) : Prop := match r with c :: _ => scalar_end c = true | [] => False end.

Lemma delimited_blank w c r : blank w -> scalar_end c = true -> delimited (w ++ c :: r).
Proof.
  intros Hw Hc. destruct w as [|d w]; [done|]. simpl in *. apply andb_true_iff in Hw as [Hd _].
  unfold scalar_end. by rewrite Hd, !orb_true_r.
Qed.

Lemma skip_scalar_atom a r : forallb atom_char a = true -> delimited r -> skip_scalar (a ++ r) = r.
Proof.
  intros Ha Hr. induction a as [|c a IH]; simpl in *.
  - destruct r as [|c r]; [done|]. simpl in *. by rewrite Hr.
  - apply andb_true_iff in Ha as [Hc Ha]. unfold atom_char in Hc. reflect_bools.
    match goal with H : scalar_end c = false |- _ => rewrite H end. auto.
Qed.

Lemma skip_brackets o s c r : opens o = true -> closes c = true -> transparent s ->
  skipJSONValue ((o :: s ++ [c]) ++ r) = Some r.
Proof.
  intros Ho Hc Hs. unfold skipJSONValue. cbn [app]. rewrite Ho, <- app_assoc. cbn [app].
  destruct (o =? dquote) eqn:E; [by apply Ascii.eqb_eq in E as ->|].
  rewrite (skip_nested_fuel _ (length (s ++ c :: r))); [|cbn [length]; lia|lia].
  change (nested 1 (s ++ c :: r) = Some r). rewrite Hs. by apply nested_end.
Qed.

Lemma skip_value v r : value v -> delimited r -> skipJSONValue (v ++ r) = Some r.
Proof.
  intros Hv Hr. destruct grammar_transparent as (_ & He & Hm).
  destruct Hv as [a Hne Ha|s Hs|w Hw|w Hw|es Hes|ms Hms]; try solve [apply skip_brackets; auto with scan].
  - pose proof (skip_scalar_atom a r Ha Hr) as E. destruct a as [|c a]; [done|]. unfold skipJSONValue.
    cbn [app] in *. rewrite E. simpl in Ha. apply andb_true_iff in Ha as [Hc _]. unfold atom_char in Hc. reflect_bools.
    repeat match goal with H : _ c = false |- _ => rewrite H end.
    replace (c =? dquote) with false. cbn [length]. rewrite length_app.
    by destruct (Nat.ltb_spec (length r) (S (length a + length r))); [|lia].
  - change (skipJSONValue (quoted s ++ r)) with (skipJSONString (quoted s ++ r)). by apply skip_string_quoted.
Qed.

Lemma value_head v : value v -> exists c t, v = c :: t /\ json_space c = false.
Proof.
  intros [a Hne Ha|s Hs|w Hw|w Hw|es Hes|ms Hms]; eauto. destruct a as [|c a]; [done|]. exists c, a. split; [done|].
  simpl in Ha. apply andb_true_iff in Ha as [Hc _]. unfold atom_char, scalar_end in Hc. by reflect_bools.
Qed.

Lemma skip_space_stop c t : json_space c = false -> skipJSONSpace (c :: t) = c :: t.
Proof. intros H. simpl. by rewrite H. Qed.

Lemma slice_app x r : slice (x ++ r) r = x.
Proof.
  unfold slice. rewrite length_app. replace (length x + length r - length r)%nat with (length x) by lia. apply take_app_length.
Qed.

(** ** Documents *)

Record member := MkMember {
  mb_pre : text; mb_key : text; mb_sep1 : text; mb_sep2 : text; mb_val : text; mb_post : text
}.
Definition member_ok (m : member) : Prop :=
  blank (mb_pre m) /\ string_body (mb_key m) /\ blank (mb_sep1 m) /\ blank (mb_sep2 m) /\ value (mb_val m) /\ blank (mb_post m).
Definition member_text (m : member) : text :=
  mb_pre m ++ quoted (mb_key m) ++ mb_sep1 m ++ ":" :: mb_sep2 m ++ mb_val m ++ mb_post m.
Fixpoint members_text (ms : list member) : text :=
  match ms with
  | [] => []
  | [m] => member_text m
  | m :: ms => member_text m ++ "," :: members_text ms
  end.
(** The text of an object with these members, [inner] the white space of an
    empty one. *)
Definition document (lead inner trail : text) (ms : list member) : text :=
  lead ++ "{" :: (match ms with [] => inner | _ => members_text ms end) ++ "}" :: trail.

Lemma scan_one fuel m r e : member_ok m -> delimited (mb_post m ++ r) ->
  scan_members (S fuel) (member_text m ++ r) e =
  match skipJSONSpace r with
  | c :: s2 => if c =? "," then scan_members fuel s2 (note_member (quoted (mb_key m)) (mb_val m) e)
               else if c =? "}" then Some (Ok (note_member (quoted (mb_key m)) (mb_val m) e))
               else Some (Err "invalid GraphQL response object ending"%string)
  | [] => Some (Err "invalid GraphQL response object ending"%string)
  end.
Proof.
  intros (Hp & Hk & H1 & H2 & Hv & Hq) Hd.
  replace (member_text m ++ r)
    with (mb_pre m ++ quoted (mb_key m) ++ mb_sep1 m ++ ":" :: mb_sep2 m ++ mb_val m ++ mb_post m ++ r)
    by (unfold member_text; by rewrite <- !app_assoc; cbn [app]; rewrite <- !app_assoc).
  destruct (value_head _ Hv) as (c & t & Ev & Hc).
  cbn [scan_members]. rewrite skip_space_app by done.
  change (skipJSONSpace (quoted (mb_key m) ++ ?x)) with (quoted (mb_key m) ++ x).
  rewrite (skip_string_quoted (mb_key m)) by done. rewrite (skip_space_app (mb_sep1 m)), (skip_space_stop ":") by done.
  rewrite (skip_space_app (mb_sep2 m)) by done.
  replace (skipJSONSpace (mb_val m ++ mb_post m ++ r)) with (mb_val m ++ mb_post m ++ r) by (rewrite Ev; cbn [app]; by rewrite skip_space_stop).
  rewrite skip_value by done. by rewrite !slice_app, skip_space_app.
Qed.

Lemma scan_document fuel ms e r : ms <> [] -> Forall member_ok ms -> (length ms <= fuel)%nat ->
  scan_members fuel (members_text ms ++ "}" :: r) e
  = Some (Ok (foldl (fun e m => note_member (quoted (mb_key m)) (mb_val m) e) e ms)).
Proof.
  revert fuel e. induction ms as [|m ms IH]; [done|]. intros [|fuel] e _ Hok Hl; simpl in Hl; [lia|].
  inversion_clear Hok as [|? ? Hm Hms]. assert (blank (mb_post m)) as Hp by (by destruct Hm as (_ & _ & _ & _ & _ & ?)).
  destruct ms as [|m' ms].
  - cbn [members_text foldl]. rewrite scan_one by (done || by apply delimited_blank). done.
  - change (members_text (m :: m' :: ms)) with (member_text m ++ "," :: members_text (m' :: ms)).
    rewrite <- app_assoc. rewrite scan_one by (done || by apply delimited_blank). cbn [app skipJSONSpace].
    change (json_space ",") with false. cbv iota. change ("," =? ",") with true. cbv iota. apply IH; [done|done|lia].
Qed.

(** The envelope read off the list of members. *)
Definition has_key (k : string) (ms : list member) : bool :=
  existsb (fun m => bool_decide (mb_key m = String.list_ascii_of_string k)) ms.
Definition last_value (k : string) (ms : list member) : text :=
  default [] (mb_val <$> last (List.filter (fun m => bool_decide (mb_key m = String.list_ascii_of_string k)) ms)).

Lemma quoted_inj k1 k2 : quoted k1 = quoted k2 <-> k1 = k2.
Proof. unfold quoted. split; [|by intros ->]. intros [= H]. by apply app_inj_tail in H as [-> _]. Qed.

Lemma note_members ms :
  foldl (fun e m => note_member (quoted (mb_key m)) (mb_val m) e) no_fields ms
  = MkEnvelope (has_key "data" ms) (last_value "errors" ms) (has_key "errors" ms).
Proof.
  induction ms as [|m ms IH] using rev_ind; [done|]. rewrite foldl_app, IH. unfold has_key, last_value. simpl.
  rewrite !existsb_app, List.filter_app. simpl. unfold note_member, data_key, errors_key. simpl.
  destruct (decide (quoted (mb_key m) = _)) as [E|E]; rewrite quoted_inj in E.
  - rewrite E, app_nil_r. by rewrite !orb_false_r, orb_true_r.
  - rewrite (bool_decide_eq_false_2 _ E), orb_false_r. destruct (decide (quoted (mb_key m) = _)) as [E'|E']; rewrite quoted_inj in E'.
    + by rewrite (bool_decide_eq_true_2 _ E'), last_snoc, orb_true_r.
    + by rewrite (bool_decide_eq_false_2 _ E'), app_nil_r, !orb_false_r.
Qed.

Lemma members_length ms r : (length ms <= length (members_text ms ++ r))%nat.
Proof.
  induction ms as [|m [|m' ms] IH]; [simpl; lia| |].
  - cbn [members_text length]. unfold member_text, quoted. rewrite !length_app. simpl. lia.
  - change (members_text (m :: m' :: ms)) with (member_text m ++ "," :: members_text (m' :: ms)).
    rewrite <- app_assoc, length_app. cbn [app length] in *. lia.
Qed.

(** C40: The scanner finds exactly the fields of the document: on a response object
    with any white space and any member values, it reports whether [data] and
    [errors] occur at the top level and the text of the last [errors] value.
    Nothing inside another value, escaped or nested, is mistaken for a field. *)
Theorem envelope_scan_is_exact json_Valid lead inner trail ms :
  blank lead -> blank inner -> Forall member_ok ms -> json_Valid (document lead inner trail ms) = true ->
  graphQLEnvelopeFields json_Valid (document lead inner trail ms)
  = Ok (MkEnvelope (has_key "data" ms) (last_value "errors" ms) (has_key "errors" ms)).
Proof.
  intros Hl Hi Hok Hv. unfold graphQLEnvelopeFields, envelope_loop. rewrite Hv. cbn [negb].
  unfold document at 1. rewrite skip_space_app, skip_space_stop by done. change ("{" =? "{") with true. cbv iota.
  destruct ms as [|m ms].
  - assert (exists n, length (document lead inner trail []) = S n) as [n ->]
      by (unfold document; rewrite length_app; simpl; rewrite Nat.add_succ_r; eauto).
    cbn [scan_members]. by rewrite skip_space_app, (skip_space_stop "}") by done.
  - rewrite scan_document; [by rewrite note_members|done|done|]. unfold document.
    rewrite length_app. pose proof (members_length (m :: ms) ("}" :: trail)). cbn [length] in *. lia.
Qed.

(** ** The scan ends *)

Lemma skip_string_length s r : skipJSONString s = Some r -> (length r < length s)%nat.
Proof. destruct s as [|c s]; simpl; [done|]. destruct (c =? dquote); [|done]. intros H%string_rest_length. lia. Qed.

Lemma skip_nested_length fuel d s r : skip_nested fuel d s = Some r -> (length r <= length s)%nat.
Proof.
  revert d s. induction fuel as [|fuel IH]; intros d [|c s]; simpl; try done.
  destruct (c =? dquote).
  - destruct (string_rest s) as [t|] eqn:E; [|done]. apply string_rest_length in E. intros H%IH. lia.
  - destruct (opens c); [intros H%IH; lia|]. destruct (closes c); [|intros H%IH; lia].
    destruct d as [|[|d]]; [intros [= <-]; lia..|intros H%IH; lia].
Qed.

Lemma skip_value_length s r : skipJSONValue s = Some r -> (length r <= length s)%nat.
Proof.
  destruct s as [|c s]; [done|]. unfold skipJSONValue. destruct (c =? dquote); [intros H%skip_string_length; lia|].
  destruct (opens c); [intros H%skip_nested_length; cbn [length]; lia|]. 
  set (rest := skip_scalar (c :: s)). destruct (Nat.ltb_spec (length rest) (length (c :: s))); [|done].
  intros [= <-]. lia.
Qed.

Lemma scan_members_ends fuel s e : (length s < fuel)%nat -> scan_members fuel s e <> None.
Proof.
  revert s e. induction fuel as [|fuel IH]; intros s e Hf; [lia|]. cbn [scan_members].
  pose proof (skip_space_length s) as H0. set (s0 := skipJSONSpace s) in *. case_match; [done|].
  destruct (skipJSONString s0) as [k|] eqn:Ek; [|done]. apply skip_string_length in Ek.
  pose proof (skip_space_length k) as H1. destruct (skipJSONSpace k) as [|c s1]; [done|].
  destruct (c =? ":"); cbn [negb]; [|done].
  pose proof (skip_space_length s1) as H2. destruct (skipJSONValue (skipJSONSpace s1)) as [v|] eqn:Ev; [|done].
  apply skip_value_length in Ev. pose proof (skip_space_length v) as H3. destruct (skipJSONSpace v) as [|d s2]; [done|].
  simpl in *. destruct (d =? ","); [apply IH; lia|]. by destruct (d =? "}").
Qed.

(** The scan ends on every input, valid or not: its loops never run out of the
    rounds the length of the body allows, so a result is always one the code
    returns. *)
Theorem envelope_scan_terminates json_Valid body :
  exists r, envelope_loop json_Valid body = Some r /\ graphQLEnvelopeFields json_Valid body = r.
Proof.
  assert (envelope_loop json_Valid body <> None) as H.
  { unfold envelope_loop. case_match; [done|]. pose proof (skip_space_length body).
    destruct (skipJSONSpace body) as [|c s]; [done|]. case_match; [|done]. apply scan_members_ends. simpl in *. lia. }
  unfold graphQLEnvelopeFields. destruct (envelope_loop json_Valid body) as [r|]; [eauto|done].
Qed.

(** A response whose data holds a member that is also called [errors]. *)
Definition txt : string -> text := String.list_ascii_of_string.
Definition nested_errors : text := "{" :: (quoted (txt "errors") ++ ":" :: txt "1") ++ ["}"].
Definition sample_members : list member :=
  [MkMember [] (txt "data") [] (txt " ") nested_errors []; MkMember (txt " ") (txt "errors") [] [] (txt "2") (txt " ")].

Lemma envelope_scan_is_exact_witness :
  graphQLEnvelopeFields (fun _ => true) (document (txt " ") [] [] sample_members) = Ok (MkEnvelope true (txt "2") true).
Proof.
  assert (Hk : forall k, forallb (fun c => negb (c =? dquote) && negb (c =? "\")) (txt k) = true -> string_body (txt k)).
  { intros k. induction (txt k) as [|c s IH]; simpl; [constructor|]. intros [[H1 H2]%andb_true_iff H3]%andb_true_iff.
    apply negb_true_iff in H1, H2. constructor; auto. }
  apply (envelope_scan_is_exact (fun _ => true) (txt " "%string) [] [] sample_members); [reflexivity|reflexivity| |reflexivity].
  constructor; [|constructor; [|constructor]].
  - unfold member_ok. simpl. split_and!; try reflexivity; [by apply (Hk "data"%string)|]. apply v_object.
    apply (m_one [] (txt "errors"%string) [] [] (txt "1"%string) []); try reflexivity; [by apply (Hk "errors"%string)|]. by apply v_atom.
  - unfold member_ok. simpl. split_and!; try reflexivity; [by apply (Hk "errors"%string)|]. by apply v_atom.
Defined.
