(* ===== verification/RateLimitController.v ===== *)
(** * The GitHub rate-limit controller

    internal/services/github/ratelimit/controller.go: what a request asks
    before it goes out ([Before]) and reports when it is done ([Observe]),
    with the four accesses to the cooldown record ([get], [observe], [claim],
    [complete]) that prefer Redis, repair it from the process-local record
    when that one dominates, and fall back to the local store when Redis
    cannot be reached.

    A controller works against a [World]: the Redis keys, the server clock
    and the fate of the commands still to come.  A command may be refused
    (nothing happens), be executed with its reply lost, or be answered. *)

From S2P Require Import Prelude GoRuntime RateLimitStore Classifier.
From stdpp Require Import base option list strings pretty gmap.

Open Scope string_scope.
Open Scope Z_scope.

(** ** Talking to Redis *)

Inductive Link := Answered | Refused | ReplyLost.

Record World := MkWorld {
  w_redis : gmap string Redis.Key;
  w_clock : Z;
  w_link : list Link
}.

(** One command on one key; an exhausted [w_link] answers. *)
Definition command {A} (key : string) (f : Redis.Key -> Redis.Key * A) (w : World) : World * option A :=
  let '(fate, rest) := match w_link w with [] => (Answered, []) | l :: ls => (l, ls) end in
  match fate with
  | Refused => (MkWorld (w_redis w) (w_clock w) rest, None)
  | _ =>
      let '(k, a) := f (default Redis.no_key (w_redis w !! key)) in
      (MkWorld (<[key := k]> (w_redis w)) (w_clock w) rest,
       match fate with Answered => Some a | _ => None end)
  end.

Definition redis_get (key : string) (w : World) : World * option GitHubRateLimitState :=
  command key (fun k => (k, Redis.GetGitHubRateLimitState (w_clock w) k)) w.
Definition redis_observe (key : string) (o : GitHubRateLimitObservation) (w : World) :=
  command key (Redis.ObserveGitHubRateLimit (w_clock w) o) w.
Definition redis_claim (key owner token : string) (now leaseUntil : time) (ttl : duration) (w : World) :=
  command key (Redis.ClaimGitHubRateLimitProbe (w_clock w) owner token now leaseUntil ttl) w.
Definition redis_complete (key owner token : string) (gen : Z) (success : bool) (ttl : duration) (w : World) :=
  command key (Redis.CompleteGitHubRateLimitProbe (w_clock w) owner token gen success ttl) w.
(** The script, then a separate read of the key. *)
Definition redis_reconcile (key : string) (st : GitHubRateLimitState) (now : time) (ttl : duration) (w : World)
    : World * option GitHubRateLimitState :=
  match command key (Redis.reconcile (w_clock w) st now ttl) w with
  | (w, None) => (w, None)
  | (w, Some _) => redis_get key w
  end.

(** ** The controller *)

Inductive Mode := ModeOff | ModeObserve | ModeEnforce.
#[export] Instance mode_eq_dec : EqDecision Mode.
Proof. solve_decision. Defined.

Record Controller := MkController {
  mode : Mode;
  environment : string;
  appID : Z;
  allowlist : list Z;
  has_cache : bool;
  owner : string;
  probeLease : duration;
  fallback : Local.localStore;
  probeSeq : Z
}.
#[export] Instance eta_controller : Eta Controller := fun c =>
  MkController (mode c) (environment c) (appID c) (allowlist c) (has_cache c) (owner c) (probeLease c) (fallback c) (probeSeq c).

Record Scope := MkScope { InstallationID : Z; Caller : string; Route : string; SyncReason : string }.

Record Permit := MkPermit {
  p_Scope : Scope;
  p_Generation : Z;
  p_Probe : bool;
  p_ProbeOwner : string;
  p_ProbeToken : string;
  p_PredictedDeferral : option Deferral
}.
(** [Permit{Scope: scope}]. *)
Definition plain_permit (s : Scope) : Permit := MkPermit s 0 false "" "" None.

Definition Participates (c : Controller) (installationID : Z) : bool :=
  if (mode c ==? ModeOff) || (installationID <=? 0) || (appID c <=? 0) then false
  else if (Z.of_nat (length (allowlist c)) =? 0) then negb (mode c ==? ModeEnforce)
  else existsb (Z.eqb installationID) (allowlist c).

Definition key (c : Controller) (installationID : Z) : string :=
  "{ghrl:v1:" +:+ environment c +:+ ":app:" +:+ pretty (appID c) +:+ ":inst:" +:+ pretty installationID +:+ "}:state".

Definition localStateDominates (local remote : GitHubRateLimitState) : bool :=
  if Generation local =? 0 then false
  else if (Generation local <=? Generation remote) && IsZero (BlockedUntil remote) then false
  else if After (BlockedUntil local) (BlockedUntil remote) then true
  else if Generation local <? Generation remote then false
  else if Generation remote <? Generation local then true
  else (Generation local =? Generation remote) && (ProbeToken local <>? "") && (ProbeToken remote ==? "")
       && negb (After (BlockedUntil remote) (BlockedUntil local)).

Definition strongestStateDeadline (providerDeadline : time) (st : GitHubRateLimitState) : time :=
  let deadline := if After (BlockedUntil st) providerDeadline then BlockedUntil st else providerDeadline in
  if After (ProbeUntil st) deadline then ProbeUntil st else deadline.

Definition deferralFromState (installationID : Z) (st : GitHubRateLimitState) (retryAt : time) : Deferral :=
  MkDeferral (if Kind_Validate (Kind st) then Kind st else KindUnknown) (Resource st) installationID retryAt
    (Generation st) (Reason st).

Definition probeGeneration (p : Permit) : Z := if p_Probe p then p_Generation p else 0.

(** One, two, four and then five minutes, with up to 29 seconds of jitter. *)
Definition localDeadline (now : time) (episodeCount : Z) (k : string) : time :=
  let shift := if 3 <? episodeCount then 3 else episodeCount in
  let delay := minute * Z.shiftl 1 shift in
  let delay := if 5 * minute <? delay then 5 * minute else delay in
  now + (delay + digest_jitter (k +:+ ":" +:+ pretty episodeCount) 30).

(** ** Access to the record

    Each returns the controller with its local store updated, and whether the
    answer is degraded to process-local state. *)

Definition with_local {A} (c : Controller) (r : Local.localStore * A) : Controller * A :=
  (c <| fallback := r.1 |>, r.2).

Definition get (c : Controller) (k : string) (now : time) (w : World)
    : World * Controller * GitHubRateLimitState * bool :=
  let '(c, localState) := with_local c (Local.get k now (fallback c)) in
  if has_cache c then
    match redis_get k w with
    | (w, None) => (w, c, localState, true)
    | (w, Some st) =>
        if localStateDominates localState st then
          match redis_reconcile k localState now (stateTTL localState now) w with
          | (w, None) => (w, c, localState, true)
          | (w, Some st) => let '(c, st) := with_local c (Local.remember k st now (fallback c)) in (w, c, st, false)
          end
        else let '(c, st) := with_local c (Local.remember k st now (fallback c)) in (w, c, st, false)
    end
  else (w, c, localState, true).

Definition observe (c : Controller) (k : string) (o : GitHubRateLimitObservation) (w : World)
    : World * Controller * (GitHubRateLimitState * bool * bool) * bool :=
  let degraded w c := let '(c, r) := with_local c (Local.observe k o (fallback c)) in (w, c, r, true) in
  let answered w c (r : GitHubRateLimitState * bool * bool) :=
    let '(c, st) := with_local c (Local.remember k r.1.1 (o_Now o) (fallback c)) in (w, c, (st, r.1.2, r.2), false) in
  if has_cache c then
    let '(c, localState) := with_local c (Local.get k (o_Now o) (fallback c)) in
    match redis_observe k o w with
    | (w, None) => degraded w c
    | (w, Some r) =>
        if localStateDominates localState r.1.1 then
          match redis_reconcile k localState (o_Now o) (stateTTL localState (o_Now o)) w with
          | (w, None) => degraded w c
          | (w, Some _) =>
              match redis_observe k o w with
              | (w, None) => degraded w c
              | (w, Some r) => answered w c r
              end
          end
        else answered w c r
    end
  else degraded w c.

Definition claim (c : Controller) (k token : string) (now leaseUntil : time) (w : World)
    : World * Controller * (GitHubRateLimitState * bool) * bool :=
  let degraded w c := let '(c, r) := with_local c (Local.claim k (owner c) token now leaseUntil (fallback c)) in (w, c, r, true) in
  let answered w c (r : GitHubRateLimitState * bool) :=
    let '(c, st) := with_local c (Local.remember k r.1 now (fallback c)) in
    (w, c, (st, r.2 && (ProbeToken st ==? token)), false) in
  if has_cache c then
    let '(c, localState) := with_local c (Local.get k now (fallback c)) in
    match redis_claim k (owner c) token now leaseUntil recoveryStateTTL w with
    | (w, None) => degraded w c
    | (w, Some r) =>
        if localStateDominates localState r.1 then
          match redis_reconcile k localState now (stateTTL localState now) w with
          | (w, None) => degraded w c
          | (w, Some reconciled) =>
              if (Generation localState <=? Generation reconciled) && IsZero (BlockedUntil reconciled)
              then let '(c, st) := with_local c (Local.remember k reconciled now (fallback c)) in (w, c, (st, false), false)
              else match redis_claim k (owner c) token now leaseUntil recoveryStateTTL w with
                   | (w, None) => degraded w c
                   | (w, Some r) => answered w c r
                   end
          end
        else answered w c r
    end
  else degraded w c.

Definition complete (c : Controller) (k own token : string) (gen : Z) (success : bool) (now : time) (w : World)
    : World * Controller * bool * bool :=
  let degraded w c := let '(c, r) := with_local c (Local.complete k own token gen success now (fallback c)) in (w, c, r, true) in
  let finished w c (completed : bool) :=
    let c := if completed then (with_local c (Local.complete k own token gen success now (fallback c))).1 else c in
    (w, c, completed, false) in
  if has_cache c then
    let '(c, localState) := with_local c (Local.get k now (fallback c)) in
    match redis_complete k own token gen success recoveryStateTTL w with
    | (w, None) => degraded w c
    | (w, Some completed) =>
        if negb completed && Local.holds_probe own token gen localState then
          match redis_get k w with
          | (w, None) => degraded w c
          | (w, Some remote) =>
              if localStateDominates localState remote then
                match redis_reconcile k localState now (stateTTL localState now) w with
                | (w, None) => degraded w c
                | (w, Some reconciled) =>
                    if Local.holds_probe own token gen reconciled then
                      match redis_complete k own token gen success recoveryStateTTL w with
                      | (w, None) => degraded w c
                      | (w, Some completed) => finished w c completed
                      end
                    else finished w c completed
                end
              else finished w (with_local c (Local.remember k remote now (fallback c))).1 completed
          end
        else finished w c completed
    end
  else degraded w c.

(** ** Requests *)

(** The permit of a request and, when it is suppressed, the deferral that
    explains it.  [now] is the instant [Before] reads, [get_now] the one its
    first access reads. *)
Definition BeforeRequest (c : Controller) (scope : Scope) (now get_now : time) (w : World)
    : World * Controller * (Permit * option Deferral) :=
  if negb (Participates c (InstallationID scope)) then (w, c, (plain_permit scope, None))
  else
    let k := key c (InstallationID scope) in
    let deferred c (permit : Permit) (d : Deferral) :=
      (MkPermit (p_Scope permit) (p_Generation permit) (p_Probe permit) (p_ProbeOwner permit) (p_ProbeToken permit) (Some d),
       if mode c ==? ModeEnforce then Some d else None) in
    let '(w, c, st, _) := get c k get_now w in
    if (Generation st =? 0) || IsZero (BlockedUntil st) then (w, c, (plain_permit scope, None))
    else if After (BlockedUntil st) now then
      (w, c, deferred c (MkPermit scope (Generation st) false "" "" None)
               (deferralFromState (InstallationID scope) st (BlockedUntil st)))
    else
      let leaseUntil := now + probeLease c in
      let c := c <| probeSeq := probeSeq c + 1 |> in
      let probeToken := owner c +:+ ":probe:" +:+ pretty (probeSeq c) in
      let '(w, c, (claimed_st, claimed), _) := claim c k probeToken now leaseUntil w in
      let claimed_st := if Kind claimed_st ==? "" then
          claimed_st <| Kind := Kind st |> <| Resource := Resource st |> <| Reason := Reason st |>
                     <| EpisodeCount := EpisodeCount st |>
        else claimed_st in
      if claimed then (w, c, (MkPermit scope (Generation claimed_st) true (owner c) probeToken None, None))
      else if (Generation st <=? Generation claimed_st) && IsZero (BlockedUntil claimed_st) && IsZero (ProbeUntil claimed_st)
      then (w, c, (plain_permit scope, None))
      else
        let retryAt := if After (ProbeUntil claimed_st) (BlockedUntil claimed_st) then ProbeUntil claimed_st else BlockedUntil claimed_st in
        let retryAt := if After retryAt now then retryAt else leaseUntil in
        (w, c, deferred c (MkPermit scope (Generation claimed_st) false "" "" None)
                 (deferralFromState (InstallationID scope) claimed_st retryAt)).

Record Observation := MkObs {
  ob_StatusCode : Z;
  ob_Header : option Header;
  ob_Message : string;
  ob_GraphQLErrors : list GraphQLError;
  ob_RequestErr : bool;
  ob_BodyErr : bool
}.

Record ObservationResult := MkResult {
  r_Classification : Classification;
  r_Deferral : option Deferral;
  r_EpisodeOpened : bool;
  r_Degraded : bool
}.
Definition zero_result : ObservationResult := MkResult unclassified None false false.

Section Observing.
Variable ParseTime : string -> option time.

(** [now] is the instant [Observe] reads, [later] the one its accesses read. *)
Definition ObserveResponse (c : Controller) (permit : Permit) (ob : Observation) (now later : time) (w : World)
    : World * Controller * ObservationResult :=
  let installationID := InstallationID (p_Scope permit) in
  if (appID c <=? 0) || (installationID <=? 0) || negb (Participates c installationID) then (w, c, zero_result)
  else
    let classification := ClassifyResponse ParseTime now
      (MkResponseInput (ob_StatusCode ob) (ob_Header ob) (ob_Message ob) (ob_GraphQLErrors ob) now) in
    let k := key c installationID in
    if RateLimited classification then
      let '(w, c, st, degraded) := get c k later w in
      let deadline := match RetryAt classification with Some t => t | None => localDeadline now (EpisodeCount st) k end in
      let minimumTTL := dur_add (Sub deadline now) minute in
      let ttl := if recoveryStateTTL <? minimumTTL then minimumTTL else recoveryStateTTL in
      let '(w, c, (observed, opened, applied), observeDegraded) := observe c k
        (MkObservation now deadline (c_Kind classification) (c_Resource classification) (c_Reason classification)
           (probeGeneration permit) (p_ProbeToken permit) ttl
           (match RetryAt classification with Some _ => true | None => false end)) w in
      let d := deferralFromState installationID observed (strongestStateDeadline deadline observed) in
      let d := if negb applied && After deadline (BlockedUntil observed) && After deadline (ProbeUntil observed)
        then MkDeferral (c_Kind classification) (c_Resource classification) (d_InstallationID d) (d_RetryAt d)
               (d_Generation d) (c_Reason classification)
        else d in
      (w, c, MkResult classification (Some d) opened (degraded || observeDegraded))
    else if p_Probe permit then
      let success := negb (ob_RequestErr ob) && negb (ob_BodyErr ob) && IsDefinitiveResponse (ob_StatusCode ob) in
      let '(w, c, _, degraded) := complete c k (p_ProbeOwner permit) (p_ProbeToken permit) (p_Generation permit) success later w in
      (w, c, MkResult classification None false degraded)
    else (w, c, MkResult classification None false false).

End Observing.
