(* ===== verification/RateLimitProperties.v ===== *)
(** * What the cooldown record guarantees

    The Redis scripts and the process-local store perform the same
    transitions; a probe can end a cooldown only if nothing else touched the
    episode since its claim; repairing Redis from a local record never loses
    evidence. *)

From S2P Require Import Prelude GoRuntime RateLimitStore Classifier RateLimitController.
From stdpp Require Import base option list strings gmap.

Open Scope string_scope.
Open Scope Z_scope.

(** ** The scripts against the local store *)

(** What the scripts keep true of a hash. *)
Record hash_wf (h : Redis.Hash) : Prop := {
  wf_generation : 0 <= Redis.num (Redis.generation h);
  wf_blocked : 0 <= Redis.num (Redis.blocked_until h);
  wf_probe_until : 0 <= Redis.num (Redis.probe_until h);
  wf_token : 0 < Redis.num (Redis.probe_generation h) -> Redis.str (Redis.probe_token h) <> ""
}.

(** The observation as Redis sees it: instants cut to the millisecond. *)
Definition truncate (t : time) : time := of_millis (UnixMilli t).
Definition truncate_observation (o : GitHubRateLimitObservation) : GitHubRateLimitObservation :=
  MkObservation (truncate (o_Now o)) (truncate (o_BlockedUntil o)) (o_Kind o) (o_Resource o) (o_Reason o)
    (o_ProbeGeneration o) (o_ProbeToken o) (o_TTL o) (o_ProviderDeadline o).

Lemma millis_after a b : 0 < a -> 0 <= b -> After (of_millis a) (Redis.millisResult b) = (b <? a).
Proof.
  intros. unfold After, Redis.millisResult, of_millis, zero_time, second, millisecond.
  destruct (b <=? 0) eqn:E; reflect_bools; destruct (b <? a) eqn:F; reflect_bools;
    [apply Z.ltb_lt|apply Z.ltb_ge|apply Z.ltb_lt|apply Z.ltb_ge]; lia.
Qed.

Lemma millis_not_after a b : 0 <= a -> 0 <= b -> After (Redis.millisResult b) (of_millis a) = (a <? b).
Proof.
  intros. unfold After, Redis.millisResult, of_millis, zero_time, second, millisecond.
  destruct (b <=? 0) eqn:E; reflect_bools; destruct (a <? b) eqn:F; reflect_bools;
    [apply Z.ltb_lt|apply Z.ltb_ge|apply Z.ltb_lt|apply Z.ltb_ge]; lia.
Qed.

Lemma millis_zero b : 0 <= b -> IsZero (Redis.millisResult b) = (b =? 0).
Proof.
  intros. unfold IsZero, Redis.millisResult, of_millis, zero_time, second, millisecond.
  destruct (b <=? 0) eqn:E; reflect_bools; destruct (b =? 0) eqn:F;
    [apply Z.eqb_eq|apply Z.eqb_neq|apply Z.eqb_eq|apply Z.eqb_neq]; lia.
Qed.

Lemma millis_positive a : 0 < a -> Redis.millisResult a = of_millis a.
Proof. intros. unfold Redis.millisResult. destruct (a <=? 0) eqn:E; [reflect_bools; lia|done]. Qed.

Lemma millis_order a b : After (of_millis a) (of_millis b) = (b <? a).
Proof.
  unfold After, of_millis, millisecond. destruct (b <? a) eqn:F; reflect_bools; [apply Z.ltb_lt|apply Z.ltb_ge]; lia.
Qed.

Lemma negb_ltb a b : negb (a <? b) = (b <=? a).
Proof. by rewrite Z.ltb_antisym, negb_involutive. Qed.

Lemma fenced_agrees o h : hash_wf h ->
  Redis.fenced (o_ProbeGeneration o) (o_ProbeToken o) h = Local.fenced o (Redis.decode h).
Proof.
  intros [_ _ _ Ht]. unfold Redis.fenced, Local.fenced. simpl.
  destruct (0 <? o_ProbeGeneration o) eqn:E0; [|done]. simpl.
  destruct (o_ProbeGeneration o =? Redis.num (Redis.generation h)); [|done]. simpl.
  rewrite Z.eqb_sym. destruct (o_ProbeGeneration o =? Redis.num (Redis.probe_generation h)) eqn:E; [|done]. simpl.
  apply Z.eqb_eq in E. reflect_bools. specialize (Ht ltac:(lia)).
  repeat case_bool_decide; simpl; congruence.
Qed.

Lemma observe_agrees clock o k :
  hash_wf (Redis.hash (Redis.live clock k)) -> 0 < UnixMilli (o_BlockedUntil o) -> 0 <= UnixMilli (o_Now o) ->
  (Redis.ObserveGitHubRateLimit clock o k).2
  = Local.observe_state (truncate_observation o) (Redis.decode (Redis.hash (Redis.live clock k))).
Proof.
  intros Hwf Hd Hn. unfold Redis.ObserveGitHubRateLimit, Redis.observe_script, Local.observe_state.
  change (Local.fenced (truncate_observation o)) with (Local.fenced o).
  cbn [o_Now o_BlockedUntil o_Kind o_Resource o_Reason o_ProbeGeneration o_ProbeToken o_ProviderDeadline truncate_observation].
  rewrite fenced_agrees by done. unfold truncate. destruct Hwf as [Hg Hb Hp Ht].
  set (h := Redis.hash (Redis.live clock k)) in *.
  set (d := UnixMilli (o_BlockedUntil o)) in *. set (n := UnixMilli (o_Now o)) in *.
  rewrite millis_order.
  change (BlockedUntil (Redis.decode h)) with (Redis.millisResult (Redis.num (Redis.blocked_until h))).
  rewrite millis_zero, millis_after, millis_not_after, !negb_ltb by done.
  destruct (Local.fenced o (Redis.decode h) && _) eqn:Eg; [done|].
  destruct (Local.fenced o (Redis.decode h)) eqn:Ef; cbn [negb andb orb].
  - change (BlockedUntil (clear_probe (Redis.decode h))) with (Redis.millisResult (Redis.num (Redis.blocked_until h))).
    rewrite millis_after by done.
    destruct (_ <? d) eqn:El; [|done]. unfold Redis.decode. simpl. by rewrite millis_positive.
  - destruct ((0 <? o_ProbeGeneration o) || (Redis.num (Redis.blocked_until h) <=? n)) eqn:Eo; cbn [negb andb orb].
    + change (BlockedUntil (clear_probe _)) with (Redis.millisResult (Redis.num (Redis.blocked_until h))).
      rewrite millis_after by done.
      destruct (_ <? d) eqn:El; [|done]. unfold Redis.decode. simpl. by rewrite millis_positive.
    + change (BlockedUntil (Redis.decode h)) with (Redis.millisResult (Redis.num (Redis.blocked_until h))).
      rewrite millis_after by done.
      destruct (_ <? d) eqn:El; [|done]. unfold Redis.decode. simpl. by rewrite millis_positive.
Qed.

Lemma claim_agrees clock owner token now leaseUntil ttl k :
  hash_wf (Redis.hash (Redis.live clock k)) -> 0 <= UnixMilli now -> 0 < UnixMilli leaseUntil ->
  (Redis.ClaimGitHubRateLimitProbe clock owner token now leaseUntil ttl k).2
  = Local.claim_state owner token (truncate now) (truncate leaseUntil) (Redis.decode (Redis.hash (Redis.live clock k))).
Proof.
  intros [Hg Hb Hp Ht] Hn Hl. unfold Redis.ClaimGitHubRateLimitProbe, Redis.claim_script, Local.claim_state, truncate.
  set (h := Redis.hash (Redis.live clock k)) in *.
  change (BlockedUntil (Redis.decode h)) with (Redis.millisResult (Redis.num (Redis.blocked_until h))).
  change (ProbeUntil (Redis.decode h)) with (Redis.millisResult (Redis.num (Redis.probe_until h))).
  rewrite millis_zero, !millis_not_after by done. change (Generation (Redis.decode h)) with (Redis.num (Redis.generation h)).
  destruct (_ || _ || _ || _); [done|]. unfold Redis.decode. simpl. by rewrite (millis_positive (UnixMilli leaseUntil)).
Qed.

Lemma complete_agrees clock owner token gen success ttl k :
  let r := Redis.CompleteGitHubRateLimitProbe clock owner token gen success ttl k in
  let st := Redis.decode (Redis.hash (Redis.live clock k)) in
  r.2 = Local.holds_probe owner token gen st
  /\ Redis.decode (Redis.hash r.1) = if r.2 then Local.complete_state gen success st else st.
Proof.
  unfold Redis.CompleteGitHubRateLimitProbe, Redis.complete_script, Local.holds_probe.
  set (h := Redis.hash (Redis.live clock k)) in *.
  change (Generation (Redis.decode h)) with (Redis.num (Redis.generation h)).
  change (ProbeGeneration (Redis.decode h)) with (Redis.num (Redis.probe_generation h)).
  change (ProbeOwner (Redis.decode h)) with (Redis.str (Redis.probe_owner h)).
  change (ProbeToken (Redis.decode h)) with (Redis.str (Redis.probe_token h)).
  destruct (Redis.num (Redis.generation h) =? gen) eqn:E1; [|done].
  destruct (Redis.num (Redis.probe_generation h) =? gen) eqn:E2; [|done].
  destruct (Redis.str (Redis.probe_owner h) ==? owner) eqn:E3; [|done].
  destruct (Redis.str (Redis.probe_token h) ==? token) eqn:E4; [|done].
  cbn [negb orb andb fst snd]. split; [done|]. apply Z.eqb_eq in E1.
  destruct success; unfold Local.complete_state, Redis.decode; simpl; [|done]. by rewrite E1.
Qed.

(** ** Operations on one record *)

Inductive record_op :=
  | OpObserve (o : GitHubRateLimitObservation)
  | OpClaim (own token : string) (now leaseUntil : time)
  | OpComplete (own token : string) (gen : Z) (success : bool).

(** The new record, and what the caller is told: whether the operation took
    effect and whether it opened an episode. *)
Definition local_step (op : record_op) (st : GitHubRateLimitState) : GitHubRateLimitState * (bool * bool) :=
  match op with
  | OpObserve o => let '(st', opened, applied) := Local.observe_state o st in (st', (applied, opened))
  | OpClaim own token now leaseUntil =>
      let '(st', claimed) := Local.claim_state own token now leaseUntil st in (st', (claimed, false))
  | OpComplete own token gen success =>
      if Local.holds_probe own token gen st then (Local.complete_state gen success st, (true, false)) else (st, (false, false))
  end.

Definition redis_step (clock : Z) (op : record_op) (k : Redis.Key) : Redis.Key * (bool * bool) :=
  match op with
  | OpObserve o => let '(k', (_, opened, applied)) := Redis.ObserveGitHubRateLimit clock o k in (k', (applied, opened))
  | OpClaim own token now leaseUntil =>
      let '(k', (_, claimed)) := Redis.ClaimGitHubRateLimitProbe clock own token now leaseUntil recoveryStateTTL k in
      (k', (claimed, false))
  | OpComplete own token gen success =>
      let '(k', completed) := Redis.CompleteGitHubRateLimitProbe clock own token gen success recoveryStateTTL k in
      (k', (completed, false))
  end.

Definition truncate_op (op : record_op) : record_op :=
  match op with
  | OpObserve o => OpObserve (truncate_observation o)
  | OpClaim own token now leaseUntil => OpClaim own token (truncate now) (truncate leaseUntil)
  | OpComplete own token gen success => OpComplete own token gen success
  end.

(** Instants of the present epoch and a probe token that is not empty. *)
Definition op_ok (op : record_op) : Prop :=
  match op with
  | OpObserve o => 0 < UnixMilli (o_BlockedUntil o) /\ 0 <= UnixMilli (o_Now o)
  | OpClaim _ token now leaseUntil => token <> "" /\ 0 <= UnixMilli now /\ 0 < UnixMilli leaseUntil
  | OpComplete _ _ _ _ => True
  end.

Lemma hdel_probe_wf h : hash_wf h -> hash_wf (Redis.hdel_probe h).
Proof. intros [Hg Hb Hp Ht]. constructor; simpl; try done; lia. Qed.
Lemma hset_label_wf kd rs rn h : hash_wf h -> hash_wf (Redis.hset_label kd rs rn h).
Proof. by intros [Hg Hb Hp Ht]. Qed.
Lemma hset_record_wf g e b h : hash_wf h -> 0 <= g -> 0 <= b ->
  hash_wf (h <| Redis.generation := Some g |> <| Redis.episode_count := Some e |> <| Redis.blocked_until := Some b |>).
Proof. intros [Hg Hb Hp Ht] ??. by constructor. Qed.
Lemma if_wf (b : bool) h h' : hash_wf h -> hash_wf h' -> hash_wf (if b then h else h').
Proof. by destruct b. Qed.
#[export] Hint Resolve hdel_probe_wf hset_label_wf if_wf : plane.

Lemma redis_step_wf clock op k :
  hash_wf (Redis.hash (Redis.live clock k)) -> op_ok op -> hash_wf (Redis.hash (redis_step clock op k).1).
Proof.
  set (h := Redis.hash (Redis.live clock k)). intros Hwf Hok.
  destruct op as [o|own token now lu|own token gen success]; simpl in *.
  - unfold Redis.ObserveGitHubRateLimit, Redis.observe_script. fold h.
    destruct (Redis.fenced _ _ h && _); [done|]. cbn [fst snd Redis.hash].
    apply hset_record_wf; [auto 6 with plane| |]; destruct Hwf as [Hg Hb Hp Ht].
    + destruct (negb _ && _); lia.
    + destruct (_ <? _); lia.
  - unfold Redis.ClaimGitHubRateLimitProbe, Redis.claim_script. fold h.
    destruct (_ || _ || _ || _); [done|]. destruct Hwf as [Hg Hb Hp Ht], Hok as (Htok & Hn & Hl).
    constructor; simpl; (done || lia).
  - unfold Redis.CompleteGitHubRateLimitProbe, Redis.complete_script. fold h.
    destruct (_ || _ || _ || _); [done|]. cbn [fst Redis.hash]. apply hdel_probe_wf.
    destruct Hwf as [Hg Hb Hp Ht], success; constructor; simpl; (done || lia).
Qed.

(** C37: the Lua scripts implement the process-local store: on a record the
    two agree about, every observation, claim and completion gives the same
    answer and leaves records that agree again, with the instants cut to the
    millisecond Redis keeps. *)
Theorem scripts_refine_local_store clock op k st :
  hash_wf (Redis.hash (Redis.live clock k)) -> Redis.decode (Redis.hash (Redis.live clock k)) = st -> op_ok op ->
  hash_wf (Redis.hash (redis_step clock op k).1)
  /\ Redis.decode (Redis.hash (redis_step clock op k).1) = (local_step (truncate_op op) st).1
  /\ (redis_step clock op k).2 = (local_step (truncate_op op) st).2.
Proof.
  intros Hwf <- Hok. split; [by apply redis_step_wf|].
  destruct op as [o|own token now lu|own token gen success]; simpl in *.
  - destruct Hok as [Hd Hn]. pose proof (observe_agrees clock o k Hwf Hd Hn) as H.
    unfold Redis.ObserveGitHubRateLimit in *. destruct (Redis.observe_script _ _ _ _ _ _ _ _ _ _ k) as [k' [inc app]].
    cbn [fst snd] in *. rewrite <- H. done.
  - destruct Hok as (_ & Hn & Hl). pose proof (claim_agrees clock own token now lu recoveryStateTTL k Hwf Hn Hl) as H.
    unfold Redis.ClaimGitHubRateLimitProbe in *. destruct (Redis.claim_script _ _ _ _ _ _ k) as [k' cl].
    cbn [fst snd] in *. rewrite <- H. done.
  - destruct (complete_agrees clock own token gen success recoveryStateTTL k) as [H1 H2].
    destruct (Redis.CompleteGitHubRateLimitProbe _ _ _ _ _ _ k) as [k' done']. cbn [fst snd] in *. subst done'.
    rewrite H2. by destruct (Local.holds_probe _ _ _ _).
Qed.

(** ** The authority of a probe *)

Fixpoint run (ops : list record_op) (st : GitHubRateLimitState) : GitHubRateLimitState :=
  match ops with [] => st | op :: ops => run ops (local_step op st).1 end.
Fixpoint trace (ops : list record_op) (st : GitHubRateLimitState) : list (record_op * (bool * bool)) :=
  match ops with [] => [] | op :: ops => (op, (local_step op st).2) :: trace ops (local_step op st).1 end.

Definition claims (token : string) (op : record_op) : Prop :=
  match op with OpClaim _ t _ _ => t = token | _ => False end.

(** Nothing happened, or a request that started during the cooldown confirmed
    it without opening an episode. *)
Definition quiet (r : record_op * (bool * bool)) : Prop :=
  r.2.1 = false \/ (exists o, r.1 = OpObserve o) /\ r.2.2 = false.

Definition probe_lost (token : string) (gen : Z) (st : GitHubRateLimitState) : Prop :=
  gen < Generation st \/ ProbeToken st <> token.

(** How one observation moves the generation and the probe. *)
Lemma observe_moves o st :
  let '(st', opened, applied) := Local.observe_state o st in
  Generation st' = Generation st + (if opened then 1 else 0)
  /\ (ProbeToken st' = ProbeToken st \/ ProbeToken st' = "")
  /\ BlockedUntil st <= BlockedUntil st'.
Proof.
  unfold Local.observe_state. destruct (Local.fenced o st && _); [simpl; repeat split; auto; lia|].
  destruct (Local.fenced o st); cbn [negb andb orb].
  - destruct (After _ _) eqn:E; unfold After in E; simpl in *; reflect_bools; repeat split; auto; lia.
  - destruct ((0 <? o_ProbeGeneration o) || _); cbn [negb andb orb];
      destruct (After (o_BlockedUntil o) _) eqn:E; unfold After in E; simpl in *; reflect_bools; repeat split; auto; lia.
Qed.

Lemma step_generation op st : Generation st <= Generation (local_step op st).1.
Proof.
  destruct op as [o|own t now lu|own t g success]; simpl.
  - pose proof (observe_moves o st) as H. destruct (Local.observe_state o st) as [[st' opened] applied].
    simpl. destruct opened; lia.
  - unfold Local.claim_state. destruct (_ || _ || _ || _); simpl; lia.
  - unfold Local.holds_probe. destruct (Generation st =? g) eqn:E; simpl; [|lia]. apply Z.eqb_eq in E.
    destruct (_ && _ && _); simpl; [|lia]. destruct success; simpl; lia.
Qed.

Lemma step_token op st token : token <> "" -> ~ claims token op -> ProbeToken st <> token ->
  ProbeToken (local_step op st).1 <> token.
Proof.
  destruct op as [o|own t now lu|own t g success]; simpl; intros Hne Hc Ht.
  - pose proof (observe_moves o st) as H. destruct (Local.observe_state o st) as [[st' opened] applied].
    simpl. destruct H as (_ & [->| ->] & _); congruence.
  - unfold Local.claim_state. destruct (_ || _ || _ || _); simpl; congruence.
  - destruct (Local.holds_probe _ _ _ _); simpl; [|done]. destruct success; simpl; congruence.
Qed.

Lemma step_lost op st token gen : token <> "" -> ~ claims token op ->
  probe_lost token gen st -> probe_lost token gen (local_step op st).1.
Proof.
  intros Hne Hc [Hg|Ht]; [left; pose proof (step_generation op st); lia|right; by apply step_token].
Qed.

(** An operation that is not quiet ends the authority of every other probe. *)
Lemma step_quiet op st token gen : token <> "" -> ~ claims token op -> gen <= Generation st ->
  quiet (op, (local_step op st).2) \/ probe_lost token gen (local_step op st).1.
Proof.
  intros Hne Hc Hg. destruct op as [o|own t now lu|own t g success]; simpl in *.
  - pose proof (observe_moves o st) as H. destruct (Local.observe_state o st) as [[st' opened] applied].
    destruct opened; [right; left; simpl; lia|left; right; eauto].
  - unfold Local.claim_state. destruct (_ || _ || _ || _); simpl; [by left; left|right; by right].
  - destruct (Local.holds_probe _ _ _ _); [|by left; left]. right. right. destruct success; simpl; congruence.
Qed.

Lemma run_lost ops st token gen : token <> "" -> Forall (fun op => ~ claims token op) ops ->
  probe_lost token gen st -> probe_lost token gen (run ops st).
Proof. intros Hne Hf. revert st. induction Hf; simpl; auto using step_lost. Qed.

Lemma run_quiet ops st token gen : token <> "" -> Forall (fun op => ~ claims token op) ops ->
  gen <= Generation st -> Forall quiet (trace ops st) \/ probe_lost token gen (run ops st).
Proof.
  intros Hne Hf. revert st. induction Hf as [|op ops Hop Hf IH]; intros st Hg; simpl; [by left|].
  destruct (step_quiet op st token gen Hne Hop Hg) as [Hq|Hl]; [|right; by apply run_lost].
  destruct (IH (local_step op st).1) as [Ht|Hl]; [pose proof (step_generation op st); lia| |by right].
  left. by constructor.
Qed.

(** a probe ends a cooldown only if nothing happened to the episode since
    its claim.  While its authority still holds, every operation in between
    was refused or merely confirmed the running cooldown: no episode opened,
    no other probe was admitted and none completed. *)
Theorem probe_success_is_exclusive own token now lu ops st0 :
  token <> "" -> Forall (fun op => ~ claims token op) ops ->
  let st1 := (local_step (OpClaim own token now lu) st0).1 in
  let outcome := (local_step (OpComplete own token (Generation st1) true) (run ops st1)).2 in
  outcome.1 = true -> Forall quiet (trace ops st1).
Proof.
  intros Hne Hf st1 outcome Hok.
  destruct (run_quiet ops st1 token (Generation st1) Hne Hf) as [?|Hl]; [lia|done|exfalso].
  subst outcome. simpl in Hok. destruct (Local.holds_probe _ _ _ _) eqn:E; [|done].
  unfold Local.holds_probe in E. apply andb_true_iff in E as [E Et]. apply andb_true_iff in E as [E _].
  apply andb_true_iff in E as [E _]. apply Z.eqb_eq in E. apply bool_decide_eq_true in Et.
  destruct Hl as [Hl|Hl]; [lia|done].
Qed.

Definition cooled_down : GitHubRateLimitState :=
  MkState 3 2 (of_millis 1000) "primary" "core" "quota" "" "" 0 zero_time.
Definition late_observation : GitHubRateLimitObservation :=
  MkObservation (of_millis 900) (of_millis 950) "secondary" "core" "late" 0 "" hour true.
Lemma probe_success_is_exclusive_witness :
  Forall quiet (trace [OpObserve late_observation; OpClaim "b" "b:1" (of_millis 1500) (of_millis 3000)]
    (local_step (OpClaim "a" "a:1" (of_millis 1200) (of_millis 2000)) cooled_down).1).
Proof.
  apply (probe_success_is_exclusive "a" "a:1" (of_millis 1200) (of_millis 2000)
    [OpObserve late_observation; OpClaim "b" "b:1" (of_millis 1500) (of_millis 3000)] cooled_down).
  - discriminate.
  - repeat constructor; simpl; [tauto|discriminate].
  - vm_compute. reflexivity.
Defined.

Definition cooled_key : Redis.Key :=
  Redis.MkKey (Redis.MkHash (Some 3) (Some 2) (Some 1000) (Some "primary") (Some "core") (Some "quota") None None None None)
    (Some 100000).
Lemma scripts_refine_local_store_witness :
  (redis_step 1200 (OpClaim "a" "a:1" (of_millis 1200) (of_millis 2000)) cooled_key).2 = (true, false).
Proof.
  refine (eq_trans (proj2 (proj2 (scripts_refine_local_store 1200
    (OpClaim "a" "a:1" (of_millis 1200) (of_millis 2000)) cooled_key cooled_down _ _ _))) _).
  - constructor; vm_compute; discriminate.
  - vm_compute. reflexivity.
  - split; [discriminate|]. vm_compute. split; [discriminate|reflexivity].
  - vm_compute. reflexivity.
Defined.

(** ** Repairing Redis *)

(** A probe of the hash that still excludes others at [now]. *)
Definition live_probe (now : Z) (h : Redis.Hash) : Prop :=
  Redis.str (Redis.probe_token h) <> "" /\ now < Redis.num (Redis.probe_until h).

Definition same_probe (h h' : Redis.Hash) : Prop :=
  Redis.probe_owner h' = Redis.probe_owner h /\ Redis.probe_token h' = Redis.probe_token h
  /\ Redis.probe_generation h' = Redis.probe_generation h /\ Redis.probe_until h' = Redis.probe_until h.

Ltac reflect_all := reflect_bools; repeat match goal with
  | H : (_ =? _) = true |- _ => apply Z.eqb_eq in H
  | H : (_ =? _) = false |- _ => apply Z.eqb_neq in H
  end.
Ltac merge_case := reflect_all; simpl in *; repeat split; try lia; try (intros; exfalso; lia);
  first [ done | intros [? ?]; first [ by left | done | lia | right; split; [by intros []|lia] ] ].

(** restoring a local record into Redis only adds evidence: the higher
    generation wins, no deadline gets shorter, no episode is forgotten, a
    recovery recorded by that generation or a later one is left alone, and a
    probe in flight is either kept or revoked under a cooldown that is still
    running, so a repair never lets a second probe in beside it. *)
Theorem repair_only_adds_evidence clock st now ttl k :
  let h := Redis.hash (Redis.live clock k) in
  let h' := Redis.hash (Redis.reconcile clock st now ttl k).1 in
  Redis.num (Redis.generation h') = Z.max (Generation st) (Redis.num (Redis.generation h))
  /\ Redis.num (Redis.blocked_until h) <= Redis.num (Redis.blocked_until h')
  /\ Redis.num (Redis.episode_count h) <= Redis.num (Redis.episode_count h')
  /\ (Redis.num (Redis.blocked_until h) = 0 -> Generation st <= Redis.num (Redis.generation h) -> h' = h)
  /\ (live_probe (UnixMilli now) h ->
      same_probe h h' \/ ~ live_probe (UnixMilli now) h' /\ UnixMilli now < Redis.num (Redis.blocked_until h')).
Proof.
  intros h h'. subst h'. unfold Redis.reconcile, Redis.reconcile_script, live_probe. fold h.
  destruct (Generation st <? Redis.num (Redis.generation h)) eqn:Elt.
  { destruct (_ || _) eqn:E; cbn [fst]; fold h; merge_case. }
  destruct (Generation st =? Redis.num (Redis.generation h)) eqn:Eeq.
  { destruct (_ || _) eqn:E; cbn [fst]; fold h; [merge_case|].
    destruct (Redis.num (Redis.blocked_until h) <? UnixMilli (BlockedUntil st)) eqn:Es; cbn [andb].
    - destruct (UnixMilli now <? UnixMilli (BlockedUntil st)) eqn:Ef; cbn [negb andb orb].
      + destruct (_ <? EpisodeCount st) eqn:Em; cbn [fst]; merge_case.
      + destruct (_ <? EpisodeCount st) eqn:Em; cbn [fst]; case_bool_decide as Et; cbn [andb];
          try case_bool_decide as Et'; cbn [negb andb orb fst]; try (destruct (ProbeGeneration st =? _));
          cbn [negb andb orb fst]; fold h; merge_case.
    - cbn [negb andb]. destruct (_ <? EpisodeCount st) eqn:Em; cbn [fst]; case_bool_decide as Et; cbn [andb];
        try case_bool_decide as Et'; cbn [negb andb orb fst]; try (destruct (ProbeGeneration st =? _));
          cbn [negb andb orb fst]; fold h; merge_case. }
  cbn [fst Redis.hash].
  destruct (UnixMilli (BlockedUntil st) <? Redis.num (Redis.blocked_until h)) eqn:Eb;
    destruct (EpisodeCount st <? Redis.num (Redis.episode_count h)) eqn:Ee;
    case_bool_decide as Et; cbn [negb andb]; try (destruct (UnixMilli now <? Redis.num (Redis.probe_until h)) eqn:Eu);
    try case_bool_decide as Et'; cbn [negb andb]; try (destruct (ProbeGeneration st =? Generation st)); merge_case.
Qed.
