(* ===== verification/HerdProperties.v ===== *)
(** * Requests during and after a cooldown

    What [Controller.Before] admits: when a cooldown has run out, the shared
    record lets exactly one of any number of controllers through; without
    Redis, a process honours the cooldowns it has seen itself. *)

From S2P Require Import Prelude GoRuntime RateLimitStore Classifier RateLimitController RateLimitProperties.
From stdpp Require Import base option list strings pretty gmap.

Open Scope string_scope.
Open Scope Z_scope.

(** ** Facts about the local store *)

Lemma prune_lookup now s k e :
  Local.entries (Local.prune now s) !! k = Some e <-> Local.entries s !! k = Some e /\ now < Local.expiresAt e.
Proof.
  unfold Local.prune. simpl. rewrite map_lookup_filter_Some. simpl. unfold After. by rewrite Z.ltb_lt.
Qed.

Lemma prune_absent now s k : Local.entries s !! k = None -> Local.entries (Local.prune now s) !! k = None.
Proof.
  intros H. destruct (Local.entries (Local.prune now s) !! k) as [e|] eqn:E; [|done].
  apply prune_lookup in E as [E _]. congruence.
Qed.

Lemma put_lookup k e s : Local.entries (Local.put k e s) !! k = Some e.
Proof. unfold Local.put. simpl. by rewrite lookup_insert_eq. Qed.

Lemma stateTTL_pos st now : 0 < stateTTL st now.
Proof.
  unfold stateTTL, recoveryStateTTL, hour, minute, second. destruct (_ <? _) eqn:E; reflect_bools; lia.
Qed.

(** A record read for the first time is remembered as it is. *)
Lemma remember_fresh k st now s : Local.entries s !! k = None -> Generation st <> 0 -> 0 <= Generation st ->
  (Local.remember k st now s).2 = st
  /\ exists e, Local.entries (Local.remember k st now s).1 !! k = Some e /\ Local.state e = st
       /\ (IsZero (BlockedUntil st) = false -> now < Local.expiresAt e).
Proof.
  intros Hk Hg0 Hg. unfold Local.remember, Local.entry_of. rewrite (prune_absent now s k Hk).
  cbn [default Local.state Local.zero_entry Generation zero_state Local.expiresAt BlockedUntil].
  replace (Generation st =? 0) with false by (symmetry; by apply Z.eqb_neq).
  replace (Generation st <? 0) with false by (symmetry; by apply Z.ltb_ge).
  replace (0 =? Generation st) with false by (symmetry; apply Z.eqb_neq; lia). cbn [orb andb].
  unfold Local.keeps_claim. cbn [Generation zero_state Local.state].
  replace (Generation st =? 0) with false by (symmetry; by apply Z.eqb_neq). cbn [andb].
  cbn [fst snd]. split; [done|]. rewrite put_lookup. eexists. split; [done|]. split; [done|]. intros Hz. cbn [Local.expiresAt].
  rewrite Hz, andb_false_r. cbn [negb andb]. pose proof (stateTTL_pos st now).
  unfold After. destruct (_ <? zero_time) eqn:E; reflect_bools; lia.
Qed.

(** Reading again what the store already holds changes nothing. *)
Lemma remember_refresh k st now s e : Local.entries s !! k = Some e -> now < Local.expiresAt e ->
  Generation st <> 0 -> Generation (Local.state e) = Generation st ->
  BlockedUntil (Local.state e) = BlockedUntil st ->
  Local.keeps_claim (Local.state e) st now = false ->
  (Local.remember k st now s).2 = st.
Proof.
  intros Hk Hlive Hg0 Hg Hb Hkeep. unfold Local.remember, Local.entry_of.
  replace (Local.entries (Local.prune now s) !! k) with (Some e) by (symmetry; by apply prune_lookup).
  change (default Local.zero_entry (Some e)) with e. rewrite Hkeep, Hg, Hb. unfold After. rewrite !Z.ltb_irrefl, andb_false_r.
  by replace (Generation st =? 0) with false by (symmetry; by apply Z.eqb_neq).
Qed.

(** ** One controller against the shared record *)

Section Fresh.
Context (c : Controller) (k : string) (now : time) (w : World) (rk : Redis.Key).
(** The controller has never seen this installation, Redis answers, and the
    key holds a record. *)
Hypothesis Hcache : has_cache c = true.
Hypothesis Hfresh : Local.entries (fallback c) !! k = None.
Hypothesis Hlink : w_link w = [].
Hypothesis Hkey : w_redis w !! k = Some rk.
Hypothesis Hlive : Redis.live (w_clock w) rk = rk.
Hypothesis Hwf : hash_wf (Redis.hash rk).
Hypothesis Hgen : 0 < Redis.num (Redis.generation (Redis.hash rk)).

Let st := Redis.decode (Redis.hash rk).

Lemma command_answered {A} (f : Redis.Key -> Redis.Key * A) :
  command k f w = (MkWorld (<[k := (f rk).1]> (w_redis w)) (w_clock w) [], Some (f rk).2).
Proof. unfold command. rewrite Hlink, Hkey. simpl. by destruct (f rk). Qed.

(** The first read returns the shared record and remembers it. *)
Lemma get_fresh : exists fb,
  get c k now w = (MkWorld (<[k := rk]> (w_redis w)) (w_clock w) [], c <| fallback := fb |>, st, false)
  /\ exists e, Local.entries fb !! k = Some e /\ Local.state e = st
       /\ (IsZero (BlockedUntil st) = false -> now < Local.expiresAt e).
Proof.
  unfold get, with_local, Local.get. cbn [fst snd].
  change (has_cache (c <| fallback := _ |>)) with (has_cache c). rewrite Hcache.
  unfold redis_get. rewrite command_answered. cbn [fst snd].
  unfold Redis.GetGitHubRateLimitState. rewrite Hlive. fold st.
  unfold Local.entry_of. rewrite (prune_absent _ _ _ Hfresh).
  change (localStateDominates (Local.state (default Local.zero_entry None)) st) with false. cbn iota.
  change (fallback (c <| fallback := ?x |>)) with x.
  destruct (remember_fresh k st now (Local.prune now (fallback c))) as (Hr & e & He & Hs & Hx).
  - by apply prune_absent.
  - unfold st. simpl. lia.
  - unfold st. simpl. lia.
  - rewrite Hr. eexists. split; [reflexivity|]. by exists e.
Qed.
End Fresh.

Lemma no_self_claim st now : Local.keeps_claim st st now = false.
Proof.
  unfold Local.keeps_claim, Before. rewrite Z.ltb_irrefl. repeat case_bool_decide; cbn [negb andb orb];
    rewrite ?andb_false_r; try done.
  destruct (ProbeGeneration st =? Generation st); cbn [negb orb]; by rewrite ?andb_false_r, ?orb_false_r.
Qed.

Lemma no_self_domination st : localStateDominates st st = false.
Proof.
  unfold localStateDominates, After. rewrite !Z.ltb_irrefl.
  destruct (Generation st =? 0); [done|]. destruct ((Generation st <=? Generation st) && IsZero (BlockedUntil st)); [done|].
  repeat case_bool_decide; cbn [negb andb]; by rewrite ?andb_false_r.
Qed.

Lemma truncate_le t : truncate t <= t.
Proof. unfold truncate, of_millis, UnixMilli. pose proof (Z.mul_div_le t millisecond). unfold millisecond in *. lia. Qed.

(** A claim on the record the controller has just read. *)
Section Claim.
Context (c : Controller) (k : string) (now lu : time) (w : World) (rk : Redis.Key) (e : Local.localEntry) (token : string).
Hypothesis Hcache : has_cache c = true.
Hypothesis Hlink : w_link w = [].
Hypothesis Hkey : w_redis w !! k = Some rk.
Hypothesis Hlive : Redis.live (w_clock w) rk = rk.
Hypothesis Hwf : hash_wf (Redis.hash rk).
Hypothesis Hgen : 0 < Redis.num (Redis.generation (Redis.hash rk)).
Let st := Redis.decode (Redis.hash rk).
Hypothesis He : Local.entries (fallback c) !! k = Some e.
Hypothesis Hstate : Local.state e = st.
Hypothesis Hkept : now < Local.expiresAt e.
Hypothesis Hblocked : IsZero (BlockedUntil st) = false.
Hypothesis Htoken : token <> "".
Hypothesis Hnow : 0 <= UnixMilli now.
Hypothesis Hlu : 0 < UnixMilli lu.

Let rk' := (Redis.ClaimGitHubRateLimitProbe (w_clock w) (owner c) token now lu recoveryStateTTL rk).1.
Let ans := Local.claim_state (owner c) token (truncate now) (truncate lu) st.

Lemma claim_outcomes :
  ans = (st, false)
  \/ ans = (st <| ProbeOwner := owner c |> <| ProbeToken := token |> <| ProbeGeneration := Generation st |>
            <| ProbeUntil := truncate lu |>, true) /\ ProbeUntil st <= now.
Proof.
  unfold ans, Local.claim_state. destruct (_ || _ || _ || _) eqn:E; [by left|right]. split; [done|].
  apply orb_false_iff in E as [_ E]. unfold After in E. reflect_bools. pose proof (truncate_le now). lia.
Qed.

Lemma claim_not_dominated : localStateDominates st ans.1 = false.
Proof.
  destruct claim_outcomes as [-> | [-> _]]; [apply no_self_domination|]. cbn [fst].
  unfold localStateDominates, After. cbn [Generation BlockedUntil ProbeToken set_col]. rewrite !Z.ltb_irrefl, Hblocked, andb_false_r.
  destruct (_ =? 0); [done|]. rewrite (bool_decide_eq_false_2 (token = "") Htoken). by rewrite andb_false_r.
Qed.

Lemma claim_not_kept : Local.keeps_claim st ans.1 now = false.
Proof.
  destruct claim_outcomes as [-> | [-> Hpu]]; [apply no_self_claim|]. cbn [fst].
  unfold Local.keeps_claim. cbn [Generation BlockedUntil ProbeToken ProbeOwner ProbeGeneration ProbeUntil set_col].
  replace (After (ProbeUntil st) now) with false by (symmetry; by apply Z.ltb_ge). by rewrite andb_false_r.
Qed.

Lemma claim_answered : exists c',
  claim c k token now lu w
  = (MkWorld (<[k := rk']> (w_redis w)) (w_clock w) [], c', (ans.1, ans.2), false) /\ mode c' = mode c /\ owner c' = owner c.
Proof.
  unfold claim, with_local, Local.get. rewrite Hcache. cbn [fst snd].
  change (fallback (c <| fallback := ?x |>)) with x. change (owner (c <| fallback := ?x |>)) with (owner c).
  unfold Local.entry_of.
  assert (Local.entries (Local.prune now (fallback c)) !! k = Some e) as Hp by by apply prune_lookup.
  rewrite Hp. change (Local.state (default Local.zero_entry (Some e))) with (Local.state e). rewrite Hstate.
  unfold redis_claim. rewrite (command_answered _ _ _ Hlink Hkey). fold rk'.
  rewrite claim_agrees by (rewrite ?Hlive; done). rewrite Hlive. fold st ans.
  rewrite claim_not_dominated. rewrite (remember_refresh _ _ _ _ e Hp Hkept); rewrite ?Hstate.
  - assert (ans.2 && (ProbeToken ans.1 ==? token) = ans.2) as ->.
    { destruct claim_outcomes as [-> | [-> _]]; [done|]. cbn [fst snd ProbeToken set_col]. by rewrite bool_decide_eq_true_2. }
    eexists. split; [reflexivity|done].
  - destruct claim_outcomes as [-> | [-> _]]; simpl; lia.
  - by destruct claim_outcomes as [-> | [-> _]].
  - by destruct claim_outcomes as [-> | [-> _]].
  - apply claim_not_kept.
Qed.
End Claim.

(** ** A herd of requests after a cooldown *)

Section Herd.
Context (scope : Scope) (k : string).

(** A controller in enforcement that covers the installation and has not yet
    met it. *)
Record newcomer (c : Controller) : Prop := {
  nc_mode : mode c = ModeEnforce;
  nc_participates : Participates c (InstallationID scope) = true;
  nc_key : key c (InstallationID scope) = k;
  nc_cache : has_cache c = true;
  nc_fresh : Local.entries (fallback c) !! k = None
}.

(** The shared record as the herd finds it: answered by Redis, retained, and
    past its cooldown at [now]. *)
Record cooled (w : World) (rk : Redis.Key) (now : time) : Prop := {
  co_link : w_link w = [];
  co_key : w_redis w !! k = Some rk;
  co_live : Redis.live (w_clock w) rk = rk;
  co_wf : hash_wf (Redis.hash rk);
  co_gen : 0 < Redis.num (Redis.generation (Redis.hash rk));
  co_blocked : 0 < Redis.num (Redis.blocked_until (Redis.hash rk)) <= UnixMilli now
}.

Lemma token_nonempty own n : own +:+ ":probe:" +:+ n <> "".
Proof. by destruct own. Qed.

(** A claim on a record past its cooldown is refused only to a live probe. *)
Lemma refused_by_probe own token now lu h : hash_wf h -> 0 < UnixMilli now ->
  0 < Redis.num (Redis.generation h) -> 0 < Redis.num (Redis.blocked_until h) <= UnixMilli now ->
  (Local.claim_state own token (truncate now) (truncate lu) (Redis.decode h)).2 = false ->
  now < ProbeUntil (Redis.decode h).
Proof.
  intros [_ _ Hp _] Hn Hg Hb. unfold Local.claim_state, truncate. simpl.
  rewrite millis_zero, !millis_not_after by lia.
  replace (_ =? 0) with false by (symmetry; apply Z.eqb_neq; lia).
  replace (_ =? 0) with false by (symmetry; apply Z.eqb_neq; lia).
  replace (UnixMilli now <? Redis.num (Redis.blocked_until h)) with false by (symmetry; apply Z.ltb_ge; lia).
  cbn [orb]. destruct (_ <? _) eqn:E; [intros _|done]. reflect_bools. rewrite millis_positive by lia.
  unfold of_millis, UnixMilli, millisecond in *. pose proof (Z.mul_succ_div_gt now 1000000). lia.
Qed.

(** What one newcomer gets, by the claim on the shared record. *)
Lemma before_newcomer c w rk now : newcomer c -> cooled w rk now -> 0 < probeLease c ->
  let token := owner c +:+ ":probe:" +:+ pretty (probeSeq c + 1) in
  let lu := now + probeLease c in
  let ans := Local.claim_state (owner c) token (truncate now) (truncate lu) (Redis.decode (Redis.hash rk)) in
  let rk' := (Redis.ClaimGitHubRateLimitProbe (w_clock w) (owner c) token now lu recoveryStateTTL rk).1 in
  let out := BeforeRequest c scope now now w in
  out.1.1 = MkWorld (<[k := rk']> (w_redis w)) (w_clock w) []
  /\ (ans.2 = true -> p_Probe out.2.1 = true /\ out.2.2 = None)
  /\ (ans.2 = false -> p_Probe out.2.1 = false /\ exists d, out.2.2 = Some d
       /\ d_RetryAt d = ProbeUntil (Redis.decode (Redis.hash rk)) /\ now < d_RetryAt d).
Proof.
  intros [Hmode Hpart Hk Hcache Hfresh] [Hlink Hkey Hlive Hwf Hgen Hbl] Hlease token lu ans rk' out.
  assert (0 < UnixMilli now) as Hnow by lia.
  assert (UnixMilli now <= UnixMilli lu) as Hlu by (apply UnixMilli_mono; unfold lu; lia).
  destruct (get_fresh c k now w rk) as (fb & Hget & e & He & Hs & Hx); try done.
  set (st := Redis.decode (Redis.hash rk)) in *.
  assert (IsZero (BlockedUntil st) = false) as Hz.
  { unfold st. simpl. rewrite millis_zero by lia. apply Z.eqb_neq. lia. }
  assert (BlockedUntil st <= now) as Hbn.
  { unfold st. simpl. rewrite millis_positive by lia. pose proof (truncate_le now). unfold truncate, of_millis, millisecond in *. lia. }
  assert (After (BlockedUntil st) now = false) as Ha by by apply Z.ltb_ge.
  assert ((Generation st =? 0) = false) as Hg by (apply Z.eqb_neq; unfold st; simpl; lia).
  set (w1 := MkWorld (<[k := rk]> (w_redis w)) (w_clock w) []) in *.
  set (c1 := c <| fallback := fb |> <| probeSeq := probeSeq c + 1 |>).
  destruct (claim_answered c1 k now lu w1 rk e token) as (c2 & Hcl & Hm & Ho); try done.
  { unfold w1. simpl. by rewrite lookup_insert_eq. }
  { auto. } { apply token_nonempty. } { lia. } { lia. }
  change (owner c1) with (owner c) in Hcl. fold st ans in Hcl. change (w_clock w1) with (w_clock w) in Hcl. fold rk' in Hcl.
  assert (out = BeforeRequest c scope now now w) as Hout by done. clearbody out.
  unfold BeforeRequest in Hout. rewrite Hpart in Hout. cbn [negb] in Hout. rewrite Hk, Hget in Hout.
  rewrite Hg, Hz, Ha in Hout. cbn [orb] in Hout.
  change (c <| fallback := fb |> <| probeSeq := probeSeq (c <| fallback := fb |>) + 1 |>) with c1 in Hout.
  change (owner c1 +:+ ":probe:" +:+ pretty (probeSeq c1)) with token in Hout.
  change (now + probeLease (c <| fallback := fb |>)) with lu in Hout. rewrite Hcl in Hout. cbn iota in Hout.
  assert (w_redis w1 = w_redis w) as Hw1 by by apply insert_id. rewrite Hw1 in Hout.
  assert (ans = (st, false) \/ ans.2 = true) as [Hans|Hans].
  { destruct (claim_outcomes c1 now lu rk token) as [E|[E _]]; [by left|right; exact (f_equal snd E)]. }
  - assert (now < ProbeUntil st) as Hp by (apply (refused_by_probe (owner c) token now lu (Redis.hash rk)); try done; exact (f_equal snd Hans)).
    rewrite Hans in Hout. cbn [fst snd] in Hout. rewrite Hm in Hout.
    change (mode c1) with (mode c) in Hout. rewrite Hmode in Hout.
    set (filled := if Kind st ==? "" then _ else st) in Hout.
    assert (Generation filled = Generation st /\ BlockedUntil filled = BlockedUntil st /\ ProbeUntil filled = ProbeUntil st)
      as (Hf1 & Hf2 & Hf3) by (unfold filled; by destruct (_ ==? _)).
    clearbody filled. rewrite Hf2, Hf3, Hz, andb_false_r in Hout. cbn [andb] in Hout.
    replace (After (ProbeUntil st) (BlockedUntil st)) with true in Hout by (symmetry; apply Z.ltb_lt; lia).
    replace (After (ProbeUntil st) now) with true in Hout by (symmetry; by apply Z.ltb_lt).
    subst out. split; [done|]. split; [by rewrite Hans|]. intros _. cbn [fst snd p_Probe].
    split; [done|]. eexists. split; [reflexivity|done].
  - rewrite Hans in Hout. subst out. split; [done|]. split; [done|]. by rewrite Hans.
Qed.

(** Requests of several controllers, one after the other. *)
Fixpoint herd (l : list (Controller * time)) (w : World) : list (Permit * option Deferral) :=
  match l with
  | [] => []
  | (c, t) :: l => let out := BeforeRequest c scope t t w in out.2 :: herd l out.1.1
  end.

Definition deferred_to (retryAt : time) (out : Permit * option Deferral) : Prop :=
  p_Probe out.1 = false /\ exists d, out.2 = Some d /\ d_RetryAt d = retryAt.

(** While a probe is in flight every claim leaves the key as it is. *)
Lemma claim_refused clock own token now lu ttl rk :
  Redis.live clock rk = rk -> UnixMilli now < Redis.num (Redis.probe_until (Redis.hash rk)) ->
  (Redis.ClaimGitHubRateLimitProbe clock own token now lu ttl rk).1 = rk.
Proof.
  intros Hl Hp. unfold Redis.ClaimGitHubRateLimitProbe, Redis.claim_script. rewrite Hl.
  replace (UnixMilli now <? Redis.num (Redis.probe_until (Redis.hash rk))) with true by (symmetry; by apply Z.ltb_lt).
  by rewrite !orb_true_r.
Qed.

Lemma herd_deferred l w rk :
  Forall (fun p => newcomer p.1 /\ 0 < probeLease p.1 /\ cooled w rk p.2
                   /\ UnixMilli p.2 < Redis.num (Redis.probe_until (Redis.hash rk))) l ->
  Forall (deferred_to (of_millis (Redis.num (Redis.probe_until (Redis.hash rk))))) (herd l w).
Proof.
  induction l as [|[c t] l IH]; intros Hl; simpl; [done|].
  apply Forall_cons in Hl as [(Hnc & Hlease & Hco & Hlt) Hl]. cbn [fst snd] in *.
  destruct (before_newcomer c w rk t Hnc Hco Hlease) as (Hw & _ & Href).
  destruct Hco as [Hlink Hkey Hlive Hwf Hgen Hbl]. pose proof (wf_blocked _ Hwf).
  destruct Href as (Hnp & d & Hd & Hr & _).
  { unfold Local.claim_state, truncate. simpl. rewrite (millis_not_after _ (Redis.num (Redis.probe_until _))) by lia.
    replace (_ <? Redis.num (Redis.probe_until (Redis.hash rk))) with true by (symmetry; by apply Z.ltb_lt).
    by rewrite orb_true_r. }
  constructor.
  - split; [done|]. exists d. split; [done|]. rewrite Hr. simpl. apply millis_positive. lia.
  - rewrite Hw, claim_refused, insert_id by done. destruct w as [rd ck lk]. simpl in *. subst lk. auto.
Qed.

Lemma claim_granted clock own token now lu rk : Redis.live clock rk = rk ->
  0 < Redis.num (Redis.generation (Redis.hash rk)) ->
  0 < Redis.num (Redis.blocked_until (Redis.hash rk)) <= UnixMilli now ->
  Redis.num (Redis.probe_until (Redis.hash rk)) <= UnixMilli now ->
  Redis.ClaimGitHubRateLimitProbe clock own token now lu recoveryStateTTL rk
  = let h := (Redis.hash rk) <| Redis.probe_owner := Some own |> <| Redis.probe_token := Some token |>
       <| Redis.probe_generation := Some (Redis.num (Redis.generation (Redis.hash rk))) |>
       <| Redis.probe_until := Some (UnixMilli lu) |> in
    (Redis.MkKey h (Some (clock + Milliseconds recoveryStateTTL)), (Redis.decode h, true)).
Proof.
  intros Hl Hg Hb Hp. unfold Redis.ClaimGitHubRateLimitProbe, Redis.claim_script. rewrite Hl.
  replace (_ =? 0) with false by (symmetry; apply Z.eqb_neq; lia).
  replace (_ =? 0) with false by (symmetry; apply Z.eqb_neq; lia).
  replace (_ <? _) with false by (symmetry; apply Z.ltb_ge; lia).
  replace (_ <? _) with false by (symmetry; apply Z.ltb_ge; lia). done.
Qed.
End Herd.


Definition controller_named (own : string) : Controller :=
  MkController ModeEnforce "prod" 7 [42] true own (30 * second) (Local.newLocalStore 1024) 0.
Definition scope42 : Scope := MkScope 42 "pr_sync" "pulls" "webhook".
Definition key42 : string := Eval vm_compute in key (controller_named "a") 42.
Definition world42 : World := MkWorld {[ key42 := cooled_key ]} 2000 [].
Lemma controller_is_newcomer own : newcomer scope42 key42 (controller_named own).
Proof. constructor; by vm_compute. Qed.

(** ** Without Redis *)

(** What every operation of the local store keeps true of a record: only an
    opened episode has a deadline. *)
Definition state_ok (st : GitHubRateLimitState) : Prop :=
  0 <= Generation st /\ (Generation st = 0 -> BlockedUntil st = zero_time).

Definition store_ok (s : Local.localStore) : Prop :=
  forall k e, Local.entries s !! k = Some e -> state_ok (Local.state e).

Lemma entry_ok now s k : store_ok s -> state_ok (Local.state (Local.entry_of (Local.prune now s) k)).
Proof.
  intros Hs. unfold Local.entry_of. destruct (Local.entries (Local.prune now s) !! k) as [e|] eqn:E; [|by split].
  apply prune_lookup in E as [E _]. by apply (Hs k).
Qed.

Lemma prune_ok now s : store_ok s -> store_ok (Local.prune now s).
Proof. intros Hs k e [He _]%prune_lookup. by apply (Hs k). Qed.

(** A plain request's throttle leaves an open episode at least as long as the
    deadline it carries, retained past that deadline. *)
Lemma local_observe_plain k o s : store_ok s -> o_ProbeGeneration o = 0 -> zero_time <= o_Now o ->
  exists e, Local.entries (Local.observe k o s).1 !! k = Some e /\ 0 < Generation (Local.state e)
    /\ o_BlockedUntil o <= BlockedUntil (Local.state e) /\ BlockedUntil (Local.state e) + minute <= Local.expiresAt e.
Proof.
  intros Hs Hp Hn. unfold Local.observe.
  destruct (entry_ok (o_Now o) s k Hs) as [Hg Hz]. set (entry := Local.entry_of _ k) in *.
  unfold Local.observe_state, Local.fenced. rewrite Hp. cbn [andb orb negb Z.ltb Z.compare].
  set (opened := negb (After (BlockedUntil (Local.state entry)) (o_Now o))).
  assert (opened = false -> 0 < Generation (Local.state entry)) as Ho.
  { unfold opened, After. intros E. reflect_bools.
    destruct (decide (Generation (Local.state entry) = 0)) as [E0|]; [specialize (Hz E0); lia|lia]. }
  set (st1 := if opened then clear_probe _ else _).
  assert (0 < Generation st1) as Hg1 by (unfold st1; destruct opened; simpl; [lia|by apply Ho]).
  clearbody st1. cbn [fst snd negb]. rewrite put_lookup. eexists. split; [reflexivity|].
  cbn [Local.state Local.expiresAt]. unfold After.
  destruct (BlockedUntil st1 <? o_BlockedUntil o) eqn:E1; simpl; reflect_bools;
    (split; [done|split; [lia|]]); split_ifs; reflect_bools; lia.
Qed.

(** without Redis a process still honours the throttles it has seen.
    After a throttled response whose deadline is ahead, every request of the
    same process to that installation before the deadline is suppressed until
    the deadline or later. *)
Theorem degraded_process_honours_cooldown ParseTime c permit ob now later t w deadline :
  let inst := InstallationID (p_Scope permit) in
  let cls := ClassifyResponse ParseTime now
    (MkResponseInput (ob_StatusCode ob) (ob_Header ob) (ob_Message ob) (ob_GraphQLErrors ob) now) in
  has_cache c = false -> mode c = ModeEnforce -> Participates c inst = true -> store_ok (fallback c) ->
  p_Probe permit = false -> RateLimited cls = true -> RetryAt cls = Some deadline ->
  0 <= now <= t -> t < deadline ->
  let out := ObserveResponse ParseTime c permit ob now later w in
  exists d, (BeforeRequest out.1.2 (p_Scope permit) t t out.1.1).2.2 = Some d /\ deadline <= d_RetryAt d.
Proof.
  intros inst cls Hc Hm Hp Hs Hpr Hrl Hra Hn Ht.
  assert (exists w' fb e, (ObserveResponse ParseTime c permit ob now later w).1 = (w', c <| fallback := fb |>)
    /\ Local.entries fb !! key c inst = Some e /\ 0 < Generation (Local.state e)
    /\ deadline <= BlockedUntil (Local.state e) /\ BlockedUntil (Local.state e) + minute <= Local.expiresAt e)
    as (w' & fb & e & Hout & He & Hg & Hd & Hx).
  { pose proof Hp as Hpart. unfold Participates in Hpart. rewrite Hm in Hpart.
    destruct (inst <=? 0) eqn:E1; [done|]. destruct (appID c <=? 0) eqn:E2; [done|].
    unfold ObserveResponse. fold inst cls. rewrite E1, E2, Hp, Hrl, Hra. cbn [negb orb].
    unfold get, with_local, Local.get. cbn [fst snd].
    change (has_cache (c <| fallback := ?x |>)) with (has_cache c). rewrite Hc.
    unfold observe. change (has_cache (c <| fallback := ?x |>)) with (has_cache c). rewrite Hc.
    unfold with_local, probeGeneration. rewrite Hpr. change (fallback (c <| fallback := ?x |>)) with x.
    set (o := MkObservation _ _ _ _ _ _ _ _ _). set (s := Local.prune later (fallback c)).
    destruct (local_observe_plain (key c inst) o s) as (e & He & Hg & Hd & Hx);
      [by apply prune_ok|done|unfold zero_time, second; simpl; lia|].
    destruct (Local.observe (key c inst) o s) as [fb [[st op] ap]]. cbn [fst snd] in *.
    exists w, fb, e. done. }
  intros out. subst out. rewrite Hout. cbn [fst snd].
  unfold BeforeRequest. change (Participates (c <| fallback := fb |>)) with (Participates c). fold inst. rewrite Hp. cbn [negb].
  change (key (c <| fallback := fb |>)) with (key c).
  unfold get, with_local, Local.get. cbn [fst snd]. change (fallback (c <| fallback := ?x |>)) with x.
  change (has_cache (c <| fallback := ?x |> <| fallback := ?y |>)) with (has_cache c). rewrite Hc.
  unfold Local.entry_of. replace (Local.entries (Local.prune t fb) !! key c inst) with (Some e)
    by (symmetry; apply prune_lookup; split; [done|unfold minute, second in *; lia]).
  change (default Local.zero_entry (Some e)) with e.
  replace (Generation (Local.state e) =? 0) with false by (symmetry; apply Z.eqb_neq; lia).
  replace (IsZero (BlockedUntil (Local.state e))) with false by (symmetry; apply Z.eqb_neq; unfold zero_time, second; lia).
  replace (After (BlockedUntil (Local.state e)) t) with true by (symmetry; apply Z.ltb_lt; lia).
  cbn [orb fst snd]. change (mode (c <| fallback := ?x |> <| fallback := ?y |>)) with (mode c). rewrite Hm.
  eexists. split; [reflexivity|]. done.
Qed.

Definition lone_controller : Controller :=
  MkController ModeEnforce "prod" 7 [42] false "a" (30 * second) (Local.newLocalStore 1024) 0.
Definition throttled : Observation :=
  MkObs 429 (Some {[ "Retry-After" := ["120"] ]}) "slow down" [] false false.
Lemma degraded_process_honours_cooldown_witness :
  let out := ObserveResponse (fun _ => None) lone_controller (plain_permit scope42) throttled (hour) (hour) world42 in
  exists d, (BeforeRequest out.1.2 scope42 (hour + minute) (hour + minute) out.1.1).2.2 = Some d
            /\ hour + 2 * minute <= d_RetryAt d.
Proof.
  apply (degraded_process_honours_cooldown (fun _ => None) lone_controller (plain_permit scope42) throttled
    hour hour (hour + minute) world42 (hour + 2 * minute)); try (vm_compute; reflexivity).
  - intros k e He. change (Local.entries (fallback lone_controller)) with (∅ : gmap string Local.localEntry) in He.
    by rewrite lookup_empty in He.
  - vm_compute. split; discriminate.
Defined.
