(* ===== verification/Quota.v ===== *)
(** * Background quota and check refresh

    internal/cache/github_quota.go, internal/cache/github_check_refresh.go and
    internal/services/github/ratelimit/{background_quota,check_refresh}.go.
    Work nobody waits for leaves part of an installation's core quota alone:
    responses report what is left of each quota window (a family, named by its
    reset instant), and background work is admitted freely, through one
    periodic lane, or not at all, by the lowest value still in force.

    The three hashes of one installation and the check-refresh slot are the
    state [Quota]; times are the integral milliseconds the scripts compare.
    A hash is iterated in the order of its list of candidates; the order of
    families does not matter.  [clock] is the time of the Redis server, which
    drives expiry, [now] the time the caller passes. *)

From S2P Require Import Prelude GoRuntime Classifier RateLimitStore RateLimitController.
From stdpp Require Import base option list strings pretty gmap.

Open Scope string_scope.
Open Scope Z_scope.

(** ** The hashes *)

(** The value of a [candidate:] field: what [^(%d+):(%d+)$] matches, or text
    an older writer left. *)
Inductive cand := CandAt (deadline sequence : Z) | CandText (s : string).

Record Legacy := MkLegacy {
  lg_reset : option Z; lg_limit : option Z; lg_remaining : option Z;
  lg_sequence : option Z; lg_next_admission : option Z;
  lg_candidates : list (string * cand)
}.
#[export] Instance eta_legacy : Eta Legacy := fun l =>
  MkLegacy (lg_reset l) (lg_limit l) (lg_remaining l) (lg_sequence l) (lg_next_admission l) (lg_candidates l).
Definition no_legacy : Legacy := MkLegacy None None None None None [].

(** [overflow] holds [overflow_reset] and [overflow_remaining], written and
    deleted together; [families] the [reset:] fields. *)
Record Families := MkFamilies { overflow : option (Z * Z); families : gmap Z Z }.
Definition no_families : Families := MkFamilies None ∅.

Record Lane := MkLane { migrated : bool; sequence : option Z; next_admission : option Z; candidates : list (string * cand) }.
#[export] Instance eta_lane : Eta Lane := fun l => MkLane (migrated l) (sequence l) (next_admission l) (candidates l).
Definition no_lane : Lane := MkLane false None None [].

(** The keys of one installation with their expiries in server time. *)
Record Quota := MkQuota {
  q_legacy : Legacy; q_legacy_expire : option Z;
  q_families : Families; q_families_expire : option Z;
  q_lane : Lane; q_lane_expire : option Z;
  q_slot : option Z
}.
#[export] Instance eta_quota : Eta Quota := fun q =>
  MkQuota (q_legacy q) (q_legacy_expire q) (q_families q) (q_families_expire q) (q_lane q) (q_lane_expire q) (q_slot q).
Definition no_quota : Quota := MkQuota no_legacy None no_families None no_lane None None.

Definition expired (clock : Z) (e : option Z) : bool := match e with Some t => t <=? clock | None => false end.
(** An expired key reads as missing. *)
Definition live_key {A} (clock : Z) (e : option Z) (v missing : A) : A := if expired clock e then missing else v.
Definition live_quota (clock : Z) (q : Quota) : Quota :=
  let '(MkQuota lg lge fm fme ln lne sl) := q in
  MkQuota (live_key clock lge lg no_legacy) (live_key clock lge lge None)
          (live_key clock fme fm no_families) (live_key clock fme fme None)
          (live_key clock lne ln no_lane) (live_key clock lne lne None)
          (live_key clock sl sl None).

(** [EXISTS]: a hash without fields is no key. *)
Definition lane_exists (l : Lane) : bool :=
  migrated l || negb (is_null (sequence l)) || negb (is_null (next_admission l))
  || negb (match candidates l with [] => true | _ => false end).

(** ** githubQuotaFamiliesScript *)

Definition githubQuotaMaxFamilies : nat := 16.
Definition githubQuotaMaxResetAge : duration := 2 * hour.
Definition githubQuotaMaxCandidates : nat := 1024.
Definition githubQuotaMaxInterval : duration := 15 * minute.
Definition githubQuotaMaxCandidateExpiry : duration := 3 * githubQuotaMaxInterval.

(** The local variables of the script. *)
Record Scan := MkScan { fams : Families; latest_reset : Z; lowest_remaining : option Z }.

Definition lower (low : option Z) (remaining : Z) : option Z :=
  Some (match low with Some l => Z.min l remaining | None => remaining end).

Definition scan_families (now : Z) (f : Families) : Scan :=
  let over := match overflow f with
    | Some (reset, remaining) => if (reset <=? now) || (remaining <? 0) then None else Some (reset, remaining)
    | None => None
    end in
  let current := filter (fun kv : Z * Z => now < kv.1 /\ 0 <= kv.2) (families f) in
  MkScan (MkFamilies over current)
    (map_fold (fun reset _ acc => Z.max acc reset) (match over with Some (r, _) => r | None => 0 end) current)
    (map_fold (fun _ remaining acc => lower acc remaining) (snd <$> over) current).

(** merge_family: the new locals and whether the value was taken. *)
Definition merge_family (now max_age : Z) (max_families : nat) (reset remaining : Z) (s : Scan) : Scan * bool :=
  let f := fams s in
  let take := (MkScan (MkFamilies (overflow f) (<[reset := remaining]> (families f)))
                 (Z.max (latest_reset s) reset) (lower (lowest_remaining s) remaining), true) in
  if (reset <=? now) || (now + max_age <? reset) || (remaining <? 0) then (s, false)
  else match families f !! reset with
  | Some prior => if prior <? remaining then (s, false) else take
  | None =>
      if (max_families <=? size (families f))%nat then
        let over_reset := Z.max (match overflow f with Some (r, _) => r | None => 0 end) reset in
        let over_remaining := match overflow f with Some (_, q) => Z.min q remaining | None => remaining end in
        (MkScan (MkFamilies (Some (over_reset, over_remaining)) (families f))
           (Z.max (latest_reset s) over_reset) (lower (lowest_remaining s) over_remaining), true)
      else take
  end.

(** The preamble: what is still in force, with the scalar fields of older
    writers merged in. *)
Definition quota_families (now max_age : Z) (max_families : nat) (q : Quota) : Scan :=
  let s := scan_families now (q_families q) in
  let lg := q_legacy q in
  let legacy_reset := default 0 (lg_reset lg) in
  let legacy_limit := default 0 (lg_limit lg) in
  let legacy_remaining := default (-1) (lg_remaining lg) in
  if (0 <? legacy_limit) && (legacy_remaining <=? legacy_limit)
  then (merge_family now max_age max_families legacy_reset legacy_remaining s).1 else s.

(** retain_families, on the locals [s] and the keys of [q]. *)
Definition retain_families (clock now : Z) (s : Scan) (q : Quota) : Quota :=
  if now <? latest_reset s then
    let exp := Some (clock + (latest_reset s - now)) in
    let q := q <| q_families := fams s |> <| q_families_expire := exp |> in
    if lane_exists (q_lane q) then q <| q_lane_expire := exp |> else q
  else q <| q_families := no_families |> <| q_families_expire := None |>
         <| q_lane := no_lane |> <| q_lane_expire := None |>.

(** githubQuotaObserveScript. *)
Definition observe_quota_script (clock now reset lim remaining max_age : Z) (max_families : nat) (q : Quota) : Quota * bool :=
  let q := live_quota clock q in
  let lg := q_legacy q in
  let legacy_reset := default 0 (lg_reset lg) in
  let legacy_remaining := default (-1) (lg_remaining lg) in
  let '(s, applied) := merge_family now max_age max_families reset remaining (quota_families now max_age max_families q) in
  let keep_old := (reset <? legacy_reset) || ((legacy_reset <? reset) && (now <? legacy_reset))
                  || ((reset =? legacy_reset) && (legacy_remaining <? remaining)) in
  let q := if (now <? reset) && negb keep_old
    then q <| q_legacy := lg <| lg_reset := Some reset |> <| lg_limit := Some lim |> <| lg_remaining := Some remaining |> |>
           <| q_legacy_expire := Some (clock + (reset - now)) |>
    else q in
  (retain_families clock now s q, applied).

(** ** githubBackgroundAdmissionScript *)

Definition clear_legacy_lane (lg : Legacy) : Legacy :=
  lg <| lg_candidates := [] |> <| lg_sequence := None |> <| lg_next_admission := None |>.

Definition reset_lane (clock now : Z) (s : Scan) (q : Quota) : Quota :=
  let lane := if now <? latest_reset s then no_lane <| migrated := true |> else no_lane in
  retain_families clock now s
    (q <| q_lane := lane |> <| q_lane_expire := None |> <| q_legacy := clear_legacy_lane (q_legacy q) |>).

(** The one-time import of the candidates an older binary queued. *)
Definition importable (now max_candidate_expiry : Z) (field : string) (v : cand) : bool :=
  match v with
  | CandAt deadline seq =>
      (0 <? Z.of_nat (String.length field)) && (Z.of_nat (String.length field) <=? 128)
      && (now <? deadline) && (deadline <=? now + max_candidate_expiry) && (0 <? seq) && (seq <? 9007199254740991)
  | CandText _ => false
  end.
Definition seq_of (v : cand) : Z := match v with CandAt _ s => s | CandText _ => 0 end.
Definition migrate (now max_interval max_candidate_expiry : Z) (max_candidates : nat) (lg : Legacy) : Lane :=
  let imported := take max_candidates
    (List.filter (fun kv => importable now max_candidate_expiry kv.1 kv.2) (lg_candidates lg)) in
  let legacy_next := default 0 (lg_next_admission lg) in
  MkLane true (Some (foldl (fun m kv => Z.max m (seq_of kv.2)) 0 imported))
    (if (now <? legacy_next) && (legacy_next <=? now + max_interval) then Some legacy_next else None) imported.

(** [HSET] of a candidate field, and [HDEL]. *)
Definition hdel (c : string) (l : list (string * cand)) : list (string * cand) := List.filter (fun kv => kv.1 <>? c) l.
Fixpoint hset (c : string) (v : cand) (l : list (string * cand)) : list (string * cand) :=
  match l with
  | [] => [(c, v)]
  | kv :: l => if kv.1 ==? c then (c, v) :: l else kv :: hset c v l
  end.
Fixpoint hget (c : string) (l : list (string * cand)) : option cand :=
  match l with
  | [] => None
  | kv :: l => if kv.1 ==? c then Some kv.2 else hget c l
  end.

Definition waiting (now : Z) (kv : string * cand) : bool :=
  match kv.2 with CandAt deadline _ => now <? deadline | CandText _ => false end.

(** The first candidate of least sequence. *)
Definition oldest (l : list (string * cand)) : option (string * cand) :=
  foldl (fun acc kv => match acc with
    | None => Some kv
    | Some best => if seq_of kv.2 <? seq_of best.2 then Some kv else acc
    end) None l.

(** The five numbers of the reply. *)
Record Admission := MkAdmission { Known : bool; Low : bool; WasAdmitted : bool; Overflow : bool; AdmitRetryAt : Z }.

(** The periodic lane, on a migrated lane. *)
Definition lane_step (now interval expiry : Z) (max_candidates : nat) (candidate : string) (l : Lane) : Lane * Admission :=
  let live := List.filter (waiting now) (candidates l) in
  let l := l <| candidates := live |> in
  let current := match hget candidate live with Some (CandAt _ s) => Some s | _ => None end in
  if is_null current && (max_candidates <=? length live)%nat then (l, MkAdmission true true true true 0)
  else
    let '(l, seq) := match current with
      | Some s => (l, s)
      | None => let s := default 0 (sequence l) + 1 in (l <| sequence := Some s |>, s)
      end in
    let l := l <| candidates := hset candidate (CandAt (now + expiry) seq) (candidates l) |> in
    let first := match oldest live with Some kv => kv.1 | None => candidate end in
    let next := default 0 (next_admission l) in
    if (next <=? now) && (first ==? candidate)
    then (l <| candidates := hdel candidate (candidates l) |> <| next_admission := Some (now + interval) |>,
          MkAdmission true true true false (now + interval))
    else (l, MkAdmission true true false false (if next <=? now then now + interval else next)).

Definition admit_background_script (clock now reserve : Z) (candidate : string) (interval expiry max_age : Z)
    (max_families : nat) (max_interval max_candidate_expiry : Z) (max_candidates : nat) (q : Quota) : Quota * Admission :=
  let q := live_quota clock q in
  let s := quota_families now max_age max_families q in
  match lowest_remaining s with
  | None => (reset_lane clock now s q, MkAdmission false false true false 0)
  | Some low =>
      if reserve <? low then (reset_lane clock now s q, MkAdmission true false true false 0)
      else
        let q := if migrated (q_lane q) then q
          else q <| q_lane := migrate now max_interval max_candidate_expiry max_candidates (q_legacy q) |>
                 <| q_lane_expire := None |> in
        let q := retain_families clock now s q in
        let '(lane, a) := lane_step now interval expiry max_candidates candidate (q_lane q) in
        (q <| q_lane := lane |>, a)
  end.

(** githubCheckRefreshAdmissionScript. *)
Definition check_refresh_script (clock now reserve interval max_age : Z) (max_families : nat) (q : Quota) : Quota * bool :=
  let q := live_quota clock q in
  let s := quota_families now max_age max_families q in
  let q := retain_families clock now s q in
  if match lowest_remaining s with Some low => low <=? reserve | None => false end then (q, false)
  else if interval =? 0 then (q, true)
  else match q_slot q with
       | Some _ => (q, false)
       | None => (q <| q_slot := Some (clock + interval) |>, true)
       end.

(** ** The Redis client *)

Record GitHubQuotaObservation := MkQuotaObservation { qo_Now : time; qo_ResetAt : time; qo_Limit : Z; qo_Remaining : Z }.

(** One script under [doCommand]: refused before it runs, executed with its
    reply lost, or answered. *)
Definition run_script {A} (fate : Link) (f : Quota -> Quota * A) (q : Quota) : Quota * option A :=
  match fate with
  | Refused => (q, None)
  | ReplyLost => ((f q).1, None)
  | Answered => let '(q, a) := f q in (q, Some a)
  end.

(** [Some false] without a command when the observation is not plausible. *)
Definition ObserveGitHubQuota (fate : Link) (clock : Z) (o : GitHubQuotaObservation) (q : Quota) : Quota * option bool :=
  if (qo_Limit o <=? 0) || (qo_Remaining o <? 0) || (qo_Limit o <? qo_Remaining o)
     || negb (After (qo_ResetAt o) (qo_Now o)) || (githubQuotaMaxResetAge <? Sub (qo_ResetAt o) (qo_Now o))
  then (q, Some false)
  else run_script fate (observe_quota_script clock (UnixMilli (qo_Now o)) (UnixMilli (qo_ResetAt o)) (qo_Limit o)
         (qo_Remaining o) (Milliseconds githubQuotaMaxResetAge) githubQuotaMaxFamilies) q.

(** The error of a lost or refused command, and of a bad argument, is [None]. *)
Definition AdmitGitHubBackground (fate : Link) (clock : Z) (candidate : string) (now : time) (reserve : Z)
    (interval : duration) (q : Quota) : Quota * option Admission :=
  if reserve <=? 0 then (q, Some (MkAdmission false false true false 0))
  else if (candidate ==? "") || (128 <? Z.of_nat (String.length candidate)) || (interval <? second)
          || (githubQuotaMaxInterval <? interval)
  then (q, None)
  else
    let expiry := Z.max (3 * interval) (30 * minute) in
    run_script fate (admit_background_script clock (UnixMilli now) reserve candidate (Milliseconds interval)
      (Milliseconds expiry) (Milliseconds githubQuotaMaxResetAge) githubQuotaMaxFamilies
      (Milliseconds githubQuotaMaxInterval) (Milliseconds githubQuotaMaxCandidateExpiry) githubQuotaMaxCandidates) q.

Definition AdmitGitHubCheckRefresh (fate : Link) (clock : Z) (now : time) (reserve : Z) (interval : duration) (q : Quota)
    : Quota * option bool :=
  run_script fate (check_refresh_script clock (UnixMilli now) reserve (Milliseconds interval)
    (Milliseconds githubQuotaMaxResetAge) githubQuotaMaxFamilies) q.

(** ** The controller *)

Definition checkRefreshInterval : duration := 30 * second.
Definition checkRefreshQuotaReserve : Z := 500 + 8.

Definition Values (header : option Header) (k : string) : list string :=
  match header with Some h => default [] (h !! CanonicalKey k) | None => [] end.

Definition single_int (header : option Header) (k : string) : option Z :=
  match Values header k with [v] => ParseInt (TrimSpace v) | _ => None end.

Definition backgroundQuotaFromHeaders (header : option Header) (now : time) : option GitHubQuotaObservation :=
  match Values header "X-RateLimit-Resource" with
  | [v] =>
      if TrimSpace v <>? "core" then None
      else match single_int header "X-RateLimit-Limit", single_int header "X-RateLimit-Remaining",
                 single_int header "X-RateLimit-Reset" with
      | Some lim, Some remaining, Some resetSeconds =>
          let reset := resetSeconds * second in
          if (lim <=? 0) || (remaining <? 0) || (lim <? remaining) || negb (After reset now) || After reset (now + 2 * hour)
          then None
          else Some (MkQuotaObservation now reset lim remaining)
      | _, _, _ => None
      end
  | _ => None
  end.

Definition isTrustedQuotaResponse (status : Z) (c : Classification) : bool :=
  (200 <=? status) && (status <? 300) || (status =? StatusNotModified)
  || ((status =? StatusForbidden) || (status =? StatusTooManyRequests)) && RateLimited c.

Definition backgroundQuotaKey (c : Controller) (installationID : Z) : string :=
  "{ghrl:v1:" +:+ environment c +:+ ":app:" +:+ pretty (appID c) +:+ ":inst:" +:+ pretty installationID +:+ "}:quota:core".

Section Budget.
(** [backgroundQuotaReserve] and [backgroundQuotaInterval] of the
    configuration; [hex] prints a digest. *)
Variables (reserve : Z) (interval : duration) (hex : list Z -> string).

Definition BackgroundQuotaEnabled : bool := 0 <? reserve.
Definition BackgroundQuotaEnforcementEnabled (c : Controller) : bool :=
  BackgroundQuotaEnabled && (mode c ==? ModeEnforce) && (0 <? appID c) && negb (Z.of_nat (length (allowlist c)) =? 0).
Definition EnforcesBackgroundQuota (c : Controller) (installationID : Z) : bool :=
  BackgroundQuotaEnforcementEnabled c && Participates c installationID.

Definition observeBackgroundQuota (fate : Link) (clock : Z) (c : Controller) (ob : Observation) (cl : Classification)
    (now : time) (participates : bool) (q : Quota) : Quota :=
  let observeAll := participates && (0 <? reserve) in
  if negb observeAll && negb (has_cache c) then q
  else if ob_RequestErr ob || ob_BodyErr ob || negb (isTrustedQuotaResponse (ob_StatusCode ob) cl) then q
  else match backgroundQuotaFromHeaders (ob_Header ob) now with
  | None => q
  | Some o =>
      if negb observeAll && (checkRefreshQuotaReserve <? qo_Remaining o) then q
      else if negb (has_cache c) then q
      else (ObserveGitHubQuota fate clock o q).1
  end.

(** Whether background work may run; trouble with the budget never stops it. *)
Definition AdmitBackground (fate : Link) (clock : Z) (c : Controller) (installationID : Z) (candidate : string)
    (now : time) (q : Quota) : Quota * bool :=
  if (reserve <=? 0) || negb (Participates c installationID) then (q, true)
  else if TrimSpace candidate ==? "" then (q, true)
  else if negb (has_cache c) then (q, true)
  else match AdmitGitHubBackground fate clock (hex (Sha256.Sum256 (Sha256.bytes_of candidate))) now reserve interval q with
  | (q, None) => (q, true)
  | (q, Some a) => (q, if Overflow a then true else negb (mode c ==? ModeEnforce) || WasAdmitted a)
  end.
End Budget.

(** Unlike the other budgets this one fails closed: an error admits nothing. *)
Definition checkRefreshAdmission (fate : Link) (clock : Z) (c : Controller) (installationID : Z) (interval : duration)
    (now : time) (q : Quota) : Quota * result bool :=
  if (appID c <=? 0) || (installationID <=? 0)
  then (q, Err "GitHub check refresh budget requires a resolved App installation")
  else if negb (has_cache c) then (q, Err "redis unavailable")
  else match AdmitGitHubCheckRefresh fate clock now checkRefreshQuotaReserve interval q with
  | (q, Some b) => (q, Ok b)
  | (q, None) => (q, Err "GitHub check refresh admission")
  end.
Definition AdmitCheckRefresh (fate : Link) (clock : Z) (c : Controller) (installationID : Z) (now : time) (q : Quota) :=
  checkRefreshAdmission fate clock c installationID checkRefreshInterval now q.
Definition CheckRefreshHasHeadroom (fate : Link) (clock : Z) (c : Controller) (installationID : Z) (now : time) (q : Quota) :=
  checkRefreshAdmission fate clock c installationID 0 now q.
