(* ===== verification/QuotaProperties.v ===== *)
(** * What the background quota guarantees

    Over any interleaving of observations, background admissions and check
    refreshes of one installation: a reported quota stays in force until its
    window resets, so reserved quota is never handed out; the low lane is
    paced and first come first served; the hashes stay bounded. *)

From S2P Require Import Prelude GoRuntime Classifier RateLimitStore RateLimitController Quota.
From stdpp Require Import base option list strings pretty gmap.

Open Scope string_scope.
Open Scope Z_scope.

(** ** Runs *)

(** The commands clients send about one installation. *)
Inductive QuotaOp :=
  | QObserve (reset : time) (lim remaining : Z)
  | QBackground (candidate : string) (reserve : Z) (interval : duration)
  | QRefresh (reserve : Z) (interval : duration).
Record QuotaEvent := MkQuotaEvent { qe_now : time; qe_fate : Link; qe_op : QuotaOp }.

Definition server_clock (skew : Z) (now : time) : Z := UnixMilli now + skew.

(** The clients share a clock, from which the server's differs by [skew]
    milliseconds. *)
Definition quota_step (skew : Z) (q : Quota) (ev : QuotaEvent) : Quota :=
  let now := qe_now ev in
  let clock := server_clock skew now in
  match qe_op ev with
  | QObserve reset lim remaining =>
      (ObserveGitHubQuota (qe_fate ev) clock (MkQuotaObservation now reset lim remaining) q).1
  | QBackground candidate reserve interval => (AdmitGitHubBackground (qe_fate ev) clock candidate now reserve interval q).1
  | QRefresh reserve interval => (AdmitGitHubCheckRefresh (qe_fate ev) clock now reserve interval q).1
  end.
Definition quota_run (skew : Z) : Quota -> list QuotaEvent -> Quota := foldl (quota_step skew).

Fixpoint in_order (t : time) (evs : list QuotaEvent) : Prop :=
  match evs with
  | [] => True
  | ev :: evs => t <= qe_now ev /\ in_order (qe_now ev) evs
  end.
Definition last_time (t : time) (evs : list QuotaEvent) : time := foldl (fun _ ev => qe_now ev) t evs.

Lemma quota_run_invariant skew (I : Z -> Quota -> Prop) :
  (forall t now q ev, qe_now ev = now -> UnixMilli t <= UnixMilli now -> I (UnixMilli t) q -> I (UnixMilli now) (quota_step skew q ev)) ->
  forall evs t q, in_order t evs -> I (UnixMilli t) q -> I (UnixMilli (last_time t evs)) (quota_run skew q evs).
Proof.
  intros Hstep. induction evs as [|ev evs IH]; intros t q Hord HI; simpl in *; [done|].
  destruct Hord as [Hle Hord]. apply IH; [done|]. eapply Hstep; [done| |exact HI].
  unfold UnixMilli, millisecond. apply Z.div_le_mono; lia.
Qed.

Lemma last_time_ge evs t : in_order t evs -> t <= last_time t evs.
Proof.
  revert t. induction evs as [|ev evs IH]; intros t; simpl; [lia|].
  intros [Hle Hord]. apply IH in Hord. unfold last_time in *. lia.
Qed.

(** ** The scan of the families *)

(** A report of [rem] for the window ending at [reset] is accounted for. *)
Definition carries (reset rem : Z) (f : Families) : Prop :=
  (exists q, families f !! reset = Some q /\ 0 <= q <= rem)
  \/ (exists R Q, overflow f = Some (R, Q) /\ reset <= R /\ 0 <= Q <= rem).

(** The locals are consistent with each other: the latest reset and the lowest
    value bound every family and the overflow. *)
Definition bounds (latest : Z) (low : option Z) (reset rem : Z) : Prop :=
  reset <= latest /\ exists l, low = Some l /\ l <= rem.
Record scan_ok (s : Scan) : Prop := {
  so_families : forall k v, families (fams s) !! k = Some v -> bounds (latest_reset s) (lowest_remaining s) k v;
  so_overflow : forall R Q, overflow (fams s) = Some (R, Q) -> bounds (latest_reset s) (lowest_remaining s) R Q
}.

Lemma lower_le low x : exists l, lower low x = Some l /\ l <= x /\ forall m, low = Some m -> l <= m.
Proof. unfold lower. eexists. split; [done|]. destruct low; split; intros; simplify_eq; lia. Qed.

Lemma bounds_lower latest low reset rem k v : bounds latest low k v ->
  bounds (Z.max latest reset) (lower low rem) k v.
Proof.
  intros (H1 & l & -> & H2). destruct (lower_le (Some l) rem) as (l' & -> & _ & Hm).
  split; [lia|]. eexists. split; [done|]. specialize (Hm l eq_refl). lia.
Qed.
Lemma bounds_new latest low reset rem : bounds (Z.max latest reset) (lower low rem) reset rem.
Proof. split; [lia|]. destruct (lower_le low rem) as (l' & -> & H & _). eauto. Qed.

Lemma fold_latest (m : gmap Z Z) (a : Z) :
  a <= map_fold (fun k _ acc => Z.max acc k) a m
  /\ forall k v, m !! k = Some v -> k <= map_fold (fun k _ acc => Z.max acc k) a m.
Proof.
  apply (map_fold_weak_ind (fun r m => a <= r /\ forall k v, m !! k = Some v -> k <= r)).
  - split; [lia|]. intros k v. by rewrite lookup_empty.
  - intros i x m' r _ [Ha Hk]. split; [lia|]. intros k v H.
    destruct (decide (i = k)) as [->|Hne]; [lia|]. rewrite lookup_insert_ne in H by done. specialize (Hk k v H). lia.
Qed.

Lemma fold_lowest (m : gmap Z Z) (a : option Z) :
  (forall x, a = Some x -> exists l, map_fold (fun _ v acc => lower acc v) a m = Some l /\ l <= x)
  /\ forall k v, m !! k = Some v -> exists l, map_fold (fun _ v acc => lower acc v) a m = Some l /\ l <= v.
Proof.
  apply (map_fold_weak_ind (fun r m => (forall x, a = Some x -> exists l, r = Some l /\ l <= x)
     /\ forall k v, m !! k = Some v -> exists l, r = Some l /\ l <= v)).
  - split; [eauto using Z.le_refl|]. intros k v. by rewrite lookup_empty.
  - intros i x m' r _ [Ha Hk]. destruct (lower_le r x) as (l & Hl & Hx & Hm). split.
    + intros y Hy. destruct (Ha y Hy) as (l0 & -> & ?). exists l. split; [done|]. specialize (Hm l0 eq_refl). lia.
    + intros k v H. destruct (decide (i = k)) as [->|Hne].
      * rewrite lookup_insert_eq in H. simplify_eq. eauto.
      * rewrite lookup_insert_ne in H by done. destruct (Hk k v H) as (l0 & -> & ?).
        exists l. split; [done|]. specialize (Hm l0 eq_refl). lia.
Qed.

Lemma scan_families_ok now f : scan_ok (scan_families now f).
Proof.
  unfold scan_families. set (over := match overflow f with Some _ => _ | None => _ end).
  set (cur := filter _ _).
  split; simpl; intros.
  - split; [by eapply fold_latest|]. by eapply fold_lowest.
  - rewrite H. simpl. split; [apply fold_latest|]. by apply fold_lowest.
Qed.

Lemma scan_families_carries now reset rem f : now < reset ->
  carries reset rem f -> carries reset rem (fams (scan_families now f)).
Proof.
  intros Hnow [(q & Hq & Hr)|(R & Q & HO & HR & HQ)]; [left|right]; simpl.
  - exists q. rewrite map_lookup_filter_Some. simpl. repeat split; try done; lia.
  - rewrite HO. exists R, Q. destruct (_ || _) eqn:E; [|done].
    apply orb_true_iff in E as [E|E]; reflect_bools; lia.
Qed.

Ltac merge_cases :=
  unfold merge_family;
  let E := fresh "E" in
  destruct ((_ <=? _) || _ || _) eqn:E; [|apply orb_false_iff in E as [?%orb_false_iff ?]; destruct_and?; reflect_bools;
    destruct (families _ !! _) as [prior|] eqn:?; [destruct (prior <? _) eqn:?|destruct (_ <=? size _)%nat eqn:?]];
  reflect_bools.

Lemma merge_family_ok now max_age n reset rem s : scan_ok s -> scan_ok (merge_family now max_age n reset rem s).1.
Proof.
  intros [Hf Ho]. merge_cases; simpl; try (by split); split; simpl; intros k v H.
  1,5: destruct (decide (reset = k)) as [->|]; [rewrite lookup_insert_eq in H; simplify_eq; apply bounds_new|
    rewrite lookup_insert_ne in H by done; by apply bounds_lower, Hf].
  1,4: by apply bounds_lower, Ho.
  - by apply bounds_lower, Hf.
  - simplify_eq. destruct (overflow (fams s)) as [[R Q]|]; apply bounds_new.
Qed.

Lemma merge_family_keeps now max_age n reset rem s r x : carries r x (fams s) ->
  carries r x (fams (merge_family now max_age n reset rem s).1).
Proof.
  intros Hc. merge_cases; simpl; try done; destruct Hc as [(q & Hq & Hr)|(R & Q & HO & HR & HQ)]; simpl in *.
  1,5: left; simpl; destruct (decide (reset = r)) as [->|]; [rewrite lookup_insert_eq|rewrite lookup_insert_ne by done; eauto];
       simplify_eq; eexists; (split; [done|lia]).
  1,4: right; simpl; eauto.
  - left; simpl; eauto.
  - right; simpl. rewrite HO. do 2 eexists. split; [done|]. lia.
Qed.

Lemma merge_family_takes now max_age n reset rem s : (forall k v, families (fams s) !! k = Some v -> 0 <= v) ->
  (forall R Q, overflow (fams s) = Some (R, Q) -> 0 <= Q) ->
  now < reset -> reset <= now + max_age -> 0 <= rem ->
  carries reset rem (fams (merge_family now max_age n reset rem s).1).
Proof.
  intros Hv HQ H1 H2 H3. merge_cases.
  - rewrite !orb_true_iff in E. destruct E as [[E|E]|E]; reflect_bools; lia.
  - simpl. left. eexists. split; [done|]. split; [by eapply Hv|lia].
  - simpl. left. simpl. rewrite lookup_insert_eq. eexists. split; [done|]. lia.
  - simpl. right. simpl. do 2 eexists. split; [done|].
    destruct (overflow (fams s)) as [[R Q]|]; [specialize (HQ _ _ eq_refl)|]; lia.
  - simpl. left. simpl. rewrite lookup_insert_eq. eexists. split; [done|]. lia.
Qed.

(** Nothing negative survives the scan, and nothing negative is taken. *)
Definition nonneg (f : Families) : Prop :=
  (forall k v, families f !! k = Some v -> 0 <= v) /\ (forall R Q, overflow f = Some (R, Q) -> 0 <= Q).

Lemma scan_families_nonneg now f : nonneg (fams (scan_families now f)).
Proof.
  split; simpl.
  - intros k v. rewrite map_lookup_filter_Some. simpl. tauto.
  - intros R Q. destruct (overflow f) as [[R' Q']|]; [|done]. destruct (_ || _) eqn:E; [done|].
    intros. crush.
Qed.

Lemma merge_family_nonneg now max_age n reset rem s : nonneg (fams s) ->
  nonneg (fams (merge_family now max_age n reset rem s).1).
Proof.
  intros [Hv HQ]. merge_cases; simpl; try done; split; simpl; intros k v H.
  1,5: destruct (decide (reset = k)) as [->|]; [rewrite lookup_insert_eq in H; simplify_eq; lia|
    rewrite lookup_insert_ne in H by done; by eapply Hv].
  1,4: by eapply HQ.
  - by eapply Hv.
  - simplify_eq. destruct (overflow (fams s)) as [[R Q]|]; [specialize (HQ _ _ eq_refl)|]; lia.
Qed.

(** At most [n] families. *)
Lemma scan_families_size now f n : (size (families f) <= n)%nat -> (size (families (fams (scan_families now f))) <= n)%nat.
Proof.
  intros H. simpl. etransitivity; [|exact H]. apply map_subseteq_size, map_filter_subseteq.
Qed.
Lemma merge_family_size now max_age n reset rem s : (size (families (fams s)) <= n)%nat ->
  (size (families (fams (merge_family now max_age n reset rem s).1)) <= n)%nat.
Proof.
  intros H. merge_cases; simpl; try done.
  - rewrite map_size_insert_Some by eauto. done.
  - rewrite map_size_insert_None by done. apply Nat.leb_gt in Heqb. lia.
Qed.

Section Families.
Context (now max_age : Z) (n : nat) (q : Quota).
Abbreviation s := (quota_families now max_age n q).

Ltac qf := unfold quota_families; destruct (_ && _).

Lemma quota_families_ok : scan_ok s.
Proof. qf; [apply merge_family_ok|]; apply scan_families_ok. Qed.
Lemma quota_families_nonneg : nonneg (fams s).
Proof. qf; [apply merge_family_nonneg|]; apply scan_families_nonneg. Qed.
Lemma quota_families_size : (size (families (q_families q)) <= n)%nat -> (size (families (fams s)) <= n)%nat.
Proof. intros H. qf; [apply merge_family_size|]; by apply scan_families_size. Qed.
Lemma quota_families_carries reset rem : now < reset -> carries reset rem (q_families q) -> carries reset rem (fams s).
Proof. intros H1 H2. qf; [apply merge_family_keeps|]; by apply scan_families_carries. Qed.
End Families.
#[export] Hint Resolve quota_families_ok merge_family_ok quota_families_nonneg : plane.

(** A carried report bounds what the scripts compare with the reserve. *)
Lemma carries_low s reset rem : scan_ok s -> carries reset rem (fams s) -> bounds (latest_reset s) (lowest_remaining s) reset rem.
Proof.
  intros [Hf Ho] [(q & Hq & Hr)|(R & Q & HO & HR & HQ)].
  - destruct (Hf _ _ Hq) as (H1 & l & H2 & H3). split; [done|]. exists l. split; [done|]. lia.
  - destruct (Ho _ _ HO) as (H1 & l & H2 & H3). split; [lia|]. exists l. split; [done|]. lia.
Qed.

(** ** A report stays in force *)

(** At time [t] the window has ended or the families carry the report, and
    their key outlives it. *)
Definition in_force (skew reset rem t : Z) (q : Quota) : Prop :=
  reset <= t \/ (carries reset rem (q_families q)
                 /\ match q_families_expire q with Some e => reset + skew <= e | None => True end).

Section InForce.
Context (skew reset rem : Z).

Lemma in_force_live t now q : t <= now -> in_force skew reset rem t q -> in_force skew reset rem now (live_quota (now + skew) q).
Proof.
  intros Ht [H|[Hc He]]; [left; lia|]. destruct (Z.le_gt_cases reset now); [by left|right].
  assert (E : expired (now + skew) (q_families_expire q) = false).
  { unfold expired. destruct (q_families_expire q); [apply Z.leb_gt; lia|done]. }
  destruct q. simpl in *. unfold live_key. by rewrite E.
Qed.

Lemma retain_in_force now s q : (now < reset -> bounds (latest_reset s) (lowest_remaining s) reset rem /\ carries reset rem (fams s)) ->
  in_force skew reset rem now (retain_families (now + skew) now s q).
Proof.
  intros H. destruct (Z.le_gt_cases reset now) as [|Hlt]; [by left|right]. destruct (H Hlt) as [[Hb _] Hc].
  unfold retain_families. replace (now <? latest_reset s) with true by (symmetry; apply Z.ltb_lt; lia).
  destruct (lane_exists _); simpl; split; try done; lia.
Qed.

Lemma families_in_force now max_age n q : in_force skew reset rem now q ->
  now < reset -> bounds (latest_reset (quota_families now max_age n q)) (lowest_remaining (quota_families now max_age n q)) reset rem
    /\ carries reset rem (fams (quota_families now max_age n q)).
Proof.
  intros [H|[Hc _]] Hlt; [lia|]. pose proof (quota_families_carries now max_age n q reset rem Hlt Hc).
  split; [|done]. apply carries_low; auto with plane.
Qed.

Lemma observe_in_force t now r l x max_age n q : t <= now -> in_force skew reset rem t q ->
  in_force skew reset rem now (observe_quota_script (now + skew) now r l x max_age n q).1.
Proof.
  intros Ht HI%(in_force_live t now q Ht). unfold observe_quota_script.
  destruct (merge_family _ _ _ _ _ _) as [s b] eqn:E. simpl. apply retain_in_force. intros Hlt.
  destruct (families_in_force now max_age n _ HI Hlt) as [_ Hc].
  replace s with (merge_family now max_age n r x (quota_families now max_age n (live_quota (now + skew) q))).1 by (by rewrite E).
  pose proof (merge_family_keeps now max_age n r x _ _ _ Hc). split; [|done].
  apply carries_low; auto with plane.
Qed.

Lemma refresh_in_force t now reserve interval max_age n q : t <= now -> in_force skew reset rem t q ->
  in_force skew reset rem now (check_refresh_script (now + skew) now reserve interval max_age n q).1.
Proof.
  intros Ht HI%(in_force_live t now q Ht). unfold check_refresh_script.
  pose proof (retain_in_force now _ (live_quota (now + skew) q) (families_in_force now max_age n _ HI)) as HR.
  destruct (match lowest_remaining _ with Some _ => _ | None => _ end), (interval =? 0); try done.
  by destruct (q_slot _).
Qed.

Lemma admit_in_force t now reserve c interval expiry max_age n mi me mc q : t <= now -> in_force skew reset rem t q ->
  in_force skew reset rem now (admit_background_script (now + skew) now reserve c interval expiry max_age n mi me mc q).1.
Proof.
  intros Ht HI%(in_force_live t now q Ht). unfold admit_background_script.
  set (ql := live_quota _ q) in *. pose proof (families_in_force now max_age n _ HI) as HF.
  destruct (lowest_remaining _) as [low|] eqn:EL; [|apply retain_in_force; rewrite EL; exact HF].
  destruct (reserve <? low); [apply retain_in_force; rewrite EL; exact HF|].
  set (q1 := if migrated _ then _ else _).
  assert (HR := retain_in_force now (quota_families now max_age n ql) q1 ltac:(rewrite EL; exact HF)).
  destruct (lane_step _ _ _ _ _ _) as [lane a]. exact HR.
Qed.

Lemma step_in_force t now q ev : qe_now ev = now -> UnixMilli t <= UnixMilli now ->
  in_force skew reset rem (UnixMilli t) q -> in_force skew reset rem (UnixMilli now) (quota_step skew q ev).
Proof.
  intros <- Ht HI. assert (Hk : in_force skew reset rem (UnixMilli (qe_now ev)) q).
  { destruct HI as [H|H]; [left; lia|by right]. }
  unfold quota_step, server_clock. destruct (qe_op ev) as [r l x|c rs iv|rs iv].
  - unfold ObserveGitHubQuota. destruct (_ || _); [done|]. simpl.
    destruct (qe_fate ev); simpl; try done; [destruct (observe_quota_script _ _ _ _ _ _ _ _) eqn:E; simpl|];
      [change q0 with (q0, b).1; rewrite <- E|]; by eapply observe_in_force.
  - unfold AdmitGitHubBackground. destruct (rs <=? 0); [done|]. destruct (_ || _); [done|]. simpl.
    destruct (qe_fate ev); simpl; try done; [destruct (admit_background_script _ _ _ _ _ _ _ _ _ _ _ _) eqn:E; simpl|];
      [change q0 with (q0, a).1; rewrite <- E|]; by eapply admit_in_force.
  - unfold AdmitGitHubCheckRefresh.
    destruct (qe_fate ev); simpl; try done; [destruct (check_refresh_script _ _ _ _ _ _ _) eqn:E; simpl|];
      [change q0 with (q0, b).1; rewrite <- E|]; by eapply refresh_in_force.
Qed.
End InForce.

(** An observation [ObserveGitHubQuota] sends to Redis. *)
Definition plausible (o : GitHubQuotaObservation) : Prop :=
  0 <= qo_Remaining o <= qo_Limit o /\ 0 < qo_Limit o /\ qo_Now o < qo_ResetAt o <= qo_Now o + githubQuotaMaxResetAge.

Lemma plausible_script fate clock o q : plausible o -> fate <> Refused ->
  (ObserveGitHubQuota fate clock o q).1 =
  (observe_quota_script clock (UnixMilli (qo_Now o)) (UnixMilli (qo_ResetAt o)) (qo_Limit o) (qo_Remaining o)
     (Milliseconds githubQuotaMaxResetAge) githubQuotaMaxFamilies q).1.
Proof.
  intros (Hr & Hl & Ht) Hf. unfold ObserveGitHubQuota.
  replace (_ || _) with false.
  - destruct fate; try done. simpl. by destruct (observe_quota_script _ _ _ _ _ _ _ _).
  - symmetry. rewrite !orb_false_iff, negb_false_iff. unfold After, Sub, minDuration, maxDuration.
    unfold githubQuotaMaxResetAge, hour, minute, second in *.
    repeat split; try (apply Z.leb_gt; lia); try (apply Z.ltb_ge; lia); try (apply Z.ltb_lt; lia).
Qed.

Lemma observed_in_force skew fate o q : plausible o -> fate <> Refused ->
  in_force skew (UnixMilli (qo_ResetAt o)) (qo_Remaining o) (UnixMilli (qo_Now o))
    (ObserveGitHubQuota fate (server_clock skew (qo_Now o)) o q).1.
Proof.
  intros Hp Hf. rewrite plausible_script by done. destruct Hp as (Hr & Hl & Ht). unfold observe_quota_script, server_clock.
  set (now := UnixMilli (qo_Now o)). set (n := githubQuotaMaxFamilies).
  destruct (merge_family _ _ _ _ _ _) as [s b] eqn:E. simpl. apply retain_in_force. intros Hlt.
  assert (Hc : carries (UnixMilli (qo_ResetAt o)) (qo_Remaining o) (fams s)).
  { change s with (s, b).1. rewrite <- E. apply merge_family_takes; try (by apply quota_families_nonneg); try done; [|lia].
    subst now. change (Milliseconds githubQuotaMaxResetAge) with 7200000.
    unfold UnixMilli, githubQuotaMaxResetAge, hour, minute, second, millisecond in *.
    rewrite <- Z.div_add by lia. apply Z.div_le_mono; lia. }
  split; [|done]. apply carries_low; [|done]. change s with (s, b).1. rewrite <- E. auto with plane.
Qed.

Lemma run_in_force skew fate o evs q : plausible o -> fate <> Refused -> in_order (qo_Now o) evs ->
  in_force skew (UnixMilli (qo_ResetAt o)) (qo_Remaining o) (UnixMilli (last_time (qo_Now o) evs))
    (quota_run skew (ObserveGitHubQuota fate (server_clock skew (qo_Now o)) o q).1 evs).
Proof.
  intros Hp Hf Hord. apply (quota_run_invariant skew (in_force skew (UnixMilli (qo_ResetAt o)) (qo_Remaining o))).
  - intros. by eapply step_in_force.
  - done.
  - by apply observed_in_force.
Qed.

(** A carried report of at most the reserve makes the scripts see low quota. *)
Lemma in_force_low skew reset rem t now q : in_force skew reset rem t q -> t <= now -> now < reset ->
  forall max_age n, exists low, lowest_remaining (quota_families now max_age n (live_quota (now + skew) q)) = Some low /\ low <= rem.
Proof.
  intros HI Ht Hlt max_age n. apply (in_force_live _ _ _ t now q Ht) in HI.
  by destruct (families_in_force skew reset rem now max_age n _ HI Hlt) as [(_ & l) _].
Qed.

Lemma lane_step_low now interval expiry mc c l : Known (lane_step now interval expiry mc c l).2 = true
  /\ Low (lane_step now interval expiry mc c l).2 = true.
Proof.
  unfold lane_step. destruct (_ && _); [done|].
  destruct (match hget _ _ with Some _ => _ | None => _ end); destruct (_ && _); done.
Qed.

Definition quota_reply {A} (fate : Link) (a : A) : option A := match fate with Answered => Some a | _ => None end.
Lemma run_script_reply {A} fate (f : Quota -> Quota * A) q : (run_script fate f q).2 = quota_reply fate (f q).2.
Proof. destruct fate; try done. simpl. by destruct (f q). Qed.
Lemma run_script_state {A} fate (f : Quota -> Quota * A) q :
  (run_script fate f q).1 = match fate with Refused => q | _ => (f q).1 end.
Proof. destruct fate; try done. simpl. by destruct (f q). Qed.

Definition admit_args_ok (candidate : string) (reserve : Z) (interval : duration) : bool :=
  negb (reserve <=? 0) && negb ((candidate ==? "") || (128 <? Z.of_nat (String.length candidate))
     || (interval <? second) || (githubQuotaMaxInterval <? interval)).

Lemma AdmitGitHubBackground_runs fate clock c now reserve interval q : admit_args_ok c reserve interval = true ->
  AdmitGitHubBackground fate clock c now reserve interval q =
  run_script fate (admit_background_script clock (UnixMilli now) reserve c (Milliseconds interval)
      (Milliseconds (Z.max (3 * interval) (30 * minute))) (Milliseconds githubQuotaMaxResetAge) githubQuotaMaxFamilies
      (Milliseconds githubQuotaMaxInterval) (Milliseconds githubQuotaMaxCandidateExpiry) githubQuotaMaxCandidates) q.
Proof.
  intros [H1 H2]%andb_true_iff. apply negb_true_iff in H1, H2. unfold AdmitGitHubBackground. by rewrite H1, H2.
Qed.

(** C39: A reported quota is respected until its window ends.  Once a plausible
    observation has reached Redis, whatever observations, background
    admissions and check refreshes follow, and however their replies are lost,
    every later admission before the reset knows that the quota is low when
    the report left no more than the reserve, and no check refresh is admitted
    when the report left no more than the refresh reserve. *)
Theorem reserved_quota_is_not_spent skew fate o evs now q :
  plausible o -> fate <> Refused -> in_order (qo_Now o) evs -> last_time (qo_Now o) evs <= now ->
  UnixMilli now < UnixMilli (qo_ResetAt o) ->
  let clock := server_clock skew now in
  let q' := quota_run skew (ObserveGitHubQuota fate (server_clock skew (qo_Now o)) o q).1 evs in
  (qo_Remaining o <= checkRefreshQuotaReserve ->
     forall fate' c inst, (AdmitCheckRefresh fate' clock c inst now q').2 <> Ok true
                       /\ (CheckRefreshHasHeadroom fate' clock c inst now q').2 <> Ok true)
  /\ forall fate' cand reserve interval a, 0 < reserve -> qo_Remaining o <= reserve ->
       (AdmitGitHubBackground fate' clock cand now reserve interval q').2 = Some a -> Known a = true /\ Low a = true.
Proof.
  intros Hp Hf Hord Hlast Hlt clock q'.
  pose proof (run_in_force skew fate o evs q Hp Hf Hord) as HI. fold q' in HI.
  assert (Hle : UnixMilli (last_time (qo_Now o) evs) <= UnixMilli now) by (apply Z.div_le_mono; [done|lia]).
  pose proof (in_force_low _ _ _ _ _ _ HI Hle Hlt (Milliseconds githubQuotaMaxResetAge) githubQuotaMaxFamilies) as (low & Hlow & Hrem).
  assert (Hcheck : qo_Remaining o <= checkRefreshQuotaReserve -> forall fate' c inst iv,
            (checkRefreshAdmission fate' clock c inst iv now q').2 <> Ok true).
  { intros Hr fate' c inst iv. unfold checkRefreshAdmission. destruct (_ || _); [done|]. destruct (negb _); [done|].
    assert (E : (AdmitGitHubCheckRefresh fate' clock now checkRefreshQuotaReserve iv q').2 <> Some true).
    { unfold AdmitGitHubCheckRefresh. rewrite run_script_reply. unfold check_refresh_script, clock, server_clock. rewrite Hlow.
      replace (low <=? checkRefreshQuotaReserve) with true by (symmetry; apply Z.leb_le; lia). by destruct fate'. }
    destruct (AdmitGitHubCheckRefresh _ _ _ _ _ _) as [q'' [[]|]]; done. }
  split.
  - intros Hr fate' c inst. by split; apply Hcheck.
  - intros fate' cand reserve interval a Hres Hr Ha. destruct (admit_args_ok cand reserve interval) eqn:Hok.
    + rewrite AdmitGitHubBackground_runs, run_script_reply in Ha by done. revert Ha. unfold admit_background_script, clock, server_clock.
      rewrite Hlow. replace (reserve <? low) with false by (symmetry; apply Z.ltb_ge; lia).
      match goal with |- context [lane_step ?a ?b ?c ?d ?e ?f] => pose proof (lane_step_low a b c d e f); destruct (lane_step a b c d e f) end.
      by destruct fate'; intros; simplify_eq/=.
    + unfold admit_args_ok in Hok. unfold AdmitGitHubBackground in Ha.
      replace (reserve <=? 0) with false in * by (symmetry; apply Z.leb_gt; lia). simpl in Hok. apply negb_false_iff in Hok.
      by rewrite Hok in Ha.
Qed.

(** ** The low lane is paced *)

(** The next admission of the lane is not before [at_], for as long as the
    report for [reset] is in force. *)
Definition not_before (skew reset at_ t : Z) (q : Quota) : Prop :=
  reset <= t \/ (migrated (q_lane q) = true /\ (exists x, next_admission (q_lane q) = Some x /\ at_ <= x)
                 /\ match q_lane_expire q with Some e => reset + skew <= e | None => True end).

Section Paced.
Context (skew reset at_ : Z).

Lemma not_before_live t now q : t <= now -> not_before skew reset at_ t q -> not_before skew reset at_ now (live_quota (now + skew) q).
Proof.
  intros Ht [H|(Hm & Hx & He)]; [left; lia|]. destruct (Z.le_gt_cases reset now); [by left|right].
  assert (E : expired (now + skew) (q_lane_expire q) = false).
  { unfold expired. destruct (q_lane_expire q); [apply Z.leb_gt; lia|done]. }
  destruct q. simpl in *. unfold live_key. by rewrite E.
Qed.

Lemma retain_not_before now s q : (now < reset -> reset <= latest_reset s) -> not_before skew reset at_ now q ->
  not_before skew reset at_ now (retain_families (now + skew) now s q).
Proof.
  intros Hs [H|(Hm & Hx & He)]; [by left|]. destruct (Z.le_gt_cases reset now) as [|Hlt]; [by left|right].
  specialize (Hs Hlt). unfold retain_families. replace (now <? latest_reset s) with true by (symmetry; apply Z.ltb_lt; lia).
  unfold lane_exists. simpl. rewrite Hm. simpl. repeat split; try done. lia.
Qed.

Lemma lane_step_not_before now interval expiry mc c l : 0 <= interval -> migrated l = true ->
  (exists x, next_admission l = Some x /\ at_ <= x) ->
  migrated (lane_step now interval expiry mc c l).1 = true
  /\ exists x, next_admission (lane_step now interval expiry mc c l).1 = Some x /\ at_ <= x.
Proof.
  intros Hi Hm (x & Hn & Hx). unfold lane_step. destruct (_ && _); [simpl; eauto|].
  destruct (hget c _) as [[d s|]|]; simpl; rewrite Hn; simpl; (destruct ((x <=? now) && _) eqn:E; simpl;
    [split; [done|]; eexists; split; [done|]; reflect_bools; lia|eauto]).
Qed.

Lemma admit_not_before now reserve c interval expiry max_age n mi me mc q low : 0 <= interval ->
  not_before skew reset at_ now (live_quota (now + skew) q) ->
  (now < reset -> reset <= latest_reset (quota_families now max_age n (live_quota (now + skew) q))) ->
  lowest_remaining (quota_families now max_age n (live_quota (now + skew) q)) = Some low -> low <= reserve ->
  not_before skew reset at_ now (admit_background_script (now + skew) now reserve c interval expiry max_age n mi me mc q).1.
Proof.
  intros Hi HN Hlat Hlow Hle. destruct (Z.le_gt_cases reset now) as [|Hlt]; [by left|].
  destruct HN as [|HN]; [lia|]. unfold admit_background_script. rewrite Hlow.
  replace (reserve <? low) with false by (symmetry; apply Z.ltb_ge; lia). rewrite (proj1 HN).
  destruct (retain_not_before now (quota_families now max_age n (live_quota (now + skew) q)) _ Hlat (or_intror HN))
    as [|(Hm & Hx & He)]; [lia|].
  set (q1 := retain_families _ _ _ _) in *.
  destruct (lane_step_not_before now interval expiry mc c _ Hi Hm Hx) as [Hm' Hx'].
  destruct (lane_step _ _ _ _ _ _) as [lane a]. right. simpl in *. done.
Qed.
End Paced.

(** A run in which the report for [reset] leaves no more than any background
    caller reserves. *)
Definition reserves (rem : Z) (ev : QuotaEvent) : Prop :=
  match qe_op ev with QBackground _ reserve _ => reserve <= 0 \/ rem <= reserve | _ => True end.

Definition paced (skew reset rem at_ t : Z) (q : Quota) : Prop :=
  in_force skew reset rem t q /\ not_before skew reset at_ t q.

Lemma in_force_latest skew reset rem now q max_age n : in_force skew reset rem now (live_quota (now + skew) q) ->
  now < reset -> reset <= latest_reset (quota_families now max_age n (live_quota (now + skew) q)).
Proof. intros HI Hlt. by destruct (families_in_force skew reset rem now max_age n _ HI Hlt) as [[? _] _]. Qed.

Lemma Milliseconds_nonneg d : 0 <= d -> 0 <= Milliseconds d.
Proof. intros H. apply Z.quot_pos; [done|]. unfold millisecond. lia. Qed.

Lemma step_paced skew reset rem at_ t q ev : UnixMilli t <= UnixMilli (qe_now ev) -> reserves rem ev ->
  paced skew reset rem at_ (UnixMilli t) q -> paced skew reset rem at_ (UnixMilli (qe_now ev)) (quota_step skew q ev).
Proof.
  intros Ht Hres [HI HN]. split; [by eapply step_in_force|].
  assert (Hk : not_before skew reset at_ (UnixMilli (qe_now ev)) q).
  { destruct HN as [H|H]; [left; lia|by right]. }
  pose proof (in_force_live _ _ _ _ (UnixMilli (qe_now ev)) _ Ht HI) as HL.
  pose proof (not_before_live _ _ _ _ (UnixMilli (qe_now ev)) _ Ht HN) as HNL.
  unfold quota_step, server_clock, reserves in *. destruct (qe_op ev) as [r l x|c rs iv|rs iv].
  - unfold ObserveGitHubQuota. destruct (_ || _); [done|]. rewrite run_script_state.
    destruct (qe_fate ev); try done; unfold observe_quota_script;
    (destruct (merge_family _ _ _ _ _ _) as [s b] eqn:E; simpl; apply retain_not_before;
     [intros Hlt; destruct (families_in_force _ _ _ _ (Milliseconds githubQuotaMaxResetAge) githubQuotaMaxFamilies _ HL Hlt) as [_ Hc];
      change s with (s, b).1; rewrite <- E;
      by apply (carries_low _ _ rem), merge_family_keeps, Hc; apply merge_family_ok, quota_families_ok
     |destruct (_ && _); done]).
  - destruct (admit_args_ok c rs iv) eqn:Hok.
    + rewrite AdmitGitHubBackground_runs, run_script_state by done.
      assert (Hs : not_before skew reset at_ (UnixMilli (qe_now ev))
        (admit_background_script (UnixMilli (qe_now ev) + skew) (UnixMilli (qe_now ev)) rs c (Milliseconds iv)
          (Milliseconds (Z.max (3 * iv) (30 * minute))) (Milliseconds githubQuotaMaxResetAge) githubQuotaMaxFamilies
          (Milliseconds githubQuotaMaxInterval) (Milliseconds githubQuotaMaxCandidateExpiry) githubQuotaMaxCandidates q).1).
      { destruct (Z.le_gt_cases reset (UnixMilli (qe_now ev))) as [|Hlt]; [by left|].
        destruct (in_force_low _ _ _ _ _ _ HI Ht Hlt (Milliseconds githubQuotaMaxResetAge) githubQuotaMaxFamilies) as (low & Hlow & Hle).
        unfold admit_args_ok in Hok. rewrite negb_orb, !negb_orb in Hok. unfold second in *. reflect_bools.
        eapply admit_not_before; eauto; [apply Milliseconds_nonneg; lia|intros; by eapply in_force_latest|lia]. }
      destruct (qe_fate ev); done.
    + unfold admit_args_ok in Hok. apply andb_false_iff in Hok. unfold AdmitGitHubBackground.
      destruct (rs <=? 0); [done|]. destruct Hok as [Hok|Hok]; [done|]. apply negb_false_iff in Hok. by rewrite Hok.
  - unfold AdmitGitHubCheckRefresh. rewrite run_script_state. unfold check_refresh_script.
    pose proof (retain_not_before _ _ _ _ _ (live_quota (UnixMilli (qe_now ev) + skew) q)
      (in_force_latest _ _ _ _ _ (Milliseconds githubQuotaMaxResetAge) githubQuotaMaxFamilies HL) HNL) as HR.
    destruct (qe_fate ev); try done;
      (destruct (match lowest_remaining _ with Some _ => _ | None => _ end); [done|]; destruct (_ =? 0); [done|]; by destruct (q_slot _)).
Qed.

Lemma run_paced skew reset rem at_ evs t q : in_order t evs -> Forall (reserves rem) evs ->
  paced skew reset rem at_ (UnixMilli t) q -> paced skew reset rem at_ (UnixMilli (last_time t evs)) (quota_run skew q evs).
Proof.
  revert t q. induction evs as [|ev evs IH]; intros t q Hord Hres HP; simpl in *; [done|].
  destruct Hord as [Hle Hord]. inversion_clear Hres. apply IH; [done..|]. apply step_paced with t; [|done..].
  apply Z.div_le_mono; [done|lia].
Qed.

(** An admission through the lane: the quota was low and the candidate's turn
    had come. *)
Definition low_admission (a : Admission) : bool := Low a && WasAdmitted a && negb (Overflow a).

Lemma lane_step_admits now interval expiry mc c l : low_admission (lane_step now interval expiry mc c l).2 = true ->
  default 0 (next_admission l) <= now
  /\ next_admission (lane_step now interval expiry mc c l).1 = Some (now + interval)
  /\ migrated (lane_step now interval expiry mc c l).1 = migrated l.
Proof.
  unfold lane_step. destruct (_ && _); [done|].
  destruct (hget c _) as [[d s|]|]; simpl; (destruct ((_ <=? _) && _) eqn:E; [|done]); intros _; simpl; reflect_bools; done.
Qed.

Lemma admit_low_admission skew now reserve c interval expiry max_age n mi me mc q reset at_ :
  let r := admit_background_script (now + skew) now reserve c interval expiry max_age n mi me mc q in
  low_admission r.2 = true -> now < reset ->
  (now < reset -> reset <= latest_reset (quota_families now max_age n (live_quota (now + skew) q))) ->
  not_before skew reset (now + interval) now r.1
  /\ (not_before skew reset at_ now (live_quota (now + skew) q) -> at_ <= now).
Proof.
  intros r. subst r. unfold admit_background_script. intros Ha Hlt Hlat. specialize (Hlat Hlt).
  destruct (lowest_remaining _) as [low|]; [|done]. destruct (reserve <? low); [done|].
  set (ql := live_quota _ q) in *. set (s := quota_families now max_age n ql) in *.
  set (q1 := if migrated _ then _ else _) in *.
  assert (Hm1 : migrated (q_lane q1) = true) by (subst q1; destruct (migrated (q_lane ql)) eqn:E; done).
  assert (Hret : q_lane (retain_families (now + skew) now s q1) = q_lane q1
            /\ q_lane_expire (retain_families (now + skew) now s q1) = Some (now + skew + (latest_reset s - now))).
  { unfold retain_families. replace (now <? latest_reset s) with true by (symmetry; apply Z.ltb_lt; lia).
    unfold lane_exists. simpl. by rewrite Hm1. }
  destruct Hret as [HrL HrE]. rewrite HrL in *.
  pose proof (lane_step_admits now interval expiry mc c (q_lane q1)) as HA.
  destruct (lane_step _ _ _ _ _ _) as [lane a]. simpl in *. destruct (HA Ha) as (Hn & Hnx & Hmig). split.
  - right. simpl. rewrite HrE. split; [congruence|]. split; [eexists; split; [done|lia]|lia].
  - intros [|(Hm & (x & Hx & Hle) & _)]; [lia|]. subst q1. rewrite Hm in Hn. rewrite Hx in Hn. simpl in Hn. lia.
Qed.

Lemma low_admission_runs fate clock c now reserve interval q a :
  (AdmitGitHubBackground fate clock c now reserve interval q).2 = Some a -> low_admission a = true ->
  admit_args_ok c reserve interval = true.
Proof.
  unfold AdmitGitHubBackground, admit_args_ok. destruct (reserve <=? 0); [by intros [= <-]|].
  by destruct (_ || _).
Qed.

(** Background work that spends reserved quota is paced.  While a report
    of no more than every caller's reserve is in force, two admissions through
    the lane are at least the interval of the first apart, whatever commands
    of whatever processes run between them. *)
Theorem low_lane_is_paced skew fate o q evs1 evs2 f1 c1 t1 r1 i1 a1 f2 c2 t2 r2 i2 a2 :
  plausible o -> fate <> Refused ->
  let first := MkQuotaEvent t1 f1 (QBackground c1 r1 i1) in
  in_order (qo_Now o) (evs1 ++ first :: evs2) -> last_time t1 evs2 <= t2 -> UnixMilli t2 < UnixMilli (qo_ResetAt o) ->
  Forall (reserves (qo_Remaining o)) evs2 ->
  let q1 := quota_run skew (ObserveGitHubQuota fate (server_clock skew (qo_Now o)) o q).1 evs1 in
  let q2 := quota_run skew (quota_step skew q1 first) evs2 in
  (AdmitGitHubBackground f1 (server_clock skew t1) c1 t1 r1 i1 q1).2 = Some a1 -> low_admission a1 = true ->
  (AdmitGitHubBackground f2 (server_clock skew t2) c2 t2 r2 i2 q2).2 = Some a2 -> low_admission a2 = true ->
  UnixMilli t1 + Milliseconds i1 <= UnixMilli t2.
Proof.
  intros Hp Hf first Hord Hlast Hlt Hres q1 q2 Ha1 Hl1 Ha2 Hl2.
  assert (Hords : in_order (qo_Now o) evs1 /\ last_time (qo_Now o) evs1 <= t1 /\ in_order t1 evs2).
  { clear -Hord. revert Hord. generalize (qo_Now o). induction evs1 as [|ev evs1 IH]; simpl; [tauto|].
    intros t [? H]. destruct (IH _ H) as (? & ? & ?). tauto. }
  destruct Hords as (Ho1 & Ht1 & Ho2). pose proof (last_time_ge _ _ Ho2) as Hge.
  set (reset := UnixMilli (qo_ResetAt o)) in *.
  pose proof (run_in_force skew fate o evs1 q Hp Hf Ho1) as HI. fold q1 reset in HI.
  assert (Hm1 : UnixMilli (last_time (qo_Now o) evs1) <= UnixMilli t1) by (apply Z.div_le_mono; [done|lia]).
  assert (Hm2 : UnixMilli (last_time t1 evs2) <= UnixMilli t2) by (apply Z.div_le_mono; [done|lia]).
  assert (Hm3 : UnixMilli t1 <= UnixMilli t2) by (apply Z.div_le_mono; [done|lia]).
  pose proof (in_force_live _ _ _ _ _ _ Hm1 HI) as HL1.
  pose proof (low_admission_runs _ _ _ _ _ _ _ _ Ha1 Hl1) as Hok1.
  pose proof (low_admission_runs _ _ _ _ _ _ _ _ Ha2 Hl2) as Hok2.
  rewrite AdmitGitHubBackground_runs, run_script_reply in Ha1 by done.
  rewrite AdmitGitHubBackground_runs, run_script_reply in Ha2 by done.
  destruct f1; try done. destruct f2; try done. simpl in Ha1, Ha2. injection Ha1 as <-. injection Ha2 as <-.
  assert (HP : paced skew reset (qo_Remaining o) (UnixMilli t1 + Milliseconds i1) (UnixMilli t1) (quota_step skew q1 first)).
  { split; [by eapply (step_in_force _ _ _ _ t1 _ first)|]. unfold quota_step. simpl.
    rewrite AdmitGitHubBackground_runs, run_script_state by done.
    assert (UnixMilli t1 < reset) by lia.
    refine (proj1 (admit_low_admission skew (UnixMilli t1) _ _ _ _ _ _ _ _ _ q1 reset 0 Hl1 _ _)); [done|]. intros. by eapply in_force_latest. }
  destruct (run_paced skew reset (qo_Remaining o) _ evs2 t1 _ Ho2 Hres HP) as [HI2 HN2]. fold q2 in HI2, HN2.
  pose proof (in_force_live _ _ _ _ _ _ Hm2 HI2) as HL2. pose proof (not_before_live _ _ _ _ _ _ Hm2 HN2) as HNL.
  eapply admit_low_admission; [exact Hl2|done|intros; by eapply in_force_latest|exact HNL].
Qed.

(** ** First come, first served *)

Lemma oldest_in l kv : oldest l = Some kv -> In kv l /\ forall kv', In kv' l -> seq_of kv.2 <= seq_of kv'.2.
Proof.
  unfold oldest. set (f := fun _ _ => _).
  enough (H : forall l acc kv, foldl f acc l = Some kv -> (acc = Some kv \/ In kv l)
    /\ (forall b, acc = Some b -> seq_of kv.2 <= seq_of b.2) /\ forall kv', In kv' l -> seq_of kv.2 <= seq_of kv'.2).
  { intros E. destruct (H _ _ _ E) as ([|] & _ & ?); done. }
  clear l kv. induction l as [|x l IH]; intros acc kv E; simpl in E.
  - subst acc. split; [by left|]. split; [by intros b [= ->]|done].
  - destruct (IH _ _ E) as (Hin & Hacc & Hl). subst f. simpl in *. destruct acc as [b|].
    + destruct (seq_of x.2 <? seq_of b.2) eqn:C; reflect_bools; specialize (Hacc _ eq_refl).
      * split; [destruct Hin; simplify_eq; auto|]. split; [intros ? [= <-]; lia|]. intros kv' [<-|H]; auto.
      * split; [destruct Hin; auto|]. split; [by intros ? [= <-]|]. intros kv' [<-|H]; [lia|auto].
    + specialize (Hacc _ eq_refl). split; [destruct Hin; simplify_eq; auto|]. split; [done|]. intros kv' [<-|H]; auto.
Qed.

Lemma oldest_none l : oldest l = None -> l = [].
Proof.
  unfold oldest. set (f := fun _ _ => _). destruct l as [|x l]; [done|]. simpl.
  assert (H : forall l kv, foldl f (Some kv) l <> None); [|by intros E%H].
  clear. induction l as [|x l IH]; intros kv; simpl; [done|]. subst f. simpl in *. destruct (_ <? _); apply IH.
Qed.

(** The lane is first come, first served: when a caller is admitted
    through it, no candidate whose wait has not run out is older, and if any
    is waiting the caller is one of them. *)
Theorem low_lane_is_fifo now interval expiry mc c l c' d' s' :
  low_admission (lane_step now interval expiry mc c l).2 = true ->
  In (c', CandAt d' s') (candidates l) -> now < d' ->
  exists d s, In (c, CandAt d s) (candidates l) /\ now < d /\ s <= s'.
Proof.
  intros Ha Hin Hd. assert (Hlive : In (c', CandAt d' s') (List.filter (waiting now) (candidates l))).
  { apply in_filter_iff. split; [done|]. by apply Z.ltb_lt. }
  assert (Hfirst : match oldest (List.filter (waiting now) (candidates l)) with Some kv => kv.1 | None => c end = c).
  { revert Ha. unfold lane_step. destruct (_ && _); [done|].
    destruct (hget c _) as [[? ?|]|]; simpl; (destruct ((_ <=? _) && _) eqn:E; [|done]); intros _; by reflect_bools. }
  destruct (oldest _) as [[k v]|] eqn:EO; [|by apply oldest_none in EO; rewrite EO in Hlive].
  simpl in Hfirst. subst k. apply oldest_in in EO as [Hk Hmin]. specialize (Hmin _ Hlive).
  apply in_filter_iff in Hk as [Hk Hw]. unfold waiting in Hw. simpl in *. destruct v as [d s|]; [|done].
  exists d, s. reflect_bools. done.
Qed.

(** ** Check refreshes are spaced out *)

Definition slot_taken (skew at_ t : Z) (q : Quota) : Prop := at_ <= t \/ exists e, q_slot q = Some e /\ at_ + skew <= e.

Lemma slot_taken_live skew at_ t now q : t <= now -> slot_taken skew at_ t q -> slot_taken skew at_ now (live_quota (now + skew) q).
Proof.
  intros Ht [H|(e & He & Hle)]; [left; lia|]. destruct (Z.le_gt_cases at_ now); [by left|right]. exists e. split; [|done].
  destruct q. simpl in *. subst. unfold live_key, expired. destruct (e <=? now + skew) eqn:E; reflect_bools; [lia|done].
Qed.
Lemma slot_taken_eq skew at_ t q q' : q_slot q = q_slot q' -> slot_taken skew at_ t q -> slot_taken skew at_ t q'.
Proof. unfold slot_taken. by intros ->. Qed.

Lemma retain_slot clock now s q : q_slot (retain_families clock now s q) = q_slot q.
Proof. unfold retain_families. destruct (_ <? _); [destruct (lane_exists _)|]; done. Qed.
Lemma observe_slot clock now r l x ma n q : q_slot (observe_quota_script clock now r l x ma n q).1 = q_slot (live_quota clock q).
Proof.
  unfold observe_quota_script. destruct (merge_family _ _ _ _ _ _) as [s b]. simpl. rewrite retain_slot. by destruct (_ && _).
Qed.
Lemma admit_slot clock now rs c iv ex ma n mi me mc q :
  q_slot (admit_background_script clock now rs c iv ex ma n mi me mc q).1 = q_slot (live_quota clock q).
Proof.
  unfold admit_background_script. destruct (lowest_remaining _) as [low|]; [|by unfold reset_lane; simpl; rewrite retain_slot].
  destruct (rs <? low); [by unfold reset_lane; simpl; rewrite retain_slot|].
  destruct (lane_step _ _ _ _ _ _) as [lane a]. simpl. rewrite retain_slot. by destruct (migrated _).
Qed.

Lemma step_slot skew at_ t q ev : UnixMilli t <= UnixMilli (qe_now ev) -> slot_taken skew at_ (UnixMilli t) q ->
  slot_taken skew at_ (UnixMilli (qe_now ev)) (quota_step skew q ev).
Proof.
  intros Ht HS. pose proof (slot_taken_live _ _ _ _ _ Ht HS) as HL.
  assert (Hk : slot_taken skew at_ (UnixMilli (qe_now ev)) q) by (destruct HS as [|]; [left; lia|by right]).
  unfold quota_step, server_clock. destruct (qe_op ev) as [r l x|c rs iv|rs iv].
  - unfold ObserveGitHubQuota. destruct (_ || _); [done|]. rewrite run_script_state.
    destruct (qe_fate ev); try done; (eapply slot_taken_eq; [symmetry; apply observe_slot|done]).
  - unfold AdmitGitHubBackground. destruct (rs <=? 0); [done|]. destruct (_ || _); [done|]. rewrite run_script_state.
    destruct (qe_fate ev); try done; (eapply slot_taken_eq; [symmetry; apply admit_slot|done]).
  - unfold AdmitGitHubCheckRefresh. rewrite run_script_state. unfold check_refresh_script.
    destruct HL as [|(e & He & Hle)]; [by left|]. rewrite retain_slot, He.
    destruct (qe_fate ev); try done;
      (destruct (match lowest_remaining _ with Some _ => _ | None => _ end); [|destruct (_ =? 0)];
       right; exists e; simpl; by rewrite retain_slot).
Qed.

Lemma refresh_admitted fate clock now reserve interval q : (AdmitGitHubCheckRefresh fate clock now reserve interval q).2 = Some true ->
  Milliseconds interval <> 0 ->
  q_slot (live_quota clock q) = None
  /\ q_slot (AdmitGitHubCheckRefresh fate clock now reserve interval q).1 = Some (clock + Milliseconds interval).
Proof.
  unfold AdmitGitHubCheckRefresh. rewrite run_script_reply, run_script_state. destruct fate; try done. simpl.
  unfold check_refresh_script. destruct (match lowest_remaining _ with Some _ => _ | None => _ end); [done|].
  intros Ha Hi. apply Z.eqb_neq in Hi. rewrite Hi in *. rewrite retain_slot in *. by destruct (q_slot (live_quota clock q)).
Qed.

(** Check refreshes of one installation are spaced out across the fleet:
    two that are admitted, by whichever controllers and whatever runs between
    them, are at least thirty seconds apart. *)
Theorem check_refreshes_are_spaced skew q fate c inst t1 evs fate' c' inst' t2 :
  in_order t1 evs -> last_time t1 evs <= t2 ->
  let r1 := AdmitCheckRefresh fate (server_clock skew t1) c inst t1 q in
  r1.2 = Ok true ->
  (AdmitCheckRefresh fate' (server_clock skew t2) c' inst' t2 (quota_run skew r1.1 evs)).2 = Ok true ->
  UnixMilli t1 + 30000 <= UnixMilli t2.
Proof.
  intros Hord Hlast r1 H1 H2.
  assert (Hex : forall f k cc i t qq, (AdmitCheckRefresh f k cc i t qq).2 = Ok true ->
    (AdmitGitHubCheckRefresh f k t checkRefreshQuotaReserve checkRefreshInterval qq).2 = Some true
    /\ (AdmitCheckRefresh f k cc i t qq).1 = (AdmitGitHubCheckRefresh f k t checkRefreshQuotaReserve checkRefreshInterval qq).1).
  { intros f k cc i t qq. unfold AdmitCheckRefresh, checkRefreshAdmission. destruct (_ || _); [done|]. destruct (negb _); [done|].
    destruct (AdmitGitHubCheckRefresh _ _ _ _ _ _) as [q' [b|]]; [|done]. by intros [= ->]. }
  apply Hex in H1 as [H1 E1]. apply Hex in H2 as [H2 _].
  apply refresh_admitted in H1 as [_ H1]; [|done]. apply refresh_admitted in H2 as [H2 _]; [|done].
  fold r1 in E1. rewrite <- E1 in H1. change (Milliseconds checkRefreshInterval) with 30000 in H1.
  assert (HS : slot_taken skew (UnixMilli t1 + 30000) (UnixMilli t1) r1.1).
  { right. eexists. split; [exact H1|]. unfold server_clock. lia. }
  apply (quota_run_invariant skew (slot_taken skew (UnixMilli t1 + 30000))) with (evs := evs) in HS; [|intros; subst; by eapply step_slot|done].
  apply (slot_taken_live _ _ _ (UnixMilli t2)) in HS; [|apply Z.div_le_mono; [done|lia]].
  destruct HS as [|(e & He & _)]; [done|]. unfold server_clock in H2. by rewrite H2 in He.
Qed.

(** ** The hashes stay bounded *)

Definition quota_bounded (q : Quota) : Prop :=
  (size (families (q_families q)) <= githubQuotaMaxFamilies)%nat /\ (length (candidates (q_lane q)) <= githubQuotaMaxCandidates)%nat.

Lemma live_bounded clock q : quota_bounded q -> quota_bounded (live_quota clock q).
Proof.
  destruct q as [lg lge fm fme ln lne sl]. unfold quota_bounded, live_key. intros [H1 H2]. simpl in *. unfold live_key.
  split; [destruct (expired clock fme)|destruct (expired clock lne)]; simpl; try done; apply Nat.le_0_l.
Qed.

Lemma retain_bounded clock now s q : (size (families (fams s)) <= githubQuotaMaxFamilies)%nat ->
  (length (candidates (q_lane q)) <= githubQuotaMaxCandidates)%nat -> quota_bounded (retain_families clock now s q).
Proof.
  intros H1 H2. unfold retain_families. destruct (_ <? _); [destruct (lane_exists _); by split|].
  split; simpl; [rewrite map_size_empty|]; apply Nat.le_0_l.
Qed.

Lemma hset_length c v l : length (hset c v l) = if is_null (hget c l) then S (length l) else length l.
Proof.
  induction l as [|[k w] l IH]; simpl; [done|]. destruct (k ==? c); simpl; [done|]. rewrite IH. by destruct (is_null _).
Qed.

Lemma lane_step_bounded now interval expiry mc c l : (length (candidates l) <= mc)%nat ->
  (length (candidates (lane_step now interval expiry mc c l).1) <= mc)%nat.
Proof.
  intros H. unfold lane_step. set (live := List.filter _ _).
  assert (Hl : (length live <= mc)%nat) by (etransitivity; [apply List.filter_length_le|done]).
  set (current := match hget c live with Some _ => _ | None => _ end).
  destruct (is_null current && (mc <=? length live)%nat) eqn:E; [done|].
  assert (Hh : forall v, (length (hset c v live) <= mc)%nat).
  { intros v. rewrite hset_length. destruct (hget c live) as [[d s|txt]|] eqn:G; simpl; [done|done|].
    subst current. simpl in E. apply Nat.leb_gt in E. lia. }
  clear E.
  destruct current; simpl; (destruct (_ && _); simpl; [etransitivity; [apply List.filter_length_le|]|]; apply Hh).
Qed.

Lemma migrate_bounded now mi me mc lg : (length (candidates (migrate now mi me mc lg)) <= mc)%nat.
Proof. simpl. rewrite length_take. lia. Qed.

Lemma step_bounded skew q ev : quota_bounded q -> quota_bounded (quota_step skew q ev).
Proof.
  intros HB. unfold quota_step. set (clock := server_clock skew (qe_now ev)).
  pose proof (live_bounded clock q HB) as [HF HC].
  pose proof (quota_families_size (UnixMilli (qe_now ev)) (Milliseconds githubQuotaMaxResetAge) _ _ HF) as HQ.
  destruct (qe_op ev) as [r l x|c rs iv|rs iv].
  - unfold ObserveGitHubQuota. destruct (_ || _); [done|]. rewrite run_script_state.
    destruct (qe_fate ev); try done; unfold observe_quota_script;
    (destruct (merge_family _ _ _ _ _ _) as [s b] eqn:E; apply retain_bounded;
      [change s with (s, b).1; rewrite <- E; by apply merge_family_size|by destruct (_ && _)]).
  - unfold AdmitGitHubBackground. destruct (rs <=? 0); [done|]. destruct (_ || _); [done|]. rewrite run_script_state.
    destruct (qe_fate ev); try done; unfold admit_background_script;
    (destruct (lowest_remaining _) as [low|]; [|apply retain_bounded; [done|]; simpl; destruct (_ <? _); apply Nat.le_0_l]);
    (destruct (rs <? low); [apply retain_bounded; [done|]; simpl; destruct (_ <? _); apply Nat.le_0_l|]);
    (set (q1 := if migrated _ then _ else _);
     assert (H1 : (length (candidates (q_lane q1)) <= githubQuotaMaxCandidates)%nat)
       by (subst q1; destruct (migrated _); [done|]; apply migrate_bounded);
     destruct (retain_bounded clock (UnixMilli (qe_now ev)) _ q1 HQ H1) as [HR1 HR2];
     pose proof (lane_step_bounded (UnixMilli (qe_now ev)) (Milliseconds iv) (Milliseconds (Z.max (3 * iv) (30 * minute))) _ c _ HR2);
     destruct (lane_step _ _ _ _ _ _); by split).
  - unfold AdmitGitHubCheckRefresh. rewrite run_script_state. unfold check_refresh_script.
    destruct (qe_fate ev); try done;
    (destruct (match lowest_remaining _ with Some _ => _ | None => _ end);
      [|destruct (_ =? 0); [|destruct (q_slot _)]]; by apply (retain_bounded clock (UnixMilli (qe_now ev)) _ _ HQ HC)).
Qed.

(** The state of an installation stays bounded: whatever the fleet sends,
    in whatever order and with whatever an older writer left behind, there are
    at most 16 quota windows and 1024 waiting candidates. *)
Theorem quota_state_is_bounded skew lg evs :
  let q := quota_run skew (no_quota <| q_legacy := lg |>) evs in
  (size (families (q_families q)) <= 16)%nat /\ (length (candidates (q_lane q)) <= 1024)%nat.
Proof.
  assert (H : forall evs q, quota_bounded q -> quota_bounded (quota_run skew q evs)).
  { clear. induction evs as [|ev evs IH]; intros q HB; simpl; [done|]. by apply IH, step_bounded. }
  apply H. split; simpl; [rewrite map_size_empty|]; apply Nat.le_0_l.
Qed.

(** ** Witnesses *)

Definition T0 : time := 1700000000 * second.
Definition sample_report := MkQuotaObservation T0 (T0 + 3600 * second) 5000 100.
Definition sample_later (s : Z) (op : QuotaOp) := MkQuotaEvent (T0 + s * second) Answered op.
Definition sample_traffic := [sample_later 2 (QObserve (T0 + 1800 * second) 5000 4000);
  sample_later 3 (QBackground "b" 500 minute); sample_later 4 (QRefresh 508 (30 * second))].
Definition sample_controller := MkController ModeEnforce "prod" 7 [42] true "me" (30 * second) (Local.newLocalStore 1024) 0.

Lemma sample_plausible : plausible sample_report.
Proof. repeat split; vm_compute; congruence. Qed.
Lemma sample_in_order : in_order T0 sample_traffic.
Proof. repeat split; vm_compute; congruence. Qed.

Lemma reserved_quota_is_not_spent_witness :
  let q' := quota_run 5 (ObserveGitHubQuota ReplyLost (server_clock 5 T0) sample_report no_quota).1 sample_traffic in
  (AdmitCheckRefresh Answered (server_clock 5 (T0 + 100 * second)) sample_controller 42 (T0 + 100 * second) q').2 <> Ok true.
Proof.
  refine (proj1 (proj1 (reserved_quota_is_not_spent 5 ReplyLost sample_report sample_traffic (T0 + 100 * second) no_quota
    sample_plausible _ sample_in_order _ _) _ Answered sample_controller 42)); vm_compute; congruence.
Defined.

Lemma low_lane_is_paced_witness : UnixMilli (T0 + second) + Milliseconds minute <= UnixMilli (T0 + 200 * second).
Proof.
  refine (low_lane_is_paced 5 Answered sample_report no_quota [] sample_traffic Answered "a" (T0 + second) 500 minute
    (MkAdmission true true true false (UnixMilli (T0 + second) + 60000)) Answered "b" (T0 + 200 * second) 500 minute
    (MkAdmission true true true false (UnixMilli (T0 + 200 * second) + 60000)) sample_plausible _ _ _ _ _ _ _ _ _).
  - done.
  - repeat split; vm_compute; congruence.
  - vm_compute; congruence.
  - vm_compute; congruence.
  - apply Forall_forall. intros ev Hev. repeat (apply elem_of_cons in Hev as [->|Hev]); try done; [right; vm_compute; congruence|by apply elem_of_nil in Hev].
  - vm_compute; reflexivity.
  - reflexivity.
  - vm_compute; reflexivity.
  - reflexivity.
Defined.

Lemma low_lane_is_fifo_witness :
  let l := MkLane true (Some 2) None [("b", CandAt 100 2); ("a", CandAt 100 1)] in
  exists d s, In ("a", CandAt d s) (candidates l) /\ 10 < d /\ s <= 2.
Proof.
  refine (low_lane_is_fifo 10 60 90 1024 "a" (MkLane true (Some 2) None [("b", CandAt 100 2); ("a", CandAt 100 1)]) "b" 100 2 _ _ _).
  - vm_compute; reflexivity.
  - by left.
  - lia.
Defined.

Lemma check_refreshes_are_spaced_witness : UnixMilli T0 + 30000 <= UnixMilli (T0 + 30 * second).
Proof.
  refine (check_refreshes_are_spaced 5 no_quota Answered sample_controller 42 T0 [sample_later 4 (QRefresh 508 (30 * second))]
    Answered sample_controller 42 (T0 + 30 * second) _ _ _ _).
  - repeat split; vm_compute; congruence.
  - vm_compute; congruence.
  - vm_compute; reflexivity.
  - vm_compute; reflexivity.
Defined.
