(* ===== verification/Errors.v ===== *)
(** * Error values and their trees

    The errors that job handlers and the GitHub client hand around:
    internal/worker/worker.go ([RetryableError], [FatalError],
    [HandoffError]), internal/services/github/retry.go and pr.go (the typed
    request failures), and Go's own wrapping.  [errors.Is] and [errors.As]
    visit the tree in the order of [nodes]: an error before its causes, the
    causes of a join from left to right.  A wrap keeps the fixed part of its
    message; the text of an error is a parameter where it is used. *)

From S2P Require Import Prelude GoRuntime Classifier.
From stdpp Require Import base option list strings gmap.

Open Scope string_scope.
Open Scope Z_scope.

(** Sentinel values compared by identity. *)
Inductive sentinel :=
  | Canceled
  | DeadlineExceeded
  | ErrPullRequestCheckRefreshDeferred
  | ErrInvalidCodeReviewGuidanceFile
  | ErrCodeReviewPublicationLockBusy
  | ErrCodeReviewTerminalRecoveryTimeout
  | errCodeReviewEndedParentRecovery
  | ErrSessionInterrupted
  | ErrExecutorLostLease
  | ErrExecutorInvalidHandoff.
#[export] Instance sentinel_eq_dec : EqDecision sentinel.
Proof. solve_decision. Defined.

(** GitHubRetryPolicy, with the policy of mergeability_retry.go. *)
Inductive GitHubRetryPolicy :=
  | GitHubRetryPolicyNone
  | GitHubRetryPolicyBackoff
  | GitHubRetryPolicyNoHint
  | GitHubRetryPolicyExact
  | githubRetryPolicyMergeabilityWait.
#[export] Instance policy_eq_dec : EqDecision GitHubRetryPolicy.
Proof. solve_decision. Defined.

(** codeReviewWorkspaceControllerWait. *)
Record WorkspaceWait := MkWorkspaceWait { ww_OrgID : uuid; ww_ReviewID : uuid; ww_SessionID : uuid; ww_ExpectedHead : string }.

(** RetryableError without its cause. *)
Record Retryable := MkRetryable {
  ConsumeAttempt : bool;
  BypassMaxRetryDuration : bool;
  ResetRetryWindow : bool;
  MaxRetryDuration : option duration;
  RetryWindowStartedAt : option time;
  RetryAfter : option duration;
  Policy : GitHubRetryPolicy;
  GitHubRetryKey : string;
  GitHubRetryAt : option time;
  TargetNodeID : option string;
  ClearTargetNodeID : bool;
  codeReviewWorkspaceWait : option WorkspaceWait
}.
#[export] Instance eta_retryable : Eta Retryable := fun r =>
  MkRetryable (ConsumeAttempt r) (BypassMaxRetryDuration r) (ResetRetryWindow r) (MaxRetryDuration r)
    (RetryWindowStartedAt r) (RetryAfter r) (Policy r) (GitHubRetryKey r) (GitHubRetryAt r) (TargetNodeID r)
    (ClearTargetNodeID r) (codeReviewWorkspaceWait r).

(** [RetryableError{Err: err}]. *)
Definition plain_retry : Retryable :=
  MkRetryable false false false None None None GitHubRetryPolicyNone "" None None false None.

Set Warnings "-register-all".
Inductive error :=
  | EText (msg : string)
  | ESentinel (s : sentinel)
  (** [fmt.Errorf] with one [%w]; with several, and [errors.Join]. *)
  | EWrap (msg : string) (cause : error)
  | EJoin (msg : string) (causes : list error)
  (** [net.Error] values of the standard library other than the next; a client
      timeout answers [errors.Is(err, context.DeadlineExceeded)]. *)
  | ENet (msg : string) (timeout : bool) (cause : option error)
  | EUrl (cause : error)
  | EGitHubRequest (cause : option error) (CallerContextErr : option error)
  | EGitHubResponseRead (status : Z) (header : option (gmap string (list string))) (body : string)
      (cause : option error) (CallerContextErr : option error)
  | EGitHubAPI (status : Z) (header : option (gmap string (list string))) (body : string)
  | EGitHubGraphQL (errs : list GraphQLError) (header : option (gmap string (list string)))
  | EDeferral (d : Deferral)
  | EControlled (cause : option error) (d : Deferral)
  | ERetryable (r : Retryable) (cause : error)
  | EFatal (cause : error)
  | EHandoff (cause : error).

(** What [Unwrap] gives. *)
Definition causes (e : error) : list error :=
  match e with
  | EWrap _ c | EUrl c | ERetryable _ c | EFatal c | EHandoff c => [c]
  | EJoin _ cs => cs
  | ENet _ _ (Some c) | EGitHubRequest (Some c) _ | EGitHubResponseRead _ _ _ (Some c) _ | EControlled (Some c) _ => [c]
  | _ => []
  end.

(** walkErrorTree: the errors of the tree in the order they are visited. *)
Fixpoint nodes (e : error) : list error :=
  e :: match e with
  | EWrap _ c | EUrl c | ERetryable _ c | EFatal c | EHandoff c => nodes c
  | EJoin _ cs => flat_map nodes cs
  | ENet _ _ (Some c) | EGitHubRequest (Some c) _ | EGitHubResponseRead _ _ _ (Some c) _ | EControlled (Some c) _ => nodes c
  | _ => []
  end.

Definition is_sentinel (s : sentinel) (e : error) : bool :=
  match e with
  | ESentinel s' => s' ==? s
  | ENet _ timeout _ => timeout && (s ==? DeadlineExceeded)
  | _ => false
  end.
Definition errors_Is (e : error) (s : sentinel) : bool := existsb (is_sentinel s) (nodes e).

(** [errors.As]: the first error of the tree the selector accepts. *)
Fixpoint first_some {A B} (f : A -> option B) (l : list A) : option B :=
  match l with
  | [] => None
  | a :: l => match f a with Some b => Some b | None => first_some f l end
  end.
Definition errors_As {B} (e : error) (f : error -> option B) : option B := first_some f (nodes e).

Definition as_Handoff (e : error) : option error := match e with EHandoff c => Some c | _ => None end.
Definition as_Fatal (e : error) : option error := match e with EFatal c => Some c | _ => None end.
Definition as_Retryable (e : error) : option Retryable := match e with ERetryable r _ => Some r | _ => None end.
Definition as_GitHubAPI (e : error) : option Z := match e with EGitHubAPI status _ _ => Some status | _ => None end.

Lemma nodes_causes e : nodes e = e :: flat_map nodes (causes e).
Proof.
  destruct e as [m|s|m c|m cs|m tm [c|]|c|[c|] cc|st h b [c|] cc|st h b|es h|d|[c|] d|r c|c|c]; simpl;
    rewrite ?app_nil_r; done.
Qed.

Lemma first_some_In {A B} (f : A -> option B) l b : first_some f l = Some b -> exists a, In a l /\ f a = Some b.
Proof.
  induction l as [|a l IH]; simpl; [done|]. destruct (f a) eqn:E; [intros [= ->]; eauto|].
  intros (x & Hx & Hf)%IH. eauto.
Qed.

(** An error is found in a join exactly when it is found in one of its parts. *)
Lemma errors_Is_join msg cs s : errors_Is (EJoin msg cs) s = existsb (fun c => errors_Is c s) cs.
Proof.
  unfold errors_Is. simpl. induction cs as [|c cs IH]; simpl; [done|]. by rewrite existsb_app, IH.
Qed.
