(* ===== verification/GithubRetry.v ===== *)
(** * Retrying GitHub work

    internal/services/github/retry.go decides from an error tree whether a
    failed GitHub operation may be retried and when;
    internal/worker/github_retry.go and mergeability_retry.go turn that into
    the retry schedule of the job. *)

From S2P Require Import Prelude GoRuntime Classifier Errors.
From stdpp Require Import base option list strings gmap.

Open Scope string_scope.
Open Scope Z_scope.

(** ** Classification (services/github/retry.go) *)

Record RetryClassification := MkRC {
  rc_Retryable : bool;
  rc_RateLimited : bool;
  rc_RetryAfter : option duration;
  rc_RetryAt : option time;
  rc_Kind : string;
  rc_ControllerManaged : bool
}.
#[export] Instance eta_rc : Eta RetryClassification := fun r =>
  MkRC (rc_Retryable r) (rc_RateLimited r) (rc_RetryAfter r) (rc_RetryAt r) (rc_Kind r) (rc_ControllerManaged r).

Definition no_retry : RetryClassification := MkRC false false None None "" false.
Definition transient_retry : RetryClassification := MkRC true false None None "" false.

(** The time left until [t], never negative. *)
Definition delay_until (now t : time) : duration := if Sub t now <? 0 then 0 else Sub t now.

Definition is_net_error (e : error) : bool :=
  match e with
  | ENet _ _ _ | EUrl _ | ESentinel DeadlineExceeded => true
  | _ => false
  end.

(** Whether the caller, not the transport, stopped the request.  Provenance
    ([owned]) is inherited down a branch and never across siblings. *)
Fixpoint retryCallerStopped (owned : bool) (e : error) : bool :=
  match e with
  | EGitHubRequest c caller | EGitHubResponseRead _ _ _ c caller =>
      match caller, c with
      | Some _, _ => true
      | None, Some c => retryCallerStopped true c
      | None, None => false
      end
  | EJoin _ cs => existsb (retryCallerStopped owned) cs
  | EWrap _ c | EUrl c | ERetryable _ c | EFatal c | EHandoff c | ENet _ _ (Some c) | EControlled (Some c) _ =>
      retryCallerStopped owned c
  | EControlled None _ => false
  | _ => negb owned && errors_Is e DeadlineExceeded
  end.

Definition classifyDeferral (d : Deferral) (now : time) : RetryClassification :=
  MkRC true true (Some (delay_until now (d_RetryAt d))) (Some (d_RetryAt d)) (d_Kind d) true.

Definition mergeRetryClassification (target candidate : RetryClassification) (now : time) : RetryClassification :=
  if negb (rc_Retryable candidate) then target
  else
    let deadlineChanged := match rc_RetryAt target, rc_RetryAt candidate with
      | None, _ => true
      | Some t, Some c => After c t
      | Some _, None => false
      end in
    let merged :=
      if negb (rc_Retryable target) then candidate
      else
        let t := target <| rc_RateLimited := rc_RateLimited target || rc_RateLimited candidate |>
                        <| rc_ControllerManaged := rc_ControllerManaged target || rc_ControllerManaged candidate |> in
        match deadlineChanged, rc_RetryAt candidate with
        | true, Some c => t <| rc_RetryAt := Some c |> <| rc_Kind := rc_Kind candidate |>
        | _, _ => if (rc_Kind target ==? KindUnknown) && (rc_Kind candidate <>? KindUnknown)
                  then t <| rc_Kind := rc_Kind candidate |> else t
        end in
    match rc_RetryAt merged with
    | Some t => merged <| rc_RetryAfter := Some (delay_until now t) |>
    | None => merged
    end.

Section Classify.
(** [http.ParseTime]; [json.Unmarshal] of a REST error body into a struct with
    the one member ["message"]; and [time.Parse(time.RFC3339Nano, _)]. *)
Variables (ParseTime : string -> option time) (UnmarshalMessage : string -> option string)
  (ParseRFC3339Nano : string -> option time).

Definition structuredGitHubAPIMessage (body : string) : string := default "" (UnmarshalMessage body).

(** controller.go: the deadline the enforcement attached to a response. *)
Definition InternalRetryMetadata (header : option (gmap string (list string))) (installationID : Z) : option Deferral :=
  match header with
  | None => None
  | Some h =>
      match ParseRFC3339Nano (TrimSpace (Get h "X-143-Internal-Github-Retry-At")) with
      | None => None
      | Some retryAt =>
          let kind := TrimSpace (Get h "X-143-Internal-Github-Limit-Kind") in
          Some (MkDeferral (if Kind_Validate kind then kind else KindUnknown) "" installationID retryAt
                  (default 0 (ParseInt (TrimSpace (Get h "X-143-Internal-Github-Generation")))) "")
      end
  end.

Definition classifyHTTPResponseFailure (status : Z) (header : option (gmap string (list string))) (body : string)
    (interrupted : bool) (now : time) : RetryClassification :=
  match InternalRetryMetadata header 0 with
  | Some d => classifyDeferral d now
  | None =>
      let c := ClassifyResponse ParseTime now (MkResponseInput status header (structuredGitHubAPIMessage body) [] now) in
      if negb (interrupted || RateLimited c || (status =? StatusRequestTimeout) || (status =? StatusTooEarly)
               || (StatusInternalServerError <=? status))
      then no_retry
      else
        let retryAt := match RetryAt c with Some t => Some t | None => RetryDeadline ParseTime header now end in
        MkRC true (RateLimited c) (delay_until now <$> retryAt) retryAt (c_Kind c) false
  end.

Definition classifyRetryCause (e : error) (now : time) : RetryClassification :=
  match e with
  | EDeferral d | EControlled _ d => classifyDeferral d now
  | EGitHubAPI status header body => classifyHTTPResponseFailure status header body false now
  | EGitHubResponseRead status header body _ _ => classifyHTTPResponseFailure status header body true now
  | EGitHubGraphQL errs header =>
      match InternalRetryMetadata header 0 with
      | Some d => classifyDeferral d now
      | None =>
          let c := ClassifyResponse ParseTime now (MkResponseInput 200 header "" errs now) in
          if RateLimited c
          then MkRC true true (delay_until now <$> RetryAt c) (RetryAt c) (c_Kind c) false
          else no_retry
      end
  | EUrl _ => if existsb is_net_error (nodes e) then transient_retry else no_retry
  | _ => if is_net_error e then transient_retry else no_retry
  end.

(** The throttled and the transient evidence are merged separately. *)
Definition visit_cause (now : time) (acc : RetryClassification * RetryClassification) (e : error)
    : RetryClassification * RetryClassification :=
  let c := classifyRetryCause e now in
  if negb (rc_Retryable c) then acc
  else if rc_RateLimited c then (mergeRetryClassification acc.1 c now, acc.2)
  else (acc.1, mergeRetryClassification acc.2 c now).

Definition ClassifyRetry (err : option error) (now : time) : RetryClassification :=
  match err with
  | None => no_retry
  | Some e =>
      if errors_Is e Canceled || retryCallerStopped false e then no_retry
      else let '(throttled, transient) := foldl (visit_cause now) (no_retry, no_retry) (nodes e) in
           if rc_Retryable throttled then throttled else transient
  end.

(** ** Schedules (worker/github_retry.go, worker/mergeability_retry.go) *)

Definition githubRateLimitMinimumRetryAfter : duration := minute.
Definition githubRateLimitJitterRange : duration := 30 * second.
Definition githubRateLimitMaxRetryDuration : duration := 2 * hour.
Definition mergeabilityMaximumPollDelay : duration := 2 * minute.

Definition githubRateLimitJitter (retryKey : string) : duration :=
  digest_jitter retryKey (githubRateLimitJitterRange / second).

Definition githubRateLimitRetryAfter (upstream : option duration) (retryKey : string) : duration :=
  let delay := match upstream with
    | Some u => if githubRateLimitMinimumRetryAfter <? u then u else githubRateLimitMinimumRetryAfter
    | None => githubRateLimitMinimumRetryAfter
    end in
  dur_add delay (githubRateLimitJitter retryKey).

(** Slots at 1, 3 and 7 minutes of the window, then every 5 minutes. *)
Definition no_hint_slot (elapsed : duration) : duration :=
  if elapsed <? minute then minute
  else if elapsed <? 3 * minute then 3 * minute
  else if elapsed <? 7 * minute then 7 * minute
  else dur_add (7 * minute) (dur_mul (Z.quot (elapsed - 7 * minute) (5 * minute) + 1) (5 * minute)).

Definition githubNoHintRetryAt (retryWindowStartedAt failureAt : time) (retryKey : string) : time :=
  let elapsed := Sub failureAt retryWindowStartedAt in
  let elapsed := if elapsed <? 0 then 0 else elapsed in
  let candidate := retryWindowStartedAt + no_hint_slot elapsed in
  let minimum := failureAt + githubRateLimitMinimumRetryAfter in
  let candidate := if Before candidate minimum then minimum else candidate in
  candidate + githubRateLimitJitter retryKey.

(** The loop of mergeabilityPollDelay; the delay doubles at most five times
    before it reaches the maximum, so six rounds suffice. *)
Fixpoint poll_delay (fuel : nat) (elapsed delay : duration) : duration :=
  match fuel with
  | O => delay
  | S fuel =>
      if (delay <=? elapsed) && (delay <? mergeabilityMaximumPollDelay)
      then poll_delay fuel (elapsed - delay) (Z.min (2 * delay) mergeabilityMaximumPollDelay)
      else delay
  end.
Definition mergeabilityPollDelay (startedAt now : time) : duration := poll_delay 6 (Sub now startedAt) (5 * second).

Definition newPullRequestMergeabilityWait (err : error) : error :=
  ERetryable (plain_retry <| RetryAfter := Some (5 * second) |>
                          <| MaxRetryDuration := Some githubRateLimitMaxRetryDuration |>
                          <| Policy := githubRetryPolicyMergeabilityWait |>) err.

Definition githubRetryableError (err : option error) (retryKey : string) (now : time) : option Retryable :=
  let c := ClassifyRetry err now in
  if negb (rc_Retryable c) then None
  else
    let r := plain_retry <| ConsumeAttempt := negb (rc_RateLimited c) |>
                         <| RetryAfter := rc_RetryAfter c |>
                         <| MaxRetryDuration := Some githubRateLimitMaxRetryDuration |>
                         <| Policy := GitHubRetryPolicyBackoff |> in
    Some (if rc_RateLimited c then
      match rc_ControllerManaged c, rc_RetryAt c, rc_RetryAfter c with
      | true, Some t, _ => r <| Policy := GitHubRetryPolicyExact |> <| GitHubRetryAt := Some t |> <| RetryAfter := None |>
      | _, _, None => r <| Policy := GitHubRetryPolicyNoHint |> <| GitHubRetryKey := retryKey |> <| RetryAfter := None |>
      | _, _, Some u => r <| RetryAfter := Some (githubRateLimitRetryAfter (Some u) retryKey) |>
      end else r).

(** The retryable causes of the independent failures of a reconciliation. *)
Fixpoint retryable_causes (now : time) (e : error) : list error :=
  match e with
  | EJoin _ cs => flat_map (retryable_causes now) cs
  | _ => if rc_Retryable (ClassifyRetry (Some e) now) then [e] else []
  end.

(** [collect_now] and [now] are the clock readings of the two passes;
    [errors.Join] of nothing is nil. *)
Definition githubReconciliationRetryableError (err : error) (retryKey : string) (collect_now now : time) : option Retryable :=
  match retryable_causes collect_now err with
  | [] => githubRetryableError None retryKey now
  | cs => githubRetryableError (Some (EJoin "" cs)) retryKey now
  end.

Definition applyGitHubRetrySchedule (r : Retryable) (retryWindowStartedAt now : time) : Retryable :=
  match Policy r with
  | githubRetryPolicyMergeabilityWait => r <| RetryAfter := Some (mergeabilityPollDelay retryWindowStartedAt now) |>
  | GitHubRetryPolicyNoHint =>
      r <| RetryAfter := Some (Sub (githubNoHintRetryAt retryWindowStartedAt now (GitHubRetryKey r)) now) |>
  | GitHubRetryPolicyExact =>
      match GitHubRetryAt r with
      | None => r
      | Some t => r <| RetryAfter := Some (delay_until now t) |>
      end
  | _ => r
  end.

Definition classifyGitHubJobError (err : error) (retryKey : string) (now : time) : error :=
  if errors_Is err ErrPullRequestCheckRefreshDeferred then
    ERetryable (plain_retry <| RetryAfter := Some (dur_add (45 * second) (githubRateLimitJitter retryKey)) |>
                            <| BypassMaxRetryDuration := true |>) err
  else if errors_Is err ErrInvalidCodeReviewGuidanceFile then
    match errors_As err as_Fatal with
    | Some _ => err
    | None => EFatal (EWrap "fix root REVIEW.md on the repository default branch and request a new review" err)
    end
  else if errors_Is err ErrCodeReviewPublicationLockBusy then
    ERetryable (plain_retry <| RetryAfter := Some (15 * second) |>
                            <| MaxRetryDuration := Some githubRateLimitMaxRetryDuration |>) err
  else match githubRetryableError (Some err) retryKey now with
  | Some r => ERetryable r err
  | None => match errors_As err as_GitHubAPI with Some _ => EFatal err | None => err end
  end.

End Classify.
