(* ===== verification/Worker.v ===== *)
(** * The job worker

    internal/worker/worker.go: what a worker does with a job it has claimed,
    from the handler's verdict to the write that releases the lease.  The
    worker sees the queue through the interface [jobLeaseStore]; the stores
    its Go interface discovers by type assertion are optional fields.  The
    executor process, internal/worker/session_executor_runtime.go, shares the
    retry window and ends an attempt on the executor row as well. *)

From S2P Require Import Prelude GoRuntime Sql Tables Continuation JobStore ExecutorStore Classifier Errors GithubRetry.
From stdpp Require Import base option list strings gmap.

Open Scope string_scope.
Open Scope Z_scope.

Definition defaultLeaseDuration : duration := 60 * second.
Definition maxRetryableDuration : duration := 8 * minute.
(** codeReviewWorkspaceWait of code_review_workspace.go. *)
Definition workspaceWaitDelay : duration := 3 * second.

(** ** The retry window *)

(** [time.Duration(1<<exp) * time.Second], capped at 2^10 seconds. *)
Definition retryBackoff (attempt : Z) : duration :=
  let exp := if 10 <? attempt then 10 else attempt in Z.shiftl 1 exp * second.

Definition isLongRunningSessionJob (jobType : string) : bool :=
  (jobType ==? "run_agent") || (jobType ==? "continue_session").

Definition retryableDurationExceeded (retryWindowStartedAt : time) (r : Retryable) (now : time) : bool :=
  let retryWindow := default maxRetryableDuration (MaxRetryDuration r) in
  if BypassMaxRetryDuration r then false
  else
    let age := Sub now retryWindowStartedAt in
    if retryWindow <? age then true
    else match RetryAfter r with
         | None => false
         | Some delay => let delay := if delay <? 0 then 0 else delay in retryWindow <? dur_add age delay
         end.

(** ** The queue as the worker sees it *)

Record jobLeaseStore (St : Type) := MkLeaseStore {
  EnsureRetryWindow : uuid -> uuid -> time -> St -> St * result (option time);
  MarkSucceeded : uuid -> uuid -> St -> St * result bool;
  MarkFailed : uuid -> uuid -> string -> St -> St * result bool;
  Retry : uuid -> uuid -> string -> time -> St -> St * result bool;
  RetryWithoutConsumingAttempt : uuid -> uuid -> string -> time -> St -> St * result bool;
  DeadLetter : uuid -> uuid -> string -> St -> St * result bool;
  (** targetRetryLeaseStore *)
  RetryAndTarget : option (uuid -> uuid -> string -> time -> option string -> St -> St * result bool);
  RetryWithoutConsumingAndTarget : option (uuid -> uuid -> string -> time -> option string -> St -> St * result bool);
  (** retryWindowResetLeaseStore *)
  RetryAndResetWindow : option (uuid -> uuid -> string -> time -> St -> St * result bool);
  (** codeReviewTerminalLeaseStore *)
  DeadLetterCodeReview : option (uuid -> uuid -> uuid -> string -> string -> St -> St * result bool)
}.
Arguments EnsureRetryWindow {St}.
Arguments MarkSucceeded {St}.
Arguments MarkFailed {St}.
Arguments Retry {St}.
Arguments RetryWithoutConsumingAttempt {St}.
Arguments DeadLetter {St}.
Arguments RetryAndTarget {St}.
Arguments RetryWithoutConsumingAndTarget {St}.
Arguments RetryAndResetWindow {St}.
Arguments DeadLetterCodeReview {St}.

(** What an attempt sets off besides its database writes. *)
Inductive effect :=
  | DeadLetterHooks (err : error)
  | RetryScheduledHooks (err : error) (runAt : time)
  | WakeWorker.

Section Finish.
Context {St : Type} (store : jobLeaseStore St).
(** [err.Error()] and codeReviewDeadLetterReason. *)
Variables (ErrorText : error -> string) (codeReviewDeadLetterReason : error -> string).

Definition ensureRetryWindowStartedAt (job : Job) (r : Retryable) (now : time) (s : St) : St * result (option time) :=
  match RetryWindowStartedAt r with
  | Some t => (s, Ok (Some t))
  | None =>
      if match MaxRetryDuration r with None => true | Some _ => BypassMaxRetryDuration r end
      then (s, Ok (Some (j_created_at job)))
      else match j_retry_window_started_at job, j_lock_token job with
           | Some t, _ => (s, Ok (Some t))
           | None, None => (s, Err "ensure retry window start: job lock token is nil")
           | None, Some tok => EnsureRetryWindow store (j_id job) tok now s
           end
  end.

(** The instant of the retry and, when the write took effect, [true]. *)
Definition retryJobWithDelayAt (now : time) (jobID lockToken : uuid) (errMsg : string) (attempt : Z)
    (preserveAttempts : bool) (override : option duration) (targetNodeID : option string)
    (clearTargetNodeID resetRetryWindow : bool) (s : St) : St * (time * bool) :=
  let runAt := now + default (retryBackoff attempt) override in
  let updateTarget := negb (is_null targetNodeID) || clearTargetNodeID in
  let plain := if preserveAttempts then RetryWithoutConsumingAttempt store jobID lockToken errMsg runAt s
               else Retry store jobID lockToken errMsg runAt s in
  let '(s', r) :=
    if resetRetryWindow then
      match RetryAndResetWindow store with
      | Some reset => if preserveAttempts && negb updateTarget then reset jobID lockToken errMsg runAt s
                      else (s, Err "retry window reset requires an untargeted non-consuming retry and reset-capable store")
      | None => (s, Err "retry window reset requires an untargeted non-consuming retry and reset-capable store")
      end
    else if updateTarget then
      match RetryAndTarget store, RetryWithoutConsumingAndTarget store with
      | Some retry, Some refund =>
          if preserveAttempts then refund jobID lockToken errMsg runAt targetNodeID s
          else retry jobID lockToken errMsg runAt targetNodeID s
      | _, _ => plain
      end
    else plain in
  (s', (runAt, match r with Ok b => b | Err _ => false end)).

Definition deadLetterJob (job : Job) (lockToken : uuid) (terminalErr : error) (s : St) : St * list effect :=
  let '(s', r) :=
    if (j_job_type job ==? "run_code_review_recheck")
       || ((j_job_type job ==? "run_code_review") && negb (errors_Is terminalErr errCodeReviewEndedParentRecovery))
    then match DeadLetterCodeReview store with
         | None => (s, Ok false)
         | Some dead => dead (j_org_id job) (j_id job) lockToken (ErrorText terminalErr) (codeReviewDeadLetterReason terminalErr) s
         end
    else DeadLetter store (j_id job) lockToken (ErrorText terminalErr) s in
  (s', match r with Ok true => [DeadLetterHooks terminalErr] | _ => [] end).

(** RetryControllerWithLease of the workspace store, when there is one. *)
Variable workspaceRetries : option (uuid -> WorkspaceWait -> uuid -> uuid -> time -> string -> St -> St * result (option time)).

(** The retry branch of [poll]; [now] is its clock reading, [later] the one
    that decides whether to wake the worker. *)
Definition finishRetryable (job : Job) (lockToken : uuid) (err : error) (r : Retryable) (now later : time) (s : St)
    : St * list effect :=
  if ConsumeAttempt r && (j_max_attempts job <=? j_attempts job) then deadLetterJob job lockToken err s
  else match ensureRetryWindowStartedAt job r now s with
  | (s, Err _) | (s, Ok None) => (s, [])
  | (s, Ok (Some started)) =>
      let r := applyGitHubRetrySchedule r started now in
      let r := match RetryAfter r, Policy r with
        | None, GitHubRetryPolicyBackoff => r <| RetryAfter := Some (retryBackoff (j_attempts job)) |>
        | _, _ => r
        end in
      if retryableDurationExceeded started r now then
        deadLetterJob job lockToken (EWrap "retryable job timed out" err) s
      else
        let ordinary :=
          let '(s, (runAt, scheduled)) := retryJobWithDelayAt now (j_id job) lockToken (ErrorText err) (j_attempts job)
            (negb (ConsumeAttempt r)) (RetryAfter r) (TargetNodeID r) (ClearTargetNodeID r) (ResetRetryWindow r) s in
          (s, if scheduled then [RetryScheduledHooks err runAt] else []) in
        match codeReviewWorkspaceWait r, workspaceRetries with
        | Some wait, Some retryController =>
            if (j_job_type job ==? "run_code_review") && negb (ConsumeAttempt r) && is_null (TargetNodeID r)
               && negb (ClearTargetNodeID r) && negb (ResetRetryWindow r)
            then match retryController (j_org_id job) wait (j_id job) lockToken (now + workspaceWaitDelay) (ErrorText err) s with
                 | (s, Err _) | (s, Ok None) => (s, [])
                 | (s, Ok (Some runAt)) =>
                     (s, ((if After runAt later then [] else [WakeWorker]) ++ [RetryScheduledHooks err runAt])%list)
                 end
            else ordinary
        | _, _ => ordinary
        end
  end.

(** [poll] after the handler returned with [err]; [lost] is the verdict of the
    lease loop. *)
Definition finishJob (job : Job) (lockToken : uuid) (err : option error) (lost : bool) (now later : time) (s : St)
    : St * list effect :=
  if lost then (s, [])
  else match err with
  | None => ((MarkSucceeded store (j_id job) lockToken s).1, [])
  | Some err =>
      match errors_As err as_Handoff with
      | Some _ => (s, [])
      | None =>
          match errors_As err as_Fatal with
          | Some _ => deadLetterJob job lockToken err s
          | None =>
              let err := if errors_Is err ErrCodeReviewTerminalRecoveryTimeout
                then ERetryable (plain_retry <| RetryAfter := Some (10 * second) |> <| BypassMaxRetryDuration := true |>) err
                else err in
              match errors_As err as_Retryable with
              | Some r => finishRetryable job lockToken err r now later s
              | None =>
                  if j_max_attempts job <=? j_attempts job then deadLetterJob job lockToken err s
                  else ((retryJobWithDelayAt now (j_id job) lockToken (ErrorText err) (j_attempts job) false None None false false s).1, [])
              end
          end
      end
  end.

(** ** One poll *)

(** A handler runs against the claimed job; its second result is its error,
    the third whether the lease loop lost the job meanwhile. *)
Variable handlers : string -> option (Job -> St -> St * option error * bool).
Variable ClaimNextRunnable : St -> St * result (option Job).

Definition poll (draining : bool) (now later : time) (s : St) : St * list effect :=
  if draining then (s, [])
  else match ClaimNextRunnable s with
  | (s, Err _) | (s, Ok None) => (s, [])
  | (s, Ok (Some job)) =>
      match j_lock_token job with
      | None => (s, [])
      | Some tok =>
          match handlers (j_job_type job) with
          | None => ((MarkFailed store (j_id job) tok ("no handler for job type: " +:+ j_job_type job) s).1, [])
          | Some handler =>
              let '(s, err, lost) := handler job s in finishJob job tok err lost now later s
          end
      end
  end.
End Finish.

(** ** The executor process *)

Section Executor.
Context {St : Type} (store : jobLeaseStore St).
Variables (ErrorText : error -> string) (codeReviewDeadLetterReason : error -> string).
Variable MarkTerminal : uuid -> uuid -> uuid -> SessionExecutorStatus -> Z -> string -> St -> St.
Variable MarkHumanInputCheckpoint : uuid -> uuid -> uuid -> St -> St.

Definition markExecutorTerminal (x : SessionExecutor) (status : SessionExecutorStatus) (exitCode : Z) (lastError : string) (s : St) : St :=
  MarkTerminal (se_org_id x) (se_id x) (se_lock_token x) status exitCode lastError s.

Definition markJobDeadLetter (x : SessionExecutor) (job : Job) (err : error) (s : St) : St * list effect :=
  let '(s, r) := DeadLetter store (j_id job) (se_lock_token x) (ErrorText err) s in
  (s, match r with Ok true => [DeadLetterHooks err] | _ => [] end).

(** retryJob of the executor: as the worker's, but it knows no window reset. *)
Definition executorRetryJob (now : time) (x : SessionExecutor) (job : Job) (errMsg : string) (preserveAttempts : bool)
    (override : option duration) (targetNodeID : option string) (clearTargetNodeID : bool) (s : St) : St :=
  (retryJobWithDelayAt store now (j_id job) (se_lock_token x) errMsg (j_attempts job) preserveAttempts override
     targetNodeID clearTargetNodeID false s).1.

(** The error [Run] returns is the third result; [now] is the reading of the
    window check and [later] that of the retry. *)
Definition finishAttempt (x : SessionExecutor) (job : Job) (err : option error) (now later : time) (s : St)
    : St * list effect * option error :=
  let terminal status code msg (p : St * list effect) :=
    (markExecutorTerminal x status code msg p.1, p.2, None) in
  match err with
  | None =>
      let s := MarkHumanInputCheckpoint (se_org_id x) (j_id job) (se_lock_token x) s in
      match MarkSucceeded store (j_id job) (se_lock_token x) s with
      | (s, Ok true) => (markExecutorTerminal x SessionExecutorStatusCompleted 0 "" s, [], None)
      | (s, _) => (s, [], None)
      end
  | Some err =>
      match errors_As err as_Handoff with
      | Some _ => (s, [], Some (EWrap "session executor handler attempted nested handoff" err))
      | None =>
          match errors_As err as_Fatal with
          | Some _ => terminal SessionExecutorStatusFailed 1 (ErrorText err) (markJobDeadLetter x job err s)
          | None =>
              match errors_As err as_Retryable with
              | Some r =>
                  if ConsumeAttempt r && (j_max_attempts job <=? j_attempts job)
                  then terminal SessionExecutorStatusFailed 1 (ErrorText err) (markJobDeadLetter x job err s)
                  else match ensureRetryWindowStartedAt store job r now s with
                  | (s, Err m) => (s, [], Some (EWrap "persist session executor retry window start" (EText m)))
                  | (s, Ok None) => (s, [], Some (ESentinel ErrExecutorLostLease))
                  | (s, Ok (Some started)) =>
                      if retryableDurationExceeded started r now
                      then let timeoutErr := EWrap "retryable job timed out" err in
                        terminal SessionExecutorStatusFailed 1 (ErrorText timeoutErr) (markJobDeadLetter x job timeoutErr s)
                      else terminal SessionExecutorStatusRequeued 0 (ErrorText err)
                        (executorRetryJob later x job (ErrorText err) (negb (ConsumeAttempt r)) (RetryAfter r)
                           (TargetNodeID r) (ClearTargetNodeID r) s, [])
                  end
              | None =>
                  if j_max_attempts job <=? j_attempts job
                  then terminal SessionExecutorStatusFailed 1 (ErrorText err) (markJobDeadLetter x job err s)
                  else terminal SessionExecutorStatusRequeued 0 (ErrorText err)
                    (executorRetryJob later x job (ErrorText err) false None None false s, [])
              end
          end
      end
  end.
End Executor.

(** ** The stores of the plane behind the interfaces *)

(** [db.JobStore] at the clock of its statements. *)
Definition plane_lease_store (clock : time)
    (deadLetterCodeReview : uuid -> uuid -> uuid -> string -> string -> DB -> DB * result bool) : jobLeaseStore DB := {|
  EnsureRetryWindow id tok t db := let '(db, r) := EnsureRetryWindowStartedAtWithLease clock id tok t db in (db, Ok r);
  MarkSucceeded id tok db := let '(db, b) := MarkSucceededWithLease clock id tok db in (db, Ok b);
  MarkFailed id tok msg db := let '(db, b) := MarkFailedWithLease clock id tok msg db in (db, Ok b);
  Retry id tok msg t db := let '(db, b) := RetryWithLease clock id tok msg t db in (db, Ok b);
  RetryWithoutConsumingAttempt id tok msg t db :=
    let '(db, b) := RetryWithoutConsumingAttemptWithLease clock id tok msg t db in (db, Ok b);
  DeadLetter id tok msg db := let '(db, b) := DeadLetterWithLease clock id tok msg db in (db, Ok b);
  RetryAndTarget := Some (fun id tok msg t node db =>
    let '(db, b) := RetryWithLeaseAndTarget clock id tok msg t node db in (db, Ok b));
  RetryWithoutConsumingAndTarget := Some (fun id tok msg t node db =>
    let '(db, b) := RetryWithoutConsumingAttemptWithLeaseAndTarget clock id tok msg t node db in (db, Ok b));
  RetryAndResetWindow := Some (fun id tok msg t db =>
    let '(db, b) := RetryWithoutConsumingAttemptWithLeaseAndResetWindow clock id tok msg t db in (db, Ok b));
  DeadLetterCodeReview := Some deadLetterCodeReview
|}.

Definition plane_claim (clock wall : time) (nodeID : string) (tok : uuid) (locked : uuid -> bool) (db : DB)
    : DB * result (option Job) :=
  match ClaimNextRunnable clock wall nodeID nodeID tok defaultLeaseDuration locked db with
  | Ok (db, r) => (db, Ok r)
  | Err m => (db, Err m)
  end.
