(* ===== verification/LeaseLoop.v ===== *)
(** * The lease renewal loop

    [Worker.renewLeaseLoop] of internal/worker/worker.go runs beside a
    handler: it renews the lease of the job on every tick and cancels the
    handler when the lease may have passed to someone else.  The loop is a
    machine that blocks in one of two [select] statements or in the receive
    that joins a cancelled database call; each wake-up is an event with the
    clock reading of the worker.  Which of several ready channels a [select]
    takes is left open. *)

From S2P Require Import Prelude GoRuntime Worker.
From stdpp Require Import base option list strings.

Open Scope Z_scope.

Definition defaultRenewTimeout : duration := 10 * second.

(** Where the loop blocks. *)
Inductive place := Selecting | Attempting (deadline : time) | Joining | Returned.

(** The locals of the loop, the shared flag, and the two ways its context
    ends: the loop's own [cancelHandler], or the handler returning, the
    watchdog or a shutdown. *)
Record Loop := MkLoop {
  at_place : place;
  leaseExpiry : time;
  expiryTimer : option time;
  lostOwnership : bool;
  handlerCancelled : bool;
  endedOutside : bool
}.
#[export] Instance eta_loop : Eta Loop := fun l =>
  MkLoop (at_place l) (leaseExpiry l) (expiryTimer l) (lostOwnership l) (handlerCancelled l) (endedOutside l).

Definition ctx_ended (l : Loop) : bool := endedOutside l || handlerCancelled l.

(** [poll]: the claim's expiry, or a full lease from now; the timer is armed
    with it. *)
Definition initialLeaseExpiry (leaseDuration : duration) (now : time) (claimed : option time) : time :=
  default (now + leaseDuration) claimed.
Definition loop_start (expiry : time) : Loop := MkLoop Selecting expiry (Some expiry) false false false.

Record renewalResult := MkRenewal { rr_LeaseExpiresAt : option time; rr_owned : bool; rr_err : bool; rr_attemptErr : bool }.

Inductive event :=
  | ContextEnds
  | DoneReceived
  | ExpiryFires
  | Tick (later : time)
  | ResultArrives (r : renewalResult)
  | ResultJoined.

Definition loseOwnership (l : Loop) : Loop := l <| lostOwnership := true |> <| handlerCancelled := true |>.
Definition stop (p : place) (l : Loop) : Loop := l <| at_place := p |>.

Section Loop.
Variable renewTimeout : duration.
Definition attemptTimeout : duration := if renewTimeout <=? 0 then defaultRenewTimeout else renewTimeout.

(** What the loop does from one blocking point to the next.  [now] is the
    reading of [time.Now] after the wake-up, [later] of a tick the second
    reading of the same round. *)
Definition react (now : time) (ev : event) (l : Loop) : Loop :=
  match ev, at_place l with
  | ContextEnds, _ => l <| endedOutside := true |>
  | DoneReceived, Selecting => stop Returned l
  | DoneReceived, Attempting _ => stop Joining l
  | ExpiryFires, Selecting =>
      let l := l <| expiryTimer := None |> in
      stop Returned (if ctx_ended l then l else loseOwnership l)
  | ExpiryFires, Attempting _ =>
      let l := l <| expiryTimer := None |> in
      stop Joining (if ctx_ended l then l else loseOwnership l)
  | Tick later, Selecting =>
      if ctx_ended l then stop Returned l
      else if negb (Before now (leaseExpiry l)) then stop Returned (loseOwnership l)
      else
        let deadline := later + attemptTimeout in
        stop (Attempting (if Before (leaseExpiry l) deadline then leaseExpiry l else deadline)) l
  | ResultArrives r, Attempting _ =>
      if ctx_ended l then stop Returned l
      else if negb (Before now (leaseExpiry l)) then stop Returned (loseOwnership l)
      else if rr_err r || rr_attemptErr r then stop Selecting l
      else if negb (rr_owned r) then stop Returned (loseOwnership l)
      else match rr_LeaseExpiresAt r with
           | Some e => stop Selecting (l <| leaseExpiry := e |> <| expiryTimer := Some e |>)
           | None => stop Selecting l
           end
  | ResultJoined, Joining => stop Returned l
  | _, _ => l
  end.

(** Whether the event can wake the loop. *)
Definition in_select (l : Loop) : bool := match at_place l with Selecting | Attempting _ => true | _ => false end.
Definition ready (now : time) (ev : event) (l : Loop) : bool :=
  match ev with
  | ContextEnds => true
  | DoneReceived => in_select l && ctx_ended l
  | ExpiryFires => in_select l && match expiryTimer l with Some t => t <=? now | None => false end
  | Tick later => match at_place l with Selecting => now <=? later | _ => false end
  | ResultArrives _ => match at_place l with Attempting _ => true | _ => false end
  | ResultJoined => match at_place l with Joining => true | _ => false end
  end.

Definition loop_run : Loop -> list (time * event) -> Loop := foldl (fun l e => react e.1 e.2 l).

Fixpoint valid (t : time) (l : Loop) (evs : list (time * event)) : Prop :=
  match evs with
  | [] => True
  | (now, ev) :: evs => t <= now /\ ready now ev l = true /\ valid now (react now ev l) evs
  end.

(** The runtime wakes a blocked goroutine within [eps] of a timer's instant,
    or of the timer being set if the instant is already past. *)
Definition woken_by (eps : duration) (t : time) (l : Loop) (now : time) : Prop :=
  in_select l = true -> match expiryTimer l with Some e => now <= Z.max e t + eps | None => True end.
End Loop.

(** The last expiry the database confirmed, and when the worker learnt it. *)
Definition confirms (ev : event) : option time :=
  match ev with
  | ResultArrives r => if negb (rr_err r) && negb (rr_attemptErr r) && rr_owned r then rr_LeaseExpiresAt r else None
  | _ => None
  end.
Definition confirmed (e0 t0 : time) : list (time * event) -> time * time :=
  foldl (fun c e => match confirms e.2 with Some x => (x, e.1) | None => c end) (e0, t0).
Definition last_event (t0 : time) : list (time * event) -> time := foldl (fun _ e => e.1) t0.

(** ** What holds while the handler runs *)

(** The loop is in a [select] that the expiry timer can wake, the timer and
    the local expiry are those of the last confirmation, and that instant has
    not been observed to be past. *)
Record guarding (e c t : time) (l : Loop) : Prop := {
  gd_select : in_select l = true;
  gd_expiry : leaseExpiry l = e;
  gd_timer : expiryTimer l = Some e;
  gd_clock : t <= Z.max e c
}.

Lemma react_guarding timeout e c t l now ev : t <= now -> ready now ev l = true -> ctx_ended (react timeout now ev l) = false ->
  guarding e c t l ->
  let '(e', c') := match confirms ev with Some x => (x, now) | None => (e, c) end in
  ctx_ended l = false /\ guarding e' c' now (react timeout now ev l).
Proof.
  intros Ht Hr Hrun [Hs He Hti Hc]. unfold ready in Hr. unfold react, ctx_ended, in_select in *.
  destruct ev; try (simpl in *; congruence).
  - rewrite Hs in Hr. simpl in Hr. destruct (at_place l); simpl in *; congruence.
  - destruct (at_place l) eqn:Ep; try done; simpl in *; destruct (endedOutside l || handlerCancelled l) eqn:Ee; simpl in Hrun;
      rewrite ?orb_true_r in Hrun; congruence.
  - destruct (at_place l) eqn:Ep; try done. simpl. destruct (endedOutside l || handlerCancelled l) eqn:Ee; simpl in Hrun; [congruence|].
    destruct (negb _) eqn:Eb; simpl in Hrun; [by rewrite orb_true_r in Hrun|]. unfold Before in Eb. reflect_bools.
    split; [done|]. split; simpl; try done. lia.
  - destruct (at_place l) eqn:Ep; try done. destruct (endedOutside l || handlerCancelled l) eqn:Ee; simpl in Hrun; [congruence|].
    destruct (negb (Before _ _)) eqn:Eb; simpl in Hrun; [by rewrite orb_true_r in Hrun|]. unfold Before in Eb. reflect_bools.
    simpl. destruct (rr_err r); simpl in *; [split; [done|]; split; simpl; try done; lia|].
    destruct (rr_attemptErr r); simpl in *; [split; [done|]; split; simpl; try done; lia|].
    destruct (rr_owned r); simpl in *; [|done].
    destruct (rr_LeaseExpiresAt r) as [x|]; (split; [done|]); split; simpl; try done; lia.
  - destruct (at_place l); done.
Qed.

Lemma ctx_ended_stays timeout now ev l : ctx_ended l = true -> ctx_ended (react timeout now ev l) = true.
Proof.
  unfold ctx_ended. intros H. destruct ev, (at_place l) eqn:Ep; unfold react; rewrite ?Ep; try done;
    unfold ctx_ended; simpl; rewrite ?H; done.
Qed.

Lemma run_guarding timeout evs : forall e c t l, valid timeout t l evs ->
  (ctx_ended l = false -> guarding e c t l) -> ctx_ended (loop_run timeout l evs) = false ->
  let '(e', c') := foldl (fun c e => match confirms e.2 with Some x => (x, e.1) | None => c end) (e, c) evs in
  guarding e' c' (last_event t evs) (loop_run timeout l evs).
Proof.
  induction evs as [|[now ev] evs IH]; intros e c t l Hv HG Hrun; [by apply HG|].
  destruct Hv as (Ht & Hr & Hv). cbn [loop_run foldl fst snd] in *. fold (loop_run timeout) in *.
  assert (Hl : ctx_ended l = false).
  { destruct (ctx_ended l) eqn:E; [|done]. exfalso. revert Hrun. clear -E. revert l E.
    enough (H : forall evs l, ctx_ended l = true -> ctx_ended (loop_run timeout l evs) = true) by
      (intros l E; by rewrite (H evs _ (ctx_ended_stays _ now ev l E))).
    clear. induction evs as [|[n v] evs IH]; intros l E; simpl; [done|]. by apply IH, ctx_ended_stays. }
  specialize (HG Hl). pose proof (react_guarding timeout e c t l now ev Ht Hr) as Hstep.
  destruct (confirms ev) as [x|]; eapply IH; try done; intros Hc; by apply Hstep.
Qed.

Lemma start_guarding e0 t0 : guarding e0 t0 t0 (loop_start e0).
Proof. split; try done. simpl. lia. Qed.

(** C33: A handler never outlives its lease.  While it has not been cancelled,
    the clock has not passed the last expiry the database confirmed (or the
    instant the worker learnt of it, should that be later) by more than the
    time the runtime takes to deliver a timer, whatever renewals succeeded,
    failed, hung or came back late. *)
Theorem handler_is_fenced_at_expiry timeout eps t0 e0 evs now :
  valid timeout t0 (loop_start e0) evs ->
  let l := loop_run timeout (loop_start e0) evs in
  woken_by eps (last_event t0 evs) l now -> ctx_ended l = false ->
  let '(e, learnt) := confirmed e0 t0 evs in now <= Z.max e learnt + eps.
Proof.
  intros Hv l Hw Hrun. pose proof (run_guarding timeout evs e0 t0 t0 _ Hv (fun _ => start_guarding e0 t0) Hrun) as H. fold l in H. unfold confirmed.
  destruct (foldl _ (e0, t0) evs) as [e c]. destruct H as [Hs He Hti Hc]. specialize (Hw Hs). rewrite Hti in Hw. lia.
Qed.

Lemma valid_snoc timeout evs now ev : forall t l, valid timeout t l (evs ++ [(now, ev)]) ->
  valid timeout t l evs /\ ready now ev (loop_run timeout l evs) = true.
Proof.
  induction evs as [|[n v] evs IH]; intros t l; simpl; [tauto|]. intros (H1 & H2 & H3). apply IH in H3 as [H3 H4]. done.
Qed.

Lemma react_loses timeout now ev l : lostOwnership l = false -> lostOwnership (react timeout now ev l) = true ->
  ctx_ended l = false
  /\ ((ev = ExpiryFires /\ in_select l = true) \/ leaseExpiry l <= now \/ exists x, ev = ResultArrives (MkRenewal x false false false)).
Proof.
  intros Hl. destruct ev as [| | |later|[x owned err aerr]|], (at_place l) eqn:Ep; unfold react, in_select; rewrite ?Ep; simpl;
    try congruence; destruct (ctx_ended l) eqn:Ec; unfold ctx_ended in *; simpl in *; rewrite ?Ec; simpl; try congruence; auto.
  - destruct (negb _) eqn:Eb; simpl; [|congruence]. intros _. unfold Before in Eb. reflect_bools. auto.
  - destruct (negb (Before _ _)) eqn:Eb; simpl; [intros _; unfold Before in Eb; reflect_bools; auto|].
    destruct err, aerr; simpl; try congruence. destruct owned; simpl; [destruct x; simpl; congruence|]. eauto.
Qed.

(** The loop gives a job up only on evidence.  If it has reported the
    lease as lost, then at some point, with the handler still running, either
    the clock had reached the last confirmed expiry or the database answered,
    without error and in time, that the job is not owned.  Errors, timeouts
    and the end of the handler are never taken for a loss. *)
Theorem loss_needs_evidence timeout t0 e0 evs :
  valid timeout t0 (loop_start e0) evs -> lostOwnership (loop_run timeout (loop_start e0) evs) = true ->
  exists before now ev after, evs = before ++ (now, ev) :: after
    /\ ctx_ended (loop_run timeout (loop_start e0) before) = false
    /\ ((confirmed e0 t0 before).1 <= now
        \/ exists x, ev = ResultArrives (MkRenewal x false false false)).
Proof.
  induction evs as [|[now ev] evs IH] using rev_ind; [done|]. intros Hv Hlost.
  apply valid_snoc in Hv as (Hv & Hr). unfold loop_run in *. rewrite foldl_app in Hlost. fold (loop_run timeout) in *. simpl in Hlost.
  set (l := loop_run timeout (loop_start e0) evs) in *.
  destruct (lostOwnership l) eqn:El.
  { destruct (IH Hv eq_refl) as (b & n & v & a & -> & H). exists b, n, v, (a ++ [(now, ev)]). by rewrite <- app_assoc. }
  destruct (react_loses timeout now ev l El Hlost) as [Hc Hwhy]. exists evs, now, ev, []. split; [done|]. split; [done|].
  pose proof (run_guarding timeout evs e0 t0 t0 _ Hv (fun _ => start_guarding e0 t0) Hc) as HG. fold l in HG.
  fold (confirmed e0 t0 evs) in HG. destruct (confirmed e0 t0 evs) as [e c]. destruct HG as [Hs He Hti _]. simpl.
  destruct Hwhy as [(-> & Hw)|[Hle|Hw]]; [left|left; lia|by right].
  unfold ready in Hr. rewrite Hti in Hr. reflect_bools. done.
Qed.

Definition rank (l : Loop) : nat := match at_place l with Returned => 0 | Joining => 1 | _ => 2 end.

Lemma react_ends timeout now ev l : ctx_ended l = true -> ev <> ContextEnds -> ready now ev l = true ->
  (rank (react timeout now ev l) < rank l)%nat.
Proof.
  unfold ready, rank, in_select. intros Hc Hne. destruct ev, (at_place l) eqn:Ep; try done; intros _;
    unfold react; rewrite Ep; simpl; unfold ctx_ended in *; simpl; rewrite ?Hc; simpl; lia.
Qed.

(** The loop ends with its context.  Once the handler has returned or was
    cancelled, at most two more wake-ups can happen before the loop has
    returned, and until then one is always on its way: the closed context, or
    the database call that is being joined. *)
Theorem loop_ends_with_its_context timeout t l evs :
  ctx_ended l = true -> valid timeout t l evs -> Forall (fun e => e.2 <> ContextEnds) evs ->
  (length evs <= 2)%nat
  /\ (at_place (loop_run timeout l evs) = Returned
      \/ forall now, exists ev, ev <> ContextEnds /\ ready now ev (loop_run timeout l evs) = true).
Proof.
  intros Hc Hv Hev. enough (H : (length evs + rank (loop_run timeout l evs) <= rank l)%nat /\ ctx_ended (loop_run timeout l evs) = true).
  { destruct H as [Hlen Hc']. split; [unfold rank in *; destruct (at_place l), (at_place (loop_run timeout l evs)); lia|].
    destruct (at_place (loop_run timeout l evs)) eqn:Ep; [right|right|right|by left]; intros now;
      [exists DoneReceived|exists DoneReceived|exists ResultJoined]; unfold ready, in_select; rewrite Ep; simpl; rewrite ?Hc'; done. }
  revert t l Hc Hv. induction evs as [|[now ev] evs IH]; intros t l Hc Hv; simpl; [by split; [lia|]|].
  destruct Hv as (_ & Hr & Hv). apply Forall_cons in Hev as [Hne Hev].
  pose proof (react_ends timeout now ev l Hc Hne Hr). destruct (IH Hev now _ (ctx_ended_stays timeout now ev l Hc) Hv) as [H1 H2].
  split; [unfold loop_run in *; lia|done].
Qed.

(** ** Witnesses *)

(** A renewal that confirms, then one that hangs: the timer ends the handler. *)
Definition sample_loop_events : list (time * event) :=
  [(20, Tick 20); (21, ResultArrives (MkRenewal (Some 81) true false false)); (40, Tick 40)].

Lemma handler_is_fenced_at_expiry_witness :
  let l := loop_run 10 (loop_start 60) sample_loop_events in
  ctx_ended l = false /\ confirmed 60 0 sample_loop_events = (81, 21) /\ 83 <= Z.max 81 21 + 2.
Proof.
  split; [reflexivity|]. split; [reflexivity|].
  refine (handler_is_fenced_at_expiry 10 2 0 60 sample_loop_events 83 _ _ _).
  - repeat split; vm_compute; congruence.
  - intros _. vm_compute. congruence.
  - reflexivity.
Defined.

Lemma loss_needs_evidence_witness :
  let evs := sample_loop_events ++ [(81, ExpiryFires)] in
  exists before now ev after, evs = before ++ (now, ev) :: after
    /\ ctx_ended (loop_run 10 (loop_start 60) before) = false
    /\ ((confirmed 60 0 before).1 <= now \/ exists x, ev = ResultArrives (MkRenewal x false false false)).
Proof.
  refine (loss_needs_evidence 10 0 60 (sample_loop_events ++ [(81, ExpiryFires)]) _ _).
  - repeat split; vm_compute; congruence.
  - reflexivity.
Defined.

Lemma loop_ends_with_its_context_witness :
  let l := loop_run 10 (loop_start 60) (sample_loop_events ++ [(81, ExpiryFires)]) in
  (length [(90, ResultJoined)] <= 2)%nat
  /\ (at_place (loop_run 10 l [(90, ResultJoined)]) = Returned
      \/ forall now, exists ev, ev <> ContextEnds /\ ready now ev (loop_run 10 l [(90, ResultJoined)]) = true).
Proof.
  refine (loop_ends_with_its_context 10 81 _ [(90, ResultJoined)] _ _ _).
  - reflexivity.
  - repeat split; vm_compute; congruence.
  - repeat constructor; done.
Defined.
