(* ===== verification/WorkerProperties.v ===== *)
(** * What a worker leaves behind

    A worker that still owns its job always settles it: succeeded, requeued
    or dead-lettered, with the lease released; a retry never outlives its
    window or its attempts; and everything a poll writes is a step of the
    execution plane. *)

From S2P Require Import Prelude GoRuntime Sql Tables Continuation JobStore ExecutorStore JobLifecycle JobSteps Plane Scenario QueueProperties.
From S2P Require Import Classifier Errors GithubRetry Worker.
From stdpp Require Import base option list strings gmap.

Open Scope string_scope.
Open Scope Z_scope.

(** ** The row of the attempt *)

(** The job's row, still held by the attempt. *)
Record held (db : DB) (j : Job) (tok : uuid) : Prop := {
  he_ids : List.NoDup (map j_id (jobs db));
  he_in : In j (jobs db);
  he_owns : owns (j_id j) tok j = true
}.

(** The worker's copy of the job: what the claim returned. *)
Record copy_of (job j : Job) (tok : uuid) : Prop := {
  cp_id : j_id job = j_id j;
  cp_attempts : j_attempts job = j_attempts j;
  cp_max : j_max_attempts job = j_max_attempts j;
  cp_created : j_created_at job = j_created_at j;
  cp_window : j_retry_window_started_at job = j_retry_window_started_at j;
  cp_token : j_lock_token job = Some tok
}.

(** The row with its lease released in the given status. *)
Definition released (j j' : Job) (status : JobStatus) : Prop :=
  j_id j' = j_id j /\ j_status j' = status /\ j_lock_token j' = None /\ j_lease_expires_at j' = None
  /\ j_max_attempts j' = j_max_attempts j.

Section Settle.
Context (clock : time) (cr : uuid -> uuid -> uuid -> string -> string -> DB -> DB * result bool).
Variables (ErrorText reason : error -> string).
Let store := plane_lease_store clock cr.

Definition review_type (t : string) : bool := (t ==? "run_code_review_recheck") || (t ==? "run_code_review").

Lemma dead_letter_settles job j tok err db : held db j tok -> j_id job = j_id j -> review_type (j_job_type job) = false ->
  exists j', In j' (jobs (deadLetterJob store ErrorText reason job tok err db).1) /\ released j j' JobStatusDeadLetter
    /\ (deadLetterJob store ErrorText reason job tok err db).2 = [DeadLetterHooks err].
Proof.
  intros [Hn Hi Ho] Hid Ht. unfold review_type in Ht. apply orb_false_iff in Ht as [Ht1 Ht2].
  unfold deadLetterJob. rewrite Ht1, Ht2, Hid. cbn [orb andb DeadLetter store plane_lease_store].
  unfold DeadLetterWithLease.
  match goal with |- context [fenced_update _ _ ?g db] => set (f := g) end.
  destruct (fenced_row (j_id j) tok f db j Hn Hi Ho) as [Hr Hc].
  destruct (fenced_update _ _ f db) as [db' b]. cbn [fst snd] in *. subst b. by exists (f j).
Qed.

(** The row after a requeue. *)
Definition requeued (j j' : Job) (runAt : time) (preserve reset : bool) : Prop :=
  released j j' JobStatusPending /\ j_run_at j' = runAt
  /\ j_attempts j' = (if preserve then Z.max (j_attempts j - 1) 0 else j_attempts j)
  /\ j_retry_window_started_at j' = if reset then None else j_retry_window_started_at j.

Lemma retry_settles now j tok msg attempt preserve override target clear reset db : held db j tok ->
  (reset = true -> preserve = true /\ target = None /\ clear = false) ->
  let out := retryJobWithDelayAt store now (j_id j) tok msg attempt preserve override target clear reset db in
  let runAt := now + default (retryBackoff attempt) override in
  out.2 = (runAt, true) /\ exists j', In j' (jobs out.1) /\ requeued j j' runAt preserve reset.
Proof.
  intros [Hn Hi Ho] Hreset. unfold retryJobWithDelayAt. cbn zeta.
  set (runAt := now + _).
  assert (forall f, requeued j (f j) runAt preserve reset ->
    let r := fenced_update (j_id j) tok f db in
    (r.1, (runAt, r.2)).2 = (runAt, true) /\ exists j', In j' (jobs (r.1, (runAt, r.2)).1) /\ requeued j j' runAt preserve reset)
    as Hf.
  { intros f Hq. destruct (fenced_row (j_id j) tok f db j Hn Hi Ho) as [Hr Hc].
    cbn [fst snd]. rewrite Hc. split; [done|]. by exists (f j). }
  cbn [store plane_lease_store Retry RetryWithoutConsumingAttempt RetryAndTarget RetryWithoutConsumingAndTarget RetryAndResetWindow].
  unfold RetryWithLease, RetryWithLeaseAndTarget, RetryWithoutConsumingAttemptWithLease,
    RetryWithoutConsumingAttemptWithLeaseAndTarget, RetryWithoutConsumingAttemptWithLeaseAndResetWindow.
  destruct reset.
  - destruct (Hreset eq_refl) as (-> & -> & ->). cbn [negb is_null orb andb].
    match goal with |- context [fenced_update _ _ ?g db] => specialize (Hf g) end.
    destruct (fenced_update _ _ _ db) as [db' b]. apply Hf. repeat split.
  - destruct (negb (is_null target) || clear), preserve;
      match goal with |- context [fenced_update _ _ ?g db] => specialize (Hf g) end;
      destruct (fenced_update _ _ _ db) as [db' b]; apply Hf; repeat split.
Qed.

(** The row after the retry window has been anchored. *)
Definition anchored (j j1 : Job) : Prop :=
  j_id j1 = j_id j /\ j_attempts j1 = j_attempts j /\ j_max_attempts j1 = j_max_attempts j.

Lemma released_anchored j j1 j' st : anchored j j1 -> released j1 j' st -> released j j' st.
Proof. intros (? & ? & ?) (? & ? & ? & ? & ?). repeat split; congruence. Qed.

(** The window of a bounded retry is the one the row records. *)
Definition bounded_retry (r : Retryable) : Prop :=
  RetryWindowStartedAt r = None /\ BypassMaxRetryDuration r = false /\ exists w, MaxRetryDuration r = Some w.

Lemma window_settles job j tok r now db : held db j tok -> copy_of job j tok ->
  exists db1 j1 started, ensureRetryWindowStartedAt store job r now db = (db1, Ok (Some started))
    /\ held db1 j1 tok /\ anchored j j1 /\ (bounded_retry r -> j_retry_window_started_at j1 = Some started).
Proof.
  intros Hh [Hid Hat Hmx Hcr Hw Ht]. unfold ensureRetryWindowStartedAt, bounded_retry.
  destruct (RetryWindowStartedAt r) as [t|]; [exists db, j, t; by repeat split; try apply Hh; intros [? _]|].
  destruct (match MaxRetryDuration r with None => true | _ => _ end) eqn:Eb.
  { exists db, j, (j_created_at job). repeat split; try apply Hh.
    intros (_ & Hby & w & Hmax). rewrite Hmax in Eb. congruence. }
  rewrite Hw, Ht. destruct (j_retry_window_started_at j) as [t|] eqn:Ew; [exists db, j, t; by repeat split; try apply Hh|].
  cbn [store plane_lease_store EnsureRetryWindow]. destruct Hh as [Hn Hi Ho]. rewrite Hid.
  unfold EnsureRetryWindowStartedAtWithLease. destruct (select_owned (j_id j) tok db j Hn Hi Ho) as [rest ->].
  match goal with |- context [fenced_update _ _ ?g db] => set (f := g) end.
  destruct (fenced_row (j_id j) tok f db j Hn Hi Ho) as [Hr _].
  exists (fenced_update (j_id j) tok f db).1, (f j), now. cbn [j_retry_window_started_at set_col]. rewrite Ew.
  split; [done|]. split; [|repeat split; simpl; by rewrite Ew].
  split; [|exact Hr|exact Ho]. simpl. by rewrite update_key.
Qed.

Definition scheduled (job : Job) (r : Retryable) (started now : time) : Retryable :=
  let r := applyGitHubRetrySchedule r started now in
  match RetryAfter r, Policy r with
  | None, GitHubRetryPolicyBackoff => r <| RetryAfter := Some (retryBackoff (j_attempts job)) |>
  | _, _ => r
  end.

(** Scheduling only chooses the delay. *)
Lemma scheduled_keeps job r started now : exists after,
  scheduled job r started now = r <| RetryAfter := after |>.
Proof.
  unfold scheduled, applyGitHubRetrySchedule. destruct r as [ca bp rw mx ws af po ky at_ tn ct wait]. simpl.
  destruct po; simpl; [destruct af|destruct af| |destruct at_; simpl; [|destruct af]|]; eexists; reflexivity.
Qed.

(** A delay is known before the window is checked. *)
Definition delay_known (r : Retryable) : Prop :=
  is_Some (RetryAfter r) \/ Policy r = GitHubRetryPolicyBackoff \/ Policy r = GitHubRetryPolicyNoHint
  \/ Policy r = githubRetryPolicyMergeabilityWait \/ Policy r = GitHubRetryPolicyExact /\ is_Some (GitHubRetryAt r).

Lemma scheduled_known job r started now : delay_known r -> is_Some (RetryAfter (scheduled job r started now)).
Proof.
  unfold delay_known, scheduled, applyGitHubRetrySchedule. destruct r as [ca bp rw mx ws af po ky at_ tn ct wait]. simpl.
  destruct po; simpl; [destruct af|destruct af| |destruct at_; simpl; [|destruct af]|]; simpl; eauto;
    intros [[? ?]|[?|[?|[?|[? [? ?]]]]]]; done.
Qed.

Lemma in_window_bound started r now d w : retryableDurationExceeded started r now = false ->
  BypassMaxRetryDuration r = false -> MaxRetryDuration r = Some w -> RetryAfter r = Some d ->
  in_int64 (now - started) -> in_int64 (now + d - started) -> now + d <= started + w.
Proof.
  unfold retryableDurationExceeded. intros He Hb Hm Hd H1 H2. rewrite Hb, Hm in He. simpl in He. rewrite Hd in He.
  rewrite (Sub_exact now started) in He by done.
  destruct (w <? now - started) eqn:E1; [done|]. destruct (d <? 0) eqn:E2; reflect_bools; [lia|].
  unfold dur_add in He. rewrite wrap64_id in He; [lia|]. by replace (now - started + d) with (now + d - started) by lia.
Qed.

Variable workspaceRetries : option (uuid -> WorkspaceWait -> uuid -> uuid -> time -> string -> DB -> DB * result (option time)).

(** A window reset is only asked for with an untargeted retry that keeps its
    attempt, as RetryableError documents. *)
Definition reset_ok (r : Retryable) : Prop :=
  ResetRetryWindow r = true -> ConsumeAttempt r = false /\ TargetNodeID r = None /\ ClearTargetNodeID r = false.

(** How a retryable failure of an owned job ends. *)
Definition retry_outcome (j : Job) (err : error) (r : Retryable) (now : time) (out : DB * list effect) : Prop :=
  (exists j' e, In j' (jobs out.1) /\ released j j' JobStatusDeadLetter /\ out.2 = [DeadLetterHooks e])
  \/ (exists j' started, In j' (jobs out.1) /\ released j j' JobStatusPending
        /\ out.2 = [RetryScheduledHooks err (j_run_at j')]
        /\ (ConsumeAttempt r = true -> j_attempts j' = j_attempts j /\ j_attempts j < j_max_attempts j)
        /\ (bounded_retry r -> ResetRetryWindow r = false -> j_retry_window_started_at j' = Some started)
        /\ (bounded_retry r -> delay_known r -> forall w, MaxRetryDuration r = Some w ->
             in_int64 (now - started) -> in_int64 (j_run_at j' - started) -> j_run_at j' <= started + w)).

Lemma retryable_settles job j tok err r now later db : held db j tok -> copy_of job j tok ->
  review_type (j_job_type job) = false -> reset_ok r ->
  retry_outcome j err r now
    (finishRetryable store ErrorText reason workspaceRetries job tok err r now later db).
Proof.
  intros Hh Hc Ht Hr. pose proof Hc as [Hid Hat Hmx Hcr Hw Htok]. unfold finishRetryable. rewrite Hat, Hmx.
  destruct (ConsumeAttempt r && (j_max_attempts j <=? j_attempts j)) eqn:Eb.
  { left. destruct (dead_letter_settles job j tok err db Hh Hid Ht) as (j' & ? & ? & ?). eauto. }
  destruct (window_settles job j tok r now db Hh Hc) as (db1 & j1 & started & -> & Hh1 & Han & Hw1).
  pose proof Han as (Hi1 & Ha1 & Hm1).
  rewrite <- Hat. fold (scheduled job r started now).
  destruct (scheduled_keeps job r started now) as [after Hs]. pose proof (scheduled_known job r started now) as Hk.
  rewrite Hs in *.
  destruct (retryableDurationExceeded started _ now) eqn:Ex.
  { left. destruct (dead_letter_settles job j1 tok (EWrap "retryable job timed out" err) db1 Hh1) as (j' & ? & Hrel & ?);
      [congruence|done|]. eauto 6 using released_anchored. }
  right. unfold review_type in Ht. apply orb_false_iff in Ht as [_ Ht]. rewrite Ht.
  change (ConsumeAttempt (r <| RetryAfter := after |>)) with (ConsumeAttempt r).
  change (TargetNodeID (r <| RetryAfter := after |>)) with (TargetNodeID r).
  change (ClearTargetNodeID (r <| RetryAfter := after |>)) with (ClearTargetNodeID r).
  change (ResetRetryWindow (r <| RetryAfter := after |>)) with (ResetRetryWindow r).
  change (RetryAfter (r <| RetryAfter := after |>)) with after in *.
  replace (j_id job) with (j_id j1) by congruence.
  destruct (retry_settles now j1 tok (ErrorText err) (j_attempts job) (negb (ConsumeAttempt r)) after (TargetNodeID r)
    (ClearTargetNodeID r) (ResetRetryWindow r) db1 Hh1) as (Hout & j' & Hin & Hrel & Hrun & Hatt & Hwin).
  { intros E. destruct (Hr E) as (-> & -> & ->). done. }
  destruct (retryJobWithDelayAt store now (j_id j1) tok _ _ _ after _ _ _ db1) as [db2 [ra sch]].
  cbn [fst snd] in Hout, Hin. injection Hout as -> ->. rewrite <- Hrun.
  match goal with |- context [jobs (fst ?x)] => assert (x = (db2, [RetryScheduledHooks err (j_run_at j')])) as -> end.
  { by destruct (codeReviewWorkspaceWait (r <| RetryAfter := after |>)), workspaceRetries. }
  exists j', started. cbn [fst snd]. split; [done|]. split; [by eapply released_anchored|]. split; [done|].
  split; [intros E; rewrite E in *; simpl in *; reflect_bools; lia|].
  split; [intros Hb Hz; rewrite Hz in Hwin; rewrite Hwin; auto|].
  intros (_ & Hby & _) Hkn w Hmax I1 I2. destruct (Hk Hkn) as [d ->]. simpl in Hrun. rewrite Hrun in *.
  by apply (in_window_bound started (r <| RetryAfter := Some d |>) now d w).
Qed.

Lemma success_settles j tok db : held db j tok ->
  exists j', In j' (jobs (MarkSucceeded store (j_id j) tok db).1) /\ released j j' JobStatusSucceeded.
Proof.
  intros [Hn Hi Ho]. cbn [store plane_lease_store MarkSucceeded]. unfold MarkSucceededWithLease.
  match goal with |- context [fenced_update _ _ ?g db] => set (f := g) end.
  destruct (fenced_row (j_id j) tok f db j Hn Hi Ho) as [Hr _].
  destruct (fenced_update _ _ f db) as [db' b]. by exists (f j).
Qed.

(** The three ways an owned attempt ends, with what each sets off. *)
Definition attempt_settled (j : Job) (out : DB * list effect) : Prop :=
  exists j', In j' (jobs out.1) /\
    (released j j' JobStatusSucceeded /\ out.2 = []
     \/ released j j' JobStatusDeadLetter /\ (exists e, out.2 = [DeadLetterHooks e])
     \/ released j j' JobStatusPending /\ (out.2 = [] \/ exists e, out.2 = [RetryScheduledHooks e (j_run_at j')])).

Lemma retry_outcome_settled j err r now out : retry_outcome j err r now out -> attempt_settled j out.
Proof.
  intros [(j' & e & Hi & Hr & He)|(j' & st & Hi & Hr & He & _)]; exists j'; (split; [done|]); eauto 8.
Qed.

(** A failure that is neither a retry request nor fatal. *)
Lemma plain_failure_settles job j tok err now db : held db j tok -> copy_of job j tok ->
  review_type (j_job_type job) = false ->
  let out := if j_max_attempts job <=? j_attempts job then deadLetterJob store ErrorText reason job tok err db
    else ((retryJobWithDelayAt store now (j_id job) tok (ErrorText err) (j_attempts job) false None None false false db).1, []) in
  exists j', In j' (jobs out.1) /\
    (j_max_attempts j <= j_attempts j /\ released j j' JobStatusDeadLetter /\ out.2 = [DeadLetterHooks err]
     \/ j_attempts j < j_max_attempts j /\ released j j' JobStatusPending /\ out.2 = []
        /\ j_attempts j' = j_attempts j /\ j_run_at j' = now + retryBackoff (j_attempts j)).
Proof.
  intros Hh [Hid Hat Hmx Hcr Hw Htok] Ht. rewrite Hat, Hmx, Hid. cbn zeta.
  destruct (j_max_attempts j <=? j_attempts j) eqn:E; reflect_bools.
  - destruct (dead_letter_settles job j tok err db Hh Hid Ht) as (j' & ? & ? & ?). eauto 8.
  - destruct (retry_settles now j tok (ErrorText err) (j_attempts j) false None None false false db Hh)
      as (_ & j' & Hin & Hrel & Hrun & Hatt & _); [done|]. exists j'. cbn [fst snd]. split; [done|]. right. done.
Qed.
End Settle.


Definition claimed_row : Job := Eval vm_compute in hd (new_job t0 "" "" session_opts) (jobs db_claimed).
Lemma claimed_held : held db_claimed claimed_row "tok1".
Proof. split; [vm_compute; repeat constructor; by intros []|vm_compute; by left|by vm_compute]. Qed.
Lemma claimed_copy : copy_of claimed_row claimed_row "tok1".
Proof. by split. Qed.
Definition no_reviews : uuid -> uuid -> uuid -> string -> string -> DB -> DB * result bool := fun _ _ _ _ _ db => (db, Ok false).
Definition text_of (e : error) : string := match e with EText m => m | _ => "error" end.



Definition github_wait : Retryable := plain_retry <| MaxRetryDuration := Some githubRateLimitMaxRetryDuration |>
  <| Policy := GitHubRetryPolicyNoHint |> <| GitHubRetryKey := "s1" |>.

(** ** A poll in the plane *)

Definition keeps_reachable (f : DB -> DB) : Prop :=
  forall used db, reachable used db -> exists used', reachable used' (f db).

Lemma keeps_id : keeps_reachable (fun db => db).
Proof. intros used db H. eauto. Qed.
Lemma keeps_op f : (forall db, job_op db None (f db)) -> keeps_reachable f.
Proof.
  intros Hf used db H. exists (spend None used). eapply steps_next; [exact H|done|]. by apply step_job.
Qed.

Section Poll.
Context (clock : time) (cr : uuid -> uuid -> uuid -> string -> string -> DB -> DB * result bool).
Variables (ErrorText reason : error -> string).
Variable ws : option (uuid -> WorkspaceWait -> uuid -> uuid -> time -> string -> DB -> DB * result (option time)).
Variable handlers : string -> option (Job -> DB -> DB * option error * bool).
Let store := plane_lease_store clock cr.

(** The stores of the code-review tables and the handlers write through the
    stores of the plane as well. *)
Hypothesis reviews_keep : forall org id tok msg why, keeps_reachable (fun db => (cr org id tok msg why db).1).
Hypothesis workspaces_keep : forall retry, ws = Some retry ->
  forall org wait id tok t msg, keeps_reachable (fun db => (retry org wait id tok t msg db).1).
Hypothesis handlers_keep : forall ty h job, handlers ty = Some h -> keeps_reachable (fun db => (h job db).1.1).

Lemma dead_letter_keeps job tok err : keeps_reachable (fun db => (deadLetterJob store ErrorText reason job tok err db).1).
Proof.
  intros used db H. unfold deadLetterJob. destruct (_ || _).
  - cbn [store plane_lease_store DeadLetterCodeReview].
    destruct (reviews_keep (j_org_id job) (j_id job) tok (ErrorText err) (reason err) used db H) as [used' H'].
    destruct (cr _ _ _ _ _ db) as [db' r]. eauto.
  - destruct (keeps_op _ (fun db => op_dead_letter db clock (j_id job) tok (ErrorText err)) used db H) as [used' H'].
    cbn [store plane_lease_store DeadLetter]. destruct (DeadLetterWithLease _ _ _ _ db) as [db' b]. eauto.
Qed.

Lemma retry_keeps now id tok msg attempt preserve override target clear reset :
  keeps_reachable (fun db => (retryJobWithDelayAt store now id tok msg attempt preserve override target clear reset db).1).
Proof.
  intros used db H. unfold retryJobWithDelayAt. cbn zeta. set (runAt := now + _).
  cbn [store plane_lease_store Retry RetryWithoutConsumingAttempt RetryAndTarget RetryWithoutConsumingAndTarget RetryAndResetWindow].
  pose proof (keeps_op _ (fun db => op_retry db clock id tok msg runAt) used db H) as K1.
  pose proof (keeps_op _ (fun db => op_refund db clock id tok msg runAt) used db H) as K2.
  pose proof (keeps_op _ (fun db => op_retry_target db clock id tok msg runAt target) used db H) as K3.
  pose proof (keeps_op _ (fun db => op_refund_target db clock id tok msg runAt target) used db H) as K4.
  pose proof (keeps_op _ (fun db => op_refund_reset db clock id tok msg runAt) used db H) as K5.
  assert (forall x : DB * bool, (let '(s', r) := let '(d, b) := x in (d, Ok b) in
    (s', (runAt, match r with Ok b => b | Err _ => false end))).1 = x.1) as Hx by by intros [].
  destruct reset; [destruct (preserve && _); [|by eauto]|destruct (_ || clear), preserve]; rewrite Hx; assumption.
Qed.

Lemma window_keeps job r now : keeps_reachable (fun db => (ensureRetryWindowStartedAt store job r now db).1).
Proof.
  intros used db H. unfold ensureRetryWindowStartedAt.
  destruct (RetryWindowStartedAt r); [by eauto|].
  destruct (match MaxRetryDuration r with Some _ => BypassMaxRetryDuration r | None => true end); [by exists used|].
  destruct (j_retry_window_started_at job), (j_lock_token job) as [tok|]; try by eauto.
  pose proof (keeps_op _ (fun db => op_window db clock (j_id job) tok now) used db H) as K.
  cbn [store plane_lease_store EnsureRetryWindow]. cbn beta in K. revert K. by destruct (EnsureRetryWindowStartedAtWithLease _ _ _ _ db).
Qed.

Lemma retryable_keeps job tok err r now later :
  keeps_reachable (fun db => (finishRetryable store ErrorText reason ws job tok err r now later db).1).
Proof.
  intros used db H. unfold finishRetryable. destruct (_ && _); [by apply (dead_letter_keeps job tok err used)|].
  destruct (window_keeps job r now used db H) as [used1 H1].
  destruct (ensureRetryWindowStartedAt store job r now db) as [db1 [[started|]|m]]; cbn [fst] in H1; [|by eauto..].
  set (r' := match RetryAfter _ with Some _ => _ | None => _ end).
  destruct (retryableDurationExceeded _ _ _); [by apply (dead_letter_keeps job tok _ used1)|].
  pose proof (retry_keeps now (j_id job) tok (ErrorText err) (j_attempts job) (negb (ConsumeAttempt r')) (RetryAfter r')
    (TargetNodeID r') (ClearTargetNodeID r') (ResetRetryWindow r') used1 db1 H1) as K.
  destruct (codeReviewWorkspaceWait r') as [wait|], ws as [retry|] eqn:Ew;
    [destruct (_ && _ && _ && _ && _)|..];
    cbn beta in K;
    try (revert K; destruct (retryJobWithDelayAt _ _ _ _ _ _ _ _ _ _ _ db1) as [db2 [ra sch]]; intros K; exact K).
  destruct (workspaces_keep retry eq_refl (j_org_id job) wait (j_id job) tok (now + workspaceWaitDelay) (ErrorText err) used1 db1 H1)
    as [used2 H2].
  destruct (retry _ _ _ _ _ _ db1) as [db2 [[ra|]|m]]; eauto.
Qed.

Lemma finish_keeps job tok err lost now later :
  keeps_reachable (fun db => (finishJob store ErrorText reason ws job tok err lost now later db).1).
Proof.
  intros used db H. unfold finishJob. destruct lost; [by eauto|]. destruct err as [e|].
  - destruct (errors_As e as_Handoff); [by eauto|]. destruct (errors_As e as_Fatal); [by apply (dead_letter_keeps job tok e used)|].
    set (e' := if errors_Is _ _ then _ else e).
    destruct (errors_As e' as_Retryable) as [r|]; [by apply (retryable_keeps job tok e' r now later used)|].
    destruct (_ <=? _); [by apply (dead_letter_keeps job tok e' used)|].
    by apply (retry_keeps now (j_id job) tok (ErrorText e') (j_attempts job) false None None false false used).
  - pose proof (keeps_op _ (fun db => op_succeed db clock (j_id job) tok) used db H) as K.
    cbn [store plane_lease_store MarkSucceeded]. cbn beta in K. revert K. by destruct (MarkSucceededWithLease _ _ _ db).
Qed.

Lemma claim_keeps wall node tok locked used db : reachable used db -> ~ In tok used ->
  exists used', reachable used' (plane_claim clock wall node tok locked db).1.
Proof.
  intros H Hf. unfold plane_claim. destruct (ClaimNextRunnable _ _ _ _ _ _ _ db) as [[db' r]|m] eqn:E; [|by eauto].
  exists (spend (match r with Some _ => Some (tok, node) | None => None end) used).
  eapply steps_next; [exact H|by destruct r|]. by eapply step_job, op_claim.
Qed.

Lemma poll_keeps wall node tok locked draining now later used db : reachable used db -> ~ In tok used ->
  exists used', reachable used'
    (poll store ErrorText reason ws handlers (plane_claim clock wall node tok locked) draining now later db).1.
Proof.
  intros H Hf. unfold poll. destruct draining; [by eauto|].
  destruct (claim_keeps wall node tok locked used db H Hf) as [used1 H1].
  destruct (plane_claim clock wall node tok locked db) as [db1 [[job|]|m]]; cbn [fst] in H1; [|by eauto..].
  destruct (j_lock_token job) as [t|]; [|by eauto].
  destruct (handlers (j_job_type job)) as [h|] eqn:Eh.
  - destruct (handlers_keep _ h job Eh used1 db1 H1) as [used2 H2].
    destruct (h job db1) as [[db2 err] lost]. by apply (finish_keeps job t err lost now later used2).
  - pose proof (keeps_op _ (fun db => op_fail db clock (j_id job) t ("no handler for job type: " +:+ j_job_type job)) used1 db1 H1) as K.
    cbn [store plane_lease_store MarkFailed]. cbn beta in K. revert K. by destruct (MarkFailedWithLease _ _ _ _ db1).
Qed.
End Poll.

(** a worker only moves the queue along its own transitions: whatever the
    handler returns, a poll leads from a reachable state of the plane to
    another one, so every invariant of the plane holds after it. *)
Theorem poll_stays_in_the_plane clock wall cr ErrorText reason ws handlers node tok locked draining now later used db :
  (forall org id t msg why, keeps_reachable (fun db => (cr org id t msg why db).1)) ->
  (forall retry, ws = Some retry -> forall org wait id t at_ msg, keeps_reachable (fun db => (retry org wait id t at_ msg db).1)) ->
  (forall ty h job, handlers ty = Some h -> keeps_reachable (fun db => (h job db).1.1)) ->
  reachable used db -> ~ In tok used ->
  exists used', let db' := (poll (plane_lease_store clock cr) ErrorText reason ws handlers
      (plane_claim clock wall node tok locked) draining now later db).1 in
    reachable used' db' /\ plane_inv used' db'.
Proof.
  intros Hcr Hws Hh H Hf.
  destruct (poll_keeps clock cr ErrorText reason ws handlers Hcr Hws Hh wall node tok locked draining now later used db H Hf) as [used' H'].
  exists used'. cbn zeta. split; [done|by apply reachable_inv].
Qed.

Definition only_run_agent (ty : string) : option (Job -> DB -> DB * option error * bool) :=
  if ty ==? "run_agent" then Some (fun _ db => (db, None, false)) else None.
Lemma poll_stays_in_the_plane_witness :
  exists used', let db' := (poll (plane_lease_store t0 no_reviews) text_of text_of None only_run_agent
      (plane_claim t0 t0 "w1" "tok1" nobody) false t0 t0 db_enqueued).1 in
    reachable used' db' /\ plane_inv used' db'.
Proof.
  apply (poll_stays_in_the_plane t0 t0 no_reviews text_of text_of None only_run_agent "w1" "tok1" nobody false t0 t0 [] db_enqueued).
  - intros org id t msg why. apply keeps_id.
  - discriminate.
  - intros ty h job. unfold only_run_agent. destruct (ty ==? "run_agent"); [intros [= <-]; apply keeps_id|discriminate].
  - apply reachable_enqueued.
  - intros [].
Defined.

(** an ordinary failure spends the attempt: while attempts are left the
    job is due again after 2^attempts seconds, capped at 1024, and the last
    one dead-letters it. *)
Theorem plain_failures_are_bounded clock cr ErrorText reason ws job j tok e now later db :
  held db j tok -> copy_of job j tok -> review_type (j_job_type job) = false -> 0 <= j_attempts j ->
  errors_As e as_Handoff = None -> errors_As e as_Fatal = None -> errors_Is e ErrCodeReviewTerminalRecoveryTimeout = false ->
  errors_As e as_Retryable = None ->
  let out := finishJob (plane_lease_store clock cr) ErrorText reason ws job tok (Some e) false now later db in
  exists j', In j' (jobs out.1) /\
    (j_max_attempts j <= j_attempts j /\ released j j' JobStatusDeadLetter /\ out.2 = [DeadLetterHooks e]
     \/ j_attempts j < j_max_attempts j /\ released j j' JobStatusPending /\ j_attempts j' = j_attempts j
        /\ j_run_at j' = now + 2 ^ Z.min (j_attempts j) 10 * second
        /\ now + second <= j_run_at j' <= now + 1024 * second).
Proof.
  intros Hh Hc Ht Ha Hho Hfa Hto Hre. unfold finishJob. rewrite Hho, Hfa, Hto, Hre.
  destruct (plain_failure_settles clock cr ErrorText reason job j tok e now db Hh Hc Ht)
    as (j' & Hin & [?|(Hlt & Hrel & _ & Hat & Hrun)]); exists j'; (split; [exact Hin|]); [by left|right].
  assert (retryBackoff (j_attempts j) = 2 ^ Z.min (j_attempts j) 10 * second) as Hb.
  { unfold retryBackoff. destruct (10 <? j_attempts j) eqn:E; reflect_bools; rewrite Z.shiftl_1_l; f_equal; f_equal; lia. }
  rewrite Hb in Hrun. do 4 (split; [done|]). rewrite Hrun. unfold second.
  pose proof (Z.pow_pos_nonneg 2 (Z.min (j_attempts j) 10)).
  pose proof (Z.pow_le_mono_r 2 (Z.min (j_attempts j) 10) 10). lia.
Qed.

Definition boom_out : DB * list effect := finishJob (plane_lease_store t0 no_reviews) text_of text_of None claimed_row "tok1"
  (Some (EText "boom")) false t0 t0 db_claimed.

Lemma plain_failures_are_bounded_witness :
  exists j', In j' (jobs boom_out.1) /\
    (j_max_attempts claimed_row <= j_attempts claimed_row /\ released claimed_row j' JobStatusDeadLetter
     /\ boom_out.2 = [DeadLetterHooks (EText "boom")]
     \/ j_attempts claimed_row < j_max_attempts claimed_row /\ released claimed_row j' JobStatusPending
        /\ j_attempts j' = j_attempts claimed_row /\ j_run_at j' = t0 + 2 ^ Z.min (j_attempts claimed_row) 10 * second
        /\ t0 + second <= j_run_at j' <= t0 + 1024 * second).
Proof.
  refine (plain_failures_are_bounded t0 no_reviews text_of text_of None claimed_row claimed_row "tok1" (EText "boom") t0 t0 db_claimed
    _ _ _ _ _ _ _ _); try reflexivity.
  - apply claimed_held.
  - apply claimed_copy.
  - vm_compute. discriminate.
Defined.

(** ** The executor process *)

Section ExecutorAttempt.
Context (clock : time) (cr : uuid -> uuid -> uuid -> string -> string -> DB -> DB * result bool).
Variables (ErrorText : error -> string).
Let store := plane_lease_store clock cr.

(** The executor store behind the process. *)
Definition mark_terminal (org id tok : uuid) (status : SessionExecutorStatus) (code : Z) (msg : string) (db : DB) : DB :=
  match ExecutorStore.MarkTerminalWithLease clock org id tok status (Some code) msg db with Ok (db', _) => db' | Err _ => db end.
Definition mark_checkpoint (org job tok : uuid) (db : DB) : DB := (MarkHumanInputCheckpointByJob clock org job tok db).1.

(** The executor's own row, still active. *)
Definition executing (db : DB) (x : SessionExecutor) : Prop :=
  exists row, In row (session_executors db) /\ owns_executor (se_org_id x) (se_id x) (se_lock_token x) row = true
              /\ executor_active row = true.
Definition ended (db : DB) (x : SessionExecutor) (status : SessionExecutorStatus) : Prop :=
  exists row, In row (session_executors db) /\ se_id row = se_id x /\ se_status row = status.

Lemma terminal_ends x status code msg db : executing db x -> terminal_executor_status status = true ->
  ended (markExecutorTerminal mark_terminal x status code msg db) x status
  /\ jobs (markExecutorTerminal mark_terminal x status code msg db) = jobs db.
Proof.
  intros (row & Hin & Ho & Ha) Ht. unfold markExecutorTerminal, mark_terminal, ExecutorStore.MarkTerminalWithLease. rewrite Ht.
  cbn [negb]. unfold fenced_executor. match goal with |- context [update _ ?g _] => set (f := g) end.
  split; [|done]. exists (f row). split; [|split; [|done]].
  - simpl. apply in_update. exists row. rewrite Ho, Ha. auto.
  - unfold owns_executor in Ho. by reflect_bools.
Qed.

Lemma checkpoint_keeps job tok x db : executing db x ->
  executing (mark_checkpoint (se_org_id x) job tok db) x /\ jobs (mark_checkpoint (se_org_id x) job tok db) = jobs db.
Proof.
  intros (row & Hin & Ho & Ha). split; [|done]. unfold mark_checkpoint, MarkHumanInputCheckpointByJob, executing. simpl.
  match goal with |- context [update ?q ?g _] => set (p := q); set (f := g) end.
  exists (if p row then f row else row). split; [apply in_update; exists row; destruct (p row) eqn:E; auto|]. by destruct (p row).
Qed.

Lemma retry_frame now x job msg preserve override target clear db :
  session_executors (executorRetryJob store now x job msg preserve override target clear db) = session_executors db.
Proof.
  unfold executorRetryJob, retryJobWithDelayAt. cbn [store plane_lease_store Retry RetryWithoutConsumingAttempt RetryAndTarget RetryWithoutConsumingAndTarget].
  by destruct (_ || clear), preserve.
Qed.

Lemma window_frame job r now db :
  session_executors (ensureRetryWindowStartedAt store job r now db).1 = session_executors db.
Proof.
  unfold ensureRetryWindowStartedAt. destruct (RetryWindowStartedAt r); [done|].
  destruct (match MaxRetryDuration r with Some _ => BypassMaxRetryDuration r | None => true end); [done|].
  by destruct (j_retry_window_started_at job), (j_lock_token job).
Qed.

(** Job and executor end in matching states. *)
Definition attempt_ends (j : Job) (x : SessionExecutor) (db : DB) : Prop :=
  exists j', In j' (jobs db) /\
    (released j j' JobStatusSucceeded /\ ended db x SessionExecutorStatusCompleted
     \/ released j j' JobStatusDeadLetter /\ ended db x SessionExecutorStatusFailed
     \/ released j j' JobStatusPending /\ ended db x SessionExecutorStatusRequeued).

Lemma failed_ends j job x err msg db : held db j (se_lock_token x) -> j_id job = j_id j -> executing db x ->
  attempt_ends j x (markExecutorTerminal mark_terminal x SessionExecutorStatusFailed 1 msg (markJobDeadLetter store ErrorText x job err db).1).
Proof.
  intros [Hn Hi Ho] Hid Hx. unfold markJobDeadLetter. cbn [store plane_lease_store DeadLetter]. rewrite Hid. unfold DeadLetterWithLease.
  match goal with |- context [fenced_update _ _ ?g db] => set (f := g) end.
  destruct (fenced_row (j_id j) (se_lock_token x) f db j Hn Hi Ho) as [Hr _].
  assert (executing (fenced_update (j_id j) (se_lock_token x) f db).1 x) as Hx' by exact Hx.
  destruct (fenced_update _ _ f db) as [db' b]. cbn [fst] in *.
  destruct (terminal_ends x SessionExecutorStatusFailed 1 msg db' Hx' eq_refl) as [He Hj].
  exists (f j). rewrite Hj. split; [done|]. right. left. by repeat split.
Qed.

Lemma requeued_ends now j job x msg preserve override target clear text db : held db j (se_lock_token x) -> j_id job = j_id j ->
  executing db x ->
  attempt_ends j x (markExecutorTerminal mark_terminal x SessionExecutorStatusRequeued 0 text
    (executorRetryJob store now x job msg preserve override target clear db)).
Proof.
  intros Hh Hid Hx. pose proof (retry_frame now x job msg preserve override target clear db) as Hf.
  assert (exists j', In j' (jobs (executorRetryJob store now x job msg preserve override target clear db)) /\ released j j' JobStatusPending)
    as (j' & Hin & Hrel).
  { unfold executorRetryJob. rewrite Hid.
    destruct (retry_settles clock cr now j (se_lock_token x) msg (j_attempts job) preserve override target clear false db Hh)
      as (_ & j' & Hin & Hrel & _); [done|]. eauto. }
  destruct (terminal_ends x SessionExecutorStatusRequeued 0 text
    (executorRetryJob store now x job msg preserve override target clear db)) as [He Hj]; [unfold executing; by rewrite Hf|done|].
  exists j'. rewrite Hj. auto 6.
Qed.
End ExecutorAttempt.

(** an executor that still owns its job ends both rows together: whatever
    the handler returned, short of a nested handoff, the job is succeeded and
    the executor completed, or dead-lettered and failed, or pending and
    requeued. *)
Theorem executor_and_job_end_together clock cr ErrorText x job j err now later db :
  held db j (se_lock_token x) -> copy_of job j (se_lock_token x) -> executing db x ->
  (forall e, err = Some e -> errors_As e as_Handoff = None) ->
  let out := finishAttempt (plane_lease_store clock cr) ErrorText (mark_terminal clock) (mark_checkpoint clock) x job err now later db in
  out.2 = None /\ attempt_ends j x out.1.1.
Proof.
  intros Hh Hc Hx Hho. pose proof (cp_id _ _ _ Hc) as Hid. unfold finishAttempt. destruct err as [e|].
  2: { destruct (checkpoint_keeps clock (j_id job) (se_lock_token x) x db Hx) as [Hx1 Hj1].
       set (db1 := mark_checkpoint clock _ _ _ db) in *. rewrite Hid.
       assert (held db1 j (se_lock_token x)) as Hh1 by (destruct Hh; split; by rewrite ?Hj1).
       destruct (success_settles clock cr j (se_lock_token x) db1 Hh1) as (j' & Hin & Hrel).
       assert ((MarkSucceeded (plane_lease_store clock cr) (j_id j) (se_lock_token x) db1).2 = Ok true) as Hok.
       { cbn [plane_lease_store MarkSucceeded]. unfold MarkSucceededWithLease. destruct Hh1 as [Hn Hi Ho].
         match goal with |- context [fenced_update _ _ ?g db1] => destruct (fenced_row (j_id j) (se_lock_token x) g db1 j Hn Hi Ho) as [_ Hb] end.
         revert Hb. destruct (fenced_update _ _ _ db1) as [d b]. cbn [snd]. by intros ->. }
       assert (executing (MarkSucceeded (plane_lease_store clock cr) (j_id j) (se_lock_token x) db1).1 x) as Hx2 by exact Hx1.
       destruct (MarkSucceeded _ _ _ db1) as [db2 r]. cbn [fst snd] in *. subst r.
       destruct (terminal_ends clock x SessionExecutorStatusCompleted 0 "" db2 Hx2 eq_refl) as [He Hj].
       split; [done|]. exists j'. cbn [fst]. rewrite Hj. auto. }
  rewrite (Hho e eq_refl).
  destruct (errors_As e as_Fatal); [split; [done|by apply failed_ends]|].
  destruct (errors_As e as_Retryable) as [r|].
  - destruct (_ && _); [split; [done|by apply failed_ends]|].
    destruct (window_settles clock cr job j (se_lock_token x) r now db Hh Hc) as (db1 & j1 & started & Hen & Hh1 & Han & _).
    pose proof (window_frame clock cr job r now db) as Hf. rewrite Hen in *. cbn [fst] in Hf.
    assert (executing db1 x) as Hx1 by (unfold executing; by rewrite Hf).
    assert (j_id job = j_id j1) as Hid1 by (destruct Han as [-> _]; done).
    assert (forall db', attempt_ends j1 x db' -> attempt_ends j x db') as Hback.
    { intros db' (j' & Hin & Hcase). exists j'. split; [done|].
      destruct Hcase as [[? ?]|[[? ?]|[? ?]]]; eauto 8 using released_anchored. }
    destruct (retryableDurationExceeded _ _ _); (split; [done|]); apply Hback; [by apply failed_ends|by apply requeued_ends].
  - destruct (_ <=? _); [split; [done|by apply failed_ends]|split; [done|by apply requeued_ends]].
Qed.

Definition executor_row : SessionExecutor :=
  (new_executor t0 "x1" "org1" (MkCreateSessionExecutorParams "s1" None "job1" "run_agent" "w1" "x1" "tok1" "img" "sha" None))
    <| se_status := SessionExecutorStatusRunning |>.
Definition db_executing : DB := Eval vm_compute in db_claimed <| session_executors := [executor_row] |>.
Lemma executor_and_job_end_together_witness :
  attempt_ends claimed_row executor_row
    (finishAttempt (plane_lease_store t0 no_reviews) text_of (mark_terminal t0) (mark_checkpoint t0) executor_row claimed_row
      (Some (EText "boom")) t0 t0 db_executing).1.1.
Proof.
  refine (proj2 (executor_and_job_end_together t0 no_reviews text_of executor_row claimed_row claimed_row (Some (EText "boom"))
    t0 t0 db_executing _ _ _ _)).
  - split; [vm_compute; repeat constructor; by intros []|vm_compute; by left|by vm_compute].
  - apply claimed_copy.
  - exists executor_row. split; [vm_compute; by left|]. by vm_compute.
  - intros e [= <-]. reflexivity.
Defined.
