(* ===== verification/ExecutorLoop.v ===== *)
(** * The session executor process

    [SessionExecutorRuntime.Run] of internal/worker/session_executor_runtime.go
    on the tables of the plane: the boot that waits for the handoff, the
    heartbeat, renewal and drain goroutines beside the handler, and the end of
    the attempt.  Goroutines appear as the sequence of their wake-ups, in any
    interleaving with each other and with what the rest of the fleet writes. *)

From S2P Require Import Prelude GoRuntime Sql Tables Continuation JobStore ExecutorStore Classifier Errors GithubRetry Worker.
From S2P Require Import JobLifecycle JobSteps ExecutorSteps Plane WorkerProperties Scenario.
From stdpp Require Import base option list strings gmap.

Open Scope string_scope.
Open Scope Z_scope.

(** ** Waiting for the handoff *)

(** How the [select] of a round ends, with the clock at its entry and exit. *)
Inductive wake := CtxDone (err : error) | DeadlineFires | IntervalFires.
Record round := MkRound { rd_poll : result (option Job); rd_entry : time; rd_wake : wake; rd_exit : time }.

Definition bootTimeout (configured : duration) : duration := if configured <=? 0 then 10 * second else configured.
Definition bootInterval (configured : duration) : duration := if configured <=? 0 then 250 * millisecond else configured.

(** [None] while the wait goes on: the rounds so far end in another poll. *)
Fixpoint waitForRunningJob (rounds : list round) : option (option Job * option error) :=
  match rounds with
  | [] => None
  | r :: rounds =>
      match rd_poll r with
      | Err m => Some (None, Some (EText m))
      | Ok (Some job) => Some (Some job, None)
      | Ok None =>
          match rd_wake r with
          | CtxDone e => Some (None, Some e)
          | DeadlineFires => Some (None, None)
          | IntervalFires => waitForRunningJob rounds
          end
      end
  end.

(** ** The goroutines beside the handler *)

Inductive cause := LostLease | UserCancel | DeployBudgetExpired | ParentEnded.

Record Exec := MkExec {
  x_lost : bool;
  x_drainHandled : bool;
  x_cause : option cause;
  x_parentDone : bool;
  x_heartbeating : bool;
  x_renewing : bool;
  x_budgetStopRequested : bool;
  (** calls of [CancelThreadByID] and [RequestSessionStopByID] so far *)
  x_threadCancels : Z;
  x_stopRequests : Z
}.
#[export] Instance eta_exec : Eta Exec := fun e =>
  MkExec (x_lost e) (x_drainHandled e) (x_cause e) (x_parentDone e) (x_heartbeating e) (x_renewing e) (x_budgetStopRequested e)
    (x_threadCancels e) (x_stopRequests e).

(** startOwnershipLoops: a loop runs only with a positive interval. *)
Definition startOwnershipLoops (heartbeatInterval renewInterval : duration) : Exec :=
  MkExec false false None false (0 <? heartbeatInterval) (0 <? renewInterval) false 0 0.

(** [CancelCauseFunc]: the first cause stays. *)
Definition cancel (c : cause) (e : Exec) : Exec := e <| x_cause := coalesce (x_cause e) c |>.
Definition lose (e : Exec) : Exec := cancel LostLease (e <| x_lost := true |>).

Section Process.
(** [orchestrator]: whether the services carry one, and whether it accepts a
    stop request for the session. *)
Variables (orchestrator : option bool) (x : SessionExecutor).

Definition has_thread : bool := match se_thread_id x with Some t => t <>? uuid_Nil | None => false end.

(** One tick of heartbeatLoop; [None] is an error of the call. *)
Definition heartbeat_tick (reply : option (bool * DrainIntent * bool)) (e : Exec) : Exec :=
  match reply with
  | None => e
  | Some (ok, drainIntent, threadCancelRequested) =>
      if negb ok then (lose e) <| x_heartbeating := false |>
      else if threadCancelRequested then
        let e := if has_thread && negb (is_null orchestrator) then e <| x_threadCancels := x_threadCancels e + 1 |> else e in
        (cancel UserCancel e) <| x_heartbeating := false |>
      else if x_budgetStopRequested e then e
      else if drainIntent ==? DrainIntentDeployBudgetExpired then
        let e := e <| x_budgetStopRequested := true |> <| x_drainHandled := true |> in
        match orchestrator with
        | None => (cancel DeployBudgetExpired e) <| x_heartbeating := false |>
        | Some accepted =>
            let e := e <| x_stopRequests := x_stopRequests e + 1 |> in
            if negb accepted then (cancel DeployBudgetExpired e) <| x_heartbeating := false |> else e
        end
      else e
  end.

(** One tick of renewLoop. *)
Definition renew_tick (reply : option bool) (e : Exec) : Exec :=
  match reply with
  | None => e
  | Some ok => if negb ok then (lose e) <| x_renewing := false |> else e
  end.

(** A database call: answered, failed before it ran, or failed after. *)
Inductive fate := Served | NotRun | Unheard.
Definition call {A} (f : fate) (op : DB -> DB * A) (db : DB) : DB * option A :=
  match f with
  | Served => let '(db, a) := op db in (db, Some a)
  | NotRun => (db, None)
  | Unheard => ((op db).1, None)
  end.

Inductive occurrence :=
  | HeartbeatTick (clock : time) (f : fate)
  | RenewTick (clock : time) (f : fate)
  (** the process is asked to stop; startDrainWatcher then marks the row *)
  | ParentDone
  | DrainMark (clock : time) (f : fate)
  (** a goroutine sees its context ended and returns *)
  | HeartbeatReturns
  | RenewReturns
  (** anybody else's write *)
  | Elsewhere (writes : DB -> DB).

Definition leaseDuration_of (configured : duration) : duration := if configured <=? 0 then defaultLeaseDuration else configured.

Definition beside_handler (lease : duration) (job : Job) (o : occurrence) (s : DB * Exec) : DB * Exec :=
  let '(db, e) := s in
  match o with
  | HeartbeatTick clock f =>
      if negb (x_heartbeating e) then s
      else let '(db, r) := call f (HeartbeatWithLease clock (se_org_id x) (se_id x) (se_lock_token x) lease) db in
           (db, heartbeat_tick r e)
  | RenewTick clock f =>
      if negb (x_renewing e) then s
      else let '(db, r) := call f (RenewLeaseForSessionExecutor clock (se_org_id x) (j_id job) (se_lock_token x) (se_id x) lease) db in
           (db, renew_tick (match r with Some (Some _) => Some true | Some None => Some false | None => None end) e)
  | ParentDone => (db, (cancel ParentEnded e) <| x_parentDone := true |>)
  | DrainMark clock f =>
      if x_parentDone e
      then ((call f (MarkDrainingWithLease clock (se_org_id x) (se_id x) (se_lock_token x)) db).1, e) else s
  | HeartbeatReturns => if is_null (x_cause e) then s else (db, e <| x_heartbeating := false |>)
  | RenewReturns => if is_null (x_cause e) then s else (db, e <| x_renewing := false |>)
  | Elsewhere writes => (writes db, e)
  end.

Definition beside (lease : duration) (job : Job) (os : list occurrence) (s : DB * Exec) : DB * Exec :=
  foldl (fun s o => beside_handler lease job o s) s os.

(** ** Boot and end of [Run] *)

Variables (ErrorText : error -> string) (cr : uuid -> uuid -> uuid -> string -> string -> DB -> DB * result bool).

Definition boot_terminal (s : SessionExecutorStatus) : bool :=
  (s ==? SessionExecutorStatusCompleted) || (s ==? SessionExecutorStatusFailed) || (s ==? SessionExecutorStatusLost).

Definition invalid_handoff (why : string) : error := EWrap why (ESentinel ErrExecutorInvalidHandoff).

(** From the loaded row to the running executor, once the wait has ended: the
    job to work on, or the error [Run] returns. *)
Definition boot (clock : time) (f : fate) (lease : duration) (waited : option Job * option error) (db : DB) : DB * (Job + error) :=
  match waited with
  | (_, Some err) => (db, inr err)
  | (None, None) =>
      (markExecutorTerminal (mark_terminal clock) x SessionExecutorStatusFailed 1
         "executor boot validation timed out waiting for job handoff" db,
       inr (invalid_handoff "running job ownership does not match executor"))
  | (Some job, None) =>
      if negb (col_is (j_lock_token job) (se_lock_token x)) then (db, inr (invalid_handoff "job lock token mismatch"))
      else match call f (MarkRunningWithLease clock (se_org_id x) (se_id x) (se_lock_token x) lease) db with
           | (db, None) => (db, inr (EText "mark session executor running"))
           | (db, Some false) => (db, inr (EWrap "executor row was not claimable" (ESentinel ErrExecutorLostLease)))
           | (db, Some true) => (db, inl job)
           end
  end.

(** What the attempt is taken to have ended with: a handler that a deploy
    budget stopped was interrupted. *)
Definition interrupted (e : Exec) (runErr : option error) : option error :=
  match runErr with
  | Some err =>
      if x_drainHandled e && errors_Is err Canceled
      then match errors_As err as_Retryable with
           | Some _ => Some err
           | None => Some (EJoin "interrupted" [ESentinel ErrSessionInterrupted; err])
           end
      else Some err
  | None => None
  end.

Definition run_end (clock : time) (job : Job) (runErr : option error) (now later : time) (s : DB * Exec)
    : DB * list effect * option error :=
  let '(db, e) := s in
  if x_lost e then
    (markExecutorTerminal (mark_terminal clock) x SessionExecutorStatusLost 1 (ErrorText (ESentinel ErrExecutorLostLease)) db, [],
     Some (ESentinel ErrExecutorLostLease))
  else finishAttempt (plane_lease_store clock cr) ErrorText (mark_terminal clock) (mark_checkpoint clock) x job
         (interrupted e runErr) now later db.

(** [Run] after the row is loaded; [None] while it still waits for the
    handoff.  [handles] says which job types have a handler; while it runs,
    [os] happens beside it and it returns [runErr]. *)
Definition Run (handles : string -> bool) (clock : time) (f : fate) (leaseConfigured heartbeatInterval renewInterval : duration)
    (rounds : list round) (os : list occurrence) (runErr : option error) (now later : time) (db : DB)
    : option (DB * list effect * option error) :=
  let lease := leaseDuration_of leaseConfigured in
  if boot_terminal (se_status x) then Some (db, [], Some (invalid_handoff "executor is already terminal"))
  else match waitForRunningJob rounds with
  | None => None
  | Some waited => Some
      match boot clock f lease waited db with
      | (db, inr err) => (db, [], Some err)
      | (db, inl job) =>
          if negb (handles (j_job_type job)) then
            let msg := "no handler for job type: " +:+ j_job_type job in
            let '(db, _) := MarkFailedWithLease clock (j_id job) (se_lock_token x) msg db in
            (markExecutorTerminal (mark_terminal clock) x SessionExecutorStatusFailed 1 msg db, [], Some (EText msg))
          else run_end clock job runErr now later (beside lease job os (db, startOwnershipLoops heartbeatInterval renewInterval))
      end
  end.
End Process.

(** ** The boot wait is bounded *)

(** The rounds of a wait that began at [t0]: each goes on after a full
    interval, and a [select] entered after the deadline takes it. *)
Fixpoint timely (timeout interval t0 t : Z) (rounds : list round) : Prop :=
  match rounds with
  | [] => True
  | r :: rounds =>
      t <= rd_entry r /\ rd_entry r <= rd_exit r
      /\ match rd_wake r with
         | IntervalFires => rd_entry r < t0 + timeout /\ rd_entry r + interval <= rd_exit r
         | DeadlineFires => t0 + timeout <= rd_exit r
         | CtxDone _ => True
         end
      /\ timely timeout interval t0 (rd_exit r) rounds
  end.

Lemma waiting_rounds timeout interval t0 rounds : 0 < interval -> forall t k,
  timely timeout interval t0 t rounds -> waitForRunningJob rounds = None -> t0 + k * interval <= t ->
  rounds = [] \/ (k + Z.of_nat (length rounds) - 1) * interval < timeout.
Proof.
  intros Hi. induction rounds as [|r rounds IH]; intros t k Ht Hw Hk; [by left|right].
  destruct Ht as (Ht & _ & Hwake & Hrest). simpl in Hw. destruct (rd_poll r) as [[job|]|m]; try done.
  destruct (rd_wake r); try done. destruct Hwake as [Hd He].
  destruct (IH _ (k + 1) Hrest Hw) as [->|H]; [nia|simpl; nia|]. cbn [length]. rewrite Nat2Z.inj_succ. nia.
Qed.


(** ** The process moves the plane by its own transitions *)

Lemma keeps_executor_op f : (forall db, executor_op db (f db)) -> keeps_reachable f.
Proof. intros Hf used db H. exists (spend None used). eapply steps_next; [exact H|done|]. by apply step_executor. Qed.
Lemma keeps_compose f g : keeps_reachable f -> keeps_reachable g -> keeps_reachable (fun db => g (f db)).
Proof. intros Hf Hg used db H. destruct (Hf used db H) as [used1 H1]. by apply (Hg used1). Qed.

Lemma keeps_call {A} f (op : DB -> DB * A) : keeps_reachable (fun db => (op db).1) -> keeps_reachable (fun db => (call f op db).1).
Proof.
  intros K used db H. unfold call. destruct f; [|by eauto|by apply (K used)].
  specialize (K used db H). cbn beta in K. by destruct (op db).
Qed.

Section Keeps.
Context (clock : time) (cr : uuid -> uuid -> uuid -> string -> string -> DB -> DB * result bool).
Context (orchestrator : option bool) (x : SessionExecutor) (ErrorText : error -> string).
Let store := plane_lease_store clock cr.

Lemma terminal_keeps status code msg : keeps_reachable (markExecutorTerminal (mark_terminal clock) x status code msg).
Proof.
  intros used db H. unfold markExecutorTerminal, mark_terminal.
  destruct (ExecutorStore.MarkTerminalWithLease _ _ _ _ _ _ _ db) as [[db' b]|m] eqn:E; [|by eauto].
  exists (spend None used). eapply steps_next; [exact H|done|]. by eapply step_executor, op_terminal.
Qed.

Lemma executor_dead_letter_keeps job err : keeps_reachable (fun db => (markJobDeadLetter store ErrorText x job err db).1).
Proof.
  intros used db H. pose proof (keeps_op _ (fun db => op_dead_letter db clock (j_id job) (se_lock_token x) (ErrorText err)) used db H) as K.
  unfold markJobDeadLetter. cbn [store plane_lease_store DeadLetter]. cbn beta in K. revert K. by destruct (DeadLetterWithLease _ _ _ _ db).
Qed.

Lemma finish_attempt_keeps job err now later :
  keeps_reachable (fun db => (finishAttempt store ErrorText (mark_terminal clock) (mark_checkpoint clock) x job err now later db).1.1).
Proof.
  intros used db H. unfold finishAttempt.
  assert (Hdead : forall e used db, reachable used db -> exists used', reachable used'
     (markExecutorTerminal (mark_terminal clock) x SessionExecutorStatusFailed 1 (ErrorText e) (markJobDeadLetter store ErrorText x job e db).1)).
  { intros e u d Hd. exact (keeps_compose _ _ (executor_dead_letter_keeps job e) (terminal_keeps _ _ _) u d Hd). }
  assert (Hretry : forall msg t p o n c used db, reachable used db -> exists used', reachable used'
     (markExecutorTerminal (mark_terminal clock) x SessionExecutorStatusRequeued 0 msg (executorRetryJob store t x job msg p o n c db))).
  { intros msg t p o n c u d Hd. exact (keeps_compose _ _ (retry_keeps clock cr t (j_id job) (se_lock_token x) msg (j_attempts job) p o n c false)
      (terminal_keeps _ _ _) u d Hd). }
  destruct err as [e|].
  - destruct (errors_As e as_Handoff); [by eauto|]. destruct (errors_As e as_Fatal); [by apply (Hdead e used)|].
    destruct (errors_As e as_Retryable) as [r|].
    + destruct (_ && _); [by apply (Hdead e used)|]. destruct (window_keeps clock cr job r now used db H) as [used1 H1].
      fold store in H1. destruct (ensureRetryWindowStartedAt store job r now db) as [db1 [[started|]|m]]; cbn [fst] in H1; [|by eauto..].
      destruct (retryableDurationExceeded _ _ _); [by apply (Hdead _ used1)|by apply (Hretry _ _ _ _ _ _ used1)].
    + destruct (_ <=? _); [by apply (Hdead e used)|by apply (Hretry _ _ _ _ _ _ used)].
  - pose proof (keeps_executor_op _ (fun db => op_human_input db clock (se_org_id x) (j_id job) (se_lock_token x)) used db H) as [used1 H1].
    cbn beta in H1. change (MarkHumanInputCheckpointByJob clock (se_org_id x) (j_id job) (se_lock_token x) db).1
      with (mark_checkpoint clock (se_org_id x) (j_id job) (se_lock_token x) db) in H1.
    pose proof (keeps_op _ (fun db => op_succeed db clock (j_id job) (se_lock_token x)) used1 _ H1) as [used2 H2]. cbn beta in H2.
    cbn [store plane_lease_store MarkSucceeded].
    destruct (MarkSucceededWithLease _ _ _ _) as [db2 []]; cbn [fst] in *; [by apply (terminal_keeps _ _ _ used2)|by eauto].
Qed.

Lemma beside_keeps lease job os : (forall w, In (Elsewhere w) os -> keeps_reachable w) ->
  forall e used db, reachable used db -> exists used', reachable used' (beside orchestrator x lease job os (db, e)).1.
Proof.
  induction os as [|o os IH]; intros Hw e used db H; [by eauto|].
  assert (K : exists used', reachable used' (beside_handler orchestrator x lease job o (db, e)).1).
  { destruct o as [c f|c f| |c f| | |w]; simpl.
    - destruct (negb _); [by eauto|].
      pose proof (keeps_call f _ (keeps_executor_op _ (fun db => op_executor_heartbeat db c (se_org_id x) (se_id x) (se_lock_token x) lease)) used db H) as K.
      cbn beta in K. revert K. by destruct (call f _ db).
    - destruct (negb _); [by eauto|].
      pose proof (keeps_call f _ (keeps_op _ (fun db => op_renew_executor db c (se_org_id x) (j_id job) (se_lock_token x) (se_id x) lease)) used db H) as K.
      cbn beta in K. revert K. by destruct (call f _ db).
    - by eauto.
    - destruct (x_parentDone e); [|by eauto].
      exact (keeps_call f _ (keeps_executor_op _ (fun db => op_draining db c (se_org_id x) (se_id x) (se_lock_token x))) used db H).
    - destruct (is_null _); eauto.
    - destruct (is_null _); eauto.
    - by apply (Hw w (or_introl eq_refl) used). }
  destruct K as [used1 K]. unfold beside in *. cbn [foldl].
  destruct (beside_handler orchestrator x lease job o (db, e)) as [db1 e1].
  apply IH with used1; [|done]. intros w Hin. by apply Hw; right.
Qed.
End Keeps.

(** An executor process only moves the plane along its own transitions.
    Whatever its boot finds, whatever the handler returns and however its
    heartbeats, renewals and drain marks fail or interleave with the rest of
    the fleet, a run leads from a reachable state to a reachable state. *)
Theorem executor_run_stays_in_the_plane orchestrator x ErrorText cr handles clock f lc hi ri rounds os runErr now later used db out :
  (forall w, In (Elsewhere w) os -> keeps_reachable w) -> reachable used db ->
  Run orchestrator x ErrorText cr handles clock f lc hi ri rounds os runErr now later db = Some out ->
  exists used', reachable used' out.1.1 /\ plane_inv used' out.1.1.
Proof.
  intros Hw H Hrun. enough (exists used', reachable used' out.1.1) as [used' H'] by (exists used'; split; [done|by apply reachable_inv]).
  revert Hrun. unfold Run. destruct (boot_terminal _); [intros [= <-]; by eauto|].
  destruct (waitForRunningJob rounds) as [waited|]; [|done]. intros [= <-].
  assert (Hboot : exists used1, reachable used1 (boot x clock f (leaseDuration_of lc) waited db).1).
  { unfold boot. destruct waited as [[job|] [err|]]; [by exists used| |by exists used|by apply (terminal_keeps clock x _ _ _ used)].
    destruct (negb _); [by eauto|].
    pose proof (keeps_call f _ (keeps_executor_op _ (fun db => op_running db clock (se_org_id x) (se_id x) (se_lock_token x) (leaseDuration_of lc))) used db H) as K.
    cbn beta in K. revert K. by destruct (call f _ db) as [db1 [[]|]]. }
  destruct Hboot as [used1 H1]. destruct (boot x clock f _ waited db) as [db1 [job|err]]; cbn [fst] in *; [|by eauto].
  destruct (negb _).
  - pose proof (keeps_op _ (fun db => op_fail db clock (j_id job) (se_lock_token x) ("no handler for job type: " +:+ j_job_type job)) used1 db1 H1) as [used2 H2].
    exact (terminal_keeps clock x _ _ _ used2 _ H2).
  - destruct (beside_keeps orchestrator x (leaseDuration_of lc) job os Hw (startOwnershipLoops hi ri) used1 db1 H1) as [used2 H2].
    unfold run_end. destruct (beside _ _ _ _ _ _) as [db2 e]. cbn [fst] in H2.
    destruct (x_lost e); [by apply (terminal_keeps clock x _ _ _ used2)|by apply (finish_attempt_keeps clock cr x ErrorText job _ now later used2)].
Qed.

(** ** Losing the job *)

Lemma lost_stays orchestrator x lease job o s : x_lost s.2 = true -> x_lost (beside_handler orchestrator x lease job o s).2 = true.
Proof.
  destruct s as [db e]. intros H. cbn [snd] in H. destruct o as [c f|c f| |c f| | |w]; cbn [beside_handler].
  - destruct (negb _); [done|]. destruct (call f _ db) as [db' r]. cbn [snd]. unfold heartbeat_tick.
    destruct r as [[[ok intent] cancelled]|]; [|done].
    destruct (negb ok); [done|]. destruct cancelled; [by destruct (_ && _)|]. destruct (x_budgetStopRequested e); [done|].
    destruct (bool_decide _); [|done]. by destruct orchestrator as [[]|].
  - destruct (negb _); [done|]. destruct (call f _ db) as [db' r]. cbn [snd]. unfold renew_tick. destruct r as [[t|]|]; done.
  - done.
  - by destruct (x_parentDone e).
  - by destruct (is_null _).
  - by destruct (is_null _).
  - done.
Qed.

Lemma lost_stays_beside orchestrator x lease job os s : x_lost s.2 = true -> x_lost (beside orchestrator x lease job os s).2 = true.
Proof. revert s. induction os as [|o os IH]; intros s H; [done|]. by apply IH, lost_stays. Qed.

(** The job's row no longer names this executor's claim. *)
Definition taken_over (db : DB) (x : SessionExecutor) (job : Job) : Prop :=
  forall j, In j (jobs db) -> owns (j_id job) (se_lock_token x) j = false.

Lemma renew_taken_over clock x job lease db : taken_over db x job ->
  (RenewLeaseForSessionExecutor clock (se_org_id x) (j_id job) (se_lock_token x) (se_id x) lease db).2 = None.
Proof.
  intros H. unfold RenewLeaseForSessionExecutor, renew_where. destruct (exists_row _ _) eqn:E; [|done].
  unfold exists_row in E. apply existsb_exists in E as (j & Hin & Hj). reflect_bools. by rewrite (H j Hin) in *.
Qed.

(** An executor that learns its job was taken over stops and stays out of
    the way.  After one answered renewal of a job whose claim has passed on,
    the handler is cancelled, the attempt is reported as lost whatever the
    handler returns, and the end of the run leaves every job as it is. *)
Theorem executor_yields_to_the_new_owner orchestrator x ErrorText cr lease job clock os db e clock' runErr now later :
  taken_over db x job -> x_renewing e = true ->
  let s := beside orchestrator x lease job (RenewTick clock Served :: os) (db, e) in
  let out := run_end x ErrorText cr clock' job runErr now later s in
  x_lost s.2 = true /\ out.2 = Some (ESentinel ErrExecutorLostLease) /\ out.1.2 = [] /\ jobs out.1.1 = jobs s.1.
Proof.
  intros Ht Hr s out. assert (Hlost : x_lost s.2 = true).
  { subst s. unfold beside. cbn [foldl]. fold (beside orchestrator x lease job os). apply lost_stays_beside.
    cbn [beside_handler]. rewrite Hr. cbn [negb call]. pose proof (renew_taken_over clock x job lease db Ht) as Hn.
    destruct (RenewLeaseForSessionExecutor _ _ _ _ _ _ db) as [db' r]. cbn [snd] in *. by subst r. }
  split; [done|]. subst out. unfold run_end. destruct s as [db' e']. cbn [snd] in Hlost. rewrite Hlost. cbn [fst snd].
  split; [done|]. split; [done|]. unfold markExecutorTerminal, mark_terminal, ExecutorStore.MarkTerminalWithLease. done.
Qed.

(** A deploy whose budget has expired asks the session to stop once.  In
    any interleaving the process requests the typed stop at most once and,
    having requested it, treats the cancelled handler as interrupted; a
    rejected request cancels the handler instead. *)
Theorem deploy_budget_stops_once orchestrator x lease job os hi ri db :
  let e := (beside orchestrator x lease job os (db, startOwnershipLoops hi ri)).2 in
  0 <= x_stopRequests e <= 1
  /\ (x_stopRequests e = 1 -> x_drainHandled e = true)
  /\ (x_drainHandled e = true -> orchestrator <> Some true -> x_cause e <> None).
Proof.
  enough (H : forall os s, (0 <= x_stopRequests s.2 <= 1 /\ (x_stopRequests s.2 = 1 -> x_budgetStopRequested s.2 = true)
      /\ x_drainHandled s.2 = x_budgetStopRequested s.2
      /\ (x_budgetStopRequested s.2 = true -> orchestrator <> Some true -> x_cause s.2 <> None)) ->
    let s' := beside orchestrator x lease job os s in
    0 <= x_stopRequests s'.2 <= 1 /\ (x_stopRequests s'.2 = 1 -> x_budgetStopRequested s'.2 = true)
      /\ x_drainHandled s'.2 = x_budgetStopRequested s'.2
      /\ (x_budgetStopRequested s'.2 = true -> orchestrator <> Some true -> x_cause s'.2 <> None)).
  { destruct (H os (db, startOwnershipLoops hi ri)) as (H1 & H2 & H3 & H4); [simpl; repeat split; try done; lia|].
    split; [done|]. by rewrite H3. }
  clear os. induction os as [|o os IH]; intros s Hs; [done|]. apply IH. clear IH. destruct s as [d e].
  destruct Hs as (H1 & H2 & H3 & H4). cbn [snd] in *.
  assert (Hc : forall c e, x_cause (cancel c e) <> None) by (intros c e0; unfold cancel; simpl; by destruct (x_cause e0)).
  destruct o as [c f|c f| |c f| | |w]; cbn [beside_handler].
  - destruct (negb _); [done|]. destruct (call f _ d) as [d' r]. cbn [snd]. unfold heartbeat_tick.
    destruct r as [[[ok intent] cancelled]|]; [|done].
    destruct (negb ok); [simpl; repeat split; try done; try tauto; intros; by apply Hc|].
    destruct cancelled; [destruct (_ && _); simpl; repeat split; try done; try tauto; intros; by apply Hc|].
    destruct (x_budgetStopRequested e) eqn:Eb; [rewrite Eb; tauto|]. destruct (bool_decide _); [|rewrite Eb; tauto].
    assert (x_stopRequests e = 0) by (destruct (decide (x_stopRequests e = 1)) as [E|]; [by apply H2 in E|lia]).
    destruct orchestrator as [[]|]; simpl; repeat split; try done; try lia; intros; by apply Hc.
  - destruct (negb _); [done|]. destruct (call f _ d) as [d' r]. cbn [snd]. unfold renew_tick.
    destruct r as [[t|]|]; try done. simpl. repeat split; try done; try tauto. intros; by apply Hc.
  - simpl. repeat split; try done; try tauto. intros; by apply Hc.
  - by destruct (x_parentDone e).
  - by destruct (is_null _).
  - by destruct (is_null _).
  - done.
Qed.

(** ** Witnesses *)


(** The claimed job of the scenario, handed to an executor. *)
Definition create_params := MkCreateSessionExecutorParams "s1" None "job1" "run_agent" "w1" "x1" "tok1" "img" "sha" None.
Definition db_session : DB := Eval vm_compute in
  db_claimed <| sessions := [inserted_session "s1" "org1" SessionStatusRunning "" None None None t0] |>.
Definition db_created : DB := Eval vm_compute in (ok (empty_db, "") (CreateStarting t0 "x1" "org1" create_params db_session)).1.
Definition db_handed : DB := Eval vm_compute in
  (ok (empty_db, false) (HandoffToSessionExecutorWithLease t0 "org1" "job1" "tok1" "x1" db_created)).1.
Definition handed_executor : SessionExecutor := Eval vm_compute in ok executor_row (GetByID db_handed "x1").
Lemma reachable_handed : reachable ["tok1"] db_handed.
Proof.
  eapply (steps_next _ _ ["tok1"] db_created None); [|done|apply step_job, (op_handoff _ t0 "org1" "job1" "tok1" "x1" _ true); by vm_compute].
  eapply (steps_next _ _ ["tok1"] db_session None); [|done|apply step_executor, (op_create _ t0 "x1" "org1" create_params _ "x1"); by vm_compute].
  eapply (steps_next _ _ ["tok1"] db_claimed None); [apply reachable_claimed|done|]. by apply step_environment; vm_compute.
Qed.

Definition handoff_seen : list round :=
  [MkRound (Ok (GetRunningForSessionExecutor db_handed "org1" "job1" "tok1" "x1")) t0 DeadlineFires t0].
Definition others (db : DB) : DB := (ReclaimLostRunningJobs (t0 + second) t0 10 nobody db).1.
Definition during_run : list occurrence := [HeartbeatTick (t0 + second) Served; RenewTick (t0 + second) Unheard; Elsewhere others].
Definition sample_run : option (DB * list effect * option error) :=
  Run (Some true) handed_executor text_of no_reviews (fun _ => true) t0 Served 0 second second handoff_seen during_run
    (Some (EText "boom")) (t0 + 2 * second) (t0 + 2 * second) db_handed.

Lemma executor_run_stays_in_the_plane_witness : exists out used', sample_run = Some out /\ reachable used' out.1.1 /\ plane_inv used' out.1.1.
Proof.
  destruct sample_run as [out|] eqn:E; [|by vm_compute in E]. exists out.
  destruct (executor_run_stays_in_the_plane (Some true) handed_executor text_of no_reviews (fun _ => true) t0 Served 0 second second
    handoff_seen during_run (Some (EText "boom")) (t0 + 2 * second) (t0 + 2 * second) ["tok1"] db_handed out) as [used' H].
  - intros w [?|[?|[Hw|[]]]]; try done. injection Hw as <-. apply keeps_op. intros db. apply op_reclaim.
  - apply reachable_handed.
  - exact E.
  - exists used'. split; [done|exact H].
Defined.

(** Recovery took the job away before the renewal. *)
Definition db_taken : DB := Eval vm_compute in
  (RetryWithLease (t0 + second) "job1" "tok1" "reclaimed" (t0 + second) db_handed).1.
Definition handed_job : Job := Eval vm_compute in default claimed_row (GetRunningForSessionExecutor db_handed "org1" "job1" "tok1" "x1").
Lemma executor_yields_to_the_new_owner_witness :
  let s := beside (Some true) handed_executor minute handed_job [RenewTick (t0 + second) Served] (db_taken, startOwnershipLoops second second) in
  x_lost s.2 = true /\ jobs (run_end handed_executor text_of no_reviews t0 handed_job None t0 t0 s).1.1 = jobs s.1.
Proof.
  destruct (executor_yields_to_the_new_owner (Some true) handed_executor text_of no_reviews minute handed_job (t0 + second) []
    db_taken (startOwnershipLoops second second) t0 None t0 t0) as (H1 & _ & _ & H2).
  - intros j Hj. vm_compute in Hj. destruct Hj as [<-|[]]. reflexivity.
  - reflexivity.
  - split; [exact H1|exact H2].
Defined.
