(* ===== verification/RetryProperties.v ===== *)
(** * When GitHub work is tried again

    Bounds on the retry schedules and the verdict of [ClassifyRetry] on whole
    error trees. *)

From S2P Require Import Prelude GoRuntime Classifier Errors GithubRetry Worker.
From stdpp Require Import base option list strings gmap.

Open Scope string_scope.
Open Scope Z_scope.

(** ** Schedules *)

Lemma no_hint_slot_bounds e : 0 <= e < 2 ^ 61 -> e < no_hint_slot e <= e + 5 * minute.
Proof.
  intros He. unfold no_hint_slot. change minute with 60000000000 in *.
  destruct (e <? 60000000000) eqn:E1; [reflect_bools; lia|].
  destruct (e <? 3 * 60000000000) eqn:E2; [reflect_bools; lia|].
  destruct (e <? 7 * 60000000000) eqn:E3; reflect_bools; [lia|].
  pose proof (Z.quot_rem' (e - 7 * 60000000000) (5 * 60000000000)) as Hq.
  pose proof (Z.rem_bound_pos (e - 7 * 60000000000) (5 * 60000000000) ltac:(lia) ltac:(lia)).
  set (q := Z.quot _ _) in *. unfold dur_add, dur_mul, in_int64, minDuration, maxDuration in *.
  rewrite !wrap64_id; unfold in_int64, minDuration, maxDuration; rewrite ?wrap64_id; unfold in_int64, minDuration, maxDuration; lia.
Qed.

Lemma jitter_bounds key : 0 <= githubRateLimitJitter key <= 29 * second.
Proof. apply (digest_jitter_bounds key 30). lia. Qed.

(** a throttled job without a provider hint waits at least a minute and
    at most five minutes and 29 seconds before it is tried again, however old
    its window is. *)
Theorem no_hint_retry_bounds started failureAt key :
  started <= failureAt -> failureAt - started < 2 ^ 61 ->
  failureAt + minute <= githubNoHintRetryAt started failureAt key <= failureAt + 5 * minute + 29 * second.
Proof.
  intros Hle Hlt. unfold githubNoHintRetryAt. rewrite Sub_exact by (unfold in_int64, minDuration, maxDuration; lia).
  replace (failureAt - started <? 0) with false by (symmetry; apply Z.ltb_ge; lia).
  pose proof (no_hint_slot_bounds (failureAt - started) ltac:(lia)). pose proof (jitter_bounds key).
  unfold Before, githubRateLimitMinimumRetryAfter. change minute with 60000000000 in *.
  destruct (_ <? _) eqn:E; reflect_bools; lia.
Qed.
Lemma no_hint_retry_bounds_witness :
  hour + minute <= githubNoHintRetryAt 0 hour "s1" <= hour + 5 * minute + 29 * second.
Proof. apply (no_hint_retry_bounds 0 hour "s1"); vm_compute; [discriminate|reflexivity]. Defined.

Lemma poll_delay_done fuel e d : e < d \/ 2 * minute <= d -> poll_delay fuel e d = d.
Proof.
  destruct fuel; [done|]. simpl. unfold mergeabilityMaximumPollDelay. intros H.
  destruct (_ && _) eqn:E; [|done]. reflect_bools. lia.
Qed.
Lemma poll_delay_more fuel e d : d <= e -> d < 2 * minute ->
  poll_delay (S fuel) e d = poll_delay fuel (e - d) (Z.min (2 * d) (2 * minute)).
Proof.
  intros H1 H2. simpl. unfold mergeabilityMaximumPollDelay.
  by rewrite (proj2 (Z.leb_le d e) H1), (proj2 (Z.ltb_lt d (2 * minute)) H2).
Qed.

(** polling for mergeability backs off geometrically: the delay is 5, 10,
    20, 40, 80 and then 120 seconds; it never exceeds the time already waited
    by more than the first poll, and it reaches its ceiling only once that
    much time has passed. *)
Theorem mergeability_polls_back_off started now :
  in_int64 (now - started) ->
  let d := mergeabilityPollDelay started now in
  let waited := Z.max 0 (now - started) in
  In d [5 * second; 10 * second; 20 * second; 40 * second; 80 * second; 120 * second]
  /\ d <= waited + 5 * second /\ (d < 120 * second -> waited + 5 * second < 2 * d).
Proof.
  intros Hi. unfold mergeabilityPollDelay. rewrite Sub_exact by done. set (e := now - started). cbn zeta.
  assert (forall k e, e < k -> k <= 2 * minute -> forall fuel, poll_delay fuel e k = k) as Hstop
    by (intros; apply poll_delay_done; by left).
  unfold minute, second in *.
  destruct (decide (e < 5000000000)).
  { rewrite Hstop by lia. split; [by left|lia]. }
  rewrite poll_delay_more by (unfold minute, second; lia). change (Z.min (2 * _) _) with 10000000000.
  destruct (decide (e < 15000000000)).
  { rewrite Hstop by lia. split; [by right; left|lia]. }
  rewrite poll_delay_more by (unfold minute, second; lia). change (Z.min (2 * _) _) with 20000000000.
  destruct (decide (e < 35000000000)).
  { rewrite Hstop by lia. split; [by do 2 right; left|lia]. }
  rewrite poll_delay_more by (unfold minute, second; lia). change (Z.min (2 * _) _) with 40000000000.
  destruct (decide (e < 75000000000)).
  { rewrite Hstop by lia. split; [by do 3 right; left|lia]. }
  rewrite poll_delay_more by (unfold minute, second; lia). change (Z.min (2 * _) _) with 80000000000.
  destruct (decide (e < 155000000000)).
  { rewrite Hstop by lia. split; [by do 4 right; left|lia]. }
  rewrite poll_delay_more by (unfold minute, second; lia). change (Z.min (2 * _) _) with 120000000000.
  rewrite poll_delay_done by (right; unfold minute, second; lia). split; [by do 5 right; left|lia].
Qed.
Lemma mergeability_polls_back_off_witness :
  In (mergeabilityPollDelay 0 (35 * second)) [5 * second; 10 * second; 20 * second; 40 * second; 80 * second; 120 * second].
Proof.
  refine (proj1 (mergeability_polls_back_off 0 (35 * second) _)). vm_compute. split; discriminate.
Defined.

(** ** Error trees *)

Section Trees.
Variables (ParseTime : string -> option time) (UnmarshalMessage : string -> option string) (ParseRFC3339Nano : string -> option time).
Variable now : time.
Let cls (e : error) : RetryClassification := classifyRetryCause ParseTime UnmarshalMessage ParseRFC3339Nano e now.

Definition merge_all (t : RetryClassification) (cs : list RetryClassification) : RetryClassification :=
  foldl (fun t c => mergeRetryClassification t c now) t cs.

Definition throttle (c : RetryClassification) : bool := rc_Retryable c && rc_RateLimited c.
Definition transient (c : RetryClassification) : bool := rc_Retryable c && negb (rc_RateLimited c).

(** The walk merges throttles and transient failures separately. *)
Lemma walk_splits ns T U :
  foldl (visit_cause ParseTime UnmarshalMessage ParseRFC3339Nano now) (T, U) ns
  = (merge_all T (List.filter throttle (map cls ns)), merge_all U (List.filter transient (map cls ns))).
Proof.
  revert T U. induction ns as [|e ns IH]; intros T U; simpl; [done|].
  unfold visit_cause at 2. fold (cls e). unfold throttle at 1, transient at 1.
  destruct (rc_Retryable (cls e)); simpl; [|apply IH]. destruct (rc_RateLimited (cls e)); simpl; apply IH.
Qed.

(** Only a retryable classification carries a deadline. *)
Definition consistent (t : RetryClassification) : Prop :=
  rc_Retryable t = false -> rc_RateLimited t = false /\ rc_RetryAt t = None.

Lemma merge_one t c : consistent t -> rc_Retryable c = true ->
  let m := mergeRetryClassification t c now in
  rc_Retryable m = true /\ rc_RateLimited m = rc_RateLimited t || rc_RateLimited c
  /\ rc_RetryAt m = strongest_from (rc_RetryAt t) [rc_RetryAt c]
  /\ (forall d, rc_RetryAt m = Some d -> rc_RetryAfter m = Some (delay_until now d)).
Proof.
  intros Ht Hc. unfold mergeRetryClassification. rewrite Hc. cbn [negb].
  destruct (rc_Retryable t) eqn:Et; cbn [negb].
  - destruct t as [t1 t2 t3 t4 t5 t6], c as [c1 c2 c3 c4 c5 c6]. simpl in *. subst.
    destruct t4 as [t4|], c4 as [c4|]; simpl; [destruct (After c4 t4)|..]; simpl;
      try (destruct (_ && _)); simpl; repeat split; try done; by intros ? [= <-].
  - destruct (Ht Et) as [Hr Ha]. rewrite Hr, Ha. destruct c as [c1 c2 c3 c4 c5 c6]. simpl in *. subst.
    destruct c4 as [c4|]; simpl; repeat split; try done; by intros ? [= <-].
Qed.

Lemma merge_list cs t : consistent t -> Forall (fun c => rc_Retryable c = true) cs ->
  let m := merge_all t cs in
  consistent m /\ rc_Retryable m = rc_Retryable t || negb (Nat.eqb (length cs) 0)
  /\ rc_RateLimited m = rc_RateLimited t || existsb rc_RateLimited cs
  /\ rc_RetryAt m = strongest_from (rc_RetryAt t) (map rc_RetryAt cs)
  /\ (cs <> [] -> forall d, rc_RetryAt m = Some d -> rc_RetryAfter m = Some (delay_until now d)).
Proof.
  revert t. induction cs as [|c cs IH]; intros t Ht Hcs; simpl.
  { rewrite !orb_false_r. do 4 (split; [done|]). done. }
  apply Forall_cons in Hcs as [Hc Hcs]. destruct (merge_one t c Ht Hc) as (M1 & M2 & M3 & M4).
  set (m := mergeRetryClassification t c now) in *.
  assert (consistent m) as Hm by (intros E; congruence).
  destruct (IH m Hm Hcs) as (I0 & I1 & I2 & I3 & I4). fold (merge_all m cs). split; [done|].
  split; [by rewrite I1, M1, orb_true_r|]. split; [by rewrite I2, M2, orb_assoc|]. split.
  - rewrite I3, M3. simpl. by destruct (rc_RetryAt c).
  - intros _. destruct cs as [|c' cs]; [exact M4|by apply I4].
Qed.

Lemma filter_retryable (p : RetryClassification -> bool) cs : (forall c, p c = true -> rc_Retryable c = true) ->
  Forall (fun c => rc_Retryable c = true) (List.filter p cs).
Proof.
  intros Hp. induction cs as [|c cs IH]; simpl; [done|]. destruct (p c) eqn:E; [constructor; auto|done].
Qed.
End Trees.

Lemma filter_nonempty {A} (p : A -> bool) l : negb (Nat.eqb (length (List.filter p l)) 0) = existsb p l.
Proof. induction l as [|x l IH]; simpl; [done|]. by destruct (p x). Qed.

Lemma throttles_limited l : existsb rc_RateLimited (List.filter throttle l) = existsb throttle l.
Proof.
  induction l as [|c l IH]; simpl; [done|]. destruct (throttle c) eqn:E; simpl; [|done].
  unfold throttle in E. apply andb_true_iff in E as [_ ->]. done.
Qed.
Lemma transients_free l : existsb rc_RateLimited (List.filter transient l) = false.
Proof.
  induction l as [|c l IH]; simpl; [done|]. destruct (transient c) eqn:E; simpl; [|done].
  unfold transient in E. apply andb_true_iff in E as [_ E]. apply negb_true_iff in E. by rewrite E.
Qed.
Lemma retryable_split l : existsb rc_Retryable l = existsb throttle l || existsb transient l.
Proof.
  induction l as [|c l IH]; simpl; [done|]. rewrite IH.
  assert (rc_Retryable c = throttle c || transient c) as ->
    by (unfold throttle, transient; by destruct (rc_Retryable c), (rc_RateLimited c)).
  by destruct (throttle c), (transient c), (existsb throttle l).
Qed.

(** the verdict on an error tree.  A tree that holds the caller's own
    cancellation is never retried.  Otherwise it is retried exactly when one
    of its errors is retryable, it counts as throttled exactly when one of
    them is a throttle, and a throttled tree waits for the latest deadline
    among its throttles: joining failures never loses a throttle and never
    shortens a wait. *)
Theorem error_trees_keep_the_longest_wait ParseTime UnmarshalMessage ParseRFC3339Nano e now :
  let ns := map (fun n => classifyRetryCause ParseTime UnmarshalMessage ParseRFC3339Nano n now) (nodes e) in
  let r := ClassifyRetry ParseTime UnmarshalMessage ParseRFC3339Nano (Some e) now in
  (errors_Is e Canceled || retryCallerStopped false e = true -> rc_Retryable r = false)
  /\ (errors_Is e Canceled || retryCallerStopped false e = false ->
      rc_Retryable r = existsb rc_Retryable ns
      /\ rc_RateLimited r = existsb throttle ns
      /\ (rc_RateLimited r = true ->
          rc_RetryAt r = strongestDeadline (map rc_RetryAt (List.filter throttle ns))
          /\ forall d, rc_RetryAt r = Some d -> rc_RetryAfter r = Some (delay_until now d))).
Proof.
  intros ns r. subst r. unfold ClassifyRetry. split; [by intros ->|]. intros ->. rewrite walk_splits. fold ns.
  assert (consistent no_retry) as H0 by done.
  destruct (merge_list now (List.filter throttle ns) no_retry H0) as (_ & T1 & T2 & T3 & T4).
  { apply filter_retryable. unfold throttle. intros c ?. by reflect_bools. }
  destruct (merge_list now (List.filter transient ns) no_retry H0) as (_ & U1 & U2 & _).
  { apply filter_retryable. unfold transient. intros c ?. by reflect_bools. }
  simpl in T1, T2, T3, U1, U2. rewrite filter_nonempty in T1, U1.
  pose proof (throttles_limited ns) as E1. pose proof (transients_free ns) as E2. pose proof (retryable_split ns) as E3.
  rewrite T1. destruct (existsb throttle ns) eqn:Et.
  - rewrite E3, T1, T2, E1. split; [done|]. split; [done|]. intros _. split; [exact T3|]. apply T4.
    intros En. by rewrite En in E1.
  - rewrite E3, U1, U2, E2. split; [done|]. split; [done|]. done.
Qed.

(** the window check adds at the width of a duration.  A deadline so far
    ahead that the wait saturates wraps the sum around, and the retry passes
    the check however short its window is. *)
Theorem saturated_wait_escapes_the_window started now r :
  started < now -> in_int64 (now - started) ->
  BypassMaxRetryDuration r = false -> MaxRetryDuration r = Some githubRateLimitMaxRetryDuration ->
  now - started <= githubRateLimitMaxRetryDuration -> RetryAfter r = Some maxDuration ->
  retryableDurationExceeded started r now = false.
Proof.
  intros Hlt Hi Hb Hm Hw Hr. unfold retryableDurationExceeded. rewrite Hb, Hm, Hr, Sub_exact by done. simpl.
  change githubRateLimitMaxRetryDuration with 7200000000000 in *.
  destruct (_ <? _) eqn:E; [reflect_bools; lia|]. apply Z.ltb_ge. unfold dur_add, wrap64, maxDuration, in_int64, minDuration in *.
  replace (now - started + (2 ^ 63 - 1) + 2 ^ 63) with (now - started - 1 + 1 * 2 ^ 64) by lia.
  rewrite Z.mod_add, Z.mod_small by lia. lia.
Qed.
Lemma saturated_wait_escapes_the_window_witness :
  retryableDurationExceeded 0 (plain_retry <| MaxRetryDuration := Some githubRateLimitMaxRetryDuration |>
    <| RetryAfter := Some (delay_until minute (10 ^ 11 * second)) |>) minute = false.
Proof.
  apply (saturated_wait_escapes_the_window 0 minute); try reflexivity; vm_compute; try split; discriminate.
Defined.

(** a definite refusal is not retried.  A 4xx answer other than 408, 425
    and 429 that carries no throttle evidence, a 403 whose message speaks of
    no rate limit included, ends the job at once as a fatal error. *)
Theorem definite_refusals_are_fatal ParseTime UnmarshalMessage ParseRFC3339Nano status header body key now :
  400 <= status < 500 -> status <> 408 -> status <> 425 -> status <> 429 ->
  InternalRetryMetadata ParseRFC3339Nano header 0 = None ->
  headerInt64 header "X-RateLimit-Remaining" <> Some 0 ->
  (status = 403 -> retryAfterDeadline ParseTime header now = None
     /\ throttle_message (ToLower (TrimSpace (structuredGitHubAPIMessage UnmarshalMessage body))) = false) ->
  IsZero now = false ->
  classifyGitHubJobError ParseTime UnmarshalMessage ParseRFC3339Nano (EGitHubAPI status header body) key now
  = EFatal (EGitHubAPI status header body).
Proof.
  intros Hs H1 H2 H3 Him Hrem Hmsg Hz. unfold classifyGitHubJobError, githubRetryableError, ClassifyRetry.
  cbn [nodes errors_Is existsb is_sentinel retryCallerStopped negb andb orb foldl].
  unfold visit_cause, classifyRetryCause, classifyHTTPResponseFailure. rewrite Him.
  unfold ClassifyResponse. cbn [Now i_Header StatusCode Message GraphQLErrors graphqlThrottle]. rewrite Hz.
  assert (match headerInt64 header "X-RateLimit-Remaining" with Some r => r =? 0 | None => false end = false) as ->.
  { destruct (headerInt64 _ _); [|done]. apply Z.eqb_neq. congruence. }
  cbn [andb]. unfold StatusTooManyRequests, StatusForbidden, StatusRequestTimeout, StatusTooEarly, StatusInternalServerError.
  replace (status =? 429) with false by (symmetry; by apply Z.eqb_neq).
  replace (status =? 408) with false by (symmetry; by apply Z.eqb_neq).
  replace (status =? 425) with false by (symmetry; by apply Z.eqb_neq).
  replace (500 <=? status) with false by (symmetry; apply Z.leb_gt; lia).
  destruct (status =? 403) eqn:E; [|reflexivity]. apply Z.eqb_eq in E. destruct (Hmsg E) as [Ha Ht]. cbn [orb andb].
  by rewrite Ha, Ht.
Qed.

Lemma definite_refusals_are_fatal_witness :
  let header := Some {["X-Ratelimit-Remaining" := ["4999"]]} in
  let body := "Resource not accessible by integration" in
  classifyGitHubJobError (fun _ => None) (fun b => Some b) (fun _ => None) (EGitHubAPI 403 header body) "s1" hour
  = EFatal (EGitHubAPI 403 header body).
Proof.
  intros header body.
  apply (definite_refusals_are_fatal (fun _ => None) (fun b => Some b) (fun _ => None) 403 header body "s1" hour);
    try reflexivity; try discriminate; try lia. intros _. by vm_compute.
Defined.
