(* ===== verification/Breaker.v ===== *)
(** * The Redis circuit breaker

    internal/cache/breaker.go.  The breaker is shared by concurrent commands:
    [Allow] reads the state and then swaps it with a compare-and-swap, so its
    two atomic accesses are separate steps here. *)

From S2P Require Import Prelude GoRuntime Sql.
From stdpp Require Import base option list.

Open Scope Z_scope.

Inductive breakerState := breakerStateClosed | breakerStateOpen | breakerStateHalfOpen.
#[export] Instance breaker_state_eq_dec : EqDecision breakerState.
Proof. solve_decision. Defined.

Record breakerBucket := MkBucket { b_ts : Z; b_attempts : Z; b_failures : Z }.
Definition zero_bucket : breakerBucket := MkBucket 0 0 0.

Record CircuitBreaker := MkBreaker {
  cb_state : breakerState;
  cb_openedAt : time;
  cb_window : duration;
  cb_minSamples : Z;
  (** a fraction: the code's float64 0.5 *)
  cb_errorRate : Z * Z;
  cb_cooldown : duration;
  cb_buckets : list breakerBucket
}.
#[export] Instance eta_breaker : Eta CircuitBreaker := fun c =>
  MkBreaker (cb_state c) (cb_openedAt c) (cb_window c) (cb_minSamples c) (cb_errorRate c) (cb_cooldown c) (cb_buckets c).

Definition NewCircuitBreaker : CircuitBreaker :=
  MkBreaker breakerStateClosed 0 (10 * second) 20 (1, 2) (10 * second) (repeat zero_bucket 10).

(** [time.Unix]: whole seconds, rounded down. *)
Definition Unix (t : time) : Z := t / second.

(** ** Counting *)

Definition record_bucket (now : Z) (failed : bool) (b : breakerBucket) : breakerBucket :=
  let b := if b_ts b =? now then b else MkBucket now 0 0 in
  MkBucket (b_ts b) (b_attempts b + 1) (b_failures b + (if failed then 1 else 0)).

Definition record (t : time) (failed : bool) (cb : CircuitBreaker) : CircuitBreaker :=
  let now := Unix t in
  let index := Z.to_nat (Z.rem now (Z.of_nat (length (cb_buckets cb)))) in
  cb <| cb_buckets := alter (record_bucket now failed) index (cb_buckets cb) |>.

Definition windowStats (t : time) (cb : CircuitBreaker) : Z * Z :=
  let cutoff := Unix (t - cb_window cb) in
  foldl (fun acc b => if b_ts b <? cutoff then acc else (acc.1 + b_attempts b, acc.2 + b_failures b))
    (0, 0) (cb_buckets cb).

(** [float64(failures)/float64(attempts) >= cb.errorRate], the rate a
    fraction. *)
Definition error_rate_reached (rate : Z * Z) (attempts failures : Z) : bool := rate.1 * attempts <=? rate.2 * failures.

(** ** Outcomes *)

Definition open (t : time) (cb : CircuitBreaker) : CircuitBreaker :=
  cb <| cb_openedAt := t |> <| cb_state := breakerStateOpen |>.

Definition ForceOpen (t : time) (cb : CircuitBreaker) : CircuitBreaker := open t cb.

Definition RecordSuccess (t : time) (cb : CircuitBreaker) : CircuitBreaker :=
  let cb := record t false cb in
  if cb_state cb ==? breakerStateHalfOpen then cb <| cb_state := breakerStateClosed |> else cb.

Definition RecordFailure (t : time) (cb : CircuitBreaker) : CircuitBreaker :=
  let cb := record t true cb in
  if cb_state cb ==? breakerStateHalfOpen then open t cb
  else let '(attempts, failures) := windowStats t cb in
       if (cb_minSamples cb <=? attempts) && error_rate_reached (cb_errorRate cb) attempts failures then open t cb else cb.

Definition Ready (cb : CircuitBreaker) : bool := cb_state cb ==? breakerStateClosed.

(** ** Admission, one atomic access at a time *)

(** Where a call of [Allow] stands: about to read the state, about to swap
    open for half-open, or returned. *)
Inductive pc := Loading | Swapping | Returned (allowed : bool).

Definition allow_step (t : time) (cb : CircuitBreaker) (p : pc) : CircuitBreaker * pc :=
  match p with
  | Loading =>
      match cb_state cb with
      | breakerStateClosed => (cb, Returned true)
      | breakerStateOpen => (cb, if cb_cooldown cb <? t - cb_openedAt cb then Swapping else Returned false)
      | breakerStateHalfOpen => (cb, Returned false)
      end
  | Swapping =>
      if cb_state cb ==? breakerStateOpen then (cb <| cb_state := breakerStateHalfOpen |>, Returned true)
      else (cb, Returned false)
  | Returned b => (cb, Returned b)
  end.

(** A call that is not interrupted. *)
Definition Allow (t : time) (cb : CircuitBreaker) : CircuitBreaker * pc :=
  let '(cb, p) := allow_step t cb Loading in allow_step t cb p.

(** Concurrent calls: at each step one of them makes its next access. *)
Inductive calls_step : CircuitBreaker * list pc -> CircuitBreaker * list pc -> Prop :=
  | one_access t cb cb' p p' before after :
      allow_step t cb p = (cb', p') ->
      calls_step (cb, (before ++ p :: after)%list) (cb', (before ++ p' :: after)%list).

Inductive calls : CircuitBreaker * list pc -> CircuitBreaker * list pc -> Prop :=
  | calls_refl s : calls s s
  | calls_next s1 s2 s3 : calls s1 s2 -> calls_step s2 s3 -> calls s1 s3.

Definition admitted (p : pc) : bool := match p with Returned true => true | _ => false end.

(** ** Properties *)

Lemma count_app (l l' : list pc) : count_rows admitted (l ++ l') = count_rows admitted l + count_rows admitted l'.
Proof. unfold count_rows, select. rewrite List.filter_app, length_app. lia. Qed.

Lemma count_cons p (l : list pc) : count_rows admitted (p :: l) = (if admitted p then 1 else 0) + count_rows admitted l.
Proof. unfold count_rows, select. simpl. destruct (admitted p); cbn [length]; lia. Qed.

(** Between two recorded outcomes the state is open with nobody admitted, or
    half-open with exactly one call admitted. *)
Definition probing (s : CircuitBreaker * list pc) : Prop :=
  cb_state s.1 = breakerStateOpen /\ count_rows admitted s.2 = 0
  \/ cb_state s.1 = breakerStateHalfOpen /\ count_rows admitted s.2 = 1.

Lemma calls_step_probing s s' : probing s -> calls_step s s' -> probing s'.
Proof.
  intros Hp Hs. destruct Hs as [t cb cb' p p' before after Ha]. unfold probing in *. cbn [fst snd] in *.
  rewrite !count_app, !count_cons in *.
  destruct p as [| |b]; simpl in Ha.
  - destruct Hp as [[E Hc]|[E Hc]]; rewrite E in Ha; [destruct (_ <? _)|]; injection Ha as <- <-; simpl in *; eauto.
  - destruct Hp as [[E Hc]|[E Hc]]; rewrite E in Ha; simpl in Ha; injection Ha as <- <-; simpl in *.
    + right. split; [done|lia].
    + right. split; [done|lia].
  - injection Ha as <- <-. done.
Qed.

(** an open breaker lets one command through.  Until that command's
    outcome is recorded, any interleaving of concurrent calls admits at most
    one of them, and if it admits one the breaker is half-open. *)
Theorem open_breaker_admits_one cb ps cb' ps' :
  cb_state cb = breakerStateOpen -> Forall (fun p => p = Loading) ps -> calls (cb, ps) (cb', ps') ->
  count_rows admitted ps' <= 1 /\ (count_rows admitted ps' = 1 <-> cb_state cb' = breakerStateHalfOpen).
Proof.
  intros Ho Hl Hc.
  assert (probing (cb, ps)) as H0.
  { left. split; [done|]. apply count_rows_0, exists_row_false. intros p Hp.
    rewrite List.Forall_forall in Hl. by rewrite (Hl p Hp). }
  assert (probing (cb', ps')) as H1.
  { remember (cb, ps) as s. remember (cb', ps') as s'. clear -Hc H0. induction Hc; eauto using calls_step_probing. }
  destruct H1 as [[E Hn]|[E Hn]]; cbn [fst snd] in E, Hn; rewrite E, Hn; (split; [lia|split; (done || lia)]).
Qed.

Definition opened_breaker : CircuitBreaker := open 0 NewCircuitBreaker.
Lemma open_breaker_admits_one_witness :
  let ps := [Returned true; Returned false] in
  count_rows admitted ps <= 1
  /\ (count_rows admitted ps = 1 <-> cb_state (opened_breaker <| cb_state := breakerStateHalfOpen |>) = breakerStateHalfOpen).
Proof.
  apply (open_breaker_admits_one opened_breaker [Loading; Loading]
    (opened_breaker <| cb_state := breakerStateHalfOpen |>) [Returned true; Returned false]).
  - reflexivity.
  - repeat constructor.
  - set (half := opened_breaker <| cb_state := breakerStateHalfOpen |>).
    refine (calls_next _ _ _ _ (one_access minute half half Swapping (Returned false) [Returned true] [] eq_refl)).
    refine (calls_next _ _ _ _ (one_access minute opened_breaker half Swapping (Returned true) [] [Swapping] eq_refl)).
    refine (calls_next _ _ _ _ (one_access minute opened_breaker opened_breaker Loading Swapping [Swapping] [] eq_refl)).
    refine (calls_next _ _ _ _ (one_access minute opened_breaker opened_breaker Loading Swapping [] [Loading] eq_refl)).
    apply calls_refl.
Defined.

(** ** The ring of buckets *)

Section Ring.
(** What has been recorded, newest first, by the second of the record. *)
Abbreviation history := (list (Z * bool)) (only parsing).

Definition cnt (h : history) (s : Z) : Z := count_rows (fun e => e.1 =? s) h.
Definition fcnt (h : history) (s : Z) : Z := count_rows (fun e => (e.1 =? s) && e.2) h.

Lemma cnt_cons e h s : cnt (e :: h) s = (if e.1 =? s then 1 else 0) + cnt h s.
Proof. unfold cnt, count_rows, select. simpl. destruct (e.1 =? s); cbn [length]; lia. Qed.
Lemma fcnt_cons e h s : fcnt (e :: h) s = (if (e.1 =? s) && e.2 then 1 else 0) + fcnt h s.
Proof. unfold fcnt, count_rows, select. simpl. destruct ((e.1 =? s) && e.2); cbn [length]; lia. Qed.
Lemma fcnt_le h s : 0 <= fcnt h s <= cnt h s.
Proof.
  induction h as [|e h IH]; [done|]. rewrite cnt_cons, fcnt_cons. destruct (e.1 =? s), e.2; simpl; lia.
Qed.

(** Records arrive in the order of their seconds, after the epoch. *)
Fixpoint chronological (h : history) : Prop :=
  match h with [] => True | e :: h => 0 < e.1 /\ Forall (fun e' => e'.1 <= e.1) h /\ chronological h end.

(** Each bucket holds the latest recorded second of its residue. *)
Definition bucket_ok (h : history) (last : Z) (i : nat) (b : breakerBucket) : Prop :=
  (b_ts b mod 10 = Z.of_nat i \/ b_ts b = 0) /\ b_ts b <= last
  /\ b_attempts b = cnt h (b_ts b) /\ b_failures b = fcnt h (b_ts b)
  /\ forall s, s mod 10 = Z.of_nat i -> b_ts b < s -> cnt h s = 0.

Definition ring_ok (h : history) (last : Z) (bs : list breakerBucket) : Prop :=
  length bs = 10%nat /\ forall i b, bs !! i = Some b -> bucket_ok h last i b.

Definition record_second (e : Z * bool) (bs : list breakerBucket) : list breakerBucket :=
  alter (record_bucket e.1 e.2) (Z.to_nat (Z.rem e.1 (Z.of_nat (length bs)))) bs.

Lemma bucket_other e h last i b : bucket_ok h last i b -> 0 < e.1 -> last <= e.1 -> e.1 mod 10 <> Z.of_nat i ->
  bucket_ok (e :: h) e.1 i b.
Proof.
  intros (Hr & Hl & Ha & Hf & Hz) He Hle Hm. assert (e.1 <> b_ts b) as Hne by (destruct Hr; [congruence|lia]).
  unfold bucket_ok. rewrite cnt_cons, fcnt_cons, (proj2 (Z.eqb_neq _ _) Hne). simpl.
  split; [done|]. split; [lia|]. split; [lia|]. split; [lia|]. intros s Hs Hlt. rewrite cnt_cons.
  destruct (e.1 =? s) eqn:E; [apply Z.eqb_eq in E; congruence|]. by rewrite Hz.
Qed.

Lemma bucket_same e h last i b : bucket_ok h last i b -> 0 < e.1 -> last <= e.1 -> e.1 mod 10 = Z.of_nat i ->
  bucket_ok (e :: h) e.1 i (record_bucket e.1 e.2 b).
Proof.
  intros (Hr & Hl & Ha & Hf & Hz) He Hle Hm. unfold record_bucket, bucket_ok.
  assert (forall s, s mod 10 = Z.of_nat i -> e.1 < s -> cnt (e :: h) s = 0) as Hz'.
  { intros s Hs Hlt. rewrite cnt_cons, (proj2 (Z.eqb_neq e.1 s)) by lia. rewrite Hz; [lia|done|lia]. }
  destruct (b_ts b =? e.1) eqn:E; simpl.
  - apply Z.eqb_eq in E. rewrite E, cnt_cons, fcnt_cons, Z.eqb_refl. rewrite E in *.
    split; [by left|]. split; [lia|]. split; [lia|]. split; [|done]. rewrite Hf. simpl. destruct e.2; lia.
  - apply Z.eqb_neq in E. assert (cnt h e.1 = 0) as Hc by (apply Hz; [done|lia]). pose proof (fcnt_le h e.1).
    rewrite cnt_cons, fcnt_cons, Z.eqb_refl. split; [by left|]. split; [lia|]. split; [lia|]. split; [|done].
    simpl. destruct e.2; lia.
Qed.

Lemma record_ring e h last bs : ring_ok h last bs -> 0 < e.1 -> last <= e.1 -> ring_ok (e :: h) e.1 (record_second e bs).
Proof.
  intros [Hl Hb] He Hle. unfold record_second. rewrite Hl. split; [by rewrite length_alter|].
  intros i b Hi. rewrite Z.rem_mod_nonneg in Hi by lia. pose proof (Z.mod_pos_bound e.1 10 ltac:(lia)).
  destruct (decide (Z.to_nat (e.1 mod Z.of_nat 10) = i)) as [<-|Hne].
  - rewrite list_lookup_alter_eq in Hi. destruct (bs !! Z.to_nat (e.1 mod Z.of_nat 10)) as [b0|] eqn:E0; [|done].
    injection Hi as <-. eapply bucket_same; [by apply Hb|done|done|]. change (Z.of_nat 10) with 10. lia.
  - rewrite list_lookup_alter_ne in Hi by done. eapply bucket_other; [by apply Hb|done|done|].
    intros E. apply Hne. change (Z.of_nat 10) with 10. rewrite E. lia.
Qed.

Fixpoint replay (h : history) (bs : list breakerBucket) : list breakerBucket :=
  match h with [] => bs | e :: h => record_second e (replay h bs) end.

Lemma replay_ring h : chronological h -> ring_ok h (match h with e :: _ => e.1 | [] => 0 end) (replay h (repeat zero_bucket 10)).
Proof.
  induction h as [|e h IH]; simpl; intros Hc.
  - split; [done|]. intros i b Hi. apply list_elem_of_lookup_2, list_elem_of_In, (repeat_spec 10 zero_bucket) in Hi. subst b.
    split; [by right|]. by repeat split.
  - destruct Hc as (He & Hle & Hc). eapply record_ring; [by apply IH|done|].
    destruct h as [|e' h]; [lia|]. by apply Forall_cons in Hle as [? _].
Qed.

(** ** The sum over the ring *)

Definition live_bucket (cutoff : Z) (f : breakerBucket -> Z) (b : breakerBucket) : Z := if b_ts b <? cutoff then 0 else f b.

Lemma stats_sum cutoff bs a f :
  foldl (fun acc b => if b_ts b <? cutoff then acc else (acc.1 + b_attempts b, acc.2 + b_failures b)) (a, f) bs
  = (a + foldr Z.add 0 (map (live_bucket cutoff b_attempts) bs), f + foldr Z.add 0 (map (live_bucket cutoff b_failures) bs)).
Proof.
  revert a f. induction bs as [|b bs IH]; intros a f; simpl; [by rewrite !Z.add_0_r|]. unfold live_bucket at 1 3.
  destruct (b_ts b <? cutoff); rewrite IH; simpl; f_equal; lia.
Qed.

(** The second of the last ten that bucket [i] stands for. *)
Definition slot_second (now : Z) (i : nat) : Z := now - (now - Z.of_nat i) mod 10.

Lemma live_bucket_count e h i b : bucket_ok (e :: h) e.1 i b -> Forall (fun e' => e'.1 <= e.1) (e :: h) -> 10 < e.1 -> (i < 10)%nat ->
  (Z.of_nat i = e.1 mod 10 -> b_ts b = e.1) ->
  live_bucket (e.1 - 10) b_attempts b = cnt (e :: h) (slot_second e.1 i)
  /\ live_bucket (e.1 - 10) b_failures b = fcnt (e :: h) (slot_second e.1 i).
Proof.
  intros (Hr & Hl & Ha & Hf & Hz) _ He Hi Hnow. unfold live_bucket, slot_second.
  pose proof (Z.mod_pos_bound (e.1 - Z.of_nat i) 10 ltac:(lia)) as Hb.
  set (d := (e.1 - Z.of_nat i) mod 10) in *.
  assert ((e.1 - d) mod 10 = Z.of_nat i) as Hd.
  { unfold d. rewrite Zminus_mod_idemp_r. replace (e.1 - (e.1 - Z.of_nat i)) with (Z.of_nat i) by lia. apply Z.mod_small. lia. }
  destruct (b_ts b <? e.1 - 10) eqn:E; reflect_bools.
  - assert (cnt (e :: h) (e.1 - d) = 0) as Hc by (apply Hz; [done|lia]). pose proof (fcnt_le (e :: h) (e.1 - d)). lia.
  - assert (b_ts b = e.1 - d) as Heq; [|by rewrite Ha, Hf, Heq]. destruct Hr as [Hr|Hr]; [|lia].
    pose proof (Z.div_mod (b_ts b) 10 ltac:(lia)) as H1. pose proof (Z.div_mod (e.1 - d) 10 ltac:(lia)) as H2.
    destruct (decide (b_ts b = e.1 - 10)) as [Eq|]; [|lia].
    assert (b_ts b = e.1); [|lia]. apply Hnow. rewrite <- Hr, Eq.
    rewrite <- (Z.mod_add (e.1 - 10) 1 10) by lia. f_equal. lia.
Qed.

Lemma sum_map_ext (f g : nat -> Z) l : (forall i, In i l -> f i = g i) -> foldr Z.add 0 (map f l) = foldr Z.add 0 (map g l).
Proof. intros H. induction l as [|x l IH]; simpl; [done|]. rewrite H by (by left). f_equal. apply IH. intros i Hi. apply H. by right. Qed.

(** Ten consecutive residues are ten consecutive seconds. *)
Lemma residues_are_seconds now (f : Z -> Z) :
  foldr Z.add 0 (map (fun i => f (slot_second now i)) (seq 0 10)) = foldr Z.add 0 (map (fun d => f (now - Z.of_nat d)) (seq 0 10)).
Proof.
  assert (forall i, slot_second now i = now - (now mod 10 - Z.of_nat i) mod 10) as Hs
    by (intros i; unfold slot_second; by rewrite Zminus_mod_idemp_l).
  pose proof (Z.mod_pos_bound now 10 ltac:(lia)) as Hr. simpl. rewrite !Hs. set (r := now mod 10) in *. clearbody r. clear Hs.
  assert (r = 0 \/ r = 1 \/ r = 2 \/ r = 3 \/ r = 4 \/ r = 5 \/ r = 6 \/ r = 7 \/ r = 8 \/ r = 9) as Hc by lia.
  destruct Hc as [-> |[-> |[-> |[-> |[-> |[-> |[-> |[-> |[-> | ->]]]]]]]]]; 
    repeat match goal with |- context [?a mod 10] => let v := eval vm_compute in (a mod 10) in change (a mod 10) with v end;
    repeat match goal with |- context [Z.of_nat ?n] => let v := eval vm_compute in (Z.of_nat n) in change (Z.of_nat n) with v end; lia.
Qed.

(** The records of the ten seconds that end at [now]. *)
Definition recent (now : Z) (h : history) : history := List.filter (fun e => (now - 10 <? e.1) && (e.1 <=? now)) h.

Lemma seconds_are_recent now h :
  foldr Z.add 0 (map (fun d => cnt h (now - Z.of_nat d)) (seq 0 10)) = Z.of_nat (length (recent now h))
  /\ foldr Z.add 0 (map (fun d => fcnt h (now - Z.of_nat d)) (seq 0 10)) = count_rows snd (recent now h).
Proof.
  induction h as [|e h [IH1 IH2]]; [done|]. cbn [seq map foldr] in *. rewrite !cnt_cons, !fcnt_cons. unfold recent, count_rows, select in *. cbn [List.filter].
  destruct ((now - 10 <? e.1) && (e.1 <=? now)) eqn:E.
  - cbn [length List.filter]. destruct e.2; cbn [length]; rewrite ?andb_true_r, ?andb_false_r; reflect_bools;
      repeat match goal with |- context [e.1 =? ?s] => destruct (Z.eqb_spec e.1 s); try (exfalso; lia) end; lia.
  - apply andb_false_iff in E as [E|E]; reflect_bools;
      repeat match goal with |- context [e.1 =? ?s] => destruct (Z.eqb_spec e.1 s); [lia|] end; cbn [andb]; lia.
Qed.
End Ring.

Definition recorded (l : list (time * bool)) : CircuitBreaker :=
  foldr (fun e cb => record e.1 e.2 cb) NewCircuitBreaker l.
Definition seconds_of (l : list (time * bool)) : list (Z * bool) := map (fun e => (Unix e.1, e.2)) l.

Lemma recorded_ring l : cb_buckets (recorded l) = replay (seconds_of l) (repeat zero_bucket 10) /\ cb_window (recorded l) = 10 * second.
Proof. induction l as [|e l [IH1 IH2]]; [done|]. split; [|exact IH2]. simpl. by rewrite IH1. Qed.

Lemma chronological_le e h : chronological (e :: h) -> Forall (fun e' => e'.1 <= e.1) (e :: h).
Proof. intros (_ & H & _). by constructor. Qed.

(** The bucket a record has just written. *)
Lemma current_bucket e h b : chronological (e :: h) -> forall i, Z.of_nat i = e.1 mod 10 ->
  replay (e :: h) (repeat zero_bucket 10) !! i = Some b -> b_ts b = e.1.
Proof.
  intros (He & Hle & Hc) i Hi. cbn [replay]. unfold record_second. rewrite (proj1 (replay_ring h Hc)).
  rewrite Z.rem_mod_nonneg by lia. replace (Z.to_nat (e.1 mod Z.of_nat 10)) with i by (change (Z.of_nat 10) with 10; lia).
  rewrite list_lookup_alter_eq. destruct (_ !! i) as [b0|]; [|done]. intros [= <-]. unfold record_bucket.
  destruct (b_ts b0 =? e.1) eqn:E; [by apply Z.eqb_eq in E|done].
Qed.

Lemma ring_map (g : breakerBucket -> Z) (f : nat -> Z) bs : length bs = 10%nat ->
  (forall i b, bs !! i = Some b -> g b = f i) -> map g bs = map f (seq 0 10).
Proof.
  intros Hl Hg. apply list_eq. intros i. rewrite !list_lookup_fmap.
  destruct (bs !! i) as [b|] eqn:E.
  - rewrite lookup_seq_lt by (rewrite <- Hl; by eapply lookup_lt_Some). simpl. by rewrite (Hg i b E).
  - rewrite lookup_seq_ge; [done|]. rewrite <- Hl. by apply lookup_ge_None.
Qed.

(** the ring of ten buckets counts a sliding window exactly: after a
    record at [t], the statistics are the number of attempts and failures
    recorded in the ten seconds that end at [t], whatever came before. *)
Theorem ring_counts_the_window t failed l :
  chronological (seconds_of ((t, failed) :: l)) -> 10 < Unix t ->
  windowStats t (recorded ((t, failed) :: l))
  = (Z.of_nat (length (recent (Unix t) (seconds_of ((t, failed) :: l)))),
     count_rows snd (recent (Unix t) (seconds_of ((t, failed) :: l)))).
Proof.
  intros Hc Ht. set (e := (Unix t, failed)). set (h := seconds_of l).
  change (seconds_of ((t, failed) :: l)) with (e :: h) in *.
  destruct (recorded_ring ((t, failed) :: l)) as [Hb Hw]. change (seconds_of ((t, failed) :: l)) with (e :: h) in Hb.
  unfold windowStats. rewrite Hb, Hw, stats_sum, !Z.add_0_l.
  assert (Unix (t - 10 * second) = Unix t - 10) as ->.
  { unfold Unix. replace (t - 10 * second) with (t + (-10) * second) by lia. by rewrite Z.div_add. }
  destruct (replay_ring (e :: h) Hc) as [Hlen Hok].
  destruct (seconds_are_recent (Unix t) (e :: h)) as [<- <-].
  rewrite <- (residues_are_seconds (Unix t) (cnt (e :: h))), <- (residues_are_seconds (Unix t) (fcnt (e :: h))).
  assert (forall i b, replay (e :: h) (repeat zero_bucket 10) !! i = Some b ->
    live_bucket (Unix t - 10) b_attempts b = cnt (e :: h) (slot_second (Unix t) i)
    /\ live_bucket (Unix t - 10) b_failures b = fcnt (e :: h) (slot_second (Unix t) i)) as Hlive.
  { intros i b Hi. apply (live_bucket_count e h i b).
    - by apply Hok.
    - by apply chronological_le.
    - done.
    - rewrite <- Hlen. by eapply lookup_lt_Some.
    - intros Hm. by eapply current_bucket. }
  rewrite (ring_map _ _ _ Hlen (fun i b Hi => proj1 (Hlive i b Hi))), (ring_map _ _ _ Hlen (fun i b Hi => proj2 (Hlive i b Hi))).
  done.
Qed.

Lemma ring_counts_the_window_witness :
  windowStats (35 * second) (recorded [(35 * second, true); (30 * second, false); (25 * second, true)]) = (2, 1).
Proof.
  refine (eq_trans (ring_counts_the_window (35 * second) true [(30 * second, false); (25 * second, true)] _ _) _).
  - vm_compute. repeat constructor; discriminate.
  - vm_compute. reflexivity.
  - vm_compute. reflexivity.
Defined.
