(* ===== verification/PrHealth.v ===== *)
(** * Pull request health

    internal/models/pr_health.go, internal/services/github/pr_health.go and the
    pure parts of pr_health_service.go, pr_merge.go, pr_merge_when_ready.go
    and pr_auto_repair.go: how GitHub's view of a pull request is normalized
    into a summary, how check webhooks are overlaid on it, and what the summary
    allows (merge, conflict repair, test repair).  The enumerations are the
    strings GitHub and the database hold, since the code meets values outside
    them. *)

From S2P Require Import Prelude GoRuntime.
From stdpp Require Import base option list strings pretty gmap.
From Stdlib Require Import Ascii.

Open Scope string_scope.
Open Scope Z_scope.

(** ** Enumerations *)

Definition PullRequestStatusOpen := "open".
Definition PullRequestStatusClosed := "closed".
Definition PullRequestStatusMerged := "merged".

Definition MergeStateUnknown := "unknown".
Definition MergeStateMergeabilityPending := "mergeability_pending".
Definition MergeStateClean := "clean".
Definition MergeStateConflicted := "conflicted".
Definition MergeStateBehind := "behind".
Definition MergeStateBlocked := "blocked".

Definition CheckCategoryTest := "test".
Definition CheckCategoryLint := "lint".
Definition CheckCategoryBuild := "build".
Definition CheckCategoryDeploy := "deploy".
Definition CheckCategoryUnknown := "unknown".
Definition CheckCategory_Validate (c : string) : bool :=
  (c ==? CheckCategoryTest) || (c ==? CheckCategoryLint) || (c ==? CheckCategoryBuild)
  || (c ==? CheckCategoryDeploy) || (c ==? CheckCategoryUnknown).

Definition CheckStatusPassed := "passed".
Definition CheckStatusFailed := "failed".
Definition CheckStatusPending := "pending".
Definition CheckStatus_Validate (s : string) : bool :=
  (s ==? CheckStatusPassed) || (s ==? CheckStatusFailed) || (s ==? CheckStatusPending).

Definition CheckSourceCheckRun := "check_run".
Definition CheckSourceCommitStatus := "commit_status".
Definition CheckSource_Validate (s : string) : bool := (s ==? CheckSourceCheckRun) || (s ==? CheckSourceCommitStatus).

Inductive SyncStatus := SyncStatusSynced | SyncStatusPending | SyncStatusBlocked.
#[export] Instance SyncStatus_eq_dec : EqDecision SyncStatus.
Proof. solve_decision. Defined.

Inductive EnrichmentStatus := EnrichmentNotRequested | EnrichmentPending | EnrichmentReady | EnrichmentFailed | EnrichmentStale.
#[export] Instance EnrichmentStatus_eq_dec : EqDecision EnrichmentStatus.
Proof. solve_decision. Defined.

Inductive RepairAction := FixTests | ResolveConflicts.
#[export] Instance RepairAction_eq_dec : EqDecision RepairAction.
Proof. solve_decision. Defined.

(** ** Records *)

Record CheckSummary := MkCheckSummary {
  cs_Name : string; cs_Category : string; cs_Status : string; cs_Provider : string; cs_DetailsURL : string; cs_Summary : string
}.
#[export] Instance eta_CheckSummary : Eta CheckSummary := fun c =>
  MkCheckSummary (cs_Name c) (cs_Category c) (cs_Status c) (cs_Provider c) (cs_DetailsURL c) (cs_Summary c).
#[export] Instance CheckSummary_eq_dec : EqDecision CheckSummary.
Proof. solve_decision. Defined.

(** The columns of [pull_request_check_states] of one pull request. *)
Record CheckState := MkCheckState {
  st_HeadSHA : string; st_Source : string; st_ExternalKey : string; st_Name : string; st_Category : string; st_Status : string;
  st_Provider : string; st_DetailsURL : string; st_Summary : string; st_ProviderEventID : string;
  st_ProviderSequence : Z; st_ProviderUpdatedAt : time; st_ProjectionVersion : Z
}.
#[export] Instance eta_CheckState : Eta CheckState := fun s =>
  MkCheckState (st_HeadSHA s) (st_Source s) (st_ExternalKey s) (st_Name s) (st_Category s) (st_Status s) (st_Provider s)
    (st_DetailsURL s) (st_Summary s) (st_ProviderEventID s) (st_ProviderSequence s) (st_ProviderUpdatedAt s) (st_ProjectionVersion s).
#[export] Instance CheckState_eq_dec : EqDecision CheckState.
Proof. solve_decision. Defined.

Definition CheckState_CheckSummary (s : CheckState) : CheckSummary :=
  MkCheckSummary (st_Name s) (st_Category s) (st_Status s) (st_Provider s) (st_DetailsURL s) (st_Summary s).

Record HealthSummary := MkHealthSummary {
  hs_GitHubSyncVersion : Z; hs_MergeState : string; hs_HasConflicts : bool; hs_FailingTestCount : Z;
  hs_NeedsAgentAction : bool; hs_ChecksConfirmed : bool; hs_CheckSetComplete : option bool; hs_Checks : list CheckSummary
}.
#[export] Instance eta_HealthSummary : Eta HealthSummary := fun s =>
  MkHealthSummary (hs_GitHubSyncVersion s) (hs_MergeState s) (hs_HasConflicts s) (hs_FailingTestCount s) (hs_NeedsAgentAction s)
    (hs_ChecksConfirmed s) (hs_CheckSetComplete s) (hs_Checks s).
#[export] Instance HealthSummary_eq_dec : EqDecision HealthSummary.
Proof. solve_decision. Defined.

Record gitHubCheckRun := MkCheckRun {
  cr_ID : Z; cr_Name : string; cr_HTMLURL : string; cr_Conclusion : string; cr_Status : string; cr_DetailsURL : string;
  cr_StartedAt : option time; cr_CompletedAt : option time; cr_Slug : string; cr_Title : string; cr_OutputSummary : string
}.
Record gitHubCommitStatus := MkCommitStatus {
  gs_ID : Z; gs_Context : string; gs_State : string; gs_TargetURL : string; gs_Description : string;
  gs_CreatedAt : option time; gs_UpdatedAt : option time
}.

(** ** Normalization *)

Definition normalized (s : string) : string := ToLower (TrimSpace s).
Definition among (s : string) (l : list string) : bool := existsb (fun x => s ==? x) l.

Definition isDefinitiveNullMergeabilityState (githubState : string) : bool :=
  among (normalized githubState) ["behind"; "dirty"; "blocked"; "draft"; "unstable"; "has_hooks"].

Definition normalizeMergeState (mergeable : option bool) (githubState : string) : string * bool :=
  let state := normalized githubState in
  if state ==? "behind" then (MergeStateBehind, false)
  else if state ==? "dirty" then (MergeStateConflicted, true)
  else if (state ==? "blocked") || (state ==? "draft") || (state ==? "unstable") || (state ==? "has_hooks")
  then (MergeStateBlocked, false)
  else match mergeable with
       | None => (MergeStateMergeabilityPending, false)
       | Some false => (MergeStateConflicted, true)
       | Some true => (MergeStateClean, false)
       end.

Definition containsAny (s : string) (needles : list string) : bool := existsb (Contains s) needles.

Definition classifyCheckRunCategory (checkName : string) : string :=
  let name := normalized checkName in
  if name ==? "" then CheckCategoryUnknown
  else if containsAny name ["test"; "tests"; "jest"; "vitest"; "playwright"; "cypress"; "pytest"; "rspec"; "go test"; "e2e"; "integration"]
  then CheckCategoryTest
  else if containsAny name ["lint"; "eslint"; "golangci"; "rubocop"; "ruff"; "staticcheck"] then CheckCategoryLint
  else if containsAny name ["build"; "compile"; "typecheck"; "tsc"] then CheckCategoryBuild
  else if containsAny name ["deploy"; "release"; "ship"; "publish"; "preview"] then CheckCategoryDeploy
  else CheckCategoryUnknown.

Definition EqualFold (a b : string) : bool := ToLower a ==? ToLower b.

Definition normalizeCheckRunStatus (check : gitHubCheckRun) : string :=
  if among (normalized (cr_Status check)) ["queued"; "waiting"; "in_progress"; "requested"; "pending"] then CheckStatusPending
  else
    let conclusion := normalized (cr_Conclusion check) in
    if among conclusion ["success"; "neutral"; "skipped"] then CheckStatusPassed
    else if among conclusion ["failure"; "cancelled"; "timed_out"; "startup_failure"; "stale"; "action_required"] then CheckStatusFailed
    else if EqualFold (cr_Status check) "completed" then CheckStatusFailed
    else CheckStatusPending.

Definition normalizeCommitStatus (status : gitHubCommitStatus) : string :=
  let state := normalized (gs_State status) in
  if state ==? "success" then CheckStatusPassed
  else if (state ==? "failure") || (state ==? "error") then CheckStatusFailed
  else CheckStatusPending.

Definition commitStatusProvider (context : string) : string :=
  let name := normalized context in
  if Contains name "circleci" then "circleci" else if Contains name "github" then "github" else "github_status".

Definition normalizeStoredCheckStatus (status : string) : string :=
  if CheckStatus_Validate status then status else CheckStatusPending.
Definition classifyStoredCheckStatus (check : CheckSummary) : string := normalizeStoredCheckStatus (cs_Status check).

Definition detectIndeterminateSignals (mergeable : option bool) (githubState : string) (checkRuns : list gitHubCheckRun)
    (commitStatuses : list gitHubCommitStatus) : bool * bool :=
  (is_null mergeable && negb (isDefinitiveNullMergeabilityState (normalized githubState)),
   existsb (fun check => (classifyCheckRunCategory (cr_Name check) ==? CheckCategoryTest)
              && among (normalized (cr_Status check)) ["in_progress"; "queued"; "waiting"]) checkRuns
   || existsb (fun status => (classifyCheckRunCategory (gs_Context status) ==? CheckCategoryTest)
              && (normalizeCommitStatus status ==? CheckStatusPending)) commitStatuses).

Definition determineChecksConfirmed (checks : list CheckSummary) (requiredChecksConfigured : bool) : bool :=
  match checks with
  | [] => negb requiredChecksConfigured
  | _ => forallb (fun check => (classifyStoredCheckStatus check ==? CheckStatusPassed)
                               || (classifyStoredCheckStatus check ==? CheckStatusFailed)) checks
  end.

Definition checkSummariesHaveFailedCheck (checks : list CheckSummary) : bool :=
  existsb (fun check => classifyStoredCheckStatus check ==? CheckStatusFailed) checks.

Definition healthSummaryHasRepairableFailedChecks (summary : HealthSummary) : bool :=
  (0 <? hs_FailingTestCount summary) || checkSummariesHaveFailedCheck (hs_Checks summary).

Definition checksAllowMerge (checksConfirmed : bool) (checks : list CheckSummary) : bool :=
  checksConfirmed && forallb (fun check => classifyStoredCheckStatus check ==? CheckStatusPassed) checks.

(** The loop returns at the first failed check. *)
Fixpoint aggregate (hasPending : bool) (checks : list CheckSummary) : string :=
  match checks with
  | [] => if hasPending then "pending" else "success"
  | check :: checks =>
      if classifyStoredCheckStatus check ==? CheckStatusFailed then "failure"
      else aggregate (hasPending || (classifyStoredCheckStatus check ==? CheckStatusPending)) checks
  end.
Definition deriveAggregateCIStatus : list CheckSummary -> string := aggregate false.

(** normalizeStoredCheckSummaries: failed tests the count knows of and the
    statuses do not are given to the test checks of unknown status. *)
Definition is_failed_test (check : CheckSummary) : bool :=
  (classifyStoredCheckStatus check ==? CheckStatusFailed) && (cs_Category check ==? CheckCategoryTest).
Definition remaining_failed (count : Z) (checks : list CheckSummary) : Z :=
  foldl (fun rest check => if is_failed_test check && (0 <? rest) then rest - 1 else rest) count checks.
Fixpoint fill_unknown (rest : Z) (checks : list CheckSummary) : list CheckSummary :=
  match checks with
  | [] => []
  | check :: checks =>
      if CheckStatus_Validate (cs_Status check) then check :: fill_unknown rest checks
      else if (cs_Category check ==? CheckCategoryTest) && (0 <? rest)
      then check <| cs_Status := CheckStatusFailed |> :: fill_unknown (rest - 1) checks
      else check <| cs_Status := CheckStatusPending |> :: fill_unknown rest checks
  end.
Definition normalizeStoredCheckSummaries (summary : HealthSummary) : HealthSummary :=
  summary <| hs_Checks := fill_unknown (remaining_failed (hs_FailingTestCount summary) (hs_Checks summary)) (hs_Checks summary) |>.

(** ** The summary of an authoritative read *)

(** [strings.Fields] joined with single spaces: [stripWhitespace]. *)
Fixpoint squeeze (pending : bool) (s : list ascii) : list ascii :=
  match s with
  | [] => []
  | a :: s => if is_space a then squeeze pending s
              else (if pending then [" "%char; a] else [a]) ++ match s with [] => [] | b :: _ => squeeze (is_space b) s end
  end.
Definition stripWhitespace (value : string) : string :=
  String.string_of_list_ascii (squeeze false (String.list_ascii_of_string (TrimSpace value))).

(** The three bytes of the ellipsis in UTF-8. *)
Definition ellipsis : string :=
  String.string_of_list_ascii [ascii_of_N 226; ascii_of_N 128; ascii_of_N 166].
Definition truncateText (value : string) (limit : Z) : string :=
  let value := TrimSpace value in
  if (limit <=? 0) || (Z.of_nat (String.length value) <=? limit) then value
  else TrimSpace (String.substring 0 (Z.to_nat limit) value) +:+ ellipsis.
Fixpoint firstNonEmpty (values : list string) : string :=
  match values with
  | [] => ""
  | v :: values => if TrimSpace v <>? "" then v else firstNonEmpty values
  end.

Definition normalizedCheckExternalKey (name fallback : string) : string :=
  let key := normalized name in if key <>? "" then key else fallback.
Definition v2_prefix : string := " check-run-v2:".
Definition checkRunExternalKey (provider name : string) (id : Z) : string :=
  let key := normalizedCheckExternalKey name (pretty id) in
  let provider := normalized provider in
  if provider ==? "" then key else v2_prefix +:+ provider +:+ ":" +:+ key.

(** [now] is the clock when no value is set. *)
Definition firstProviderTimestamp (now : time) (values : list (option time)) : time :=
  default now (head (omap (fun v => match v with Some t => if IsZero t then None else Some t | None => None end) values)).

Definition check_run_name (check : gitHubCheckRun) : string :=
  let name := TrimSpace (cr_Name check) in if name ==? "" then "Check run " +:+ pretty (cr_ID check) else name.
Definition check_run_summary (check : gitHubCheckRun) : CheckSummary :=
  let name := check_run_name check in
  MkCheckSummary name (classifyCheckRunCategory name) (normalizeCheckRunStatus check) (cr_Slug check)
    (firstNonEmpty [cr_DetailsURL check; cr_HTMLURL check])
    (firstNonEmpty [cr_Title check; truncateText (stripWhitespace (cr_OutputSummary check)) 240]).
Definition commit_status_name (status : gitHubCommitStatus) : string :=
  let name := TrimSpace (gs_Context status) in if name ==? "" then "Commit status " +:+ pretty (gs_ID status) else name.
Definition commit_status_summary (status : gitHubCommitStatus) : CheckSummary :=
  let name := commit_status_name status in
  MkCheckSummary name (classifyCheckRunCategory name) (normalizeCommitStatus status) (commitStatusProvider name)
    (gs_TargetURL status) (truncateText (stripWhitespace (gs_Description status)) 240).

Definition state_of (head source key : string) (c : CheckSummary) (sequence : Z) (at_ : time) : CheckState :=
  MkCheckState head source key (cs_Name c) (cs_Category c) (cs_Status c) (cs_Provider c) (cs_DetailsURL c) (cs_Summary c) ""
    sequence at_ 0.
Definition check_run_state (now : time) (head : string) (check : gitHubCheckRun) : CheckState :=
  state_of head CheckSourceCheckRun (checkRunExternalKey (cr_Slug check) (check_run_name check) (cr_ID check))
    (check_run_summary check) (cr_ID check) (firstProviderTimestamp now [cr_CompletedAt check; cr_StartedAt check]).
Definition commit_status_state (now : time) (head : string) (status : gitHubCommitStatus) : CheckState :=
  state_of head CheckSourceCommitStatus (normalizedCheckExternalKey (commit_status_name status) (pretty (gs_ID status)))
    (commit_status_summary status) (gs_ID status) (firstProviderTimestamp now [gs_UpdatedAt status; gs_CreatedAt status]).

Definition failing_tests (checks : list CheckSummary) : Z :=
  Z.of_nat (length (List.filter (fun c => (cs_Category c ==? CheckCategoryTest) && (cs_Status c ==? CheckStatusFailed)) checks)).

(** The summary syncResolvedPullRequestState builds: [checkSetComplete] is
    false when the commit statuses could not be read. *)
Definition sync_summary (mergeable : option bool) (githubState : string) (checkRuns : list gitHubCheckRun)
    (commitStatuses : list gitHubCommitStatus) (checkSetComplete requiredChecksConfigured : bool) : HealthSummary :=
  let checks := (map check_run_summary checkRuns ++ map commit_status_summary commitStatuses)%list in
  let '(state, conflicts) := normalizeMergeState mergeable githubState in
  let s := MkHealthSummary 0 state conflicts (failing_tests checks) false
    (checkSetComplete && determineChecksConfirmed checks requiredChecksConfigured) (Some checkSetComplete) checks in
  s <| hs_NeedsAgentAction := hs_HasConflicts s || healthSummaryHasRepairableFailedChecks s |>.

(** ** Overlaying check webhooks *)

Definition projectedCheckSummaryKey (check : CheckSummary) : string :=
  normalized (cs_Provider check) +:+ String "000" (normalized (cs_Name check)).

Definition projectedStatesAddUnknownChecks (existing : list CheckSummary) (states : list CheckState) : bool :=
  existsb (fun s => negb (existsb (fun c => projectedCheckSummaryKey c ==? projectedCheckSummaryKey (CheckState_CheckSummary s)) existing)) states.

(** [merged[index] = check] at the last position with the key, or an append:
    the map of positions keeps the last of equal keys. *)
Definition has_key (k : string) (l : list CheckSummary) : bool := existsb (fun c => projectedCheckSummaryKey c ==? k) l.
Fixpoint replace_last (k : string) (check : CheckSummary) (l : list CheckSummary) : list CheckSummary :=
  match l with
  | [] => []
  | c :: l => if (projectedCheckSummaryKey c ==? k) && negb (has_key k l) then check :: l else c :: replace_last k check l
  end.
Definition merge_check (merged : list CheckSummary) (state : CheckState) : list CheckSummary :=
  let check := CheckState_CheckSummary state in
  let key := projectedCheckSummaryKey check in
  if has_key key merged then replace_last key check merged else (merged ++ [check])%list.
Definition mergeProjectedCheckSummaries (existing : list CheckSummary) (states : list CheckState) : list CheckSummary :=
  foldl merge_check existing states.

Definition rebuildProjectedHealthSummary (summary : HealthSummary) (states : list CheckState) : HealthSummary :=
  let complete := default true (hs_CheckSetComplete summary) in
  let gap := complete && projectedStatesAddUnknownChecks (hs_Checks summary) states in
  let summary := if gap then summary <| hs_CheckSetComplete := Some false |> else summary in
  let complete := complete && negb gap in
  let summary := summary <| hs_Checks := mergeProjectedCheckSummaries (hs_Checks summary) states |> in
  let summary := summary <| hs_FailingTestCount :=
    Z.of_nat (length (List.filter (fun c => (cs_Category c ==? CheckCategoryTest) && (classifyStoredCheckStatus c ==? CheckStatusFailed))
      (hs_Checks summary))) |> in
  let summary := summary <| hs_ChecksConfirmed := complete && determineChecksConfirmed (hs_Checks summary) false |> in
  summary <| hs_NeedsAgentAction := hs_HasConflicts summary || healthSummaryHasRepairableFailedChecks summary |>.

Definition latestProjectedCheckStateVersion (states : list CheckState) : Z :=
  foldl (fun latest s => if latest <? st_ProjectionVersion s then st_ProjectionVersion s else latest) 0 states.

(** ** What the health allows *)

Record ActiveRepair := MkActiveRepair {
  ar_ActionType : RepairAction; ar_SessionID : uuid; ar_ThreadID : option uuid; ar_HealthVersion : Z; ar_AutoAttempt : bool
}.

Record HealthResponse := MkHealthResponse {
  hr_PullRequestNumber : Z; hr_Repository : string; hr_Status : string; hr_HeadSHA : string; hr_BaseSHA : string;
  hr_HealthVersion : Z; hr_SyncStatus : SyncStatus; hr_RepositoryDisconnected : bool;
  hr_MergeState : string; hr_HasConflicts : bool; hr_FailingTestCount : Z; hr_NeedsAgentAction : bool;
  hr_Checks : list CheckSummary; hr_ChecksConfirmed : bool;
  hr_CanResolveConflicts : bool; hr_CanFixTests : bool; hr_CanMerge : bool;
  hr_ActiveRepairs : list ActiveRepair; hr_Enrichment : option EnrichmentStatus;
  hr_ConflictDetailAvailable : bool; hr_FailingTestDetailAvailable : bool; hr_AutoRepairExhaustedActions : list RepairAction
}.
#[export] Instance eta_HealthResponse : Eta HealthResponse := fun h =>
  MkHealthResponse (hr_PullRequestNumber h) (hr_Repository h) (hr_Status h) (hr_HeadSHA h) (hr_BaseSHA h) (hr_HealthVersion h)
    (hr_SyncStatus h) (hr_RepositoryDisconnected h) (hr_MergeState h) (hr_HasConflicts h) (hr_FailingTestCount h)
    (hr_NeedsAgentAction h) (hr_Checks h) (hr_ChecksConfirmed h) (hr_CanResolveConflicts h) (hr_CanFixTests h) (hr_CanMerge h)
    (hr_ActiveRepairs h) (hr_Enrichment h) (hr_ConflictDetailAvailable h) (hr_FailingTestDetailAvailable h)
    (hr_AutoRepairExhaustedActions h).

Definition derivePullRequestRepairActions (resp : HealthResponse) : HealthResponse :=
  if hr_SyncStatus resp ==? SyncStatusBlocked
  then resp <| hr_CanResolveConflicts := false |> <| hr_CanFixTests := false |> <| hr_CanMerge := false |>
  else resp
    <| hr_CanResolveConflicts := hr_HasConflicts resp || (hr_MergeState resp ==? MergeStateConflicted) |>
    <| hr_CanFixTests := (0 <? hr_FailingTestCount resp) || checkSummariesHaveFailedCheck (hr_Checks resp) |>
    <| hr_CanMerge := (hr_Status resp ==? PullRequestStatusOpen) && (hr_MergeState resp ==? MergeStateClean)
                      && checksAllowMerge (hr_ChecksConfirmed resp) (hr_Checks resp) |>.

(** The new response also carries the repository's metadata and a new text. *)
Definition blockPullRequestHealthSync (resp : HealthResponse) : HealthResponse :=
  resp <| hr_SyncStatus := SyncStatusBlocked |> <| hr_RepositoryDisconnected := true |>
       <| hr_CanResolveConflicts := false |> <| hr_CanFixTests := false |> <| hr_CanMerge := false |>.

Definition buildPRHealthSummaryText (h : HealthResponse) : string :=
  let pr := "PR #" +:+ pretty (hr_PullRequestNumber h) in
  let conflicted := hr_HasConflicts h || (hr_MergeState h ==? MergeStateConflicted) in
  if (hr_SyncStatus h ==? SyncStatusBlocked) && hr_RepositoryDisconnected h then
    pr +:+ " cannot be refreshed because " +:+ hr_Repository h +:+
      " is disconnected from GitHub. Reconnect the repository to update merge status, checks, and close/merge state."
  else if conflicted && (0 <? hr_FailingTestCount h) then
    pr +:+ " is blocked by conflicts and " +:+ pretty (hr_FailingTestCount h) +:+ " failing test jobs."
  else if conflicted then pr +:+ " is blocked by merge conflicts."
  else if hr_MergeState h ==? MergeStateBlocked then pr +:+ " is blocked by GitHub merge requirements."
  else if (hr_MergeState h ==? MergeStateMergeabilityPending) || (hr_MergeState h ==? MergeStateUnknown)
  then pr +:+ " is waiting for GitHub to finish checking mergeability."
  else if hr_MergeState h ==? MergeStateBehind then pr +:+ " needs the base branch updated before merging."
  else if hr_FailingTestCount h =? 1 then pr +:+ " has 1 failing test job."
  else if 1 <? hr_FailingTestCount h then pr +:+ " has " +:+ pretty (hr_FailingTestCount h) +:+ " failing test jobs."
  else if negb (hr_ChecksConfirmed h) then pr +:+ " is waiting for required checks to report passing."
  else match hr_Checks h with
       | [] => pr +:+ " is mergeable. No CI checks are configured for this repository."
       | _ => pr +:+ " is mergeable and all required test checks are passing."
       end.

(** Reason and queueability; the reason is empty when queueable. *)
Definition has_raw_failed (checks : list CheckSummary) : bool := existsb (fun c => cs_Status c ==? CheckStatusFailed) checks.
Definition mergeWhenReadyQueueability (h : HealthResponse) : string * bool :=
  if hr_Status h <>? PullRequestStatusOpen then ("Pull request is no longer open.", false)
  else if hr_HeadSHA h ==? "" then ("Pull request head is not known yet.", false)
  else if match hr_ActiveRepairs h with [] => false | _ => true end
  then ("Wait for the active repair session to finish before enabling merge when ready.", false)
  else if hr_HasConflicts h || hr_CanResolveConflicts h || (hr_MergeState h ==? MergeStateConflicted)
  then ("Resolve conflicts before enabling merge when ready.", false)
  else if (0 <? hr_FailingTestCount h) || hr_CanFixTests h then ("Fix failing checks before enabling merge when ready.", false)
  else if has_raw_failed (hr_Checks h) then ("Fix failing checks before enabling merge when ready.", false)
  else ("", true).

Definition mergeBlockIsTransient (h : HealthResponse) : bool :=
  if hr_HasConflicts h || hr_CanResolveConflicts h || (hr_MergeState h ==? MergeStateConflicted) then false
  else if (0 <? hr_FailingTestCount h) || hr_CanFixTests h then false
  else negb (has_raw_failed (hr_Checks h)).

Definition validateExpectedMergeHead (currentHeadSHA : string) (expectedHeadSHA : option string) : bool :=
  match expectedHeadSHA with
  | None => true
  | Some e => (e ==? "") || (currentHeadSHA ==? e)
  end.

(** selectMergeMethod, on the three flags of a decoded settings response. *)
Inductive MergeMethod := MethodMerge | MethodSquash | MethodRebase.
Record RepoMergeSettings := MkRepoMergeSettings { AllowSquashMerge : option bool; AllowMergeCommit : option bool; AllowRebaseMerge : option bool }.
Definition hasAnyMergeFlagSet (s : RepoMergeSettings) : bool :=
  negb (is_null (AllowSquashMerge s)) || negb (is_null (AllowMergeCommit s)) || negb (is_null (AllowRebaseMerge s)).
Definition selectMergeMethod (s : RepoMergeSettings) : option MergeMethod :=
  if negb (hasAnyMergeFlagSet s) then Some MethodMerge
  else if default false (AllowSquashMerge s) then Some MethodSquash
  else if default false (AllowMergeCommit s) then Some MethodMerge
  else if default false (AllowRebaseMerge s) then Some MethodRebase
  else None.

(** ** Automatic repair *)

Record autoRepairPolicy := MkAutoRepairPolicy { ap_ResolveConflicts : bool; ap_FixTests : bool }.
Inductive Preference := PreferenceOn | PreferenceOff | PreferenceInherit.
Definition applyAutoRepairPreference (orgDefault : bool) (pref : Preference) : bool :=
  match pref with PreferenceOn => true | PreferenceOff => false | PreferenceInherit => orgDefault end.
Definition chooseAutoRepairAction (policy : autoRepairPolicy) (h : HealthResponse) : option RepairAction :=
  if ap_ResolveConflicts policy && hr_CanResolveConflicts h then Some ResolveConflicts
  else if ap_FixTests policy && hr_CanFixTests h then Some FixTests
  else None.
