(* ===== verification/PrStore.v ===== *)
(** * The pull request store

    internal/db/pull_requests.go, pull_request_health.go,
    pull_request_health_sync.go and pull_request_checks.go, for the rows of one
    pull request: every statement is restricted to its id and organisation, and
    the writers of health and checks serialize on its row lock, so an operation
    is one step.  The sequence of projection versions is shared by all pull
    requests. *)

From S2P Require Import Prelude GoRuntime Sql PrHealth.
From stdpp Require Import base option list strings sorting gmap.
From Stdlib Require Import Ascii.

Open Scope string_scope.
Open Scope Z_scope.

(** ** Rows *)

Inductive MergeWhenReadyState := MWROff | MWRQueued | MWRMerging | MWRSucceeded | MWRFailed | MWRCancelled.
#[export] Instance MergeWhenReadyState_eq_dec : EqDecision MergeWhenReadyState.
Proof. solve_decision. Defined.

Record PullRequest := MkPullRequest {
  pr_Number : Z; pr_Repo : string; pr_SessionID : option uuid; pr_ChangesetID : option uuid;
  pr_Status : string; pr_CIStatus : string; pr_HeadSHA : option string; pr_BaseSHA : option string;
  pr_MergeState : string; pr_HasConflicts : bool; pr_FailingTestCount : Z; pr_NeedsAgentAction : bool;
  pr_GitHubStateSyncedAt : option time; pr_HealthVersion : Z;
  pr_MWRState : MergeWhenReadyState; pr_MWRRequestedBy : option uuid; pr_MWRRequestedAt : option time; pr_MWRHeadSHA : string;
  pr_MWRHealthVersion : option Z; pr_MWRError : string; pr_MWRUpdatedAt : option time;
  pr_MergedAt : option time; pr_UpdatedAt : time
}.
#[export] Instance eta_PullRequest : Eta PullRequest := fun p =>
  MkPullRequest (pr_Number p) (pr_Repo p) (pr_SessionID p) (pr_ChangesetID p) (pr_Status p) (pr_CIStatus p) (pr_HeadSHA p) (pr_BaseSHA p)
    (pr_MergeState p) (pr_HasConflicts p) (pr_FailingTestCount p) (pr_NeedsAgentAction p) (pr_GitHubStateSyncedAt p)
    (pr_HealthVersion p) (pr_MWRState p) (pr_MWRRequestedBy p) (pr_MWRRequestedAt p) (pr_MWRHeadSHA p) (pr_MWRHealthVersion p)
    (pr_MWRError p) (pr_MWRUpdatedAt p) (pr_MergedAt p) (pr_UpdatedAt p).

(** A stored [summary_json]: it decodes, or only the sync version can be read
    off it, or nothing. *)
Inductive SummaryDoc := Decodes (s : HealthSummary) | Broken (syncVersion : option Z).

Record HealthCurrent := MkHealthCurrent {
  hc_Version : Z; hc_HeadSHA : string; hc_BaseSHA : string; hc_Summary : SummaryDoc; hc_Preview : SummaryDoc;
  hc_Enrichment : EnrichmentStatus; hc_EnrichedAt : option time; hc_CheckStateVersion : Z
}.
#[export] Instance eta_HealthCurrent : Eta HealthCurrent := fun c =>
  MkHealthCurrent (hc_Version c) (hc_HeadSHA c) (hc_BaseSHA c) (hc_Summary c) (hc_Preview c) (hc_Enrichment c) (hc_EnrichedAt c)
    (hc_CheckStateVersion c).

Record HealthSnapshot := MkHealthSnapshot {
  sn_Version : Z; sn_HeadSHA : string; sn_BaseSHA : string; sn_Summary : HealthSummary; sn_Enrichment : EnrichmentStatus;
  sn_EnrichedAt : option time; sn_HasConflictPayload : bool; sn_HasFailingTestsPayload : bool
}.
#[export] Instance eta_HealthSnapshot : Eta HealthSnapshot := fun s =>
  MkHealthSnapshot (sn_Version s) (sn_HeadSHA s) (sn_BaseSHA s) (sn_Summary s) (sn_Enrichment s) (sn_EnrichedAt s)
    (sn_HasConflictPayload s) (sn_HasFailingTestsPayload s).

Record RepairRun := MkRepairRun {
  rr_ID : uuid; rr_SessionID : uuid; rr_ThreadID : option uuid; rr_ActionType : RepairAction; rr_HealthVersion : Z;
  rr_HeadSHA : option string; rr_AutoAttempt : bool; rr_Active : bool; rr_ObsoletedByVersion : option Z; rr_CreatedAt : time
}.
#[export] Instance eta_RepairRun : Eta RepairRun := fun r =>
  MkRepairRun (rr_ID r) (rr_SessionID r) (rr_ThreadID r) (rr_ActionType r) (rr_HealthVersion r) (rr_HeadSHA r) (rr_AutoAttempt r)
    (rr_Active r) (rr_ObsoletedByVersion r) (rr_CreatedAt r).

(** The row of [code_review_pull_request_lifecycle_observations]. *)
Record Lifecycle := MkLifecycle { lc_merged : bool; lc_mergedAt : option time; lc_terminal : bool; lc_observedAt : time }.

Record PRStore := MkPRStore {
  s_pr : PullRequest; s_current : option HealthCurrent; s_snapshots : list HealthSnapshot; s_checks : list CheckState;
  s_repairs : list RepairRun; s_lifecycle : option Lifecycle; s_seq : Z
}.
#[export] Instance eta_PRStore : Eta PRStore := fun s =>
  MkPRStore (s_pr s) (s_current s) (s_snapshots s) (s_checks s) (s_repairs s) (s_lifecycle s) (s_seq s).

(** ** Check states *)

(** [lower(btrim(x))]: SQL trims spaces only. *)
Fixpoint drop_blanks (s : list Ascii.ascii) : list Ascii.ascii :=
  match s with
  | a :: s' => if bool_decide (a = " "%char) then drop_blanks s' else s
  | [] => []
  end.
Definition btrim (s : string) : string :=
  String.string_of_list_ascii (rev (drop_blanks (rev (drop_blanks (String.list_ascii_of_string s))))).
Definition lower_btrim (s : string) : string := ToLower (btrim s).

Definition is_v2 (key : string) : bool := String.prefix v2_prefix key.

(** [ORDER BY provider_sequence DESC, provider_updated_at DESC,
    projection_version DESC]: whether [a] comes strictly before [b]. *)
Definition newer_event (old new_ : CheckState) : bool :=
  (st_ProviderSequence old <? st_ProviderSequence new_)
  || ((st_ProviderSequence old =? st_ProviderSequence new_) && (st_ProviderUpdatedAt old <? st_ProviderUpdatedAt new_)).
Definition comes_before (a b : CheckState) : bool :=
  newer_event b a
  || ((st_ProviderSequence a =? st_ProviderSequence b) && (st_ProviderUpdatedAt a =? st_ProviderUpdatedAt b)
      && (st_ProjectionVersion b <? st_ProjectionVersion a)).
Definition first_by (rows : list CheckState) : option CheckState :=
  foldl (fun acc r => match acc with None => Some r | Some best => if comes_before r best then Some r else acc end) None rows.

(** The [selected_key] common table expression. *)
Definition key_candidate (state row : CheckState) : bool :=
  (st_HeadSHA row ==? st_HeadSHA state) && (st_Source row ==? st_Source state)
  && ((st_ExternalKey row ==? st_ExternalKey state)
      || ((st_Source state ==? CheckSourceCheckRun) && is_v2 (st_ExternalKey state)
          && (st_ExternalKey row ==? ToLower (TrimSpace (st_Name state)))
          && (lower_btrim (st_Provider row) ==? lower_btrim (st_Provider state)))).
Definition selected_key (state : CheckState) (rows : list CheckState) : string :=
  match first_by (List.filter (key_candidate state) rows) with Some r => st_ExternalKey r | None => st_ExternalKey state end.

(** The conflict of the primary key, and the ordered upsert: the row it
    inserts carries [version], an update [version']. *)
Definition same_row (head source key : string) (row : CheckState) : bool :=
  (st_HeadSHA row ==? head) && (st_Source row ==? source) && (st_ExternalKey row ==? key).
Definition upsert_check (version version' : Z) (state : CheckState) (rows : list CheckState) : list CheckState :=
  let key := selected_key state rows in
  let conflict := same_row (st_HeadSHA state) (st_Source state) key in
  if exists_row conflict rows
  then update (fun row => conflict row && newer_event row state)
         (fun row => state <| st_ExternalKey := key |> <| st_ProjectionVersion := version' |>) rows
  else (rows ++ [state <| st_ExternalKey := key |> <| st_ProjectionVersion := version |>])%list.

Definition validatePullRequestCheckState (headSHA : string) (state : CheckState) : bool :=
  (TrimSpace headSHA <>? "") && (st_HeadSHA state ==? headSHA) && CheckSource_Validate (st_Source state)
  && (TrimSpace (st_ExternalKey state) <>? "") && (TrimSpace (st_Name state) <>? "")
  && CheckCategory_Validate (st_Category state) && CheckStatus_Validate (st_Status state)
  && negb (IsZero (st_ProviderUpdatedAt state)).

(** The same event again: every column but the projection version. *)
Definition same_event (key : string) (state row : CheckState) : bool :=
  row <| st_ProjectionVersion := 0 |> ==? state <| st_ExternalKey := key |> <| st_ProjectionVersion := 0 |>.

(** [nextval] runs for the default of the proposed row and again for an
    update. *)
Definition UpsertCheckState (state : CheckState) (s : PRStore) : result (PRStore * bool) :=
  if negb (validatePullRequestCheckState (st_HeadSHA state) state) then Err "invalid pull request check state"
  else
    let key := selected_key state (s_checks s) in
    let conflict := same_row (st_HeadSHA state) (st_Source state) key in
    let inserts := negb (exists_row conflict (s_checks s)) in
    let updates := exists_row (fun row => conflict row && newer_event row state) (s_checks s) in
    let rows := upsert_check (s_seq s + 1) (s_seq s + 2) state (s_checks s) in
    Ok (s <| s_checks := rows |> <| s_seq := if updates then s_seq s + 2 else s_seq s + 1 |>,
        inserts || updates || exists_row (same_event key state) (s_checks s)).

Definition ReserveCheckStateVersion (s : PRStore) : PRStore * Z := (s <| s_seq := s_seq s + 1 |>, s_seq s + 1).

Definition ReconcileCheckStates (headSHA : string) (version : Z) (states : list CheckState) (s : PRStore) : result PRStore :=
  if negb (forallb (validatePullRequestCheckState headSHA) states) then Err "invalid pull request check state"
  else
    let kept := List.filter (fun row => st_HeadSHA row ==? headSHA) (s_checks s) in
    Ok (s <| s_checks := foldl (fun rows state => upsert_check version version state rows) kept states |>).

(** [regexp_replace(external_key, '^ check-run-v2:[^:]+:', '')]. *)
Fixpoint after_colon (some : bool) (s : string) : option string :=
  match s with
  | EmptyString => None
  | String a s => if bool_decide (a = ":"%char) then (if some then Some s else None) else after_colon true s
  end.
Definition strip_v2 (key : string) : string :=
  if is_v2 key
  then default key (after_colon false (String.substring (String.length v2_prefix) (String.length key) key))
  else key.
Definition logical_check (row : CheckState) : string * string * string :=
  (st_Source row, lower_btrim (st_Provider row),
   if st_Source row ==? CheckSourceCheckRun then strip_v2 (st_ExternalKey row) else st_ExternalKey row).
Definition aliases (row : CheckState) (rows : list CheckState) : list CheckState :=
  List.filter (fun r => logical_check r ==? logical_check row) rows.
Definition alias_version (rows : list CheckState) : Z := foldl (fun m r => Z.max m (st_ProjectionVersion r)) 0 rows.

(** [row_le] is the database's order of [lower(name), source, external_key]. *)
Definition ListCheckStatesAfter (row_le : CheckState -> CheckState -> bool) (headSHA : string) (afterVersion : Z) (s : PRStore)
    : list CheckState :=
  let rows := List.filter (fun r => st_HeadSHA r ==? headSHA) (s_checks s) in
  merge_sort (fun a b => Is_true (row_le a b))
    (omap (fun r => let group := aliases r rows in
       if bool_decide (first_by group = Some r) && (afterVersion <? alias_version group)
       then Some (r <| st_ProjectionVersion := alias_version group |>) else None) rows).

Definition HasCheckStatesAfter (headSHA : string) (afterVersion : Z) (s : PRStore) : bool :=
  exists_row (fun r => (st_HeadSHA r ==? headSHA) && (afterVersion <? st_ProjectionVersion r)) (s_checks s).

(** ** Health *)

(** healthSummaryJSONEqual ignores the sync version. *)
Definition doc_equal (a : SummaryDoc) (b : HealthSummary) : bool :=
  match a with
  | Decodes s => s <| hs_GitHubSyncVersion := 0 |> ==? b <| hs_GitHubSyncVersion := 0 |>
  | Broken _ => false
  end.

Record ProjectedHealthSummaryOptions := MkProjectedOptions {
  po_ExpectedHealthVersion : Z; po_ExpectedHeadSHA : string; po_ExpectedCheckStateVersion : Z; po_AppliedCheckStateVersion : Z
}.

Definition obsolete_repairs (version : Z) (headSHA : string) (l : list RepairRun) : list RepairRun :=
  update (fun r => rr_Active r && (rr_HealthVersion r <? version) && negb (rr_HeadSHA r ==? Some headSHA))
    (fun r => r <| rr_Active := false |> <| rr_ObsoletedByVersion := Some version |>) l.

(** The writer under the row lock; [expected] is the compare-and-set of a
    projection.  The result says whether it was applied and whether the
    version moved. *)
Definition upsertHealthSummary (now : time) (headSHA baseSHA : string) (summary : HealthSummary) (markGitHubSynced : bool)
    (checkStateVersion : Z) (expected : option ProjectedHealthSummaryOptions) (s : PRStore)
    : result (PRStore * option HealthCurrent * bool * bool) :=
  let existing := s_current s in
  let refused := match expected with
    | None => false
    | Some e => match existing with
        | None => true
        | Some c => negb (hc_Version c =? po_ExpectedHealthVersion e) || (hc_HeadSHA c <>? po_ExpectedHeadSHA e)
                    || negb (hc_CheckStateVersion c =? po_ExpectedCheckStateVersion e)
                    || (default "" (pr_HeadSHA (s_pr s)) <>? po_ExpectedHeadSHA e)
                    || negb (pr_HealthVersion (s_pr s) =? po_ExpectedHealthVersion e)
        end
    end in
  if refused then Ok (s, existing, false, false)
  else
    let unchanged := match existing with
      | Some c => (hc_HeadSHA c ==? headSHA) && (hc_BaseSHA c ==? baseSHA) && doc_equal (hc_Summary c) summary
                  && doc_equal (hc_Preview c) summary
      | None => false
      end in
    let version := match existing with Some c => if unchanged then hc_Version c else hc_Version c + 1 | None => 1 end in
    let '(enrichment, enrichedAt) := match existing with
      | Some c => if unchanged then (hc_Enrichment c, hc_EnrichedAt c) else (EnrichmentNotRequested, None)
      | None => (EnrichmentNotRequested, None)
      end in
    if negb unchanged && exists_row (fun sn => sn_Version sn =? version) (s_snapshots s)
    then Err "insert pull request health snapshot"
    else
      let current := MkHealthCurrent version headSHA baseSHA (Decodes summary) (Decodes summary) enrichment enrichedAt checkStateVersion in
      let s := if unchanged then s else s
        <| s_snapshots := (s_snapshots s ++ [MkHealthSnapshot version headSHA baseSHA summary EnrichmentNotRequested None false false])%list |>
        <| s_repairs := obsolete_repairs version headSHA (s_repairs s) |> in
      let s := s <| s_current := Some current |>
        <| s_pr := (s_pr s) <| pr_HeadSHA := Some headSHA |> <| pr_BaseSHA := Some baseSHA |> <| pr_MergeState := hs_MergeState summary |>
             <| pr_HasConflicts := hs_HasConflicts summary |> <| pr_FailingTestCount := hs_FailingTestCount summary |>
             <| pr_NeedsAgentAction := hs_NeedsAgentAction summary |>
             <| pr_GitHubStateSyncedAt := if markGitHubSynced then Some now else pr_GitHubStateSyncedAt (s_pr s) |>
             <| pr_HealthVersion := version |> <| pr_UpdatedAt := now |> |> in
      Ok (s, Some current, true, negb unchanged).

Definition UpsertProjectedHealthSummary (now : time) (headSHA baseSHA : string) (summary : HealthSummary)
    (o : ProjectedHealthSummaryOptions) (s : PRStore) : result (PRStore * option HealthCurrent * bool * bool) :=
  if po_AppliedCheckStateVersion o <? po_ExpectedCheckStateVersion o
  then Err "applied check state version cannot precede expected version"
  else upsertHealthSummary now headSHA baseSHA summary false (po_AppliedCheckStateVersion o) (Some o) s.

Record HealthSyncSnapshot := MkHealthSyncSnapshot {
  ss_ExpectedHeadSHA : string; ss_ExpectedBaseSHA : string; ss_HeadSHA : string; ss_BaseSHA : string; ss_CheckStateVersion : Z;
  ss_Checks : list CheckState; ss_Summary : HealthSummary; ss_CIStatus : string
}.

Definition doc_sync_version (d : SummaryDoc) : Z :=
  match d with Decodes s => hs_GitHubSyncVersion s | Broken v => default 0 v end.
Definition sync_version (s : PRStore) : Z := match s_current s with Some c => doc_sync_version (hc_Summary c) | None => 0 end.

(** Whether the read is still about the row: it is open, on the head and base
    the read began with or ended at, and no later read was applied. *)
Definition sync_admissible (snap : HealthSyncSnapshot) (s : PRStore) : bool :=
  let head := default "" (pr_HeadSHA (s_pr s)) in
  let base := default "" (pr_BaseSHA (s_pr s)) in
  negb ((pr_Status (s_pr s) <>? PullRequestStatusOpen)
        || ((head <>? ss_ExpectedHeadSHA snap) && (head <>? ss_HeadSHA snap))
        || ((base <>? ss_ExpectedBaseSHA snap) && (base <>? ss_BaseSHA snap))
        || (ss_CheckStateVersion snap <? sync_version s)).

Definition ApplyHealthSync (now : time) (snap : HealthSyncSnapshot) (s : PRStore) : result (PRStore * bool) :=
  if negb (sync_admissible snap s) then Ok (s, false)
  else
    let? s := ReconcileCheckStates (ss_HeadSHA snap) (ss_CheckStateVersion snap) (ss_Checks snap) s in
    let summary := (ss_Summary snap) <| hs_GitHubSyncVersion := ss_CheckStateVersion snap |> in
    let? (s, _, _, _) := upsertHealthSummary now (ss_HeadSHA snap) (ss_BaseSHA snap) summary true (ss_CheckStateVersion snap) None s in
    Ok (s <| s_pr := (s_pr s) <| pr_CIStatus := ss_CIStatus snap |> |>, true).

Definition UpdateHealthEnrichment (now : time) (version : Z) (conflict tests : bool) (status : EnrichmentStatus) (s : PRStore) : PRStore :=
  s <| s_snapshots := update (fun sn => sn_Version sn =? version)
         (fun sn => sn <| sn_HasConflictPayload := conflict |> <| sn_HasFailingTestsPayload := tests |>
                       <| sn_Enrichment := status |> <| sn_EnrichedAt := Some now |>) (s_snapshots s) |>
    <| s_current := match s_current s with
         | Some c => if hc_Version c =? version then Some (c <| hc_Enrichment := status |> <| hc_EnrichedAt := Some now |>) else Some c
         | None => None
         end |>.

(** ** The row *)

Definition UpdateStatus (now : time) (status : string) (s : PRStore) : PRStore :=
  s <| s_pr := (if status ==? PullRequestStatusMerged then (s_pr s) <| pr_MergedAt := Some now |> else s_pr s)
                 <| pr_Status := status |> <| pr_UpdatedAt := now |> |>.

Definition UpdateMergedStatus (now mergedAt : time) (s : PRStore) : result PRStore :=
  if IsZero mergedAt then Err "merged_at is required"
  else Ok (s <| s_pr := (s_pr s) <| pr_Status := PullRequestStatusMerged |> <| pr_MergedAt := Some mergedAt |> <| pr_UpdatedAt := now |> |>).

(** An observation is recorded, and the row follows it, unless a later one was;
    a repair of a missed reopen is also fenced by the row it was read from. *)
Definition recordPullRequestLifecycle (now : time) (l : Lifecycle) (expectedUpdatedAt : option time) (s : PRStore) : PRStore * bool :=
  let fenced := match expectedUpdatedAt with
    | Some t => (pr_Status (s_pr s) ==? PullRequestStatusClosed) && (pr_UpdatedAt (s_pr s) =? t)
    | None => true
    end in
  let later := match s_lifecycle s with Some o => lc_observedAt l <? lc_observedAt o | None => false end in
  if negb fenced || later then (s, false)
  else (s <| s_lifecycle := Some l |>
          <| s_pr := (s_pr s)
               <| pr_Status := if lc_terminal l then (if lc_merged l then PullRequestStatusMerged else PullRequestStatusClosed)
                               else PullRequestStatusOpen |>
               <| pr_MergedAt := if lc_merged l then lc_mergedAt l else None |> <| pr_UpdatedAt := now |> |>, true).

Definition ReopenIfUnchanged (now expectedUpdatedAt observedAt : time) (s : PRStore) : PRStore * bool :=
  recordPullRequestLifecycle now (MkLifecycle false None false observedAt) (Some expectedUpdatedAt) s.

Definition UpdateCIStatus (now : time) (ci : string) (s : PRStore) : PRStore :=
  s <| s_pr := (s_pr s) <| pr_CIStatus := ci |> <| pr_UpdatedAt := now |> |>.

Definition UpdateHeadSHA (now : time) (headSHA : string) (s : PRStore) : PRStore :=
  s <| s_pr := (s_pr s) <| pr_HeadSHA := Some headSHA |> <| pr_GitHubStateSyncedAt := None |> <| pr_HealthVersion := 0 |>
         <| pr_MergeState := MergeStateUnknown |> <| pr_HasConflicts := false |> <| pr_FailingTestCount := 0 |>
         <| pr_NeedsAgentAction := false |> <| pr_UpdatedAt := now |> |>.


(** The columns that were derived from another head or base. *)
Definition stale_health (p : PullRequest) : PullRequest :=
  p <| pr_GitHubStateSyncedAt := None |> <| pr_HealthVersion := 0 |> <| pr_MergeState := MergeStateUnknown |> <| pr_HasConflicts := false |>
    <| pr_FailingTestCount := 0 |> <| pr_NeedsAgentAction := false |>.
Definition UpdateGitHubSnapshot (now : time) (headSHA baseSHA : option string) (s : PRStore) : PRStore :=
  let p := s_pr s in
  let moved := (pr_HeadSHA p <>? headSHA) || (pr_BaseSHA p <>? baseSHA) in
  s <| s_pr := (if moved then stale_health p else p) <| pr_HeadSHA := headSHA |> <| pr_BaseSHA := baseSHA |> <| pr_UpdatedAt := now |> |>.

(** The conflict of the insert with this row. *)
Definition AssociateGitHubPullRequest (now : time) (sessionID changesetID : uuid) (status : string) (headSHA baseSHA : option string)
    (s : PRStore) : result PRStore :=
  let p := s_pr s in
  if (sessionID ==? uuid_Nil) || (changesetID ==? uuid_Nil) then Err "pull request association requires session and changeset IDs"
  else if is_null (pr_SessionID p)
          || (col_is (pr_SessionID p) sessionID && (is_null (pr_ChangesetID p) || col_is (pr_ChangesetID p) changesetID))
  then Ok (s <| s_pr := p <| pr_SessionID := coalesce (pr_SessionID p) sessionID |>
                         <| pr_ChangesetID := coalesce (pr_ChangesetID p) changesetID |> <| pr_Status := status |>
                         <| pr_HeadSHA := match headSHA with Some h => Some h | None => pr_HeadSHA p end |>
                         <| pr_BaseSHA := match baseSHA with Some b => Some b | None => pr_BaseSHA p end |> <| pr_UpdatedAt := now |> |>)
  else Err "no rows in result set".

(** ** Merge when ready *)

Definition set_mwr (now : time) (state : MergeWhenReadyState) (error : string) (p : PullRequest) : PullRequest :=
  p <| pr_MWRState := state |> <| pr_MWRError := error |> <| pr_MWRUpdatedAt := Some now |> <| pr_UpdatedAt := now |>.

Definition QueueMergeWhenReady (now : time) (userID : uuid) (headSHA : string) (healthVersion : Z) (s : PRStore) : result PRStore :=
  let p := s_pr s in
  if match pr_MWRState p with MWROff | MWRQueued | MWRFailed | MWRCancelled => true | _ => false end
  then Ok (s <| s_pr := (set_mwr now MWRQueued "" p) <| pr_MWRRequestedBy := Some userID |> <| pr_MWRRequestedAt := Some now |>
                          <| pr_MWRHeadSHA := headSHA |> <| pr_MWRHealthVersion := Some healthVersion |> |>)
  else Err "no rows in result set".

Definition CancelMergeWhenReady (now : time) (s : PRStore) : result PRStore :=
  if match pr_MWRState (s_pr s) with MWRQueued | MWRFailed | MWRCancelled => true | _ => false end
  then Ok (s <| s_pr := set_mwr now MWRCancelled "" (s_pr s) |>) else Err "no rows in result set".

Definition ClaimMergeWhenReadyForProcessing (now staleBefore : time) (s : PRStore) : PRStore * bool :=
  let p := s_pr s in
  if (pr_MWRState p ==? MWRQueued) || ((pr_MWRState p ==? MWRMerging) && col_lt (pr_MWRUpdatedAt p) staleBefore)
  then (s <| s_pr := set_mwr now MWRMerging "" p |>, true) else (s, false).

Definition ReleaseMergeWhenReadyClaim (now : time) (s : PRStore) : PRStore :=
  if pr_MWRState (s_pr s) ==? MWRMerging then s <| s_pr := set_mwr now MWRQueued "" (s_pr s) |> else s.

Definition markMergeWhenReadyTerminal (now : time) (state : MergeWhenReadyState) (reason : string) (s : PRStore) : PRStore :=
  s <| s_pr := set_mwr now state reason (s_pr s) |>.
Definition MarkMergeWhenReadySucceeded (now : time) := markMergeWhenReadyTerminal now MWRSucceeded "".
Definition MarkMergeWhenReadyFailed (now : time) (reason : string) := markMergeWhenReadyTerminal now MWRFailed reason.

(** ** Repair runs *)

Definition ListActiveRepairRunsByHead (headSHA : string) (s : PRStore) : list RepairRun :=
  select (fun r => col_is (rr_HeadSHA r) headSHA && rr_Active r) (s_repairs s).
Definition ListActiveRepairRuns (healthVersion : Z) (s : PRStore) : list RepairRun :=
  select (fun r => (rr_HealthVersion r =? healthVersion) && rr_Active r) (s_repairs s).
Definition CountAutoRepairAttemptsByHead (headSHA : string) (action : RepairAction) (s : PRStore) : Z :=
  count_rows (fun r => col_is (rr_HeadSHA r) headSHA && (rr_ActionType r ==? action) && rr_AutoAttempt r) (s_repairs s).

(** The two partial unique indexes on active runs. *)
Definition repair_conflict (run r : RepairRun) : bool :=
  rr_Active r && rr_Active run && (rr_ActionType r ==? rr_ActionType run)
  && ((rr_HealthVersion r =? rr_HealthVersion run)
      || match rr_HeadSHA run with Some h => col_is (rr_HeadSHA r) h | None => false end).
Definition CreateRepairRun (run : RepairRun) (s : PRStore) : result PRStore :=
  if exists_row (repair_conflict run) (s_repairs s) then Err "unique active repair run"
  else Ok (s <| s_repairs := (s_repairs s ++ [run])%list |>).
Definition DeactivateRepairRun (id : uuid) (s : PRStore) : PRStore :=
  s <| s_repairs := update (fun r => rr_ID r ==? id) (fun r => r <| rr_Active := false |>) (s_repairs s) |>.
