(* ===== verification/PrStoreProperties.v ===== *)
(** * What the pull request store guarantees

    Check webhooks arrive in any order, more than once, and while an
    authoritative read of GitHub is in flight: the stored checks do not depend
    on the order, a slow read never undoes a later one or a webhook that raced
    it, and the numbered health snapshots never collide. *)

From S2P Require Import Prelude GoRuntime Sql PrHealth PrStore.
From stdpp Require Import base option list strings sorting gmap.

Open Scope string_scope.
Open Scope Z_scope.

(** ** The order of provider events *)

Lemma newer_irrefl a : newer_event a a = false.
Proof. unfold newer_event. by rewrite Z.ltb_irrefl, Z.eqb_refl, Z.ltb_irrefl. Qed.

Ltac newer_cases := unfold newer_event in *;
  repeat match goal with
  | H : (_ || _) = true |- _ => apply orb_true_iff in H
  | H : _ \/ _ |- _ => destruct H
  | H : (_ =? _) = true |- _ => apply Z.eqb_eq in H
  | H : (_ =? _) = false |- _ => apply Z.eqb_neq in H
  | H : (_ && _) = false |- _ => apply andb_false_iff in H
  end; reflect_bools.

Lemma newer_iff a b : newer_event a b = true <->
  st_ProviderSequence a < st_ProviderSequence b
  \/ (st_ProviderSequence a = st_ProviderSequence b /\ st_ProviderUpdatedAt a < st_ProviderUpdatedAt b).
Proof. unfold newer_event. rewrite orb_true_iff, andb_true_iff, !Z.ltb_lt, Z.eqb_eq. tauto. Qed.
Lemma not_newer_iff a b : newer_event a b = false <->
  st_ProviderSequence b < st_ProviderSequence a
  \/ (st_ProviderSequence a = st_ProviderSequence b /\ st_ProviderUpdatedAt b <= st_ProviderUpdatedAt a).
Proof. rewrite <- not_true_iff_false, newer_iff. lia. Qed.

Lemma not_newer_trans a b c : newer_event a b = false -> newer_event b c = false -> newer_event a c = false.
Proof. rewrite !not_newer_iff. lia. Qed.
Lemma newer_not_newer a b c : newer_event a b = true -> newer_event a c = false -> newer_event b c = false.
Proof. rewrite newer_iff, !not_newer_iff. lia. Qed.

(** ** Upserts *)

Definition pk (r : CheckState) : string * string * string := (st_HeadSHA r, st_Source r, st_ExternalKey r).
Definition content (r : CheckState) : CheckState := r <| st_ProjectionVersion := 0 |>.

Lemma content_order x a : content x = content a ->
  st_ProviderSequence x = st_ProviderSequence a /\ st_ProviderUpdatedAt x = st_ProviderUpdatedAt a.
Proof. intros E. split; [exact (f_equal st_ProviderSequence E)|exact (f_equal st_ProviderUpdatedAt E)]. Qed.
Lemma content_tie x a : content x = content a -> newer_event x a = false /\ newer_event a x = false.
Proof. intros [Es Eu]%content_order. rewrite !not_newer_iff. lia. Qed.

Lemma same_row_pk h s k r : same_row h s k r = true <-> pk r = (h, s, k).
Proof.
  unfold same_row, pk. split.
  - intros H. reflect_bools. by subst.
  - intros [= -> -> ->]. by rewrite !bool_decide_eq_true_2.
Qed.

Lemma first_by_in rows r : first_by rows = Some r -> In r rows.
Proof.
  unfold first_by. set (f := fun _ _ => _).
  enough (H : forall rows acc, foldl f acc rows = Some r -> acc = Some r \/ In r rows).
  { intros E. by destruct (H _ _ E). }
  clear rows. induction rows as [|x rows IH]; intros acc E; simpl in *; [by left|].
  destruct (IH _ E) as [Ha|Hi]; [|auto]. subst f. simpl in Ha. destruct acc as [b|]; [destruct (comes_before x b)|]; simplify_eq; auto.
Qed.

Lemma selected_key_plain st rows : is_v2 (st_ExternalKey st) = false -> selected_key st rows = st_ExternalKey st.
Proof.
  intros Hv. unfold selected_key. destruct (first_by _) as [r|] eqn:E; [|done].
  apply first_by_in in E. apply in_filter_iff in E as [_ E]. unfold key_candidate in E. rewrite Hv, andb_false_r in E.
  simpl in E. rewrite orb_false_r in E. by reflect_bools.
Qed.

Section Upsert.
Context (v v' : Z) (st : CheckState) (rows : list CheckState).
Abbreviation key := (selected_key st rows).
Abbreviation written w := (st <| st_ExternalKey := key |> <| st_ProjectionVersion := w |>).

(** Where a row of the result comes from. *)
Lemma upsert_from r : In r (upsert_check v v' st rows) ->
  In r rows \/ (r = written v /\ exists_row (same_row (st_HeadSHA st) (st_Source st) key) rows = false)
  \/ (r = written v' /\ exists old, In old rows /\ newer_event old st = true /\ pk old = pk r).
Proof.
  unfold upsert_check. destruct (exists_row _ rows) eqn:E.
  - intros (r0 & Hin & [[Hp ->]|[Hp ->]])%in_update; [right; right|by left]. apply andb_true_iff in Hp as [Hs Hn].
    split; [done|]. exists r0. split; [done|]. split; [done|]. apply same_row_pk in Hs. by rewrite Hs.
  - intros [H|[<-|[]]]%in_app_or; [by left|]. right. left. done.
Qed.

(** Where a row of the table goes. *)
Lemma upsert_keeps r : In r rows -> In r (upsert_check v v' st rows) \/
  (newer_event r st = true /\ pk r = (st_HeadSHA st, st_Source st, key) /\ In (written v') (upsert_check v v' st rows)).
Proof.
  intros Hin. unfold upsert_check. destruct (exists_row _ rows); [|left; apply in_or_app; by left].
  destruct (same_row (st_HeadSHA st) (st_Source st) key r && newer_event r st) eqn:E.
  - right. apply andb_true_iff in E as [Hs Hn]. split; [done|]. split; [by apply same_row_pk|].
    apply in_update. exists r. rewrite Hs, Hn. auto.
  - left. apply in_update. exists r. rewrite E. auto.
Qed.

Lemma upsert_keys : List.NoDup (map pk rows) -> List.NoDup (map pk (upsert_check v v' st rows)).
Proof.
  intros Hnd. unfold upsert_check. destruct (exists_row _ rows) eqn:E.
  - replace (map pk (update _ _ rows)) with (map pk rows); [done|]. unfold update. rewrite map_map. apply map_ext_in.
    intros r _. destruct (same_row _ _ _ r && newer_event r st) eqn:Hp; [|done]. apply andb_true_iff in Hp as [Hs _].
    apply same_row_pk in Hs. by rewrite Hs.
  - rewrite map_app. apply List.NoDup_app; [done|repeat constructor; by intros []|].
    intros k Hk [<-|[]]. apply in_map_iff in Hk as (r & Hr & Hin).
    pose proof (exists_row_none _ _ r E Hin) as Hs. apply not_true_iff_false in Hs. apply Hs, same_row_pk. by rewrite Hr.
Qed.
End Upsert.

(** ** Webhooks commute *)

Definition stored (k : string * string * string) (rows : list CheckState) : option CheckState :=
  List.find (fun r => bool_decide (pk r = k)) rows.

Lemma stored_in k rows r : stored k rows = Some r -> In r rows /\ pk r = k.
Proof. unfold stored. intros [Hi Hb]%List.find_some. by reflect_bools. Qed.
Lemma stored_unique k rows r : List.NoDup (map pk rows) -> In r rows -> pk r = k -> stored k rows = Some r.
Proof.
  intros Hnd Hin Hk. unfold stored. destruct (List.find _ rows) as [r'|] eqn:E.
  - apply List.find_some in E as [Hi Hb]. reflect_bools. f_equal.
    eapply (map_key_inj pk); [exact Hnd|exact Hi|exact Hin|congruence].
  - exfalso. pose proof (List.find_none _ _ E r Hin) as Hb. simpl in Hb. by reflect_bools.
Qed.

(** The events of one check: the same row of the table, without an alias. *)
Definition about (k : string * string * string) (e : CheckState) : Prop :=
  pk e = k /\ is_v2 (st_ExternalKey e) = false /\ validatePullRequestCheckState (st_HeadSHA e) e = true.

Definition deliver (s : PRStore) (e : CheckState) : PRStore :=
  match UpsertCheckState e s with Ok (s', _) => s' | Err _ => s end.

Lemma deliver_checks k e s : about k e ->
  s_checks (deliver s e) = upsert_check (s_seq s + 1) (s_seq s + 2) e (s_checks s).
Proof. intros (_ & _ & Hv). unfold deliver, UpsertCheckState. rewrite Hv. done. Qed.

Lemma deliver_stored k e s : List.NoDup (map pk (s_checks s)) -> about k e ->
  exists r, stored k (s_checks (deliver s e)) = Some r
    /\ match stored k (s_checks s) with
       | None => content r = content e
       | Some old => if newer_event old e then content r = content e else r = old
       end.
Proof.
  intros Hnd Ha. rewrite (deliver_checks k) by done. destruct Ha as (Hk & Hv & _).
  pose proof (selected_key_plain e (s_checks s) Hv) as Hsel.
  set (w1 := s_seq s + 1). set (w2 := s_seq s + 2). set (rows := s_checks s) in *.
  pose proof (upsert_keys w1 w2 e rows Hnd) as Hnd'.
  assert (Hw : forall w, pk (e <| st_ExternalKey := selected_key e rows |> <| st_ProjectionVersion := w |>) = k)
    by (intros w; unfold pk; simpl; rewrite Hsel; exact Hk).
  assert (Hc : forall w, content (e <| st_ExternalKey := selected_key e rows |> <| st_ProjectionVersion := w |>) = content e)
    by (intros w; unfold content; simpl; rewrite Hsel; by destruct e).
  destruct (stored k rows) as [old|] eqn:Eo.
  - apply stored_in in Eo as [Hin Hpk]. destruct (newer_event old e) eqn:En.
    + destruct (upsert_keeps w1 w2 e rows old Hin) as [Hkeep|(_ & _ & Hwr)].
      * exfalso. unfold upsert_check in Hkeep. destruct (exists_row _ rows) eqn:Ex.
        -- apply in_update in Hkeep as (r0 & Hr0 & [[Hp Heq]|[Hp Heq]]).
           ++ rewrite Heq in En. rewrite newer_iff in En. simpl in En. lia.
           ++ subst r0. rewrite En, andb_true_r in Hp. apply not_true_iff_false in Hp. apply Hp, same_row_pk.
              rewrite Hpk, <- Hk. unfold pk. by rewrite Hsel.
        -- pose proof (exists_row_none _ _ old Ex Hin) as Hs. apply not_true_iff_false in Hs. apply Hs, same_row_pk.
           rewrite Hpk, <- Hk. unfold pk. by rewrite Hsel.
      * eexists. split; [by apply stored_unique; [|exact Hwr|]|]. apply Hc.
    + destruct (upsert_keeps w1 w2 e rows old Hin) as [Hkeep|(Hn & _ & _)]; [|congruence].
      exists old. split; [by apply stored_unique|done].
  - assert (Ex : exists_row (same_row (st_HeadSHA e) (st_Source e) (selected_key e rows)) rows = false).
    { apply exists_row_false. intros r Hr. apply not_true_iff_false. intros Hs%same_row_pk.
      pose proof (List.find_none _ _ Eo r Hr) as Hb. simpl in Hb. reflect_bools. apply Hb.
      rewrite Hs, Hsel. exact Hk. }
    assert (Hi : In (e <| st_ExternalKey := selected_key e rows |> <| st_ProjectionVersion := w1 |>) (upsert_check w1 w2 e rows)).
    { unfold upsert_check. rewrite Ex. apply in_or_app. right. by left. }
    eexists. split; [by apply stored_unique; [|exact Hi|]|]. apply Hc.
Qed.

Lemma deliver_keys k e s : about k e -> List.NoDup (map pk (s_checks s)) -> List.NoDup (map pk (s_checks (deliver s e))).
Proof. intros Ha Hnd. rewrite (deliver_checks k) by done. by apply upsert_keys. Qed.

(** The stored row is the newest of the events. *)
Lemma deliver_newest k evs : Forall (about k) evs -> forall s, List.NoDup (map pk (s_checks s)) ->
  (evs <> [] \/ is_Some (stored k (s_checks s))) ->
  exists r, stored k (s_checks (foldl deliver s evs)) = Some r
    /\ (Some r = stored k (s_checks s) \/ exists e, In e evs /\ content r = content e)
    /\ (forall old, stored k (s_checks s) = Some old -> newer_event r old = false)
    /\ Forall (fun e => newer_event r e = false) evs.
Proof.
  induction evs as [|e evs IH]; intros Hall s Hnd Hne; simpl.
  - destruct Hne as [?|[r Hr]]; [done|]. exists r. split; [done|]. split; [by left|]. split; [|done].
    intros old Ho. rewrite Hr in Ho. injection Ho as <-. apply newer_irrefl.
  - apply Forall_cons in Hall as [Ha Hall].
    destruct (deliver_stored k e s Hnd Ha) as (r1 & Hr1 & Hr1c).
    destruct (IH Hall (deliver s e)) as (r & Hr & Hfrom & Hold & Hnew); [by eapply deliver_keys|right; by rewrite Hr1|].
    exists r. split; [done|]. specialize (Hold r1 Hr1).
    destruct (stored k (s_checks s)) as [old|] eqn:Eo.
    + destruct (newer_event old e) eqn:En.
      * destruct (content_tie _ _ Hr1c) as [H1 H2]. split; [|split].
        -- right. destruct Hfrom as [Hf|(e' & Hi & Hc)]; [|exists e'; split; [by right|done]].
           rewrite Hr1 in Hf. injection Hf as ->. exists e. split; [by left|done].
        -- intros o [= <-]. eapply not_newer_trans; [exact Hold|]. rewrite not_newer_iff in H1, H2 |- *. rewrite newer_iff in En. lia.
        -- constructor; [|done]. by eapply not_newer_trans.
      * subst r1. split; [|split].
        -- destruct Hfrom as [Hf|(e' & Hi & Hc)]; [left; congruence|right; exists e'; split; [by right|done]].
        -- by intros o [= <-].
        -- constructor; [|done]. by eapply not_newer_trans.
    + destruct (content_tie _ _ Hr1c) as [H1 H2]. split; [|split; [done|]].
      * right. destruct Hfrom as [Hf|(e' & Hi & Hc)]; [|exists e'; split; [by right|done]].
        rewrite Hr1 in Hf. injection Hf as ->. exists e. split; [by left|done].
      * constructor; [|done]. by eapply not_newer_trans.
Qed.


(** ** Every operation *)

Inductive op :=
| OUpsertCheck (state : CheckState)
| OReserve
| OReconcile (headSHA : string) (version : Z) (states : list CheckState)
| OProject (now : time) (headSHA baseSHA : string) (summary : HealthSummary) (o : ProjectedHealthSummaryOptions)
| OSync (now : time) (snap : HealthSyncSnapshot)
| OEnrich (now : time) (version : Z) (conflict tests : bool) (status : EnrichmentStatus)
| OStatus (now : time) (status : string)
| OMerged (now mergedAt : time)
| OLifecycle (now : time) (l : Lifecycle) (expectedUpdatedAt : option time)
| OCIStatus (now : time) (ci : string)
| OHeadSHA (now : time) (headSHA : string)
| OSnapshot (now : time) (headSHA baseSHA : option string)
| OAssociate (now : time) (sessionID changesetID : uuid) (status : string) (headSHA baseSHA : option string)
| OQueue (now : time) (userID : uuid) (headSHA : string) (healthVersion : Z)
| OCancel (now : time)
| OClaim (now staleBefore : time)
| ORelease (now : time)
| OSucceeded (now : time)
| OFailed (now : time) (reason : string)
| OCreateRepair (run : RepairRun)
| ODeactivateRepair (id : uuid).

Definition committed {A} (s : PRStore) (r : result (PRStore * A)) : PRStore := match r with Ok (s', _) => s' | Err _ => s end.
Definition committed1 (s : PRStore) (r : result PRStore) : PRStore := match r with Ok s' => s' | Err _ => s end.

Definition exec (o : op) (s : PRStore) : PRStore :=
  match o with
  | OUpsertCheck state => committed s (UpsertCheckState state s)
  | OReserve => (ReserveCheckStateVersion s).1
  | OReconcile h v states => committed1 s (ReconcileCheckStates h v states s)
  | OProject t h b summary o =>
      match UpsertProjectedHealthSummary t h b summary o s with Ok (s', _, _, _) => s' | Err _ => s end
  | OSync t snap => committed s (ApplyHealthSync t snap s)
  | OEnrich t v c ts st => UpdateHealthEnrichment t v c ts st s
  | OStatus t st => UpdateStatus t st s
  | OMerged t m => committed1 s (UpdateMergedStatus t m s)
  | OLifecycle t l e => (recordPullRequestLifecycle t l e s).1
  | OCIStatus t ci => UpdateCIStatus t ci s
  | OHeadSHA t h => UpdateHeadSHA t h s
  | OSnapshot t h b => UpdateGitHubSnapshot t h b s
  | OAssociate t ss cs st h b => committed1 s (AssociateGitHubPullRequest t ss cs st h b s)
  | OQueue t u h v => committed1 s (QueueMergeWhenReady t u h v s)
  | OCancel t => committed1 s (CancelMergeWhenReady t s)
  | OClaim t b => (ClaimMergeWhenReadyForProcessing t b s).1
  | ORelease t => ReleaseMergeWhenReadyClaim t s
  | OSucceeded t => MarkMergeWhenReadySucceeded t s
  | OFailed t r => MarkMergeWhenReadyFailed t r s
  | OCreateRepair run => committed1 s (CreateRepairRun run s)
  | ODeactivateRepair id => DeactivateRepairRun id s
  end.

(** ** The invariant *)

Definition versions_wf (s : PRStore) : Prop :=
  match s_current s with
  | None => s_snapshots s = []
  | Some c => In (hc_Version c) (map sn_Version (s_snapshots s)) /\ Forall (fun sn => 1 <= sn_Version sn <= hc_Version c) (s_snapshots s)
  end.
Definition row_wf (s : PRStore) : Prop :=
  pr_HealthVersion (s_pr s) = 0 \/ exists c, s_current s = Some c /\ pr_HealthVersion (s_pr s) = hc_Version c.
Record store_wf (s : PRStore) : Prop := MkStoreWf {
  wf_keys : List.NoDup (map pk (s_checks s));
  wf_versions : versions_wf s;
  wf_snapshots : List.NoDup (map sn_Version (s_snapshots s));
  wf_row : row_wf s;
  wf_repairs : ForallOrdPairs (fun a b => repair_conflict b a = false) (s_repairs s)
}.

(** Operations that touch none of the invariant's columns. *)
Lemma wf_frame s s' : store_wf s -> s_checks s' = s_checks s -> s_current s' = s_current s -> s_snapshots s' = s_snapshots s ->
  s_repairs s' = s_repairs s -> pr_HealthVersion (s_pr s') = pr_HealthVersion (s_pr s) ->
  store_wf s'.
Proof.
  intros [] E1 E2 E3 E4 E5. constructor; unfold versions_wf, row_wf in *; rewrite ?E1, ?E2, ?E3, ?E4, ?E5 in *; done.
Qed.

Lemma pairs_update {A} (R : A -> A -> Prop) p f l : (forall a b, R a b -> R (f a) b /\ R a (f b) /\ R (f a) (f b)) ->
  ForallOrdPairs R l -> ForallOrdPairs R (update p f l).
Proof.
  intros Hf. unfold update. induction 1 as [|x l Hx Hl IH]; simpl; constructor; [|done].
  rewrite List.Forall_forall in Hx |- *. intros y (z & <- & Hz)%in_map_iff. specialize (Hx z Hz).
  destruct (p x), (p z); try apply (Hf _ _ Hx); done.
Qed.
Lemma pairs_app_one {A} (R : A -> A -> Prop) l x : ForallOrdPairs R l -> Forall (fun y => R y x) l -> ForallOrdPairs R (l ++ [x])%list.
Proof.
  induction 1 as [|y l Hy Hl IH]; intros Hx; simpl; [repeat constructor|]. apply Forall_cons in Hx as [Hyx Hx].
  constructor; [|by apply IH]. rewrite List.Forall_forall in Hy |- *. intros z [Hz|[<-|[]]]%in_app_or; auto.
Qed.

Lemma deactivate_pairs p g l : (forall r, rr_Active (g r) = false) ->
  ForallOrdPairs (fun a b => repair_conflict b a = false) l -> ForallOrdPairs (fun a b => repair_conflict b a = false) (update p g l).
Proof.
  intros Hg. apply pairs_update. intros a b H. unfold repair_conflict. rewrite !Hg. simpl. rewrite !andb_false_r. done.
Qed.

Lemma reconcile_keys h v states s s' : ReconcileCheckStates h v states s = Ok s' ->
  List.NoDup (map pk (s_checks s)) -> List.NoDup (map pk (s_checks s')).
Proof.
  unfold ReconcileCheckStates. destruct (negb _); [done|]. intros [= <-] Hnd. simpl.
  assert (Hk : List.NoDup (map pk (List.filter (fun row => st_HeadSHA row ==? h) (s_checks s)))) by (by apply NoDup_map_filter).
  revert Hk. generalize (List.filter (fun row => st_HeadSHA row ==? h) (s_checks s)).
  induction states as [|st states IH]; intros rows Hk; simpl; [done|]. apply IH. by apply upsert_keys.
Qed.
Lemma reconcile_frame h v states s s' : ReconcileCheckStates h v states s = Ok s' -> s' = s <| s_checks := s_checks s' |>.
Proof. unfold ReconcileCheckStates. destruct (negb _); [done|]. by intros [= <-]. Qed.

(** The writer of health: it always succeeds on a well-formed store. *)
Lemma health_write_ok t h b summary mark v expected s : store_wf s ->
  exists s' c applied changed, upsertHealthSummary t h b summary mark v expected s = Ok (s', c, applied, changed) /\ store_wf s'.
Proof.
  intros Hwf. unfold upsertHealthSummary. case_match eqn:Href; [by eauto 8|]. clear Href.
  set (unchanged := match s_current s with Some _ => _ | None => false end).
  destruct (match s_current s with Some c => if unchanged then _ else _ | None => _ end) as [en at_] eqn:Een.
  destruct Hwf as [Hk Hv Hs Hr Hp]. unfold versions_wf in Hv.
  destruct unchanged eqn:Eu.
  - simpl. destruct (s_current s) as [c|] eqn:Ec; [|done].
    do 4 eexists. split; [reflexivity|]. constructor; simpl; try done. right. eexists. split; [reflexivity|done].
  - simpl. set (w := match s_current s with Some c => hc_Version c + 1 | None => 1 end).
    assert (Hfresh : ~ In w (map sn_Version (s_snapshots s))).
    { subst w. destruct (s_current s) as [c|]; [|rewrite Hv; intros []]. destruct Hv as [_ Hv]. intros (sn & E & Hin)%in_map_iff.
      rewrite List.Forall_forall in Hv. specialize (Hv sn Hin). lia. }
    rewrite (exists_row_false (fun sn => sn_Version sn =? w)).
    2:{ intros sn Hin. apply Z.eqb_neq. intros E. apply Hfresh, in_map_iff. eauto. }
    do 4 eexists. split; [reflexivity|]. constructor; simpl; try done.
    + unfold versions_wf. simpl. rewrite map_app. split; [apply in_or_app; right; by left|].
      apply Forall_app. subst w. destruct (s_current s) as [c|].
      * destruct Hv as [Hin Hv]. apply in_map_iff in Hin as (sn & E & Hin).
        assert (1 <= hc_Version c) by (rewrite List.Forall_forall in Hv; specialize (Hv sn Hin); lia).
        split; [eapply Forall_impl; [exact Hv|]; simpl; lia|repeat constructor; simpl; lia].
      * rewrite Hv. split; [done|repeat constructor; simpl; lia].
    + rewrite map_app. apply List.NoDup_app; [done|repeat constructor; by intros []|]. intros x Hx [<-|[]]. done.
    + right. eexists. split; [reflexivity|done].
    + unfold obsolete_repairs. apply deactivate_pairs; [done|done].
Qed.

Lemma health_write_wf t h b summary mark v expected s s' c a ch : store_wf s ->
  upsertHealthSummary t h b summary mark v expected s = Ok (s', c, a, ch) -> store_wf s'.
Proof. intros Hwf E. destruct (health_write_ok t h b summary mark v expected s Hwf) as (s2 & c2 & a2 & ch2 & E2 & H2). congruence. Qed.

Lemma wf_checks s rows : store_wf s -> List.NoDup (map pk rows) -> store_wf (s <| s_checks := rows |>).
Proof. intros [] H. by constructor. Qed.

Lemma sync_wf t snap s : store_wf s -> store_wf (committed s (ApplyHealthSync t snap s)).
Proof.
  intros Hwf. unfold ApplyHealthSync. case_match; [done|].
  destruct (ReconcileCheckStates _ _ _ s) as [s1|] eqn:E1; [|done].
  pose proof (reconcile_keys _ _ _ _ _ E1 (wf_keys _ Hwf)) as Hk. pose proof (reconcile_frame _ _ _ _ _ E1) as Ef.
  assert (Hwf1 : store_wf s1) by (rewrite Ef; by apply wf_checks).
  match goal with |- context [upsertHealthSummary ?a ?b ?c ?d ?e ?f ?g s1] =>
    destruct (health_write_ok a b c d e f g s1 Hwf1) as (s2 & c2 & a2 & ch2 & -> & Hwf2) end.
  simpl. by eapply wf_frame.
Qed.

Lemma sync_total t snap s : store_wf s -> forallb (validatePullRequestCheckState (ss_HeadSHA snap)) (ss_Checks snap) = true ->
  exists s' applied, ApplyHealthSync t snap s = Ok (s', applied).
Proof.
  intros Hwf Hv. unfold ApplyHealthSync. case_match; [by eauto|].
  destruct (ReconcileCheckStates _ _ _ s) as [s1|] eqn:E1; [|unfold ReconcileCheckStates in E1; by rewrite Hv in E1].
  pose proof (reconcile_keys _ _ _ _ _ E1 (wf_keys _ Hwf)) as Hk. pose proof (reconcile_frame _ _ _ _ _ E1) as Ef.
  assert (Hwf1 : store_wf s1) by (rewrite Ef; by apply wf_checks).
  match goal with |- context [upsertHealthSummary ?a ?b ?c ?d ?e ?f ?g s1] =>
    destruct (health_write_ok a b c d e f g s1 Hwf1) as (s2 & c2 & a2 & ch2 & -> & Hwf2) end. eauto.
Qed.

Lemma enrich_wf t v c ts st s : store_wf s -> store_wf (UpdateHealthEnrichment t v c ts st s).
Proof.
  intros [Hk Hv Hs Hr Hp]. unfold UpdateHealthEnrichment.
  assert (Hm : forall f, (forall sn, sn_Version (f sn) = sn_Version sn) ->
    map sn_Version (update (fun sn => sn_Version sn =? v) f (s_snapshots s)) = map sn_Version (s_snapshots s))
    by (intros f Hf; apply update_key; intros; apply Hf).
  constructor; unfold versions_wf, row_wf in *; simpl; try done.
  - destruct (s_current s) as [cur|]; [|by rewrite Hv]. destruct (hc_Version cur =? v) eqn:Ev; simpl; rewrite Hm by done;
      (split; [apply Hv|]); apply Forall_update; try done; apply Hv.
  - by rewrite Hm.
  - destruct (s_current s) as [cur|]; [|destruct Hr as [?|(? & ? & ?)]; [by left|done]].
    destruct Hr as [?|(c' & [= <-] & Hr)]; [by left|]. right. destruct (hc_Version cur =? v); eauto.
Qed.

(** The invariant is kept by every operation. *)
Lemma exec_wf o s : store_wf s -> store_wf (exec o s).
Proof.
  intros Hwf. destruct o; simpl.
  - unfold UpsertCheckState. case_match; simpl; [done|]. eapply wf_frame; [eapply (wf_checks s); [done|]|..]; try done.
    by apply upsert_keys, Hwf.
  - by eapply wf_frame.
  - destruct (ReconcileCheckStates _ _ _ s) as [s1|] eqn:E1; [|done]. simpl.
    rewrite (reconcile_frame _ _ _ _ _ E1). apply wf_checks; [done|]. by eapply reconcile_keys, Hwf.
  - destruct (UpsertProjectedHealthSummary _ _ _ _ _ s) as [[[[s' ?] ?] ?]|] eqn:E; [|done].
    unfold UpsertProjectedHealthSummary in E. case_match; [done|]. by eapply health_write_wf.
  - by apply sync_wf.
  - by apply enrich_wf.
  - unfold UpdateStatus. destruct (status ==? PullRequestStatusMerged); by eapply wf_frame.
  - unfold UpdateMergedStatus. case_match; simpl; [done|]. by eapply wf_frame.
  - unfold recordPullRequestLifecycle. case_match; simpl; [done|]. by eapply wf_frame.
  - by eapply wf_frame.
  - destruct Hwf as [Hk Hv Hs Hr Hp]. constructor; try done. by left.
  - unfold UpdateGitHubSnapshot. case_match; [|by eapply wf_frame]. destruct Hwf as [Hk Hv Hs Hr Hp]. constructor; try done. by left.
  - unfold AssociateGitHubPullRequest. repeat case_match; simpl; first [done|by eapply wf_frame].
  - unfold QueueMergeWhenReady. case_match; simpl; [|done]. by eapply wf_frame.
  - unfold CancelMergeWhenReady. case_match; simpl; [|done]. by eapply wf_frame.
  - unfold ClaimMergeWhenReadyForProcessing. case_match; simpl; [|done]. by eapply wf_frame.
  - unfold ReleaseMergeWhenReadyClaim. case_match; simpl; [|done]. by eapply wf_frame.
  - by eapply wf_frame.
  - by eapply wf_frame.
  - unfold CreateRepairRun. case_match eqn:E; simpl; [done|]. destruct Hwf as [Hk Hv Hs Hr Hp]. constructor; try done. simpl.
    apply pairs_app_one; [done|]. apply List.Forall_forall. intros r Hr'. by eapply exists_row_none.
  - destruct Hwf as [Hk Hv Hs Hr Hp]. constructor; try done. simpl. by apply deactivate_pairs.
Qed.

Definition exec_all (ops : list op) (s : PRStore) : PRStore := foldl (fun s o => exec o s) s ops.
Lemma exec_all_wf ops s : store_wf s -> store_wf (exec_all ops s).
Proof. revert s. induction ops as [|o ops IH]; intros s H; simpl; [done|]. by apply IH, exec_wf. Qed.

(** A pull request that was just recorded. *)
Definition fresh_store (pr : PullRequest) (seq : Z) : PRStore := MkPRStore pr None [] [] [] None seq.
Lemma fresh_wf pr seq : pr_HealthVersion pr = 0 -> store_wf (fresh_store pr seq).
Proof. intros H. constructor; try constructor. done. Qed.

(** C19: Health is numbered without collisions.  After any sequence of
    operations on a pull request that was just recorded, its snapshots carry
    distinct versions that end at the current one, the row carries that version
    or none, at most one repair per action, head and version is active,
    and so a synchronization with valid checks is never refused by the unique
    index of the snapshots. *)
Theorem health_versions_never_collide pr seq ops t snap :
  pr_HealthVersion pr = 0 -> forallb (validatePullRequestCheckState (ss_HeadSHA snap)) (ss_Checks snap) = true ->
  let s := exec_all ops (fresh_store pr seq) in
  store_wf s /\ exists s' applied, ApplyHealthSync t snap s = Ok (s', applied) /\ store_wf s'.
Proof.
  intros H0 Hv s. assert (Hwf : store_wf s) by (by apply exec_all_wf, fresh_wf). split; [done|].
  destruct (sync_total t snap s Hwf Hv) as (s' & a & E). exists s', a. split; [done|].
  pose proof (sync_wf t snap s Hwf) as Hs. by rewrite E in Hs.
Qed.

(** ** Webhooks that race a read *)

Definition survives (r : CheckState) (rows : list CheckState) : Prop :=
  In r rows \/ exists r', In r' rows /\ pk r' = pk r /\ newer_event r r' = true.

Lemma newer_trans a b c : newer_event a b = true -> newer_event b c = true -> newer_event a c = true.
Proof. rewrite !newer_iff. lia. Qed.

Lemma survives_upsert v v' st rows r : survives r rows -> survives r (upsert_check v v' st rows).
Proof.
  assert (Hone : forall x, In x rows -> In x (upsert_check v v' st rows)
    \/ exists r', In r' (upsert_check v v' st rows) /\ pk r' = pk x /\ newer_event x r' = true).
  { intros x Hx. destruct (upsert_keeps v v' st rows x Hx) as [?|(Hn & Hp & Hin)]; [by left|]. right.
    eexists. split; [exact Hin|]. split; [done|]. rewrite newer_iff in *. done. }
  intros [Hin|(r1 & Hin & Hp & Hn)]; [exact (Hone r Hin)|]. right.
  destruct (Hone r1 Hin) as [?|(r2 & Hin2 & Hp2 & Hn2)]; [eauto|]. exists r2. split; [done|]. split; [congruence|].
  by eapply newer_trans.
Qed.

(** A check webhook that arrives while GitHub is being read is not lost.
    If its row has a later version than the one the read reserved, an applied
    read keeps the row, and then reports that webhooks are pending, or replaces
    it by a strictly newer event of the same check. *)
Theorem racing_webhook_survives_sync t snap s s' r :
  ApplyHealthSync t snap s = Ok (s', true) -> In r (s_checks s) -> st_HeadSHA r = ss_HeadSHA snap ->
  ss_CheckStateVersion snap < st_ProjectionVersion r ->
  (In r (s_checks s') /\ HasCheckStatesAfter (ss_HeadSHA snap) (ss_CheckStateVersion snap) s' = true)
  \/ exists r', In r' (s_checks s') /\ pk r' = pk r /\ newer_event r r' = true.
Proof.
  intros E Hin Hh Hv. unfold ApplyHealthSync in E. case_match; [done|].
  destruct (ReconcileCheckStates _ _ _ s) as [s1|] eqn:E1; [|done].
  assert (Hs1 : survives r (s_checks s1)).
  { unfold ReconcileCheckStates in E1. destruct (negb _) in E1; [done|]. injection E1 as <-. simpl.
    assert (H0 : survives r (List.filter (fun row => st_HeadSHA row ==? ss_HeadSHA snap) (s_checks s))).
    { left. apply in_filter_iff. split; [done|]. by apply bool_decide_eq_true. }
    revert H0. generalize (List.filter (fun row => st_HeadSHA row ==? ss_HeadSHA snap) (s_checks s)).
    generalize (ss_Checks snap) as states. induction states as [|st states IH]; intros rows H0; simpl; [done|].
    apply IH. by apply survives_upsert. }
  assert (Hc : s_checks s' = s_checks s1).
  { clear -E. unfold upsertHealthSummary in E. destruct (_ : EnrichmentStatus * option time) in E.
    repeat case_match; simplify_eq; done. }
  rewrite Hc. destruct Hs1 as [H1|H1]; [left|by right]. split; [done|]. apply exists_row_true. exists r. rewrite Hc. split; [done|].
  apply andb_true_iff. split; [by apply bool_decide_eq_true|by apply Z.ltb_lt].
Qed.

(** ** Reads that come late *)

(** A projection is written over the summary it was computed from. *)
Definition keeps_sync (s : PRStore) (o : op) : Prop :=
  match o with OProject _ _ _ summary _ => sync_version s <= hs_GitHubSyncVersion summary | _ => True end.
Inductive later : PRStore -> PRStore -> Prop :=
| later_refl s : later s s
| later_step s o s' : keeps_sync s o -> later (exec o s) s' -> later s s'.

Lemma upsert_sync t h b summary mark v expected s s' c a ch :
  upsertHealthSummary t h b summary mark v expected s = Ok (s', c, a, ch) ->
  (s' = s /\ a = false) \/ (sync_version s' = hs_GitHubSyncVersion summary /\ a = true).
Proof.
  intros E. unfold upsertHealthSummary in E. destruct (_ : EnrichmentStatus * option time) in E.
  repeat case_match; simplify_eq; auto.
Qed.

Lemma upsert_applied t h b summary mark v s s' c a ch :
  upsertHealthSummary t h b summary mark v None s = Ok (s', c, a, ch) -> sync_version s' = hs_GitHubSyncVersion summary.
Proof.
  intros E. unfold upsertHealthSummary in E. destruct (_ : EnrichmentStatus * option time) in E.
  repeat case_match; simplify_eq; auto.
Qed.

Lemma sync_moves t snap s s' a : ApplyHealthSync t snap s = Ok (s', a) ->
  if a then sync_version s <= ss_CheckStateVersion snap /\ sync_version s' = ss_CheckStateVersion snap else s' = s.
Proof.
  unfold ApplyHealthSync. destruct (sync_admissible snap s) eqn:Ea; simpl; [|by intros [= <- <-]].
  destruct (ReconcileCheckStates _ _ _ s) as [s1|] eqn:E1; [|done]. simpl.
  match goal with |- context [upsertHealthSummary ?a ?b ?c ?d ?e ?f ?g s1] =>
    destruct (upsertHealthSummary a b c d e f g s1) as [[[[s2 ?] ?] ?]|] eqn:E2; [|done] end.
  intros [= <- <-]. split; [|by apply upsert_applied in E2].
  unfold sync_admissible in Ea. reflect_bools. lia.
Qed.

Lemma exec_sync o s : keeps_sync s o -> sync_version s <= sync_version (exec o s).
Proof.
  intros Hk. destruct o; simpl in *; try done.
  - unfold UpsertCheckState. by case_match.
  - destruct (ReconcileCheckStates _ _ _ s) as [s1|] eqn:E1; [|done]. simpl. by rewrite (reconcile_frame _ _ _ _ _ E1).
  - destruct (UpsertProjectedHealthSummary _ _ _ _ _ s) as [[[[s' ?] ?] ?]|] eqn:E; [|done].
    unfold UpsertProjectedHealthSummary in E. case_match; [done|]. apply upsert_sync in E as [[-> _]|[-> _]]; [done|lia].
  - destruct (ApplyHealthSync now snap s) as [[s' a]|] eqn:E; [|done]. apply sync_moves in E. destruct a; simpl; [lia|by subst].
  - unfold UpdateHealthEnrichment, sync_version. simpl. destruct (s_current s) as [c|]; [|done]. by destruct (hc_Version c =? version).
  - unfold UpdateMergedStatus. by case_match.
  - unfold recordPullRequestLifecycle. by case_match.
  - unfold AssociateGitHubPullRequest. by repeat case_match.
  - unfold QueueMergeWhenReady. by case_match.
  - unfold CancelMergeWhenReady. by case_match.
  - unfold ClaimMergeWhenReadyForProcessing. by case_match.
  - unfold ReleaseMergeWhenReadyClaim. by case_match.
  - unfold CreateRepairRun. by case_match.
Qed.
Lemma later_sync s s' : later s s' -> sync_version s <= sync_version s'.
Proof. induction 1 as [|s o s' Hk _ IH]; [done|]. pose proof (exec_sync o s Hk). lia. Qed.

(** A slow read never undoes a later one.  Once a read has been applied, a
    read whose version was reserved earlier is refused and changes nothing,
    whatever happened in between, provided projections were written over the
    summary they were computed from. *)
Theorem slow_read_changes_nothing t t' snap snap' s s1 s2 :
  ApplyHealthSync t snap s = Ok (s1, true) -> later s1 s2 -> ss_CheckStateVersion snap' < ss_CheckStateVersion snap ->
  ApplyHealthSync t' snap' s2 = Ok (s2, false).
Proof.
  intros [_ E]%sync_moves Hl Hv. pose proof (later_sync _ _ Hl) as Hm. unfold ApplyHealthSync, sync_admissible.
  assert (Hlt : (ss_CheckStateVersion snap' <? sync_version s2) = true) by (apply Z.ltb_lt; lia).
  by rewrite Hlt, orb_true_r.
Qed.

(** ** The claim of a merge *)

Definition settles (o : op) : bool := match o with ORelease _ | OSucceeded _ | OFailed _ _ => true | _ => false end.
Definition claims_from (t1 : time) (o : op) : Prop := settles o = false /\ match o with OClaim t _ => t1 <= t | _ => True end.
Definition claimed_since (t1 : time) (s : PRStore) : Prop :=
  pr_MWRState (s_pr s) = MWRMerging /\ exists t, pr_MWRUpdatedAt (s_pr s) = Some t /\ t1 <= t.

Lemma upsert_mwr t h b summary mark v expected s s' c a ch :
  upsertHealthSummary t h b summary mark v expected s = Ok (s', c, a, ch) ->
  pr_MWRState (s_pr s') = pr_MWRState (s_pr s) /\ pr_MWRUpdatedAt (s_pr s') = pr_MWRUpdatedAt (s_pr s).
Proof.
  intros E. unfold upsertHealthSummary in E. destruct (_ : EnrichmentStatus * option time) in E.
  repeat case_match; simplify_eq; done.
Qed.
Lemma sync_mwr t snap s s' a : ApplyHealthSync t snap s = Ok (s', a) ->
  pr_MWRState (s_pr s') = pr_MWRState (s_pr s) /\ pr_MWRUpdatedAt (s_pr s') = pr_MWRUpdatedAt (s_pr s).
Proof.
  unfold ApplyHealthSync. destruct (negb _); [by intros [= <- <-]|].
  destruct (ReconcileCheckStates _ _ _ s) as [s1|] eqn:E1; [|done]. simpl.
  match goal with |- context [upsertHealthSummary ?a ?b ?c ?d ?e ?f ?g s1] =>
    destruct (upsertHealthSummary a b c d e f g s1) as [[[[s2 ?] ?] ?]|] eqn:E2; [|done] end.
  intros [= <- <-]. simpl. apply upsert_mwr in E2. by rewrite (reconcile_frame _ _ _ _ _ E1) in E2.
Qed.

Lemma exec_claimed t1 o s : claims_from t1 o -> claimed_since t1 s -> claimed_since t1 (exec o s).
Proof.
  intros [Hs Hc] Hcl. pose proof Hcl as [Hm (t & Ht & Hle)].
  assert (Hkeep : forall s', pr_MWRState (s_pr s') = pr_MWRState (s_pr s) -> pr_MWRUpdatedAt (s_pr s') = pr_MWRUpdatedAt (s_pr s) ->
    claimed_since t1 s') by (intros s' E1 E2; unfold claimed_since; rewrite E1, E2; eauto).
  destruct o; simpl in *; try done; try by apply Hkeep.
  - unfold UpsertCheckState. case_match; simpl; [done|]. by apply Hkeep.
  - destruct (ReconcileCheckStates _ _ _ s) as [s1|] eqn:E1; [|done]. simpl. rewrite (reconcile_frame _ _ _ _ _ E1). by apply Hkeep.
  - destruct (UpsertProjectedHealthSummary _ _ _ _ _ s) as [[[[s' ?] ?] ?]|] eqn:E; [|done].
    unfold UpsertProjectedHealthSummary in E. case_match; [done|]. apply upsert_mwr in E as [? ?]. by apply Hkeep.
  - destruct (ApplyHealthSync now snap s) as [[s' a]|] eqn:E; [|done]. apply sync_mwr in E as [? ?]. by apply Hkeep.
  - unfold UpdateStatus. case_match; by apply Hkeep.
  - unfold UpdateMergedStatus. case_match; simpl; [done|]. by apply Hkeep.
  - unfold recordPullRequestLifecycle. case_match; simpl; [done|]. by apply Hkeep.
  - unfold UpdateGitHubSnapshot. case_match; by apply Hkeep.
  - unfold AssociateGitHubPullRequest. repeat case_match; simpl; first [done|by apply Hkeep].
  - unfold QueueMergeWhenReady. by rewrite Hm.
  - unfold CancelMergeWhenReady. by rewrite Hm.
  - unfold ClaimMergeWhenReadyForProcessing. case_match; simpl; [|done]. split; [done|]. exists now. done.
  - unfold CreateRepairRun. case_match; simpl; [done|]. by apply Hkeep.
Qed.

Lemma claim_since t b s s' : ClaimMergeWhenReadyForProcessing t b s = (s', true) -> claimed_since t s'.
Proof. unfold ClaimMergeWhenReadyForProcessing. case_match; [|done]. intros [= <-]. split; [done|]. by exists t. Qed.
Lemma exec_all_claimed t1 ops s : Forall (claims_from t1) ops -> claimed_since t1 s -> claimed_since t1 (exec_all ops s).
Proof. intros Hops. revert s. induction Hops as [|o ops Ho Hops IH]; intros s H0; simpl; [done|]. apply IH. by apply exec_claimed. Qed.

(** A claimed merge has one owner.  After a claim succeeds at [t1], and
    whatever else happens to the pull request short of settling the claim,
    another claim succeeds only with a staleness bound past [t1]: fifteen
    minutes later, as the service asks. *)
Theorem merge_claim_is_exclusive t1 b1 s s1 ops t2 b2 s3 :
  ClaimMergeWhenReadyForProcessing t1 b1 s = (s1, true) -> Forall (claims_from t1) ops ->
  ClaimMergeWhenReadyForProcessing t2 b2 (exec_all ops s1) = (s3, true) -> t1 < b2.
Proof.
  intros E1%claim_since Hops E2. destruct (exec_all_claimed t1 ops s1 Hops E1) as [Hm (t & Ht & Hle)].
  unfold ClaimMergeWhenReadyForProcessing in E2. rewrite Hm, Ht in E2. simpl in E2. destruct (t <? b2) eqn:El; [|done]. lia.
Qed.

(** ** Witnesses *)

Definition demo_pr : PullRequest :=
  MkPullRequest 7 "acme/app" None None PullRequestStatusOpen "" (Some "h1") (Some "b1") MergeStateUnknown false 0 false None 0
    MWRQueued (Some "u1") (Some 0) "h1" None "" (Some 0) None 0.
Definition demo_store : PRStore := fresh_store demo_pr 10.
Definition demo_check (name status : string) (sequence : Z) (at_ : time) : CheckState :=
  MkCheckState "h1" CheckSourceCheckRun name name CheckCategoryBuild status "ci" "" "" "" sequence at_ 0.
Definition demo_summary (checks : list CheckSummary) : HealthSummary := MkHealthSummary 0 MergeStateClean false 0 (checkSummariesHaveFailedCheck checks) true (Some true) checks.
Definition demo_sync (version : Z) (checks : list CheckState) : HealthSyncSnapshot :=
  MkHealthSyncSnapshot "h1" "b1" "h1" "b1" version checks (demo_summary (map CheckState_CheckSummary checks)) "success".


Lemma health_versions_never_collide_witness :
  let s := exec_all [OReserve; OSync 1 (demo_sync 11 []); OHeadSHA 2 "h2"] demo_store in
  store_wf s /\ exists s' applied, ApplyHealthSync 5 (demo_sync 12 [demo_check "build" CheckStatusPassed 4 2]) s = Ok (s', applied) /\ store_wf s'.
Proof. apply (health_versions_never_collide demo_pr 10); reflexivity. Defined.

Definition raced_store : PRStore := exec_all [OReserve; OUpsertCheck (demo_check "build" CheckStatusPassed 4 2)] demo_store.
Definition raced_row : CheckState := (demo_check "build" CheckStatusPassed 4 2) <| st_ProjectionVersion := 12 |>.
Lemma racing_webhook_survives_sync_witness :
  let s' := exec (OSync 5 (demo_sync 11 [demo_check "build" CheckStatusPending 4 1])) raced_store in
  (In raced_row (s_checks s') /\ HasCheckStatesAfter "h1" 11 s' = true)
  \/ exists r', In r' (s_checks s') /\ pk r' = pk raced_row /\ newer_event raced_row r' = true.
Proof.
  apply (racing_webhook_survives_sync 5 (demo_sync 11 [demo_check "build" CheckStatusPending 4 1]) raced_store);
    [vm_compute; reflexivity|vm_compute; auto|reflexivity|reflexivity].
Defined.

Definition synced_store : PRStore := exec (OSync 5 (demo_sync 12 [])) (exec_all [OReserve; OReserve] demo_store).
Lemma slow_read_changes_nothing_witness : ApplyHealthSync 9 (demo_sync 11 []) (exec (OHeadSHA 6 "h1") synced_store) = Ok (exec (OHeadSHA 6 "h1") synced_store, false).
Proof.
  apply (slow_read_changes_nothing 5 9 (demo_sync 12 []) (demo_sync 11 []) (exec_all [OReserve; OReserve] demo_store) synced_store);
    [vm_compute; reflexivity|eapply later_step; [|apply later_refl]; done|reflexivity].
Defined.

Lemma merge_claim_is_exclusive_witness : 100 < 200.
Proof.
  eapply (merge_claim_is_exclusive 100 0 demo_store _ [OCIStatus 120 "success"] 300 200);
    [vm_compute; reflexivity|repeat constructor|vm_compute; reflexivity].
Defined.

(** ** A projection that comes late *)

(** What a rebuild writes after reading the state [seen]. *)
Definition projection_of (seen : PRStore) (t : time) : option op :=
  match s_current seen with
  | Some c =>
      match hc_Summary c, ListCheckStatesAfter (fun _ _ => true) (hc_HeadSHA c) (hc_CheckStateVersion c) seen with
      | Decodes summary, (_ :: _) as states =>
          Some (OProject t (hc_HeadSHA c) (hc_BaseSHA c) (rebuildProjectedHealthSummary summary states)
            (MkProjectedOptions (hc_Version c) (hc_HeadSHA c) (hc_CheckStateVersion c) (latestProjectedCheckStateVersion states)))
      | _, _ => None
      end
  | None => None
  end.
Definition project (seen s : PRStore) (t : time) : PRStore := match projection_of seen t with Some o => exec o s | None => s end.

(** Read 11 is applied and read 12 starts; a webhook repeats A and is
    projected; a webhook passes B, and a rebuild reads the state and stalls;
    read 12, which saw B fail since, is applied; A is projected again. *)
Definition aba_before : PRStore :=
  let s := exec_all [OReserve; OSync 1 (demo_sync 11 [demo_check "a" CheckStatusPassed 1 1; demo_check "b" CheckStatusFailed 2 1]);
                     OReserve; OUpsertCheck (demo_check "a" CheckStatusPassed 1 5)] demo_store in
  exec (OUpsertCheck (demo_check "b" CheckStatusPassed 2 6)) (project s s 5).
Definition aba_after : PRStore :=
  let s := exec (OSync 8 (demo_sync 12 [demo_check "a" CheckStatusPassed 1 5; demo_check "b" CheckStatusFailed 2 7])) aba_before in
  project s s 9.

Definition shown (name : string) (s : PRStore) : option string :=
  match s_current s with
  | Some c => match hc_Summary c with
              | Decodes summary => cs_Status <$> List.find (fun k => cs_Name k ==? name) (hs_Checks summary)
              | Broken _ => None
              end
  | None => None
  end.

(** The check versions a projection compares can come back: a rebuild that
    stalled across a read and another rebuild is still applied, shows a check
    as passed whose newest event failed, and sets the sync version back. *)
Lemma stalled_projection_is_applied :
  let s := project aba_before aba_after 10 in
  shown "b" s = Some CheckStatusPassed
  /\ (st_Status <$> stored ("h1", CheckSourceCheckRun, "b") (s_checks s)) = Some CheckStatusFailed
  /\ shown "b" aba_after = Some CheckStatusFailed
  /\ sync_version aba_after = 12 /\ sync_version s = 11.
Proof. vm_compute. repeat split. Qed.
