(* ===== verification/PrService.v ===== *)
(** * The pull request service

    internal/services/github/pr_health_service.go, pr_merge.go and
    pr_merge_when_ready.go: reading GitHub into the store, overlaying the
    check webhooks that raced the read, the health a client sees, merging, and
    merge when ready.

    A call runs as a sequence of statements.  Other processes write to the
    rows between any two of them, and every statement or request may fail; both
    are given by the number of the statement.  What GitHub, the token resolver
    and the other tables answer is given the same way. *)

From S2P Require Import Prelude GoRuntime Sql PrHealth PrStore.
From stdpp Require Import base option list strings pretty gmap.

Open Scope string_scope.
Open Scope Z_scope.

(** ** Errors *)

(** The sentinels that [errors.Is] finds in the chain of an error;
    [RetryableCause] stands for a cause that ClassifyRetry retries. *)
Inductive sentinel :=
| ErrPullRequestNotMergeable | ErrPullRequestNotYetMergeable | ErrPullRequestHeadChanged | ErrStackParentUnmerged
| ErrNoMergeMethodAllowed | ErrMergeStateRefreshFailed | ErrGitHubMergeIncomplete
| ErrPullRequestMergeabilityPending | ErrPullRequestRepositoryDisconnected | ErrPullRequestHealthSyncSuperseded
| ErrPullRequestCheckRefreshDeferred | errIncompleteCheckPagination
| ErrPullRequestMergeWhenReadyNotQueueable | ErrPullRequestMergeWhenReadyInProgress | ErrPullRequestMergeWhenReadyChecksPending
| ErrGitHubUserAuthRequired | ErrGitHubUserAuthRepoAccessDenied | RetryableCause.
#[export] Instance sentinel_eq_dec : EqDecision sentinel.
Proof. solve_decision. Defined.
Definition chain := list sentinel.
Definition Is (e : chain) (x : sentinel) : bool := existsb (fun y => x ==? y) e.

(** ** What the other parties answer *)

Record Details := MkDetails {
  d_State : string; d_Merged : bool; d_MergedAt : option time; d_UpdatedAt : option time; d_MergeCommitSHA : string;
  d_Mergeable : option bool; d_MergeableState : string; d_HeadSHA : string; d_BaseSHA : string; d_BaseRef : string
}.
Record MergeReply := MkMergeReply { mr_SHA : string; mr_Merged : bool }.

(** The lookups of the changeset a pull request is stacked on. *)
Inductive Parent := NotStacked | ChangesetUnreadable | ParentUnpublished | ParentStatus (number : Z) (status : string).
(** The repository by name among the active ones, and then among all. *)
Inductive RepoLookup := RepoActive | RepoInactive | RepoMissing | RepoError.

Record Env := MkEnv {
  e_others : nat -> PRStore -> PRStore;
  e_now : nat -> time;
  e_statement : nat -> bool;
  e_parent : nat -> Parent;
  e_repo : nat -> RepoLookup;
  e_installation : nat -> chain + unit;
  e_identity : nat -> chain + unit;
  e_userRequired : nat -> chain + bool;
  e_details : nat -> chain + Details;
  e_wait : nat -> bool;
  e_runs : nat -> chain + (list gitHubCheckRun * Z * bool);
  e_statuses : nat -> chain + (list gitHubCommitStatus * Z * bool);
  e_headroom : nat -> bool;
  e_required : nat -> chain + bool;
  e_settings : nat -> chain + RepoMergeSettings;
  e_merge : nat -> chain + MergeReply;
  e_sessions : nat -> option (uuid -> option string);
  e_flight : nat -> option (chain + unit);
  e_admit : nat -> chain + bool;
  e_org : nat -> chain + autoRepairPolicy;
  e_owner : nat -> chain + option (Preference * Preference);
  e_row_le : CheckState -> CheckState -> bool;
  e_insights : bool
}.

(** ** The monad *)

Inductive Effect :=
| MergeRequest (number : Z) (sha : string) (method : MergeMethod)
| FollowUps (sha : string) | Closed | Published (version : Z) | EnqueuedMerge | EnqueuedSync (delay : Z).

(** [w_seen] keeps the states that the statements of the call found, for the
    theorems. *)
Record World := MkWorld { w_store : PRStore; w_step : nat; w_log : list Effect; w_seen : list PRStore }.
#[export] Instance eta_World : Eta World := fun w => MkWorld (w_store w) (w_step w) (w_log w) (w_seen w).

Definition M (A : Type) : Type := World -> World * (chain + A).
#[export] Instance M_ret : MRet M := fun _ a w => (w, inr a).
#[export] Instance M_bind : MBind M := fun _ _ k m w =>
  let '(w, r) := m w in match r with inl e => (w, inl e) | inr a => k a w end.

Definition throw {A} (e : chain) : M A := fun w => (w, inl e).
(** The error as a value: [if err := f(); err != nil]. *)
Definition attempt {A} (m : M A) : M (chain + A) := fun w => let '(w, r) := m w in (w, inr r).
Definition emit (x : Effect) : M unit := fun w => (w <| w_log := (w_log w ++ [x])%list |>, inr tt).
Definition lift {A} (r : chain + A) : M A := fun w => (w, r).
Definition wrap {A} (x : sentinel) (m : M A) : M A := fun w =>
  let '(w, r) := m w in match r with inl e => (w, inl (x :: e)) | inr a => (w, inr a) end.

Section Service.
Context (E : Env).

(** One answer of another party. *)
Definition ask {A} (f : Env -> nat -> A) : M A := fun w => (w <| w_step := S (w_step w) |>, inr (f E (w_step w))).
Definition request {A} (f : Env -> nat -> chain + A) : M A := fun w => (w <| w_step := S (w_step w) |>, f E (w_step w)).

(** One statement: the other processes go first, then it fails, or runs at its
    time. *)
Definition statement {A} (f : time -> PRStore -> PRStore * (chain + A)) : M A := fun w =>
  let n := w_step w in
  let found := e_others E n (w_store w) in
  let w := w <| w_step := S n |> <| w_seen := (w_seen w ++ [found])%list |> in
  if e_statement E n
  then let '(s, r) := f (e_now E n) found in (w <| w_store := s |>, r)
  else (w <| w_store := found |>, inl []).
Definition read {A} (f : PRStore -> A) : M A := statement (fun _ s => (s, inr (f s))).
Definition write (f : time -> PRStore -> PRStore) : M unit := statement (fun t s => (f t s, inr tt)).
(** A store operation with an outcome; its error changes nothing. *)
Definition run {A} (f : time -> PRStore -> result (PRStore * A)) : M A :=
  statement (fun t s => match f t s with Ok (s', a) => (s', inr a) | Err _ => (s, inl []) end).

Definition GetPullRequest : M PullRequest := read s_pr.
Definition now : M time := ask e_now.

(** ** Reading GitHub *)

Definition closed_details (d : Details) : bool := EqualFold (TrimSpace (d_State d)) "closed".

(** defaultMergeabilityRetryDelays: the number of waits. *)
Fixpoint fetchPullRequestDetails (delays : list Z) : M Details :=
  d ← request e_details;
  if closed_details d || negb (is_null (d_Mergeable d)) || isDefinitiveNullMergeabilityState (d_MergeableState d)
  then mret d
  else match delays with
       | [] => mret d
       | _ :: delays => ok ← ask e_wait; if ok : bool then fetchPullRequestDetails delays else throw []
       end.

Definition maxGitHubCheckPages : nat := 20.

(** A positive id that an earlier entry of the listing, or of this page, has. *)
Fixpoint repeats (seen ids : list Z) : option (list Z) :=
  match ids with
  | [] => Some seen
  | id :: ids => if 0 <? id then (if existsb (Z.eqb id) seen then None else repeats (id :: seen) ids) else repeats seen ids
  end.

Section Pages.
Context {Item : Type} (reply : Env -> nat -> chain + (list Item * Z * bool)) (itemID : Item -> Z).

(** [pages] is what is left of maxGitHubCheckPages, [first] says [page] is 1. *)
Fixpoint check_pages (incomplete : bool) (pages : nat) (first : bool) (items : list Item) (totalCount : Z) (seenIDs : list Z)
    : M (list Item) :=
  match pages with
  | O => throw [errIncompleteCheckPagination]
  | S pages =>
      _ ← (if negb first && incomplete
           then ok ← ask e_headroom; if ok : bool then mret tt else throw [ErrPullRequestCheckRefreshDeferred]
           else mret tt);
      page ← (if first then request reply else wrap errIncompleteCheckPagination (request reply));
      let '(entries, count, hasNext) := page in
      let totalCount := Z.max totalCount count in
      match repeats seenIDs (map itemID entries) with
      | None => throw [errIncompleteCheckPagination]
      | Some seenIDs =>
          let items := (items ++ entries)%list in
          let n := Z.of_nat (length items) in
          if match entries with [] => negb first || hasNext || (n <? totalCount) | _ => false end
          then throw [errIncompleteCheckPagination]
          else if negb hasNext && (totalCount <=? n) then mret items
          else check_pages incomplete pages false items totalCount seenIDs
      end
  end.
Definition listGitHubCheckPages (incomplete : bool) : M (list Item) := check_pages incomplete maxGitHubCheckPages true [] 0 [].
End Pages.

(** The index of the best run of each key; [later] is the rest of the list. *)
Definition run_key (c : gitHubCheckRun) : string :=
  projectedCheckSummaryKey (MkCheckSummary (cr_Name c) "" "" (cr_Slug c) "" "").
Definition best_of (key : string) (runs : list gitHubCheckRun) : option (nat * gitHubCheckRun) :=
  fst (foldl (fun '(best, i) c =>
    ((if run_key c ==? key
      then match best with None => Some (i, c) | Some (_, b) => if cr_ID b <? cr_ID c then Some (i, c) else best end
      else best), S i)) (None, O) runs).
Definition dedupeCheckRunsByProviderAndName (runs : list gitHubCheckRun) : list gitHubCheckRun :=
  if (length runs <=? 1)%nat then runs
  else omap (fun '(i, c) => match best_of (run_key c) runs with
                            | Some (j, _) => if (i =? j)%nat then Some c else None
                            | None => None
                            end) (imap pair runs).

Definition status_key (s : gitHubCommitStatus) : string :=
  let key := normalized (gs_Context s) in if key ==? "" then normalized (gs_TargetURL s) else key.
Fixpoint first_of_key (seen : list string) (l : list gitHubCommitStatus) : list gitHubCommitStatus :=
  match l with
  | [] => []
  | s :: l => if existsb (fun k => k ==? status_key s) seen then first_of_key seen l else s :: first_of_key (status_key s :: seen) l
  end.
Definition dedupeCommitStatusesByContext (l : list gitHubCommitStatus) : list gitHubCommitStatus :=
  if (length l <=? 1)%nat then l else first_of_key [] l.

Definition listCheckRunsForRef (incomplete : bool) : M (list gitHubCheckRun) :=
  runs ← listGitHubCheckPages e_runs cr_ID incomplete; mret (dedupeCheckRunsByProviderAndName runs).
Definition listCommitStatusesForRef (incomplete : bool) : M (list gitHubCommitStatus) :=
  l ← listGitHubCheckPages e_statuses gs_ID incomplete; mret (dedupeCommitStatusesByContext l).

(** ** The projection of check webhooks *)

Definition prHealthCheckBaselineDelay : Z := 15 * second.
Definition prHealthCheckBatchDelay : Z := 5 * (60 * second).
Definition maxHealthRebuildAttempts : nat := 3.

(** A statement on the tables of another component. *)
Definition elsewhere : M unit := read (fun _ => tt).

Definition mergeWhenReadyMergingStaleAfter : Z := 15 * (60 * second).
Definition isStaleMergeWhenReadyMerging (pr : PullRequest) (t : time) : bool :=
  (pr_MWRState pr ==? MWRMerging) && col_lt (pr_MWRUpdatedAt pr) (t - mergeWhenReadyMergingStaleAfter).
Definition isMergeWhenReadyProcessable (pr : PullRequest) (t : time) : bool :=
  (pr_MWRState pr ==? MWRQueued) || isStaleMergeWhenReadyMerging pr t.
Definition enqueueMergeWhenReadyProcessing (pr : PullRequest) : M unit :=
  t ← now; if isMergeWhenReadyProcessable pr t then (_ ← attempt elsewhere; emit EnqueuedMerge) else mret tt.
Definition publishPullRequestUpdated (c : HealthCurrent) : M unit := emit (Published (hc_Version c)).
Definition publishPullRequestTerminalState : M unit :=
  r ← attempt (read s_current);
  match r with inr (Some c) => publishPullRequestUpdated c | _ => mret tt end.

Record pullRequestCheckProjection := MkProjection {
  pj_pullRequest : option PullRequest; pj_canProject : option (HealthCurrent * HealthSummary); pj_healthChanged : bool; pj_refreshDelay : Z
}.
#[local] Instance eta_projection : Eta pullRequestCheckProjection := fun p =>
  MkProjection (pj_pullRequest p) (pj_canProject p) (pj_healthChanged p) (pj_refreshDelay p).

Definition known_head (pr : PullRequest) : option string :=
  match pr_HeadSHA pr with Some h => if TrimSpace h ==? "" then None else Some h | None => None end.
Definition pullRequestHasHealthBaseline (pr : PullRequest) : bool :=
  negb (is_null (pr_GitHubStateSyncedAt pr)) && (0 <? pr_HealthVersion pr) && negb (is_null (known_head pr)).

Definition loadPullRequestCheckProjection : M pullRequestCheckProjection :=
  pr ← GetPullRequest;
  if pr_Status pr <>? PullRequestStatusOpen then mret (MkProjection None None false 0)
  else
    let unprojectable := MkProjection (Some pr) None false prHealthCheckBaselineDelay in
    match known_head pr with
    | None => mret unprojectable
    | Some head =>
        current ← read s_current;
        match current with
        | None => mret unprojectable
        | Some c =>
            if hc_HeadSHA c <>? head then mret unprojectable
            else match hc_Summary c with
                 | Broken _ => mret unprojectable
                 | Decodes summary =>
                     mret (MkProjection (Some pr) (Some (c, summary)) false
                       (if negb (pullRequestHasHealthBaseline pr) || is_null (hs_CheckSetComplete summary) then prHealthCheckBaselineDelay
                        else if negb (default true (hs_CheckSetComplete summary)) then prHealthCheckBatchDelay else 0))
                 end
        end
    end.

Fixpoint rebuild_attempts (attempts : nat) : M pullRequestCheckProjection :=
  match attempts with
  | O => throw []
  | S attempts =>
      projection ← loadPullRequestCheckProjection;
      match pj_pullRequest projection, pj_canProject projection with
      | Some pr, Some (current, summary) =>
          states ← read (ListCheckStatesAfter (e_row_le E) (hc_HeadSHA current) (hc_CheckStateVersion current));
          match states with
          | [] => mret projection
          | _ =>
              let summary := rebuildProjectedHealthSummary summary states in
              let projection :=
                if (pj_refreshDelay projection =? 0) && negb (default true (hs_CheckSetComplete summary))
                then projection <| pj_refreshDelay := prHealthCheckBatchDelay |> else projection in
              r ← run (fun t s => let? (s, rebuilt, applied, changed) :=
                    UpsertProjectedHealthSummary t (hc_HeadSHA current) (hc_BaseSHA current) summary
                      (MkProjectedOptions (hc_Version current) (hc_HeadSHA current) (hc_CheckStateVersion current)
                         (latestProjectedCheckStateVersion states)) s in
                    Ok (s, (rebuilt, applied, changed)));
              let '(rebuilt, applied, healthChanged) := r in
              if negb applied then rebuild_attempts attempts
              else if negb healthChanged then mret projection
              else
                _ ← attempt (write (fun t => UpdateCIStatus t (deriveAggregateCIStatus (hs_Checks summary))));
                _ ← match rebuilt with Some c => publishPullRequestUpdated c | None => mret tt end;
                _ ← (if (pj_refreshDelay projection =? 0) && hs_ChecksConfirmed summary then enqueueMergeWhenReadyProcessing pr else mret tt);
                mret (projection <| pj_healthChanged := true |>)
          end
      | _, _ => mret projection
      end
  end.
Definition rebuildPullRequestHealthFromCheckStates : M pullRequestCheckProjection := rebuild_attempts maxHealthRebuildAttempts.

Definition queuePullRequestStateSyncAfter (delay : Z) : M unit := _ ← elsewhere; emit (EnqueuedSync delay).
Definition RebuildPullRequestHealthFromCheckStates : M bool :=
  projection ← rebuildPullRequestHealthFromCheckStates;
  _ ← (if 0 <? pj_refreshDelay projection then queuePullRequestStateSyncAfter (pj_refreshDelay projection) else mret tt);
  mret (pj_healthChanged projection).

Definition refreshPullRequestChecksNeeded : M bool :=
  projection ← loadPullRequestCheckProjection;
  if 0 <? pj_refreshDelay projection then mret true
  else match pj_pullRequest projection, pj_canProject projection with
       | Some pr, Some (current, summary) =>
           if (pr_MergeState pr ==? MergeStateMergeabilityPending) || (pr_MergeState pr ==? MergeStateUnknown) then mret true
           else
             states ← read (ListCheckStatesAfter (e_row_le E) (hc_HeadSHA current) (hc_CheckStateVersion current));
             mret (projectedStatesAddUnknownChecks (hs_Checks summary) states)
       | _, _ => mret false
       end.

(** ** Synchronizing with GitHub *)

Definition shouldSkipIndeterminateSnapshotWrite (mergeStateIndeterminate testsIndeterminate : bool) (newHeadSHA newBaseSHA : string)
    (newFailingTestCount : Z) (prior : HealthCurrent) : bool :=
  if negb mergeStateIndeterminate && negb testsIndeterminate then false
  else if (hc_HeadSHA prior <>? newHeadSHA) || (hc_BaseSHA prior <>? newBaseSHA) then false
  else match hc_Summary prior with
       | Broken _ => false
       | Decodes p =>
           (mergeStateIndeterminate && (hs_HasConflicts p || (hs_MergeState p ==? MergeStateConflicted)))
           || (testsIndeterminate && (newFailingTestCount <? hs_FailingTestCount p))
       end.

Definition resolvePullRequestHealthSync : M PullRequest :=
  pr ← GetPullRequest;
  repo ← ask e_repo;
  match repo with
  | RepoActive => _ ← request e_installation; mret pr
  | RepoInactive => throw [ErrPullRequestRepositoryDisconnected]
  | RepoMissing | RepoError => throw []
  end.

Definition provider_time (t : option time) : option time :=
  match t with Some t => if IsZero t then None else Some t | None => None end.
Definition codeReviewLifecycleObservedAt (t : option time) : M time :=
  match provider_time t with Some t => mret t | None => now end.

(** A closed pull request whose webhook was lost. *)
Definition applyClosedPRTransition (d : Details) : M bool :=
  observedAt ← codeReviewLifecycleObservedAt (d_UpdatedAt d);
  mergedAt ← (if d_Merged d then match d_MergedAt d with Some t => mret (Some t) | None => t ← now; mret (Some t) end else mret None);
  accepted ← (if e_insights E
    then
      accepted ← statement (fun t s =>
        let '(s, accepted) := recordPullRequestLifecycle t (MkLifecycle (d_Merged d) mergedAt true observedAt) None s in (s, inr accepted));
      if accepted : bool then (_ ← elsewhere; _ ← elsewhere; mret true) else mret false
    else if d_Merged d
    then run (fun t s => let? s := UpdateMergedStatus t (default 0 mergedAt) s in Ok (s, true))
    else (_ ← write (fun t => UpdateStatus t PullRequestStatusClosed); mret true));
  if accepted : bool
  then
    _ ← (if d_Merged d then emit (FollowUps (if d_MergeCommitSHA d ==? "" then d_HeadSHA d else d_MergeCommitSHA d)) else emit Closed);
    _ ← publishPullRequestTerminalState;
    mret true
  else mret false.

Definition mergeabilityRetryDelays : list Z := [250 * millisecond; 500 * millisecond; second; 2 * second].

Definition superseded_read (capture : bool) : M (option Details) :=
  if capture then throw [ErrPullRequestHealthSyncSuperseded] else mret None.

(** The pending webhooks after an applied read; failures are only logged. *)
Definition reconcile_raced (head : string) (version : Z) : M bool :=
  pending ← attempt (read (HasCheckStatesAfter head version));
  match pending with
  | inr true => r ← attempt RebuildPullRequestHealthFromCheckStates; mret (match r with inr changed => changed | inl _ => false end)
  | _ => mret false
  end.

(** From the reads of the checks on: everything after the lifecycle of the
    pull request was settled. *)
Definition apply_read (incomplete capture : bool) (pr : PullRequest) (version : Z) (d : Details) : M (option Details) :=
  checkRuns ← listCheckRunsForRef incomplete;
  statuses ← attempt (listCommitStatusesForRef incomplete);
  '(commitStatuses, checkSetComplete) ← match statuses with
    | inr l => mret (l, true)
    | inl e => if Is e ErrPullRequestCheckRefreshDeferred || Is e errIncompleteCheckPagination || Is e RetryableCause
               then throw e else mret ([], false)
    end;
  requiredChecksConfigured ← match checkRuns, commitStatuses with [], [] => request e_required | _, _ => mret false end;
  prior ← read s_current;
  t ← now;
  let summary := sync_summary (d_Mergeable d) (d_MergeableState d) checkRuns commitStatuses checkSetComplete requiredChecksConfigured in
  let checkStates := (map (check_run_state t (d_HeadSHA d)) checkRuns ++ map (commit_status_state t (d_HeadSHA d)) commitStatuses)%list in
  let '(mergeStateIndeterminate, testsIndeterminate) :=
    detectIndeterminateSignals (d_Mergeable d) (d_MergeableState d) checkRuns commitStatuses in
  if match prior with
     | Some p => shouldSkipIndeterminateSnapshotWrite mergeStateIndeterminate testsIndeterminate (d_HeadSHA d) (d_BaseSHA d)
                   (hs_FailingTestCount summary) p
     | None => false
     end
  then if mergeStateIndeterminate then throw [ErrPullRequestMergeabilityPending] else mret (Some d)
  else
    '(current, applied) ← run (fun t s =>
      let? (s, applied) := ApplyHealthSync t (MkHealthSyncSnapshot (default "" (pr_HeadSHA pr)) (default "" (pr_BaseSHA pr))
        (d_HeadSHA d) (d_BaseSHA d) version checkStates summary (deriveAggregateCIStatus (hs_Checks summary))) s in
      Ok (s, (s_current s, applied)));
    if negb applied then superseded_read capture
    else
      projectedHealthChanged ← reconcile_raced (d_HeadSHA d) version;
      _ ← (if projectedHealthChanged : bool then mret tt
           else
             _ ← match current with Some c => publishPullRequestUpdated c | None => mret tt end;
             enqueueMergeWhenReadyProcessing pr);
      if mergeStateIndeterminate then throw [ErrPullRequestMergeabilityPending] else mret (Some d).

(** [capture] is set for a code review, which takes the details of the read
    that was applied. *)
Definition syncResolvedPullRequestStateCapturing (incomplete capture : bool) (resolved : option PullRequest) : M (option Details) :=
  pr ← match resolved with Some pr => mret pr | None => resolvePullRequestHealthSync end;
  version ← statement (fun _ s => let '(s, v) := ReserveCheckStateVersion s in (s, inr v));
  readStartedAt ← now;
  d ← fetchPullRequestDetails mergeabilityRetryDelays;
  if capture && (d_HeadSHA d ==? "") then throw []
  else if capture && closed_details d then mret (Some d)
  else if closed_details d && (pr_Status pr ==? PullRequestStatusOpen) then (_ ← applyClosedPRTransition d; mret None)
  else if EqualFold (TrimSpace (d_State d)) "open" && (pr_Status pr ==? PullRequestStatusClosed)
  then
    accepted ← statement (fun t s =>
      let '(s, accepted) := ReopenIfUnchanged t (pr_UpdatedAt pr) (default readStartedAt (provider_time (d_UpdatedAt d))) s in (s, inr accepted));
    if accepted : bool then apply_read incomplete capture pr version d else superseded_read capture
  else apply_read incomplete capture pr version d.

Inductive PullRequestSyncReason :=
| ReasonInitial | ReasonHeadChanged | ReasonBaseChanged | ReasonReadyForReview | ReasonIncomplete | ReasonStaleReconcile
| ReasonMergeSafety | ReasonCodeReview | ReasonRepair | ReasonManual | ReasonMergeabilityWait.
Definition coalesces (r : PullRequestSyncReason) : bool :=
  match r with ReasonInitial | ReasonStaleReconcile | ReasonMergeabilityWait => true | _ => false end.

Definition syncPullRequestState : M unit := _ ← syncResolvedPullRequestStateCapturing false false None; mret tt.

Definition syncWebhookPullRequestChecks : M unit :=
  needed ← refreshPullRequestChecksNeeded;
  if needed : bool
  then
    pr ← resolvePullRequestHealthSync;
    admitted ← wrap ErrPullRequestCheckRefreshDeferred (request e_admit);
    if admitted : bool then (_ ← syncResolvedPullRequestStateCapturing true false (Some pr); mret tt)
    else throw [ErrPullRequestCheckRefreshDeferred]
  else mret tt.

(** A coalesced call may find a flight of another caller and share its
    outcome; what that flight wrote is then the work of the others. *)
Definition SyncPullRequestState (reason : PullRequestSyncReason) : M unit :=
  match reason with
  | ReasonIncomplete => syncWebhookPullRequestChecks
  | _ => if coalesces reason
         then (flight ← ask e_flight; match flight with Some r => lift r | None => syncPullRequestState end)
         else syncPullRequestState
  end.

Fixpoint code_review_attempts (n : nat) : M Details :=
  match n with
  | O => throw [ErrPullRequestHealthSyncSuperseded]
  | S n =>
      r ← attempt (syncResolvedPullRequestStateCapturing false true None);
      match r with
      | inl e => if Is e ErrPullRequestHealthSyncSuperseded then code_review_attempts n else throw e
      | inr (Some d) => mret d
      | inr None => throw []
      end
  end.
Definition SyncCodeReviewPullRequestState : M Details := code_review_attempts 3.

(** ** The health a client sees *)

Definition pullRequestHealthSyncStatus (pr : PullRequest) : SyncStatus :=
  if (pr_Status pr ==? PullRequestStatusOpen)
     && (is_null (pr_GitHubStateSyncedAt pr) || (pr_HealthVersion pr =? 0)
         || (pr_MergeState pr ==? MergeStateMergeabilityPending) || (pr_MergeState pr ==? MergeStateUnknown))
  then SyncStatusPending else SyncStatusSynced.

Definition row_response (pr : PullRequest) : HealthResponse :=
  let resp := derivePullRequestRepairActions (MkHealthResponse (pr_Number pr) (pr_Repo pr) (pr_Status pr) "" "" (pr_HealthVersion pr)
    (pullRequestHealthSyncStatus pr) false (pr_MergeState pr) (pr_HasConflicts pr) (pr_FailingTestCount pr) (pr_NeedsAgentAction pr)
    [] false false false false [] None false false []) in
  resp <| hr_HeadSHA := default "" (pr_HeadSHA pr) |> <| hr_BaseSHA := default "" (pr_BaseSHA pr) |>.

(** Overlaying the current summary, when it is about the row's head. *)
Definition summary_response (pr : PullRequest) (current : HealthCurrent) (resp : HealthResponse) : HealthResponse :=
  let currentMatchesHead := negb (pr_HealthVersion pr =? 0) || (hr_HeadSHA resp ==? "") || (hc_HeadSHA current ==? hr_HeadSHA resp) in
  match currentMatchesHead, hc_Summary current with
  | true, Decodes summary =>
      let summary := normalizeStoredCheckSummaries summary in
      let confirmed := hs_ChecksConfirmed summary
        || (is_null (hs_CheckSetComplete summary) && match hs_Checks summary with [] => false | _ => true end
            && determineChecksConfirmed (hs_Checks summary) false) in
      derivePullRequestRepairActions (resp
        <| hr_MergeState := hs_MergeState summary |> <| hr_HasConflicts := hs_HasConflicts summary |>
        <| hr_FailingTestCount := hs_FailingTestCount summary |> <| hr_NeedsAgentAction := hs_NeedsAgentAction summary |>
        <| hr_Checks := hs_Checks summary |> <| hr_HealthVersion := hc_Version current |> <| hr_HeadSHA := hc_HeadSHA current |>
        <| hr_BaseSHA := hc_BaseSHA current |> <| hr_ChecksConfirmed := confirmed |> <| hr_Enrichment := Some (hc_Enrichment current) |>)
  | _, _ => resp
  end.

Definition isSessionTerminalStatus (status : string) : bool :=
  among status ["completed"; "pr_created"; "failed"; "cancelled"; "skipped"].

Definition populateActiveRepairs (resp : HealthResponse) : M HealthResponse :=
  if hr_HealthVersion resp =? 0 then mret resp
  else
    runs ← read (fun s => if hr_HeadSHA resp <>? "" then ListActiveRepairRunsByHead (hr_HeadSHA resp) s
                          else ListActiveRepairRuns (hr_HealthVersion resp) s);
    match runs with
    | [] => mret resp
    | _ =>
        sessions ← ask e_sessions;
        match sessions with
        | None => throw []
        | Some sessions =>
            let live := List.filter (fun run => match sessions (rr_SessionID run) with
                                                | Some status => negb (isSessionTerminalStatus status)
                                                | None => false
                                                end) runs in
            match live with
            | [] => mret resp
            | _ => mret (resp
                <| hr_ActiveRepairs := map (fun run => MkActiveRepair (rr_ActionType run) (rr_SessionID run) (rr_ThreadID run)
                                                        (rr_HealthVersion run) (rr_AutoAttempt run)) live |>
                <| hr_CanMerge := false |>)
            end
        end
    end.

Definition maxAutomaticRepairAttemptsPerHeadAction : Z := 1.
Definition autoRepairBudgetExhausted (action : RepairAction) (headSHA : string) : M bool :=
  if headSHA ==? "" then mret true
  else count ← read (CountAutoRepairAttemptsByHead headSHA action); mret (maxAutomaticRepairAttemptsPerHeadAction <=? count).

(** What the owner of the session prefers, if there is one. *)
Definition applySessionAutoRepairOverride (policy : autoRepairPolicy) : M autoRepairPolicy :=
  owner ← request e_owner;
  match owner with
  | None => mret policy
  | Some (conflicts, tests) =>
      mret (MkAutoRepairPolicy (applyAutoRepairPreference (ap_ResolveConflicts policy) conflicts)
                               (applyAutoRepairPreference (ap_FixTests policy) tests))
  end.

Definition enabled (policy : autoRepairPolicy) (action : RepairAction) : bool :=
  match action with ResolveConflicts => ap_ResolveConflicts policy | FixTests => ap_FixTests policy end.
Definition exhausted_action (policy : autoRepairPolicy) (action : RepairAction) (resp : HealthResponse) : M HealthResponse :=
  if enabled policy action
  then (exhausted ← autoRepairBudgetExhausted action (hr_HeadSHA resp);
        mret (if exhausted : bool
              then resp <| hr_AutoRepairExhaustedActions := (hr_AutoRepairExhaustedActions resp ++ [action])%list |> else resp))
  else mret resp.
Definition populateAutoRepairAttemptState (pr : PullRequest) (resp : HealthResponse) : M HealthResponse :=
  if (pr_Status pr <>? PullRequestStatusOpen) || (hr_HeadSHA resp ==? "") then mret resp
  else
    policy ← request e_org;
    policy ← (match pr_SessionID pr with Some _ => applySessionAutoRepairOverride policy | None => mret policy end);
    resp ← exhausted_action policy ResolveConflicts resp; exhausted_action policy FixTests resp.

Definition buildPullRequestHealthResponse (skipAutoRepairAttemptState : bool) (pr : PullRequest) : M HealthResponse :=
  current ← read s_current;
  resp ← (match current with
    | None => mret (row_response pr)
    | Some c =>
        let resp := summary_response pr c (row_response pr) in
        if hr_Enrichment resp ==? Some EnrichmentReady
        then
          snapshot ← attempt (read (fun s => select (fun sn => sn_Version sn =? hc_Version c) (s_snapshots s)));
          mret (match snapshot with
                | inr (sn :: _) => resp <| hr_ConflictDetailAvailable := sn_HasConflictPayload sn |>
                                        <| hr_FailingTestDetailAvailable := sn_HasFailingTestsPayload sn |>
                | _ => resp
                end)
        else mret resp
    end);
  resp ← populateActiveRepairs resp;
  if skipAutoRepairAttemptState then mret resp else populateAutoRepairAttemptState pr resp.

(** ** Merging *)

Definition parent_error (p : Parent) : option (chain * string) :=
  match p with
  | NotStacked => None
  | ChangesetUnreadable => Some ([], "load pull request changeset")
  | ParentUnpublished => Some ([ErrStackParentUnmerged], "stacked pull request parent is not merged: parent pull request is unpublished")
  | ParentStatus number status =>
      if status ==? PullRequestStatusMerged then None
      else Some ([ErrStackParentUnmerged],
        "stacked pull request parent is not merged: parent pull request #" +:+ pretty number +:+ " is " +:+ status)
  end.
Definition ensureStackParentMerged : M unit :=
  p ← ask e_parent; match parent_error p with None => mret tt | Some (e, _) => throw e end.

Definition get_repo : M unit := r ← ask e_repo; match r with RepoActive => mret tt | _ => throw [] end.

Definition mergePullRequest (expectedHeadSHA : option string) : M (string * MergeMethod) :=
  pr ← GetPullRequest;
  if pr_Status pr <>? PullRequestStatusOpen then throw [ErrPullRequestNotMergeable]
  else
    _ ← ensureStackParentMerged;
    _ ← wrap ErrMergeStateRefreshFailed (SyncPullRequestState ReasonMergeSafety);
    pr ← GetPullRequest;
    health ← buildPullRequestHealthResponse false pr;
    if negb (hr_CanMerge health) then throw [if mergeBlockIsTransient health then ErrPullRequestNotYetMergeable else ErrPullRequestNotMergeable]
    else if hr_HeadSHA health ==? "" then throw [ErrPullRequestNotMergeable]
    else if negb (validateExpectedMergeHead (hr_HeadSHA health) expectedHeadSHA) then throw [ErrPullRequestHeadChanged]
    else
      _ ← get_repo;
      _ ← request e_identity;
      settings ← request e_settings;
      match selectMergeMethod settings with
      | None => throw [ErrNoMergeMethodAllowed]
      | Some method =>
          _ ← emit (MergeRequest (pr_Number pr) (hr_HeadSHA health) method);
          reply ← request e_merge;
          if negb (mr_Merged reply) then throw [ErrGitHubMergeIncomplete]
          else
            _ ← attempt (write (fun t => UpdateStatus t PullRequestStatusMerged));
            _ ← emit (FollowUps (mr_SHA reply));
            _ ← publishPullRequestTerminalState;
            mret (mr_SHA reply, method)
      end.
Definition MergePullRequest : M (string * MergeMethod) := mergePullRequest None.

(** ** Merge when ready *)

Definition mergeWhenReadyChecksRegisterGrace : Z := 30 * second.
Definition mergeWhenReadyShouldWaitForChecks (pr : PullRequest) (health : HealthResponse) (t : time) : bool :=
  match hr_Checks health, pr_MWRRequestedAt pr with
  | [], Some requested => t - requested <? mergeWhenReadyChecksRegisterGrace
  | _, _ => false
  end.

Definition mergeWhenReadyFailureMessage (e : chain) : string :=
  if Is e ErrGitHubUserAuthRequired then "Connect your GitHub account to merge this pull request as yourself."
  else if Is e ErrGitHubUserAuthRepoAccessDenied then "Your GitHub account cannot access this repository for merge."
  else if Is e ErrNoMergeMethodAllowed then "Repository does not allow any merge method."
  else if Is e ErrPullRequestNotMergeable then "Pull request is not in a mergeable state."
  else if Is e ErrPullRequestHeadChanged then "PR head changed after merge when ready was enabled."
  else "Failed to merge pull request.".

Definition ensureMergeWhenReadyAuthAvailable : M unit :=
  required ← request e_userRequired;
  if required : bool then (_ ← get_repo; request e_identity) else mret tt.

Definition currentMergeWhenReadyHealth (pr : PullRequest) : M HealthResponse :=
  pr ← (if is_null (pr_GitHubStateSyncedAt pr) || (pr_HealthVersion pr =? 0)
        then
          r ← attempt (SyncPullRequestState ReasonInitial);
          _ ← match r with inl e => if Is e ErrPullRequestMergeabilityPending then mret tt else throw e | inr _ => mret tt end;
          GetPullRequest
        else mret pr);
  buildPullRequestHealthResponse false pr.

Definition svc_QueueMergeWhenReady (userID : uuid) : M unit :=
  pr ← GetPullRequest;
  if pr_Status pr <>? PullRequestStatusOpen then throw [ErrPullRequestMergeWhenReadyNotQueueable]
  else
    _ ← ensureStackParentMerged;
    if pr_MWRState pr ==? MWRMerging then throw [ErrPullRequestMergeWhenReadyInProgress]
    else if pr_MWRState pr ==? MWRSucceeded then throw [ErrPullRequestMergeWhenReadyNotQueueable]
    else
      health ← currentMergeWhenReadyHealth pr;
      if negb (mergeWhenReadyQueueability health).2 then throw [ErrPullRequestMergeWhenReadyNotQueueable]
      else
        _ ← ensureMergeWhenReadyAuthAvailable;
        _ ← run (fun t s => let? s := QueueMergeWhenReady t userID (hr_HeadSHA health) (hr_HealthVersion health) s in Ok (s, tt));
        enqueueMergeWhenReadyProcessing (pr <| pr_MWRState := MWRQueued |>).

Definition svc_CancelMergeWhenReady : M unit :=
  pr ← GetPullRequest;
  match pr_MWRState pr with
  | MWRMerging => throw [ErrPullRequestMergeWhenReadyInProgress]
  | MWRSucceeded => throw [ErrPullRequestMergeWhenReadyNotQueueable]
  | MWROff => mret tt
  | _ => run (fun t s => let? s := CancelMergeWhenReady t s in Ok (s, tt))
  end.

Definition mark_failed (reason : string) : M unit := write (fun t => MarkMergeWhenReadyFailed t reason).

(** After the claim: the merge, and what becomes of the request. *)
Definition merge_claimed (pr : PullRequest) : M unit :=
  r ← attempt (mergePullRequest (Some (pr_MWRHeadSHA pr)));
  match r with
  | inr _ => write MarkMergeWhenReadySucceeded
  | inl e =>
      if Is e ErrPullRequestNotYetMergeable
      then (_ ← write ReleaseMergeWhenReadyClaim; throw [ErrPullRequestMergeWhenReadyChecksPending])
      else mark_failed (mergeWhenReadyFailureMessage e)
  end.

Definition ProcessMergeWhenReady : M unit :=
  pr ← GetPullRequest;
  t ← now;
  if negb (isMergeWhenReadyProcessable pr t) then mret tt
  else if pr_Status pr <>? PullRequestStatusOpen then mark_failed "Pull request is no longer open."
  else
    parent ← ask e_parent;
    match parent_error parent with
    | Some (_, reason) => mark_failed reason
    | None =>
        r ← attempt (SyncPullRequestState ReasonMergeSafety);
        _ ← match r with inl e => if Is e ErrPullRequestMergeabilityPending then mret tt else throw e | inr _ => mret tt end;
        pr ← GetPullRequest;
        t ← now;
        if negb (isMergeWhenReadyProcessable pr t) then mret tt
        else
          health ← buildPullRequestHealthResponse false pr;
          if (pr_MWRHeadSHA pr <>? "") && (hr_HeadSHA health <>? "") && (pr_MWRHeadSHA pr <>? hr_HeadSHA health)
          then mark_failed "PR head changed after merge when ready was enabled."
          else if hr_CanMerge health
          then
            t ← now;
            if mergeWhenReadyShouldWaitForChecks pr health t then throw [ErrPullRequestMergeWhenReadyChecksPending]
            else match pr_MWRRequestedBy pr with
                 | None => mark_failed "Merge when ready is missing the requesting user."
                 | Some _ =>
                     t ← now;
                     claimed ← statement (fun t' s =>
                       let '(s, claimed) := ClaimMergeWhenReadyForProcessing t' (t - mergeWhenReadyMergingStaleAfter) s in (s, inr claimed));
                     if claimed : bool then merge_claimed pr else mret tt
                 end
          else
            let '(reason, queueable) := mergeWhenReadyQueueability health in
            if negb queueable then mark_failed reason else mret tt
    end.

End Service.
