(* ===== verification/PrServiceProperties.v ===== *)
(** * What the pull request service guarantees

    A merge is asked of GitHub only for the head of a health summary that was
    green when the call read it after its own synchronization, at most once per
    call, and the outcome of a claimed merge is recorded; a listing of checks
    is complete or refused, and keeps the newest run of each check. *)

From S2P Require Import Prelude GoRuntime Sql PrHealth PrStore PrStoreProperties PrService.
From stdpp Require Import base option list strings pretty gmap.

Open Scope string_scope.
Open Scope Z_scope.

(** ** Computations that send nothing *)

Definition is_merge (x : Effect) : bool := match x with MergeRequest _ _ _ => true | _ => false end.

(** A computation extends the log, without merge requests, and the states it
    saw. *)
Definition quiet {A} (m : M A) : Prop := forall w, exists l seen,
  w_log (m w).1 = (w_log w ++ l)%list /\ Forall (fun x => is_merge x = false) l /\ w_seen (m w).1 = (w_seen w ++ seen)%list.

Create HintDb quiet.

Lemma quiet_ret {A} (a : A) : quiet (mret a).
Proof. intros w. exists [], []. by rewrite !app_nil_r. Qed.
Lemma quiet_throw {A} e : quiet (@throw A e).
Proof. intros w. exists [], []. by rewrite !app_nil_r. Qed.
Lemma quiet_lift {A} (r : chain + A) : quiet (lift r).
Proof. intros w. exists [], []. by rewrite !app_nil_r. Qed.
Lemma quiet_bind {A B} (m : M A) (k : A -> M B) : quiet m -> (forall a, quiet (k a)) -> quiet (m ≫= k).
Proof.
  intros Hm Hk w. unfold mbind, M_bind. destruct (Hm w) as (l & sn & El & Hl & Es). destruct (m w) as [w1 [e|a]]; simpl in *.
  - by exists l, sn.
  - destruct (Hk a w1) as (l2 & sn2 & El2 & Hl2 & Es2). exists (l ++ l2)%list, (sn ++ sn2)%list.
    rewrite El2, El, Es2, Es, !app_assoc. split; [done|]. split; [by apply Forall_app|done].
Qed.
Lemma quiet_attempt {A} (m : M A) : quiet m -> quiet (attempt m).
Proof. intros Hm w. unfold attempt. destruct (Hm w) as (l & sn & H). destruct (m w). by exists l, sn. Qed.
Lemma quiet_wrap {A} x (m : M A) : quiet m -> quiet (wrap x m).
Proof. intros Hm w. unfold wrap. destruct (Hm w) as (l & sn & H). destruct (m w) as [? []]; by exists l, sn. Qed.
Lemma quiet_emit x : is_merge x = false -> quiet (emit x).
Proof. intros Hx w. exists [x], []. simpl. rewrite app_nil_r. repeat constructor. done. Qed.
Lemma quiet_ask {A} E (f : Env -> nat -> A) : quiet (ask E f).
Proof. intros w. exists [], []. by rewrite !app_nil_r. Qed.
Lemma quiet_request {A} E (f : Env -> nat -> chain + A) : quiet (request E f).
Proof. intros w. exists [], []. by rewrite !app_nil_r. Qed.
Lemma quiet_statement {A} E (f : time -> PRStore -> PRStore * (chain + A)) : quiet (statement E f).
Proof.
  intros w. unfold statement. exists [], [e_others E (w_step w) (w_store w)].
  destruct (e_statement E (w_step w)); [destruct (f _ _)|]; simpl; by rewrite app_nil_r.
Qed.
#[export] Hint Resolve quiet_ret quiet_throw quiet_lift quiet_bind quiet_attempt quiet_wrap quiet_ask quiet_request quiet_statement : quiet.
#[export] Hint Extern 1 (quiet (emit _)) => apply quiet_emit; reflexivity : quiet.

Ltac quiet := repeat first
  [ progress (eauto 2 with quiet)
  | progress intros | apply quiet_bind
  | apply quiet_attempt | apply quiet_wrap
  | match goal with |- quiet (match ?x with _ => _ end) => destruct x end
  | match goal with |- quiet (let '_ := ?x in _) => destruct x end ].

Section Quiet.
Context (E : Env).
Lemma quiet_read {A} (f : PRStore -> A) : quiet (read E f). Proof. apply quiet_statement. Qed.
Lemma quiet_write f : quiet (write E f). Proof. apply quiet_statement. Qed.
Lemma quiet_run {A} (f : time -> PRStore -> result (PRStore * A)) : quiet (run E f). Proof. apply quiet_statement. Qed.
Lemma quiet_elsewhere : quiet (elsewhere E). Proof. apply quiet_statement. Qed.
Hint Resolve quiet_read quiet_write quiet_run quiet_elsewhere : quiet.

Lemma quiet_details delays : quiet (fetchPullRequestDetails E delays).
Proof. induction delays; simpl; quiet. Qed.
Lemma quiet_pages {Item} reply (id : Item -> Z) inc n first items total seen : quiet (check_pages E reply id inc n first items total seen).
Proof. revert first items total seen. induction n; intros; simpl; quiet. Qed.
Lemma quiet_runs inc : quiet (listCheckRunsForRef E inc).
Proof. unfold listCheckRunsForRef, listGitHubCheckPages. apply quiet_bind; [apply quiet_pages|quiet]. Qed.
Lemma quiet_statuses inc : quiet (listCommitStatusesForRef E inc).
Proof. unfold listCommitStatusesForRef, listGitHubCheckPages. apply quiet_bind; [apply quiet_pages|quiet]. Qed.
Lemma quiet_enqueue pr : quiet (enqueueMergeWhenReadyProcessing E pr).
Proof. unfold enqueueMergeWhenReadyProcessing, now. quiet. Qed.
Lemma quiet_terminal : quiet (publishPullRequestTerminalState E).
Proof. unfold publishPullRequestTerminalState, publishPullRequestUpdated. quiet. Qed.
Lemma quiet_load : quiet (loadPullRequestCheckProjection E).
Proof. unfold loadPullRequestCheckProjection, GetPullRequest. quiet. Qed.
Hint Resolve quiet_details quiet_runs quiet_statuses quiet_enqueue quiet_terminal quiet_load : quiet.

Lemma quiet_rebuild n : quiet (rebuild_attempts E n).
Proof. induction n; simpl; unfold publishPullRequestUpdated; quiet. Qed.
Lemma quiet_Rebuild : quiet (RebuildPullRequestHealthFromCheckStates E).
Proof.
  unfold RebuildPullRequestHealthFromCheckStates, rebuildPullRequestHealthFromCheckStates, queuePullRequestStateSyncAfter.
  apply quiet_bind; [apply quiet_rebuild|quiet].
Qed.
Hint Resolve quiet_Rebuild : quiet.
Lemma quiet_resolve : quiet (resolvePullRequestHealthSync E).
Proof. unfold resolvePullRequestHealthSync, GetPullRequest. quiet. Qed.
Lemma quiet_closed d : quiet (applyClosedPRTransition E d).
Proof. unfold applyClosedPRTransition, codeReviewLifecycleObservedAt, now. quiet. Qed.
Lemma quiet_apply inc cap pr v d : quiet (apply_read E inc cap pr v d).
Proof. unfold apply_read, reconcile_raced, superseded_read, now, publishPullRequestUpdated. quiet. Qed.
Hint Resolve quiet_resolve quiet_closed quiet_apply : quiet.
Lemma quiet_sync inc cap resolved : quiet (syncResolvedPullRequestStateCapturing E inc cap resolved).
Proof. unfold syncResolvedPullRequestStateCapturing, now, superseded_read. quiet. Qed.
Hint Resolve quiet_sync : quiet.
Lemma quiet_Sync reason : quiet (SyncPullRequestState E reason).
Proof. unfold SyncPullRequestState, syncWebhookPullRequestChecks, refreshPullRequestChecksNeeded, syncPullRequestState. quiet. Qed.
Lemma quiet_health skip pr : quiet (buildPullRequestHealthResponse E skip pr).
Proof.
  unfold buildPullRequestHealthResponse, populateActiveRepairs, populateAutoRepairAttemptState, exhausted_action, applySessionAutoRepairOverride,
    autoRepairBudgetExhausted. quiet.
Qed.
Lemma quiet_parent : quiet (ensureStackParentMerged E).
Proof. unfold ensureStackParentMerged. quiet. Qed.
Lemma quiet_repo : quiet (get_repo E).
Proof. unfold get_repo. quiet. Qed.
End Quiet.

(** ** Inversion of a computation *)

Lemma bind_inv {A B} (m : M A) (k : A -> M B) w w' r : (m ≫= k) w = (w', r) ->
  (exists e, m w = (w', inl e) /\ r = inl e) \/ exists a w1, m w = (w1, inr a) /\ k a w1 = (w', r).
Proof. unfold mbind, M_bind. destruct (m w) as [w1 [e|a]]; [intros [= <- <-]; eauto|eauto]. Qed.
Lemma wrap_inv {A} x (m : M A) w w' a : wrap x m w = (w', inr a) -> m w = (w', inr a).
Proof. unfold wrap. by destruct (m w) as [w1 [e|b]]; intros [= <- <-]. Qed.
Lemma attempt_inv {A} (m : M A) w w' r : attempt m w = (w', inr r) -> m w = (w', r).
Proof. unfold attempt. by destruct (m w) as [w1 q]; intros [= <- <-]. Qed.

(** The states a prefix of a call saw are a prefix of the states it saw. *)
Definition after (w w' : World) (s : PRStore) : Prop := exists sn, w_seen w' = (w_seen w ++ sn)%list /\ In s sn.

Lemma quiet_run_inv {A} (m : M A) w w' r : quiet m -> m w = (w', r) ->
  exists l sn, w_log w' = (w_log w ++ l)%list /\ Forall (fun x => is_merge x = false) l /\ w_seen w' = (w_seen w ++ sn)%list.
Proof. intros Hq E. destruct (Hq w) as (l & sn & H). rewrite E in H. eauto. Qed.

Definition merges (w : World) : list Effect := List.filter is_merge (w_log w).
Lemma quiet_merges {A} (m : M A) w w' r : quiet m -> m w = (w', r) -> merges w' = merges w.
Proof.
  intros Hq E. destruct (quiet_run_inv m w w' r Hq E) as (l & sn & El & Hl & _). unfold merges. rewrite El, List.filter_app.
  assert (Hn : List.filter is_merge l = []) by (clear El; induction Hl as [|x l Hx Hl IH]; simpl; [done|]; by rewrite Hx).
  by rewrite Hn, app_nil_r.
Qed.
Lemma quiet_seen {A} (m : M A) w w' r : quiet m -> m w = (w', r) -> exists sn, w_seen w' = (w_seen w ++ sn)%list.
Proof. intros Hq E. destruct (quiet_run_inv m w w' r Hq E) as (l & sn & _ & _ & H). eauto. Qed.

(** ** Green health *)

Definition green (sha : string) (s : PRStore) : Prop := exists c summary,
  s_current s = Some c /\ hc_Summary c = Decodes summary /\ hc_HeadSHA c = sha /\ sha <> "" /\ hs_MergeState summary = MergeStateClean
  /\ Forall (fun k => cs_Status k = CheckStatusPassed) (hs_Checks summary) /\ (hs_ChecksConfirmed summary = true \/ hs_Checks summary <> []).

Lemma fill_unknown_passed rest checks :
  forallb (fun k => classifyStoredCheckStatus k ==? CheckStatusPassed) (fill_unknown rest checks) = true ->
  Forall (fun k => cs_Status k = CheckStatusPassed) checks.
Proof.
  revert rest. induction checks as [|k checks IH]; intros rest H; simpl in *; [done|].
  destruct (CheckStatus_Validate (cs_Status k)) eqn:Ev; simpl in H.
  - apply andb_true_iff in H as [Hk H]. constructor; [|by eapply IH]. unfold classifyStoredCheckStatus, normalizeStoredCheckStatus in Hk.
    rewrite Ev in Hk. by reflect_bools.
  - destruct (_ && _); simpl in H; done.
Qed.
Lemma fill_unknown_nil rest checks : fill_unknown rest checks = [] -> checks = [].
Proof. destruct checks as [|k checks]; simpl; [done|]. by repeat case_match. Qed.

Lemma row_cannot_merge pr : hr_CanMerge (row_response pr) = false.
Proof. unfold row_response, derivePullRequestRepairActions. simpl. case_match; simpl; [done|]. by rewrite !andb_false_r. Qed.

Lemma derive_merge r : hr_CanMerge (derivePullRequestRepairActions r) = true ->
  hr_Status r = PullRequestStatusOpen /\ hr_MergeState r = MergeStateClean /\ checksAllowMerge (hr_ChecksConfirmed r) (hr_Checks r) = true.
Proof.
  unfold derivePullRequestRepairActions. case_match; simpl; [done|]. rewrite !andb_true_iff, !bool_decide_eq_true. tauto.
Qed.
Lemma derive_keeps r : let d := derivePullRequestRepairActions r in
  hr_HeadSHA d = hr_HeadSHA r /\ hr_Status d = hr_Status r /\ hr_Checks d = hr_Checks r.
Proof. unfold derivePullRequestRepairActions. by case_match. Qed.
Lemma row_status pr : hr_Status (row_response pr) = pr_Status pr.
Proof. unfold row_response. simpl. by destruct (derive_keeps (MkHealthResponse (pr_Number pr) (pr_Repo pr) (pr_Status pr) "" "" (pr_HealthVersion pr)
    (pullRequestHealthSyncStatus pr) false (pr_MergeState pr) (pr_HasConflicts pr) (pr_FailingTestCount pr) (pr_NeedsAgentAction pr)
    [] false false false false [] None false false [])) as (_ & -> & _). Qed.

Lemma summary_green pr c s : s_current s = Some c -> hr_CanMerge (summary_response pr c (row_response pr)) = true ->
  hr_HeadSHA (summary_response pr c (row_response pr)) <> "" ->
  green (hr_HeadSHA (summary_response pr c (row_response pr))) s /\ pr_Status pr = PullRequestStatusOpen.
Proof.
  intros Ec. unfold summary_response.
  destruct (_ || (hc_HeadSHA c ==? _)); [|by rewrite row_cannot_merge].
  destruct (hc_Summary c) as [summary|] eqn:Es; [|by rewrite row_cannot_merge].
  match goal with |- context [derivePullRequestRepairActions ?x] => set (r := x) end.
  intros (Hst & Hcl & Ha)%derive_merge. destruct (derive_keeps r) as (-> & _). intros Hh.
  unfold checksAllowMerge in Ha. apply andb_true_iff in Ha as [Hconf Hall]. split; [|by rewrite <- row_status].
  exists c, summary. split; [done|]. split; [done|]. split; [done|]. split; [done|]. split; [done|].
  split; [exact (fill_unknown_passed _ _ Hall)|]. simpl in Hconf.
  apply orb_true_iff in Hconf as [?|Hconf]; [by left|right]. intros Hn. rewrite Hn in Hconf. simpl in Hconf.
  by rewrite andb_false_r in Hconf.
Qed.

Lemma read_inv {A} E (f : PRStore -> A) w w' a : read E f w = (w', inr a) ->
  let found := e_others E (w_step w) (w_store w) in a = f found /\ w_seen w' = (w_seen w ++ [found])%list.
Proof. unfold read, statement. destruct (e_statement E (w_step w)); [|done]. by intros [= <- <-]. Qed.

(** The cases of a bind that ended in a value. *)
Tactic Notation "bind_val" hyp(H) "as" ident(a) ident(w) ident(E) :=
  apply bind_inv in H as [(? & _ & H)|(a & w & E & H)]; [discriminate H|].

Lemma active_keeps E resp w w' r : populateActiveRepairs E resp w = (w', inr r) ->
  hr_HeadSHA r = hr_HeadSHA resp /\ (hr_CanMerge r = true -> hr_CanMerge resp = true).
Proof.
  unfold populateActiveRepairs. destruct (hr_HealthVersion resp =? 0); [by intros [= <- <-]|]. intros H. bind_val H as runs w1 E1.
  destruct runs as [|run runs]; [by injection H as <- <-|]. bind_val H as f w2 E2. destruct f as [f|]; [|done].
  destruct (List.filter _ _); by injection H as <- <-.
Qed.
Lemma exhausted_keeps E policy action resp w w' r : exhausted_action E policy action resp w = (w', inr r) ->
  hr_HeadSHA r = hr_HeadSHA resp /\ hr_CanMerge r = hr_CanMerge resp.
Proof.
  unfold exhausted_action. destruct (enabled _ action); [|by intros [= <- <-]]. intros H. bind_val H as b w1 E1.
  injection H as <- <-. by destruct b.
Qed.
Lemma attempts_keep E pr resp w w' r : populateAutoRepairAttemptState E pr resp w = (w', inr r) ->
  hr_HeadSHA r = hr_HeadSHA resp /\ hr_CanMerge r = hr_CanMerge resp.
Proof.
  unfold populateAutoRepairAttemptState. destruct (_ || _); [by intros [= <- <-]|]. intros H.
  bind_val H as p1 w1 E1. bind_val H as p2 w2 E2. bind_val H as r3 w3 E3.
  apply exhausted_keeps in H as [-> ->]. by apply exhausted_keeps in E3.
Qed.

Lemma health_green E skip pr w w' h : buildPullRequestHealthResponse E skip pr w = (w', inr h) ->
  hr_CanMerge h = true -> hr_HeadSHA h <> "" -> exists s, after w w' s /\ green (hr_HeadSHA h) s /\ pr_Status pr = PullRequestStatusOpen.
Proof.
  intros H Hm Hh. pose proof (quiet_health E skip pr) as Hq. unfold buildPullRequestHealthResponse in H.
  bind_val H as current w1 E1. bind_val H as r2 w2 E2. bind_val H as r3 w3 E3.
  assert (Hkeep : hr_HeadSHA h = hr_HeadSHA r3 /\ hr_CanMerge h = hr_CanMerge r3).
  { destruct skip; [by injection H as <- <-|]. by apply attempts_keep in H. }
  destruct Hkeep as [Eh Em]. rewrite Eh in *. rewrite Em in *. apply active_keeps in E3 as E3k. destruct E3k as [Eh2 Em2].
  rewrite Eh2 in *. specialize (Em2 Hm). apply read_inv in E1 as E1i. simpl in E1i. destruct E1i as [-> Es1].
  set (found := e_others E (w_step w) (w_store w)) in *. exists found. split.
  - assert (Hq2 : quiet (if skip then mret r3 else populateAutoRepairAttemptState E pr r3)).
    { destruct skip; [apply quiet_ret|]. unfold populateAutoRepairAttemptState, exhausted_action, applySessionAutoRepairOverride,
        autoRepairBudgetExhausted, read. quiet. }
    apply quiet_seen in H as [sn4 Hs4]; [|done].
    apply quiet_seen in E3 as [sn3 Hs3]; [|unfold populateActiveRepairs, read; quiet].
    apply quiet_seen in E2 as [sn2 Hs2]; [|unfold read; quiet].
    exists ([found] ++ sn2 ++ sn3 ++ sn4)%list. rewrite Hs4, Hs3, Hs2, Es1, <- !app_assoc. split; [done|by left].
  - destruct (s_current found) as [c|] eqn:Ec.
    + assert (Hr2 : hr_HeadSHA r2 = hr_HeadSHA (summary_response pr c (row_response pr))
        /\ hr_CanMerge r2 = hr_CanMerge (summary_response pr c (row_response pr))).
      { destruct (hr_Enrichment _ ==? _) in E2; [|by injection E2 as <- <-]. bind_val E2 as sn w4 E4. injection E2 as <- <-.
        by destruct sn as [|[|]]. }
      destruct Hr2 as [Eh4 Em4]. rewrite Eh4, Em4 in *. by apply summary_green.
    + injection E2 as <- <-. by rewrite row_cannot_merge in Em2.
Qed.

(** ** The merge *)

Lemma in_merges x w : is_merge x = true -> In x (w_log w) -> In x (merges w).
Proof. intros Hx Hin. apply in_filter_iff. done. Qed.

(** The next quiet step of a call: it failed, and then nothing was sent, or it
    gave a value. *)
Lemma quiet_step {A B} (m : M A) (k : A -> M B) w w' r : quiet m -> (m ≫= k) w = (w', r) ->
  (merges w' = merges w /\ exists sn, w_seen w' = (w_seen w ++ sn)%list)
  \/ exists a w1, m w = (w1, inr a) /\ merges w1 = merges w /\ (exists sn, w_seen w1 = (w_seen w ++ sn)%list) /\ k a w1 = (w', r).
Proof.
  intros Hq H. apply bind_inv in H as [(e & E & _)|(a & w1 & E & H)].
  - left. split; [by eapply quiet_merges|by eapply quiet_seen].
  - right. exists a, w1. split; [done|]. split; [by eapply quiet_merges|]. split; [by eapply quiet_seen|done].
Qed.

Lemma after_trans w w1 w' s : (exists sn, w_seen w1 = (w_seen w ++ sn)%list) -> after w1 w' s -> after w w' s.
Proof. intros [sn E] (sn2 & E2 & Hin). exists (sn ++ sn2)%list. rewrite E2, E, app_assoc. split; [done|]. apply in_or_app. by right. Qed.
Lemma after_app w w1 w' s : (exists sn, w_seen w' = (w_seen w1 ++ sn)%list) -> after w w1 s -> after w w' s.
Proof. intros [sn E] (sn2 & E2 & Hin). exists (sn2 ++ sn)%list. rewrite E, E2, app_assoc. split; [done|]. apply in_or_app. by left. Qed.

(** From the request on. *)
Definition send_merge E (pr : PullRequest) (sha : string) (method : MergeMethod) : M (string * MergeMethod) :=
  _ ← emit (MergeRequest (pr_Number pr) sha method);
  reply ← request E e_merge;
  if negb (mr_Merged reply) then throw [ErrGitHubMergeIncomplete]
  else
    _ ← attempt (write E (fun t => UpdateStatus t PullRequestStatusMerged));
    _ ← emit (FollowUps (mr_SHA reply));
    _ ← publishPullRequestTerminalState E;
    mret (mr_SHA reply, method).

Lemma send_merge_log E pr sha method w w' r : send_merge E pr sha method w = (w', r) ->
  merges w' = (merges w ++ [MergeRequest (pr_Number pr) sha method])%list /\ exists sn, w_seen w' = (w_seen w ++ sn)%list.
Proof.
  unfold send_merge. intros H. apply bind_inv in H as [(e & E1 & _)|(a & w1 & E1 & H)]; [discriminate E1|]. injection E1 as <- <-.
  apply (quiet_run_inv _ _ _ _) in H as (l & sn & El & Hl & Es).
  - simpl in *. split; [|eauto]. unfold merges. rewrite El, !List.filter_app. simpl.
    assert (Hn : List.filter is_merge l = []) by (clear El; induction Hl as [|x l Hx Hl IH]; simpl; [done|]; by rewrite Hx).
    by rewrite Hn, app_nil_r.
  - pose proof (quiet_terminal E). unfold write. quiet.
Qed.

Lemma merge_request_inv E expected w w' r : mergePullRequest E expected w = (w', r) -> merges w = [] ->
  merges w' = [] \/ exists w0 w1 pr h w2 w3 method,
    SyncPullRequestState E ReasonMergeSafety w0 = (w1, inr tt) /\ GetPullRequest E w1 = (w2, inr pr)
    /\ buildPullRequestHealthResponse E false pr w2 = (w3, inr h)
    /\ hr_CanMerge h = true /\ hr_HeadSHA h <> "" /\ validateExpectedMergeHead (hr_HeadSHA h) expected = true
    /\ (exists sn, w_seen w' = (w_seen w3 ++ sn)%list) /\ merges w' = [MergeRequest (pr_Number pr) (hr_HeadSHA h) method].
Proof.
  unfold mergePullRequest. intros H H0.
  apply quiet_step in H as [[Hm _]|(pr0 & wa & _ & Ha & _ & H)]; [left; congruence| |apply quiet_read].
  destruct (pr_Status pr0 <>? _); [injection H as <- <-; left; congruence|].
  apply quiet_step in H as [[Hm _]|(? & wb & _ & Hb & _ & H)]; [left; congruence| |apply quiet_parent].
  apply quiet_step in H as [[Hm _]|([] & w1 & E1 & H1 & _ & H)]; [left; congruence| |apply quiet_wrap, quiet_Sync].
  apply wrap_inv in E1.
  apply quiet_step in H as [[Hm _]|(pr & w2 & E2 & H2 & _ & H)]; [left; congruence| |apply quiet_read].
  apply quiet_step in H as [[Hm _]|(h & w3 & E3 & H3 & _ & H)]; [left; congruence| |apply quiet_health].
  destruct (hr_CanMerge h) eqn:Em; simpl in H; [|injection H as <- <-; left; congruence].
  destruct (hr_HeadSHA h ==? "") eqn:Eh; [injection H as <- <-; left; congruence|].
  destruct (validateExpectedMergeHead (hr_HeadSHA h) expected) eqn:Ev; simpl in H; [|injection H as <- <-; left; congruence].
  apply quiet_step in H as [[Hm _]|(? & w4 & _ & H4 & S4 & H)]; [left; congruence| |apply quiet_repo].
  apply quiet_step in H as [[Hm _]|(? & w5 & _ & H5 & S5 & H)]; [left; congruence| |apply quiet_request].
  apply quiet_step in H as [[Hm _]|(st & w6 & _ & H6 & S6 & H)]; [left; congruence| |apply quiet_request].
  destruct (selectMergeMethod st) as [method|]; [|injection H as <- <-; left; congruence].
  right. exists wb, w1, pr, h, w2, w3, method. apply (send_merge_log E pr (hr_HeadSHA h) method) in H as [Hl [sn Hs]].
  split_and!; try done.
  - by reflect_bools.
  - destruct S4 as [s4 S4], S5 as [s5 S5], S6 as [s6 S6]. exists (s4 ++ s5 ++ s6 ++ sn)%list.
    by rewrite Hs, S6, S5, S4, <- !app_assoc.
  - rewrite Hl. assert (Hn : merges w6 = []) by congruence. by rewrite Hn.
Qed.


(** ** Merge when ready *)

Definition grows {A} (m : M A) : Prop := forall w, exists sn, w_seen (m w).1 = (w_seen w ++ sn)%list.
Lemma grows_quiet {A} (m : M A) : quiet m -> grows m.
Proof. intros Hq w. destruct (Hq w) as (l & sn & _ & _ & H). eauto. Qed.
Lemma grows_emit x : grows (emit x).
Proof. intros w. exists []. by rewrite app_nil_r. Qed.
Lemma grows_bind {A B} (m : M A) (k : A -> M B) : grows m -> (forall a, grows (k a)) -> grows (m ≫= k).
Proof.
  intros Hm Hk w. unfold mbind, M_bind. destruct (Hm w) as [sn Hsn]. destruct (m w) as [w1 [e|a]]; simpl in *; [eauto|].
  destruct (Hk a w1) as [sn2 Hsn2]. exists (sn ++ sn2)%list. by rewrite Hsn2, Hsn, app_assoc.
Qed.
Lemma merge_grows E expected : grows (mergePullRequest E expected).
Proof.
  pose proof (fun pr => quiet_health E false pr). pose proof (quiet_Sync E ReasonMergeSafety). pose proof (quiet_parent E).
  pose proof (quiet_repo E). pose proof (quiet_terminal E). unfold mergePullRequest, GetPullRequest, read, write.
  repeat first
    [ apply grows_quiet; solve [quiet] | apply grows_emit | progress intros | apply grows_bind
    | match goal with |- grows (if ?b then _ else _) => destruct b end
    | match goal with |- grows (match ?x with _ => _ end) => destruct x end ].
Qed.

Lemma write_inv E f w w' r : (forall n, e_statement E n = true) -> write E f w = (w', r) ->
  let found := e_others E (w_step w) (w_store w) in
  r = inr tt /\ w_store w' = f (e_now E (w_step w)) found /\ w_seen w' = (w_seen w ++ [found])%list /\ w_log w' = w_log w.
Proof. intros Hs. unfold write, statement. rewrite Hs. by intros [= <- <-]. Qed.

(** What becomes of a claim, by the outcome of the merge. *)
Definition settled (outcome : chain + (string * MergeMethod)) (p : PullRequest) (r : chain + unit) : Prop :=
  match outcome with
  | inr _ => pr_MWRState p = MWRSucceeded /\ r = inr tt
  | inl e => if Is e ErrPullRequestNotYetMergeable
             then pr_MWRState p <> MWRMerging /\ r = inl [ErrPullRequestMergeWhenReadyChecksPending]
             else pr_MWRState p = MWRFailed /\ pr_MWRError p = mergeWhenReadyFailureMessage e /\ r = inr tt
  end.

Lemma claim_settled E pr w w' r : (forall n, e_statement E n = true) -> merge_claimed E pr w = (w', r) ->
  exists w1 outcome, mergePullRequest E (Some (pr_MWRHeadSHA pr)) w = (w1, outcome) /\ settled outcome (s_pr (w_store w')) r
    /\ merges w' = merges w1 /\ exists sn, w_seen w' = (w_seen w1 ++ sn)%list.
Proof.
  intros Hst H. unfold merge_claimed in H. apply bind_inv in H as [(e & E1 & _)|(o & w1 & E1 & H)].
  { unfold attempt in E1. by destruct (mergePullRequest _ _ w). }
  apply attempt_inv in E1. exists w1, o. split; [done|]. destruct o as [e|res]; simpl.
  - destruct (Is e ErrPullRequestNotYetMergeable).
    + apply bind_inv in H as [(e' & E2 & _)|([] & w2 & E2 & H)].
      * apply write_inv in E2 as [? _]; done.
      * apply write_inv in E2 as (_ & Es & Esn & El); [|done]. injection H as <- <-. split; [|unfold merges; rewrite El; eauto]. split; [|done].
        rewrite Es. unfold ReleaseMergeWhenReadyClaim. destruct (_ ==? MWRMerging) eqn:Em; [done|]. by reflect_bools.
    + apply write_inv in H as (-> & -> & Esn & El); [|done]. unfold merges. rewrite El. split_and!; try done; eauto.
  - apply write_inv in H as (-> & -> & Esn & El); [|done]. unfold merges. rewrite El. split_and!; try done; eauto.
Qed.

Lemma statement_inv {A} E (f : time -> PRStore -> PRStore * (chain + A)) w w' a : statement E f w = (w', inr a) ->
  let found := e_others E (w_step w) (w_store w) in
  (f (e_now E (w_step w)) found).2 = inr a /\ w_seen w' = (w_seen w ++ [found])%list.
Proof.
  unfold statement. destruct (e_statement E (w_step w)); [|done]. destruct (f _ _) as [s r] eqn:Ef. simpl. by intros [= <- <-].
Qed.

Definition claimable_row (s : PRStore) : Prop := exists b, (ClaimMergeWhenReadyForProcessing 0 b s).2 = true.

(** The call up to a claim. *)
Lemma process_inv E w w' r : ProcessMergeWhenReady E w = (w', r) ->
  merges w' = merges w \/ exists s1 s2 w1 w2, after w w1 s1 /\ w_seen w2 = (w_seen w1 ++ [s2])%list /\ claimable_row s2
    /\ pr_MWRRequestedBy (s_pr s1) <> None /\ merges w2 = merges w /\ merge_claimed E (s_pr s1) w2 = (w', r).
Proof.
  intros H. unfold ProcessMergeWhenReady in H.
  assert (Hf : forall reason w0, mark_failed E reason w0 = (w', r) -> merges w' = merges w0)
    by (intros reason w0 H0; eapply quiet_merges; [apply (quiet_write E)|exact H0]).
  apply quiet_step in H as [[Hm _]|(pr0 & wa & _ & Ha & Sa & H)]; [by left| |apply quiet_read].
  apply quiet_step in H as [[Hm _]|(t & wb & _ & Hb & Sb & H)]; [left; congruence| |apply quiet_ask].
  destruct (negb _); [injection H as <- <-; left; congruence|].
  destruct (pr_Status pr0 <>? _); [apply Hf in H; left; congruence|].
  apply quiet_step in H as [[Hm _]|(p & wc & _ & Hc & Sc & H)]; [left; congruence| |apply quiet_ask].
  destruct (parent_error p) as [[? reason]|]; [apply Hf in H; left; congruence|].
  apply quiet_step in H as [[Hm _]|(sy & wd & _ & Hd & Sd & H)]; [left; congruence| |apply quiet_attempt, quiet_Sync].
  apply quiet_step in H as [[Hm _]|(? & we & _ & He & Se & H)]; [left; congruence| |destruct sy; [destruct (Is _ _)|]; quiet].
  apply quiet_step in H as [[Hm _]|(pr & wf & Ef & Hf' & Sf & H)]; [left; congruence| |apply quiet_read].
  apply quiet_step in H as [[Hm _]|(t2 & wg & _ & Hg & Sg & H)]; [left; congruence| |apply quiet_ask].
  destruct (negb _); [injection H as <- <-; left; congruence|].
  apply quiet_step in H as [[Hm _]|(h & wh & _ & Hh & Sh & H)]; [left; congruence| |apply quiet_health].
  destruct (_ && _); [apply Hf in H; left; congruence|].
  destruct (hr_CanMerge h).
  2:{ destruct (mergeWhenReadyQueueability h) as [reason q]. destruct (negb q); [apply Hf in H|injection H as <- <-]; left; congruence. }
  apply quiet_step in H as [[Hm _]|(t3 & wi & _ & Hi & Si & H)]; [left; congruence| |apply quiet_ask].
  destruct (mergeWhenReadyShouldWaitForChecks _ _ _); [injection H as <- <-; left; congruence|].
  destruct (pr_MWRRequestedBy pr) as [u|] eqn:Eu; [|apply Hf in H; left; congruence].
  apply quiet_step in H as [[Hm _]|(t4 & wj & _ & Hj & Sj & H)]; [left; congruence| |apply quiet_ask].
  apply quiet_step in H as [[Hm _]|(claimed & wk & Ek & Hk & Sk & H)]; [left; congruence| |apply quiet_statement].
  destruct claimed; [|injection H as <- <-; left; congruence].
  right. apply read_inv in Ef as [-> Ef]. apply statement_inv in Ek as [Ek Ekn]. simpl in *.
  set (s1 := e_others E (w_step we) (w_store we)) in *.
  exists s1, (e_others E (w_step wj) (w_store wj)), wj, wk.
  assert (Hpre : exists sn, w_seen we = (w_seen w ++ sn)%list).
  { destruct Sa as [? Sa], Sb as [? Sb], Sc as [? Sc], Sd as [? Sd], Se as [? Se]. rewrite Se, Sd, Sc, Sb, Sa, <- !app_assoc. eauto. }
  assert (Hpost : exists sn, w_seen wj = (w_seen wf ++ sn)%list).
  { destruct Sg as [? Sg], Sh as [? Sh], Si as [? Si], Sj as [? Sj]. rewrite Sj, Si, Sh, Sg, <- !app_assoc. eauto. }
  split_and!; try done; [| |by rewrite Eu|congruence].
  - eapply after_trans; [exact Hpre|]. eapply after_app; [exact Hpost|]. exists [s1]. split; [done|by left].
  - exists (t4 - mergeWhenReadyMergingStaleAfter). revert Ek. unfold ClaimMergeWhenReadyForProcessing. by destruct (_ || _).
Qed.


(** ** Scenarios *)

Definition demo_run (status conclusion : string) : gitHubCheckRun :=
  MkCheckRun 5 "build" "" conclusion status "" None (Some 3) "ci" "" "".
Definition demo_details (mergeable : option bool) : Details :=
  MkDetails "open" false None None "" mergeable (match mergeable with Some _ => "clean" | None => "unknown" end) "h1" "b1" "main".

(** Nothing fails and nobody interferes; the pull request is mergeable until
    statement [until], and then GitHub computes its mergeability again. *)
Definition demo_env (until : nat) : Env := {|
  e_others := fun _ s => s; e_now := fun n => 100 * second + Z.of_nat n; e_statement := fun _ => true;
  e_parent := fun _ => NotStacked; e_repo := fun _ => RepoActive; e_installation := fun _ => inr tt; e_identity := fun _ => inr tt;
  e_userRequired := fun _ => inr false; e_details := fun n => inr (demo_details (if (n <? until)%nat then Some true else None));
  e_wait := fun _ => true; e_runs := fun _ => inr ([demo_run "completed" "success"], 1, false);
  e_statuses := fun _ => inr ([], 0, false); e_headroom := fun _ => true; e_required := fun _ => inr false;
  e_settings := fun _ => inr (MkRepoMergeSettings (Some true) None None); e_merge := fun _ => inr (MkMergeReply "m1" true);
  e_sessions := fun _ => Some (fun _ => None); e_flight := fun _ => None; e_admit := fun _ => inr true;
  e_org := fun _ => inr (MkAutoRepairPolicy false false); e_owner := fun _ => inr None; e_row_le := fun _ _ => true; e_insights := true |}.
Definition demo_world : World := MkWorld demo_store 0 [] [].



(** The synchronization inside the merge reports mergeability that GitHub is
    still computing as a failed refresh, so a queued request for a healthy pull
    request is failed for good instead of released. *)
Lemma pending_mergeability_fails_the_request :
  let '(w, r) := ProcessMergeWhenReady (demo_env 12) demo_world in
  r = inr tt /\ merges w = [] /\ pr_MWRState (s_pr (w_store w)) = MWRFailed
  /\ pr_MWRError (s_pr (w_store w)) = "Failed to merge pull request."
  /\ pr_MergeState (s_pr (w_store w)) = MergeStateMergeabilityPending.
Proof. vm_compute. repeat split. Qed.

(** ** Listings *)

Section Listing.
Context (E : Env) {Item : Type} (reply : Env -> nat -> chain + (list Item * Z * bool)) (itemID : Item -> Z).

Definition entries (p : list Item * Z * bool) : list Item := p.1.1.
Definition positive_ids (l : list Item) : list Z := List.filter (fun id => 0 <? id) (map itemID l).

Lemma repeats_nodup seen ids seen' : repeats seen ids = Some seen' -> List.NoDup seen ->
  List.NoDup seen' /\ Permutation seen' (List.filter (fun id => 0 <? id) ids ++ seen).
Proof.
  revert seen. induction ids as [|id ids IH]; intros seen H Hnd; simpl in *; [by injection H as <-|].
  destruct (0 <? id) eqn:Ep; [|by apply IH]. destruct (existsb (Z.eqb id) seen) eqn:Ex; [done|].
  apply IH in H as [Hn Hp].
  - split; [done|]. rewrite Hp. simpl. by rewrite Permutation_middle.
  - constructor; [|done]. intros Hin. apply not_true_iff_false in Ex. apply Ex, existsb_exists. exists id. by rewrite Z.eqb_refl.
Qed.

(** What a finished listing is made of. *)
Definition complete (from : list Item) (items : list Item) (pages : list (list Item * Z * bool)) : Prop :=
  items = (from ++ concat (map entries pages))%list
  /\ Forall (fun p => exists n, reply E n = inr p) pages /\ Forall (fun p => p.1.2 <= Z.of_nat (length items)) pages
  /\ (exists p, last pages = Some p /\ p.2 = false).

Lemma check_pages_complete inc n first from total seen w w' items :
  check_pages E reply itemID inc n first from total seen w = (w', inr items) ->
  List.NoDup seen -> Permutation seen (positive_ids from) ->
  exists pages, complete from items pages /\ (length pages <= n)%nat /\ List.NoDup (positive_ids items) /\ total <= Z.of_nat (length items).
Proof.
  revert first from total seen w. induction n as [|n IH]; intros first from total seen w H Hnd Hp; simpl in H; [done|].
  bind_val H as u w1 E1. bind_val H as p w2 E2.
  assert (Hr : exists k, reply E k = inr p).
  { destruct first; [|apply wrap_inv in E2]; unfold request in E2; injection E2 as _ E2; eauto. }
  destruct p as [[es count] next]. destruct (repeats seen (map itemID es)) as [seen'|] eqn:Er; [|done].
  apply repeats_nodup in Er as [Hnd' Hp']; [|done].
  assert (Hids : Permutation seen' (positive_ids (from ++ es))).
  { rewrite Hp', Hp. unfold positive_ids. rewrite map_app, List.filter_app. apply Permutation_app_comm. }
  destruct (match es with [] => _ | _ => _ end); [done|].
  destruct (negb next && _) eqn:Ed.
  - injection H as <- <-. apply andb_true_iff in Ed as [Hn Hc]. apply Z.leb_le in Hc. exists [(es, count, next)].
    split_and!; simpl; [|lia| |lia].
    + unfold complete. split_and!; [by simpl; rewrite app_nil_r|by repeat constructor| |].
      * repeat constructor. simpl. lia.
      * eexists. split; [done|]. by destruct next.
    + by rewrite <- Hids.
  - apply IH in H as (pages & (Hi & Hr2 & Hc2 & p & Hl & Hlast) & Hlen & Hn2 & Ht2); [|done|done].
    exists ((es, count, next) :: pages). split_and!; simpl; [|lia|done|lia]. unfold complete. split_and!.
    + rewrite Hi. simpl. by rewrite app_assoc.
    + by constructor.
    + constructor; [simpl; lia|done].
    + exists p. split; [|done]. by destruct pages.
Qed.

(** A listing of checks is complete or refused.  What it returns is the
    concatenation of the pages GitHub gave, at most twenty, in order; no
    positive id occurs twice, no page reported a larger total, and the last
    page announced no further one. *)
Theorem listing_is_complete inc w w' items : listGitHubCheckPages E reply itemID inc w = (w', inr items) ->
  exists pages, complete [] items pages /\ (length pages <= maxGitHubCheckPages)%nat /\ List.NoDup (positive_ids items).
Proof.
  intros H. destruct (check_pages_complete _ _ _ _ _ _ _ _ _ H) as (pages & Hc & Hl & Hn & _); [constructor|done|]. eauto.
Qed.
End Listing.

Lemma listing_is_complete_witness : exists pages,
  complete (demo_env 1000) e_runs [] [demo_run "completed" "success"] pages /\ (length pages <= maxGitHubCheckPages)%nat
  /\ List.NoDup (positive_ids cr_ID [demo_run "completed" "success"]).
Proof. apply (listing_is_complete (demo_env 1000) e_runs cr_ID false demo_world (demo_world <| w_step := 1%nat |>)). reflexivity. Defined.

(** ** The newest run of each check *)

Definition pick (key : string) (best : option (nat * gitHubCheckRun)) (i : nat) (c : gitHubCheckRun) : option (nat * gitHubCheckRun) :=
  if run_key c ==? key
  then match best with None => Some (i, c) | Some (_, b) => if cr_ID b <? cr_ID c then Some (i, c) else best end
  else best.

Lemma best_of_fold key runs best i :
  foldl (fun '(best, i) c => (pick key best i c, S i)) (best, i) runs
  = (foldl (fun b '(j, c) => pick key b j c) best (imap (fun j c => (i + j, c)%nat) runs), (i + length runs)%nat).
Proof.
  revert best i. induction runs as [|c runs IH]; intros best i; simpl; [by rewrite Nat.add_0_r|]. rewrite IH, Nat.add_0_r. f_equal; [|lia].
  f_equal. apply imap_ext. intros j x _. simpl. f_equal. lia.
Qed.

Lemma pick_grows key i c j d : exists j' d', pick key (Some (i, c)) j d = Some (j', d') /\ cr_ID c <= cr_ID d'.
Proof. unfold pick. destruct (run_key d ==? key); [destruct (cr_ID c <? cr_ID d) eqn:El|]; eexists _, _; (split; [done|lia]). Qed.
Lemma pick_self key best j d : run_key d = key -> exists j' d', pick key best j d = Some (j', d') /\ cr_ID d <= cr_ID d'.
Proof.
  intros Hk. unfold pick. rewrite bool_decide_eq_true_2 by done.
  destruct best as [[jb b]|]; [destruct (cr_ID b <? cr_ID d) eqn:El|]; eexists _, _; (split; [done|lia]).
Qed.

Lemma pick_inv key l best : let r := foldl (fun b '(j, c) => pick key b j c) best l in
  (forall i c, r = Some (i, c) -> best = Some (i, c) \/ (In (i, c) l /\ run_key c = key))
  /\ (forall i c, best = Some (i, c) -> exists j d, r = Some (j, d) /\ cr_ID c <= cr_ID d)
  /\ (forall i c, In (i, c) l -> run_key c = key -> exists j d, r = Some (j, d) /\ cr_ID c <= cr_ID d).
Proof.
  revert best. induction l as [|[j d] l IH]; intros best; simpl.
  - split_and!; [by left|intros i c ->; eexists _, _; split; [done|lia]|done].
  - destruct (IH (pick key best j d)) as (H1 & H2 & H3). split_and!.
    + intros i c [Hb|[Hin Hk]]%H1; [|right; split; [by right|done]].
      unfold pick in Hb. destruct (run_key d ==? key) eqn:Ek; [|by left]. reflect_bools.
      destruct best as [[jb b]|]; [destruct (cr_ID b <? cr_ID d)|]; simplify_eq; auto.
    + intros i c ->. destruct (pick_grows key i c j d) as (j1 & d1 & E1 & L1). destruct (H2 _ _ E1) as (j2 & d2 & Hd & Hle).
      exists j2, d2. split; [done|lia].
    + intros i c [[= <- <-]|Hin] Hk; [|by eapply H3]. destruct (pick_self key best j d Hk) as (j1 & d1 & E1 & L1).
      destruct (H2 _ _ E1) as (j2 & d2 & Hd & Hle). exists j2, d2. split; [done|lia].
Qed.

Lemma best_of_spec key runs :
  (forall i c, best_of key runs = Some (i, c) -> runs !! i = Some c /\ run_key c = key)
  /\ (forall c, In c runs -> run_key c = key -> exists j d, best_of key runs = Some (j, d) /\ cr_ID c <= cr_ID d).
Proof.
  unfold best_of. pose proof (best_of_fold key runs None 0) as Hf. unfold pick at 1 in Hf. rewrite Hf. simpl. clear Hf.
  destruct (pick_inv key (imap pair runs) None) as (H1 & _ & H3). split.
  - intros i c Hb. destruct (H1 _ _ Hb) as [?|[Hin Hk]]; [done|]. split; [|done].
    apply list_elem_of_In, list_elem_of_lookup_1 in Hin as [k Hk2]. rewrite list_lookup_imap in Hk2.
    destruct (runs !! k) eqn:Ek; simpl in Hk2; [|done]. by injection Hk2 as -> ->.
  - intros c Hin Hk. apply list_elem_of_In, list_elem_of_lookup_1 in Hin as [k Hk2]. apply (H3 k); [|done].
    apply list_elem_of_In, (list_elem_of_lookup_2 _ k). by rewrite list_lookup_imap, Hk2.
Qed.

Definition keep_best (runs : list gitHubCheckRun) '((i, c) : nat * gitHubCheckRun) : option gitHubCheckRun :=
  match best_of (run_key c) runs with Some (j, _) => if (i =? j)%nat then Some c else None | None => None end.

Lemma keep_best_some runs i c x : keep_best runs (i, c) = Some x <-> x = c /\ exists d, best_of (run_key c) runs = Some (i, d).
Proof.
  unfold keep_best. destruct (best_of (run_key c) runs) as [[j d]|]; [|by split; [|intros (_ & ? & ?)]].
  destruct (i =? j)%nat eqn:Ei.
  - apply Nat.eqb_eq in Ei as ->. split; [by intros [= <-]; eauto|by intros [-> _]].
  - apply Nat.eqb_neq in Ei. split; [done|]. intros (_ & ? & ?). congruence.
Qed.
Lemma in_kept runs l c : In c (omap (keep_best runs) l) <-> exists i d, In (i, c) l /\ best_of (run_key c) runs = Some (i, d).
Proof.
  rewrite <- list_elem_of_In, list_elem_of_omap. split.
  - intros ([i x] & Hin & Hk). apply keep_best_some in Hk as [-> [d Hd]]. exists i, d. by rewrite <- list_elem_of_In.
  - intros (i & d & Hin & Hd). exists (i, c). rewrite list_elem_of_In, keep_best_some. eauto.
Qed.
Lemma kept_nodup runs l : List.NoDup (map fst l) -> List.NoDup (map run_key (omap (keep_best runs) l)).
Proof.
  induction l as [|[i c] l IH]; intros Hnd; cbn [omap list_omap]; [constructor|]. inversion_clear Hnd as [|? ? Hni Hnd'].
  destruct (keep_best runs (i, c)) as [x|] eqn:Ek; [|by apply IH]. simpl. constructor; [|by apply IH].
  apply keep_best_some in Ek as [-> [d Hd]]. intros (y & Hy & Hin)%in_map_iff. apply in_kept in Hin as (j & e & Hin & He).
  rewrite Hy, Hd in He. injection He as <- _. apply Hni, in_map_iff. by exists (i, y).
Qed.
Lemma map_fst_imap {A} (l : list A) : map fst (imap pair l) = seq 0 (length l).
Proof.
  apply list_eq. intros i. destruct (decide (i < length l)%nat) as [Hi|Hi].
  - destruct (lookup_lt_is_Some_2 l i Hi) as [x Hx]. change (map fst (imap pair l)) with (fst <$> imap pair l).
    rewrite list_lookup_fmap, list_lookup_imap, Hx. simpl. by rewrite lookup_seq_lt.
  - change (map fst (imap pair l)) with (fst <$> imap pair l).
    rewrite list_lookup_fmap, list_lookup_imap, lookup_ge_None_2 by lia. simpl. by rewrite lookup_seq_ge by lia.
Qed.
Lemma in_imap {A} (l : list A) i c : In (i, c) (imap pair l) -> l !! i = Some c.
Proof.
  intros [k Hk]%list_elem_of_In%list_elem_of_lookup_1. rewrite list_lookup_imap in Hk. destruct (l !! k) eqn:Ek; [|done]. simpl in Hk.
  by injection Hk as -> ->.
Qed.

(** The listing keeps the newest run of each check.  After deduplication
    every provider and name that had a run has exactly one, and it has the
    greatest id among the runs of its provider and name. *)
Theorem dedupe_keeps_the_newest runs : let kept := dedupeCheckRunsByProviderAndName runs in
  List.NoDup (map run_key kept)
  /\ (forall c, In c kept -> In c runs /\ forall d, In d runs -> run_key d = run_key c -> cr_ID d <= cr_ID c)
  /\ (forall d, In d runs -> exists c, In c kept /\ run_key c = run_key d).
Proof.
  unfold dedupeCheckRunsByProviderAndName. destruct (length runs <=? 1)%nat eqn:El.
  - destruct runs as [|c [|d runs]]; [..|done]; simpl.
    + split_and!; [constructor|done..].
    + split_and!; [repeat constructor; by intros []|intros x [<-|[]]; split; [by left|]; intros d [<-|[]]; lia|].
      intros d [<-|[]]. exists c. auto.
  - split_and!.
    + apply kept_nodup. replace (map fst (imap pair runs)) with (seq 0 (length runs)); [apply List.seq_NoDup|].
      symmetry. by rewrite map_fst_imap.
    + intros c Hin. apply in_kept in Hin as (i & d & Hi & Hb). apply in_imap in Hi.
      destruct (best_of_spec (run_key c) runs) as [H1 H2]. destruct (H1 _ _ Hb) as [Hd _]. assert (d = c) as -> by congruence.
      split; [by eapply list_elem_of_In, list_elem_of_lookup_2|]. intros d' Hd' Hk. destruct (H2 d' Hd' Hk) as (j & e & He & Hle).
      rewrite Hb in He. by injection He as _ <-.
    + intros d Hin. destruct (best_of_spec (run_key d) runs) as [H1 H2]. destruct (H2 d Hin eq_refl) as (j & e & He & _).
      destruct (H1 _ _ He) as [Hj Hk]. exists e. split; [|done]. apply in_kept. exists j, e. rewrite Hk. split; [|done].
      apply list_elem_of_In, (list_elem_of_lookup_2 _ j). by rewrite list_lookup_imap, Hj.
Qed.

(** ** Snapshots that an indeterminate read leaves in place *)

(** The summaries the service writes. *)
Inductive written : HealthSummary -> Prop :=
| written_read mergeable state runs statuses complete required v :
    written ((sync_summary mergeable state runs statuses complete required) <| hs_GitHubSyncVersion := v |>)
| written_projection s states : written s -> written (rebuildProjectedHealthSummary s states).

Definition failed_test (k : CheckSummary) : bool := (cs_Category k ==? CheckCategoryTest) && (classifyStoredCheckStatus k ==? CheckStatusFailed).
Definition coherent (s : HealthSummary) : Prop :=
  (hs_HasConflicts s = true -> hs_MergeState s = MergeStateConflicted)
  /\ (0 < hs_FailingTestCount s -> exists k, In k (hs_Checks s) /\ classifyStoredCheckStatus k = CheckStatusFailed).

Lemma normalize_conflicts mergeable state : (normalizeMergeState mergeable state).2 = true ->
  (normalizeMergeState mergeable state).1 = MergeStateConflicted.
Proof. unfold normalizeMergeState. repeat case_match; done. Qed.

Lemma filter_pos {A} (p : A -> bool) l : 0 < Z.of_nat (length (List.filter p l)) -> exists x, In x l /\ p x = true.
Proof.
  destruct (List.filter p l) as [|x l'] eqn:Ef; simpl; [lia|]. intros _. exists x. apply in_filter_iff. rewrite Ef. by left.
Qed.

Lemma rebuild_fields s states : let r := rebuildProjectedHealthSummary s states in
  hs_HasConflicts r = hs_HasConflicts s /\ hs_MergeState r = hs_MergeState s
  /\ hs_FailingTestCount r = Z.of_nat (length (List.filter failed_test (hs_Checks r))).
Proof. unfold rebuildProjectedHealthSummary. simpl. destruct (default true _ && projectedStatesAddUnknownChecks _ _); split_and!; reflexivity. Qed.

Lemma written_coherent s : written s -> coherent s.
Proof.
  induction 1 as [mergeable state runs statuses complete required v|s states _ [IHc IHf]].
  - unfold sync_summary. pose proof (normalize_conflicts mergeable state) as Hn.
    destruct (normalizeMergeState mergeable state) as [ms conflicts]. simpl in *. split; [done|]. simpl.
    intros (k & Hin & Hk)%filter_pos. exists k. split; [done|]. apply andb_true_iff in Hk as [_ Hk].
    unfold classifyStoredCheckStatus, normalizeStoredCheckStatus. reflect_bools. by rewrite Hk.
  - destruct (rebuild_fields s states) as (E1 & E2 & E3). split; [by rewrite E1, E2|]. rewrite E3.
    intros (k & Hin & Hk)%filter_pos. exists k. split; [done|]. unfold failed_test in Hk. by reflect_bools.
Qed.

(** A snapshot that is kept because GitHub's answer is indeterminate
    cannot be merged.  When a read leaves the prior summary in place, so as not
    to lose a conflict or failed tests it recorded on the same revision, the
    health built from that summary does not allow a merge. *)
Theorem kept_snapshot_cannot_merge pr prior summary mi ti head base failing :
  written summary -> hc_Summary prior = Decodes summary ->
  shouldSkipIndeterminateSnapshotWrite mi ti head base failing prior = true -> 0 <= failing ->
  hr_CanMerge (summary_response pr prior (row_response pr)) = false.
Proof.
  intros [Hc Hf]%written_coherent Es Hskip H0. apply not_true_iff_false. intros Hm. unfold summary_response in Hm. rewrite Es in Hm.
  destruct (_ || (hc_HeadSHA prior ==? _)); [|by rewrite row_cannot_merge in Hm].
  apply derive_merge in Hm as (_ & Hcl & Ha). apply andb_true_iff in Ha as [_ Hall]. apply fill_unknown_passed in Hall.
  simpl in Hcl. unfold shouldSkipIndeterminateSnapshotWrite in Hskip. destruct (_ && _) in Hskip; [done|].
  destruct (_ || _) in Hskip; [done|]. rewrite Es in Hskip. apply orb_true_iff in Hskip as [[_ H]%andb_true_iff|[_ H]%andb_true_iff].
  - enough (Hx : hs_MergeState summary = MergeStateConflicted) by (rewrite Hx in Hcl; discriminate Hcl).
    apply orb_true_iff in H as [H|H]; [by apply Hc|by apply bool_decide_eq_true in H].
  - apply Z.ltb_lt in H. destruct Hf as (k & Hin & Hk); [lia|]. rewrite List.Forall_forall in Hall. specialize (Hall k Hin).
    unfold classifyStoredCheckStatus, normalizeStoredCheckStatus in Hk. rewrite Hall in Hk. done.
Qed.

Definition kept_summary : HealthSummary := (sync_summary (Some true) "dirty" [] [] true false) <| hs_GitHubSyncVersion := 11 |>.
Definition kept_health : HealthCurrent := MkHealthCurrent 1 "h1" "b1" (Decodes kept_summary) (Decodes kept_summary) EnrichmentNotRequested None 11.
Lemma kept_snapshot_cannot_merge_witness : hr_CanMerge (summary_response demo_pr kept_health (row_response demo_pr)) = false.
Proof.
  apply (kept_snapshot_cannot_merge demo_pr kept_health kept_summary true false "h1" "b1" 0); [apply written_read|done|done|done].
Defined.

(** Recording a pull request again moves its head and keeps its health version:
    the health then still describes the previous head, and allows a merge. *)
Lemma association_shows_the_previous_head :
  let s := exec (OSync 5 (demo_sync 11 [demo_check "build" CheckStatusPassed 4 2])) (exec OReserve demo_store) in
  let s := exec (OAssociate 6 "s1" "c1" PullRequestStatusOpen (Some "h2") None) s in
  let h := match s_current s with Some c => summary_response (s_pr s) c (row_response (s_pr s)) | None => row_response (s_pr s) end in
  pr_HeadSHA (s_pr s) = Some "h2" /\ hr_HeadSHA h = "h1" /\ hr_CanMerge h = true /\ hr_SyncStatus h = SyncStatusSynced.
Proof. vm_compute. repeat split. Qed.
