(* ===== verification/Automation.v ===== *)
(** * Automation targets: rows and enumerations

    An automation with per-target continuity runs all its turns for one pull
    request in one session.  A target row stands for the pull request; each
    generation of the target owns one session; runs wait at the target and
    execute one at a time; a result marker says how an attempt ended.  This
    file holds the rows (models/automation_target.go, models/automation.go),
    and [AutoDB], their tables beside the database of the execution plane. *)

From S2P Require Import Prelude Sql Tables.
From stdpp Require Import base option list strings gmap.

Open Scope string_scope.
Open Scope Z_scope.

(** ** Enumerations *)

Inductive AutomationSessionContinuity := AutomationSessionContinuityPerRun | AutomationSessionContinuityPerTarget.
#[export] Instance AutomationSessionContinuity_eq_dec : EqDecision AutomationSessionContinuity.
Proof. solve_decision. Defined.

Inductive AutomationTargetLifecycleState :=
  | AutomationTargetLifecycleOpen | AutomationTargetLifecycleClosed | AutomationTargetLifecycleMerged.
#[export] Instance AutomationTargetLifecycleState_eq_dec : EqDecision AutomationTargetLifecycleState.
Proof. solve_decision. Defined.

Abbreviation AutomationGitHubEvent := string (only parsing).
Definition AutomationGitHubEventPullRequestOpened : AutomationGitHubEvent := "github.pull_request.opened".
Definition AutomationGitHubEventPullRequestUpdated : AutomationGitHubEvent := "github.pull_request.updated".
Definition AutomationGitHubEventPullRequestMerged : AutomationGitHubEvent := "github.pull_request.merged".

Definition AllowsEvent (s : AutomationTargetLifecycleState) (event : AutomationGitHubEvent) : bool :=
  match s with
  | AutomationTargetLifecycleOpen => true
  | AutomationTargetLifecycleMerged => event ==? AutomationGitHubEventPullRequestMerged
  | AutomationTargetLifecycleClosed => false
  end.

Inductive AutomationTargetSessionStatus := AutomationTargetSessionStatusActive | AutomationTargetSessionStatusRetired.
#[export] Instance AutomationTargetSessionStatus_eq_dec : EqDecision AutomationTargetSessionStatus.
Proof. solve_decision. Defined.

Inductive AutomationTargetRetiredReason :=
  | AutomationTargetRetiredManualReset | AutomationTargetRetiredPRClosed | AutomationTargetRetiredPRMerged
  | AutomationTargetRetiredSessionUnavailable | AutomationTargetRetiredNotResumable
  | AutomationTargetRetiredAgentConfigChanged | AutomationTargetRetiredIdentityChanged
  | AutomationTargetRetiredBaseRetargeted | AutomationTargetRetiredTurnLimit
  | AutomationTargetRetiredSnapshotTooLarge | AutomationTargetRetiredUnsupportedWorkspace
  | AutomationTargetRetiredAwaitingInput | AutomationTargetRetiredContinuityDisabled.
#[export] Instance AutomationTargetRetiredReason_eq_dec : EqDecision AutomationTargetRetiredReason.
Proof. solve_decision. Defined.

Inductive AutomationRunHeadResolution :=
  | AutomationRunHeadAuthoritative | AutomationRunHeadAmbiguous | AutomationRunHeadUnresolved.
#[export] Instance AutomationRunHeadResolution_eq_dec : EqDecision AutomationRunHeadResolution.
Proof. solve_decision. Defined.

Inductive AutomationRunContinuationMode :=
  | AutomationRunContinuationFresh | AutomationRunContinuationContinued | AutomationRunContinuationReconstructed.
#[export] Instance AutomationRunContinuationMode_eq_dec : EqDecision AutomationRunContinuationMode.
Proof. solve_decision. Defined.

(** The reasons shared by value with a retirement are the injection
    [ReasonRetired]. *)
Inductive AutomationRunContinuationReason :=
  | AutomationRunContinuationReasonNoGeneration | AutomationRunContinuationReasonKillSwitch
  | AutomationRunContinuationReasonSnapshotMissing | AutomationRunContinuationReasonRestoreFailed
  | AutomationRunContinuationReasonSandboxDestroyed
  | ReasonRetired (r : AutomationTargetRetiredReason).
#[export] Instance AutomationRunContinuationReason_eq_dec : EqDecision AutomationRunContinuationReason.
Proof. solve_decision. Defined.
Definition ContinuationReasonForRetirement (r : AutomationTargetRetiredReason) : AutomationRunContinuationReason :=
  ReasonRetired r.

Inductive AutomationRunDispatchState :=
  | AutomationRunDispatchWaiting | AutomationRunDispatchExecuting | AutomationRunDispatchDone.
#[export] Instance AutomationRunDispatchState_eq_dec : EqDecision AutomationRunDispatchState.
Proof. solve_decision. Defined.

Inductive AutomationRunStatus :=
  | AutomationRunStatusPending | AutomationRunStatusRunning | AutomationRunStatusCompleted
  | AutomationRunStatusCompletedNoop | AutomationRunStatusFailed | AutomationRunStatusSkipped.
#[export] Instance AutomationRunStatus_eq_dec : EqDecision AutomationRunStatus.
Proof. solve_decision. Defined.

Inductive AutomationRunOutcomeReason :=
  | AutomationRunOutcomeTurnCompleted | AutomationRunOutcomeHeadLookupDegraded
  | AutomationRunOutcomeAgentFailed | AutomationRunOutcomeCancelled | AutomationRunOutcomeAwaitingInput
  | AutomationRunOutcomeRetriesExhausted | AutomationRunOutcomeStaleHead | AutomationRunOutcomeDuplicateHead
  | AutomationRunOutcomeSuperseded | AutomationRunOutcomeWaitTimeout | AutomationRunOutcomeWaitOverflow
  | AutomationRunOutcomePRClosed | AutomationRunOutcomeRepositoryUnavailable.
#[export] Instance AutomationRunOutcomeReason_eq_dec : EqDecision AutomationRunOutcomeReason.
Proof. solve_decision. Defined.

Definition RunStatus (r : AutomationRunOutcomeReason) : AutomationRunStatus :=
  match r with
  | AutomationRunOutcomeTurnCompleted | AutomationRunOutcomeHeadLookupDegraded => AutomationRunStatusCompleted
  | AutomationRunOutcomeSuperseded | AutomationRunOutcomeDuplicateHead
  | AutomationRunOutcomeStaleHead | AutomationRunOutcomePRClosed => AutomationRunStatusSkipped
  | _ => AutomationRunStatusFailed
  end.

Inductive AutomationRunResultOutcome :=
  | AutomationRunResultTurnCompleted | AutomationRunResultAgentFailed
  | AutomationRunResultCancelled | AutomationRunResultAwaitingInput.
#[export] Instance AutomationRunResultOutcome_eq_dec : EqDecision AutomationRunResultOutcome.
Proof. solve_decision. Defined.
Definition OutcomeReason (o : AutomationRunResultOutcome) : AutomationRunOutcomeReason :=
  match o with
  | AutomationRunResultTurnCompleted => AutomationRunOutcomeTurnCompleted
  | AutomationRunResultAgentFailed => AutomationRunOutcomeAgentFailed
  | AutomationRunResultCancelled => AutomationRunOutcomeCancelled
  | AutomationRunResultAwaitingInput => AutomationRunOutcomeAwaitingInput
  end.

(** ** Rows *)

(** A row of [automations], the columns dispatch reads. *)
Record Automation := MkAutomation {
  au_id : uuid;
  au_org_id : uuid;
  au_repository_id : option uuid;
  au_model_override : option string;
  au_reasoning_effort : option string;
  au_identity_scope : string;
  au_session_continuity : AutomationSessionContinuity;
  au_created_by : option uuid;
  au_deleted_at : option time;
  au_updated_at : time
}.
#[export] Instance eta_Automation : Eta Automation := fun a =>
  MkAutomation (au_id a) (au_org_id a) (au_repository_id a) (au_model_override a) (au_reasoning_effort a)
    (au_identity_scope a) (au_session_continuity a) (au_created_by a) (au_deleted_at a) (au_updated_at a).

(** A row of [automation_targets]: models.AutomationTarget.  The kind is
    always a GitHub pull request. *)
Record AutomationTarget := MkAutomationTarget {
  at_id : uuid;
  at_org_id : uuid;
  at_automation_id : uuid;
  at_repository_id : uuid;
  at_target_key : string;
  at_active_generation : Z;
  at_lifecycle_state : AutomationTargetLifecycleState;
  at_lifecycle_updated_at : option time;
  at_observed_head_sha : option string;
  at_observed_head_updated_at : option time;
  at_head_epoch : Z;
  at_head_resolution_pending : bool;
  at_head_resolution_deadline_at : option time;
  at_wake_requested_at : option time;
  at_updated_at : time
}.
#[export] Instance eta_AutomationTarget : Eta AutomationTarget := fun t =>
  MkAutomationTarget (at_id t) (at_org_id t) (at_automation_id t) (at_repository_id t) (at_target_key t)
    (at_active_generation t) (at_lifecycle_state t) (at_lifecycle_updated_at t) (at_observed_head_sha t)
    (at_observed_head_updated_at t) (at_head_epoch t) (at_head_resolution_pending t)
    (at_head_resolution_deadline_at t) (at_wake_requested_at t) (at_updated_at t).

(** A row of [automation_target_sessions]: models.AutomationTargetSession. *)
Record AutomationTargetSession := MkAutomationTargetSession {
  ag_id : uuid;
  ag_org_id : uuid;
  ag_target_id : uuid;
  ag_generation : Z;
  ag_session_id : uuid;
  ag_status : AutomationTargetSessionStatus;
  ag_retired_reason : option AutomationTargetRetiredReason;
  ag_retired_at : option time;
  ag_turn_count : Z;
  ag_ownership_release_pending : bool;
  ag_last_attempted_head_sha : option string;
  ag_last_reviewed_head_sha : option string;
  ag_last_reviewed_epoch : Z;
  ag_checkpoint_snapshot_key : option string;
  ag_checkpoint_head_sha : option string;
  ag_checkpoint_dependency_fingerprint : option string;
  ag_checkpoint_review_complete : option bool;
  ag_last_base_ref : option string;
  ag_last_run_id : option uuid;
  ag_last_turn_at : option time;
  ag_updated_at : time
}.
#[export] Instance eta_AutomationTargetSession : Eta AutomationTargetSession := fun g =>
  MkAutomationTargetSession (ag_id g) (ag_org_id g) (ag_target_id g) (ag_generation g) (ag_session_id g)
    (ag_status g) (ag_retired_reason g) (ag_retired_at g) (ag_turn_count g) (ag_ownership_release_pending g)
    (ag_last_attempted_head_sha g) (ag_last_reviewed_head_sha g) (ag_last_reviewed_epoch g)
    (ag_checkpoint_snapshot_key g) (ag_checkpoint_head_sha g) (ag_checkpoint_dependency_fingerprint g)
    (ag_checkpoint_review_complete g) (ag_last_base_ref g) (ag_last_run_id g) (ag_last_turn_at g)
    (ag_updated_at g).

(** The part of a run's config_snapshot that dispatch decodes; a missing key
    decodes as the empty value. *)
Record RunSnapshot := MkRunSnapshot {
  rs_github_event : AutomationGitHubEvent;
  rs_pull_request_number : Z;
  rs_head_sha : string;
  rs_base_branch : string
}.

(** A row of [automation_runs]: models.AutomationRun. *)
Record AutomationRun := MkAutomationRun {
  ar_id : uuid;
  ar_automation_id : uuid;
  ar_org_id : uuid;
  ar_triggered_at : time;
  ar_goal_snapshot : string;
  ar_config_snapshot : RunSnapshot;
  ar_status : AutomationRunStatus;
  ar_completed_at : option time;
  ar_result_summary : option string;
  ar_updated_at : time;
  ar_target_id : option uuid;
  ar_target_generation : option Z;
  ar_session_id : option uuid;
  ar_thread_id : option uuid;
  ar_turn_number : option Z;
  ar_github_action : option string;
  ar_pull_request_updated_at : option time;
  ar_head_epoch : option Z;
  ar_head_resolution : option AutomationRunHeadResolution;
  ar_resolved_head_sha : option string;
  ar_continuation_mode : option AutomationRunContinuationMode;
  ar_continuation_reason : option AutomationRunContinuationReason;
  ar_native_context : option bool;
  ar_previous_head_sha : option string;
  ar_base_sha : option string;
  ar_dispatch_state : option AutomationRunDispatchState;
  ar_wait_reason : option string;
  ar_wait_started_at : option time;
  ar_execution_started_at : option time;
  ar_job_id : option uuid;
  ar_attempt : Z;
  ar_attempt_lock_token : option uuid;
  ar_attempt_started_at : option time;
  ar_superseded_by_run_id : option uuid;
  ar_outcome_reason : option AutomationRunOutcomeReason;
  ar_head_lookup_degraded : bool;
  ar_worker_node_id : option string;
  ar_restore_snapshot_bytes : option Z;
  ar_restore_duration_ms : option Z;
  ar_turn_duration_ms : option Z
}.
#[export] Instance eta_AutomationRun : Eta AutomationRun := fun r =>
  MkAutomationRun (ar_id r) (ar_automation_id r) (ar_org_id r) (ar_triggered_at r) (ar_goal_snapshot r)
    (ar_config_snapshot r) (ar_status r) (ar_completed_at r) (ar_result_summary r) (ar_updated_at r)
    (ar_target_id r) (ar_target_generation r) (ar_session_id r) (ar_thread_id r) (ar_turn_number r)
    (ar_github_action r) (ar_pull_request_updated_at r) (ar_head_epoch r) (ar_head_resolution r)
    (ar_resolved_head_sha r) (ar_continuation_mode r) (ar_continuation_reason r) (ar_native_context r)
    (ar_previous_head_sha r) (ar_base_sha r) (ar_dispatch_state r) (ar_wait_reason r) (ar_wait_started_at r)
    (ar_execution_started_at r) (ar_job_id r) (ar_attempt r) (ar_attempt_lock_token r)
    (ar_attempt_started_at r) (ar_superseded_by_run_id r) (ar_outcome_reason r) (ar_head_lookup_degraded r)
    (ar_worker_node_id r) (ar_restore_snapshot_bytes r) (ar_restore_duration_ms r) (ar_turn_duration_ms r).

(** A row of [automation_run_results]: models.AutomationRunResult. *)
Record AutomationRunResult := MkAutomationRunResult {
  rr_run_id : uuid;
  rr_org_id : uuid;
  rr_attempt : Z;
  rr_attempt_lock_token : uuid;
  rr_thread_id : uuid;
  rr_turn_number : Z;
  rr_outcome : AutomationRunResultOutcome;
  rr_review_complete : bool;
  rr_checkpoint_key : option string;
  rr_checkpoint_published : bool;
  rr_checkpoint_head_sha : option string;
  rr_native_context : bool;
  rr_dependency_fingerprint : option string;
  rr_agent_session_id : option string;
  rr_recorded_at : time
}.
#[export] Instance eta_AutomationRunResult : Eta AutomationRunResult := fun m =>
  MkAutomationRunResult (rr_run_id m) (rr_org_id m) (rr_attempt m) (rr_attempt_lock_token m) (rr_thread_id m)
    (rr_turn_number m) (rr_outcome m) (rr_review_complete m) (rr_checkpoint_key m) (rr_checkpoint_published m)
    (rr_checkpoint_head_sha m) (rr_native_context m) (rr_dependency_fingerprint m) (rr_agent_session_id m)
    (rr_recorded_at m).

(** ** The tables *)

Record AutoDB := MkAutoDB {
  plane : DB;
  automations : list Automation;
  repositories : list (uuid * uuid);
  automation_targets : list AutomationTarget;
  automation_target_sessions : list AutomationTargetSession;
  automation_runs : list AutomationRun;
  automation_run_results : list AutomationRunResult
}.
#[export] Instance eta_AutoDB : Eta AutoDB := fun d =>
  MkAutoDB (plane d) (automations d) (repositories d) (automation_targets d) (automation_target_sessions d)
    (automation_runs d) (automation_run_results d).

Definition empty_auto : AutoDB := MkAutoDB empty_db [] [] [] [] [] [].

(** ** Predicates the statements share *)

Section Predicates.
Variable orgID : uuid.

Definition is_target (id : uuid) (t : AutomationTarget) : bool := (at_id t ==? id) && (at_org_id t ==? orgID).
Definition is_run (id : uuid) (r : AutomationRun) : bool := (ar_id r ==? id) && (ar_org_id r ==? orgID).
Definition is_generation (id : uuid) (g : AutomationTargetSession) : bool := (ag_id g ==? id) && (ag_org_id g ==? orgID).
Definition is_session (id : uuid) (s : Session) : bool := (s_id s ==? id) && (s_org_id s ==? orgID).
Definition is_thread (id : uuid) (th : SessionThread) : bool := (th_id th ==? id) && (th_org_id th ==? orgID).

(** [status = 'pending' AND (dispatch_state = 'waiting' OR dispatch_state IS NULL)]. *)
Definition unstarted (r : AutomationRun) : bool :=
  (ar_status r ==? AutomationRunStatusPending)
  && (is_null (ar_dispatch_state r) || col_is (ar_dispatch_state r) AutomationRunDispatchWaiting).
Definition executing (r : AutomationRun) : bool := col_is (ar_dispatch_state r) AutomationRunDispatchExecuting.

Definition run_of (targetID : uuid) (r : AutomationRun) : bool :=
  (ar_org_id r ==? orgID) && col_is (ar_target_id r) targetID.
Definition active_generation_of (targetID : uuid) (g : AutomationTargetSession) : bool :=
  (ag_org_id g ==? orgID) && (ag_target_id g ==? targetID) && (ag_status g ==? AutomationTargetSessionStatusActive).
End Predicates.

(** The first row a statement returns, [pgx.ErrNoRows] otherwise. *)
Definition one_row {A} (p : A -> bool) (t : list A) (missing : string) : result A :=
  match select p t with r :: _ => Ok r | [] => Err missing end.

Definition pendingRunning (s : SessionStatus) : bool :=
  (s ==? SessionStatusPending) || (s ==? SessionStatusRunning).

Definition synchronize : string := "synchronize".
Definition is_push (r : AutomationRun) : bool := col_is (ar_github_action r) synchronize.

(** The head a run stands for: the resolved one, else the delivered one. *)
Definition run_head (r : AutomationRun) : option string :=
  match ar_resolved_head_sha r with
  | Some h => Some h
  | None => nullif_empty (rs_head_sha (ar_config_snapshot r))
  end.
