(* ===== verification/AutomationStore.v ===== *)
(** * The stores of automation targets

    One definition per method of AutomationTargetStore, AutomationRunStore and
    AutomationRunResultStore (db/automation_targets.go, automation_lifecycle.go,
    automation_dispatch.go, automation_turns.go, automation_completion.go,
    automation_run_results.go), and the methods of the session stores that
    take part in their transactions.  [now] is the start of the transaction;
    an [Err] rolls it back. *)

From S2P Require Import Prelude Sql Tables JobStore ExecutorStore Automation.
From stdpp Require Import base option list strings gmap.

Open Scope string_scope.
Open Scope Z_scope.

Definition ErrAutomationTargetNotFound : string := "automation target not found".
Definition ErrAutomationTargetGenerationNotFound : string := "automation target generation not found".
Definition ErrAutomationTargetGenerationNotActive : string := "automation target generation is not active".
Definition ErrAutomationTargetSessionMismatch : string := "session does not belong to the automation target's organization".
Definition ErrAutomationRunNotFound : string := "automation run not found".

(** [GREATEST] of PostgreSQL ignores NULL. *)
Definition greatest (a b : option time) : option time :=
  match a, b with
  | Some x, Some y => Some (Z.max x y)
  | Some x, None => Some x
  | None, _ => b
  end.

(** [COALESCE(NULLIF(new, ''), old)] and [COALESCE(new, old)]. *)
Definition keep_unless {A} (new old : option A) : option A := match new with Some _ => new | None => old end.

Section Store.
Variables (now : time) (orgID : uuid).

(** ** Writes of single rows *)

Definition set_targets (p : AutomationTarget -> bool) (f : AutomationTarget -> AutomationTarget) (d : AutoDB) : AutoDB :=
  d <| automation_targets := update p (fun t => (f t) <| at_updated_at := now |>) (automation_targets d) |>.
Definition set_generations (p : AutomationTargetSession -> bool) (f : AutomationTargetSession -> AutomationTargetSession) (d : AutoDB) : AutoDB :=
  d <| automation_target_sessions := update p (fun g => (f g) <| ag_updated_at := now |>) (automation_target_sessions d) |>.
Definition set_runs (p : AutomationRun -> bool) (f : AutomationRun -> AutomationRun) (d : AutoDB) : AutoDB :=
  d <| automation_runs := update p (fun r => (f r) <| ar_updated_at := now |>) (automation_runs d) |>.
Definition set_sessions (p : Session -> bool) (f : Session -> Session) (d : AutoDB) : AutoDB :=
  d <| plane := (plane d) <| sessions := update p f (sessions (plane d)) |> |>.
Definition set_threads (p : SessionThread -> bool) (f : SessionThread -> SessionThread) (d : AutoDB) : AutoDB :=
  d <| plane := (plane d) <| session_threads := update p f (session_threads (plane d)) |> |>.

(** An UPDATE of a target by id that must find its row. *)
Definition write_target (id : uuid) (f : AutomationTarget -> AutomationTarget) (d : AutoDB) : result AutoDB :=
  if exists_row (is_target orgID id) (automation_targets d) then Ok (set_targets (is_target orgID id) f d)
  else Err ErrAutomationTargetNotFound.

(** ** Targets *)

Definition same_target (automationID repositoryID : uuid) (key : string) (t : AutomationTarget) : bool :=
  (at_org_id t ==? orgID) && (at_automation_id t ==? automationID)
  && (at_repository_id t ==? repositoryID) && (at_target_key t ==? key).

Definition new_target (fresh automationID repositoryID : uuid) (key : string) : AutomationTarget :=
  MkAutomationTarget fresh orgID automationID repositoryID key 0 AutomationTargetLifecycleOpen None None None 0
    false None None now.

Definition LockOrCreate (fresh automationID repositoryID : uuid) (key : string) (d : AutoDB)
    : result (AutoDB * AutomationTarget) :=
  if (String.length key =? 0)%nat || (64 <? String.length key)%nat
  then Err "automation target key must be 1 to 64 characters"
  else
    let known := exists_row (fun a => (au_id a ==? automationID) && (au_org_id a ==? orgID) && is_null (au_deleted_at a)) (automations d)
                 && exists_row (fun r => (r.1 ==? repositoryID) && (r.2 ==? orgID)) (repositories d) in
    let taken := exists_row (same_target automationID repositoryID key) (automation_targets d) in
    if known && negb taken && exists_row (fun t => at_id t ==? fresh) (automation_targets d)
    then Err "upsert automation target: duplicate key"
    else
      let d1 := if known && negb taken
                then d <| automation_targets := (automation_targets d ++ [new_target fresh automationID repositoryID key])%list |>
                else d in
      let? t := one_row (same_target automationID repositoryID key) (automation_targets d1) ErrAutomationTargetNotFound in
      Ok (d1, t).

Definition GetTargetByID (targetID : uuid) (d : AutoDB) : result AutomationTarget :=
  one_row (is_target orgID targetID) (automation_targets d) ErrAutomationTargetNotFound.

Definition GetActiveGeneration (targetID : uuid) (d : AutoDB) : result AutomationTargetSession :=
  one_row (active_generation_of orgID targetID) (automation_target_sessions d) ErrAutomationTargetGenerationNotFound.

Definition new_generation (fresh targetID : uuid) (generation : Z) (sessionID : uuid) : AutomationTargetSession :=
  MkAutomationTargetSession fresh orgID targetID generation sessionID AutomationTargetSessionStatusActive None None
    0 false None None 0 None None None None None None None now.

(** The unique indexes a new active generation must respect. *)
Definition generation_conflict (fresh targetID : uuid) (generation : Z) (g : AutomationTargetSession) : bool :=
  (ag_id g ==? fresh) || active_generation_of orgID targetID g
  || ((ag_org_id g ==? orgID) && (ag_target_id g ==? targetID) && (ag_generation g =? generation)).

Definition InsertGeneration (fresh targetID sessionID : uuid) (d : AutoDB) : result (AutoDB * AutomationTargetSession) :=
  let? d1 := write_target targetID (fun t => t <| at_active_generation := at_active_generation t + 1 |>) d in
  let? t := GetTargetByID targetID d1 in
  if negb (exists_row (is_session orgID sessionID) (sessions (plane d1))) then Err ErrAutomationTargetSessionMismatch
  else if exists_row (generation_conflict fresh targetID (at_active_generation t)) (automation_target_sessions d1)
  then Err "insert automation target generation: duplicate key"
  else
    let g := new_generation fresh targetID (at_active_generation t) sessionID in
    let d2 := d1 <| automation_target_sessions := (automation_target_sessions d1 ++ [g])%list |> in
    Ok (set_sessions (is_session orgID sessionID) (fun s => s <| s_automation_owner_generation_id := Some fresh |>) d2, g).

Definition RequestWake (targetID : uuid) (d : AutoDB) : result AutoDB :=
  write_target targetID (fun t => t <| at_wake_requested_at := Some now |>) d.

Definition ClearWake (targetID : uuid) (requestedAt : time) (d : AutoDB) : AutoDB * bool :=
  let p t := is_target orgID targetID t && col_is (at_wake_requested_at t) requestedAt in
  (set_targets p (fun t => t <| at_wake_requested_at := None |>) d, exists_row p (automation_targets d)).

(** A run of the generation is executing. *)
Definition turn_executing (targetID : uuid) (generation : Z) (d : AutoDB) : bool :=
  exists_row (fun r => run_of orgID targetID r && col_is (ar_target_generation r) generation && executing r) (automation_runs d).

Definition release_owner (sessionID generationID : uuid) (d : AutoDB) : AutoDB :=
  set_sessions (fun s => is_session orgID sessionID s && col_is (s_automation_owner_generation_id s) generationID)
    (fun s => s <| s_automation_owner_generation_id := None |>) d.

Definition retire_row (reason : AutomationTargetRetiredReason) (pending : bool) (g : AutomationTargetSession) : AutomationTargetSession :=
  g <| ag_status := AutomationTargetSessionStatusRetired |> <| ag_retired_reason := Some reason |>
    <| ag_retired_at := Some now |> <| ag_ownership_release_pending := pending |>.

Definition RetireGeneration (generationID : uuid) (reason : AutomationTargetRetiredReason) (d : AutoDB)
    : result (AutoDB * AutomationTargetSession) :=
  let? g := one_row (fun g => is_generation orgID generationID g
                              && exists_row (is_target orgID (ag_target_id g)) (automation_targets d))
              (automation_target_sessions d) ErrAutomationTargetGenerationNotFound in
  if ag_status g <>? AutomationTargetSessionStatusActive then Err ErrAutomationTargetGenerationNotActive
  else
    let pending := turn_executing (ag_target_id g) (ag_generation g) d
                   || exists_row (fun s => is_session orgID (ag_session_id g) s && s_turn_holding_container s) (sessions (plane d)) in
    let d1 := set_generations (is_generation orgID generationID) (retire_row reason pending) d in
    let d2 := if pending then d1 else release_owner (ag_session_id g) generationID d1 in
    let? d3 := RequestWake (ag_target_id g) d2 in
    Ok (d3, (retire_row reason pending g) <| ag_updated_at := now |>).

Fixpoint retire_each (reason : AutomationTargetRetiredReason) (targetIDs : list uuid) (d : AutoDB) : result AutoDB :=
  match targetIDs with
  | [] => Ok d
  | targetID :: rest =>
      match GetActiveGeneration targetID d with
      | Err _ => retire_each reason rest d
      | Ok active =>
          let? (d1, _) := RetireGeneration (ag_id active) reason d in
          retire_each reason rest d1
      end
  end.
Definition RetireActiveGenerationsForAutomation (automationID : uuid) (reason : AutomationTargetRetiredReason) (d : AutoDB) : result AutoDB :=
  retire_each reason
    (map at_id (order_by (fun a b => String.leb (at_id a) (at_id b))
      (select (fun t => (at_org_id t ==? orgID) && (at_automation_id t ==? automationID)) (automation_targets d)))) d.

(** ** Lifecycle *)

Definition lifecycle_admits (state : AutomationTargetLifecycleState) (observedAt : option time) (t : AutomationTarget) : bool :=
  (at_lifecycle_state t ==? state) || (state ==? AutomationTargetLifecycleMerged)
  || ((at_lifecycle_state t <>? AutomationTargetLifecycleMerged)
      && match at_lifecycle_updated_at t, observedAt with Some e, Some o => e <=? o | _, _ => true end).
Definition lifecycle_row (state : AutomationTargetLifecycleState) (observedAt : option time) (t : AutomationTarget) : AutomationTarget :=
  t <| at_lifecycle_updated_at :=
         if (at_lifecycle_state t ==? state) || (state ==? AutomationTargetLifecycleMerged)
         then greatest (at_lifecycle_updated_at t) observedAt else observedAt |>
    <| at_lifecycle_state := state |>.

Definition SetLifecycleObserved (targetID : uuid) (state : AutomationTargetLifecycleState) (observedAt : option time) (d : AutoDB)
    : result (AutoDB * bool) :=
  if negb (exists_row (is_target orgID targetID) (automation_targets d)) then Err ErrAutomationTargetNotFound
  else
    let p t := is_target orgID targetID t && lifecycle_admits state observedAt t in
    Ok (set_targets p (lifecycle_row state observedAt) d, exists_row p (automation_targets d)).

Definition lifecycleObservationIsFresh (targetID : uuid) (observedAt : time) (d : AutoDB) : result bool :=
  let? t := GetTargetByID targetID d in
  Ok (match at_lifecycle_updated_at t with Some last => last <=? observedAt | None => true end).

Record AutomationTargetLifecycleOutcome := MkLifecycleOutcome {
  lo_SkippedRuns : Z;
  lo_Stale : bool;
  lo_GenerationRetired : bool;
  lo_FinalTurnPending : bool
}.

Definition merged_run (r : AutomationRun) : bool :=
  rs_github_event (ar_config_snapshot r) ==? AutomationGitHubEventPullRequestMerged.
(** [dispatch_state IN ('waiting','executing') OR NULL] and
    [status IN ('pending','running')]. *)
Definition unfinished (r : AutomationRun) : bool :=
  (ar_dispatch_state r <>? Some AutomationRunDispatchDone)
  && ((ar_status r ==? AutomationRunStatusPending) || (ar_status r ==? AutomationRunStatusRunning)).

Definition ended (outcome : AutomationRunOutcomeReason) (summary : option string) (r : AutomationRun) : AutomationRun :=
  r <| ar_status := RunStatus outcome |> <| ar_dispatch_state := Some AutomationRunDispatchDone |>
    <| ar_outcome_reason := Some outcome |> <| ar_completed_at := Some now |> <| ar_result_summary := summary |>.

Definition retire_active (targetID : uuid) (reason : AutomationTargetRetiredReason) (d : AutoDB) : result (AutoDB * bool) :=
  match GetActiveGeneration targetID d with
  | Err _ => Ok (d, false)
  | Ok g =>
      match RetireGeneration (ag_id g) reason d with
      | Ok (d1, _) => Ok (d1, true)
      | Err e => if e ==? ErrAutomationTargetGenerationNotActive then Ok (d, true) else Err e
      end
  end.

Definition ApplyPullRequestClosed (targetID : uuid) (merged : bool) (observedAt : time) (d : AutoDB)
    : result (AutoDB * AutomationTargetLifecycleOutcome) :=
  let? _ := GetTargetByID targetID d in
  let? fresh := if merged then Ok true else lifecycleObservationIsFresh targetID observedAt d in
  if negb fresh then Ok (d, MkLifecycleOutcome 0 true false false)
  else
    let state := if merged then AutomationTargetLifecycleMerged else AutomationTargetLifecycleClosed in
    let reason := if merged then AutomationTargetRetiredPRMerged else AutomationTargetRetiredPRClosed in
    let? (d1, applied) := SetLifecycleObserved targetID state (Some observedAt) d in
    if negb applied then Ok (d1, MkLifecycleOutcome 0 true false false)
    else
      let skipped r := run_of orgID targetID r && unstarted r && negb (merged && merged_run r) in
      let d2 := set_runs skipped (ended AutomationRunOutcomePRClosed (Some "the pull request is no longer open")) d1 in
      let final := merged && exists_row (fun r => run_of orgID targetID r && unfinished r && merged_run r) (automation_runs d2) in
      let? (d3, retired) := if final then Ok (d2, false) else retire_active targetID reason d2 in
      let? d4 := RequestWake targetID d3 in
      Ok (d4, MkLifecycleOutcome (count_rows skipped (automation_runs d1)) false retired final).

Definition ReopenTarget (targetID : uuid) (observedAt : time) (d : AutoDB) : result (AutoDB * bool) :=
  let? t := GetTargetByID targetID d in
  let? fresh := lifecycleObservationIsFresh targetID observedAt d in
  if negb fresh then Ok (d, false)
  else
    let? (d1, applied) := SetLifecycleObserved targetID AutomationTargetLifecycleOpen (Some observedAt) d in
    Ok (d1, applied && (at_lifecycle_state t <>? AutomationTargetLifecycleOpen)).

Definition TerminalLifecycleRetirement (targetID : uuid) (d : AutoDB) : result (option AutomationTargetRetiredReason) :=
  let? t := GetTargetByID targetID d in
  let pending := exists_row (fun r => run_of orgID targetID r && unfinished r) (automation_runs d) in
  Ok (match at_lifecycle_state t with
      | AutomationTargetLifecycleMerged => if pending then None else Some AutomationTargetRetiredPRMerged
      | AutomationTargetLifecycleClosed => if pending then None else Some AutomationTargetRetiredPRClosed
      | AutomationTargetLifecycleOpen => None
      end).

Definition RetireTerminalTarget (targetID : uuid) (d : AutoDB) : result (AutoDB * option AutomationTargetRetiredReason) :=
  let? reason := TerminalLifecycleRetirement targetID d in
  match reason with
  | None => Ok (d, None)
  | Some reason =>
      match GetActiveGeneration targetID d with
      | Err _ => Ok (d, None)
      | Ok g =>
          match RetireGeneration (ag_id g) reason d with
          | Ok (d1, _) => Ok (d1, Some reason)
          | Err e => if e ==? ErrAutomationTargetGenerationNotActive then Ok (d, None) else Err e
          end
      end
  end.
End Store.
