(* ===== verification/AutomationRunStore.v ===== *)
(** * Runs waiting, executing and done

    The methods of AutomationRunStore and AutomationRunResultStore: arrival,
    waiting and superseding, the reservation that starts a turn, the attempts
    of a turn under the lease of its job, the result marker, completion and
    the recovery of abandoned turns (db/automation_dispatch.go,
    automation_turns.go, automation_completion.go, automation_run_results.go). *)

From S2P Require Import Prelude Sql Tables JobStore ExecutorStore Automation AutomationStore.
From stdpp Require Import base option list strings gmap.

Open Scope string_scope.
Open Scope Z_scope.

Section Runs.
Variables (now : time) (orgID : uuid).

(** An UPDATE of runs with [RowsAffected() > 0]. *)
Definition write_runs (p : AutomationRun -> bool) (f : AutomationRun -> AutomationRun) (d : AutoDB) : AutoDB * bool :=
  (set_runs now p f d, exists_row p (automation_runs d)).

(** ** Creation and arrival *)

(** insertRun; a run of an idempotency key that exists already is skipped,
    which [duplicate] says. *)
Definition new_run (fresh automationID : uuid) (goal : string) (snapshot : RunSnapshot) : AutomationRun :=
  MkAutomationRun fresh automationID orgID now goal snapshot AutomationRunStatusPending None None now
    None None None None None None None None None None None None None None None None None None None None
    0 None None None None false None None None None.
Definition CreateRunInTx (fresh automationID : uuid) (goal : string) (snapshot : RunSnapshot) (duplicate : bool) (d : AutoDB) : AutoDB * bool :=
  if duplicate || exists_row (fun r => ar_id r ==? fresh) (automation_runs d) then (d, false)
  else (d <| automation_runs := (automation_runs d ++ [new_run fresh automationID goal snapshot])%list |>, true).

Record AutomationRunArrival := MkArrival {
  aa_TargetID : uuid;
  aa_GitHubAction : string;
  aa_PullRequestUpdatedAt : option time;
  aa_HeadEpoch : option Z;
  aa_HeadResolution : option AutomationRunHeadResolution
}.

Definition RecordArrival (runID : uuid) (arrival : AutomationRunArrival) (d : AutoDB) : result AutoDB :=
  if exists_row (is_run orgID runID) (automation_runs d)
  then Ok (set_runs now (is_run orgID runID)
         (fun r => r <| ar_target_id := Some (aa_TargetID arrival) |>
                     <| ar_github_action := nullif_empty (aa_GitHubAction arrival) |>
                     <| ar_pull_request_updated_at := aa_PullRequestUpdatedAt arrival |>
                     <| ar_head_epoch := aa_HeadEpoch arrival |>
                     <| ar_head_resolution := aa_HeadResolution arrival |>) d)
  else Err ErrAutomationRunNotFound.

Definition TerminalizeUnstarted (runID : uuid) (outcome : AutomationRunOutcomeReason) (supersededBy : option uuid)
    (summary : string) (d : AutoDB) : AutoDB * bool :=
  write_runs (fun r => is_run orgID runID r && unstarted r)
    (fun r => (ended now outcome (nullif_empty summary) r) <| ar_superseded_by_run_id := supersededBy |>) d.

Definition older_push (targetID newRunID : uuid) (newEpoch : Z) (r : AutomationRun) : bool :=
  run_of orgID targetID r && (ar_id r <>? newRunID) && is_push r && unstarted r && col_lt (ar_head_epoch r) newEpoch.
Definition SupersedeWaitingPush (targetID newRunID : uuid) (newEpoch : Z) (d : AutoDB) : AutoDB :=
  set_runs now (older_push targetID newRunID newEpoch)
    (fun r => (ended now AutomationRunOutcomeSuperseded (Some "superseded by a newer push") r)
                <| ar_superseded_by_run_id := Some newRunID |>) d.

Definition CountWaiting (targetID : uuid) (d : AutoDB) : Z :=
  count_rows (fun r => run_of orgID targetID r && unstarted r) (automation_runs d).

Definition ExecutingRunForTarget (targetID : uuid) (d : AutoDB) : option uuid :=
  match select (fun r => run_of orgID targetID r && executing r) (automation_runs d) with
  | r :: _ => Some (ar_id r)
  | [] => None
  end.

Definition MarkWaiting (runID : uuid) (d : AutoDB) : AutoDB * bool :=
  write_runs (fun r => is_run orgID runID r && unstarted r)
    (fun r => r <| ar_dispatch_state := Some AutomationRunDispatchWaiting |> <| ar_wait_reason := Some "target_busy" |>
                <| ar_wait_started_at := coalesce (ar_wait_started_at r) now |>) d.

Definition ClaimPendingForPerRun (runID : uuid) (d : AutoDB) : AutoDB * bool :=
  write_runs (fun r => is_run orgID runID r && (ar_status r ==? AutomationRunStatusPending) && negb (executing r))
    (fun r => r <| ar_status := AutomationRunStatusRunning |> <| ar_dispatch_state := None |>
                <| ar_wait_reason := None |> <| ar_wait_started_at := None |>) d.

(** ** Reservation *)

Record AutomationRunReservation := MkReservation {
  rv_TargetID : uuid;
  rv_TargetGeneration : Z;
  rv_SessionID : uuid;
  rv_ThreadID : uuid;
  rv_TurnNumber : Z;
  rv_JobID : uuid;
  rv_ContinuationMode : AutomationRunContinuationMode;
  rv_ContinuationReason : option AutomationRunContinuationReason;
  rv_PreviousHeadSHA : option string;
  rv_HeadEpoch : option Z;
  rv_HeadResolution : option AutomationRunHeadResolution;
  rv_ResolvedHeadSHA : option string;
  rv_HeadLookupDegraded : bool
}.

Definition reserved_row (v : AutomationRunReservation) (r : AutomationRun) : AutomationRun :=
  r <| ar_status := AutomationRunStatusRunning |> <| ar_dispatch_state := Some AutomationRunDispatchExecuting |>
    <| ar_execution_started_at := Some now |> <| ar_wait_reason := None |>
    <| ar_target_id := Some (rv_TargetID v) |> <| ar_target_generation := Some (rv_TargetGeneration v) |>
    <| ar_session_id := Some (rv_SessionID v) |> <| ar_thread_id := Some (rv_ThreadID v) |>
    <| ar_turn_number := Some (rv_TurnNumber v) |> <| ar_job_id := Some (rv_JobID v) |>
    <| ar_continuation_mode := Some (rv_ContinuationMode v) |> <| ar_continuation_reason := rv_ContinuationReason v |>
    <| ar_previous_head_sha := rv_PreviousHeadSHA v |>
    <| ar_head_epoch := keep_unless (rv_HeadEpoch v) (ar_head_epoch r) |>
    <| ar_head_resolution := keep_unless (rv_HeadResolution v) (ar_head_resolution r) |>
    <| ar_resolved_head_sha := keep_unless (rv_ResolvedHeadSHA v) (ar_resolved_head_sha r) |>
    <| ar_head_lookup_degraded := rv_HeadLookupDegraded v |>.

(** AutomationRunContinuationReason.Validate. *)
Definition continuation_reason_valid (r : AutomationRunContinuationReason) : bool :=
  match r with
  | ReasonRetired (AutomationTargetRetiredManualReset | AutomationTargetRetiredPRClosed
                  | AutomationTargetRetiredPRMerged | AutomationTargetRetiredContinuityDisabled) => false
  | _ => true
  end.

(** The partial unique index admits one executing run per target. *)
Definition ReserveForExecution (runID : uuid) (v : AutomationRunReservation) (d : AutoDB) : result (AutoDB * bool) :=
  if negb (match rv_ContinuationReason v with Some r => continuation_reason_valid r | None => true end)
  then Err "invalid automation run continuation reason"
  else
    let p r := is_run orgID runID r && unstarted r in
    if exists_row p (automation_runs d)
       && exists_row (fun r => run_of orgID (rv_TargetID v) r && executing r && negb (p r)) (automation_runs d)
    then Err "reserve automation run for execution: duplicate key"
    else Ok (write_runs p (reserved_row v) d).

(** ** Choosing the next run *)

Definition run_rank (r : AutomationRun) : Z :=
  if is_push r && col_is (ar_head_resolution r) AutomationRunHeadAuthoritative then 0 else 1.
Definition waiting_le (a b : AutomationRun) : bool :=
  (run_rank a <? run_rank b)
  || ((run_rank a =? run_rank b)
      && ((ar_triggered_at a <? ar_triggered_at b)
          || ((ar_triggered_at a =? ar_triggered_at b) && String.leb (ar_id a) (ar_id b)))).
Definition dispatchable (targetID : uuid) (r : AutomationRun) : bool :=
  run_of orgID targetID r && unstarted r && negb (col_is (ar_head_resolution r) AutomationRunHeadAmbiguous).
Definition NextWaiting (targetID : uuid) (d : AutoDB) : option AutomationRun :=
  match order_by waiting_le (select (dispatchable targetID) (automation_runs d)) with
  | r :: _ => Some r
  | [] => None
  end.

Definition ambiguous_waiting (targetID : uuid) (r : AutomationRun) : bool :=
  run_of orgID targetID r && unstarted r && col_is (ar_head_resolution r) AutomationRunHeadAmbiguous.
Definition arrival_le (a b : AutomationRun) : bool :=
  (ar_triggered_at a <? ar_triggered_at b)
  || ((ar_triggered_at a =? ar_triggered_at b) && String.leb (ar_id a) (ar_id b)).
Definition ListAmbiguousPushCandidates (targetID : uuid) (d : AutoDB) : list (uuid * string) :=
  map (fun r => (ar_id r, rs_head_sha (ar_config_snapshot r)))
    (order_by arrival_le (select (ambiguous_waiting targetID) (automation_runs d))).

Definition StampHeadResolution (runID : uuid) (epoch : option Z) (resolution : AutomationRunHeadResolution)
    (headSHA : string) (d : AutoDB) : result AutoDB :=
  if exists_row (is_run orgID runID) (automation_runs d)
  then Ok (set_runs now (is_run orgID runID)
         (fun r => r <| ar_head_epoch := epoch |> <| ar_head_resolution := Some resolution |>
                     <| ar_resolved_head_sha := nullif_empty headSHA |>) d)
  else Err ErrAutomationRunNotFound.

(** ** Head authority of the target *)

Definition AdoptHead (targetID : uuid) (headSHA : string) (updatedAt : option time) (d : AutoDB) : result (AutoDB * Z) :=
  if headSHA ==? "" then Err "automation target head sha is required"
  else
    let? d1 := write_target now orgID targetID
      (fun t => t <| at_observed_head_sha := Some headSHA |>
                  <| at_observed_head_updated_at := keep_unless updatedAt (at_observed_head_updated_at t) |>
                  <| at_head_epoch := at_head_epoch t + 1 |>) d in
    let? t := GetTargetByID orgID targetID d1 in
    Ok (d1, at_head_epoch t).

Definition MarkHeadResolutionPending (targetID : uuid) (deadline : time) (d : AutoDB) : result AutoDB :=
  write_target now orgID targetID
    (fun t => t <| at_head_resolution_pending := true |>
                <| at_head_resolution_deadline_at := coalesce (at_head_resolution_deadline_at t) deadline |>) d.

Definition ClearHeadResolutionPending (targetID : uuid) (d : AutoDB) : result AutoDB :=
  write_target now orgID targetID
    (fun t => t <| at_head_resolution_pending := false |> <| at_head_resolution_deadline_at := None |>) d.

Definition TouchObservedHead (targetID : uuid) (headSHA : string) (updatedAt : time) (d : AutoDB) : result AutoDB :=
  let p t := is_target orgID targetID t && col_is (at_observed_head_sha t) headSHA in
  if exists_row p (automation_targets d)
  then Ok (set_targets now p
         (fun t => t <| at_observed_head_updated_at := greatest (at_observed_head_updated_at t) (Some updatedAt) |>) d)
  else Err ErrAutomationTargetNotFound.

Definition SetAttemptedHead (generationID : uuid) (headSHA baseRef : string) (d : AutoDB) : result AutoDB :=
  let p g := is_generation orgID generationID g && (ag_status g ==? AutomationTargetSessionStatusActive) in
  if exists_row p (automation_target_sessions d)
  then Ok (set_generations now p
         (fun g => g <| ag_last_attempted_head_sha := nullif_empty headSHA |>
                     <| ag_last_base_ref := keep_unless (nullif_empty baseRef) (ag_last_base_ref g) |>) d)
  else Err ErrAutomationTargetGenerationNotActive.

(** ** Claiming the session *)

Definition ClaimForAutomationTurn (sessionID : uuid) (allowDestroyed : bool) (d : AutoDB) : result (AutoDB * Session) :=
  let p s := is_session orgID sessionID s && is_null (s_deleted_at s)
             && ((s_status s ==? SessionStatusIdle) || resumable_status (s_status s))
             && (allowDestroyed || (s_sandbox_state s <>? "destroyed")) in
  let claim s := s <| s_status := SessionStatusRunning |> <| s_started_at := Some now |> <| s_completed_at := None |>
    <| s_runtime_soft_deadline_at := None |> <| s_runtime_hard_deadline_at := None |>
    <| s_runtime_extension_count := 0 |> <| s_runtime_extension_seconds := 0 |>
    <| s_runtime_stop_reason := "" |> <| s_runtime_graceful_stop_at := None |> <| s_last_activity_at := now |> in
  let? s := one_row p (sessions (plane d)) "no rows in result set" in
  Ok (set_sessions p claim d, claim s).

Definition thread_claimable (status : string) : bool :=
  (status ==? "idle") || (status ==? "completed") || (status ==? "failed")
  || (status ==? "cancelled") || (status ==? "awaiting_input").
Definition primary_le (a b : SessionThread) : bool :=
  (th_created_at a <? th_created_at b) || ((th_created_at a =? th_created_at b) && String.leb (th_id a) (th_id b)).
Definition ClaimPrimaryForAutomationTurn (sessionID : uuid) (d : AutoDB) : result (AutoDB * SessionThread) :=
  match order_by primary_le
          (select (fun th => (th_org_id th ==? orgID) && (th_session_id th ==? sessionID) && is_null (th_archived_at th))
             (session_threads (plane d))) with
  | primary :: _ =>
      let p th := is_thread orgID (th_id primary) th && thread_claimable (th_status th) in
      let claim th := th <| th_status := "running" |> <| th_started_at := Some now |> <| th_completed_at := None |>
        <| th_last_activity_at := Some now |> <| th_cancel_requested_at := None |> in
      let? th := one_row p (session_threads (plane d)) "no rows in result set" in
      Ok (set_threads p claim d, claim th)
  | [] => Err "no rows in result set"
  end.

(** ** Attempts under the lease of the turn's job *)

(** [EXISTS (SELECT 1 FROM jobs ... status = 'running' AND lock_token = ...)]. *)
Definition job_held (lockToken : uuid) (r : AutomationRun) (d : AutoDB) : bool :=
  exists_row (fun j => col_is (ar_job_id r) (j_id j) && (j_org_id j ==? ar_org_id r)
                       && (j_status j ==? JobStatusRunning) && col_is (j_lock_token j) lockToken) (jobs (plane d)).

(** automationRunAttemptFence. *)
Definition attempt_fence (runID lockToken : uuid) (d : AutoDB) (r : AutomationRun) : bool :=
  is_run orgID runID r && executing r && col_is (ar_attempt_lock_token r) lockToken && job_held lockToken r d.

Definition ClaimAttempt (runID jobID lockToken : uuid) (d : AutoDB) : AutoDB * option Z :=
  let p r := is_run orgID runID r && executing r && col_is (ar_job_id r) jobID in
  let owned := exists_row (fun j => (j_id j ==? jobID) && (j_org_id j ==? orgID) && (j_status j ==? JobStatusRunning)
                 && col_is (j_lock_token j) lockToken && col_gt (j_lease_expires_at j) now) (jobs (plane d)) in
  match select p (automation_runs d) with
  | r :: _ =>
      if owned
      then (set_runs now p (fun r => r <| ar_attempt := ar_attempt r + 1 |> <| ar_attempt_lock_token := Some lockToken |>
                                       <| ar_attempt_started_at := Some now |>) d, Some (ar_attempt r + 1))
      else (d, None)
  | [] => (d, None)
  end.

Record AutomationTurnWorkspace := MkWorkspace {
  tw_BaseSHA : string;
  tw_WorkerNodeID : string;
  tw_RestoreSnapshotBytes : option Z;
  tw_RestoreDurationMS : option Z
}.
Definition RecordTurnWorkspace (runID lockToken : uuid) (ws : AutomationTurnWorkspace) (d : AutoDB) : result (AutoDB * bool) :=
  if lockToken ==? uuid_Nil then Err "record automation turn workspace: lock token is required"
  else Ok (write_runs (attempt_fence runID lockToken d)
         (fun r => r <| ar_base_sha := keep_unless (nullif_empty (tw_BaseSHA ws)) (ar_base_sha r) |>
                     <| ar_worker_node_id := keep_unless (nullif_empty (tw_WorkerNodeID ws)) (ar_worker_node_id r) |>
                     <| ar_restore_snapshot_bytes := keep_unless (tw_RestoreSnapshotBytes ws) (ar_restore_snapshot_bytes r) |>
                     <| ar_restore_duration_ms := keep_unless (tw_RestoreDurationMS ws) (ar_restore_duration_ms r) |>) d).

Definition RecordTurnDuration (runID lockToken : uuid) (durationMS : Z) (d : AutoDB) : AutoDB * bool :=
  write_runs (attempt_fence runID lockToken d) (fun r => r <| ar_turn_duration_ms := Some durationMS |>) d.

Definition RecordTurnBaseline (runID lockToken : uuid) (baseline : option string) (d : AutoDB) : AutoDB * bool :=
  write_runs (attempt_fence runID lockToken d) (fun r => r <| ar_previous_head_sha := baseline |>) d.

Definition RecordContinuationFallback (runID lockToken : uuid) (reason : AutomationRunContinuationReason)
    (baseline : option string) (d : AutoDB) : result (AutoDB * bool) :=
  if negb (continuation_reason_valid reason) then Err "invalid automation run continuation reason"
  else Ok (write_runs (attempt_fence runID lockToken d)
         (fun r => r <| ar_continuation_mode := Some AutomationRunContinuationReconstructed |>
                     <| ar_continuation_reason := Some reason |> <| ar_previous_head_sha := baseline |>) d).

Definition LockAttempt (runID lockToken : uuid) (d : AutoDB) : result bool :=
  if lockToken ==? uuid_Nil then Err "lock automation attempt: lock token is required"
  else Ok (exists_row (attempt_fence runID lockToken d) (automation_runs d)).

Definition EndInterruptedAttempt (runID sessionID lockToken : uuid) (status : SessionStatus) (d : AutoDB) : result (AutoDB * bool) :=
  if lockToken ==? uuid_Nil then Err "end interrupted attempt: lock token is required"
  else
    let owned := exists_row (fun r => attempt_fence runID lockToken d r && col_is (ar_session_id r) sessionID) (automation_runs d) in
    if owned
    then Ok (set_sessions (is_session orgID sessionID)
           (fun s => s <| s_status := status |> <| s_runtime_soft_deadline_at := None |>
                       <| s_runtime_hard_deadline_at := None |> <| s_last_activity_at := now |>) d,
             exists_row (is_session orgID sessionID) (sessions (plane d)))
    else Ok (d, false).

(** The result of a turn as the thread keeps it. *)
Record TurnResult := MkTurnResult {
  tu_summary : option string;
  tu_diff : option string;
  tu_failure_explanation : option string;
  tu_failure_category : option string
}.
Definition setThreadTurnForAttempt (runID lockToken threadID : uuid) (status : string) (turn : Z) (result : option TurnResult)
    (agentSessionID : string) (d : AutoDB) : Prelude.result (AutoDB * bool) :=
  let? owned := LockAttempt runID lockToken d in
  if negb owned then Ok (d, false)
  else
    let field f := match result with Some u => f u | None => None end in
    Ok (set_threads (is_thread orgID threadID)
      (fun th => th <| th_status := status |> <| th_current_turn := if 0 <? turn then turn else th_current_turn th |>
        <| th_last_activity_at := Some now |>
        <| th_completed_at := if (status ==? "completed") || (status ==? "failed") || (status ==? "cancelled")
                              then Some now else th_completed_at th |>
        <| th_agent_session_id := keep_unless (nullif_empty agentSessionID) (th_agent_session_id th) |>
        <| th_result_summary := keep_unless (field tu_summary) (th_result_summary th) |>
        <| th_diff := keep_unless (field tu_diff) (th_diff th) |>
        <| th_failure_explanation := field tu_failure_explanation |>
        <| th_failure_category := field tu_failure_category |>) d,
      exists_row (is_thread orgID threadID) (session_threads (plane d))).
Definition CompleteThreadTurnForAttempt (runID lockToken threadID : uuid) (turn : Z) (result : option TurnResult)
    (agentSessionID : string) (d : AutoDB) : Prelude.result (AutoDB * bool) :=
  setThreadTurnForAttempt runID lockToken threadID "idle" turn result agentSessionID d.
Definition FailThreadTurnForAttempt (runID lockToken threadID : uuid) (status : string) (result : option TurnResult)
    (d : AutoDB) : Prelude.result (AutoDB * bool) :=
  setThreadTurnForAttempt runID lockToken threadID status 0 result "" d.

(** The result marker of an attempt; one row per run, replaced only by a
    strictly newer attempt. *)
Definition marker_fence (jobID : uuid) (m : AutomationRunResult) (d : AutoDB) (r : AutomationRun) : bool :=
  attempt_fence (rr_run_id m) (rr_attempt_lock_token m) d r && (ar_attempt r =? rr_attempt m) && col_is (ar_job_id r) jobID.
Definition Write (jobID : uuid) (m : AutomationRunResult) (d : AutoDB) : result (AutoDB * bool) :=
  if rr_attempt m <=? 0 then Err "automation run result attempt must be positive"
  else if rr_attempt_lock_token m ==? uuid_Nil then Err "automation run result requires an attempt lock token"
  else
    let m' := m <| rr_org_id := orgID |>
                <| rr_review_complete := rr_review_complete m && (rr_outcome m ==? AutomationRunResultTurnCompleted) |>
                <| rr_recorded_at := now |> in
    if negb (exists_row (marker_fence jobID m d) (automation_runs d)) then Ok (d, false)
    else match select (fun x => rr_run_id x ==? rr_run_id m) (automation_run_results d) with
    | [] => Ok (d <| automation_run_results := (automation_run_results d ++ [m'])%list |>, true)
    | x :: _ =>
        if rr_attempt x <? rr_attempt m
        then Ok (d <| automation_run_results := update (fun x => rr_run_id x ==? rr_run_id m) (fun _ => m') (automation_run_results d) |>, true)
        else Ok (d, (rr_org_id x ==? orgID) && (rr_attempt x =? rr_attempt m) && (rr_attempt_lock_token x ==? rr_attempt_lock_token m))
    end.
End Runs.
