(* ===== verification/AutomationCompletion.v ===== *)
(** * How a turn ends

    Preflight outcomes, completion from the result marker, the recovery of
    abandoned turns, the release of ownership, and the deadlines of waiting
    runs (db/automation_turns.go, db/automation_completion.go). *)

From S2P Require Import Prelude Sql Tables JobStore ExecutorStore Automation AutomationStore AutomationRunStore.
From stdpp Require Import base option list strings gmap.

Open Scope string_scope.
Open Scope Z_scope.

Section Completion.
Variables (now : time) (orgID : uuid).

Definition wake (targetID : uuid) (d : AutoDB) : AutoDB :=
  set_targets now (is_target orgID targetID) (fun t => t <| at_wake_requested_at := Some now |>) d.

(** lockAutomationRunLifecycle: the locks order the writers; what the function
    changes is the job of an attempt whose lease has lapsed. *)
Definition lockAutomationRunLifecycle (runID : uuid) (revokeAbandonedLease : bool) (d : AutoDB) : result AutoDB :=
  let? r := one_row (fun r => is_run orgID runID r
                      && match ar_target_id r with
                         | Some t => exists_row (is_target orgID t) (automation_targets d)
                         | None => false
                         end) (automation_runs d) ErrAutomationTargetNotFound in
  Ok (match ar_job_id r with
      | Some jobID => if revokeAbandonedLease then d <| plane := RevokeAbandonedLease now orgID jobID (plane d) |> else d
      | None => d
      end).

(** applyPendingOwnershipRelease. *)
Definition release_pending_of (sessionID : uuid) (d : AutoDB) (g : AutomationTargetSession) : bool :=
  (ag_org_id g ==? orgID) && ag_ownership_release_pending g
  && exists_row (fun s => is_session orgID sessionID s && col_is (s_automation_owner_generation_id s) (ag_id g)) (sessions (plane d)).
Definition applyPendingOwnershipRelease (sessionID : uuid) (d : AutoDB) : AutoDB :=
  let released := map ag_id (select (release_pending_of sessionID d) (automation_target_sessions d)) in
  let d1 := set_generations now (release_pending_of sessionID d) (fun g => g <| ag_ownership_release_pending := false |>) d in
  set_sessions (fun s => is_session orgID sessionID s
                         && existsb (fun g => col_is (s_automation_owner_generation_id s) g) released)
    (fun s => s <| s_automation_owner_generation_id := None |>) d1.

Definition idle_thread (threadID : uuid) (d : AutoDB) : AutoDB :=
  set_threads (fun th => is_thread orgID threadID th && ((th_status th ==? "pending") || (th_status th ==? "running")))
    (fun th => th <| th_status := "idle" |>) d.

(** The columns a statement returns of an executing run. *)
Definition turn_of (r : AutomationRun) : uuid * uuid * uuid :=
  (default uuid_Nil (ar_session_id r), default uuid_Nil (ar_thread_id r), default uuid_Nil (ar_target_id r)).

(** ** Preflight *)

Definition preflight_outcome (o : AutomationRunOutcomeReason) : bool :=
  (o ==? AutomationRunOutcomeStaleHead) || (o ==? AutomationRunOutcomePRClosed) || (o ==? AutomationRunOutcomeRepositoryUnavailable).

Definition CompleteExecutingPreflight (runID lockToken : uuid) (outcome : AutomationRunOutcomeReason) (summary : string) (d : AutoDB)
    : result (AutoDB * option uuid) :=
  if negb (preflight_outcome outcome) then Err "complete executing preflight: not a preflight outcome"
  else if lockToken ==? uuid_Nil then Err "complete executing preflight: lock token is required"
  else match lockAutomationRunLifecycle runID false d with
  | Err _ => Ok (d, None)
  | Ok d0 =>
      let p := attempt_fence orgID runID lockToken d0 in
      match select p (automation_runs d0) with
      | [] => Ok (d0, None)
      | r :: _ =>
          let '(sessionID, threadID, targetID) := turn_of r in
          let d1 := set_runs now p (ended now outcome (nullif_empty summary)) d0 in
          let d2 := set_sessions (fun s => is_session orgID sessionID s && pendingRunning (s_status s))
                      (fun s => s <| s_status := SessionStatusIdle |> <| s_last_activity_at := now |>) d1 in
          let d3 := idle_thread threadID d2 in
          let d4 := d3 <| plane := (plane d3) <| session_messages :=
                       select (fun m => negb ((m_org_id m ==? orgID) && col_is (m_automation_run_id m) runID
                                              && (m_role m ==? "user") && (m_source m ==? "automation_turn")))
                         (session_messages (plane d3)) |> |> in
          Ok (applyPendingOwnershipRelease sessionID (wake targetID d4), Some targetID)
      end
  end.

(** ** Completion from the marker *)

Definition live_executor (r : AutomationRun) (e : SessionExecutor) : bool :=
  col_is (ar_job_id r) (se_job_id e) && (se_org_id e ==? ar_org_id r) && executor_active e
  && match se_lease_expires_at e with Some t => now <? t | None => true end.
(** automationRunNoLiveLease. *)
Definition no_live_lease (d : AutoDB) (r : AutomationRun) : bool :=
  negb (exists_row (fun j => col_is (ar_job_id r) (j_id j) && (j_org_id j ==? ar_org_id r)
                             && (j_status j ==? JobStatusRunning) && col_gt (j_lease_expires_at j) now) (jobs (plane d)))
  && negb (exists_row (live_executor r) (session_executors (plane d))).
(** automationRunJobTerminal. *)
Definition job_terminal (d : AutoDB) (r : AutomationRun) : bool :=
  exists_row (fun j => col_is (ar_job_id r) (j_id j) && (j_org_id j ==? ar_org_id r)
                       && match j_status j with JobStatusPending | JobStatusRunning => false | _ => true end) (jobs (plane d)).

Definition marker_of (r : AutomationRun) (m : AutomationRunResult) : bool :=
  (rr_run_id m ==? ar_id r) && (rr_org_id m ==? ar_org_id r) && (rr_attempt m =? ar_attempt r).
Definition has_marker (d : AutoDB) (r : AutomationRun) : bool := exists_row (marker_of r) (automation_run_results d).

(** automationRunCompletionFence. *)
Definition completion_fence (runID jobID lockToken : uuid) (d : AutoDB) (r : AutomationRun) : bool :=
  is_run orgID runID r && executing r && col_is (ar_job_id r) jobID && has_marker d r
  && (job_held lockToken r d || no_live_lease d r).

Record AutomationRunCompletion := MkCompletion {
  cp_TargetID : uuid;
  cp_TargetGeneration : Z;
  cp_SessionID : uuid;
  cp_GenerationID : uuid;
  cp_Outcome : AutomationRunOutcomeReason;
  cp_RetireGeneration : bool
}.

(** The summary a completed run keeps: the session's, then the thread's, each
    only once it has reached the marker's turn. *)
Definition completed_summary (m : AutomationRunResult) (d : AutoDB) (resultSummary : option string) (r : AutomationRun) : option string :=
  let of_session := match select (fun s => col_is (ar_session_id r) (s_id s) && (s_org_id s ==? ar_org_id r)
                                           && (rr_turn_number m <=? s_current_turn s)) (sessions (plane d)) with
                    | s :: _ => match s_result_summary s with Some x => nullif_empty x | None => None end
                    | [] => None
                    end in
  let of_thread := match select (fun th => (th_id th ==? rr_thread_id m) && (th_org_id th ==? ar_org_id r)
                                           && (rr_turn_number m <=? th_current_turn th)) (session_threads (plane d)) with
                   | th :: _ => match th_result_summary th with Some x => nullif_empty x | None => None end
                   | [] => None
                   end in
  keep_unless resultSummary (keep_unless of_session (keep_unless of_thread (ar_result_summary r))).

Definition count_turn (runID : uuid) (reviewed : bool) (headSHA : option string) (headEpoch : option Z)
    (g : AutomationTargetSession) : AutomationTargetSession :=
  let advance := match headEpoch with
                 | Some e => reviewed && (ag_status g ==? AutomationTargetSessionStatusActive) && (ag_last_reviewed_epoch g <=? e)
                 | None => false
                 end in
  g <| ag_turn_count := ag_turn_count g + 1 |> <| ag_last_run_id := Some runID |> <| ag_last_turn_at := Some now |>
    <| ag_last_reviewed_head_sha := if advance then keep_unless headSHA (ag_last_reviewed_head_sha g) else ag_last_reviewed_head_sha g |>
    <| ag_last_reviewed_epoch := if advance then default (ag_last_reviewed_epoch g) headEpoch else ag_last_reviewed_epoch g |>.

Definition generation_numbered (targetID : uuid) (generation : Z) (g : AutomationTargetSession) : bool :=
  (ag_org_id g ==? orgID) && (ag_target_id g ==? targetID) && (ag_generation g =? generation).

Definition CompleteFromMarker (runID jobID lockToken : uuid) (resultSummary : option string) (d : AutoDB)
    : result (AutoDB * option AutomationRunCompletion) :=
  match lockAutomationRunLifecycle runID true d with
  | Err _ => Ok (d, None)
  | Ok d0 =>
      match select (fun r => is_run orgID runID r && executing r) (automation_runs d0) with
      | [] => Ok (d0, None)
      | r :: _ =>
          match select (marker_of r) (automation_run_results d0) with
          | [] => Ok (d0, None)
          | m :: _ =>
              let p := completion_fence runID jobID lockToken d0 in
              let outcome := OutcomeReason (rr_outcome m) in
              if negb (p r) then Ok (d0, None)
              else
                let '(sessionID, _, targetID) := turn_of r in
                let generation := default 0 (ar_target_generation r) in
                let d1 := set_runs now p
                  (fun r => (ended now outcome (completed_summary m d0 resultSummary r) r)
                              <| ar_native_context := Some (rr_native_context m) |>) d0 in
                let reviewed := (rr_outcome m ==? AutomationRunResultTurnCompleted) && rr_review_complete m in
                let? g := one_row (generation_numbered targetID generation) (automation_target_sessions d1)
                            "complete automation run: generation not found" in
                let d2 := set_generations now (generation_numbered targetID generation)
                            (count_turn runID reviewed (run_head r) (ar_head_epoch r)) d1 in
                let d3 := set_sessions (fun s => is_session orgID sessionID s && s_turn_holding_container s)
                            (fun s => s <| s_turn_holding_container := false |>) d2 in
                let d4 := set_threads (fun th => is_thread orgID (rr_thread_id m) th
                                         && ((th_status th ==? "pending") || (th_status th ==? "running")))
                            (fun th => th <| th_status := "idle" |> <| th_current_turn := Z.max (th_current_turn th) (rr_turn_number m) |>
                               <| th_last_activity_at := Some now |>
                               <| th_agent_session_id := keep_unless (rr_agent_session_id m) (th_agent_session_id th) |>) d3 in
                Ok (wake targetID (applyPendingOwnershipRelease sessionID d4),
                    Some (MkCompletion targetID generation sessionID (ag_id g) outcome
                            (rr_outcome m ==? AutomationRunResultAwaitingInput)))
          end
      end
  end.

(** ** Abandoned turns *)

Definition attempt_age (r : AutomationRun) : time :=
  match ar_attempt_started_at r with
  | Some t => t
  | None => match ar_execution_started_at r with Some t => t | None => ar_triggered_at r end
  end.
Definition abandoned (staleBefore : time) (d : AutoDB) (r : AutomationRun) : bool :=
  executing r && negb (is_null (ar_job_id r)) && no_live_lease d r
  && (job_terminal d r || (attempt_age r <? staleBefore)).

Definition FailRetriesExhausted (runID : uuid) (staleBefore : time) (d : AutoDB) : result (AutoDB * option uuid) :=
  match lockAutomationRunLifecycle runID true d with
  | Err _ => Ok (d, None)
  | Ok d0 =>
      let p r := is_run orgID runID r && abandoned staleBefore d0 r && negb (has_marker d0 r) in
      match select p (automation_runs d0) with
      | [] => Ok (d0, None)
      | r :: _ =>
          let '(sessionID, threadID, targetID) := turn_of r in
          let d1 := set_runs now p (ended now AutomationRunOutcomeRetriesExhausted (Some "the turn's job ended without a result")) d0 in
          let d2 := set_sessions (fun s => is_session orgID sessionID s && (pendingRunning (s_status s) || s_turn_holding_container s))
                      (fun s => s <| s_status := SessionStatusIdle |> <| s_turn_holding_container := false |>
                                  <| s_last_activity_at := now |>) d1 in
          let d3 := idle_thread threadID d2 in
          Ok (wake targetID (applyPendingOwnershipRelease sessionID d3), Some targetID)
      end
  end.

Definition ListAbandonedExecutingRuns (staleBefore : time) (d : AutoDB) : list uuid :=
  map ar_id (order_by arrival_le (select (fun r => (ar_org_id r ==? orgID) && abandoned staleBefore d r) (automation_runs d))).

Definition HasResultForCurrentAttempt (runID : uuid) (d : AutoDB) : bool :=
  exists_row (fun r => is_run orgID runID r && has_marker d r && executing r) (automation_runs d).

(** ** Stranded ownership *)

Definition stranded (d : AutoDB) (g : AutomationTargetSession) : bool :=
  (ag_org_id g ==? orgID) && ag_ownership_release_pending g
  && negb (turn_executing orgID (ag_target_id g) (ag_generation g) d).
Definition ListStrandedOwnershipReleases (d : AutoDB) : list (uuid * uuid) :=
  map (fun g => (ag_id g, ag_target_id g))
    (order_by (fun a b => (ag_updated_at a <? ag_updated_at b)
                          || ((ag_updated_at a =? ag_updated_at b) && String.leb (ag_id a) (ag_id b)))
      (select (stranded d) (automation_target_sessions d))).

Definition ReleaseStrandedOwnership (generationID targetID : uuid) (d : AutoDB) : result (AutoDB * bool) :=
  let? _ := GetTargetByID orgID targetID d in
  let p g := is_generation orgID generationID g && (ag_target_id g ==? targetID) && stranded d g in
  match select p (automation_target_sessions d) with
  | [] => Ok (d, false)
  | g :: _ =>
      let d1 := set_generations now p (fun g => g <| ag_ownership_release_pending := false |>) d in
      let d2 := set_sessions (fun s => is_session orgID (ag_session_id g) s && col_is (s_automation_owner_generation_id s) generationID)
                  (fun s => s <| s_automation_owner_generation_id := None |> <| s_turn_holding_container := false |>) d1 in
      Ok (wake targetID d2, true)
  end.

(** ** Deadlines of waiting runs *)

Definition timed_out (cutoff : time) (r : AutomationRun) : bool :=
  (ar_status r ==? AutomationRunStatusPending) && col_is (ar_dispatch_state r) AutomationRunDispatchWaiting
  && col_lt (ar_wait_started_at r) cutoff && negb (col_is (ar_head_resolution r) AutomationRunHeadAmbiguous).
Definition ListTargetsWithTimedOutWaits (cutoff : time) (d : AutoDB) : list uuid :=
  remove_dups (omap ar_target_id (select (fun r => (ar_org_id r ==? orgID) && timed_out cutoff r) (automation_runs d))).
Definition FailTimedOutWaits (targetID : uuid) (cutoff : time) (d : AutoDB) : result (AutoDB * Z) :=
  let? _ := GetTargetByID orgID targetID d in
  let p r := run_of orgID targetID r && timed_out cutoff r in
  let failed := count_rows p (automation_runs d) in
  if failed =? 0 then Ok (d, 0)
  else Ok (wake targetID (set_runs now p
         (ended now AutomationRunOutcomeWaitTimeout (Some "the run waited too long for its target")) d), failed).

Definition ambiguity_expired (wall : time) (t : AutomationTarget) : bool :=
  at_head_resolution_pending t && col_le (at_head_resolution_deadline_at t) wall.
Definition ListTargetsWithExpiredAmbiguity (wall : time) (d : AutoDB) : list uuid :=
  map at_id (order_by (fun a b => default 0 (at_head_resolution_deadline_at a) <=? default 0 (at_head_resolution_deadline_at b))
    (select (fun t => (at_org_id t ==? orgID) && ambiguity_expired wall t) (automation_targets d))).
Definition ResolveAmbiguityDeadline (targetID : uuid) (wall : time) (d : AutoDB) : result (AutoDB * option Z) :=
  let? t := GetTargetByID orgID targetID d in
  if negb (ambiguity_expired wall t) then Ok (d, None)
  else
    let p := ambiguous_waiting orgID targetID in
    let d1 := set_runs now p (fun r => r <| ar_head_resolution := Some AutomationRunHeadUnresolved |> <| ar_head_epoch := None |>
                                         <| ar_wait_started_at := Some now |>) d in
    Ok (set_targets now (is_target orgID targetID)
          (fun t => t <| at_head_resolution_pending := false |> <| at_head_resolution_deadline_at := None |>
                      <| at_wake_requested_at := Some now |>) d1,
        Some (count_rows p (automation_runs d))).

(** ** Missing wakes *)

Definition needs_wake (staleBefore : time) (prefix : string) (d : AutoDB) (t : AutomationTarget) : bool :=
  (at_org_id t ==? orgID)
  && exists_row (fun r => run_of orgID (at_id t) r && unstarted r) (automation_runs d)
  && negb (exists_row (fun r => run_of orgID (at_id t) r && executing r) (automation_runs d))
  && (is_null (at_wake_requested_at t) || col_lt (at_wake_requested_at t) staleBefore
      || negb (exists_row (fun j => (j_org_id j ==? orgID) && col_is (j_dedupe_key j) (prefix +:+ at_id t) && job_active j)
                 (jobs (plane d)))).
Definition wake_le (a b : AutomationTarget) : bool :=
  match at_wake_requested_at a, at_wake_requested_at b with
  | None, Some _ => true
  | Some _, None => false
  | Some x, Some y => (x <? y) || ((x =? y) && String.leb (at_id a) (at_id b))
  | None, None => String.leb (at_id a) (at_id b)
  end.
Definition ListTargetsNeedingWake (staleBefore : time) (prefix : string) (d : AutoDB) : list uuid :=
  map at_id (order_by wake_le (select (needs_wake staleBefore prefix d) (automation_targets d))).
End Completion.
