(* ===== verification/AutomationService.v ===== *)
(** * Dispatch of per-target turns

    Arrival of a GitHub event at its target, the ownership transaction that
    turns a waiting run into the target's executing turn, the completer with
    its wakes and sweeps, and the lifecycle notifications
    (services/automations/target_arrival.go, target_dispatch.go,
    turn_completer.go, target_lifecycle.go, turn_store.go).

    Each function is one database transaction on [AutoDB]: [now] is its start,
    [wall] the clock of the process, and the identifiers it draws are
    arguments.  What GitHub answered before the transaction, and the rows the
    caller had read by then, are arguments too. *)

From S2P Require Import Prelude GoRuntime Sql Tables JobStore ExecutorStore Automation AutomationStore.
From S2P Require Import AutomationRunStore AutomationCompletion.
From stdpp Require Import base option list strings pretty gmap.

Open Scope string_scope.
Open Scope Z_scope.

(** ** Arrival *)

Record GitHubEventTriggerRequest := MkTriggerRequest {
  tq_RepositoryID : uuid;
  tq_Event : AutomationGitHubEvent;
  tq_PullRequestNumber : Z;
  tq_PullRequestAction : string;
  tq_HeadSHA : string;
  tq_BaseBranch : string;
  tq_PullRequestUpdatedAt : option time
}.

Definition githubActionReopened : string := "reopened".
Definition automationTargetWaitingCap : Z := 10.
Definition automationHeadAmbiguityWindow : duration := 30 * minute.

Definition isPushArrival (req : GitHubEventTriggerRequest) : bool :=
  (tq_Event req ==? AutomationGitHubEventPullRequestUpdated) && (tq_PullRequestAction req ==? synchronize).
Definition carriesObservableHead (req : GitHubEventTriggerRequest) : bool :=
  (tq_HeadSHA req <>? "")
  && ((tq_PullRequestAction req ==? synchronize) || (tq_PullRequestAction req ==? "opened")
      || (tq_PullRequestAction req ==? githubActionReopened) || (tq_PullRequestAction req ==? "ready_for_review")).

Section Arrival.
Variables (now wall : time) (automation : Automation) (req : GitHubEventTriggerRequest).
Let orgID := au_org_id automation.

(** The lifecycle part of recordTargetArrival: the state the run is admitted
    against. *)
Definition arrival_lifecycle (t : AutomationTarget) (d : AutoDB) : result (AutoDB * AutomationTargetLifecycleState) :=
  let transition state :=
    let? (d1, applied) := SetLifecycleObserved now orgID (at_id t) state (tq_PullRequestUpdatedAt req) d in
    Ok (d1, if applied : bool then state else at_lifecycle_state t) in
  let? (d1, state) :=
    if (tq_PullRequestAction req ==? githubActionReopened) && (at_lifecycle_state t <>? AutomationTargetLifecycleOpen)
    then transition AutomationTargetLifecycleOpen
    else if (tq_Event req ==? AutomationGitHubEventPullRequestMerged) && (at_lifecycle_state t <>? AutomationTargetLifecycleMerged)
    then transition AutomationTargetLifecycleMerged
    else Ok (d, at_lifecycle_state t) in
  if (state ==? AutomationTargetLifecycleOpen) && (tq_PullRequestAction req <>? "") && negb (is_null (tq_PullRequestUpdatedAt req))
  then let? (d2, _) := SetLifecycleObserved now orgID (at_id t) AutomationTargetLifecycleOpen (tq_PullRequestUpdatedAt req) d1 in
       Ok (d2, state)
  else Ok (d1, state).

(** A run that ends on arrival. *)
Definition arrival_ends (runID : uuid) (arrival : AutomationRunArrival) (outcome : AutomationRunOutcomeReason) (summary : string) (d : AutoDB)
    : result (AutoDB * bool) :=
  let? d1 := RecordArrival now orgID runID arrival d in
  Ok ((TerminalizeUnstarted now orgID runID outcome None summary d1).1, false).

(** The head part: [t] is the target as it was locked. *)
Definition arrival_head (runID : uuid) (t : AutomationTarget) (d : AutoDB) : result (AutoDB * bool) :=
  let arrival epoch resolution := MkArrival (at_id t) (tq_PullRequestAction req) (tq_PullRequestUpdatedAt req) epoch resolution in
  let record epoch resolution d := let? d1 := RecordArrival now orgID runID (arrival epoch resolution) d in Ok (d1, true) in
  let push := isPushArrival req in
  let later := match tq_PullRequestUpdatedAt req, at_observed_head_updated_at t with
               | Some u, Some o => After u o
               | Some _, None => true
               | None, _ => false
               end in
  let newer := carriesObservableHead req && later in
  let sameHead := (tq_HeadSHA req <>? "") && col_is (at_observed_head_sha t) (tq_HeadSHA req) in
  let older := carriesObservableHead req
               && match tq_PullRequestUpdatedAt req, at_observed_head_updated_at t with
                  | Some u, Some o => Before u o
                  | _, _ => false
                  end in
  if newer && negb sameHead then
    let? (d1, epoch) := AdoptHead now orgID (at_id t) (tq_HeadSHA req) (tq_PullRequestUpdatedAt req) d in
    let d2 := if push then SupersedeWaitingPush now orgID (at_id t) runID epoch d1 else d1 in
    record (Some epoch) (Some AutomationRunHeadAuthoritative) d2
  else if sameHead then
    let? d1 := match tq_PullRequestUpdatedAt req with
               | Some u => if later then TouchObservedHead now orgID (at_id t) (tq_HeadSHA req) u d else Ok d
               | None => Ok d
               end in
    record (Some (at_head_epoch t)) (Some AutomationRunHeadAuthoritative) d1
  else if push && older then
    arrival_ends runID (arrival None None) AutomationRunOutcomeStaleHead "a newer push for this pull request was already observed" d
  else if push then
    let? d1 := MarkHeadResolutionPending now orgID (at_id t) (wall + automationHeadAmbiguityWindow) d in
    let? d2 := RecordArrival now orgID runID (arrival None (Some AutomationRunHeadAmbiguous)) d1 in
    Ok ((MarkWaiting now orgID runID d2).1, true)
  else record None None d.

Definition recordTargetArrival (freshTarget runID : uuid) (d : AutoDB) : result (AutoDB * bool) :=
  if (au_session_continuity automation <>? AutomationSessionContinuityPerTarget)
     || (tq_PullRequestNumber req <=? 0) || (tq_RepositoryID req ==? uuid_Nil)
  then Ok (d, true)
  else
    let? (d1, t) := LockOrCreate now orgID freshTarget (au_id automation) (tq_RepositoryID req) (pretty (tq_PullRequestNumber req)) d in
    let? (d2, state) := arrival_lifecycle t d1 in
    let arrival := MkArrival (at_id t) (tq_PullRequestAction req) (tq_PullRequestUpdatedAt req) None None in
    if (state <>? AutomationTargetLifecycleOpen) && (tq_Event req <>? AutomationGitHubEventPullRequestMerged)
    then arrival_ends runID arrival AutomationRunOutcomePRClosed "pull request is no longer open" d2
    else if automationTargetWaitingCap <=? CountWaiting orgID (at_id t) d2
    then arrival_ends runID arrival AutomationRunOutcomeWaitOverflow "more than 10 runs are already waiting for this pull request" d2
    else arrival_head runID t d2.

(** The transaction of triggerAutomation: the run, its arrival, its job. *)
Definition automationRunDedupePrefix : string := "automation_run:".
Definition run_job_payload (orgID automationID runID : uuid) : payload :=
  <["org_id" := jstr orgID]> (<["automation_id" := jstr automationID]> (<["automation_run_id" := jstr runID]> ∅)).
Definition triggerAutomation (freshRun freshTarget freshJob : uuid) (goal : string) (duplicate : bool) (d : AutoDB) : result AutoDB :=
  let snapshot := MkRunSnapshot (tq_Event req) (tq_PullRequestNumber req) (tq_HeadSHA req) (tq_BaseBranch req) in
  let '(d1, created) := CreateRunInTx now orgID freshRun (au_id automation) goal snapshot duplicate d in
  if negb created then Ok d1
  else
    let? (d2, dispatchable) := recordTargetArrival freshTarget freshRun d1 in
    if negb (dispatchable : bool) then Ok d2
    else
      let? (p, _) := Enqueue now freshJob orgID "default" "automation_run" (run_job_payload orgID (au_id automation) freshRun) 5
                       (Some (automationRunDedupePrefix +:+ freshRun)) (plane d2) in
      Ok (d2 <| plane := p |>).
End Arrival.

(** ** The continuation decision *)

Definition AutomationTurnLimit : Z := 25.
Definition AutomationCheckpointSizeLimit : Z := Z.shiftl 2 30.
Definition automationPendingSnapshotRetry : duration := 15 * second.
Definition automationHeadLookupRetryMin : duration := 30 * second.
Definition automationHeadLookupRetryMax : duration := 10 * minute.
Definition automationLifecycleStaleAfter : duration := hour.
Definition automationConfigChangeRetry : duration := second.
Definition automationStaleLookupRetry : duration := second.
Definition AutomationTurnJobQueue : string := "agent".
Definition AutomationTurnDedupeKey (runID : uuid) : string := "automation_turn:" +:+ runID.

Record PullRequestHeadInfo := MkHeadInfo {
  hi_SHA : string;
  hi_UpdatedAt : option time;
  hi_State : string;
  hi_BaseBranch : string
}.
(** The lookup taken before the transaction; [None] when there is no resolver,
    it failed, or it returned no head. *)
Abbreviation lookupResult := (option PullRequestHeadInfo).
Definition lookup (answer : option PullRequestHeadInfo) : lookupResult :=
  match answer with Some i => if hi_SHA i ==? "" then None else Some i | None => None end.

(** The session template the worker hands over. *)
Record SessionTemplate := MkTemplate {
  st_AgentType : string;
  st_RepositoryID : option uuid;
  st_Status : SessionStatus;
  st_ExecutionBrief : option string
}.

Definition stringPtrEqual (a b : option string) : bool :=
  match a, b with
  | None, None => true
  | Some x, Some y => TrimSpace x ==? TrimSpace y
  | _, _ => false
  end.
Definition agentConfigMatches (automation : Automation) (template : SessionTemplate) (session : Session) : bool :=
  negb ((st_AgentType template <>? "") && (st_AgentType template <>? s_agent_type session))
  && stringPtrEqual (au_model_override automation) (s_model_override session)
  && stringPtrEqual (au_reasoning_effort automation) (s_reasoning_effort session).

Definition automationExecutingUser (automation : Automation) : result (option uuid) :=
  let scope := if au_identity_scope automation ==? "" then "org" else au_identity_scope automation in
  if scope ==? "org" then Ok None
  else if scope ==? "personal" then
    match au_created_by automation with
    | Some u => Ok (Some u)
    | None => Err "personal automation is missing created_by; cannot resolve execution identity"
    end
  else Err "invalid identity_scope".

Definition checkpointCoherent (g : AutomationTargetSession) (s : Session) : bool :=
  match ag_checkpoint_snapshot_key g, s_snapshot_key s with Some a, Some b => a ==? b | _, _ => false end.

Definition baselineHead (g : AutomationTargetSession) (s : Session) (th : SessionThread) (mode : AutomationRunContinuationMode) : option string :=
  if mode <>? AutomationRunContinuationContinued then ag_last_reviewed_head_sha g
  else
    let nativeResume := match th_agent_session_id th with Some i => i <>? "" | None => false end in
    if checkpointCoherent g s && nativeResume && negb (is_null (ag_checkpoint_head_sha g)) then ag_checkpoint_head_sha g
    else ag_last_reviewed_head_sha g.

Inductive continuationDecision :=
  | decisionProceed (mode : AutomationRunContinuationMode) (reason : option AutomationRunContinuationReason)
      (retire : option AutomationTargetRetiredReason)
  | decisionWait
  | decisionRetry (after : duration)
  | decisionSkip (outcome : AutomationRunOutcomeReason) (note : string).
Definition freshDecision (reason : AutomationRunContinuationReason) (retire : option AutomationTargetRetiredReason) : continuationDecision :=
  decisionProceed AutomationRunContinuationFresh (Some reason) retire.
Definition retireDecision (reason : AutomationTargetRetiredReason) : continuationDecision :=
  freshDecision (ContinuationReasonForRetirement reason) (Some reason).
Definition reconstructDecision (reason : AutomationRunContinuationReason) : continuationDecision :=
  decisionProceed AutomationRunContinuationReconstructed (Some reason) None.

Section Decide.
Variables (wall : time) (maxSnapshotAge : duration) (checkpointSizeLimit : Z).

Definition checkpointUsable (s : Session) : bool :=
  match s_snapshot_key s with Some k => k <>? "" | None => false end
  && ((s_checkpoint_kind s ==? "turn_complete") || (s_checkpoint_kind s ==? "graceful_stop") || (s_checkpoint_kind s ==? "bootstrap"))
  && negb ((0 <? maxSnapshotAge)
           && match s_checkpointed_at s with Some t => maxSnapshotAge <? Sub wall t | None => true end).

Definition decide (automation : Automation) (template : SessionTemplate) (expectedUser : option uuid) (headSHA baseBranch : string)
    (generation : option AutomationTargetSession) (session : option Session) (isPush : bool) : continuationDecision :=
  match generation with
  | None => freshDecision AutomationRunContinuationReasonNoGeneration None
  | Some g =>
      if isPush && (headSHA <>? "") && col_is (ag_last_reviewed_head_sha g) headSHA
      then decisionSkip AutomationRunOutcomeDuplicateHead "head already reviewed by this conversation"
      else match session with
      | None => retireDecision AutomationTargetRetiredSessionUnavailable
      | Some s =>
          if negb (is_null (s_archived_at s)) || negb (is_null (s_deleted_at s))
          then retireDecision AutomationTargetRetiredSessionUnavailable
          else if s_status s ==? SessionStatusRunning then decisionWait
          else if negb ((s_status s ==? SessionStatusIdle) || resumable_status (s_status s))
          then retireDecision AutomationTargetRetiredNotResumable
          else if negb (agentConfigMatches automation template s) then retireDecision AutomationTargetRetiredAgentConfigChanged
          else if expectedUser <>? s_triggered_by_user_id s then retireDecision AutomationTargetRetiredIdentityChanged
          else if match ag_last_base_ref g with Some b => (baseBranch <>? "") && (b <>? baseBranch) | None => false end
          then retireDecision AutomationTargetRetiredBaseRetargeted
          else if AutomationTurnLimit <=? ag_turn_count g then retireDecision AutomationTargetRetiredTurnLimit
          else if (0 <? checkpointSizeLimit) && (checkpointSizeLimit <? s_checkpoint_size_bytes s)
          then retireDecision AutomationTargetRetiredSnapshotTooLarge
          else if match s_pending_snapshot_key s with Some k => k <>? "" | None => false end
          then decisionRetry automationPendingSnapshotRetry
          else if checkpointUsable s then
            if checkpointCoherent g s then decisionProceed AutomationRunContinuationContinued None None
            else reconstructDecision AutomationRunContinuationReasonSnapshotMissing
          else if s_sandbox_state s ==? "destroyed" then reconstructDecision AutomationRunContinuationReasonSandboxDestroyed
          else reconstructDecision AutomationRunContinuationReasonSnapshotMissing
      end
  end.
End Decide.

(** The doubling from 30 s to 10 min; five doublings reach the ceiling. *)
Fixpoint backoff_from (fuel : nat) (delay elapsed : duration) : duration :=
  match fuel with
  | O => delay
  | S n => if (delay <? automationHeadLookupRetryMax) && (delay * 2 <=? elapsed) then backoff_from n (delay * 2) elapsed else delay
  end.
Definition headLookupBackoff (wall : time) (r : AutomationRun) : duration :=
  let elapsed := Sub wall (default (ar_triggered_at r) (ar_wait_started_at r)) in
  Z.min (backoff_from 5 automationHeadLookupRetryMin elapsed) automationHeadLookupRetryMax.

(** ** The head a turn reviews *)

Record headResolution := MkHeadResolution {
  hr_headSHA : string;
  hr_baseBranch : string;
  hr_epoch : option Z;
  hr_resolution : option AutomationRunHeadResolution;
  hr_stamp : bool;
  hr_degraded : bool;
  hr_isPush : bool;
  hr_terminal : option AutomationRunOutcomeReason;
  hr_supersededBy : option uuid;
  hr_retryAfter : duration
}.
#[export] Instance eta_headResolution : Eta headResolution := fun h =>
  MkHeadResolution (hr_headSHA h) (hr_baseBranch h) (hr_epoch h) (hr_resolution h) (hr_stamp h) (hr_degraded h)
    (hr_isPush h) (hr_terminal h) (hr_supersededBy h) (hr_retryAfter h).

Section ResolveHead.
Variables (now wall : time) (orgID : uuid).

Definition superseded_note : string := "superseded by the pull request's current head".

(** Every candidate but the survivor is skipped; a survivor that is not the
    dispatching run is stamped. *)
Fixpoint settle_candidates (runID : uuid) (survivor : option uuid) (epoch : Z) (headSHA : string)
    (candidates : list (uuid * string)) (d : AutoDB) : result AutoDB :=
  match candidates with
  | [] => Ok d
  | (c, _) :: rest =>
      let? d1 := if col_is survivor c
                 then if c <>? runID then StampHeadResolution now orgID c (Some epoch) AutomationRunHeadAuthoritative headSHA d else Ok d
                 else Ok (TerminalizeUnstarted now orgID c AutomationRunOutcomeSuperseded survivor superseded_note d).1 in
      settle_candidates runID survivor epoch headSHA rest d1
  end.

Definition survivor_of (runID : uuid) (effective headSHA : string) (adopted : bool) (candidates : list (uuid * string)) : option uuid :=
  if effective ==? headSHA then Some runID
  else match List.find (fun c => c.2 ==? headSHA) candidates with
  | Some c => Some c.1
  | None => if adopted then Some runID else None
  end.

(** The observed head moves to the lookup's. *)
Definition observe_lookup (t : AutomationTarget) (runID : uuid) (head : PullRequestHeadInfo) (d : AutoDB) : result (AutoDB * Z * bool) :=
  if negb (col_is (at_observed_head_sha t) (hi_SHA head)) then
    let? (d1, epoch) := AdoptHead now orgID (at_id t) (hi_SHA head) (hi_UpdatedAt head) d in
    Ok (SupersedeWaitingPush now orgID (at_id t) runID epoch d1, epoch, true)
  else match hi_UpdatedAt head with
  | Some u =>
      if match at_observed_head_updated_at t with Some o => After u o | None => true end
      then let? d1 := TouchObservedHead now orgID (at_id t) (hi_SHA head) u d in Ok (d1, at_head_epoch t, false)
      else Ok (d, at_head_epoch t, false)
  | None => Ok (d, at_head_epoch t, false)
  end.

Definition resolveHead (t : AutomationTarget) (run : AutomationRun) (current : lookupResult) (d : AutoDB) : result (AutoDB * headResolution) :=
  let delivered := rs_head_sha (ar_config_snapshot run) in
  let isPush := is_push run in
  let base := match current with Some h => hi_BaseBranch h | None => "" end in
  let out := MkHeadResolution delivered base (ar_head_epoch run) (ar_head_resolution run) false false isPush None None 0 in
  if col_is (ar_head_resolution run) AutomationRunHeadUnresolved then Ok (d, out)
  else
    let out := match ar_resolved_head_sha run with Some h => if h ==? "" then out else out <| hr_headSHA := h |> | None => out end in
    let ambiguousRun := col_is (ar_head_resolution run) AutomationRunHeadAmbiguous in
    let headless := delivered ==? "" in
    if negb isPush && negb headless then Ok (d, out)
    else match current with
    | None =>
        if ambiguousRun || at_head_resolution_pending t || headless
        then Ok (d, out <| hr_retryAfter := headLookupBackoff wall run |>)
        else Ok (d, out <| hr_degraded := true |>)
    | Some head =>
        let? (de, adopted) := observe_lookup t (ar_id run) head d in
        let '(d1, epoch) := de in
        let authoritative := out <| hr_headSHA := hi_SHA head |> <| hr_epoch := Some epoch |>
                               <| hr_resolution := Some AutomationRunHeadAuthoritative |> in
        let stamped := authoritative <| hr_stamp :=
              (ar_head_epoch run <>? Some epoch) || (ar_head_resolution run <>? Some AutomationRunHeadAuthoritative)
              || (ar_resolved_head_sha run <>? Some (hi_SHA head)) |> in
        if negb isPush then Ok (d1, authoritative <| hr_stamp := true |>)
        else if at_head_resolution_pending t then
          let candidates := ListAmbiguousPushCandidates orgID (at_id t) d1 in
          let survivor := survivor_of (ar_id run) (hr_headSHA out) (hi_SHA head) adopted candidates in
          let? d2 := settle_candidates (ar_id run) survivor epoch (hi_SHA head) candidates d1 in
          let? d3 := ClearHeadResolutionPending now orgID (at_id t) d2 in
          if survivor <>? Some (ar_id run)
          then Ok (d3, out <| hr_terminal := Some AutomationRunOutcomeSuperseded |> <| hr_supersededBy := survivor |>)
          else Ok (d3, stamped)
        else Ok (d1, stamped)
    end.
End ResolveHead.

(** ** The visible prompt of a turn *)

Definition newline : string := String (Ascii.ascii_of_nat 10) EmptyString.
Definition mode_text (m : AutomationRunContinuationMode) : string :=
  match m with
  | AutomationRunContinuationFresh => "fresh"
  | AutomationRunContinuationContinued => "continued"
  | AutomationRunContinuationReconstructed => "reconstructed"
  end.
Definition AutomationTurnPrompt (goal : string) (turn : Z) (mode : AutomationRunContinuationMode) (headSHA : string)
    (previous : option string) (baseBranch : string) : string :=
  let baseline := match previous with Some p => if p ==? "" then "none" else p | None => "none" end in
  TrimSpace goal +:+ newline +:+ newline +:+ "Continuation context:" +:+ newline
  +:+ "- Turn: " +:+ pretty turn +:+ newline +:+ "- Continuation: " +:+ mode_text mode +:+ newline
  +:+ "- Baseline head: " +:+ baseline +:+ newline +:+ "- Head: " +:+ headSHA +:+ newline
  +:+ (if baseBranch ==? "" then "" else "- Base branch: " +:+ baseBranch +:+ newline)
  +:+ newline
  +:+ match mode with
      | AutomationRunContinuationFresh =>
          "This is the first turn of this pull request's review conversation. Review the full pull request against the goal."
      | AutomationRunContinuationReconstructed =>
          "Your earlier context for this pull request is unavailable. Review the full pull request against the goal."
      | AutomationRunContinuationContinued =>
          "Review the changes since the baseline head against the goal. Do not repeat findings for unchanged code unless the change invalidates them, and state which earlier findings the new push resolved. If the baseline is none, review the full pull request."
      end.

(** ** The ownership transaction *)

Inductive DispatchOutcome :=
  | DispatchReserved (jobID sessionID threadID : uuid) (mode : AutomationRunContinuationMode)
      (reason : option AutomationRunContinuationReason)
  | DispatchAlreadyReserved (sessionID threadID : uuid)
  | DispatchWaiting
  | DispatchTerminalized (outcome : option AutomationRunOutcomeReason)
  | DispatchRetry (after : duration)
  | DispatchNotApplicable.

(** The identifiers one transaction may draw. *)
Record Fresh := MkFresh {
  f_target : uuid;
  f_session : uuid;
  f_thread : uuid;
  f_generation : uuid;
  f_job : uuid;
  f_message : Z
}.

Record DispatchInput := MkDispatchInput {
  di_Run : AutomationRun;
  di_Automation : Automation;
  di_SessionTemplate : SessionTemplate;
  di_KillSwitch : bool
}.

Definition Applies (inp : DispatchInput) : bool :=
  negb (di_KillSwitch inp)
  && (au_session_continuity (di_Automation inp) ==? AutomationSessionContinuityPerTarget)
  && negb (is_null (ar_target_id (di_Run inp))).

Definition targetRepository (inp : DispatchInput) : option uuid :=
  match st_RepositoryID (di_SessionTemplate inp) with Some r => Some r | None => au_repository_id (di_Automation inp) end.
Definition targetKeyForRun (run : AutomationRun) : string :=
  if 0 <? rs_pull_request_number (ar_config_snapshot run)
  then pretty (rs_pull_request_number (ar_config_snapshot run)) else ar_id run.

(** [before] is the row as it was read before the lookup. *)
Definition targetChangedSince (before : option AutomationTarget) (after : AutomationTarget) : bool :=
  match before with
  | None => at_id after <>? uuid_Nil
  | Some b => negb (at_updated_at b =? at_updated_at after)
  end.

Definition payloadCarriesRun (p : payload) (runID : uuid) : bool := text_or_empty p "automation_run_id" ==? runID.

Definition turn_payload (sessionID orgID threadID runID : uuid) (generation : Z) (mode : AutomationRunContinuationMode)
    (headSHA : string) (number : Z) (prompt : string) : payload :=
  let p := <["session_id" := jstr sessionID]> (<["org_id" := jstr orgID]> (<["thread_id" := jstr threadID]>
    (<["automation_run_id" := jstr runID]> (<["target_generation" := JScalar (SInt generation)]>
    (<["continuation_mode" := jstr (mode_text mode)]> (<["head_sha" := jstr headSHA]>
    (<["pull_request_number" := JScalar (SInt number)]> ∅))))))) in
  if prompt ==? "" then p else <["structured_prompt" := jstr prompt]> p.

Section Dispatch.
Variables (now wall : time) (maxSnapshotAge : duration) (checkpointSizeLimit : Z).
Variables (ids : Fresh) (inp : DispatchInput) (before : option AutomationTarget) (current : lookupResult).
Let orgID := ar_org_id (di_Run inp).
Let runID := ar_id (di_Run inp).

Definition wait (d : AutoDB) : result (AutoDB * DispatchOutcome) := Ok ((MarkWaiting now orgID runID d).1, DispatchWaiting).
Definition wait_retry (after : duration) (d : AutoDB) : result (AutoDB * DispatchOutcome) :=
  Ok ((MarkWaiting now orgID runID d).1, DispatchRetry after).
Definition terminalizeWith (outcome : AutomationRunOutcomeReason) (supersededBy : option uuid) (note : string) (d : AutoDB)
    : result (AutoDB * DispatchOutcome) :=
  Ok ((TerminalizeUnstarted now orgID runID outcome supersededBy note d).1, DispatchTerminalized (Some outcome)).

Definition lifecycleStale (t : AutomationTarget) : bool :=
  match at_lifecycle_updated_at t with Some u => automationLifecycleStaleAfter <? Sub wall u | None => true end.

(** SessionStore.CreateInTx: the session and its primary thread. *)
Definition create_session (automation : Automation) (user : option uuid) (d : AutoDB) : result AutoDB :=
  let p := plane d in
  if exists_row (fun s => s_id s ==? f_session ids) (sessions p) || exists_row (fun th => th_id th ==? f_thread ids) (session_threads p)
  then Err "create per-target session: duplicate key"
  else
    let s := inserted_session (f_session ids) orgID (st_Status (di_SessionTemplate inp)) (st_AgentType (di_SessionTemplate inp))
               (au_model_override automation) (au_reasoning_effort automation) user now in
    Ok (d <| plane := p <| sessions := (sessions p ++ [s])%list |>
                        <| session_threads := (session_threads p ++ [inserted_thread (f_thread ids) orgID (f_session ids) "idle" now])%list |> |>).

(** The turn's visible message, job and reservation. *)
Definition reserve_turn (t : AutomationTarget) (g : AutomationTargetSession) (sessionID threadID : uuid) (turn : Z) (jobType goal : string)
    (previous : option string) (mode : AutomationRunContinuationMode) (reason : option AutomationRunContinuationReason)
    (resolved : headResolution) (baseBranch : string) (d : AutoDB) : result (AutoDB * DispatchOutcome) :=
  let prompt := AutomationTurnPrompt goal turn mode (hr_headSHA resolved) previous baseBranch in
  let message := MkSessionMessage (f_message ids) orgID sessionID (Some threadID) "user" now None turn prompt "automation_turn" (Some runID) in
  let d1 := d <| plane := (plane d) <| session_messages := (session_messages (plane d) ++ [message])%list |> |> in
  let? d2 := SetAttemptedHead now orgID (ag_id g) (hr_headSHA resolved) baseBranch d1 in
  let body := turn_payload sessionID orgID threadID runID (ag_generation g) mode (hr_headSHA resolved)
                (rs_pull_request_number (ar_config_snapshot (di_Run inp))) (if jobType ==? "continue_session" then prompt else "") in
  let dedupeKey := AutomationTurnDedupeKey runID in
  let? (p, enqueued) := Enqueue now (f_job ids) orgID AutomationTurnJobQueue jobType body 5 (Some dedupeKey) (plane d2) in
  let? jobID :=
    if enqueued ==? uuid_Nil then
      let? (existing, existingPayload) := ActiveJobPayloadByDedupeKeyInTx p orgID AutomationTurnJobQueue dedupeKey in
      if payloadCarriesRun existingPayload runID then Ok existing
      else Err "automation turn dedupe key is held by a job for a different run"
    else Ok enqueued in
  let? (d3, reserved) := ReserveForExecution now orgID runID
    (MkReservation (at_id t) (ag_generation g) sessionID threadID turn jobID mode reason previous (hr_epoch resolved)
       (hr_resolution resolved) (Some (hr_headSHA resolved)) (hr_degraded resolved)) (d2 <| plane := p |>) in
  if reserved : bool then Ok (d3, DispatchReserved jobID sessionID threadID mode reason)
  else Err "automation run was not reservable inside the ownership transaction".

(** Creating or claiming the generation's session; [d0] is the database the
    transaction started from. *)
Definition start_turn (d0 : AutoDB) (automation : Automation) (user : option uuid) (t : AutomationTarget)
    (generation : option AutomationTargetSession) (mode : AutomationRunContinuationMode) (reason : option AutomationRunContinuationReason)
    (retire : option AutomationTargetRetiredReason) (resolved : headResolution) (baseBranch : string) (d : AutoDB)
    : result (AutoDB * DispatchOutcome) :=
  let? d1 := match generation, retire with
             | Some g, Some why => let? (d', _) := RetireGeneration now orgID (ag_id g) why d in Ok d'
             | _, _ => Ok d
             end in
  let goal := match st_ExecutionBrief (di_SessionTemplate inp) with
              | Some b => if TrimSpace b ==? "" then ar_goal_snapshot (di_Run inp) else b
              | None => ar_goal_snapshot (di_Run inp)
              end in
  match mode, generation with
  | AutomationRunContinuationFresh, _ =>
      let? d2 := create_session automation user d1 in
      let? (d3, _) := InsertGeneration now orgID (f_generation ids) (at_id t) (f_session ids) d2 in
      let? g := GetActiveGeneration orgID (at_id t) d3 in
      reserve_turn t g (f_session ids) (f_thread ids) 1 "run_agent" goal None mode reason resolved baseBranch d3
  | _, None => Err "load generation session"
  | _, Some g =>
      match ClaimForAutomationTurn now orgID (ag_session_id g) true d1 with
      | Err _ => wait d1
      | Ok (d2, s) =>
          match ClaimPrimaryForAutomationTurn now orgID (s_id s) d2 with
          | Err _ => wait d0
          | Ok (d3, th) =>
              reserve_turn t g (s_id s) (th_id th) (s_current_turn s + 1) "continue_session" (ar_goal_snapshot (di_Run inp))
                (baselineHead g s th mode) mode reason resolved baseBranch d3
          end
      end
  end.

(** From the resolved head on: one turn at a time, in order, and the
    continuation decision. *)
Definition dispatch_turn (d0 : AutoDB) (automation : Automation) (user : option uuid) (t : AutomationTarget) (run : AutomationRun)
    (resolved : headResolution) (d : AutoDB) : result (AutoDB * DispatchOutcome) :=
  let baseBranch := if hr_baseBranch resolved ==? "" then rs_base_branch (ar_config_snapshot (di_Run inp)) else hr_baseBranch resolved in
  if negb (is_null (ExecutingRunForTarget orgID (at_id t) d)) then wait d
  else if match NextWaiting orgID (at_id t) d with Some next => ar_id next <>? ar_id run | None => false end then wait d
  else
    let generation := match GetActiveGeneration orgID (at_id t) d with Ok g => Some g | Err _ => None end in
    let session := match generation with
                   | Some g => match select (fun s => is_session orgID (ag_session_id g) s && is_null (s_deleted_at s)) (sessions (plane d)) with
                               | s :: _ => Some s
                               | [] => None
                               end
                   | None => None
                   end in
    match decide wall maxSnapshotAge checkpointSizeLimit automation (di_SessionTemplate inp) user (hr_headSHA resolved) baseBranch
            generation session (hr_isPush resolved) with
    | decisionWait => wait d
    | decisionRetry after => Ok (d, DispatchRetry after)
    | decisionSkip outcome note => terminalizeWith outcome None note d
    | decisionProceed mode reason retire =>
        let go := start_turn d0 automation user t generation mode reason retire resolved baseBranch in
        if (mode ==? AutomationRunContinuationFresh) && lifecycleStale t then
          match current with
          | None => wait_retry (headLookupBackoff wall run) d
          | Some h =>
              let? (d1, _) := SetLifecycleObserved now orgID (at_id t) (at_lifecycle_state t) (hi_UpdatedAt h) d in
              go d1
          end
        else go d
    end.

(** Resolving the head, then the turn. *)
Definition dispatch_head (d0 : AutoDB) (automation : Automation) (user : option uuid) (t : AutomationTarget) (run : AutomationRun) (d : AutoDB)
    : result (AutoDB * DispatchOutcome) :=
  let? (d1, resolved) := resolveHead now wall orgID t run current d in
  if 0 <? hr_retryAfter resolved then wait_retry (hr_retryAfter resolved) d1
  else match hr_terminal resolved with
  | Some outcome => terminalizeWith outcome (hr_supersededBy resolved) superseded_note d1
  | None =>
      let? d2 := if hr_stamp resolved
                 then StampHeadResolution now orgID (ar_id run) (hr_epoch resolved)
                        (default AutomationRunHeadAuthoritative (hr_resolution resolved)) (hr_headSHA resolved) d1
                 else Ok d1 in
      dispatch_turn d0 automation user t run resolved d2
  end.

(** The lifecycle gates: the stored state, then the lookup's. *)
Definition dispatch_gate (d0 : AutoDB) (automation : Automation) (user : option uuid) (t : AutomationTarget) (run : AutomationRun) (d : AutoDB)
    : result (AutoDB * DispatchOutcome) :=
  let event := rs_github_event (ar_config_snapshot run) in
  if negb (AllowsEvent (at_lifecycle_state t) event)
  then terminalizeWith AutomationRunOutcomePRClosed None "pull request is no longer open" d
  else match current with
  | Some h =>
      if (hi_State h <>? "") && (hi_State h <>? "open") && (event <>? AutomationGitHubEventPullRequestMerged) then
        if at_lifecycle_state t ==? AutomationTargetLifecycleMerged
        then terminalizeWith AutomationRunOutcomePRClosed None ("pull request is " +:+ hi_State h) d
        else
          let? (d1, applied) := SetLifecycleObserved now orgID (at_id t) AutomationTargetLifecycleClosed
                                  (keep_unless (hi_UpdatedAt h) (at_lifecycle_updated_at t)) d in
          if applied : bool then terminalizeWith AutomationRunOutcomePRClosed None ("pull request is " +:+ hi_State h) d1
          else wait_retry (headLookupBackoff wall run) d1
      else dispatch_head d0 automation user t run d
  | None => dispatch_head d0 automation user t run d
  end.

Definition Dispatch (d : AutoDB) : result (AutoDB * DispatchOutcome) :=
  if negb (Applies inp) then Ok (d, DispatchNotApplicable)
  else match targetRepository inp with
  | None => Err "automation dispatch requires a repository"
  | Some repositoryID =>
      let? (d1, t) := LockOrCreate now orgID (f_target ids) (au_id (di_Automation inp)) repositoryID (targetKeyForRun (di_Run inp)) d in
      if negb (is_null current) && targetChangedSince before t then wait_retry automationStaleLookupRetry d1
      else match select (fun a => (au_id a ==? au_id (di_Automation inp)) && (au_org_id a ==? orgID) && is_null (au_deleted_at a)) (automations d1) with
      | [] => Ok (d, DispatchNotApplicable)
      | automation :: _ =>
          if au_session_continuity automation <>? AutomationSessionContinuityPerTarget then Ok (d, DispatchNotApplicable)
          else if negb (au_updated_at automation =? au_updated_at (di_Automation inp)) then Ok (d, DispatchRetry automationConfigChangeRetry)
          else
            let? user := automationExecutingUser automation in
            let? run := one_row (is_run orgID runID) (automation_runs d1) ErrAutomationRunNotFound in
            if executing run
            then Ok (d, DispatchAlreadyReserved (default uuid_Nil (ar_session_id run)) (default uuid_Nil (ar_thread_id run)))
            else if ar_status run <>? AutomationRunStatusPending then Ok (d, DispatchTerminalized None)
            else dispatch_gate d automation user t run d1
      end
  end.
End Dispatch.
