(* ===== verification/AutomationCompleter.v ===== *)
(** * The turn completer, its wakes and its sweeps

    services/automations/turn_completer.go, turn_store.go, target_lifecycle.go,
    the attempt claim of worker/handlers.go, and the writes of the automation
    store that touch runs (db/automations.go). *)

From S2P Require Import Prelude GoRuntime Sql Tables JobStore ExecutorStore Automation AutomationStore.
From S2P Require Import AutomationRunStore AutomationCompletion AutomationService.
From stdpp Require Import base option list strings pretty gmap.

Open Scope string_scope.
Open Scope Z_scope.

Definition AutomationTargetWakeDedupePrefix : string := "automation_target_wake:".
Definition automationTargetWakeQueue : string := "default".
Definition automationTargetWakePriority : Z := 5.
Definition AutomationWaitTimeout : duration := 2 * hour.
Definition AutomationWakeStaleAfter : duration := 2 * minute.
Definition AutomationAttemptStaleAfter : duration := hour.

Section Completer.
Variables (now : time) (orgID : uuid).

Definition wake_payload (targetID : uuid) : payload := <["org_id" := jstr orgID]> (<["target_id" := jstr targetID]> ∅).
Definition enqueueWake (fresh targetID : uuid) (d : AutoDB) : result AutoDB :=
  let? (p, _) := Enqueue now fresh orgID automationTargetWakeQueue "automation_target_wake" (wake_payload targetID)
                   automationTargetWakePriority (Some (AutomationTargetWakeDedupePrefix +:+ targetID)) (plane d) in
  Ok (d <| plane := p |>).
Definition EnqueueWake (fresh targetID : uuid) (d : AutoDB) : result AutoDB :=
  let? d1 := RequestWake now orgID targetID d in enqueueWake fresh targetID d1.

(** ** Completion *)

Record CompletionResult := MkCompletionResult {
  cr_Outcome : AutomationRunOutcomeReason;
  cr_TargetID : uuid;
  cr_RetiredReason : option AutomationTargetRetiredReason
}.

Definition complete_retirement (generationID : uuid) (reason : AutomationTargetRetiredReason) (d : AutoDB) : result (AutoDB * bool) :=
  match RetireGeneration now orgID generationID reason d with
  | Ok (d1, _) => Ok (d1, true)
  | Err e => if e ==? ErrAutomationTargetGenerationNotActive then Ok (d, false) else Err e
  end.

Definition Complete (fresh runID jobID lockToken : uuid) (d : AutoDB) : result (AutoDB * option CompletionResult) :=
  let? (d1, done) := CompleteFromMarker now orgID runID jobID lockToken None d in
  match done with
  | None => Ok (d, None)
  | Some c =>
      let? reason := if cp_RetireGeneration c then Ok (Some AutomationTargetRetiredAwaitingInput)
                     else TerminalLifecycleRetirement orgID (cp_TargetID c) d1 in
      let? (d2, retired) := match reason with
                            | Some why => let? (d', ok) := complete_retirement (cp_GenerationID c) why d1 in
                                          Ok (d', if ok : bool then Some why else None)
                            | None => Ok (d1, None)
                            end in
      let? d3 := enqueueWake fresh (cp_TargetID c) d2 in
      Ok (d3, Some (MkCompletionResult (cp_Outcome c) (cp_TargetID c) retired))
  end.

Definition fail_exhausted (fresh runID : uuid) (staleBefore : time) (d : AutoDB) : result (AutoDB * bool) :=
  let? (d1, target) := FailRetriesExhausted now orgID runID staleBefore d in
  match target with
  | None => Ok (d, false)
  | Some targetID =>
      let? (d2, _) := RetireTerminalTarget now orgID targetID d1 in
      let? d3 := enqueueWake fresh targetID d2 in
      Ok (d3, true)
  end.

(** Two transactions; [fresh1] and [fresh2] are the job ids they may draw. *)
Definition RecoverAbandonedRun (fresh1 fresh2 runID jobID : uuid) (staleBefore : time) (d : AutoDB)
    : result (AutoDB * option AutomationRunOutcomeReason) :=
  let? (d1, completed) := Complete fresh1 runID jobID uuid_Nil d in
  match completed with
  | Some c => Ok (d1, Some (cr_Outcome c))
  | None =>
      let? (d2, failed) := fail_exhausted fresh2 runID staleBefore d1 in
      Ok (d2, if failed : bool then Some AutomationRunOutcomeRetriesExhausted else None)
  end.

Definition CompletePreflight (runID lockToken : uuid) (outcome : AutomationRunOutcomeReason) (summary : string) (d : AutoDB)
    : result (AutoDB * bool) :=
  let? (d1, target) := CompleteExecutingPreflight now orgID runID lockToken outcome summary d in
  match target with
  | None => Ok (d, false)
  | Some targetID => let? (d2, _) := RetireTerminalTarget now orgID targetID d1 in Ok (d2, true)
  end.

(** claimAutomationTurnAttempt: whether the job runs the turn. *)
Definition claimAutomationTurnAttempt (fresh runID jobID lockToken : uuid) (d : AutoDB) : result (AutoDB * bool) :=
  let? r := one_row (is_run orgID runID) (automation_runs d) ErrAutomationRunNotFound in
  if is_null (ar_dispatch_state r) then Ok (d, true)
  else if negb (executing r) || negb (col_is (ar_job_id r) jobID) then Ok (d, false)
  else if HasResultForCurrentAttempt orgID runID d then
    let? (d1, _) := Complete fresh runID jobID lockToken d in Ok (d1, false)
  else match ClaimAttempt now orgID runID jobID lockToken d with
  | (d1, Some _) => Ok (d1, true)
  | (_, None) => Ok (d, false)
  end.

(** ** Lifecycle notifications *)

Definition on_closed (fresh targetID : uuid) (merged : bool) (observedAt : time) (d : AutoDB) : result AutoDB :=
  let? (d1, outcome) := ApplyPullRequestClosed now orgID targetID merged observedAt d in
  if lo_Stale outcome then Ok d else enqueueWake fresh targetID d1.
Definition on_reopened (targetID : uuid) (observedAt : time) (d : AutoDB) : result AutoDB :=
  let? (d1, _) := ReopenTarget now orgID targetID observedAt d in Ok d1.

(** forEachTarget: one transaction per target, a failure leaves the others. *)
Fixpoint forEachTarget (apply : uuid -> AutoDB -> result AutoDB) (targetIDs : list uuid) (d : AutoDB) : AutoDB :=
  match targetIDs with
  | [] => d
  | t :: rest => forEachTarget apply rest (match apply t d with Ok d1 => d1 | Err _ => d end)
  end.

(** ** Wakes *)

Definition nudge (fresh automationID runID : uuid) (d : AutoDB) : result (AutoDB * bool) :=
  let dedupe := automationRunDedupePrefix +:+ runID in
  let '(p, rescheduled) := RescheduleActiveByDedupeKey now orgID dedupe (plane d) in
  if rescheduled : bool then Ok (d <| plane := p |>, false)
  else if HasActiveByDedupeKey p orgID automationTargetWakeQueue dedupe then Ok (d <| plane := p |>, false)
  else
    let? (p1, _) := Enqueue now fresh orgID automationTargetWakeQueue "automation_run" (run_job_payload orgID automationID runID)
                      automationTargetWakePriority (Some dedupe) p in
    Ok (d <| plane := p1 |>, true).

(** The run a wake sends back to dispatch. *)
Definition wake_candidate (t : AutomationTarget) (d : AutoDB) : option AutomationRun :=
  match NextWaiting orgID (at_id t) d with
  | Some r => Some r
  | None =>
      if at_head_resolution_pending t
      then match ListAmbiguousPushCandidates orgID (at_id t) d with
           | (id, _) :: _ => match select (is_run orgID id) (automation_runs d) with r :: _ => Some r | [] => None end
           | [] => None
           end
      else None
  end.

(** [between] is what other transactions do before the marker is cleared. *)
Definition Wake (fresh targetID : uuid) (between : AutoDB -> AutoDB) (d : AutoDB) : result (AutoDB * option uuid * bool) :=
  let? t := GetTargetByID orgID targetID d in
  let? (d1, nudged) := match wake_candidate t d with
                       | Some r => let? (d', _) := nudge fresh (ar_automation_id r) (ar_id r) d in Ok (d', Some (ar_id r))
                       | None => Ok (d, None)
                       end in
  match at_wake_requested_at t with
  | Some observed => let '(d2, cleared) := ClearWake now orgID targetID observed (between d1) in Ok (d2, nudged, negb cleared)
  | None => Ok (d1, nudged, false)
  end.

(** ** The sweeps of one organization *)

Definition failTimedOutWaits (fresh targetID : uuid) (cutoff : time) (d : AutoDB) : result AutoDB :=
  let? (d1, failed) := FailTimedOutWaits now orgID targetID cutoff d in
  if failed =? 0 then Ok d
  else
    let? (d2, _) := RetireTerminalTarget now orgID targetID d1 in
    enqueueWake fresh targetID d2.
Definition resolveAmbiguityDeadline (fresh targetID : uuid) (wall : time) (d : AutoDB) : result AutoDB :=
  let? (d1, resolved) := ResolveAmbiguityDeadline now orgID targetID wall d in
  if is_null resolved then Ok d else enqueueWake fresh targetID d1.
Definition releaseStrandedOwnership (fresh generationID targetID : uuid) (d : AutoDB) : result AutoDB :=
  let? (d1, released) := ReleaseStrandedOwnership now orgID generationID targetID d in
  if released : bool then enqueueWake fresh targetID d1 else Ok d.
Definition recover_one (fresh1 fresh2 runID : uuid) (staleBefore : time) (d : AutoDB) : result AutoDB :=
  let? r := one_row (is_run orgID runID) (automation_runs d) ErrAutomationRunNotFound in
  match ar_job_id r with
  | None => Ok d
  | Some jobID => let? (d1, _) := RecoverAbandonedRun fresh1 fresh2 runID jobID staleBefore d in Ok d1
  end.

(** Each item in its own transaction, with the ids it may draw; a failed item
    is skipped. *)
Fixpoint sweep_items {A} (apply : uuid -> uuid -> A -> AutoDB -> result AutoDB) (ids : list (uuid * uuid)) (items : list A) (d : AutoDB) : AutoDB :=
  match items, ids with
  | x :: rest, (a, b) :: ids' => sweep_items apply ids' rest (match apply a b x d with Ok d1 => d1 | Err _ => d end)
  | _, _ => d
  end.

(** [draw] supplies enough identifiers for each phase. *)
Definition Sweep (wall : time) (draw : nat -> list (uuid * uuid)) (d : AutoDB) : AutoDB :=
  let staleBefore := wall - AutomationAttemptStaleAfter in
  let cutoff := wall - AutomationWaitTimeout in
  let d1 := sweep_items (fun a b run => recover_one a b run staleBefore) (draw 0%nat) (ListAbandonedExecutingRuns now orgID staleBefore d) d in
  let d2 := sweep_items (fun a _ t => failTimedOutWaits a t cutoff) (draw 1%nat) (ListTargetsWithTimedOutWaits orgID cutoff d1) d1 in
  let d3 := sweep_items (fun a _ t => resolveAmbiguityDeadline a t wall) (draw 2%nat) (ListTargetsWithExpiredAmbiguity orgID wall d2) d2 in
  let d4 := sweep_items (fun a _ gt => releaseStrandedOwnership a gt.1 gt.2) (draw 3%nat) (ListStrandedOwnershipReleases orgID d3) d3 in
  sweep_items (fun a _ t => EnqueueWake a t) (draw 4%nat)
    (ListTargetsNeedingWake orgID (wall - AutomationWakeStaleAfter) AutomationTargetWakeDedupePrefix d4) d4.

(** ** Other writers of runs and generations *)

Definition SoftDelete (automationID : uuid) (d : AutoDB) : result AutoDB :=
  let p a := (au_id a ==? automationID) && (au_org_id a ==? orgID) && is_null (au_deleted_at a) in
  if exists_row p (automations d) then
    Ok (set_runs now (fun r => (ar_automation_id r ==? automationID) && (ar_status r ==? AutomationRunStatusPending))
          (fun r => r <| ar_status := AutomationRunStatusSkipped |> <| ar_completed_at := Some now |>
                      <| ar_result_summary := Some "automation deleted before run could start" |>)
          (d <| automations := update p (fun a => a <| au_deleted_at := Some now |> <| au_updated_at := now |>) (automations d) |>))
  else Err "automation not found or already deleted".

Definition TransitionStatusIf (runID : uuid) (fromStatus toStatus : AutomationRunStatus) (completedAt : option time)
    (summary : option string) (d : AutoDB) : AutoDB * bool :=
  write_runs now (fun r => is_run orgID runID r && (ar_status r ==? fromStatus))
    (fun r => r <| ar_status := toStatus |> <| ar_completed_at := keep_unless completedAt (ar_completed_at r) |>
                <| ar_result_summary := keep_unless summary (ar_result_summary r) |>) d.

Definition MarkCompletedNoop (runID : uuid) (summary : option string) (d : AutoDB) : AutoDB * bool :=
  write_runs now (fun r => is_run orgID runID r
                    && ((ar_status r ==? AutomationRunStatusRunning) || (ar_status r ==? AutomationRunStatusCompleted)))
    (fun r => r <| ar_status := AutomationRunStatusCompletedNoop |> <| ar_completed_at := coalesce (ar_completed_at r) now |>
                <| ar_result_summary := keep_unless summary (ar_result_summary r) |>) d.

(** persistAutomationUpdate: leaving per-target continuity retires every
    active generation in the same transaction. *)
Definition persistAutomationUpdate (prior after : Automation) (d : AutoDB) : result AutoDB :=
  let d1 := d <| automations := update (fun a => (au_id a ==? au_id after) && (au_org_id a ==? orgID) && is_null (au_deleted_at a))
                                  (fun a => after <| au_id := au_id a |> <| au_org_id := au_org_id a |>
                                                  <| au_deleted_at := au_deleted_at a |> <| au_created_by := au_created_by a |>
                                                  <| au_updated_at := now |>) (automations d) |> in
  if (au_session_continuity prior ==? AutomationSessionContinuityPerTarget)
     && (au_session_continuity after ==? AutomationSessionContinuityPerRun)
  then RetireActiveGenerationsForAutomation now orgID (au_id after) AutomationTargetRetiredContinuityDisabled d1
  else Ok d1.
End Completer.
