(* ===== verification/AutomationMoves.v ===== *)
(** * The protocol of a target

    What the transactions of automations may do to runs, generations and the
    sessions they own, as a few kinds of [move], each with the condition under
    which it is made.  The invariant of the protocol is proved here once, by
    cases on the move; [AutomationOps] shows that every transaction of the code
    is a sequence of moves. *)

From S2P Require Import Prelude Sql Tables JobLifecycle Plane Automation AutomationStore AutomationService.
From stdpp Require Import base option list strings gmap.

Open Scope string_scope.
Open Scope Z_scope.

(** ** What the protocol sees of a row *)

(** The run ended with the outcome of a result marker. *)
Definition counted (r : AutomationRun) : bool :=
  col_is (ar_dispatch_state r) AutomationRunDispatchDone
  && match ar_outcome_reason r with
     | Some (AutomationRunOutcomeTurnCompleted | AutomationRunOutcomeAgentFailed
            | AutomationRunOutcomeCancelled | AutomationRunOutcomeAwaitingInput) => true
     | _ => false
     end.

(** The generation owns its session: active, or its release is pending. *)
Definition owning (g : AutomationTargetSession) : bool :=
  (ag_status g ==? AutomationTargetSessionStatusActive) || ag_ownership_release_pending g.

(** The run is a turn of the generation. *)
Definition turn_in (g : AutomationTargetSession) (r : AutomationRun) : bool :=
  run_of (ag_org_id g) (ag_target_id g) r && col_is (ar_target_generation r) (ag_generation g).

#[export] Instance AutomationTargetSession_eq_dec : EqDecision AutomationTargetSession.
Proof. solve_decision. Defined.

(** ** Bookkeeping *)

Record calm_run (r r' : AutomationRun) : Prop := {
  cr_id : ar_id r' = ar_id r;
  cr_org : ar_org_id r' = ar_org_id r;
  cr_target : ar_target_id r' = ar_target_id r;
  cr_executing : executing r' = executing r;
  cr_counted : counted r' = counted r;
  cr_generation : executing r || counted r = true -> ar_target_generation r' = ar_target_generation r;
  cr_session : executing r = true -> ar_session_id r' = ar_session_id r /\ ar_job_id r' = ar_job_id r;
  cr_status : counted r = true -> ar_status r <> AutomationRunStatusPending -> ar_status r' <> AutomationRunStatusPending;
  cr_unstarted : unstarted r' = true -> unstarted r = true
}.
Record calm_generation (g g' : AutomationTargetSession) : Prop := {
  cg_id : ag_id g' = ag_id g;
  cg_org : ag_org_id g' = ag_org_id g;
  cg_target : ag_target_id g' = ag_target_id g;
  cg_number : ag_generation g' = ag_generation g;
  cg_session : ag_session_id g' = ag_session_id g;
  cg_status : ag_status g' = ag_status g;
  cg_pending : ag_ownership_release_pending g' = ag_ownership_release_pending g;
  cg_turns : ag_turn_count g' = ag_turn_count g
}.
Record calm_session (s s' : Session) : Prop := {
  cs_id : s_id s' = s_id s;
  cs_org : s_org_id s' = s_org_id s;
  cs_owner : s_automation_owner_generation_id s' = s_automation_owner_generation_id s
}.
(** Targets are never deleted, and a merged one stays merged. *)
Record same_target_row (t t' : AutomationTarget) : Prop := {
  ct_id : at_id t' = at_id t;
  ct_org : at_org_id t' = at_org_id t;
  ct_merged : at_lifecycle_state t = AutomationTargetLifecycleMerged -> at_lifecycle_state t' = AutomationTargetLifecycleMerged
}.

(** Rows are rewritten in place and others added after them. *)
Definition grows {A} (R : A -> A -> Prop) (fresh : A -> Prop) (key : A -> uuid) (old new : list A) : Prop :=
  exists kept added, new = (kept ++ added)%list /\ Forall2 R old kept /\ Forall fresh added
    /\ (List.NoDup (map key old) -> List.NoDup (map key new)).

Definition owners_kept : list Session -> list Session -> Prop :=
  grows calm_session (fun s => s_automation_owner_generation_id s = None) s_id.
Definition targets_kept : list AutomationTarget -> list AutomationTarget -> Prop :=
  grows same_target_row (fun _ => True) at_id.

(** Statements of the plane that draw no lock token. *)
Definition quiet (p p' : DB) : Prop := forall used, steps used p used p'.

Record calm (d d' : AutoDB) : Prop := {
  calm_runs : Forall2 calm_run (automation_runs d) (automation_runs d');
  calm_generations : Forall2 calm_generation (automation_target_sessions d) (automation_target_sessions d');
  calm_targets : targets_kept (automation_targets d) (automation_targets d');
  calm_sessions : owners_kept (sessions (plane d)) (sessions (plane d'));
  calm_plane : quiet (plane d) (plane d')
}.

(** ** Moves *)

Definition put_run (r : AutomationRun) (d : AutoDB) : AutoDB :=
  d <| automation_runs := replace_row ar_id r (automation_runs d) |>.
Definition put_generation (g : AutomationTargetSession) (d : AutoDB) : AutoDB :=
  d <| automation_target_sessions := replace_row ag_id g (automation_target_sessions d) |>.
Definition own_session (id : uuid) (owner : option uuid) (d : AutoDB) : AutoDB :=
  d <| plane := (plane d) <| sessions := update (fun s => s_id s ==? id)
                                           (fun s => s <| s_automation_owner_generation_id := owner |>) (sessions (plane d)) |> |>.

(** [r'] is [r] in another state: the same row of the same organization. *)
Definition same_run (r r' : AutomationRun) : Prop := ar_id r' = ar_id r /\ ar_org_id r' = ar_org_id r.
Definition same_generation (g g' : AutomationTargetSession) : Prop :=
  ag_id g' = ag_id g /\ ag_org_id g' = ag_org_id g /\ ag_target_id g' = ag_target_id g
  /\ ag_generation g' = ag_generation g /\ ag_session_id g' = ag_session_id g.

Inductive move (d : AutoDB) : AutoDB -> Prop :=
  | move_calm d' : calm d d' -> move d d'
  (** A run is created, of no target yet. *)
  | move_create r : ~ In (ar_id r) (map ar_id (automation_runs d)) -> ar_target_id r = None ->
      executing r = false -> counted r = false ->
      move d (d <| automation_runs := (automation_runs d ++ [r])%list |>)
  (** A run joins its target, within the cap or ended at once. *)
  | move_attach r r' t : In r (automation_runs d) -> same_run r r' -> ar_target_id r = None -> ar_target_id r' = Some t ->
      executing r = false -> executing r' = false -> counted r = false -> counted r' = false ->
      (unstarted r' = true -> count_rows (fun x => run_of (ar_org_id r) t x && unstarted x) (automation_runs d) < automationTargetWaitingCap) ->
      move d (put_run r' d)
  (** A run starts as the target's turn in its active generation. *)
  | move_reserve r r' g : In r (automation_runs d) -> same_run r r' -> unstarted r = true ->
      In g (automation_target_sessions d) -> ag_status g = AutomationTargetSessionStatusActive -> ag_turn_count g < AutomationTurnLimit ->
      executing r' = true -> turn_in g r' = true -> ar_session_id r' = Some (ag_session_id g) -> is_Some (ar_job_id r') ->
      exists_row (fun x => run_of (ag_org_id g) (ag_target_id g) x && executing x) (automation_runs d) = false ->
      move d (put_run r' d)
  (** A turn ends without a result. *)
  | move_finish r r' : In r (automation_runs d) -> same_run r r' -> executing r = true -> ar_target_id r' = ar_target_id r ->
      executing r' = false -> counted r' = false -> unstarted r' = false ->
      move d (put_run r' d)
  (** A turn ends with its marker, and is counted on its generation. *)
  | move_complete r r' g g' : In r (automation_runs d) -> same_run r r' -> executing r = true ->
      ar_target_id r' = ar_target_id r -> ar_target_generation r' = ar_target_generation r ->
      executing r' = false -> counted r' = true -> ar_status r' <> AutomationRunStatusPending ->
      In g (automation_target_sessions d) -> turn_in g r = true -> same_generation g g' ->
      ag_status g' = ag_status g -> ag_ownership_release_pending g' = ag_ownership_release_pending g ->
      ag_turn_count g' = ag_turn_count g + 1 ->
      move d (put_generation g' (put_run r' d))
  (** The next generation of a target, with a session nobody owns. *)
  | move_generation g s t : In t (automation_targets d) -> ag_target_id g = at_id t -> ag_org_id g = at_org_id t ->
      ~ In (ag_id g) (map ag_id (automation_target_sessions d)) ->
      exists_row (fun x => active_generation_of (ag_org_id g) (ag_target_id g) x
                    || ((ag_org_id x ==? ag_org_id g) && (ag_target_id x ==? ag_target_id g) && (ag_generation x =? ag_generation g)))
        (automation_target_sessions d) = false ->
      In s (sessions (plane d)) -> s_id s = ag_session_id g -> s_org_id s = ag_org_id g -> s_automation_owner_generation_id s = None ->
      ag_status g = AutomationTargetSessionStatusActive -> ag_ownership_release_pending g = false -> ag_turn_count g = 0 ->
      move d (own_session (s_id s) (Some (ag_id g)) (d <| automation_target_sessions := (automation_target_sessions d ++ [g])%list |>))
  (** A generation retires; it keeps its session while a turn executes. *)
  | move_retire g g' : In g (automation_target_sessions d) -> ag_status g = AutomationTargetSessionStatusActive ->
      same_generation g g' -> ag_status g' = AutomationTargetSessionStatusRetired -> ag_turn_count g' = ag_turn_count g ->
      (exists_row (fun r => turn_in g r && executing r) (automation_runs d) = true -> ag_ownership_release_pending g' = true) ->
      move d (if ag_ownership_release_pending g' then put_generation g' d
              else own_session (ag_session_id g) None (put_generation g' d))
  (** A pending release is carried out once no turn executes. *)
  | move_release g g' : In g (automation_target_sessions d) -> ag_ownership_release_pending g = true ->
      exists_row (fun r => turn_in g r && executing r) (automation_runs d) = false ->
      same_generation g g' -> ag_status g' = ag_status g -> ag_turn_count g' = ag_turn_count g -> ag_ownership_release_pending g' = false ->
      move d (own_session (ag_session_id g) None (put_generation g' d)).

(** ** The invariant *)

Section Tables.
Variables (runs : list AutomationRun) (gens : list AutomationTargetSession) (owned : list Session) (targets : list AutomationTarget).

(** Generations, and the sessions they own. *)
Record generations_inv : Prop := {
  gi_ids : List.NoDup (map ag_id gens);
  gi_sessions : List.NoDup (map s_id owned);
  gi_targets : List.NoDup (map at_id targets);
  gi_numbers g g' : In g gens -> In g' gens -> ag_org_id g = ag_org_id g' -> ag_target_id g = ag_target_id g' ->
    ag_generation g = ag_generation g' -> g = g';
  gi_active g g' : In g gens -> In g' gens -> ag_org_id g = ag_org_id g' -> ag_target_id g = ag_target_id g' ->
    ag_status g = AutomationTargetSessionStatusActive -> ag_status g' = AutomationTargetSessionStatusActive -> g = g';
  gi_target g : In g gens -> exists t, In t targets /\ at_id t = ag_target_id g /\ at_org_id t = ag_org_id g;
  gi_pending g : In g gens -> ag_ownership_release_pending g = true -> ag_status g = AutomationTargetSessionStatusRetired;
  gi_owner s id : In s owned -> s_automation_owner_generation_id s = Some id ->
    exists g, In g gens /\ ag_id g = id /\ owning g = true /\ ag_session_id g = s_id s /\ ag_org_id g = s_org_id s;
  gi_owned g : In g gens -> owning g = true ->
    exists s, In s owned /\ s_id s = ag_session_id g /\ s_org_id s = ag_org_id g
              /\ s_automation_owner_generation_id s = Some (ag_id g)
}.

(** Runs: one turn at a time, in a generation that owns its session; completed
    turns are counted; few runs wait. *)
Record runs_inv : Prop := {
  ri_ids : List.NoDup (map ar_id runs);
  ri_one r r' : In r runs -> In r' runs -> executing r = true -> executing r' = true ->
    ar_org_id r = ar_org_id r' -> ar_target_id r = ar_target_id r' -> r = r';
  ri_turn r : In r runs -> executing r = true ->
    exists g, In g gens /\ turn_in g r = true /\ owning g = true /\ ar_session_id r = Some (ag_session_id g) /\ is_Some (ar_job_id r);
  ri_counted r : In r runs -> counted r = true ->
    (exists g, In g gens /\ turn_in g r = true) /\ ar_status r <> AutomationRunStatusPending;
  ri_count g : In g gens -> ag_turn_count g = count_rows (fun r => turn_in g r && counted r) runs;
  ri_limit g : In g gens -> ag_turn_count g + count_rows (fun r => turn_in g r && executing r) runs <= AutomationTurnLimit;
  ri_waiting org t : count_rows (fun r => run_of org t r && unstarted r) runs <= automationTargetWaitingCap
}.
End Tables.

Record auto_inv (d : AutoDB) : Prop := {
  ai_generations : generations_inv (automation_target_sessions d) (sessions (plane d)) (automation_targets d);
  ai_runs : runs_inv (automation_runs d) (automation_target_sessions d)
}.

(** ** Predicates and bookkeeping *)

Lemma calm_run_refl r : calm_run r r.
Proof. by constructor. Qed.
Lemma calm_generation_refl g : calm_generation g g.
Proof. by constructor. Qed.
Lemma calm_session_refl s : calm_session s s.
Proof. by constructor. Qed.
Lemma same_target_row_refl t : same_target_row t t.
Proof. by constructor. Qed.
#[export] Hint Resolve calm_run_refl calm_generation_refl calm_session_refl same_target_row_refl : plane.

Lemma calm_owning g g' : calm_generation g g' -> owning g' = owning g.
Proof. intros Hc. unfold owning. by rewrite (cg_status _ _ Hc), (cg_pending _ _ Hc). Qed.
Lemma calm_turn g g' r r' : calm_generation g g' -> calm_run r r' -> executing r || counted r = true -> turn_in g' r' = turn_in g r.
Proof.
  intros Hg Hr Ha. unfold turn_in, run_of.
  by rewrite (cg_org _ _ Hg), (cg_target _ _ Hg), (cg_number _ _ Hg), (cr_org _ _ Hr), (cr_target _ _ Hr), (cr_generation _ _ Hr Ha).
Qed.
Lemma calm_run_of org t r r' : calm_run r r' -> run_of org t r' = run_of org t r.
Proof. intros Hr. unfold run_of. by rewrite (cr_org _ _ Hr), (cr_target _ _ Hr). Qed.

Lemma turn_in_same g g' r : same_generation g g' -> turn_in g' r = turn_in g r.
Proof. intros (_ & E1 & E2 & E3 & _). unfold turn_in. by rewrite E1, E2, E3. Qed.
Lemma turn_in_target g r : turn_in g r = true -> ar_org_id r = ag_org_id g /\ ar_target_id r = Some (ag_target_id g)
  /\ ar_target_generation r = Some (ag_generation g).
Proof. unfold turn_in, run_of, col_is. intros H. by reflect_bools. Qed.
Lemma unstarted_idle r : unstarted r = true -> executing r = false /\ counted r = false.
Proof.
  unfold unstarted, executing, counted, col_is. intros H. reflect_bools.
  destruct (ar_dispatch_state r) as [[]|]; simpl in *; done.
Qed.
Lemma executing_not r : executing r = true -> counted r = false /\ unstarted r = false.
Proof.
  unfold unstarted, executing, counted, col_is. intros H. reflect_bools. rewrite H. simpl.
  rewrite andb_false_r. done.
Qed.

Section Grows.
Context {A : Type} (R : A -> A -> Prop) (fresh : A -> Prop) (key : A -> uuid).

Lemma grows_old old new x : grows R fresh key old new -> In x old -> exists y, In y new /\ R x y.
Proof.
  intros (kept & added & -> & Hk & _) Hx. destruct (Forall2_old _ _ _ _ Hk Hx) as (y & Hy & Hr).
  exists y. split; [|done]. apply in_app_iff. by left.
Qed.
Lemma grows_new old new y : grows R fresh key old new -> In y new -> (exists x, In x old /\ R x y) \/ fresh y.
Proof.
  intros (kept & added & -> & Hk & Ha & _) Hy. apply in_app_iff in Hy as [Hy|Hy].
  - left. by eapply Forall2_new.
  - right. rewrite List.Forall_forall in Ha. auto.
Qed.
Lemma grows_rows old new : (forall x y, R x y -> key y = key x) -> Forall2 R old new -> grows R fresh key old new.
Proof.
  intros Hk HR. exists new, []. rewrite app_nil_r. repeat split; auto. by rewrite (Forall2_keys R key old new).
Qed.
Lemma grows_trans a b c : (forall x y z, R x y -> R y z -> R x z) -> (forall x y, R x y -> fresh x -> fresh y) ->
  grows R fresh key a b -> grows R fresh key b c -> grows R fresh key a c.
Proof.
  intros Ht Hf (k1 & a1 & -> & H1 & F1 & N1) (k2 & a2 & -> & H2 & F2 & N2).
  apply Forall2_app_inv_l in H2 as (x & y & Hx & Hy & ->).
  exists x, (y ++ a2)%list. rewrite app_assoc. split; [done|]. split; [|split; [|auto]].
  - clear -H1 Hx Ht. revert x Hx. induction H1; intros z Hz; inversion Hz; subst; constructor; eauto.
  - apply Forall_app. split; [|done]. clear -F1 Hy Hf. induction Hy; inversion F1; subst; constructor; eauto.
Qed.
End Grows.

(** ** Bookkeeping keeps the invariant *)

Lemma calm_generations_inv gens gens' owned owned' targets targets' :
  generations_inv gens owned targets -> Forall2 calm_generation gens gens' -> owners_kept owned owned' ->
  targets_kept targets targets' -> generations_inv gens' owned' targets'.
Proof.
  intros Hi Hg Hs Ht.
  assert (List.NoDup (map ag_id gens')) as Hids by (rewrite (Forall2_keys calm_generation ag_id gens gens' cg_id Hg); apply Hi).
  assert (forall P : AutomationTargetSession -> AutomationTargetSession -> Prop,
            (forall x y, In x gens -> In y gens -> P x y -> x = y) -> (forall x x' y y', calm_generation x x' -> calm_generation y y' -> P x' y' -> P x y) ->
            forall x y, In x gens' -> In y gens' -> P x y -> x = y) as Hkey.
  { intros P HP HR x' y' Hx Hy Hp. destruct (Forall2_new _ _ _ _ Hg Hx) as (x & Hx0 & Hcx).
    destruct (Forall2_new _ _ _ _ Hg Hy) as (y & Hy0 & Hcy). apply (map_key_inj ag_id gens'); [done..|].
    rewrite (cg_id _ _ Hcx), (cg_id _ _ Hcy). f_equal. eauto. }
  split.
  - done.
  - destruct Hs as (? & ? & ? & ? & ? & Hnd). apply Hnd, Hi.
  - destruct Ht as (? & ? & ? & ? & ? & Hnd). apply Hnd, Hi.
  - intros x y Hx Hy E1 E2 E3.
    apply (Hkey (fun a b => ag_org_id a = ag_org_id b /\ ag_target_id a = ag_target_id b /\ ag_generation a = ag_generation b)); auto.
    + intros a b Ha Hb (? & ? & ?). by apply (gi_numbers _ _ _ Hi).
    + intros a a' b b' [] [] (? & ? & ?). repeat split; congruence.
  - intros x y Hx Hy E1 E2 E3 E4.
    apply (Hkey (fun a b => ag_org_id a = ag_org_id b /\ ag_target_id a = ag_target_id b
                            /\ ag_status a = AutomationTargetSessionStatusActive /\ ag_status b = AutomationTargetSessionStatusActive)); auto.
    + intros a b Ha Hb (? & ? & ? & ?). by apply (gi_active _ _ _ Hi).
    + intros a a' b b' [] [] (? & ? & ? & ?). repeat split; congruence.
  - intros g' (g & Hin & Hc)%(Forall2_new _ _ _ _ Hg). destruct (gi_target _ _ _ Hi g Hin) as (t & Ht0 & E1 & E2).
    destruct (grows_old _ _ _ _ _ _ Ht Ht0) as (t' & Ht' & [? ? _]). exists t'. destruct Hc. repeat split; congruence.
  - intros g' (g & Hin & Hc)%(Forall2_new _ _ _ _ Hg) Hp. rewrite (cg_pending _ _ Hc) in Hp. rewrite (cg_status _ _ Hc).
    by apply (gi_pending _ _ _ Hi).
  - intros s' id Hin Ho. destruct (grows_new _ _ _ _ _ _ Hs Hin) as [(s & Hs0 & [? ? Hco])|Hf]; [|congruence].
    rewrite Hco in Ho. destruct (gi_owner _ _ _ Hi s id Hs0 Ho) as (g & Hg0 & Eid & How & ? & ?).
    destruct (Forall2_old _ _ _ _ Hg Hg0) as (g' & Hg' & Hc). exists g'.
    rewrite (calm_owning _ _ Hc). destruct Hc. repeat split; congruence.
  - intros g' (g & Hin & Hc)%(Forall2_new _ _ _ _ Hg) How. rewrite (calm_owning _ _ Hc) in How.
    destruct (gi_owned _ _ _ Hi g Hin How) as (s & Hs0 & ? & ? & ?).
    destruct (grows_old _ _ _ _ _ _ Hs Hs0) as (s' & Hs' & []). exists s'. destruct Hc. repeat split; congruence.
Qed.

Lemma calm_runs_inv runs runs' gens gens' :
  runs_inv runs gens -> Forall2 calm_run runs runs' -> Forall2 calm_generation gens gens' -> runs_inv runs' gens'.
Proof.
  intros Hi Hr Hg.
  assert (List.NoDup (map ar_id runs')) as Hids by (rewrite (Forall2_keys calm_run ar_id runs runs' cr_id Hr); apply Hi).
  assert (forall g g', calm_generation g g' ->
            count_rows (fun r => turn_in g' r && counted r) runs' = count_rows (fun r => turn_in g r && counted r) runs
            /\ count_rows (fun r => turn_in g' r && executing r) runs' = count_rows (fun r => turn_in g r && executing r) runs) as Hcount.
  { intros g g' Hc. split; (eapply Forall2_count; [|exact Hr]); intros r r' Hcr.
    - rewrite (cr_counted _ _ Hcr). destruct (counted r) eqn:E; [|by rewrite !andb_false_r].
      by rewrite (calm_turn g g' r r' Hc Hcr) by (by rewrite E, orb_true_r).
    - rewrite (cr_executing _ _ Hcr). destruct (executing r) eqn:E; [|by rewrite !andb_false_r].
      by rewrite (calm_turn g g' r r' Hc Hcr) by (by rewrite E). }
  split.
  - done.
  - intros x y Hx Hy Ex Ey Eo Et. destruct (Forall2_new _ _ _ _ Hr Hx) as (x0 & Hx0 & Hcx).
    destruct (Forall2_new _ _ _ _ Hr Hy) as (y0 & Hy0 & Hcy).
    rewrite (cr_executing _ _ Hcx) in Ex. rewrite (cr_executing _ _ Hcy) in Ey.
    apply (map_key_inj ar_id runs'); [done..|]. rewrite (cr_id _ _ Hcx), (cr_id _ _ Hcy). f_equal.
    apply (ri_one _ _ Hi); auto; destruct Hcx, Hcy; congruence.
  - intros r' (r & Hin & Hc)%(Forall2_new _ _ _ _ Hr) He. rewrite (cr_executing _ _ Hc) in He.
    destruct (ri_turn _ _ Hi r Hin He) as (g & Hg0 & Ht & How & Hse & Hj).
    destruct (Forall2_old _ _ _ _ Hg Hg0) as (g' & Hg' & Hcg). destruct (cr_session _ _ Hc He) as [Hs1 Hs2].
    exists g'. rewrite (calm_turn g g' r r' Hcg Hc) by (by rewrite He). rewrite (calm_owning _ _ Hcg), Hs1, Hs2.
    destruct Hcg. repeat split; congruence.
  - intros r' (r & Hin & Hc)%(Forall2_new _ _ _ _ Hr) He. rewrite (cr_counted _ _ Hc) in He.
    destruct (ri_counted _ _ Hi r Hin He) as [(g & Hg0 & Ht) Hst].
    destruct (Forall2_old _ _ _ _ Hg Hg0) as (g' & Hg' & Hcg). split.
    + exists g'. split; [done|]. by rewrite (calm_turn g g' r r' Hcg Hc) by (by rewrite He, orb_true_r).
    + by apply (cr_status _ _ Hc).
  - intros g' (g & Hin & Hc)%(Forall2_new _ _ _ _ Hg). rewrite (proj1 (Hcount g g' Hc)), (cg_turns _ _ Hc). by apply (ri_count _ _ Hi).
  - intros g' (g & Hin & Hc)%(Forall2_new _ _ _ _ Hg). rewrite (proj2 (Hcount g g' Hc)), (cg_turns _ _ Hc). by apply (ri_limit _ _ Hi).
  - intros org t. etransitivity; [|apply (ri_waiting _ _ Hi org t)]. eapply Forall2_count_le; [|exact Hr].
    intros r r' Hc Hp. reflect_bools. rewrite <- (calm_run_of org t _ _ Hc). apply andb_true_iff. split; [done|]. by apply (cr_unstarted _ _ Hc).
Qed.

Lemma calm_inv d d' : auto_inv d -> calm d d' -> auto_inv d'.
Proof.
  intros [Hg Hr] [Cr Cg Ct Cs _]. split; [by eapply calm_generations_inv|by eapply calm_runs_inv].
Qed.

(** ** One run in another state *)

Section OneRun.
Variables (runs : list AutomationRun) (gens : list AutomationTargetSession) (r r' : AutomationRun).
Hypothesis inv : runs_inv runs gens.
Hypothesis r_in : In r runs.
Hypothesis r_same : same_run r r'.

Lemma run_here y : In y (replace_row ar_id r' runs) <-> y = r' \/ (In y runs /\ y <> r).
Proof. apply (in_replace ar_id r r' runs y); [apply inv|done|apply r_same]. Qed.
Lemma run_count q : count_rows q (replace_row ar_id r' runs) + Z.b2z (q r) = count_rows q runs + Z.b2z (q r').
Proof. apply (count_replace ar_id q r r' runs); [apply inv|done|apply r_same]. Qed.

Hypothesis quiet_count : counted r = false.
Hypothesis quiet_count' : counted r' = false.
Hypothesis starts : executing r' = true ->
  (exists g, In g gens /\ turn_in g r' = true /\ owning g = true /\ ar_session_id r' = Some (ag_session_id g) /\ is_Some (ar_job_id r'))
  /\ (forall x, In x runs -> executing x = true -> ar_org_id x = ar_org_id r' -> ar_target_id x = ar_target_id r' -> False)
  /\ (forall g, In g gens -> turn_in g r' = true -> ag_turn_count g + 1 <= AutomationTurnLimit).
Hypothesis waits : forall org t, run_of org t r' && unstarted r' = true ->
  run_of org t r && unstarted r = true \/ count_rows (fun x => run_of org t x && unstarted x) runs < automationTargetWaitingCap.

Lemma replace_run_inv : runs_inv (replace_row ar_id r' runs) gens.
Proof.
  assert (forall g, In g gens -> count_rows (fun x => turn_in g x && counted x) (replace_row ar_id r' runs)
                                 = count_rows (fun x => turn_in g x && counted x) runs) as Hcount.
  { intros g Hg. pose proof (run_count (fun x => turn_in g x && counted x)) as Hc. simpl in Hc.
    rewrite quiet_count, quiet_count', !andb_false_r in Hc. simpl in Hc. lia. }
  split.
  - rewrite replace_keys. apply inv.
  - intros x y Hx Hy Ex Ey Eo Et. apply run_here in Hx as [->|[Hx Nx]], Hy as [->|[Hy Ny]]; auto.
    + exfalso. destruct (starts Ex) as (_ & Hno & _). by apply (Hno y).
    + exfalso. destruct (starts Ey) as (_ & Hno & _). by apply (Hno x).
    + by apply (ri_one _ _ inv).
  - intros x Hx Ex. apply run_here in Hx as [->|[Hx Nx]]; [by apply starts|by apply (ri_turn _ _ inv)].
  - intros x Hx Ex. apply run_here in Hx as [->|[Hx Nx]]; [congruence|by apply (ri_counted _ _ inv)].
  - intros g Hg. rewrite Hcount by done. by apply (ri_count _ _ inv).
  - intros g Hg. pose proof (run_count (fun x => turn_in g x && executing x)) as Hc. simpl in Hc.
    pose proof (ri_limit _ _ inv g Hg) as Hl.
    destruct (turn_in g r' && executing r') eqn:E; [|destruct (turn_in g r && executing r); simpl in Hc; lia].
    apply andb_true_iff in E as [Et Ee]. destruct (starts Ee) as (_ & Hno & Hlim). specialize (Hlim g Hg Et).
    assert (count_rows (fun x => turn_in g x && executing x) runs = 0) as E0; [|destruct (turn_in g r && executing r); simpl in Hc; lia].
    apply count_rows_0, exists_row_false. intros x Hx. apply not_true_iff_false. intros [Hx1 Hx2]%andb_true_iff.
    apply turn_in_target in Hx1 as (E1 & E2 & _). apply turn_in_target in Et as (E1' & E2' & _). apply (Hno x); congruence.
  - intros org t. pose proof (run_count (fun x => run_of org t x && unstarted x)) as Hc. simpl in Hc.
    pose proof (ri_waiting _ _ inv org t) as Hw.
    destruct (run_of org t r' && unstarted r') eqn:E; [|destruct (run_of org t r && unstarted r); simpl in Hc; lia].
    destruct (waits org t E) as [Hr|Hlt]; [rewrite Hr in Hc; simpl in Hc; lia|].
    destruct (run_of org t r && unstarted r); simpl in Hc; lia.
Qed.
End OneRun.

(** The turn of an executing run is the only one of its target. *)
Lemma turn_unique runs gens r g : runs_inv runs gens -> In r runs -> executing r = true -> turn_in g r = true ->
  forall x, In x runs -> turn_in g x && executing x = true -> x = r.
Proof.
  intros Hi Hr He Ht x Hx [Htx Hex]%andb_true_iff.
  apply turn_in_target in Htx as (E1 & E2 & _). apply turn_in_target in Ht as (E1' & E2' & _).
  apply (ri_one _ _ Hi); congruence.
Qed.

Lemma generation_unique gens owned targets g g' r : generations_inv gens owned targets -> In g gens -> In g' gens ->
  turn_in g r = true -> turn_in g' r = true -> g = g'.
Proof.
  intros Hi Hg Hg' (E1 & E2 & E3)%turn_in_target (F1 & F2 & F3)%turn_in_target.
  apply (gi_numbers _ _ _ Hi); congruence.
Qed.

(** ** Generations in another state *)

(** The same turns in generations of the same numbers; one that lets go of its
    session has no turn left. *)
Lemma regenerate_runs_inv runs gens g g' : runs_inv runs gens -> List.NoDup (map ag_id gens) -> In g gens -> same_generation g g' ->
  ag_turn_count g' = ag_turn_count g ->
  (owning g' = true \/ exists_row (fun r => turn_in g r && executing r) runs = false) ->
  runs_inv runs (replace_row ag_id g' gens).
Proof.
  intros Hi Hnd Hg Hs Htc Ho.
  assert (forall y, In y (replace_row ag_id g' gens) <-> y = g' \/ (In y gens /\ y <> g)) as Hin
    by (intros y; apply (in_replace ag_id g g' gens y); [done|done|apply Hs]).
  pose proof (fun r => turn_in_same g g' r Hs) as Ht. pose proof Hs as (Eid & _ & _ & _ & Ese).
  assert (forall q, count_rows (fun r => turn_in g' r && q r) runs = count_rows (fun r => turn_in g r && q r) runs) as Hc.
  { intros q. unfold count_rows, select. do 2 f_equal. apply List.filter_ext. intros r. by rewrite Ht. }
  split.
  - apply Hi.
  - apply Hi.
  - intros r Hr He. destruct (ri_turn _ _ Hi r Hr He) as (x & Hx & Htx & Hox & Hsx & Hj).
    destruct (decide (x = g)) as [->|Hne]; [|exists x; split; [apply Hin; by right|done]].
    destruct Ho as [Ho|Hno].
    + exists g'. rewrite Ht, Ese. split; [apply Hin; by left|done].
    + apply (exists_row_none _ _ r Hno) in Hr. rewrite Htx, He in Hr. done.
  - intros r Hr He. destruct (ri_counted _ _ Hi r Hr He) as [(x & Hx & Htx) Hst]. split; [|done].
    destruct (decide (x = g)) as [->|Hne]; [exists g'; rewrite Ht; split; [apply Hin; by left|done]|].
    exists x. split; [apply Hin; by right|done].
  - intros x [->|[Hx _]]%Hin; [rewrite Hc, Htc|]; by apply (ri_count _ _ Hi).
  - intros x [->|[Hx _]]%Hin; [rewrite Hc, Htc|]; by apply (ri_limit _ _ Hi).
  - apply Hi.
Qed.

Section OneGeneration.
Variables (gens : list AutomationTargetSession) (owned : list Session) (targets : list AutomationTarget).
Variables (g g' : AutomationTargetSession).
Hypothesis inv : generations_inv gens owned targets.
Hypothesis g_in : In g gens.
Hypothesis g_same : same_generation g g'.
Hypothesis stays_active : ag_status g' = AutomationTargetSessionStatusActive -> ag_status g = AutomationTargetSessionStatusActive.
Hypothesis pending_retired : ag_ownership_release_pending g' = true -> ag_status g' = AutomationTargetSessionStatusRetired.

Lemma generation_here y : In y (replace_row ag_id g' gens) <-> y = g' \/ (In y gens /\ y <> g).
Proof. apply (in_replace ag_id g g' gens y); [apply inv|done|apply g_same]. Qed.

(** What does not depend on who owns the session. *)
Lemma regenerate owned' : List.NoDup (map s_id owned') ->
  (forall s id, In s owned' -> s_automation_owner_generation_id s = Some id ->
     exists x, In x (replace_row ag_id g' gens) /\ ag_id x = id /\ owning x = true /\ ag_session_id x = s_id s /\ ag_org_id x = s_org_id s) ->
  (forall x, In x (replace_row ag_id g' gens) -> owning x = true ->
     exists s, In s owned' /\ s_id s = ag_session_id x /\ s_org_id s = ag_org_id x /\ s_automation_owner_generation_id s = Some (ag_id x)) ->
  generations_inv (replace_row ag_id g' gens) owned' targets.
Proof.
  intros Hs Howner Howned. pose proof g_same as (E1 & E2 & E3 & E4 & E5). split; auto.
  - rewrite replace_keys. apply inv.
  - apply inv.
  - intros x y Hx Hy Ho Ht Hn. apply generation_here in Hx as [->|[Hx Nx]], Hy as [->|[Hy Ny]]; auto.
    + destruct Ny. apply (gi_numbers _ _ _ inv); congruence.
    + destruct Nx. apply (gi_numbers _ _ _ inv); congruence.
    + by apply (gi_numbers _ _ _ inv).
  - intros x y Hx Hy Ho Ht Ax Ay. apply generation_here in Hx as [->|[Hx Nx]], Hy as [->|[Hy Ny]]; auto.
    + destruct Ny. apply (gi_active _ _ _ inv); auto; congruence.
    + destruct Nx. apply (gi_active _ _ _ inv); auto; congruence.
    + by apply (gi_active _ _ _ inv).
  - intros x [->|[Hx _]]%generation_here; [rewrite E2, E3|]; by apply (gi_target _ _ _ inv).
  - intros x [->|[Hx _]]%generation_here; [done|by apply (gi_pending _ _ _ inv)].
Qed.

Lemma regenerate_keeps : owning g' = owning g -> generations_inv (replace_row ag_id g' gens) owned targets.
Proof.
  intros Ho. pose proof g_same as (E1 & E2 & E3 & E4 & E5). apply regenerate; [apply inv|..].
  - intros s id Hs Hid. destruct (gi_owner _ _ _ inv s id Hs Hid) as (x & Hx & Ex & Hox & Hsx & Hgx).
    destruct (decide (x = g)) as [->|Hne]; [|exists x; split; [apply generation_here; by right|done]].
    exists g'. split; [apply generation_here; by left|]. repeat split; congruence.
  - intros x [->|[Hx _]]%generation_here Hox; [|by apply (gi_owned _ _ _ inv)].
    rewrite E1, E2, E5. apply (gi_owned _ _ _ inv); [done|congruence].
Qed.

(** The session the generation gives up was its own. *)
Lemma regenerate_lets_go : owning g = true -> owning g' = false ->
  generations_inv (replace_row ag_id g' gens)
    (update (fun s => s_id s ==? ag_session_id g) (fun s => s <| s_automation_owner_generation_id := None |>) owned) targets.
Proof.
  intros Ho Ho'. pose proof g_same as (E1 & E2 & E3 & E4 & E5).
  destruct (gi_owned _ _ _ inv g g_in Ho) as (s0 & Hs0 & Es0 & Eo0 & Ew0). apply regenerate.
  - rewrite update_key by done. apply inv.
  - intros s id (s1 & Hs1 & [[Hp ->]|[Hp ->]])%in_update Hid; [done|]. reflect_bools.
    destruct (gi_owner _ _ _ inv s1 id Hs1 Hid) as (x & Hx & Ex & Hox & Hsx & Hgx).
    exists x. split; [|done]. apply generation_here. right. split; [done|]. intros ->. congruence.
  - intros x [->|[Hx Hne]]%generation_here Hox; [congruence|].
    destruct (gi_owned _ _ _ inv x Hx Hox) as (s & Hs & Es & Eo & Ew). exists s. split; [|done].
    apply in_update. exists s. split; [done|]. right. split; [|done]. apply bool_decide_eq_false. intros Eq.
    apply Hne, (map_key_inj ag_id gens); [apply inv|done|done|].
    assert (s = s0) as -> by (apply (map_key_inj s_id owned); [apply inv|done|done|congruence]). congruence.
Qed.
End OneGeneration.

(** ** Moves keep the invariant *)

Lemma complete_runs_inv runs gens owned targets r r' g g' :
  runs_inv runs gens -> generations_inv gens owned targets -> In r runs -> same_run r r' -> executing r = true ->
  ar_target_id r' = ar_target_id r -> ar_target_generation r' = ar_target_generation r ->
  executing r' = false -> counted r' = true -> ar_status r' <> AutomationRunStatusPending ->
  In g gens -> turn_in g r = true -> same_generation g g' -> owning g' = owning g -> ag_turn_count g' = ag_turn_count g + 1 ->
  runs_inv (replace_row ar_id r' runs) (replace_row ag_id g' gens).
Proof.
  intros Hi Hgi Hr Hsr He Et Eg He' Hc' Hst Hg Ht Hsg Ho Htc.
  pose proof (run_here runs gens r r' Hi Hr Hsr) as Hrun. pose proof (run_count runs gens r r' Hi Hr Hsr) as Hcnt.
  pose proof (generation_here gens owned targets g g' Hgi Hg Hsg) as Hgen.
  destruct (executing_not r He) as [Hnc Hnu].
  assert (forall x, turn_in x r' = turn_in x r) as Htr by (intros x; unfold turn_in, run_of; by rewrite (proj2 Hsr), Et, Eg).
  assert (unstarted r' = false) as Hnu'.
  { apply not_true_iff_false. intros [_ ?]%unstarted_idle. congruence. }
  assert (forall x q, In x gens -> exists x', In x' (replace_row ag_id g' gens) /\ turn_in x' q = turn_in x q
            /\ owning x' = owning x /\ ag_session_id x' = ag_session_id x) as Hmap.
  { intros x q Hx. destruct (decide (x = g)) as [->|Hne].
    - exists g'. split; [apply Hgen; by left|]. split; [by apply turn_in_same|]. split; [done|apply Hsg].
    - exists x. split; [apply Hgen; by right|done]. }
  assert (forall x, In x gens -> x <> g -> turn_in x r = false) as Hother.
  { intros x Hx Hne. apply not_true_iff_false. intros Htx. apply Hne. by eapply (generation_unique gens owned targets x g r). }
  assert (forall q, count_rows (fun y => turn_in g' y && q y) (replace_row ar_id r' runs)
                    = count_rows (fun y => turn_in g y && q y) (replace_row ar_id r' runs)) as Hgc.
  { intros q. unfold count_rows, select. do 2 f_equal. apply List.filter_ext. intros y. by rewrite (turn_in_same g g' y Hsg). }
  split.
  - rewrite replace_keys. apply Hi.
  - intros x y [->|[Hx _]]%Hrun [->|[Hy _]]%Hrun Ex Ey; try congruence. by apply (ri_one _ _ Hi).
  - intros x [->|[Hx _]]%Hrun Ex; [congruence|].
    destruct (ri_turn _ _ Hi x Hx Ex) as (y & Hy & H1 & H2 & H3 & H4). destruct (Hmap y x Hy) as (y' & Hy' & F1 & F2 & F3).
    exists y'. by rewrite F1, F2, F3.
  - intros x [->|[Hx _]]%Hrun Ex.
    + split; [|done]. destruct (Hmap g r' Hg) as (y' & Hy' & F1 & _). exists y'. split; [done|]. by rewrite F1, Htr.
    + destruct (ri_counted _ _ Hi x Hx Ex) as [(y & Hy & H1) H2]. split; [|done].
      destruct (Hmap y x Hy) as (y' & Hy' & F1 & _). exists y'. split; [done|]. by rewrite F1.
  - intros x [->|[Hx Hne]]%Hgen; [rewrite Hgc, Htc|].
    + pose proof (Hcnt (fun y => turn_in g y && counted y)) as Hc. simpl in Hc.
      rewrite Htr, Ht, Hnc, Hc' in Hc. simpl in Hc. rewrite (ri_count _ _ Hi g Hg). lia.
    + pose proof (Hcnt (fun y => turn_in x y && counted y)) as Hc. simpl in Hc.
      rewrite Htr, (Hother x Hx Hne) in Hc. simpl in Hc. rewrite (ri_count _ _ Hi x Hx). lia.
  - intros x [->|[Hx Hne]]%Hgen; [rewrite Hgc, Htc|].
    + pose proof (Hcnt (fun y => turn_in g y && executing y)) as Hc. simpl in Hc.
      rewrite Htr, Ht, He, He' in Hc. simpl in Hc. pose proof (ri_limit _ _ Hi g Hg). lia.
    + pose proof (Hcnt (fun y => turn_in x y && executing y)) as Hc. simpl in Hc.
      rewrite Htr, (Hother x Hx Hne) in Hc. simpl in Hc. pose proof (ri_limit _ _ Hi x Hx). lia.
  - intros org t. pose proof (Hcnt (fun y => run_of org t y && unstarted y)) as Hc. simpl in Hc.
    rewrite Hnu, Hnu', !andb_false_r in Hc. simpl in Hc. pose proof (ri_waiting _ _ Hi org t). lia.
Qed.

Section NewGeneration.
Variables (runs : list AutomationRun) (gens : list AutomationTargetSession) (owned : list Session) (targets : list AutomationTarget).
Variables (g : AutomationTargetSession) (s : Session) (t : AutomationTarget).
Hypothesis inv : generations_inv gens owned targets.
Hypothesis rinv : runs_inv runs gens.
Hypothesis t_in : In t targets.
Hypothesis t_id : ag_target_id g = at_id t.
Hypothesis t_org : ag_org_id g = at_org_id t.
Hypothesis new_id : ~ In (ag_id g) (map ag_id gens).
Hypothesis unclaimed : exists_row (fun x => active_generation_of (ag_org_id g) (ag_target_id g) x
    || ((ag_org_id x ==? ag_org_id g) && (ag_target_id x ==? ag_target_id g) && (ag_generation x =? ag_generation g))) gens = false.
Hypothesis s_in : In s owned.
Hypothesis s_same : s_id s = ag_session_id g.
Hypothesis s_org : s_org_id s = ag_org_id g.
Hypothesis s_free : s_automation_owner_generation_id s = None.
Hypothesis g_active : ag_status g = AutomationTargetSessionStatusActive.
Hypothesis g_settled : ag_ownership_release_pending g = false.
Hypothesis g_count : ag_turn_count g = 0.

Lemma new_number x : In x gens -> ag_org_id x = ag_org_id g -> ag_target_id x = ag_target_id g ->
  ag_generation x <> ag_generation g /\ ag_status x <> AutomationTargetSessionStatusActive.
Proof.
  intros Hx Eo Et. pose proof (exists_row_none _ _ x unclaimed Hx) as Hn. simpl in Hn.
  unfold active_generation_of in Hn. rewrite Eo, Et in Hn. rewrite !bool_decide_eq_true_2 in Hn by done. simpl in Hn.
  apply orb_false_iff in Hn as [Ha Hg]. reflect_bools. split; [|done]. intros E. rewrite E, Z.eqb_refl in Hg. done.
Qed.

Lemma no_turns x : In x runs -> executing x || counted x = true -> turn_in g x = false.
Proof.
  intros Hx Ha. apply not_true_iff_false. intros (E1 & E2 & E3)%turn_in_target.
  assert (exists y, In y gens /\ turn_in y x = true) as (y & Hy & (F1 & F2 & F3)%turn_in_target).
  { apply orb_true_iff in Ha as [Ha|Ha]; [destruct (ri_turn _ _ rinv x Hx Ha) as (y & ? & ? & _); eauto|].
    by destruct (ri_counted _ _ rinv x Hx Ha) as [? _]. }
  destruct (new_number y Hy) as [Hn _]; [congruence..|]. congruence.
Qed.

Lemma new_generation_runs : runs_inv runs (gens ++ [g])%list.
Proof.
  assert (forall q, (forall x, q x = true -> executing x || counted x = true) -> count_rows (fun x => turn_in g x && q x) runs = 0) as H0.
  { intros q Hq. apply count_rows_0, exists_row_false. intros x Hx. apply not_true_iff_false. intros [Ht Hqx]%andb_true_iff.
    rewrite (no_turns x Hx (Hq x Hqx)) in Ht. done. }
  split; try apply rinv.
  - intros r Hr He. destruct (ri_turn _ _ rinv r Hr He) as (x & Hx & ?). exists x. split; [apply in_app_iff; by left|done].
  - intros r Hr He. destruct (ri_counted _ _ rinv r Hr He) as [(x & Hx & ?) ?]. split; [|done].
    exists x. split; [apply in_app_iff; by left|done].
  - intros x [Hx|[<-|[]]]%in_app_iff; [by apply (ri_count _ _ rinv)|]. rewrite H0; [done|]. intros x ->. by rewrite orb_true_r.
  - intros x [Hx|[<-|[]]]%in_app_iff; [by apply (ri_limit _ _ rinv)|]. rewrite H0, g_count; [done|]. by intros x ->.
Qed.

Lemma new_generation_generations : generations_inv (gens ++ [g])%list
  (update (fun x => s_id x ==? s_id s) (fun x => x <| s_automation_owner_generation_id := Some (ag_id g) |>) owned) targets.
Proof.
  assert (owning g = true) as Hog by (unfold owning; by rewrite g_active).
  assert (forall x, In x owned -> s_id x = s_id s -> x = s) as Hs by (intros x Hx E; by apply (map_key_inj s_id owned); [apply inv|..]).
  split.
  - rewrite map_app. apply List.NoDup_app; [apply inv|repeat constructor; auto|]. intros x Hx [<-|[]]. done.
  - rewrite update_key by done. apply inv.
  - apply inv.
  - intros x y [Hx|[<-|[]]]%in_app_iff [Hy|[<-|[]]]%in_app_iff E1 E2 E3; [by apply (gi_numbers _ _ _ inv)| | |done].
    + by destruct (new_number x Hx E1 E2).
    + by destruct (new_number y Hy).
  - intros x y [Hx|[<-|[]]]%in_app_iff [Hy|[<-|[]]]%in_app_iff E1 E2 E3 E4; [by apply (gi_active _ _ _ inv)| | |done].
    + by destruct (new_number x Hx E1 E2).
    + by destruct (new_number y Hy).
  - intros x [Hx|[<-|[]]]%in_app_iff; [by apply (gi_target _ _ _ inv)|eauto].
  - intros x [Hx|[<-|[]]]%in_app_iff; [by apply (gi_pending _ _ _ inv)|congruence].
  - intros x id (x0 & Hx & [[Hp ->]|[Hp ->]])%in_update Hid; reflect_bools.
    + simpl in Hid. injection Hid as <-. assert (x0 = s) as -> by auto. exists g. simpl.
      split; [apply in_app_iff; right; by left|done].
    + destruct (gi_owner _ _ _ inv x0 id Hx Hid) as (y & Hy & ?). exists y. split; [apply in_app_iff; by left|done].
  - intros x [Hx|[<-|[]]]%in_app_iff Ho.
    + destruct (gi_owned _ _ _ inv x Hx Ho) as (y & Hy & E1 & E2 & E3). exists y. split; [|done].
      apply in_update. exists y. split; [done|]. right. split; [|done]. apply bool_decide_eq_false. intros E.
      rewrite (Hs y Hy E) in E3. congruence.
    + exists (s <| s_automation_owner_generation_id := Some (ag_id g) |>). simpl. split; [|done].
      apply in_update. exists s. split; [done|]. left. split; [by apply bool_decide_eq_true|done].
Qed.
End NewGeneration.

Lemma create_runs_inv runs gens r : runs_inv runs gens -> ~ In (ar_id r) (map ar_id runs) -> ar_target_id r = None ->
  executing r = false -> counted r = false -> runs_inv (runs ++ [r])%list gens.
Proof.
  intros Hi Hn Ht He Hc.
  assert (forall q, q r = false -> count_rows q (runs ++ [r])%list = count_rows q runs) as Hcount.
  { intros q Hq. unfold count_rows, select. rewrite List.filter_app. simpl. rewrite Hq, app_nil_r. done. }
  assert (forall org t, run_of org t r = false) as Hof by (intros; unfold run_of, col_is; rewrite Ht; apply andb_false_r).
  split.
  - rewrite map_app. apply List.NoDup_app; [apply Hi|repeat constructor; auto|]. intros x Hx [<-|[]]. done.
  - intros x y [Hx|[<-|[]]]%in_app_iff [Hy|[<-|[]]]%in_app_iff Ex Ey; try congruence. by apply (ri_one _ _ Hi).
  - intros x [Hx|[<-|[]]]%in_app_iff Ex; [|congruence]. by apply (ri_turn _ _ Hi).
  - intros x [Hx|[<-|[]]]%in_app_iff Ex; [|congruence]. by apply (ri_counted _ _ Hi).
  - intros g Hg. rewrite Hcount by (by rewrite Hc, andb_false_r). by apply (ri_count _ _ Hi).
  - intros g Hg. rewrite Hcount by (by rewrite He, andb_false_r). by apply (ri_limit _ _ Hi).
  - intros org t. rewrite Hcount by (by rewrite Hof). apply Hi.
Qed.

Lemma move_inv d d' : auto_inv d -> move d d' -> auto_inv d'.
Proof.
  intros Hinv Hm. pose proof Hinv as [Hgi Hri].
  destruct Hm as [d' Hc|r Hn Ht He Hc|r r' t Hr Hs Ht Ht' He He' Hc Hc' Hw|r r' g Hr Hs Hu Hg Ha Hl He' Htn Hse Hj Hno
                 |r r' Hr Hs He Ht He' Hc' Hu'|r r' g g' Hr Hs He Ht Hgn He' Hc' Hst Hg Htn Hsg Hsa Hsp Htc
                 |g s t Ht Et Eo Hn Hun Hs Es Eos Hf Ha Hp Hz|g g' Hg Ha Hs Hr Htc Hp|g g' Hg Hp Hno Hs Hst Htc Hp'].
  - by eapply calm_inv.
  - split; [done|by apply create_runs_inv].
  - split; [done|]. apply (replace_run_inv _ _ r r' Hri Hr Hs); [done|done|congruence|].
    intros org t0 [Ho Hu]%andb_true_iff. right. unfold run_of, col_is in Ho. reflect_bools. rewrite Ht' in *. simplify_eq.
    rewrite (proj2 Hs). by apply Hw.
  - split; [done|]. destruct (unstarted_idle r Hu) as [He Hc]. destruct (executing_not r' He') as [Hc' Hu'].
    apply (replace_run_inv _ _ r r' Hri Hr Hs); [done|done| |].
    + intros _. pose proof (turn_in_target g r' Htn) as (E1 & E2 & _). split; [|split].
      * exists g. unfold owning. rewrite Ha. done.
      * intros x Hx Hex F1 F2. apply (exists_row_none _ _ x Hno) in Hx. unfold run_of, col_is in Hx.
        rewrite F1, F2, E1, E2, Hex, !bool_decide_eq_true_2 in Hx by done. done.
      * intros y Hy Hty. assert (y = g) as -> by (by eapply (generation_unique _ _ _ y g r')). lia.
    + intros org t. rewrite Hu', andb_false_r. done.
  - split; [done|]. destruct (executing_not r He) as [Hc _].
    apply (replace_run_inv _ _ r r' Hri Hr Hs); [done|done|congruence|]. intros org t. rewrite Hu', andb_false_r. done.
  - assert (owning g' = owning g) as Ho by (unfold owning; by rewrite Hsa, Hsp). split; simpl.
    + apply (regenerate_keeps _ _ _ g g' Hgi Hg Hsg); [congruence| |done].
      rewrite Hsp, Hsa. by apply (gi_pending _ _ _ Hgi).
    + by eapply (complete_runs_inv _ _ _ _ r r' g g').
  - split; simpl; [by eapply new_generation_generations|by eapply new_generation_runs].
  - assert (owning g' = ag_ownership_release_pending g') as Ho by (unfold owning; by rewrite Hr).
    assert (owning g = true) as Hog by (unfold owning; by rewrite Ha).
    assert (runs_inv (automation_runs d) (replace_row ag_id g' (automation_target_sessions d))) as Hri'.
    { apply (regenerate_runs_inv _ _ g g' Hri (gi_ids _ _ _ Hgi) Hg Hs Htc). rewrite Ho.
      destruct (exists_row _ _); [left; by apply Hp|by right]. }
    destruct (ag_ownership_release_pending g') eqn:E; split; simpl; auto.
    + apply (regenerate_keeps _ _ _ g g' Hgi Hg Hs); [congruence|auto|congruence].
    + apply (regenerate_lets_go _ _ _ g g' Hgi Hg Hs); [congruence|congruence|done..].
  - assert (ag_status g = AutomationTargetSessionStatusRetired) as Hr by (by apply (gi_pending _ _ _ Hgi)).
    split; simpl.
    + apply (regenerate_lets_go _ _ _ g g' Hgi Hg Hs); [congruence|congruence| |].
      * unfold owning. by rewrite Hp, orb_true_r.
      * unfold owning. by rewrite Hst, Hr, Hp'.
    + apply (regenerate_runs_inv _ _ g g' Hri (gi_ids _ _ _ Hgi) Hg Hs Htc). by right.
Qed.

(** ** Sequences of moves *)

Definition evolves : AutoDB -> AutoDB -> Prop := rtc move.

Lemma evolves_inv d d' : auto_inv d -> evolves d d' -> auto_inv d'.
Proof. intros Hi He. induction He as [|a b c Hm _ IH]; [done|]. apply IH. by eapply move_inv. Qed.

Lemma quiet_refl p : quiet p p.
Proof. intros used. constructor. Qed.
Lemma steps_compose u1 p u2 q u3 s : steps u1 p u2 q -> steps u2 q u3 s -> steps u1 p u3 s.
Proof. intros H1 H2. induction H2; [done|]. econstructor; eauto. Qed.
Lemma quiet_trans p q s : quiet p q -> quiet q s -> quiet p s.
Proof. intros H1 H2 used. by eapply steps_compose. Qed.
Lemma quiet_of_step p q : step p None q -> quiet p q.
Proof. intros H used. exact (steps_next used p used p None q (steps_refl used p) I H). Qed.
Lemma quiet_environment p q : same_plane p q -> quiet p q.
Proof. intros H. by apply quiet_of_step, step_environment. Qed.

Lemma move_quiet d d' : move d d' -> quiet (plane d) (plane d').
Proof.
  assert (forall s, quiet (plane d) ((plane d) <| sessions := s |>)) as Hs by (intros s; by apply quiet_environment).
  intros []; simpl; try apply quiet_refl; try apply Hs; [by apply calm_plane|].
  destruct (ag_ownership_release_pending g'); simpl; [apply quiet_refl|apply Hs].
Qed.
Lemma evolves_quiet d d' : evolves d d' -> quiet (plane d) (plane d').
Proof. induction 1 as [|a b c Hm _ IH]; [apply quiet_refl|]. eapply quiet_trans; [by apply move_quiet|done]. Qed.

Lemma same_target_row_trans a b c : same_target_row a b -> same_target_row b c -> same_target_row a c.
Proof. intros [] []. split; [congruence|congruence|auto]. Qed.
Lemma targets_kept_refl l : targets_kept l l.
Proof. apply grows_rows; [apply ct_id|]. apply Forall_Forall2_diag, Forall_true. auto with plane. Qed.
Lemma targets_kept_trans a b c : targets_kept a b -> targets_kept b c -> targets_kept a c.
Proof. apply grows_trans; [exact same_target_row_trans|done]. Qed.
Lemma owners_kept_refl l : owners_kept l l.
Proof. apply grows_rows; [apply cs_id|]. apply Forall_Forall2_diag, Forall_true. auto with plane. Qed.
#[export] Hint Resolve quiet_refl targets_kept_refl owners_kept_refl : plane.

(** Targets survive every move, and a merged one stays merged. *)
Lemma move_targets d d' : move d d' -> targets_kept (automation_targets d) (automation_targets d').
Proof.
  intros []; simpl; try apply targets_kept_refl; [by apply calm_targets|].
  destruct (ag_ownership_release_pending g'); apply targets_kept_refl.
Qed.
Lemma evolves_targets d d' : evolves d d' -> targets_kept (automation_targets d) (automation_targets d').
Proof. induction 1 as [|a b c Hm _ IH]; [apply targets_kept_refl|]. eapply targets_kept_trans; [by apply move_targets|done]. Qed.

(** Generations survive every move. *)
Lemma move_generations d d' g : auto_inv d -> move d d' -> In g (automation_target_sessions d) ->
  exists g', In g' (automation_target_sessions d') /\ same_generation g g'.
Proof.
  intros Hi Hm Hg.
  assert (forall x x', In x (automation_target_sessions d) -> same_generation x x' ->
            exists g', In g' (replace_row ag_id x' (automation_target_sessions d)) /\ same_generation g g') as Hput.
  { intros x x' Hx Hs. pose proof (in_replace ag_id x x' (automation_target_sessions d)) as Hin. destruct (decide (g = x)) as [->|Hne].
    - exists x'. split; [|done]. apply Hin; [apply Hi|done|apply Hs|by left].
    - exists g. split; [|done]. apply Hin; [apply Hi|done|apply Hs|by right]. }
  destruct Hm as [d' Hc|? ? ? ? ?|? ? ? ? ? ? ? ? ? ? ? ?|? ? ? ? ? ? ? ? ? ? ? ? ? ?|? ? ? ? ? ? ? ? ?|r r' x x'|x s t|x x'|x x'];
    try (exists g; split; [exact Hg|done]).
  - destruct (Forall2_old _ _ _ _ (calm_generations _ _ Hc) Hg) as (g' & Hg' & []). exists g'. split; [done|]. done.
  - by apply (Hput x x').
  - exists g. split; [apply in_app_iff; by left|done].
  - destruct (ag_ownership_release_pending x'); by apply (Hput x x').
  - by apply (Hput x x').
Qed.
Lemma evolves_generations d d' g : auto_inv d -> evolves d d' -> In g (automation_target_sessions d) ->
  exists g', In g' (automation_target_sessions d') /\ same_generation g g'.
Proof.
  intros Hi He. revert g. induction He as [|a b c Hm _ IH]; intros g Hg; [by exists g|].
  destruct (move_generations a b g Hi Hm Hg) as (g1 & Hg1 & A1 & A2 & A3 & A4 & A5).
  destruct (IH (move_inv _ _ Hi Hm) g1 Hg1) as (g2 & Hg2 & B1 & B2 & B3 & B4 & B5).
  exists g2. split; [done|]. repeat split; congruence.
Qed.
