(* ===== verification/AutomationSteps.v ===== *)
(** * Statements as moves

    What each statement of the automation stores is to the protocol of
    [AutomationMoves]: bookkeeping, or one of its moves.  Retirement, the end
    of a turn and the release of ownership are proved here; [AutomationOps]
    composes them into the transactions of the services. *)

From S2P Require Import Prelude GoRuntime Sql Tables JobStore ExecutorStore JobLifecycle JobSteps Plane Automation AutomationStore.
From S2P Require Import AutomationRunStore AutomationCompletion AutomationService AutomationCompleter AutomationMoves.
From stdpp Require Import base option list relations strings pretty gmap.

Open Scope string_scope.
Open Scope Z_scope.

Create HintDb moves discriminated.

(** ** Bookkeeping statements *)

Lemma Forall2_same {A} (R : A -> A -> Prop) (l : list A) : (forall x, R x x) -> Forall2 R l l.
Proof. intros H. induction l; constructor; auto. Qed.

Lemma ok_inj {A} (a b : A) : Ok a = Ok b -> a = b.
Proof. by intros [= ->]. Qed.
Lemma ok_pair {A B} (a a' : A) (b b' : B) : Ok (a, b) = Ok (a', b') -> a = a' /\ b = b'.
Proof. by intros [= -> ->]. Qed.

Lemma calm_refl d : calm d d.
Proof. split; auto with plane; apply Forall2_same; auto with plane. Qed.

Lemma calm_run_trans a b c : calm_run a b -> calm_run b c -> calm_run a c.
Proof.
  intros [A1 A2 A3 A4 A5 A6 A7 A8 A9] [B1 B2 B3 B4 B5 B6 B7 B8 B9]. split; try congruence; auto.
  - intros H. rewrite B6, A6; [done|done|]. by rewrite A4, A5.
  - intros H. destruct (A7 H) as [<- <-]. apply B7. congruence.
  - intros H Hs. apply B8; [congruence|]. by apply A8.
Qed.
Lemma Forall2_compose {A} (R : A -> A -> Prop) (k l m : list A) : (forall x y z, R x y -> R y z -> R x z) ->
  Forall2 R k l -> Forall2 R l m -> Forall2 R k m.
Proof. intros Ht H. revert m. induction H; intros m Hm; inversion Hm; subst; constructor; eauto. Qed.
Lemma calm_trans a b c : calm a b -> calm b c -> calm a c.
Proof.
  intros [A1 A2 A3 A4 A5] [B1 B2 B3 B4 B5]. split.
  - by eapply Forall2_compose; [exact calm_run_trans|..].
  - eapply Forall2_compose; [|done..]. intros x y z [] []. split; congruence.
  - by eapply targets_kept_trans.
  - eapply grows_trans; [| |done..].
    + intros x y z [] []. split; congruence.
    + intros x y [] Hf. congruence.
  - by eapply quiet_trans.
Qed.

(** A state that differs in some tables only. *)
Lemma calm_tables d d' :
  (automation_runs d' = automation_runs d \/ Forall2 calm_run (automation_runs d) (automation_runs d')) ->
  (automation_target_sessions d' = automation_target_sessions d
   \/ Forall2 calm_generation (automation_target_sessions d) (automation_target_sessions d')) ->
  (automation_targets d' = automation_targets d \/ targets_kept (automation_targets d) (automation_targets d')) ->
  (plane d' = plane d \/ owners_kept (sessions (plane d)) (sessions (plane d')) /\ quiet (plane d) (plane d')) ->
  calm d d'.
Proof.
  intros [Hr|Hr] [Hg|Hg] [Ht|Ht] [Hp|[Hs Hq]]; split; rewrite ?Hr, ?Hg, ?Ht, ?Hp; auto with plane;
    apply Forall2_same; auto with plane.
Qed.

Ltac calm_at := apply calm_tables; [try (by left)..]; right.

Section Statements.
Variables (now : time) (d : AutoDB).

Lemma set_runs_calm p f : (forall r, In r (automation_runs d) -> p r = true -> calm_run r ((f r) <| ar_updated_at := now |>)) ->
  calm d (set_runs now p f d).
Proof. intros H. calm_at. apply Forall2_update; auto with plane. Qed.
Lemma set_generations_calm p f : (forall g, In g (automation_target_sessions d) -> p g = true -> calm_generation g ((f g) <| ag_updated_at := now |>)) ->
  calm d (set_generations now p f d).
Proof. intros H. calm_at. apply Forall2_update; auto with plane. Qed.
Lemma set_targets_calm p f : (forall t, In t (automation_targets d) -> p t = true -> same_target_row t ((f t) <| at_updated_at := now |>)) ->
  calm d (set_targets now p f d).
Proof. intros H. calm_at. apply grows_rows; [apply ct_id|]. apply Forall2_update; auto with plane. Qed.
Lemma set_sessions_calm p f : (forall s, In s (sessions (plane d)) -> p s = true -> calm_session s (f s)) -> calm d (set_sessions p f d).
Proof.
  intros H. calm_at. split; [|by apply quiet_environment].
  apply grows_rows; [apply cs_id|]. apply Forall2_update; auto with plane.
Qed.
Lemma set_threads_calm p f : calm d (set_threads p f d).
Proof. calm_at. split; [apply owners_kept_refl|by apply quiet_environment]. Qed.
Lemma set_messages_calm m : calm d (d <| plane := (plane d) <| session_messages := m |> |>).
Proof. calm_at. split; [apply owners_kept_refl|by apply quiet_environment]. Qed.
Lemma set_results_calm m : calm d (d <| automation_run_results := m |>).
Proof. apply calm_tables; by left. Qed.
Lemma set_automations_calm a : calm d (d <| automations := a |>).
Proof. apply calm_tables; by left. Qed.

Lemma enqueue_calm fresh org queue jobType body priority key p id :
  Enqueue now fresh org queue jobType body priority key (plane d) = Ok (p, id) -> calm d (d <| plane := p |>).
Proof.
  intros E. calm_at. simpl. split.
  - assert (sessions p = sessions (plane d)) as ->; [|apply owners_kept_refl].
    unfold Enqueue, enqueueOn in E. simpl in E. repeat case_match; by simplify_eq/=.
  - by eapply quiet_of_step, step_job, op_enqueue.
Qed.
Lemma revoke_calm org job : calm d (d <| plane := RevokeAbandonedLease now org job (plane d) |>).
Proof. calm_at. split; [apply owners_kept_refl|]. apply quiet_of_step, step_job, op_revoke. Qed.
Lemma reschedule_calm org key : calm d (d <| plane := (RescheduleActiveByDedupeKey now org key (plane d)).1 |>).
Proof. calm_at. split; [apply owners_kept_refl|]. apply quiet_of_step, step_job, op_reschedule. Qed.
End Statements.

Lemma evolves_calm d d' : calm d d' -> evolves d d'.
Proof. intros H. by apply rtc_once, move_calm. Qed.
Lemma evolves_refl d : evolves d d.
Proof. apply rtc_refl. Qed.
Lemma evolves_trans a b c : evolves a b -> evolves b c -> evolves a c.
Proof. apply transitivity. Qed.
Lemma calm_then a b c : calm a b -> evolves b c -> evolves a c.
Proof. intros H. by apply evolves_trans, evolves_calm. Qed.
Lemma then_calm a b c : evolves a b -> calm b c -> evolves a c.
Proof. intros H Hc. eapply evolves_trans; [done|by apply evolves_calm]. Qed.
#[export] Hint Resolve evolves_refl calm_refl set_threads_calm set_messages_calm set_results_calm
  set_automations_calm revoke_calm reschedule_calm : moves.

(** ** Targets *)

Section Targets.
Variables (now : time) (orgID : uuid).

Lemma write_target_ok id f d d' : write_target now orgID id f d = Ok d' ->
  d' = set_targets now (is_target orgID id) f d /\ exists t, In t (automation_targets d) /\ is_target orgID id t = true.
Proof.
  unfold write_target. case_match eqn:E; [|done]. intros [= <-]. split; [done|]. by apply exists_row_true.
Qed.
Lemma write_target_calm id f d d' : (forall t, same_target_row t ((f t) <| at_updated_at := now |>)) ->
  write_target now orgID id f d = Ok d' -> calm d d'.
Proof. intros Hf [-> _]%write_target_ok. by apply set_targets_calm. Qed.

Lemma LockOrCreate_calm fresh aid rid key d d' t : LockOrCreate now orgID fresh aid rid key d = Ok (d', t) ->
  calm d d' /\ In t (automation_targets d') /\ at_org_id t = orgID
  /\ automation_runs d' = automation_runs d /\ automation_target_sessions d' = automation_target_sessions d /\ plane d' = plane d.
Proof.
  unfold LockOrCreate, one_row. case_match; [done|].
  set (known := exists_row _ (automations d) && exists_row _ (repositories d)). set (taken := exists_row (same_target _ _ _ _) _).
  destruct (known && negb taken && exists_row (fun t => at_id t ==? fresh) (automation_targets d)) eqn:Edup; [done|].
  set (d1 := if known && negb taken then _ else d). destruct (select _ _) as [|x l] eqn:Es; [done|]. intros [= <- <-].
  assert (In x (automation_targets d1) /\ same_target orgID aid rid key x = true) as [Hx Hs]
    by (apply in_filter_iff; unfold select in Es; rewrite Es; by left).
  unfold same_target in Hs. reflect_bools. subst d1. destruct (known && negb taken) eqn:Ek; simpl in *.
  - split; [|done]. calm_at. exists (automation_targets d), [new_target now orgID fresh aid rid key].
    split; [done|]. split; [apply Forall2_same; auto with plane|]. split; [by repeat constructor|]. simpl. intros Hnd.
    rewrite map_app. apply List.NoDup_app; [done|repeat constructor; auto|]. intros y Hy [<-|[]]. simpl in Hy.
    apply in_map_iff in Hy as (t & Ht & Hin). apply (exists_row_none _ _ t Edup) in Hin.
    rewrite Ht, bool_decide_eq_true_2 in Hin by done. done.
  - split; [apply calm_refl|done].
Qed.

Lemma RequestWake_calm t d d' : RequestWake now orgID t d = Ok d' -> calm d d'.
Proof. by apply write_target_calm. Qed.
Lemma ClearWake_calm t at' d : calm d (ClearWake now orgID t at' d).1.
Proof. by apply set_targets_calm. Qed.
Lemma wake_calm t d : calm d (wake now orgID t d).
Proof. by apply set_targets_calm. Qed.

Lemma lifecycle_row_same state at' t : lifecycle_admits state at' t = true ->
  same_target_row t ((lifecycle_row state at' t) <| at_updated_at := now |>).
Proof.
  unfold lifecycle_admits. intros H. split; [done|done|]. simpl. intros Hm. rewrite Hm in H.
  destruct state; [by vm_compute in H|by vm_compute in H|done].
Qed.
Lemma SetLifecycleObserved_calm id state at' d d' applied : SetLifecycleObserved now orgID id state at' d = Ok (d', applied) -> calm d d'.
Proof.
  unfold SetLifecycleObserved. case_match; [done|]. intros [= <- _]. apply set_targets_calm.
  intros t _ [_ Ha]%andb_true_iff. by apply lifecycle_row_same.
Qed.
Lemma SetLifecycleObserved_frame id state at' d d' applied : SetLifecycleObserved now orgID id state at' d = Ok (d', applied) ->
  automation_target_sessions d' = automation_target_sessions d.
Proof. unfold SetLifecycleObserved. case_match; [done|]. by intros [<- _]%ok_pair. Qed.
Lemma AdoptHead_calm id sha at' d d' e : AdoptHead now orgID id sha at' d = Ok (d', e) -> calm d d'.
Proof.
  unfold AdoptHead. case_match; [done|]. destruct (write_target _ _ _ _ _) eqn:E; [|done]. case_match; [|done].
  intros [= <- _]. by eapply write_target_calm; [|exact E].
Qed.
Lemma MarkHeadResolutionPending_calm id dl d d' : MarkHeadResolutionPending now orgID id dl d = Ok d' -> calm d d'.
Proof. by apply write_target_calm. Qed.
Lemma ClearHeadResolutionPending_calm id d d' : ClearHeadResolutionPending now orgID id d = Ok d' -> calm d d'.
Proof. by apply write_target_calm. Qed.
Lemma TouchObservedHead_calm id sha at' d d' : TouchObservedHead now orgID id sha at' d = Ok d' -> calm d d'.
Proof. unfold TouchObservedHead. case_match; [|done]. intros [= <-]. by apply set_targets_calm. Qed.
Lemma ReopenTarget_calm id at' d d' b : ReopenTarget now orgID id at' d = Ok (d', b) -> calm d d'.
Proof.
  unfold ReopenTarget. repeat case_match; try done; intros [= <- _]; [apply calm_refl|].
  by eapply SetLifecycleObserved_calm.
Qed.
End Targets.

(** ** Ownership *)

Lemma update_ext {A} (p q : A -> bool) (f g : A -> A) (l : list A) :
  (forall x, In x l -> p x = q x) -> (forall x, In x l -> p x = true -> f x = g x) -> update p f l = update q g l.
Proof.
  intros Hp Hf. unfold update. apply map_ext_in. intros x Hx. rewrite <- (Hp x Hx). destruct (p x) eqn:E; auto.
Qed.
Lemma one_row_ok {A} (p : A -> bool) l m (x : A) : one_row p l m = Ok x -> In x l /\ p x = true.
Proof.
  unfold one_row. destruct (select p l) as [|y k] eqn:E; [done|]. intros [= ->]. apply in_filter_iff. unfold select in E. rewrite E. by left.
Qed.
Lemma select_first {A} (p : A -> bool) l (x : A) k : select p l = x :: k -> In x l /\ p x = true.
Proof. intros E. apply in_filter_iff. unfold select in E. rewrite E. by left. Qed.
Lemma one_row_found {A} (p : A -> bool) l m (x : A) : In x l -> p x = true -> exists y, one_row p l m = Ok y.
Proof.
  intros Hx Hp. unfold one_row. destruct (select p l) as [|y k] eqn:E; [|eauto].
  assert (In x (select p l)) as Hin by (by apply in_filter_iff). by rewrite E in Hin.
Qed.

(** The session a generation owns is the one with its id. *)
Lemma owned_session d g : auto_inv d -> In g (automation_target_sessions d) -> owning g = true ->
  forall s, In s (sessions (plane d)) ->
    is_session (ag_org_id g) (ag_session_id g) s && col_is (s_automation_owner_generation_id s) (ag_id g) = (s_id s ==? ag_session_id g).
Proof.
  intros [Hi _] Hg Ho s Hs. destruct (gi_owned _ _ _ Hi g Hg Ho) as (s0 & Hs0 & E1 & E2 & E3).
  unfold is_session, col_is. case_bool_decide as Eid; [|done].
  assert (s = s0) as -> by (apply (map_key_inj s_id (sessions (plane d))); [apply Hi|done|done|congruence]).
  by rewrite !bool_decide_eq_true_2.
Qed.

Lemma release_owner_own d d1 g : auto_inv d -> In g (automation_target_sessions d) -> owning g = true -> plane d1 = plane d ->
  release_owner (ag_org_id g) (ag_session_id g) (ag_id g) d1 = own_session (ag_session_id g) None d1.
Proof.
  intros Hi Hg Ho Hp. unfold release_owner, set_sessions, own_session.
  rewrite (update_ext _ (fun s => s_id s ==? ag_session_id g) _ (fun s => s <| s_automation_owner_generation_id := None |>)); [done| |done].
  intros s Hs. apply (owned_session d g); [done..|]. by rewrite <- Hp.
Qed.

Lemma is_generation_key d org id g : auto_inv d -> In g (automation_target_sessions d) -> is_generation org id g = true ->
  forall y, is_generation org id y = true -> ag_id y = ag_id g.
Proof. unfold is_generation. intros _ _ H y H'. reflect_bools. congruence. Qed.

Lemma turn_executing_exists org g d : ag_org_id g = org ->
  turn_executing org (ag_target_id g) (ag_generation g) d = exists_row (fun r => turn_in g r && executing r) (automation_runs d).
Proof. by intros <-. Qed.

Section Retirement.
Variables (now : time) (orgID : uuid).

Lemma set_generation_put d id f g : auto_inv d -> In g (automation_target_sessions d) -> is_generation orgID id g = true ->
  ag_id (f g) = ag_id g ->
  set_generations now (is_generation orgID id) f d = put_generation ((f g) <| ag_updated_at := now |>) d.
Proof.
  intros Hi Hg Hp Hf. unfold set_generations, put_generation.
  rewrite (update_replace ag_id _ (fun g => (f g) <| ag_updated_at := now |>) g); [done|apply Hi|done|done|exact Hf|].
  intros y _ Hy. unfold is_generation in *. reflect_bools. congruence.
Qed.

Lemma RetireGeneration_evolves id reason d d' g' : auto_inv d -> RetireGeneration now orgID id reason d = Ok (d', g') -> evolves d d'.
Proof.
  intros Hi. unfold RetireGeneration. destruct (one_row _ _ _) as [g|] eqn:E; [|done].
  apply one_row_ok in E as [Hg [Hp _]%andb_true_iff]. case_match eqn:Ea; [done|]. reflect_bools.
  set (pending := turn_executing _ _ _ _ || _). destruct (RequestWake _ _ _ _) as [d3|] eqn:Ew; [|done]. intros [= <- _].
  eapply then_calm; [|by eapply RequestWake_calm]. clear Ew d3.
  assert (ag_org_id g = orgID /\ ag_id g = id) as [Eo Eid] by (unfold is_generation in Hp; by reflect_bools).
  rewrite (set_generation_put d id (retire_row now reason pending) g Hi Hg Hp eq_refl).
  set (g1 := (retire_row now reason pending g) <| ag_updated_at := now |>).
  assert (move d (if ag_ownership_release_pending g1 then put_generation g1 d
                  else own_session (ag_session_id g) None (put_generation g1 d))) as Hm.
  { apply move_retire; try done. intros Hx. unfold g1. simpl. unfold pending.
    by rewrite (turn_executing_exists orgID g d Eo), Hx. }
  apply rtc_once. assert (owning g = true) as Hog by (unfold owning; by rewrite Ea).
  pose proof (release_owner_own d (put_generation g1 d) g Hi Hg Hog eq_refl) as Er. rewrite Eo, Eid in Er.
  change (ag_ownership_release_pending g1) with pending in Hm. destruct pending; [done|]. by rewrite Er.
Qed.

Lemma retire_each_evolves reason ids d d' : auto_inv d -> retire_each now orgID reason ids d = Ok d' -> evolves d d'.
Proof.
  revert d. induction ids as [|t ids IH]; simpl; intros d Hi; [intros [= <-]; auto with moves|].
  destruct (GetActiveGeneration _ _ _) as [g|]; [|by apply IH].
  destruct (RetireGeneration _ _ _ _ _) as [[d1 g1]|] eqn:E; [|done]. intros H.
  apply RetireGeneration_evolves in E; [|done]. eapply evolves_trans; [done|]. apply IH; [by eapply evolves_inv|done].
Qed.

Lemma retire_active_evolves t reason d d' b : auto_inv d -> retire_active now orgID t reason d = Ok (d', b) -> evolves d d'.
Proof.
  intros Hi. unfold retire_active. destruct (GetActiveGeneration _ _ _) as [g|]; [|intros [= <- _]; auto with moves].
  destruct (RetireGeneration _ _ _ _ _) as [[d1 g1]|] eqn:E; [intros [= <- _]; by eapply RetireGeneration_evolves|].
  case_match; [|done]. intros [= <- _]. auto with moves.
Qed.
Lemma RetireTerminalTarget_evolves t d d' b : auto_inv d -> RetireTerminalTarget now orgID t d = Ok (d', b) -> evolves d d'.
Proof.
  intros Hi. unfold RetireTerminalTarget. destruct (TerminalLifecycleRetirement _ _ _) as [[reason|]|]; [|intros [= <- _]; auto with moves|done].
  destruct (GetActiveGeneration _ _ _) as [g|]; [|intros [= <- _]; auto with moves].
  destruct (RetireGeneration _ _ _ _ _) as [[d1 g1]|] eqn:E; [intros [= <- _]; by eapply RetireGeneration_evolves|].
  case_match; [|done]. intros [= <- _]. auto with moves.
Qed.
End Retirement.

(** ** Waiting runs *)

Definition marker_outcome (o : AutomationRunOutcomeReason) : bool :=
  match o with
  | AutomationRunOutcomeTurnCompleted | AutomationRunOutcomeAgentFailed
  | AutomationRunOutcomeCancelled | AutomationRunOutcomeAwaitingInput => true
  | _ => false
  end.

Lemma ended_state now o s r : executing (ended now o s r) = false /\ counted (ended now o s r) = marker_outcome o
  /\ unstarted (ended now o s r) = false /\ ar_status (ended now o s r) <> AutomationRunStatusPending.
Proof. by destruct o. Qed.

(** Ending a run that never started, whatever else the statement writes. *)
Lemma end_unstarted_calm r r' : unstarted r = true -> ar_id r' = ar_id r -> ar_org_id r' = ar_org_id r ->
  ar_target_id r' = ar_target_id r -> executing r' = false -> counted r' = false -> unstarted r' = false -> calm_run r r'.
Proof. intros [He Hc]%unstarted_idle. split; rewrite ?He, ?Hc in *; try done; congruence. Qed.

Section Waiting.
Variables (now : time) (orgID : uuid).

Lemma TerminalizeUnstarted_calm id o by' note d : marker_outcome o = false -> calm d (TerminalizeUnstarted now orgID id o by' note d).1.
Proof.
  intros Ho. apply set_runs_calm. intros r _ [_ Hu]%andb_true_iff.
  apply end_unstarted_calm; try reflexivity; [done|by destruct o|by destruct o].
Qed.
Lemma SupersedeWaitingPush_calm t id e d : calm d (SupersedeWaitingPush now orgID t id e d).
Proof.
  apply set_runs_calm. intros r _ Hp. unfold older_push in Hp. reflect_bools.
  by apply end_unstarted_calm.
Qed.
Lemma MarkWaiting_calm id d : calm d (MarkWaiting now orgID id d).1.
Proof.
  apply set_runs_calm. intros r _ [_ Hu]%andb_true_iff. destruct (unstarted_idle r Hu) as [He Hc].
  split; simpl; rewrite ?He, ?Hc; try done; by unfold executing, counted in *.
Qed.
Lemma StampHeadResolution_calm id e res sha d d' : StampHeadResolution now orgID id e res sha d = Ok d' -> calm d d'.
Proof. unfold StampHeadResolution. case_match; [|done]. intros [= <-]. by apply set_runs_calm. Qed.
Lemma settle_candidates_calm id survivor e sha cs d d' : settle_candidates now orgID id survivor e sha cs d = Ok d' -> calm d d'.
Proof.
  revert d. induction cs as [|[c h] cs IH]; cbn [settle_candidates]; intros d; [intros [= <-]; auto with moves|].
  destruct (col_is survivor c); [destruct (c <>? id)|].
  - destruct (StampHeadResolution _ _ _ _ _ _ _) as [d1|] eqn:E; [|done]. intros H.
    eapply calm_trans; [by eapply StampHeadResolution_calm|by apply IH].
  - by apply IH.
  - intros H. eapply calm_trans; [|by apply IH]. by apply TerminalizeUnstarted_calm.
Qed.
Lemma SetAttemptedHead_calm id sha base d d' : SetAttemptedHead now orgID id sha base d = Ok d' -> calm d d'.
Proof. unfold SetAttemptedHead. case_match; [|done]. intros [= <-]. by apply set_generations_calm. Qed.
Lemma ClaimForAutomationTurn_calm id b d d' s : ClaimForAutomationTurn now orgID id b d = Ok (d', s) -> calm d d' /\ s_id s = id
  /\ automation_target_sessions d' = automation_target_sessions d.
Proof.
  unfold ClaimForAutomationTurn. destruct (one_row _ _ _) as [x|] eqn:E; [|done]. intros [= <- <-].
  apply one_row_ok in E as [_ Hp]. unfold is_session in Hp. reflect_bools. split; [by apply set_sessions_calm|done].
Qed.
Lemma ClaimPrimaryForAutomationTurn_calm id d d' th : ClaimPrimaryForAutomationTurn now orgID id d = Ok (d', th) -> calm d d'
  /\ automation_target_sessions d' = automation_target_sessions d.
Proof.
  unfold ClaimPrimaryForAutomationTurn. case_match; [done|]. destruct (one_row _ _ _); [|done]. intros [= <- _]. auto with moves.
Qed.

(** A run that the per-run path takes over is not a turn of its target. *)
Lemma ClaimPendingForPerRun_calm id d : auto_inv d -> calm d (ClaimPendingForPerRun now orgID id d).1.
Proof.
  intros [_ Hi]. apply set_runs_calm. intros r Hr Hp. reflect_bools.
  assert (counted r = false) as Hc.
  { apply not_true_iff_false. intros Hc. by destruct (ri_counted _ _ Hi r Hr Hc). }
  split; simpl; rewrite ?Hc; try done.
Qed.

Lemma runs_column_calm p f d : (forall r, calm_run r ((f r) <| ar_updated_at := now |>)) -> calm d (write_runs now p f d).1.
Proof. intros H. by apply set_runs_calm. Qed.
Lemma MarkCompletedNoop_calm id s d : calm d (MarkCompletedNoop now orgID id s d).1.
Proof.
  apply set_runs_calm. intros r _ Hp. split; try done.
Qed.
Lemma TransitionStatusIf_calm id from to at' s d : to <> AutomationRunStatusPending -> calm d (TransitionStatusIf now orgID id from to at' s d).1.
Proof.
  intros Ht. apply set_runs_calm. intros r _ Hp. split; try done. unfold unstarted. simpl. intros H. by reflect_bools.
Qed.
Lemma SoftDelete_calm id d d' : SoftDelete now orgID id d = Ok d' -> evolves d d'.
Proof.
  unfold SoftDelete. case_match; [|done]. intros [= <-]. eapply calm_then; [apply set_automations_calm|].
  apply evolves_calm, set_runs_calm. intros r _ Hp. split; try done.
Qed.
End Waiting.

(** ** The end of a turn *)

Lemma run_key org id r y : is_run org id r = true -> is_run org id y = true -> ar_id y = ar_id r.
Proof. unfold is_run. intros H H'. reflect_bools. congruence. Qed.

Lemma set_run_put now d p f r : List.NoDup (map ar_id (automation_runs d)) -> In r (automation_runs d) -> p r = true -> ar_id (f r) = ar_id r ->
  (forall y, In y (automation_runs d) -> p y = true -> ar_id y = ar_id r) ->
  set_runs now p f d = put_run ((f r) <| ar_updated_at := now |>) d.
Proof.
  intros Hi Hr Hp Hf Hu. unfold set_runs, put_run.
  by rewrite (update_replace ar_id p (fun r => (f r) <| ar_updated_at := now |>) r).
Qed.

(** Once its turn has ended, a generation has no turn executing. *)
Lemma turn_over runs gens r r' g : runs_inv runs gens -> In r runs -> executing r = true -> turn_in g r = true ->
  same_run r r' -> executing r' = false -> exists_row (fun x => turn_in g x && executing x) (replace_row ar_id r' runs) = false.
Proof.
  intros Hi Hr He Ht Hs He'. apply exists_row_false. intros x [->|[Hx Hne]]%(run_here runs gens r r' Hi Hr Hs).
  - by rewrite He', andb_false_r.
  - apply not_true_iff_false. intros Hp. apply Hne. by eapply turn_unique.
Qed.

Section Ends.
Variables (now : time) (orgID : uuid).

Lemma lock_frame id b d d0 : lockAutomationRunLifecycle now orgID id b d = Ok d0 ->
  calm d d0 /\ automation_runs d0 = automation_runs d /\ automation_target_sessions d0 = automation_target_sessions d
  /\ automation_targets d0 = automation_targets d /\ sessions (plane d0) = sessions (plane d)
  /\ automation_run_results d0 = automation_run_results d.
Proof.
  unfold lockAutomationRunLifecycle. destruct (one_row _ _ _) as [r|]; [|done]. intros [= <-].
  destruct (ar_job_id r); [destruct b|]; (split; [|done]); [apply revoke_calm|apply calm_refl|apply calm_refl].
Qed.

(** The release of the generation whose turn has just ended. *)
Lemma apply_release_evolves d g : auto_inv d -> In g (automation_target_sessions d) -> owning g = true -> ag_org_id g = orgID ->
  exists_row (fun r => turn_in g r && executing r) (automation_runs d) = false ->
  evolves d (applyPendingOwnershipRelease now orgID (ag_session_id g) d).
Proof.
  intros Hi Hg Ho Eo Hno. pose proof (owned_session d g Hi Hg Ho) as Hown. rewrite Eo in Hown.
  assert (forall x, In x (automation_target_sessions d) ->
            release_pending_of orgID (ag_session_id g) d x = true <-> x = g /\ ag_ownership_release_pending g = true) as Hx.
  { intros x Hx. unfold release_pending_of. pose proof (ai_generations _ Hi) as Hgi.
    destruct (gi_owned _ _ _ Hgi g Hg Ho) as (s0 & Hs0 & E1 & E2 & E3). split.
    - intros H. reflect_bools. match goal with H : exists_row _ _ = true |- _ => apply exists_row_true in H as (s & Hs & Hp) end.
      reflect_bools. pose proof (Hown s Hs) as Hsg. unfold is_session, col_is in *. reflect_bools.
      assert (s = s0) as -> by (apply (map_key_inj s_id (sessions (plane d))); [apply Hgi|done|done|congruence]).
      assert (x = g) as -> by (apply (map_key_inj ag_id (automation_target_sessions d)); [apply Hgi|done|done|congruence]). done.
    - intros [-> Hp]. rewrite Hp, Eo. rewrite bool_decide_eq_true_2 by done. apply exists_row_true. exists s0. split; [done|].
      rewrite Hown by done. by apply bool_decide_eq_true. }
  unfold applyPendingOwnershipRelease. destruct (ag_ownership_release_pending g) eqn:Ep.
  - assert (release_pending_of orgID (ag_session_id g) d g = true) as Hpg by (by apply Hx).
    set (g1 := g <| ag_ownership_release_pending := false |> <| ag_updated_at := now |>).
    assert (set_generations now (release_pending_of orgID (ag_session_id g) d) (fun g => g <| ag_ownership_release_pending := false |>) d
            = put_generation g1 d) as ->.
    { unfold set_generations, put_generation.
      rewrite (update_replace ag_id _ (fun x => x <| ag_ownership_release_pending := false |> <| ag_updated_at := now |>) g); try done; [apply Hi|].
      intros y Hy Hpy. apply Hx in Hpy as [-> _]; done. }
    assert (forall s, In s (sessions (plane d)) ->
      is_session orgID (ag_session_id g) s
      && existsb (fun x => col_is (s_automation_owner_generation_id s) x)
           (map ag_id (select (release_pending_of orgID (ag_session_id g) d) (automation_target_sessions d))) = (s_id s ==? ag_session_id g)) as Hs.
    { intros s Hs. rewrite <- (Hown s Hs). destruct (is_session _ _ s); [|done]. cbn [andb]. apply eq_iff_eq_true. rewrite existsb_exists. split.
      - intros (x & (y & <- & [Hy Hpy]%in_filter_iff)%in_map_iff & Hc). by apply Hx in Hpy as [-> _].
      - intros Hc. exists (ag_id g). split; [|done]. apply in_map, in_filter_iff. done. }
    apply rtc_once. unfold set_sessions.
    rewrite (update_ext _ (fun s => s_id s ==? ag_session_id g) _ (fun s => s <| s_automation_owner_generation_id := None |>)); [|exact Hs|done].
    by apply (move_release d g g1).
  - assert (forall x, In x (automation_target_sessions d) -> release_pending_of orgID (ag_session_id g) d x = false) as Hf.
    { intros x Hin. apply not_true_iff_false. intros H. by apply Hx in H as [_ ?]. }
    assert (select (release_pending_of orgID (ag_session_id g) d) (automation_target_sessions d) = []) as ->.
    { destruct (select _ _) as [|x l] eqn:E; [done|]. apply select_first in E as [Hin Hp]. rewrite Hf in Hp; done. }
    eapply calm_then; [|apply evolves_calm, set_sessions_calm].
    + apply set_generations_calm. intros x Hin Hp. rewrite Hf in Hp; done.
    + intros s _ Hp. simpl in Hp. by rewrite andb_false_r in Hp.
Qed.

(** A turn ends without a result; [d3] is what the transaction made of the
    other tables since. *)
Lemma finish_release d0 r r' d3 : auto_inv d0 -> In r (automation_runs d0) -> executing r = true -> ar_org_id r = orgID ->
  same_run r r' -> ar_target_id r' = ar_target_id r -> executing r' = false -> counted r' = false -> unstarted r' = false ->
  evolves (put_run r' d0) d3 -> automation_target_sessions d3 = automation_target_sessions d0 ->
  automation_runs d3 = automation_runs (put_run r' d0) ->
  evolves d0 (applyPendingOwnershipRelease now orgID (default uuid_Nil (ar_session_id r)) d3).
Proof.
  intros Hi Hr He Hor Hs Ht He' Hc' Hu' Hev Eg Er.
  destruct (ri_turn _ _ (ai_runs _ Hi) r Hr He) as (g & Hg & Htn & Ho & Hse & _).
  assert (evolves d0 d3) as Hev0 by (eapply evolves_trans; [apply rtc_once; by eapply move_finish|done]).
  eapply evolves_trans; [exact Hev0|]. rewrite Hse. simpl. apply apply_release_evolves.
  - by eapply evolves_inv.
  - by rewrite Eg.
  - done.
  - apply turn_in_target in Htn as (E & _). congruence.
  - rewrite Er. by eapply (turn_over _ _ r r' g (ai_runs _ Hi)).
Qed.

(** The same for a turn that is counted. *)
Lemma complete_release d0 r r' g g' d3 : auto_inv d0 -> In r (automation_runs d0) -> executing r = true -> ar_org_id r = orgID ->
  same_run r r' -> ar_target_id r' = ar_target_id r -> ar_target_generation r' = ar_target_generation r ->
  executing r' = false -> counted r' = true -> ar_status r' <> AutomationRunStatusPending ->
  In g (automation_target_sessions d0) -> turn_in g r = true -> same_generation g g' ->
  ag_status g' = ag_status g -> ag_ownership_release_pending g' = ag_ownership_release_pending g -> ag_turn_count g' = ag_turn_count g + 1 ->
  evolves (put_generation g' (put_run r' d0)) d3 ->
  automation_target_sessions d3 = automation_target_sessions (put_generation g' d0) ->
  automation_runs d3 = automation_runs (put_run r' d0) ->
  evolves d0 (applyPendingOwnershipRelease now orgID (default uuid_Nil (ar_session_id r)) d3).
Proof.
  intros Hi Hr He Hor Hs Ht Hgn He' Hc' Hst Hg Htn Hsg Hsa Hsp Htc Hev Eg Er.
  assert (evolves d0 d3) as Hev0 by (eapply evolves_trans; [apply rtc_once; by eapply (move_complete d0 r r' g g')|done]).
  destruct (ri_turn _ _ (ai_runs _ Hi) r Hr He) as (x & Hx & Htx & Ho & Hse & _).
  assert (x = g) as -> by (by eapply (generation_unique _ _ _ x g r (ai_generations _ Hi))).
  eapply evolves_trans; [exact Hev0|]. rewrite Hse. simpl.
  assert (ag_session_id g = ag_session_id g') as -> by (symmetry; apply Hsg).
  apply turn_in_target in Htn as Htr. destruct Htr as (E & _). apply apply_release_evolves.
  - by eapply evolves_inv.
  - rewrite Eg. apply (in_replace ag_id g g'); [apply Hi|done|apply Hsg|by left].
  - unfold owning in *. by rewrite Hsa, Hsp.
  - destruct Hsg as (_ & -> & _). congruence.
  - rewrite Er. apply exists_row_false. intros y Hy. rewrite (turn_in_same g g' y Hsg).
    by apply (exists_row_none _ _ y (turn_over _ _ r r' g (ai_runs _ Hi) Hr He Htn Hs He')).
Qed.

Lemma FailRetriesExhausted_evolves id stale d d' o : auto_inv d -> FailRetriesExhausted now orgID id stale d = Ok (d', o) -> evolves d d'.
Proof.
  intros Hi. unfold FailRetriesExhausted.
  destruct (lockAutomationRunLifecycle _ _ _ _ _) as [d0|] eqn:El; [|intros [<- _]%ok_pair; auto with moves].
  apply lock_frame in El as (Hc & _). assert (auto_inv d0) as Hi0 by (by eapply calm_inv).
  destruct (select _ _) as [|r l] eqn:Es; [intros [<- _]%ok_pair; by apply evolves_calm|].
  apply select_first in Es as [Hr Hp]. unfold turn_of. intros [<- _]%ok_pair. eapply calm_then; [exact Hc|].
  eapply then_calm; [|apply wake_calm].
  rewrite (set_run_put now d0 _ _ r (ri_ids _ _ (ai_runs _ Hi0)) Hr Hp); [|done|intros y _ Hy; reflect_bools; by eapply run_key].
  unfold abandoned in *. reflect_bools.
  set (r' := _ <| ar_updated_at := now |>). eapply (finish_release d0 r r'); try done.
  - unfold is_run in *. by reflect_bools.
  - eapply calm_then; [|eapply evolves_calm, set_threads_calm]. by apply set_sessions_calm.
Qed.

Lemma CompleteExecutingPreflight_evolves id tok o note d d' t : auto_inv d ->
  CompleteExecutingPreflight now orgID id tok o note d = Ok (d', t) -> evolves d d'.
Proof.
  intros Hi. unfold CompleteExecutingPreflight. destruct (negb (preflight_outcome o)) eqn:Epo; [done|]. case_match; [done|].
  destruct (lockAutomationRunLifecycle _ _ _ _ _) as [d0|] eqn:El; [|intros [<- _]%ok_pair; auto with moves].
  apply lock_frame in El as (Hc & _). assert (auto_inv d0) as Hi0 by (by eapply calm_inv).
  destruct (select _ _) as [|r l] eqn:Es; [intros [<- _]%ok_pair; by apply evolves_calm|].
  apply select_first in Es as [Hr Hp]. unfold turn_of. intros [<- _]%ok_pair. eapply calm_then; [exact Hc|].
  rewrite (set_run_put now d0 _ _ r (ri_ids _ _ (ai_runs _ Hi0)) Hr Hp); [|done|intros y _ Hy; unfold attempt_fence in *; reflect_bools; by eapply run_key].
  unfold attempt_fence in Hp. reflect_bools.
  set (r' := _ <| ar_updated_at := now |>). eapply (finish_release d0 r r'); try done.
  - unfold is_run in *. by reflect_bools.
  - by destruct o.
  - by destruct o.
  - eapply then_calm; [|apply wake_calm]. eapply then_calm; [|apply set_messages_calm].
    eapply calm_then; [|eapply evolves_calm, set_threads_calm]. by apply set_sessions_calm.
Qed.

Lemma CompleteFromMarker_evolves id job tok sum d d' c : auto_inv d ->
  CompleteFromMarker now orgID id job tok sum d = Ok (d', c) -> evolves d d'.
Proof.
  intros Hi. unfold CompleteFromMarker.
  destruct (lockAutomationRunLifecycle _ _ _ _ _) as [d0|] eqn:El; [|intros [<- _]%ok_pair; auto with moves].
  apply lock_frame in El as (Hc & _). assert (auto_inv d0) as Hi0 by (by eapply calm_inv).
  destruct (select _ (automation_runs d0)) as [|r l] eqn:Es; [intros [<- _]%ok_pair; by apply evolves_calm|].
  destruct (select _ (automation_run_results d0)) as [|m lm] eqn:Em; [intros [<- _]%ok_pair; by apply evolves_calm|].
  destruct (negb _) eqn:Ef; [intros [<- _]%ok_pair; by apply evolves_calm|]. unfold turn_of.
  destruct (one_row _ _ _) as [g|] eqn:Eg; [|done]. intros [<- _]%ok_pair. eapply calm_then; [exact Hc|].
  apply select_first in Es as [Hr [Hir He]%andb_true_iff]. apply negb_false_iff in Ef. eapply then_calm; [|apply wake_calm].
  destruct (ri_turn _ _ (ai_runs _ Hi0) r Hr) as (x & Hx & Htx & Ho & Hse & _); [done|].
  pose proof Htx as (E1 & E2 & E3)%turn_in_target. assert (ar_org_id r = orgID) as Eor by (unfold is_run in *; by reflect_bools).
  rewrite (set_run_put now d0 _ _ r (ri_ids _ _ (ai_runs _ Hi0)) Hr Ef); [|done|intros y _ Hy; unfold completion_fence in Hy; reflect_bools; by eapply run_key].
  apply one_row_ok in Eg as [Hg Hgn]. rewrite E2, E3 in *. cbn [from_option Datatypes.id] in *.
  assert (forall y, In y (automation_target_sessions d0) -> generation_numbered orgID (ag_target_id x) (ag_generation x) y = true -> y = x) as Hux.
  { intros y Hy Hn. unfold generation_numbered in Hn. apply andb_true_iff in Hn as [Hn Hz%Z.eqb_eq]. reflect_bools.
    apply (gi_numbers _ _ _ (ai_generations _ Hi0)); congruence. }
  assert (g = x) as -> by (by apply Hux).
  set (r' := _ <| ar_updated_at := now |>). set (reviewed := _ && rr_review_complete m).
  set (g' := (count_turn now id reviewed (run_head r) (ar_head_epoch r) x) <| ag_updated_at := now |>).
  assert (set_generations now (generation_numbered orgID (ag_target_id x) (ag_generation x))
            (count_turn now id reviewed (run_head r) (ar_head_epoch r)) (put_run r' d0) = put_generation g' (put_run r' d0)) as ->.
  { unfold set_generations, put_generation.
    rewrite (update_replace ag_id _ (fun y => (count_turn now id reviewed (run_head r) (ar_head_epoch r) y) <| ag_updated_at := now |>) x);
      [done|apply Hi0|done|done|done|]. intros y Hy Hn. by rewrite (Hux y Hy Hn). }
  assert (counted r' = true) as Hcr by (unfold r'; by destruct (rr_outcome m)).
  assert (ar_status r' <> AutomationRunStatusPending) as Hsr by (unfold r'; by destruct (rr_outcome m)).
  eapply (complete_release d0 r r' x g'); try done.
  eapply calm_then; [|eapply evolves_calm, set_threads_calm]. by apply set_sessions_calm.
Qed.
End Ends.
