(* ===== verification/AutomationOps.v ===== *)
(** * Every transaction of automations is a sequence of moves

    [auto_op] lists the transactions of the automation packages; [auto_step]
    adds what the rest of the program does.  From a state that satisfies the
    invariant each of them is a sequence of moves ([op_evolves]), so the
    invariant holds in every state the system reaches. *)

From S2P Require Import Prelude GoRuntime Sql Tables JobStore ExecutorStore JobLifecycle JobSteps Plane Automation AutomationStore.
From S2P Require Import AutomationRunStore AutomationCompletion AutomationService AutomationCompleter AutomationMoves AutomationSteps.
From stdpp Require Import base option list relations strings pretty gmap.

Open Scope string_scope.
Open Scope Z_scope.

(** ** Arrival *)

Section Arrive.
Variables (now wall : time) (automation : Automation) (req : GitHubEventTriggerRequest) (id : uuid).
Let orgID := au_org_id automation.

(** The run has no target yet. *)
Definition unattached (d : AutoDB) : Prop := exists r, In r (automation_runs d) /\ is_run orgID id r = true
  /\ ar_target_id r = None /\ executing r = false /\ counted r = false.

Lemma calm_unattached d d' : calm d d' -> unattached d -> unattached d'.
Proof.
  intros [Hr _ _ _ _] (r & Hin & Hp & Ht & He & Hc). destruct (Forall2_old _ _ _ _ Hr Hin) as (r' & Hin' & H). exists r'.
  unfold is_run in *. destruct H as [E1 E2 E3 E4 E5 _ _ _ _]. rewrite E1, E2, E3, E4, E5. done.
Qed.
Lemma calm_waiting t d d' : calm d d' -> CountWaiting orgID t d' <= CountWaiting orgID t d.
Proof.
  intros [Hr _ _ _ _]. eapply Forall2_count_le; [|exact Hr]. intros r r' Hc Hp. reflect_bools.
  rewrite <- (calm_run_of orgID t _ _ Hc). apply andb_true_iff. split; [done|]. by apply (cr_unstarted _ _ Hc).
Qed.

Lemma RecordArrival_put arrival d d1 r : auto_inv d -> In r (automation_runs d) -> is_run orgID id r = true ->
  RecordArrival now orgID id arrival d = Ok d1 -> exists r1, d1 = put_run r1 d /\ same_run r r1
    /\ ar_target_id r1 = Some (aa_TargetID arrival) /\ executing r1 = executing r /\ counted r1 = counted r /\ unstarted r1 = unstarted r.
Proof.
  intros Hi Hr Hp. unfold RecordArrival. case_match; [|done]. intros <-%ok_inj.
  rewrite (set_run_put now d _ _ r (ri_ids _ _ (ai_runs _ Hi)) Hr Hp); [|done|intros y _ Hy; by eapply run_key].
  eexists. by split.
Qed.

Lemma arrive_waits arrival d d1 : auto_inv d -> unattached d -> CountWaiting orgID (aa_TargetID arrival) d < automationTargetWaitingCap ->
  RecordArrival now orgID id arrival d = Ok d1 -> evolves d d1.
Proof.
  intros Hi (r & Hr & Hp & Ht & He & Hc) Hw Ha.
  destruct (RecordArrival_put _ _ _ r Hi Hr Hp Ha) as (r1 & -> & Hs & Ht1 & He1 & Hc1 & _).
  apply rtc_once, (move_attach d r r1 (aa_TargetID arrival)); try done; try congruence.
  assert (ar_org_id r = orgID) as -> by (unfold is_run in Hp; by reflect_bools). done.
Qed.

Lemma arrive_ends arrival o note d d' b : auto_inv d -> unattached d -> marker_outcome o = false ->
  arrival_ends now automation id arrival o note d = Ok (d', b) -> evolves d d'.
Proof.
  intros Hi (r & Hr & Hp & Ht & He & Hc) Ho. unfold arrival_ends. fold orgID.
  destruct (RecordArrival _ _ _ _ _) as [d1|] eqn:Ea; [|done]. intros [<- _]%ok_pair.
  destruct (RecordArrival_put _ _ _ r Hi Hr Hp Ea) as (r1 & -> & Hs & Ht1 & He1 & Hc1 & Hu1).
  destruct (unstarted r) eqn:Hu.
  - assert (In r1 (automation_runs (put_run r1 d))) as Hr1.
    { apply (in_replace ar_id r r1 (automation_runs d)); [apply Hi|done|apply Hs|by left]. }
    assert (is_run orgID id r1 = true) as Hp1 by (unfold is_run in *; destruct Hs as [-> ->]; done).
    unfold TerminalizeUnstarted, write_runs. cbn [fst].
    rewrite (set_run_put now (put_run r1 d) _ _ r1); try done.
    + set (r2 := _ <| ar_updated_at := now |>). assert (put_run r2 (put_run r1 d) = put_run r2 d) as ->.
      { change (put_run r2 (put_run r1 d)) with (d <| automation_runs := replace_row ar_id r2 (replace_row ar_id r1 (automation_runs d)) |>).
        by rewrite replace_replace. }
      apply rtc_once, (move_attach d r r2 (aa_TargetID arrival)); try done; by destruct o.
    + simpl. rewrite replace_keys. apply Hi.
    + by rewrite Hp1, Hu1.
    + intros y _ Hy. reflect_bools. by eapply run_key.
  - eapply then_calm; [|by apply TerminalizeUnstarted_calm].
    apply rtc_once, (move_attach d r r1 (aa_TargetID arrival)); try done; congruence.
Qed.

Lemma arrival_lifecycle_calm t d d' state : arrival_lifecycle now automation req t d = Ok (d', state) -> calm d d'.
Proof.
  unfold arrival_lifecycle. fold orgID.
  assert (forall st d1 st1, (let? (d1, applied) := SetLifecycleObserved now orgID (at_id t) st (tq_PullRequestUpdatedAt req) d in
            Ok (d1, if applied : bool then st else at_lifecycle_state t)) = Ok (d1, st1) -> calm d d1) as Htr.
  { intros st d1 st1. destruct (SetLifecycleObserved _ _ _ _ _ _) as [[d2 b]|] eqn:E; [|done]. intros [<- _]%ok_pair.
    by eapply SetLifecycleObserved_calm. }
  destruct (if _ && _ then _ else _) as [[d1 st1]|] eqn:E; [|done].
  assert (calm d d1) as Hc.
  { destruct ((tq_PullRequestAction req ==? githubActionReopened) && _); [by eapply Htr|].
    destruct ((tq_Event req ==? AutomationGitHubEventPullRequestMerged) && _); [by eapply Htr|].
    apply ok_pair in E as [<- _]. apply calm_refl. }
  clear E. case_match; [|intros [<- _]%ok_pair; done].
  destruct (SetLifecycleObserved _ _ _ _ _ _) as [[d2 b]|] eqn:E; [|done]. intros [<- _]%ok_pair.
  eapply calm_trans; [done|by eapply SetLifecycleObserved_calm].
Qed.

Lemma arrival_head_evolves t d d' b : auto_inv d -> unattached d -> CountWaiting orgID (at_id t) d < automationTargetWaitingCap ->
  arrival_head now wall automation req id t d = Ok (d', b) -> evolves d d'.
Proof.
  intros Hi Hun Hw. unfold arrival_head. fold orgID.
  assert (forall epoch res d0, calm d d0 -> forall d1, RecordArrival now orgID id (MkArrival (at_id t) (tq_PullRequestAction req)
            (tq_PullRequestUpdatedAt req) epoch res) d0 = Ok d1 -> evolves d d1) as Hrec.
  { intros epoch res d0 Hc d1 Ha. eapply calm_then; [exact Hc|]. eapply arrive_waits; [by eapply calm_inv|by eapply calm_unattached| |exact Ha].
    pose proof (calm_waiting (at_id t) d d0 Hc). simpl. lia. }
  set (newer := carriesObservableHead req && _). set (same := (tq_HeadSHA req <>? "") && _).
  destruct (newer && negb same); [|destruct same; [|destruct (isPushArrival req && _); [|destruct (isPushArrival req)]]].
  - destruct (AdoptHead _ _ _ _ _ _) as [[d1 e]|] eqn:E; [|done]. apply AdoptHead_calm in E.
    destruct (RecordArrival _ _ _ _ _) as [d2|] eqn:Er; [|done]. intros [<- _]%ok_pair. eapply Hrec; [|exact Er].
    destruct (isPushArrival req); [|done]. eapply calm_trans; [exact E|apply SupersedeWaitingPush_calm].
  - destruct (match tq_PullRequestUpdatedAt req with Some u => _ | None => Ok d end) as [d1|] eqn:E; [|done].
    destruct (RecordArrival _ _ _ _ _) as [d2|] eqn:Er; [|done]. intros [<- _]%ok_pair. eapply Hrec; [|exact Er].
    destruct (tq_PullRequestUpdatedAt req); [case_match|]; try (apply ok_inj in E as <-; apply calm_refl).
    by eapply TouchObservedHead_calm.
  - by apply arrive_ends.
  - destruct (MarkHeadResolutionPending _ _ _ _ _) as [d1|] eqn:E; [|done]. apply MarkHeadResolutionPending_calm in E.
    destruct (RecordArrival _ _ _ _ _) as [d2|] eqn:Er; [|done]. intros [<- _]%ok_pair.
    eapply then_calm; [by eapply Hrec|apply MarkWaiting_calm].
  - destruct (RecordArrival _ _ _ _ _) as [d2|] eqn:Er; [|done]. intros [<- _]%ok_pair. by eapply Hrec; [apply calm_refl|].
Qed.

Lemma recordTargetArrival_evolves fresh d d' b : auto_inv d -> unattached d ->
  recordTargetArrival now wall automation req fresh id d = Ok (d', b) -> evolves d d'.
Proof.
  intros Hi Hun. unfold recordTargetArrival. fold orgID. case_match; [intros [<- _]%ok_pair; auto with moves|].
  destruct (LockOrCreate _ _ _ _ _ _ _) as [[d1 t]|] eqn:El; [|done]. apply LockOrCreate_calm in El as (Hc1 & _).
  destruct (arrival_lifecycle _ _ _ _ _) as [[d2 state]|] eqn:Ea; [|done]. apply arrival_lifecycle_calm in Ea.
  assert (calm d d2) as Hc by (by eapply calm_trans). assert (auto_inv d2) as Hi2 by (by eapply calm_inv).
  assert (unattached d2) as Hun2 by (by eapply calm_unattached).
  case_match; [|case_match eqn:Ecap]; intros Hend; (eapply calm_then; [exact Hc|]).
  - by eapply arrive_ends; [..|exact Hend].
  - by eapply arrive_ends; [..|exact Hend].
  - eapply arrival_head_evolves; [done|done| |exact Hend]. by reflect_bools.
Qed.
End Arrive.

Lemma triggerAutomation_evolves now wall automation req fr ft fj goal dup d d' : auto_inv d ->
  triggerAutomation now wall automation req fr ft fj goal dup d = Ok d' -> evolves d d'.
Proof.
  intros Hi. unfold triggerAutomation, CreateRunInTx. destruct (dup || _) eqn:Ed; [intros <-%ok_inj; auto with moves|].
  set (r := new_run _ _ _ _ _ _). set (d1 := d <| automation_runs := _ |>). cbn [negb].
  apply orb_false_iff in Ed as [_ Hf].
  assert (move d d1) as Hm.
  { apply move_create; try done. intros (x & E & Hx)%in_map_iff. apply (exists_row_none _ _ x Hf) in Hx. simpl in E.
    by rewrite E, bool_decide_eq_true_2 in Hx. }
  assert (auto_inv d1) as Hi1 by (by eapply move_inv).
  assert (unattached automation fr d1) as Hun.
  { exists r. split; [apply in_app_iff; right; by left|]. split; [|done]. unfold is_run. simpl. by rewrite !bool_decide_eq_true_2. }
  destruct (recordTargetArrival _ _ _ _ _ _ _) as [[d2 b]|] eqn:Ea; [|done].
  assert (evolves d d2) as He by (eapply rtc_l; [exact Hm|by eapply recordTargetArrival_evolves]).
  case_match; [by intros <-%ok_inj|].
  destruct (Enqueue _ _ _ _ _ _ _ _ _) as [[p j]|] eqn:Eq; [|done]. intros <-%ok_inj.
  eapply then_calm; [done|by eapply enqueue_calm].
Qed.

(** ** Dispatch *)

Lemma observe_lookup_calm now orgID t id head d d' e b : observe_lookup now orgID t id head d = Ok (d', e, b) -> calm d d'.
Proof.
  unfold observe_lookup. case_match.
  - destruct (AdoptHead _ _ _ _ _ _) as [[d1 e1]|] eqn:E; [|done]. intros [[<- _]%pair_eq _]%ok_pair.
    eapply calm_trans; [by eapply AdoptHead_calm|apply SupersedeWaitingPush_calm].
  - destruct (hi_UpdatedAt head); [|intros [[<- _]%pair_eq _]%ok_pair; apply calm_refl].
    case_match; [|intros [[<- _]%pair_eq _]%ok_pair; apply calm_refl].
    destruct (TouchObservedHead _ _ _ _ _ _) as [d1|] eqn:E; [|done]. intros [[<- _]%pair_eq _]%ok_pair.
    by eapply TouchObservedHead_calm.
Qed.

(** Whatever head it settles on, resolving one is bookkeeping, and the only
    outcome it ends a run with is being superseded. *)
Lemma resolveHead_calm now wall orgID t run current d d' res : resolveHead now wall orgID t run current d = Ok (d', res) ->
  calm d d' /\ (forall o, hr_terminal res = Some o -> o = AutomationRunOutcomeSuperseded).
Proof.
  assert (forall out, hr_terminal out = None -> Ok (d, out) = Ok (d', res) ->
            calm d d' /\ forall o, hr_terminal res = Some o -> o = AutomationRunOutcomeSuperseded) as Hkeep.
  { intros out Hn [<- <-]%ok_pair. split; [apply calm_refl|]. congruence. }
  unfold resolveHead. case_match; [by apply Hkeep|].
  set (out := match ar_resolved_head_sha run with Some h => _ | None => _ end).
  assert (hr_terminal out = None) as Ho by (unfold out; by repeat case_match).
  case_match; [by apply Hkeep|]. destruct current as [head|]; [|case_match; by apply Hkeep].
  destruct (observe_lookup _ _ _ _ _ _) as [[[d1 e] adopted]|] eqn:E; [|done]. apply observe_lookup_calm in E.
  case_match; [intros [<- <-]%ok_pair; split; [done|simpl; congruence]|].
  case_match; [|intros [<- <-]%ok_pair; split; [done|simpl; congruence]].
  destruct (settle_candidates _ _ _ _ _ _ _ _) as [d2|] eqn:Es; [|done]. apply settle_candidates_calm in Es.
  destruct (ClearHeadResolutionPending _ _ _ _) as [d3|] eqn:Ec; [|done]. apply ClearHeadResolutionPending_calm in Ec.
  assert (calm d d3) by (eapply calm_trans; [done|by eapply calm_trans]).
  case_match; intros [<- <-]%ok_pair; (split; [done|]); simpl; congruence.
Qed.

Section Dispatching.
Variables (now wall : time) (maxAge : duration) (sizeLimit : Z).
Variables (ids : AutomationService.Fresh) (inp : DispatchInput) (current : lookupResult).
Let orgID := ar_org_id (di_Run inp).
Let runID := ar_id (di_Run inp).

Lemma create_session_calm automation user d d' : create_session now ids inp automation user d = Ok d' ->
  calm d d' /\ automation_target_sessions d' = automation_target_sessions d
  /\ (forall s, In s (sessions (plane d')) -> s_id s = f_session ids -> s_automation_owner_generation_id s = None).
Proof.
  unfold create_session. case_match eqn:E; [done|]. intros <-%ok_inj. apply orb_false_iff in E as [Hs _].
  assert (forall s, In s (sessions (plane d)) -> s_id s <> f_session ids) as Hn.
  { intros s Hin Hid. apply (exists_row_none _ _ s Hs) in Hin. by rewrite Hid, bool_decide_eq_true_2 in Hin. }
  split; [|split; [done|]].
  - calm_at. simpl. split; [|by apply quiet_environment]. eexists _, [_]. split; [done|].
    split; [apply Forall2_same; auto with plane|]. split; [by repeat constructor|]. intros Hnd.
    rewrite map_app. apply List.NoDup_app; [done|repeat constructor; auto|]. intros x Hx [<-|[]]. simpl in Hx.
    apply in_map_iff in Hx as (s & Hid & Hin). by apply (Hn s Hin).
  - simpl. intros s [Hin|[<-|[]]]%in_app_iff Hid; [by destruct (Hn s Hin)|done].
Qed.

Lemma InsertGeneration_evolves fresh t sid d d' g : auto_inv d ->
  (forall s, In s (sessions (plane d)) -> s_id s = sid -> s_automation_owner_generation_id s = None) ->
  InsertGeneration now orgID fresh t sid d = Ok (d', g) ->
  evolves d d' /\ In g (automation_target_sessions d') /\ ag_status g = AutomationTargetSessionStatusActive
  /\ ag_org_id g = orgID /\ ag_target_id g = t /\ ag_session_id g = sid /\ ag_turn_count g = 0.
Proof.
  intros Hi Hfree. unfold InsertGeneration. destruct (write_target _ _ _ _ _) as [d1|] eqn:Ew; [|done].
  assert (calm d d1) as Hc by (by eapply write_target_calm; [|exact Ew]).
  apply write_target_ok in Ew as [E1 _]. assert (plane d1 = plane d) as Ep by (by rewrite E1).
  assert (auto_inv d1) as Hi1 by (by eapply calm_inv).
  destruct (GetTargetByID _ _ _) as [tr|] eqn:Et; [|done]. apply one_row_ok in Et as [Htr Hpt].
  case_match eqn:Es; [done|]. apply negb_false_iff, exists_row_true in Es as (s & Hs & Hps).
  case_match eqn:Ecf; [done|]. intros [<- <-]%ok_pair.
  set (gn := new_generation now orgID fresh t (at_active_generation tr) sid). unfold is_target, is_session in Hpt, Hps. reflect_bools.
  assert (forall x, In x (automation_target_sessions d1) -> generation_conflict orgID fresh t (at_active_generation tr) x = false) as Hno
    by (intros x Hx; by apply (exists_row_none _ _ x Ecf)).
  assert (move d1 (own_session (s_id s) (Some (ag_id gn)) (d1 <| automation_target_sessions := (automation_target_sessions d1 ++ [gn])%list |>))) as Hm.
  { apply (move_generation d1 gn s tr); try done.
    - intros (x & Ex & Hx)%in_map_iff. specialize (Hno x Hx). unfold generation_conflict in Hno. simpl in Ex.
      by rewrite Ex, bool_decide_eq_true_2 in Hno.
    - apply exists_row_false. intros x Hx. specialize (Hno x Hx). unfold generation_conflict in Hno. reflect_bools.
      simpl. by apply orb_false_iff.
    - apply Hfree; [by rewrite <- Ep|done]. }
  split; [|split; [simpl; apply in_app_iff; right; by left|done]].
  eapply calm_then; [exact Hc|]. apply rtc_once. unfold own_session in Hm. unfold set_sessions. simpl in Hm |- *.
  rewrite (update_ext _ (fun x => s_id x ==? s_id s) _ (fun x => x <| s_automation_owner_generation_id := Some fresh |>)); [exact Hm| |done].
  intros x Hx. unfold is_session. match goal with H : s_id s = sid |- _ => rewrite H end. case_bool_decide; [|done]. simpl.
  apply bool_decide_eq_true. assert (x = s) as -> by (apply (map_key_inj s_id (sessions (plane d1))); [apply Hi1|done|done|congruence]). done.
Qed.

(** The reservation of a waiting run as a turn of an active generation. *)
Lemma ReserveForExecution_evolves v g d d' : auto_inv d -> In g (automation_target_sessions d) ->
  ag_status g = AutomationTargetSessionStatusActive -> ag_turn_count g < AutomationTurnLimit -> ag_org_id g = orgID ->
  rv_TargetID v = ag_target_id g -> rv_TargetGeneration v = ag_generation g -> rv_SessionID v = ag_session_id g ->
  ReserveForExecution now orgID runID v d = Ok (d', true) -> evolves d d'.
Proof.
  intros Hi Hg Ha Hl Eo Et En Es. unfold ReserveForExecution.
  destruct (negb (match rv_ContinuationReason v with Some _ => _ | None => _ end)); [done|].
  destruct (exists_row _ _ && exists_row _ _) eqn:Ex; [done|].
  intros [<- Hp]%ok_pair. rewrite Hp in Ex. cbn [andb] in Ex. apply exists_row_true in Hp as (r & Hr & Hp).
  unfold write_runs. cbn [fst].
  rewrite (set_run_put now d _ _ r (ri_ids _ _ (ai_runs _ Hi)) Hr Hp); [|done|intros y _ Hy; reflect_bools; by eapply run_key].
  set (r' := _ <| ar_updated_at := now |>). apply andb_true_iff in Hp as [Hp Hu].
  apply rtc_once, (move_reserve d r r' g); try done.
  - unfold turn_in, run_of, col_is, r'. simpl. rewrite Et, En, Eo. unfold is_run in Hp. reflect_bools. by rewrite !bool_decide_eq_true_2.
  - unfold r'. simpl. by rewrite Es.
  - apply exists_row_false. intros x Hx. apply (exists_row_none _ _ x Ex) in Hx. rewrite Et in Hx. rewrite Eo.
    destruct (run_of orgID (ag_target_id g) x); [|done]. simpl in *. destruct (executing x) eqn:He; [|done].
    destruct (executing_not x He) as [_ Hnu]. by rewrite Hnu, andb_false_r in Hx.
Qed.

Lemma reserve_turn_evolves t g threadID turn jobType goal previous mode reason resolved base d d' o : auto_inv d ->
  In g (automation_target_sessions d) -> ag_status g = AutomationTargetSessionStatusActive -> ag_turn_count g < AutomationTurnLimit ->
  ag_org_id g = orgID -> ag_target_id g = at_id t ->
  reserve_turn now ids inp t g (ag_session_id g) threadID turn jobType goal previous mode reason resolved base d = Ok (d', o) -> evolves d d'.
Proof.
  intros Hi Hg Ha Hl Eo Et. unfold reserve_turn. fold orgID runID.
  set (d1 := d <| plane := _ |>). assert (calm d d1) as H1 by apply set_messages_calm.
  destruct (SetAttemptedHead _ _ _ _ _ _) as [d2|] eqn:E2; [|done]. apply SetAttemptedHead_calm in E2.
  destruct (Enqueue _ _ _ _ _ _ _ _ _) as [[p j]|] eqn:E3; [|done]. apply enqueue_calm in E3.
  destruct (if _ ==? _ then _ else Ok j) as [jobID|]; [|done].
  destruct (ReserveForExecution _ _ _ _ _) as [[d4 b]|] eqn:E4; [|done]. destruct b; [|done]. intros [<- _]%ok_pair.
  assert (calm d (d2 <| plane := p |>)) as Hc by (eapply calm_trans; [done|by eapply calm_trans]).
  eapply calm_then; [exact Hc|].
  destruct (Forall2_old _ _ _ _ (calm_generations _ _ Hc) Hg) as (g' & Hg' & C).
  eapply (ReserveForExecution_evolves _ g'); [by eapply calm_inv|done|..|exact E4]; destruct C; simpl; congruence.
Qed.

Lemma decide_continues automation template user sha base gen ses push mode reason retire :
  AutomationService.decide wall maxAge sizeLimit automation template user sha base gen ses push = decisionProceed mode reason retire ->
  mode <> AutomationRunContinuationFresh -> retire = None /\ forall g, gen = Some g -> ag_turn_count g < AutomationTurnLimit.
Proof.
  unfold AutomationService.decide, freshDecision, retireDecision, reconstructDecision, freshDecision. intros H Hm.
  repeat case_match; simplify_eq; (split; [done|]); intros g0 [= ->]; by reflect_bools.
Qed.
Lemma decide_skips automation template user sha base gen ses push o note :
  AutomationService.decide wall maxAge sizeLimit automation template user sha base gen ses push = decisionSkip o note -> o = AutomationRunOutcomeDuplicateHead.
Proof. unfold AutomationService.decide, freshDecision, retireDecision, reconstructDecision, freshDecision. intros H. repeat case_match; by simplify_eq. Qed.

Lemma start_turn_evolves d0 automation user t gen mode reason retire resolved base d d' o : auto_inv d0 -> evolves d0 d ->
  (forall g, gen = Some g -> In g (automation_target_sessions d) /\ ag_status g = AutomationTargetSessionStatusActive
     /\ ag_org_id g = orgID /\ ag_target_id g = at_id t) ->
  (mode <> AutomationRunContinuationFresh -> retire = None /\ forall g, gen = Some g -> ag_turn_count g < AutomationTurnLimit) ->
  start_turn now ids inp d0 automation user t gen mode reason retire resolved base d = Ok (d', o) -> evolves d0 d'.
Proof.
  intros Hi0 Hev Hgen Hmode. assert (auto_inv d) as Hi by (by eapply evolves_inv). unfold start_turn. fold orgID runID.
  destruct (match gen with Some g => _ | None => Ok d end) as [d1|] eqn:E1; [|done].
  assert (evolves d d1) as Hev1.
  { destruct gen as [g|], retire as [why|]; try (apply ok_inj in E1 as <-; auto with moves).
    destruct (RetireGeneration _ _ _ _ _) as [[d2 g2]|] eqn:Er; [|done]. apply ok_inj in E1 as <-. by eapply RetireGeneration_evolves. }
  assert (auto_inv d1) as Hi1 by (by eapply evolves_inv).
  assert (evolves d0 d1) as Hev01 by (by eapply evolves_trans).
  destruct (decide (mode = AutomationRunContinuationFresh)) as [->|Hm].
  - destruct (create_session _ _ _ _ _ _) as [d2|] eqn:E2; [|done]. apply create_session_calm in E2 as (Hc2 & _ & Hfree).
    assert (auto_inv d2) as Hi2 by (by eapply calm_inv).
    destruct (InsertGeneration _ _ _ _ _ _) as [[d3 gn]|] eqn:E3; [|done].
    apply InsertGeneration_evolves in E3 as (Hev3 & Hgn & Ha & Eo & Et & Es & Ez); [|done|done].
    assert (auto_inv d3) as Hi3 by (by eapply evolves_inv).
    destruct (GetActiveGeneration _ _ _) as [g|] eqn:E4; [|done]. apply one_row_ok in E4 as [Hg Hp].
    unfold active_generation_of in Hp. reflect_bools.
    assert (g = gn) as -> by (apply (gi_active _ _ _ (ai_generations _ Hi3)); congruence). rewrite <- Es.
    intros Hend. eapply evolves_trans; [exact Hev01|]. eapply calm_then; [exact Hc2|]. eapply evolves_trans; [exact Hev3|].
    eapply reserve_turn_evolves; [done|exact Hgn|done|by rewrite Ez|done|done|exact Hend].
  - destruct (Hmode Hm) as [-> Hlim]. destruct gen as [g|]; [|by destruct mode].
    apply ok_inj in E1 as <-. destruct (Hgen g eq_refl) as (Hg & Ha & Eo & Et).
    assert (match ClaimForAutomationTurn now orgID (ag_session_id g) true d with
            | Err _ => wait now inp d
            | Ok (d2, s) =>
                match ClaimPrimaryForAutomationTurn now orgID (s_id s) d2 with
                | Err _ => wait now inp d0
                | Ok (d3, th) =>
                    reserve_turn now ids inp t g (s_id s) (th_id th) (s_current_turn s + 1) "continue_session" (ar_goal_snapshot (di_Run inp))
                      (baselineHead g s th mode) mode reason resolved base d3
                end
            end = Ok (d', o) -> evolves d0 d') as Hgo; [|by destruct mode].
    destruct (ClaimForAutomationTurn _ _ _ _ _) as [[d2 s]|] eqn:E2.
    + apply ClaimForAutomationTurn_calm in E2 as (Hc2 & Es & Eg2). rewrite Es.
      destruct (ClaimPrimaryForAutomationTurn _ _ _ _) as [[d3 th]|] eqn:E3.
      * apply ClaimPrimaryForAutomationTurn_calm in E3 as [Hc3 Eg3]. intros H.
        assert (calm d d3) as Hc by (by eapply calm_trans).
        eapply evolves_trans; [exact Hev|]. eapply calm_then; [exact Hc|].
        eapply reserve_turn_evolves; [by eapply calm_inv|by rewrite Eg3, Eg2|done|by apply Hlim|done|done|exact H].
      * intros [<- _]%ok_pair. apply evolves_calm, MarkWaiting_calm.
    + intros [<- _]%ok_pair. eapply then_calm; [exact Hev|apply MarkWaiting_calm].
Qed.

Lemma wait_evolves d0 d d' o : evolves d0 d -> wait now inp d = Ok (d', o) -> evolves d0 d'.
Proof. intros Hev [<- _]%ok_pair. eapply then_calm; [exact Hev|apply MarkWaiting_calm]. Qed.
Lemma wait_retry_evolves d0 d d' after o : evolves d0 d -> wait_retry now inp after d = Ok (d', o) -> evolves d0 d'.
Proof. intros Hev [<- _]%ok_pair. eapply then_calm; [exact Hev|apply MarkWaiting_calm]. Qed.
Lemma terminalizeWith_evolves d0 d d' outcome by' note o : evolves d0 d -> marker_outcome outcome = false ->
  terminalizeWith now inp outcome by' note d = Ok (d', o) -> evolves d0 d'.
Proof. intros Hev Ho [<- _]%ok_pair. eapply then_calm; [exact Hev|by apply TerminalizeUnstarted_calm]. Qed.

Lemma dispatch_turn_evolves d0 automation user t run resolved d d' o : auto_inv d0 -> evolves d0 d ->
  dispatch_turn now wall maxAge sizeLimit ids inp current d0 automation user t run resolved d = Ok (d', o) -> evolves d0 d'.
Proof.
  intros Hi0 Hev. unfold dispatch_turn. fold orgID runID.
  generalize (if hr_baseBranch resolved ==? "" then rs_base_branch (ar_config_snapshot (di_Run inp)) else hr_baseBranch resolved). intros base.
  case_match; [by apply wait_evolves|]. destruct (match NextWaiting _ _ _ with Some _ => _ | None => _ end); [by apply wait_evolves|].
  set (gen := match GetActiveGeneration _ _ _ with Ok g => Some g | Err _ => None end).
  set (ses := match gen with Some g => _ | None => None end).
  assert (forall g, gen = Some g -> In g (automation_target_sessions d) /\ ag_status g = AutomationTargetSessionStatusActive
            /\ ag_org_id g = orgID /\ ag_target_id g = at_id t) as Hgen.
  { intros g Hg. unfold gen in Hg. destruct (GetActiveGeneration _ _ _) as [x|] eqn:E; [|done]. injection Hg as ->.
    apply one_row_ok in E as [Hin Hp]. unfold active_generation_of in Hp. by reflect_bools. }
  destruct (AutomationService.decide _ _ _ _ _ _ _ _ _ _ _) as [mode reason retire| |after|outcome note] eqn:Ed.
  - assert (mode <> AutomationRunContinuationFresh -> retire = None /\ forall g, gen = Some g -> ag_turn_count g < AutomationTurnLimit) as Hm
      by (by eapply decide_continues).
    case_match; [|by eapply start_turn_evolves]. destruct current as [h|]; [|by apply wait_retry_evolves].
    destruct (SetLifecycleObserved _ _ _ _ _ _) as [[d1 b]|] eqn:E; [|done]. intros Hend.
    assert (automation_target_sessions d1 = automation_target_sessions d) as Eg by (by eapply SetLifecycleObserved_frame).
    apply SetLifecycleObserved_calm in E. eapply start_turn_evolves; [done|by eapply then_calm| |done|exact Hend].
    intros g Hg. rewrite Eg. by apply Hgen.
  - by apply wait_evolves.
  - intros [<- _]%ok_pair. done.
  - apply decide_skips in Ed as ->. by apply terminalizeWith_evolves.
Qed.

Lemma dispatch_head_evolves d0 automation user t run d d' o : auto_inv d0 -> evolves d0 d ->
  dispatch_head now wall maxAge sizeLimit ids inp current d0 automation user t run d = Ok (d', o) -> evolves d0 d'.
Proof.
  intros Hi0 Hev. unfold dispatch_head. fold orgID runID.
  destruct (resolveHead _ _ _ _ _ _ _) as [[d1 res]|] eqn:E; [|done]. apply resolveHead_calm in E as [Hc Hterm].
  assert (evolves d0 d1) as Hev1 by (by eapply then_calm). case_match; [by apply wait_retry_evolves|].
  destruct (hr_terminal res) as [outcome|]; [rewrite (Hterm outcome eq_refl); by apply terminalizeWith_evolves|].
  destruct (if hr_stamp res then _ else Ok d1) as [d2|] eqn:Es; [|done]. apply dispatch_turn_evolves; [done|].
  destruct (hr_stamp res); [|apply ok_inj in Es as <-; done].
  eapply then_calm; [exact Hev1|by eapply StampHeadResolution_calm].
Qed.

Lemma dispatch_gate_evolves d0 automation user t run d d' o : auto_inv d0 -> evolves d0 d ->
  dispatch_gate now wall maxAge sizeLimit ids inp current d0 automation user t run d = Ok (d', o) -> evolves d0 d'.
Proof.
  intros Hi0 Hev. unfold dispatch_gate. fold orgID runID.
  case_match; [by apply terminalizeWith_evolves|]. pose proof (dispatch_head_evolves d0 automation user t run d d' o Hi0 Hev) as Hpro.
  destruct current as [h|]; [|done]. case_match; [|done]. case_match; [by apply terminalizeWith_evolves|].
  destruct (SetLifecycleObserved _ _ _ _ _ _) as [[d1 b]|] eqn:E; [|done]. apply SetLifecycleObserved_calm in E.
  assert (evolves d0 d1) as Hev1 by (by eapply then_calm).
  destruct b; [by apply terminalizeWith_evolves|by apply wait_retry_evolves].
Qed.

Lemma Dispatch_evolves before d d' o : auto_inv d ->
  Dispatch now wall maxAge sizeLimit ids inp before current d = Ok (d', o) -> evolves d d'.
Proof.
  intros Hi. unfold Dispatch. fold orgID runID. case_match; [intros [<- _]%ok_pair; auto with moves|].
  destruct (targetRepository inp) as [repo|]; [|done].
  destruct (LockOrCreate _ _ _ _ _ _ _) as [[d1 t]|] eqn:El; [|done]. apply LockOrCreate_calm in El as (Hc & _).
  assert (evolves d d1) as Hev by (by apply evolves_calm). case_match; [by apply wait_retry_evolves|].
  destruct (select _ _) as [|a l]; [intros [<- _]%ok_pair; auto with moves|].
  case_match; [intros [<- _]%ok_pair; auto with moves|]. case_match; [intros [<- _]%ok_pair; auto with moves|].
  destruct (automationExecutingUser a) as [user|]; [|done]. destruct (one_row _ _ _) as [run|]; [|done].
  case_match; [intros [<- _]%ok_pair; auto with moves|]. case_match; [intros [<- _]%ok_pair; auto with moves|].
  by apply dispatch_gate_evolves.
Qed.
End Dispatching.

(** ** Completion, wakes and sweeps *)

Section Completing.
Variables (now : time) (orgID : uuid).

Lemma enqueueWake_calm fresh t d d' : enqueueWake now orgID fresh t d = Ok d' -> calm d d'.
Proof. unfold enqueueWake. destruct (Enqueue _ _ _ _ _ _ _ _ _) as [[p j]|] eqn:E; [|done]. intros <-%ok_inj. by eapply enqueue_calm. Qed.
Lemma EnqueueWake_calm fresh t d d' : EnqueueWake now orgID fresh t d = Ok d' -> calm d d'.
Proof.
  unfold EnqueueWake. destruct (RequestWake _ _ _ _) as [d1|] eqn:E; [|done]. intros H.
  eapply calm_trans; [by eapply RequestWake_calm|by eapply enqueueWake_calm].
Qed.
Lemma complete_retirement_evolves g reason d d' b : auto_inv d -> complete_retirement now orgID g reason d = Ok (d', b) -> evolves d d'.
Proof.
  intros Hi. unfold complete_retirement. destruct (RetireGeneration _ _ _ _ _) as [[d1 x]|] eqn:E.
  - intros [<- _]%ok_pair. by eapply RetireGeneration_evolves.
  - case_match; [|done]. intros [<- _]%ok_pair. auto with moves.
Qed.

Lemma Complete_evolves fresh id job tok d d' c : auto_inv d -> Complete now orgID fresh id job tok d = Ok (d', c) -> evolves d d'.
Proof.
  intros Hi. unfold Complete. destruct (CompleteFromMarker _ _ _ _ _ _ _) as [[d1 [fin|]]|] eqn:E; [|intros [<- _]%ok_pair; auto with moves|done].
  apply CompleteFromMarker_evolves in E; [|done]. assert (auto_inv d1) as Hi1 by (by eapply evolves_inv).
  destruct (if cp_RetireGeneration fin then _ else _) as [reason|]; [|done].
  destruct (match reason with Some why => _ | None => Ok (d1, None) end) as [[d2 retired]|] eqn:Er; [|done].
  assert (evolves d1 d2) as Hev.
  { destruct reason as [why|]; [|apply ok_pair in Er as [<- _]; auto with moves].
    destruct (complete_retirement _ _ _ _ _) as [[d3 b]|] eqn:Ec; [|done]. apply ok_pair in Er as [<- _].
    by eapply complete_retirement_evolves. }
  destruct (enqueueWake _ _ _ _ _) as [d3|] eqn:Ew; [|done]. intros [<- _]%ok_pair.
  eapply evolves_trans; [exact E|]. eapply then_calm; [exact Hev|by eapply enqueueWake_calm].
Qed.

Lemma fail_exhausted_evolves fresh id stale d d' b : auto_inv d -> fail_exhausted now orgID fresh id stale d = Ok (d', b) -> evolves d d'.
Proof.
  intros Hi. unfold fail_exhausted. destruct (FailRetriesExhausted _ _ _ _ _) as [[d1 [t|]]|] eqn:E; [|intros [<- _]%ok_pair; auto with moves|done].
  apply FailRetriesExhausted_evolves in E; [|done]. assert (auto_inv d1) as Hi1 by (by eapply evolves_inv).
  destruct (RetireTerminalTarget _ _ _ _) as [[d2 x]|] eqn:Er; [|done]. apply RetireTerminalTarget_evolves in Er; [|done].
  destruct (enqueueWake _ _ _ _ _) as [d3|] eqn:Ew; [|done]. intros [<- _]%ok_pair.
  eapply evolves_trans; [exact E|]. eapply then_calm; [exact Er|by eapply enqueueWake_calm].
Qed.
Lemma RecoverAbandonedRun_evolves f1 f2 id job stale d d' o : auto_inv d ->
  RecoverAbandonedRun now orgID f1 f2 id job stale d = Ok (d', o) -> evolves d d'.
Proof.
  intros Hi. unfold RecoverAbandonedRun. destruct (Complete _ _ _ _ _ _ _) as [[d1 [c|]]|] eqn:E; [| |done].
  - intros [<- _]%ok_pair. by eapply Complete_evolves.
  - apply Complete_evolves in E; [|done]. assert (auto_inv d1) as Hi1 by (by eapply evolves_inv).
    destruct (fail_exhausted _ _ _ _ _ _) as [[d2 b]|] eqn:Ef; [|done]. intros [<- _]%ok_pair.
    eapply evolves_trans; [exact E|by eapply fail_exhausted_evolves].
Qed.
Lemma CompletePreflight_evolves id tok o note d d' b : auto_inv d -> CompletePreflight now orgID id tok o note d = Ok (d', b) -> evolves d d'.
Proof.
  intros Hi. unfold CompletePreflight.
  destruct (CompleteExecutingPreflight _ _ _ _ _ _ _) as [[d1 [t|]]|] eqn:E; [|intros [<- _]%ok_pair; auto with moves|done].
  apply CompleteExecutingPreflight_evolves in E; [|done]. assert (auto_inv d1) as Hi1 by (by eapply evolves_inv).
  destruct (RetireTerminalTarget _ _ _ _) as [[d2 x]|] eqn:Er; [|done]. intros [<- _]%ok_pair.
  eapply evolves_trans; [exact E|by eapply RetireTerminalTarget_evolves].
Qed.

Lemma ClaimAttempt_calm id job tok d : calm d (ClaimAttempt now orgID id job tok d).1.
Proof.
  unfold ClaimAttempt. destruct (select _ _); [apply calm_refl|]. case_match; [|apply calm_refl]. cbn [fst].
  by apply set_runs_calm.
Qed.
Lemma claimAttempt_evolves fresh id job tok d d' b : auto_inv d -> claimAutomationTurnAttempt now orgID fresh id job tok d = Ok (d', b) -> evolves d d'.
Proof.
  intros Hi. unfold claimAutomationTurnAttempt. destruct (one_row _ _ _) as [r|]; [|done].
  case_match; [intros [<- _]%ok_pair; auto with moves|]. case_match; [intros [<- _]%ok_pair; auto with moves|].
  case_match.
  - destruct (Complete _ _ _ _ _ _ _) as [[d1 c]|] eqn:E; [|done]. intros [<- _]%ok_pair. by eapply Complete_evolves.
  - pose proof (ClaimAttempt_calm id job tok d) as Hc. destruct (ClaimAttempt _ _ _ _ _ _) as [d1 [n|]].
    + intros [<- _]%ok_pair. by apply evolves_calm.
    + intros [<- _]%ok_pair. auto with moves.
Qed.

Lemma ApplyPullRequestClosed_evolves t merged at' d d' o : auto_inv d -> ApplyPullRequestClosed now orgID t merged at' d = Ok (d', o) -> evolves d d'.
Proof.
  intros Hi. unfold ApplyPullRequestClosed. destruct (GetTargetByID _ _ _); [|done].
  destruct (if merged then Ok true else _) as [fresh|]; [|done]. case_match; [intros [<- _]%ok_pair; auto with moves|].
  destruct (SetLifecycleObserved _ _ _ _ _ _) as [[d1 applied]|] eqn:El; [|done]. apply SetLifecycleObserved_calm in El.
  case_match; [intros [<- _]%ok_pair; by apply evolves_calm|].
  set (d2 := set_runs _ _ _ _). assert (calm d1 d2) as H2.
  { apply set_runs_calm. intros r _ Hp. reflect_bools. by apply end_unstarted_calm. }
  assert (calm d d2) as Hc by (by eapply calm_trans).
  destruct (if merged && _ then _ else _) as [[d3 retired]|] eqn:Er; [|done].
  assert (evolves d2 d3) as Hev.
  { destruct (merged && _); [apply ok_pair in Er as [<- _]; auto with moves|]. eapply retire_active_evolves; [by eapply calm_inv|exact Er]. }
  destruct (RequestWake _ _ _ _) as [d4|] eqn:Ew; [|done]. intros [<- _]%ok_pair.
  eapply calm_then; [exact Hc|]. eapply then_calm; [exact Hev|by eapply RequestWake_calm].
Qed.
Lemma on_closed_evolves fresh t merged at' d d' : auto_inv d -> on_closed now orgID fresh t merged at' d = Ok d' -> evolves d d'.
Proof.
  intros Hi. unfold on_closed. destruct (ApplyPullRequestClosed _ _ _ _ _ _) as [[d1 o]|] eqn:E; [|done].
  apply ApplyPullRequestClosed_evolves in E; [|done]. case_match; [intros <-%ok_inj; auto with moves|]. intros Hw.
  eapply then_calm; [exact E|by eapply enqueueWake_calm].
Qed.

Lemma nudge_calm fresh aid id d d' b : nudge now orgID fresh aid id d = Ok (d', b) -> calm d d'.
Proof.
  unfold nudge. pose proof (reschedule_calm now d orgID (automationRunDedupePrefix +:+ id)) as Hc.
  destruct (RescheduleActiveByDedupeKey _ _ _ _) as [p re]. cbn [fst] in Hc.
  case_match; [intros [<- _]%ok_pair; done|]. case_match; [intros [<- _]%ok_pair; done|].
  destruct (Enqueue _ _ _ _ _ _ _ _ _) as [[p1 j]|] eqn:E; [|done]. intros [<- _]%ok_pair.
  eapply calm_trans; [exact Hc|]. exact (enqueue_calm now (d <| plane := p |>) _ _ _ _ _ _ _ _ _ E).
Qed.

Lemma timed_out_unstarted cutoff r : timed_out cutoff r = true -> unstarted r = true.
Proof.
  unfold timed_out, unstarted. intros [[[-> ->]%andb_true_iff _]%andb_true_iff _]%andb_true_iff. apply orb_true_r.
Qed.
Lemma failTimedOutWaits_evolves fresh t cutoff d d' : auto_inv d -> failTimedOutWaits now orgID fresh t cutoff d = Ok d' -> evolves d d'.
Proof.
  intros Hi. unfold failTimedOutWaits. destruct (FailTimedOutWaits _ _ _ _ _) as [[d1 n]|] eqn:E; [|done].
  assert (calm d d1) as Hc.
  { unfold FailTimedOutWaits in E. destruct (GetTargetByID _ _ _); [|done]. case_match; apply ok_pair in E as [<- _]; [apply calm_refl|].
    eapply calm_trans; [|apply wake_calm]. apply set_runs_calm. intros r _ [_ Hp%timed_out_unstarted]%andb_true_iff.
    by apply end_unstarted_calm. }
  case_match; [intros <-%ok_inj; auto with moves|].
  destruct (RetireTerminalTarget _ _ _ _) as [[d2 x]|] eqn:Er; [|done]. apply RetireTerminalTarget_evolves in Er; [|by eapply calm_inv].
  intros Hw. eapply calm_then; [exact Hc|]. eapply then_calm; [exact Er|by eapply enqueueWake_calm].
Qed.
Lemma resolveAmbiguityDeadline_calm fresh t wall d d' : resolveAmbiguityDeadline now orgID fresh t wall d = Ok d' -> calm d d'.
Proof.
  unfold resolveAmbiguityDeadline. destruct (ResolveAmbiguityDeadline _ _ _ _ _) as [[d1 n]|] eqn:E; [|done].
  assert (calm d d1) as Hc.
  { unfold ResolveAmbiguityDeadline in E. destruct (GetTargetByID _ _ _); [|done]. case_match; apply ok_pair in E as [<- _]; [apply calm_refl|].
    eapply calm_trans; [|by apply set_targets_calm]. by apply set_runs_calm. }
  case_match; [intros <-%ok_inj; apply calm_refl|]. intros Hw. eapply calm_trans; [exact Hc|by eapply enqueueWake_calm].
Qed.

Lemma release_session_twice d g : auto_inv d -> In g (automation_target_sessions d) -> owning g = true -> ag_org_id g = orgID ->
  forall d1, plane d1 = plane d ->
  set_sessions (fun s => is_session orgID (ag_session_id g) s && col_is (s_automation_owner_generation_id s) (ag_id g))
    (fun s => s <| s_automation_owner_generation_id := None |> <| s_turn_holding_container := false |>) d1
  = set_sessions (fun s => s_id s ==? ag_session_id g) (fun s => s <| s_turn_holding_container := false |>)
      (own_session (ag_session_id g) None d1).
Proof.
  intros Hi Hg Ho Eo d1 Ep. unfold set_sessions, own_session. cbn. do 2 f_equal. unfold update. rewrite map_map. apply map_ext_in.
  intros s Hs. rewrite Ep in Hs. rewrite <- Eo, (owned_session d g Hi Hg Ho s Hs).
  case_bool_decide as E; cbn; [by rewrite bool_decide_eq_true_2|by rewrite bool_decide_eq_false_2].
Qed.

Lemma releaseStrandedOwnership_evolves fresh gid t d d' : auto_inv d -> releaseStrandedOwnership now orgID fresh gid t d = Ok d' -> evolves d d'.
Proof.
  intros Hi. unfold releaseStrandedOwnership. destruct (ReleaseStrandedOwnership _ _ _ _ _) as [[d1 b]|] eqn:E; [|done].
  assert (evolves d d1) as Hev.
  { unfold ReleaseStrandedOwnership in E. destruct (GetTargetByID _ _ _); [|done].
    destruct (select _ _) as [|g l] eqn:Es; [apply ok_pair in E as [<- _]; auto with moves|].
    apply select_first in Es as [Hg Hp]. apply ok_pair in E as [<- _]. eapply then_calm; [|apply wake_calm].
    set (p := fun x => _ && stranded _ _ x) in *. set (g1 := g <| ag_ownership_release_pending := false |> <| ag_updated_at := now |>).
    assert (set_generations now p (fun g => g <| ag_ownership_release_pending := false |>) d = put_generation g1 d) as ->.
    { unfold set_generations, put_generation.
      rewrite (update_replace ag_id p (fun x => x <| ag_ownership_release_pending := false |> <| ag_updated_at := now |>) g); try done; [apply Hi|].
      intros y Hy Hpy. unfold p, is_generation in *. reflect_bools. congruence. }
    unfold p, stranded, is_generation in Hp. reflect_bools.
    assert (owning g = true) as Ho by (apply orb_true_iff; by right).
    assert (ag_id g = gid) as <- by done.
    rewrite (release_session_twice d g Hi Hg Ho); [|done|done].
    eapply then_calm; [|by apply set_sessions_calm]. apply rtc_once, (move_release d g g1); try done.
    match goal with H : turn_executing _ _ _ _ = false |- _ => rewrite <- H end. symmetry. by apply turn_executing_exists. }
  destruct b; [|intros <-%ok_inj; auto with moves]. intros Hw. eapply then_calm; [exact Hev|by eapply enqueueWake_calm].
Qed.

Lemma recover_one_evolves f1 f2 id stale d d' : auto_inv d -> recover_one now orgID f1 f2 id stale d = Ok d' -> evolves d d'.
Proof.
  intros Hi. unfold recover_one. destruct (one_row _ _ _) as [r|]; [|done]. destruct (ar_job_id r); [|intros <-%ok_inj; auto with moves].
  destruct (RecoverAbandonedRun _ _ _ _ _ _ _ _) as [[d1 o]|] eqn:E; [|done]. intros <-%ok_inj. by eapply RecoverAbandonedRun_evolves.
Qed.

Lemma sweep_items_evolves {A} (apply : uuid -> uuid -> A -> AutoDB -> result AutoDB) ids items d :
  (forall a b x d0 d1, auto_inv d0 -> apply a b x d0 = Ok d1 -> evolves d0 d1) -> auto_inv d -> evolves d (sweep_items apply ids items d).
Proof.
  intros Ha. revert items d. induction ids as [|[a b] ids IH]; intros [|x items] d Hi; try apply evolves_refl. cbn [sweep_items].
  destruct (apply a b x d) as [d1|] eqn:E; [|by apply IH]. apply Ha in E; [|done].
  eapply evolves_trans; [exact E|]. apply IH. by eapply evolves_inv.
Qed.

Lemma Sweep_evolves wall draw d : auto_inv d -> evolves d (Sweep now orgID wall draw d).
Proof.
  intros Hi. unfold Sweep. set (d1 := sweep_items _ (draw 0%nat) _ d).
  assert (evolves d d1) as H1 by (apply sweep_items_evolves; [intros; by eapply recover_one_evolves|done]).
  assert (auto_inv d1) as I1 by (by eapply evolves_inv). set (d2 := sweep_items _ (draw 1%nat) _ d1).
  assert (evolves d1 d2) as H2 by (apply sweep_items_evolves; [intros; by eapply failTimedOutWaits_evolves|done]).
  assert (auto_inv d2) as I2 by (by eapply evolves_inv). set (d3 := sweep_items _ (draw 2%nat) _ d2).
  assert (evolves d2 d3) as H3 by (apply sweep_items_evolves; [intros; by eapply evolves_calm, resolveAmbiguityDeadline_calm|done]).
  assert (auto_inv d3) as I3 by (by eapply evolves_inv). set (d4 := sweep_items _ (draw 3%nat) _ d3).
  assert (evolves d3 d4) as H4 by (apply sweep_items_evolves; [intros; by eapply releaseStrandedOwnership_evolves|done]).
  assert (auto_inv d4) as I4 by (by eapply evolves_inv).
  do 4 (eapply evolves_trans; [eassumption|]). apply sweep_items_evolves; [intros; by eapply evolves_calm, EnqueueWake_calm|done].
Qed.

Lemma persistAutomationUpdate_evolves prior after d d' : auto_inv d -> persistAutomationUpdate now orgID prior after d = Ok d' -> evolves d d'.
Proof.
  intros Hi. unfold persistAutomationUpdate. set (d1 := d <| automations := _ |>). assert (calm d d1) as Hc by apply set_automations_calm.
  case_match; [|intros <-%ok_inj; by apply evolves_calm]. intros Hr. eapply calm_then; [exact Hc|].
  eapply retire_each_evolves; [by eapply calm_inv|exact Hr].
Qed.
End Completing.

(** ** The transition system *)

Inductive auto_op (d : AutoDB) : AutoDB -> Prop :=
  | op_trigger now wall automation req fr ft fj goal dup d' :
      triggerAutomation now wall automation req fr ft fj goal dup d = Ok d' -> auto_op d d'
  | op_dispatch now wall maxAge sizeLimit ids inp before current d' o :
      Dispatch now wall maxAge sizeLimit ids inp before current d = Ok (d', o) -> auto_op d d'
  | op_per_run now org id : auto_op d (ClaimPendingForPerRun now org id d).1
  | op_attempt now org fresh id job tok d' b : claimAutomationTurnAttempt now org fresh id job tok d = Ok (d', b) -> auto_op d d'
  | op_workspace now org id tok ws d' b : RecordTurnWorkspace now org id tok ws d = Ok (d', b) -> auto_op d d'
  | op_duration now org id tok ms : auto_op d (RecordTurnDuration now org id tok ms d).1
  | op_baseline now org id tok head : auto_op d (RecordTurnBaseline now org id tok head d).1
  | op_fallback now org id tok reason head d' b : RecordContinuationFallback now org id tok reason head d = Ok (d', b) -> auto_op d d'
  | op_interrupted now org id ses tok status d' b : EndInterruptedAttempt now org id ses tok status d = Ok (d', b) -> auto_op d d'
  | op_thread now org id tok th status turn res agent d' b :
      setThreadTurnForAttempt now org id tok th status turn res agent d = Ok (d', b) -> auto_op d d'
  | op_marker now org job m d' b : Write now org job m d = Ok (d', b) -> auto_op d d'
  | op_complete now org fresh id job tok d' c : Complete now org fresh id job tok d = Ok (d', c) -> auto_op d d'
  | op_preflight now org id tok o note d' b : CompletePreflight now org id tok o note d = Ok (d', b) -> auto_op d d'
  | op_recover now org f1 f2 id job stale d' o : RecoverAbandonedRun now org f1 f2 id job stale d = Ok (d', o) -> auto_op d d'
  | op_closed now org fresh t merged at' d' : on_closed now org fresh t merged at' d = Ok d' -> auto_op d d'
  | op_reopened now org t at' d' : on_reopened now org t at' d = Ok d' -> auto_op d d'
  | op_nudge now org fresh aid id d' b : nudge now org fresh aid id d = Ok (d', b) -> auto_op d d'
  | op_wake now org fresh t d' : EnqueueWake now org fresh t d = Ok d' -> auto_op d d'
  | op_clear_wake now org t at' : auto_op d (ClearWake now org t at' d).1
  | op_sweep now org wall draw : auto_op d (Sweep now org wall draw d)
  | op_delete now org id d' : SoftDelete now org id d = Ok d' -> auto_op d d'
  | op_status now org id from to at' s : to <> AutomationRunStatusPending -> auto_op d (TransitionStatusIf now org id from to at' s d).1
  | op_noop now org id s : auto_op d (MarkCompletedNoop now org id s d).1
  | op_update now org prior after d' : persistAutomationUpdate now org prior after d = Ok d' -> auto_op d d'.

Lemma op_evolves d d' : auto_inv d -> auto_op d d' -> evolves d d'.
Proof.
  intros Hi [now wall automation req fr ft fj goal dup d1 H|now wall ma sl ids inp before current d1 o H|now org id
    |now org fresh id job tok d1 b H|now org id tok ws d1 b H|now org id tok ms|now org id tok head|now org id tok reason head d1 b H
    |now org id ses tok status d1 b H|now org id tok th status turn res agent d1 b H|now org job m d1 b H|now org fresh id job tok d1 c H
    |now org id tok o note d1 b H|now org f1 f2 id job stale d1 o H|now org fresh t merged at' d1 H|now org t at' d1 H|now org fresh aid id d1 b H
    |now org fresh t d1 H|now org t at'|now org wall draw|now org id d1 H|now org id from to at' s Hto|now org id s|now org prior after d1 H].
  - by eapply triggerAutomation_evolves.
  - by eapply Dispatch_evolves.
  - by apply evolves_calm, ClaimPendingForPerRun_calm.
  - by eapply claimAttempt_evolves.
  - unfold RecordTurnWorkspace in H. case_match; [done|]. apply ok_pair in H as [<- _]. by apply evolves_calm, set_runs_calm.
  - by apply evolves_calm, set_runs_calm.
  - by apply evolves_calm, set_runs_calm.
  - unfold RecordContinuationFallback in H. case_match; [done|]. apply ok_pair in H as [<- _]. by apply evolves_calm, set_runs_calm.
  - unfold EndInterruptedAttempt in H. case_match; [done|]. case_match; apply ok_pair in H as [<- _]; [|apply evolves_refl].
    by apply evolves_calm, set_sessions_calm.
  - unfold setThreadTurnForAttempt in H. destruct (LockAttempt _ _ _ _) as [owned|]; [|done].
    case_match; apply ok_pair in H as [<- _]; [apply evolves_refl|]. apply evolves_calm, set_threads_calm.
  - unfold Write in H. do 2 (case_match; [done|]). case_match; [apply ok_pair in H as [<- _]; apply evolves_refl|].
    destruct (select _ _); [apply ok_pair in H as [<- _]; apply evolves_calm, set_results_calm|].
    case_match; apply ok_pair in H as [<- _]; [apply evolves_calm, set_results_calm|apply evolves_refl].
  - by eapply Complete_evolves.
  - by eapply CompletePreflight_evolves.
  - by eapply RecoverAbandonedRun_evolves.
  - by eapply on_closed_evolves.
  - unfold on_reopened in H. destruct (ReopenTarget _ _ _ _ _) as [[d2 b]|] eqn:E; [|done]. apply ok_inj in H as <-.
    by eapply evolves_calm, ReopenTarget_calm.
  - by eapply evolves_calm, nudge_calm.
  - by eapply evolves_calm, EnqueueWake_calm.
  - apply evolves_calm, ClearWake_calm.
  - by apply Sweep_evolves.
  - by eapply SoftDelete_calm.
  - by apply evolves_calm, TransitionStatusIf_calm.
  - apply evolves_calm, MarkCompletedNoop_calm.
  - by eapply persistAutomationUpdate_evolves.
Qed.

(** A step of the system: a transaction of automations, or one of the rest of
    the program, which adds sessions and writes their columns but neither
    removes a session nor names an owner. *)
Inductive auto_step (d : AutoDB) : claim -> AutoDB -> Prop :=
  | step_automation d' : auto_op d d' -> auto_step d None d'
  (** Automations and repositories are created and edited by other parts. *)
  | step_configuration as' rs : auto_step d None (d <| automations := as' |> <| repositories := rs |>)
  | step_rest drawn p : step (plane d) drawn p -> owners_kept (sessions (plane d)) (sessions p) -> auto_step d drawn (d <| plane := p |>).

Inductive auto_steps (used : list uuid) (d : AutoDB) : list uuid -> AutoDB -> Prop :=
  | auto_refl : auto_steps used d used d
  | auto_next used1 d1 drawn d2 : auto_steps used d used1 d1 -> unspent drawn used1 -> auto_step d1 drawn d2 ->
      auto_steps used d (spend drawn used1) d2.

Definition auto_reachable : list uuid -> AutoDB -> Prop := auto_steps [] empty_auto.

Lemma rest_inv d p : auto_inv d -> owners_kept (sessions (plane d)) (sessions p) -> auto_inv (d <| plane := p |>).
Proof.
  intros [Hg Hr] Ho. split; [|exact Hr]. eapply calm_generations_inv; [exact Hg| |exact Ho|apply targets_kept_refl].
  apply Forall2_same. auto with plane.
Qed.
Lemma auto_step_inv d drawn d' : auto_inv d -> auto_step d drawn d' -> auto_inv d'.
Proof.
  intros Hi [d1 Hop|as' rs|dr p Hs Ho]; [eapply evolves_inv; [done|by apply op_evolves]|split; apply Hi|by apply rest_inv].
Qed.
Lemma auto_steps_inv used d used' d' : auto_inv d -> auto_steps used d used' d' -> auto_inv d'.
Proof. intros Hi. induction 1; [done|by eapply auto_step_inv]. Qed.
Lemma empty_auto_inv : auto_inv empty_auto.
Proof. split; split; try apply List.NoDup_nil; try (by intros ? []); by intros. Qed.
Lemma auto_reachable_inv used d : auto_reachable used d -> auto_inv d.
Proof. apply auto_steps_inv, empty_auto_inv. Qed.

(** Seen from the execution plane, the system only takes steps of the plane. *)
Lemma auto_step_plane used d drawn d' : auto_inv d -> unspent drawn used -> auto_step d drawn d' ->
  steps used (plane d) (spend drawn used) (plane d').
Proof.
  intros Hi Hu Hst. destruct Hst as [d1 Hop|as' rs|dr p Hs Ho].
  - apply (evolves_quiet d d1), op_evolves; done.
  - apply steps_refl.
  - exact (steps_next _ _ _ _ dr p (steps_refl used (plane d)) Hu Hs).
Qed.
Lemma auto_steps_plane used d used' d' : auto_inv d -> auto_steps used d used' d' -> steps used (plane d) used' (plane d').
Proof.
  intros Hi. induction 1 as [|u d1 dr d2 Hs IH Hu Hst]; [apply steps_refl|].
  eapply steps_compose; [exact IH|]. eapply auto_step_plane; [by eapply auto_steps_inv|done|done].
Qed.
