(* ===== verification/AutomationScenario.v ===== *)
(** * A concrete run of an automation

    A pull request is opened, its run dispatched, the turn's job claimed, and
    the turn completed from its marker or given back.  The witnesses of
    [AutomationProperties] evaluate the model on these states. *)

From S2P Require Import Prelude GoRuntime Sql Tables JobStore ExecutorStore NodeStore JobLifecycle JobSteps NodeSteps Plane Scenario PlaneProperties.
From S2P Require Import Automation AutomationStore AutomationRunStore AutomationCompletion AutomationService AutomationCompleter.
From S2P Require Import AutomationMoves AutomationSteps AutomationOps.
From stdpp Require Import base option list relations strings pretty gmap.

Open Scope string_scope.
Open Scope Z_scope.

Definition au1 : Automation :=
  MkAutomation "au1" "org1" (Some "repo1") None None "org" AutomationSessionContinuityPerTarget None None t0.
Definition opened : GitHubEventTriggerRequest :=
  MkTriggerRequest "repo1" AutomationGitHubEventPullRequestOpened 7 "opened" "h1" "main" (Some t0).
Definition ids1 : AutomationService.Fresh := MkFresh "tgt2" "s1" "th1" "g1" "jt" 1.
Definition template1 : SessionTemplate := MkTemplate "codex" (Some "repo1") SessionStatusPending None.

Definition d_configured : AutoDB :=
  empty_auto <| plane := db_registered |> <| automations := [au1] |> <| repositories := [("repo1", "org1")] |>.
Definition d_triggered : AutoDB := ok empty_auto (triggerAutomation t0 t0 au1 opened "run1" "tgt1" "j1" "review" false d_configured).
Definition run1 (d : AutoDB) : AutomationRun := List.hd (new_run 0 "" "" "" "" (MkRunSnapshot "" 0 "" "")) (automation_runs d).
Definition inp1 : DispatchInput := MkDispatchInput (run1 d_triggered) au1 template1 false.
Definition dispatched : AutoDB * DispatchOutcome :=
  ok (empty_auto, DispatchWaiting) (Dispatch t0 t0 0 AutomationCheckpointSizeLimit ids1 inp1 None None d_triggered).
Definition d_dispatched : AutoDB := dispatched.1.
Definition other_jobs : uuid -> bool := fun id => id ==? "j1".
Definition d_claimed : AutoDB := d_dispatched <| plane := (ok (empty_db, None)
  (ClaimNextRunnable t0 t0 "w1" "w1-loop" "tok1" (60 * second) other_jobs (plane d_dispatched))).1 |>.
Definition d_attempt : AutoDB := (ok (empty_auto, false)
  (claimAutomationTurnAttempt t0 "org1" "j3" "run1" "jt" "tok1" d_claimed)).1.
Definition marker1 : AutomationRunResult :=
  MkAutomationRunResult "run1" "org1" 1 "tok1" "th1" 1 AutomationRunResultTurnCompleted true None false None true None None t0.
Definition d_marked : AutoDB := (ok (empty_auto, false) (Write t0 "org1" "jt" marker1 d_attempt)).1.
Definition d_completed : AutoDB := (ok (empty_auto, None) (Complete t0 "org1" "j4" "run1" "jt" "tok1" d_marked)).1.
Definition d_retried : AutoDB := d_attempt <| plane := (RetryWithLease (t0 + second) "jt" "tok1" "boom" (t0 + 10 * second) (plane d_attempt)).1 |>.

Lemma auto_one used d d1 used' d' : auto_steps used d used' d1 -> auto_step d1 None d' -> auto_steps used d used' d'.
Proof. intros Hs H. exact (auto_next _ _ _ _ None d' Hs I H). Qed.

Lemma reached_configured : auto_reachable [] d_configured.
Proof.
  eapply auto_one; [eapply auto_one; [apply auto_refl|]|].
  - apply (step_rest _ None db_registered); [|apply owners_kept_refl].
    apply step_node, op_process, (op_register _ t0 manager1 "host1"). by vm_compute.
  - exact (step_configuration _ [au1] [("repo1", "org1")]).
Qed.
Lemma reached_dispatched : auto_reachable [] d_dispatched.
Proof.
  eapply auto_one; [eapply auto_one; [exact reached_configured|]|].
  - apply step_automation, (op_trigger _ t0 t0 au1 opened "run1" "tgt1" "j1" "review" false d_triggered). by vm_compute.
  - apply step_automation, (op_dispatch _ t0 t0 0 AutomationCheckpointSizeLimit ids1 inp1 None None d_dispatched dispatched.2). by vm_compute.
Qed.
Lemma reached_claimed : auto_reachable ["tok1"] d_claimed.
Proof.
  refine (auto_next _ _ _ _ (Some ("tok1", "w1")) d_claimed reached_dispatched _ _); [by intros []|].
  apply step_rest; [|by vm_compute; apply owners_kept_refl].
  apply step_job, (op_claim _ t0 t0 "w1" "w1-loop" "tok1" (60 * second) other_jobs _
    (ok (empty_db, None) (ClaimNextRunnable t0 t0 "w1" "w1-loop" "tok1" (60 * second) other_jobs (plane d_dispatched))).2).
  by vm_compute.
Qed.
Lemma reached_attempt : auto_reachable ["tok1"] d_attempt.
Proof.
  eapply auto_one; [exact reached_claimed|].
  apply step_automation, (op_attempt _ t0 "org1" "j3" "run1" "jt" "tok1" d_attempt true). by vm_compute.
Qed.
Lemma reached_completed : auto_reachable ["tok1"] d_completed.
Proof.
  eapply auto_one; [eapply auto_one; [exact reached_attempt|]|].
  - apply step_automation, (op_marker _ t0 "org1" "jt" marker1 d_marked true). by vm_compute.
  - apply step_automation, (op_complete _ t0 "org1" "j4" "run1" "jt" "tok1" d_completed
      (Some (MkCompletionResult AutomationRunOutcomeTurnCompleted "tgt1" None))). by vm_compute.
Qed.
Lemma reached_retried : auto_reachable ["tok1"] d_retried.
Proof.
  eapply auto_one; [exact reached_attempt|]. apply step_rest; [|by vm_compute; apply owners_kept_refl].
  apply step_job, op_retry.
Qed.

