(* ===== verification/AutomationProperties.v ===== *)
(** * What automations promise

    The theorems about per-target automations, for every state the system of
    [AutomationOps] reaches. *)

From S2P Require Import Prelude GoRuntime Sql Tables JobStore ExecutorStore NodeStore JobLifecycle JobSteps NodeSteps Plane Scenario PlaneProperties.
From S2P Require Import Automation AutomationStore AutomationRunStore AutomationCompletion AutomationService AutomationCompleter.
From S2P Require Import AutomationMoves AutomationSteps AutomationOps AutomationScenario.
From stdpp Require Import base option list relations strings pretty gmap.

Open Scope string_scope.
Open Scope Z_scope.

(** ** One turn at a time *)

(** C21: in every reachable state a target has at most one executing turn, the
    turn runs in the session that its generation owns, and no other turn runs
    in that session. *)
Theorem turn_owns_its_session used d r :
  auto_reachable used d -> In r (automation_runs d) -> executing r = true ->
  (forall r', In r' (automation_runs d) -> executing r' = true ->
     ar_org_id r' = ar_org_id r -> ar_target_id r' = ar_target_id r \/ ar_session_id r' = ar_session_id r -> r' = r)
  /\ exists g s, In g (automation_target_sessions d) /\ turn_in g r = true
       /\ In s (sessions (plane d)) /\ ar_session_id r = Some (s_id s) /\ s_org_id s = ar_org_id r
       /\ s_automation_owner_generation_id s = Some (ag_id g).
Proof.
  intros Hd Hr He. apply auto_reachable_inv in Hd as [Hgi Hri].
  destruct (ri_turn _ _ Hri r Hr He) as (g & Hg & Ht & Ho & Hs & _).
  destruct (gi_owned _ _ _ Hgi g Hg Ho) as (s & Hsin & E1 & E2 & E3).
  pose proof (turn_in_target g r Ht) as (F1 & F2 & _). split.
  - intros r' Hr' He' Eo [Et|Es]; [by apply (ri_one _ _ Hri)|].
    destruct (ri_turn _ _ Hri r' Hr' He') as (g' & Hg' & Ht' & Ho' & Hs' & _).
    destruct (gi_owned _ _ _ Hgi g' Hg' Ho') as (s' & Hsin' & E1' & E2' & E3').
    assert (s' = s) as -> by (apply (map_key_inj s_id (sessions (plane d))); [apply Hgi|done|done|congruence]).
    assert (g' = g) as -> by (apply (map_key_inj ag_id (automation_target_sessions d)); [apply Hgi|done|done|congruence]).
    pose proof (turn_in_target g r' Ht') as (F1' & F2' & _). apply (ri_one _ _ Hri); congruence.
  - exists g, s. repeat split; congruence.
Qed.
Lemma turn_owns_its_session_witness : exists g s, In g (automation_target_sessions d_attempt) /\ turn_in g (run1 d_attempt) = true
  /\ In s (sessions (plane d_attempt)) /\ ar_session_id (run1 d_attempt) = Some (s_id s) /\ s_org_id s = ar_org_id (run1 d_attempt)
  /\ s_automation_owner_generation_id s = Some (ag_id g).
Proof.
  refine (proj2 (turn_owns_its_session ["tok1"] d_attempt (run1 d_attempt) reached_attempt _ _)).
  - vm_compute. by left.
  - by vm_compute.
Defined.

(** no more than ten runs ever wait for one target. *)
Theorem waiting_is_capped used d orgID targetID : auto_reachable used d -> CountWaiting orgID targetID d <= automationTargetWaitingCap.
Proof. intros Hd. apply auto_reachable_inv in Hd as [_ Hri]. apply (ri_waiting _ _ Hri). Qed.
Lemma waiting_is_capped_witness : CountWaiting "org1" "tgt1" d_triggered <= automationTargetWaitingCap.
Proof.
  apply (waiting_is_capped []). eapply auto_one; [exact reached_configured|].
  apply step_automation, (op_trigger _ t0 t0 au1 opened "run1" "tgt1" "j1" "review" false d_triggered). by vm_compute.
Defined.

(** C25: the turn count of a generation is the number of its turns that ended
    with a result, none counted twice and none missed, and with the turn that
    may be executing it stays within the limit of 25. *)
Theorem turns_are_counted_once used d g : auto_reachable used d -> In g (automation_target_sessions d) ->
  ag_turn_count g = count_rows (fun r => turn_in g r && counted r) (automation_runs d)
  /\ ag_turn_count g + count_rows (fun r => turn_in g r && executing r) (automation_runs d) <= AutomationTurnLimit.
Proof.
  intros Hd Hg. apply auto_reachable_inv in Hd as [_ Hri]. split; [by apply (ri_count _ _ Hri)|by apply (ri_limit _ _ Hri)].
Qed.
Lemma turns_are_counted_once_witness : exists g, In g (automation_target_sessions d_completed) /\ ag_turn_count g = 1
  /\ ag_turn_count g = count_rows (fun r => turn_in g r && counted r) (automation_runs d_completed).
Proof.
  destruct (automation_target_sessions d_completed) as [|g l] eqn:E; [by vm_compute in E|]. exists g. split; [by left|]. split.
  - vm_compute in E. by simplify_eq.
  - apply (turns_are_counted_once ["tok1"] d_completed g reached_completed). rewrite E. by left.
Defined.

(** ** Abandoned turns *)

(** The state once the lapsed lease of a job is revoked. *)
Definition revoke (now : time) (orgID job : uuid) (d : AutoDB) : AutoDB := d <| plane := RevokeAbandonedLease now orgID job (plane d) |>.

Section Recovery.
Variables (now : time) (orgID : uuid).

Lemma one_row_unique {A} (key : A -> uuid) (p : A -> bool) l m x : List.NoDup (map key l) -> In x l -> p x = true ->
  (forall y, In y l -> p y = true -> key y = key x) -> one_row p l m = Ok x.
Proof.
  intros Hnd Hx Hp Hu. destruct (one_row_found p l m x Hx Hp) as [y Hy]. rewrite Hy. apply one_row_ok in Hy as [Hin Hpy].
  f_equal. by apply (map_key_inj key l); auto.
Qed.
Lemma select_unique {A} (key : A -> uuid) (p : A -> bool) l x : List.NoDup (map key l) -> In x l -> p x = true ->
  (forall y, In y l -> p y = true -> key y = key x) -> exists k, select p l = x :: k.
Proof.
  intros Hnd Hx Hp Hu. pose proof (one_row_unique key p l "" x Hnd Hx Hp Hu) as H. unfold one_row in H.
  destruct (select p l) as [|y k]; [done|]. injection H as ->. eauto.
Qed.

(** The target of a turn exists, and stays. *)
Lemma turn_target d r : auto_inv d -> In r (automation_runs d) -> executing r = true -> ar_org_id r = orgID ->
  exists g, In g (automation_target_sessions d) /\ turn_in g r = true /\ ag_org_id g = orgID
    /\ ar_target_id r = Some (ag_target_id g) /\ exists_row (is_target orgID (ag_target_id g)) (automation_targets d) = true.
Proof.
  intros [Hgi Hri] Hr He Eo. destruct (ri_turn _ _ Hri r Hr He) as (g & Hg & Ht & _).
  pose proof (turn_in_target g r Ht) as (F1 & F2 & _). destruct (gi_target _ _ _ Hgi g Hg) as (t & Hin & E1 & E2).
  exists g. repeat split; try congruence. apply exists_row_true. exists t. split; [done|]. unfold is_target.
  by rewrite !bool_decide_eq_true_2 by congruence.
Qed.
Lemma targets_kept_exists id l l' : targets_kept l l' -> exists_row (is_target orgID id) l = true -> exists_row (is_target orgID id) l' = true.
Proof.
  intros Hk (t & Ht & Hp)%exists_row_true. destruct (grows_old _ _ _ _ _ _ Hk Ht) as (t' & Ht' & [E1 E2 _]).
  apply exists_row_true. exists t'. split; [done|]. unfold is_target in *. by rewrite E1, E2.
Qed.

Lemma lock_ok d r id job : auto_inv d -> In r (automation_runs d) -> is_run orgID id r = true -> executing r = true ->
  ar_job_id r = Some job ->
  lockAutomationRunLifecycle now orgID id true d = Ok (revoke now orgID job d).
Proof.
  intros Hi Hr Hp He Hj. assert (ar_org_id r = orgID) as Eo by (unfold is_run in Hp; by reflect_bools).
  destruct (turn_target d r Hi Hr He Eo) as (g & _ & _ & _ & Et & Hx). unfold lockAutomationRunLifecycle.
  rewrite (one_row_unique ar_id _ _ _ r (ri_ids _ _ (ai_runs _ Hi)) Hr); [by rewrite Hj|by rewrite Hp, Et|].
  intros y _ Hy. reflect_bools. by eapply run_key.
Qed.

(** Revoking a lapsed lease leaves no live one, and no terminal job alive. *)
Lemma revoked_lease d r job : no_live_lease now d r = true ->
  no_live_lease now (revoke now orgID job d) r = true.
Proof.
  unfold no_live_lease. intros [Hj He]%andb_true_iff. apply andb_true_iff. split; [|exact He]. apply negb_true_iff in Hj.
  apply negb_true_iff, exists_row_false. simpl. intros j (j0 & Hin & [[Hp ->]|[Hp ->]])%in_update.
  - simpl. by rewrite andb_false_r.
  - by apply (exists_row_none _ _ j0 Hj).
Qed.
Lemma revoked_terminal d r job : job_terminal d r = true ->
  job_terminal (revoke now orgID job d) r = true.
Proof.
  unfold job_terminal. intros (j & Hin & Hp)%exists_row_true. apply exists_row_true. simpl. exists j. split; [|done].
  apply in_update. exists j. split; [done|]. right. split; [|done]. apply not_true_iff_false. unfold revocable. intros H.
  reflect_bools. match goal with H : j_status j = _ |- _ => by rewrite H in * end.
Qed.

Lemma write_target_total id f d : exists_row (is_target orgID id) (automation_targets d) = true -> exists d', write_target now orgID id f d = Ok d'.
Proof. unfold write_target. intros ->. eauto. Qed.
Lemma RetireGeneration_total d g reason : auto_inv d -> In g (automation_target_sessions d) -> ag_org_id g = orgID ->
  (exists d' g', RetireGeneration now orgID (ag_id g) reason d = Ok (d', g') /\ automation_runs d' = automation_runs d)
  \/ RetireGeneration now orgID (ag_id g) reason d = Err ErrAutomationTargetGenerationNotActive.
Proof.
  intros [Hgi Hri] Hg Eo. destruct (gi_target _ _ _ Hgi g Hg) as (t & Ht & E1 & E2).
  assert (exists_row (is_target orgID (ag_target_id g)) (automation_targets d) = true) as Hx.
  { apply exists_row_true. exists t. split; [done|]. unfold is_target. by rewrite !bool_decide_eq_true_2 by congruence. }
  unfold RetireGeneration. rewrite (one_row_unique ag_id _ _ _ g (gi_ids _ _ _ Hgi) Hg).
  - case_match; [by right|left]. set (d2 := if _ || _ then _ else release_owner _ _ _ _).
    assert (automation_targets d2 = automation_targets d /\ automation_runs d2 = automation_runs d) as [Et Er] by (unfold d2; by case_match).
    destruct (write_target_total (ag_target_id g) (fun t => t <| at_wake_requested_at := Some now |>) d2) as [d3 H3]; [by rewrite Et|].
    unfold RequestWake. rewrite H3. eexists _, _. split; [done|]. apply write_target_ok in H3 as [-> _]. exact Er.
  - unfold is_generation. by rewrite Hx, !bool_decide_eq_true_2.
  - intros y _ Hy. unfold is_generation in Hy. by reflect_bools.
Qed.
Lemma GetTargetByID_total id d : exists_row (is_target orgID id) (automation_targets d) = true -> exists t, GetTargetByID orgID id d = Ok t.
Proof. intros (t & Ht & Hp)%exists_row_true. by apply (one_row_found _ _ _ t). Qed.
Lemma TerminalLifecycleRetirement_total id d : exists_row (is_target orgID id) (automation_targets d) = true ->
  exists o, TerminalLifecycleRetirement orgID id d = Ok o.
Proof. intros [t Ht]%GetTargetByID_total. unfold TerminalLifecycleRetirement. rewrite Ht. eauto. Qed.
Lemma RetireTerminalTarget_total id d : auto_inv d -> exists_row (is_target orgID id) (automation_targets d) = true ->
  exists d' o, RetireTerminalTarget now orgID id d = Ok (d', o) /\ automation_runs d' = automation_runs d.
Proof.
  intros Hi Hx. unfold RetireTerminalTarget. destruct (TerminalLifecycleRetirement_total id d Hx) as [[reason|] ->]; [|eauto].
  destruct (GetActiveGeneration orgID id d) as [g|] eqn:E; [|eauto]. apply one_row_ok in E as [Hg Hp].
  unfold active_generation_of in Hp. reflect_bools.
  destruct (RetireGeneration_total d g reason Hi Hg) as [(d' & g' & -> & Hr)| ->]; [done|eauto|].
  rewrite bool_decide_eq_true_2 by done. eauto.
Qed.
Lemma enqueueWake_total fresh t d : exists d', enqueueWake now orgID fresh t d = Ok d' /\ automation_runs d' = automation_runs d.
Proof.
  unfold enqueueWake. destruct (Enqueue _ _ _ _ _ _ _ _ _) as [[p j]|] eqn:E; [eauto|]. exfalso.
  unfold Enqueue, enqueueOn in E. cbn in E. repeat case_match; simplify_eq.
Qed.

Lemma marker_or_none d r : has_marker d r = negb (is_null (head (select (marker_of r) (automation_run_results d)))).
Proof.
  unfold has_marker. destruct (select (marker_of r) (automation_run_results d)) as [|m l] eqn:E; simpl.
  - apply exists_row_false. intros m Hm. apply not_true_iff_false. intros Hp.
    assert (In m (select (marker_of r) (automation_run_results d))) as Hin by (by apply in_filter_iff). by rewrite E in Hin.
  - apply select_first in E as [Hm Hp]. apply exists_row_true. eauto.
Qed.

(** The row of the run once its turn has ended. *)
Lemma put_run_only d r r' : List.NoDup (map ar_id (automation_runs d)) -> In r (automation_runs d) -> same_run r r' ->
  forall x, In x (automation_runs (put_run r' d)) -> ar_id x = ar_id r -> x = r'.
Proof.
  intros Hnd Hr Hs x [->|[Hx Hne]]%(in_replace ar_id r r' _ x Hnd Hr (proj1 Hs)) E; [done|]. destruct Hne. by apply (map_key_inj ar_id (automation_runs d)).
Qed.

Variables (d : AutoDB) (r : AutomationRun) (id job : uuid) (stale : time).
Hypothesis inv : auto_inv d.
Hypothesis r_in : In r (automation_runs d).
Hypothesis r_is : is_run orgID id r = true.
Hypothesis r_left : abandoned now stale d r = true.
Hypothesis r_job : ar_job_id r = Some job.

Let d0 : AutoDB := revoke now orgID job d.
Let inv0 : auto_inv d0 := calm_inv d d0 inv (revoke_calm now d orgID job).

Lemma r_facts : executing r = true /\ no_live_lease now d r = true /\ ar_org_id r = orgID.
Proof.
  pose proof r_left as Hl. unfold abandoned in Hl. pose proof r_is as H. unfold is_run in H. by reflect_bools.
Qed.

(** The turn [r] has ended with the outcome [o]. *)
Definition settled (o : AutomationRunOutcomeReason) (d1 : AutoDB) : Prop :=
  forall x, In x (automation_runs d1) -> is_run orgID id x = true ->
    ar_dispatch_state x = Some AutomationRunDispatchDone /\ ar_outcome_reason x = Some o.

Lemma put_settled o r' d1 : same_run r r' -> ar_dispatch_state r' = Some AutomationRunDispatchDone -> ar_outcome_reason r' = Some o ->
  automation_runs d1 = automation_runs (put_run r' d) -> settled o d1.
Proof.
  intros Hs H1 H2 E x Hx Hp. rewrite E in Hx. assert (x = r') as -> by
    (apply (put_run_only d r r' (ri_ids _ _ (ai_runs _ inv)) r_in Hs _ Hx); by eapply run_key). done.
Qed.

(** With a marker the turn completes. *)
Lemma complete_marked m l : select (marker_of r) (automation_run_results d) = m :: l ->
  exists d1 c g, CompleteFromMarker now orgID id job uuid_Nil None d = Ok (d1, Some c)
    /\ cp_Outcome c = OutcomeReason (rr_outcome m) /\ settled (OutcomeReason (rr_outcome m)) d1
    /\ In g (automation_target_sessions d) /\ turn_in g r = true /\ cp_GenerationID c = ag_id g /\ cp_TargetID c = ag_target_id g.
Proof.
  intros Hm. destruct r_facts as (He & Hlease & Eo).
  destruct (turn_target d r inv r_in He Eo) as (g & Hg & Ht & Ego & Et & Hx). pose proof (turn_in_target g r Ht) as (F1 & F2 & F3).
  assert (completion_fence now orgID id job uuid_Nil d0 r = true) as Hf.
  { unfold completion_fence. rewrite r_is, He, r_job. unfold has_marker, d0. change (automation_run_results _) with (automation_run_results d).
    fold (has_marker d r). rewrite (marker_or_none d r), Hm, (revoked_lease d r job Hlease), orb_true_r. unfold col_is. by rewrite bool_decide_eq_true_2. }
  unfold CompleteFromMarker. rewrite (lock_ok d r id job inv r_in r_is He r_job). fold d0.
  destruct (select_unique ar_id (fun r => is_run orgID id r && executing r) (automation_runs d0) r (ri_ids _ _ (ai_runs _ inv0)) r_in) as [k Hk];
    [by rewrite r_is|intros y _ Hy; reflect_bools; by eapply run_key|]. rewrite Hk. clear k Hk.
  change (automation_run_results d0) with (automation_run_results d). rewrite Hm. cbv zeta. rewrite Hf. cbn [negb].
  unfold turn_of. rewrite F2, F3. cbn [from_option Datatypes.id].
  rewrite (set_run_put now d0 _ _ r (ri_ids _ _ (ai_runs _ inv0)) r_in Hf);
    [|done|intros y _ Hy; unfold completion_fence in Hy; reflect_bools; by eapply run_key].
  set (r' := _ <| ar_updated_at := now |>).
  rewrite (one_row_unique ag_id (generation_numbered orgID (ag_target_id g) (ag_generation g)) (automation_target_sessions (put_run r' d0)) _ g
             (gi_ids _ _ _ (ai_generations _ inv0)) Hg).
  - eexists _, _, g. split; [reflexivity|]. split; [done|]. split; [|done]. by apply (put_settled _ r').
  - unfold generation_numbered. by rewrite !bool_decide_eq_true_2, Z.eqb_refl.
  - intros y Hy Hn. unfold generation_numbered in Hn. apply andb_true_iff in Hn as [Hn Hz%Z.eqb_eq]. reflect_bools.
    f_equal. apply (gi_numbers _ _ _ (ai_generations _ inv)); [exact Hy|exact Hg|congruence..].
Qed.

Lemma recover_marked fresh m l : select (marker_of r) (automation_run_results d) = m :: l ->
  exists d1 c, Complete now orgID fresh id job uuid_Nil d = Ok (d1, Some c) /\ cr_Outcome c = OutcomeReason (rr_outcome m)
    /\ settled (OutcomeReason (rr_outcome m)) d1.
Proof.
  intros Hm. destruct (complete_marked m l Hm) as (d1 & c & g & Hc & Ho & Hs & Hg & Ht & Eg & Et).
  pose proof (CompleteFromMarker_evolves _ _ _ _ _ _ _ _ _ inv Hc) as Hev. pose proof (evolves_inv d d1 inv Hev) as Hi1.
  destruct r_facts as (He & _ & Eo). pose proof (turn_in_target g r Ht) as (F1 & _).
  destruct (evolves_generations d d1 g inv Hev Hg) as (g1 & Hg1 & A1 & A2 & A3 & _).
  destruct (gi_target _ _ _ (ai_generations _ Hi1) g1 Hg1) as (t & Ht1 & B1 & B2).
  assert (exists_row (is_target orgID (cp_TargetID c)) (automation_targets d1) = true) as Hx.
  { apply exists_row_true. exists t. split; [done|]. unfold is_target. by rewrite !bool_decide_eq_true_2 by congruence. }
  unfold Complete. rewrite Hc.
  assert (exists reason, (if cp_RetireGeneration c then Ok (Some AutomationTargetRetiredAwaitingInput)
            else TerminalLifecycleRetirement orgID (cp_TargetID c) d1) = Ok reason) as [reason ->].
  { destruct (cp_RetireGeneration c); [eauto|]. by apply TerminalLifecycleRetirement_total. }
  assert (exists d2 retired, match reason with
            | Some why => let? (d', ok) := complete_retirement now orgID (cp_GenerationID c) why d1 in Ok (d', if ok : bool then Some why else None)
            | None => Ok (d1, None)
            end = Ok (d2, retired) /\ automation_runs d2 = automation_runs d1) as (d2 & retired & -> & Er).
  { destruct reason as [why|]; [|eauto]. unfold complete_retirement. rewrite Eg, <- A1.
    destruct (RetireGeneration_total d1 g1 why Hi1 Hg1) as [(d2 & g2 & -> & Er)| ->]; [congruence|eauto|].
    rewrite bool_decide_eq_true_2 by done. eauto. }
  destruct (enqueueWake_total fresh (cp_TargetID c) d2) as (d3 & -> & Er3).
  eexists _, _. split; [done|]. split; [done|]. intros x Hx3. apply Hs. congruence.
Qed.

(** Without one its retries are exhausted. *)
Lemma recover_unmarked fresh1 fresh2 : select (marker_of r) (automation_run_results d) = [] ->
  Complete now orgID fresh1 id job uuid_Nil d = Ok (d, None)
  /\ exists d1, fail_exhausted now orgID fresh2 id stale d = Ok (d1, true) /\ settled AutomationRunOutcomeRetriesExhausted d1.
Proof.
  intros Hm. destruct r_facts as (He & Hlease & Eo). split.
  - unfold Complete, CompleteFromMarker. rewrite (lock_ok d r id job inv r_in r_is He r_job). fold d0.
    destruct (select_unique ar_id (fun r => is_run orgID id r && executing r) (automation_runs d0) r (ri_ids _ _ (ai_runs _ inv0)) r_in) as [k Hk];
      [by rewrite r_is|intros y _ Hy; reflect_bools; by eapply run_key|]. rewrite Hk.
    change (automation_run_results d0) with (automation_run_results d). by rewrite Hm.
  - assert (exists d1 t, FailRetriesExhausted now orgID id stale d = Ok (d1, Some t) /\ settled AutomationRunOutcomeRetriesExhausted d1
              /\ ar_target_id r = Some t) as (d1 & t & Hf & Hs & Et).
    { unfold FailRetriesExhausted. rewrite (lock_ok d r id job inv r_in r_is He r_job). fold d0.
      assert (abandoned now stale d0 r = true) as Hab.
      { pose proof r_left as Hl. unfold abandoned in *. rewrite He in *. unfold d0. rewrite (revoked_lease d r job Hlease).
        rewrite Hlease in Hl. reflect_bools. rewrite r_job. cbn [is_null negb andb]. apply orb_true_iff.
        match goal with H : job_terminal d r || _ = true |- _ => apply orb_true_iff in H as [H|H] end; [left; by apply revoked_terminal|by right]. }
      assert (has_marker d0 r = false) as Hnm by (change (has_marker d0 r) with (has_marker d r); by rewrite (marker_or_none d r), Hm).
      set (p := fun r => is_run orgID id r && abandoned now stale d0 r && negb (has_marker d0 r)).
      assert (p r = true) as Hp by (unfold p; by rewrite r_is, Hab, Hnm).
      destruct (select_unique ar_id p (automation_runs d0) r (ri_ids _ _ (ai_runs _ inv0)) r_in Hp) as [k Hk];
        [intros y _ Hy; unfold p in Hy; reflect_bools; by eapply run_key|]. rewrite Hk.
      destruct (turn_target d r inv r_in He Eo) as (g & _ & _ & _ & Et & _). unfold turn_of. rewrite Et. cbn [from_option Datatypes.id].
      rewrite (set_run_put now d0 p _ r (ri_ids _ _ (ai_runs _ inv0)) r_in Hp);
        [|done|intros y _ Hy; unfold p in Hy; reflect_bools; by eapply run_key].
      set (r' := _ <| ar_updated_at := now |>). eexists _, _. split; [reflexivity|]. split; [by apply (put_settled _ r')|done]. }
    pose proof (FailRetriesExhausted_evolves _ _ _ _ _ _ _ inv Hf) as Hev. pose proof (evolves_inv d d1 inv Hev) as Hi1.
    destruct (turn_target d r inv r_in He Eo) as (g & _ & _ & _ & Et' & Hx). rewrite Et in Et'. injection Et' as ->.
    destruct (RetireTerminalTarget_total (ag_target_id g) d1 Hi1) as (d2 & o2 & H2 & Er2);
      [by eapply targets_kept_exists; [apply evolves_targets|]|].
    destruct (enqueueWake_total fresh2 (ag_target_id g) d2) as (d3 & H3 & Er3).
    exists d3. unfold fail_exhausted. rewrite Hf, H2, H3. split; [done|]. intros x Hx3. apply Hs. congruence.
Qed.
End Recovery.

(** C23: a turn whose job no process holds any more is always settled by the
    sweep: with the outcome of its marker when it left one, as exhausted
    retries otherwise; the recovery of an abandoned run never fails. *)
Theorem abandoned_turn_is_settled used d r now orgID runID jobID staleBefore fresh1 fresh2 :
  auto_reachable used d -> In r (automation_runs d) -> is_run orgID runID r = true ->
  abandoned now staleBefore d r = true -> ar_job_id r = Some jobID ->
  exists d' o, RecoverAbandonedRun now orgID fresh1 fresh2 runID jobID staleBefore d = Ok (d', Some o)
    /\ o = match select (marker_of r) (automation_run_results d) with
           | m :: _ => OutcomeReason (rr_outcome m)
           | [] => AutomationRunOutcomeRetriesExhausted
           end
    /\ forall x, In x (automation_runs d') -> is_run orgID runID x = true ->
         ar_dispatch_state x = Some AutomationRunDispatchDone /\ ar_outcome_reason x = Some o.
Proof.
  intros Hd%auto_reachable_inv Hr Hp Ha Hj. unfold RecoverAbandonedRun.
  destruct (select (marker_of r) (automation_run_results d)) as [|m l] eqn:E.
  - destruct (recover_unmarked now orgID d r runID jobID staleBefore Hd Hr Hp Ha Hj fresh1 fresh2 E) as (-> & d1 & -> & Hs). eauto.
  - destruct (recover_marked now orgID d r runID jobID staleBefore Hd Hr Hp Ha Hj fresh1 m l E) as (d1 & c & -> & Ho & Hs).
    rewrite Ho. eauto.
Qed.
Lemma abandoned_turn_is_settled_witness : exists d', RecoverAbandonedRun (t0 + 2 * hour) "org1" "j5" "j6" "run1" "jt" (t0 + hour) d_attempt
  = Ok (d', Some AutomationRunOutcomeRetriesExhausted).
Proof.
  destruct (abandoned_turn_is_settled ["tok1"] d_attempt (run1 d_attempt) (t0 + 2 * hour) "org1" "run1" "jt" (t0 + hour) "j5" "j6")
    as (d' & o & H & -> & _); [exact reached_attempt|vm_compute; by left|by vm_compute|by vm_compute|by vm_compute|].
  exists d'. exact H.
Defined.

(** ** Stale attempts *)

(** Seen from the execution plane, the system reaches what the plane reaches. *)
Lemma reachable_plane used d : auto_reachable used d -> reachable used (plane d).
Proof. intros H. exact (auto_steps_plane [] empty_auto used d empty_auto_inv H). Qed.

Section Fenced.
Variables (d : AutoDB) (tok : uuid).
Hypothesis unheld : forall j, In j (jobs (plane d)) -> phase_of j <> Held tok.

Lemma not_held r : job_held tok r d = false.
Proof.
  apply exists_row_false. intros j Hj. apply not_true_iff_false. intros Hp. unfold col_is in Hp. reflect_bools.
  apply (unheld j Hj). unfold phase_of. by repeat match goal with H : _ = _ |- _ => rewrite H end.
Qed.
Lemma no_attempt org id : exists_row (attempt_fence org id tok d) (automation_runs d) = false.
Proof. apply exists_row_false. intros r _. unfold attempt_fence. by rewrite (not_held r), andb_false_r. Qed.

Lemma set_runs_none now p f : exists_row p (automation_runs d) = false -> write_runs now p f d = (d, false).
Proof.
  intros H. unfold write_runs, set_runs. rewrite H. f_equal. rewrite (update_none _ _ _ H). by destruct d.
Qed.

Lemma attempt_writes_fail now org id : tok <> uuid_Nil ->
  (forall ws, RecordTurnWorkspace now org id tok ws d = Ok (d, false))
  /\ (forall ms, RecordTurnDuration now org id tok ms d = (d, false))
  /\ (forall head, RecordTurnBaseline now org id tok head d = (d, false))
  /\ (forall reason head, continuation_reason_valid reason = true -> RecordContinuationFallback now org id tok reason head d = Ok (d, false))
  /\ (forall s status, EndInterruptedAttempt now org id s tok status d = Ok (d, false))
  /\ (forall th turn res agent, CompleteThreadTurnForAttempt now org id tok th turn res agent d = Ok (d, false))
  /\ (forall th status res, FailThreadTurnForAttempt now org id tok th status res d = Ok (d, false))
  /\ (forall job m, rr_attempt_lock_token m = tok -> 0 < rr_attempt m -> Write now org job m d = Ok (d, false))
  /\ (forall job, (ClaimAttempt now org id job tok d).2 = None)
  /\ (forall o note, preflight_outcome o = true -> CompletePreflight now org id tok o note d = Ok (d, false)).
Proof.
  intros Hn. pose proof (no_attempt org id) as Hno.
  assert (forall f, write_runs now (attempt_fence org id tok d) f d = (d, false)) as Hw by (intros f; by apply set_runs_none).
  assert ((tok ==? uuid_Nil) = false) as Hnil by (by apply bool_decide_eq_false).
  assert (LockAttempt org id tok d = Ok false) as Hl by (unfold LockAttempt; by rewrite Hnil, Hno).
  split_and!.
  - intros ws. unfold RecordTurnWorkspace. by rewrite Hnil, Hw.
  - intros ms. apply Hw.
  - intros head. apply Hw.
  - intros reason head Hv. unfold RecordContinuationFallback. by rewrite Hv, Hw.
  - intros s status. unfold EndInterruptedAttempt. rewrite Hnil. rewrite exists_row_false; [done|].
    intros r Hr. by rewrite (exists_row_none _ _ r Hno Hr).
  - intros. unfold CompleteThreadTurnForAttempt, setThreadTurnForAttempt. by rewrite Hl.
  - intros. unfold FailThreadTurnForAttempt, setThreadTurnForAttempt. by rewrite Hl.
  - intros job m Em Hp. unfold Write. rewrite (proj2 (Z.leb_gt _ _)) by lia. rewrite Em, Hnil. rewrite exists_row_false; [done|].
    intros r Hr. unfold marker_fence, attempt_fence. by rewrite Em, (not_held r), !andb_false_r.
  - intros job. unfold ClaimAttempt. destruct (select _ _); [done|]. rewrite exists_row_false; [done|].
    intros j Hj. apply not_true_iff_false. intros Hp. unfold col_is in Hp. reflect_bools. apply (unheld j Hj). unfold phase_of.
    by repeat match goal with H : _ = _ |- _ => rewrite H end.
  - intros o note Ho. unfold CompletePreflight, CompleteExecutingPreflight. rewrite Ho, Hnil. cbn [negb].
    unfold lockAutomationRunLifecycle. destruct (one_row _ _ _) as [r|]; [|done].
    assert (match ar_job_id r with Some jobID => d | None => d end = d) as Ed by (by destruct (ar_job_id r)).
    rewrite Ed. destruct (select _ (automation_runs d)) as [|x l] eqn:E; [done|]. apply select_first in E as [Hx Hp].
    by rewrite (exists_row_none _ _ x Hno Hx) in Hp.
Qed.
End Fenced.

(** C22: once no job holds an attempt's lock token any more, that attempt can
    write nothing, then or ever after: workspace, duration, baseline, fallback,
    session and thread status, preflight outcome and result marker are all
    refused and leave the tables as they are. *)
Theorem stale_attempt_is_fenced used d used' d' tok now orgID runID :
  auto_reachable used d -> In tok used -> tok <> uuid_Nil -> (forall j, In j (jobs (plane d)) -> j_lock_token j <> Some tok) ->
  auto_steps used d used' d' ->
  (forall ws, RecordTurnWorkspace now orgID runID tok ws d' = Ok (d', false))
  /\ (forall ms, RecordTurnDuration now orgID runID tok ms d' = (d', false))
  /\ (forall head, RecordTurnBaseline now orgID runID tok head d' = (d', false))
  /\ (forall reason head, continuation_reason_valid reason = true -> RecordContinuationFallback now orgID runID tok reason head d' = Ok (d', false))
  /\ (forall s status, EndInterruptedAttempt now orgID runID s tok status d' = Ok (d', false))
  /\ (forall th turn res agent, CompleteThreadTurnForAttempt now orgID runID tok th turn res agent d' = Ok (d', false))
  /\ (forall th status res, FailThreadTurnForAttempt now orgID runID tok th status res d' = Ok (d', false))
  /\ (forall job m, rr_attempt_lock_token m = tok -> 0 < rr_attempt m -> Write now orgID job m d' = Ok (d', false))
  /\ (forall job, (ClaimAttempt now orgID runID job tok d').2 = None)
  /\ (forall o note, preflight_outcome o = true -> CompletePreflight now orgID runID tok o note d' = Ok (d', false)).
Proof.
  intros Hd Hu Hn Hno Hs. pose proof (reachable_inv _ _ (reachable_plane _ _ Hd)) as Hp.
  apply attempt_writes_fail; [|done].
  apply (steps_token used (plane d) used' (plane d') tok Hp); [|done|].
  - exact (auto_steps_plane used d used' d' (auto_reachable_inv _ _ Hd) Hs).
  - intros j Hin Hh. pose proof (qi_wf _ _ (pi_queue _ _ Hp)) as Hw. rewrite List.Forall_forall in Hw.
    destruct (held_running j tok (Hw j Hin) Hh) as [_ Ht]. by apply (Hno j).
Qed.
Lemma stale_attempt_is_fenced_witness : Write (t0 + minute) "org1" "jt" marker1 d_retried = Ok (d_retried, false).
Proof.
  destruct (stale_attempt_is_fenced ["tok1"] d_retried ["tok1"] d_retried "tok1" (t0 + minute) "org1" "run1")
    as (_ & _ & _ & _ & _ & _ & _ & H & _); [exact reached_retried|by left|done| |apply auto_refl|by apply H].
  vm_compute. by intros j [<-|[<-|[]]].
Defined.

(** ** Ownership *)

(** C24: the ownership of a session is never leaked.  Whoever owns it is the
    active generation of a target, or has a turn that still executes, or is
    listed for the next sweep, which takes the owner away. *)
Theorem ownership_is_never_leaked used d s gid : auto_reachable used d -> In s (sessions (plane d)) ->
  s_automation_owner_generation_id s = Some gid ->
  exists g, In g (automation_target_sessions d) /\ ag_id g = gid /\ ag_session_id g = s_id s
    /\ (ag_status g = AutomationTargetSessionStatusActive
        \/ (exists r, In r (automation_runs d) /\ turn_in g r = true /\ executing r = true)
        \/ In (gid, ag_target_id g) (ListStrandedOwnershipReleases (s_org_id s) d)
           /\ forall now fresh, exists d', releaseStrandedOwnership now (s_org_id s) fresh gid (ag_target_id g) d = Ok d'
                /\ forall s', In s' (sessions (plane d')) -> s_id s' = s_id s -> s_automation_owner_generation_id s' = None).
Proof.
  intros Hd%auto_reachable_inv Hs Ho. pose proof Hd as [Hgi Hri].
  destruct (gi_owner _ _ _ Hgi s gid Hs Ho) as (g & Hg & Eid & How & Es & Eo). exists g. do 3 (split; [done|]).
  pose proof How as How'. unfold owning in How. apply orb_true_iff in How as [Ha|Hp]; [left; by reflect_bools|right].
  destruct (exists_row (fun r => turn_in g r && executing r) (automation_runs d)) eqn:Ex.
  - left. apply exists_row_true in Ex as (r & Hr & [Ht He]%andb_true_iff). eauto.
  - right. assert (stranded (s_org_id s) d g = true) as Hst.
    { unfold stranded. rewrite Hp, (turn_executing_exists (s_org_id s) g d Eo), Ex, Eo. by rewrite bool_decide_eq_true_2. }
    split.
    + unfold ListStrandedOwnershipReleases. apply in_map_iff. exists g. rewrite Eid. split; [done|]. apply in_order_by, in_filter_iff. done.
    + intros now fresh. destruct (gi_target _ _ _ Hgi g Hg) as (t & Ht & E1 & E2).
      assert (exists_row (is_target (s_org_id s) (ag_target_id g)) (automation_targets d) = true) as Hx.
      { apply exists_row_true. exists t. split; [done|]. unfold is_target. by rewrite !bool_decide_eq_true_2 by congruence. }
      unfold releaseStrandedOwnership, ReleaseStrandedOwnership. destruct (GetTargetByID_total _ _ _ Hx) as [t' ->].
      set (p := fun x => is_generation (s_org_id s) gid x && (ag_target_id x ==? ag_target_id g) && stranded (s_org_id s) d x).
      assert (p g = true) as Hpg by (unfold p, is_generation; rewrite Hst, !bool_decide_eq_true_2 by congruence; done).
      destruct (select_unique ag_id p (automation_target_sessions d) g (gi_ids _ _ _ Hgi) Hg Hpg) as [k Hk];
        [intros y _ Hy; unfold p, is_generation in Hy; reflect_bools; congruence|]. rewrite Hk.
      set (d2 := wake _ _ _ _). destruct (enqueueWake_total now (s_org_id s) fresh (ag_target_id g) d2) as (d3 & H3 & _).
      exists d3. split; [done|]. assert (sessions (plane d3) = sessions (plane d2)) as ->.
      { unfold enqueueWake, Enqueue, enqueueOn in H3. cbn in H3. repeat case_match; simplify_eq; done. }
      intros s' (s0 & Hs0 & [[_ ->]|[Hq ->]])%in_update E; [done|].
      assert (s0 = s) as -> by (by apply (map_key_inj s_id (sessions (plane d))); [apply Hgi|..]).
      exfalso. revert Hq. pose proof (owned_session d g Hd Hg How' s Hs) as Hown. rewrite Eo, Eid in Hown. rewrite Hown.
      rewrite bool_decide_eq_true_2 by congruence. done.
Qed.
Lemma ownership_is_never_leaked_witness : exists s g, In s (sessions (plane d_completed)) /\ In g (automation_target_sessions d_completed)
  /\ s_automation_owner_generation_id s = Some (ag_id g) /\ ag_session_id g = s_id s.
Proof.
  destruct (sessions (plane d_completed)) as [|s l] eqn:E; [by vm_compute in E|].
  destruct (ownership_is_never_leaked ["tok1"] d_completed s "g1" reached_completed) as (g & Hg & Eg & Es & _).
  - rewrite E. by left.
  - vm_compute in E. by simplify_eq.
  - exists s, g. split; [by left|]. split; [done|]. rewrite Eg. split; [|done]. vm_compute in E. by simplify_eq.
Defined.

(** ** The lifecycle of a target *)

Lemma auto_step_targets d drawn d' : auto_inv d -> auto_step d drawn d' -> targets_kept (automation_targets d) (automation_targets d').
Proof. intros Hi [d1 Hop|as' rs|dr p Hs Ho]; [by apply evolves_targets, op_evolves|apply targets_kept_refl|apply targets_kept_refl]. Qed.
Lemma auto_steps_targets used d used' d' : auto_inv d -> auto_steps used d used' d' ->
  targets_kept (automation_targets d) (automation_targets d').
Proof.
  intros Hi. induction 1 as [|u d1 dr d2 Hs IH _ Hst]; [apply targets_kept_refl|].
  eapply targets_kept_trans; [exact IH|]. eapply auto_step_targets; [by eapply auto_steps_inv|exact Hst].
Qed.

(** A dispatch that starts a turn found a target whose lifecycle admits the
    event of the stored run. *)
Lemma reserved_is_allowed now wall maxAge sizeLimit ids inp before current d d' job ses th mode reason :
  Dispatch now wall maxAge sizeLimit ids inp before current d = Ok (d', DispatchReserved job ses th mode reason) ->
  exists repo d1 t run, targetRepository inp = Some repo
    /\ LockOrCreate now (ar_org_id (di_Run inp)) (f_target ids) (au_id (di_Automation inp)) repo (targetKeyForRun (di_Run inp)) d = Ok (d1, t)
    /\ In run (automation_runs d) /\ is_run (ar_org_id (di_Run inp)) (ar_id (di_Run inp)) run = true
    /\ AllowsEvent (at_lifecycle_state t) (rs_github_event (ar_config_snapshot run)) = true.
Proof.
  unfold Dispatch. case_match; [by intros [_ ?]%ok_pair|]. destruct (targetRepository inp) as [repo|] eqn:Erepo; [|done].
  destruct (LockOrCreate _ _ _ _ _ _ _) as [[d1 t]|] eqn:El; [|done]. case_match; [by intros [_ ?]%ok_pair|].
  destruct (select _ _) as [|a l]; [by intros [_ ?]%ok_pair|]. case_match; [by intros [_ ?]%ok_pair|]. case_match; [by intros [_ ?]%ok_pair|].
  destruct (automationExecutingUser a) as [user|]; [|done]. destruct (one_row _ _ _) as [run|] eqn:Er; [|done].
  case_match; [by intros [_ ?]%ok_pair|]. case_match; [by intros [_ ?]%ok_pair|]. intros Hg.
  apply LockOrCreate_calm in El as Hl. destruct Hl as (_ & _ & _ & Eruns & _). apply one_row_ok in Er as [Hin Hp]. rewrite Eruns in Hin.
  exists repo, d1, t, run. do 4 (split; [done|]). unfold dispatch_gate in Hg.
  destruct (AllowsEvent _ _); [done|]. by apply ok_pair in Hg as [_ ?].
Qed.

(** a merged pull request stays merged: whatever events, lookups and
    notifications arrive later and in whatever order, its target row keeps the
    state, and no turn starts for it but the one of the merge event itself. *)
Theorem merged_is_final used d used' d' t : auto_reachable used d -> In t (automation_targets d) ->
  at_lifecycle_state t = AutomationTargetLifecycleMerged -> auto_steps used d used' d' ->
  (forall t', In t' (automation_targets d') -> at_id t' = at_id t -> at_lifecycle_state t' = AutomationTargetLifecycleMerged)
  /\ forall now wall maxAge sizeLimit ids inp before current repo d1 t' d'' job ses th mode reason,
       targetRepository inp = Some repo ->
       LockOrCreate now (ar_org_id (di_Run inp)) (f_target ids) (au_id (di_Automation inp)) repo (targetKeyForRun (di_Run inp)) d' = Ok (d1, t') ->
       at_id t' = at_id t ->
       Dispatch now wall maxAge sizeLimit ids inp before current d' = Ok (d'', DispatchReserved job ses th mode reason) ->
       exists run, In run (automation_runs d') /\ is_run (ar_org_id (di_Run inp)) (ar_id (di_Run inp)) run = true /\ merged_run run = true.
Proof.
  intros Hd%auto_reachable_inv Ht Hm Hs. pose proof (auto_steps_inv _ _ _ _ Hd Hs) as Hd'.
  pose proof (auto_steps_targets _ _ _ _ Hd Hs) as Hk.
  destruct (grows_old _ _ _ _ _ _ Hk Ht) as (t1 & Ht1 & [E1 _ Hmm]). specialize (Hmm Hm). split.
  - intros t' Ht' E. assert (t' = t1) as -> by (apply (map_key_inj at_id (automation_targets d')); [apply Hd'|done|done|congruence]). done.
  - intros now wall maxAge sizeLimit ids inp before current repo d1 t' d'' job ses th mode reason Er El Et Hdis.
    destruct (reserved_is_allowed _ _ _ _ _ _ _ _ _ _ _ _ _ _ _ Hdis) as (repo' & d1' & t'' & run & Er' & El' & Hin & Hp & Ha).
    assert (repo' = repo) as -> by congruence. rewrite El in El'. apply ok_pair in El' as [<- <-].
    apply LockOrCreate_calm in El as (Hc & Ht' & _). destruct (grows_old _ _ _ _ _ _ (calm_targets _ _ Hc) Ht1) as (t2 & Ht2 & [F1 _ Fm]).
    assert (t' = t2) as -> by (apply (map_key_inj at_id (automation_targets d1)); [apply (calm_inv _ _ Hd' Hc)|done|done|congruence]).
    rewrite (Fm Hmm) in Ha. exists run. done.
Qed.
Definition d_merged : AutoDB := ok empty_auto (on_closed (t0 + minute) "org1" "j9" "tgt1" true (t0 + minute) d_completed).
Lemma merged_is_final_witness : exists t', In t' (automation_targets d_merged) /\ at_lifecycle_state t' = AutomationTargetLifecycleMerged.
Proof.
  destruct (automation_targets d_merged) as [|t l] eqn:E; [by vm_compute in E|]. exists t. split; [by left|].
  refine (proj1 (merged_is_final ["tok1"] d_merged ["tok1"] d_merged t _ _ _ (auto_refl _ _)) t _ eq_refl).
  - eapply auto_one; [exact reached_completed|].
    apply step_automation, (op_closed _ (t0 + minute) "org1" "j9" "tgt1" true (t0 + minute) d_merged). by vm_compute.
  - rewrite E. by left.
  - vm_compute in E. by simplify_eq.
  - rewrite E. by left.
Defined.

(** ** Lifecycle observations commute *)

(** One observation: when it is written, the state, and when GitHub says it
    became so. *)
Record LifecycleObservation := MkLifecycleObservation { ob_now : time; ob_state : AutomationTargetLifecycleState; ob_at : time }.

Definition observe_row (t : AutomationTarget) (o : LifecycleObservation) : AutomationTarget :=
  if lifecycle_admits (ob_state o) (Some (ob_at o)) t
  then (lifecycle_row (ob_state o) (Some (ob_at o)) t) <| at_updated_at := ob_now o |> else t.

(** Rows that no later observation tells apart. *)
Definition lifecycle_eq (t t' : AutomationTarget) : Prop :=
  at_lifecycle_state t = at_lifecycle_state t'
  /\ (at_lifecycle_state t = AutomationTargetLifecycleMerged \/ at_lifecycle_updated_at t = at_lifecycle_updated_at t').
#[local] Instance lifecycle_eq_equivalence : Equivalence lifecycle_eq.
Proof.
  split; unfold lifecycle_eq.
  - intros t. auto.
  - intros t u [E [H|H]]; split; auto; left; congruence.
  - intros t u v [E [H|H]] [F [G|G]]; split; try congruence; try (left; congruence). right. congruence.
Qed.
Lemma observe_merged t o : at_lifecycle_state t = AutomationTargetLifecycleMerged ->
  at_lifecycle_state (observe_row t o) = AutomationTargetLifecycleMerged.
Proof.
  intros Hm. unfold observe_row. case_match eqn:E; [|done]. unfold lifecycle_admits in E. rewrite Hm in E. cbn.
  destruct (ob_state o); [by vm_compute in E|by vm_compute in E|done].
Qed.
#[local] Instance observe_row_proper : Proper (lifecycle_eq ==> eq ==> lifecycle_eq) observe_row.
Proof.
  intros t u [E H] o ? <-. destruct H as [Hm|Ht].
  - split; [|left]; rewrite ?(observe_merged t o Hm), ?(observe_merged u o) by congruence; done.
  - unfold observe_row, lifecycle_admits. rewrite <- E, <- Ht. case_match; [|split; auto]. split; [done|]. right. cbn. by rewrite E, Ht.
Qed.

(** The two columns an observation reads and writes. *)
Abbreviation lifecycle := (AutomationTargetLifecycleState * option time)%type.
Definition observe_columns (l : lifecycle) (s : AutomationTargetLifecycleState) (a : time) : lifecycle :=
  let newer := match l.2 with Some e => e <=? a | None => true end in
  match l.1, s with
  | _, AutomationTargetLifecycleMerged
  | AutomationTargetLifecycleOpen, AutomationTargetLifecycleOpen
  | AutomationTargetLifecycleClosed, AutomationTargetLifecycleClosed => (s, greatest l.2 (Some a))
  | AutomationTargetLifecycleMerged, _ => l
  | _, _ => if newer then (s, Some a) else l
  end.
Definition lifecycle_of (t : AutomationTarget) : lifecycle := (at_lifecycle_state t, at_lifecycle_updated_at t).

Lemma observe_row_columns t o : lifecycle_of (observe_row t o) = observe_columns (lifecycle_of t) (ob_state o) (ob_at o).
Proof.
  unfold observe_row, lifecycle_admits, lifecycle_of, observe_columns, lifecycle_row. cbn [fst snd].
  destruct (at_lifecycle_state t) eqn:Es, (ob_state o) eqn:Eo; rewrite ?(bool_decide_eq_true_2 (_ = _)), ?(bool_decide_eq_false_2 (_ = _)) by done;
    cbn [negb orb andb]; try (case_match; cbn; by rewrite ?Es); cbn; by rewrite ?Es.
Qed.

Lemma columns_commute l s s' a a' : a <> a' ->
  let x := observe_columns (observe_columns l s a) s' a' in let y := observe_columns (observe_columns l s' a') s a in
  x.1 = y.1 /\ (x.1 = AutomationTargetLifecycleMerged \/ x.2 = y.2).
Proof.
  intros Hne. destruct l as [st [e|]], st, s, s'; cbn [observe_columns fst snd greatest];
    repeat (case_match; cbn [observe_columns fst snd greatest]); reflect_bools;
    (split; [first [done|exfalso; lia]|]); first [by left|right; first [done|f_equal; lia|exfalso; lia]].
Qed.

Lemma observe_commutes t o o' : ob_at o <> ob_at o' -> lifecycle_eq (observe_row (observe_row t o) o') (observe_row (observe_row t o') o).
Proof.
  intros Hne. pose proof (columns_commute (lifecycle_of t) (ob_state o) (ob_state o') (ob_at o) (ob_at o') Hne) as H. cbv zeta in H.
  by rewrite <- !observe_row_columns in H.
Qed.

Lemma observe_permuted obs obs' : Permutation obs obs' -> List.NoDup (map ob_at obs) ->
  forall t, lifecycle_eq (fold_left observe_row obs t) (fold_left observe_row obs' t).
Proof.
  intros Hp. assert (forall l t u, lifecycle_eq t u -> lifecycle_eq (fold_left observe_row l t) (fold_left observe_row l u)) as Hf.
  { induction l as [|o l IH]; intros t u H; [done|]. cbn. apply IH. by rewrite H. }
  induction Hp as [|o l l' _ IH|o o' l|l l' l'' H1 IH1 H2 IH2]; intros Hnd t.
  - reflexivity.
  - cbn. apply IH. by inversion Hnd.
  - cbn. apply Hf. symmetry. apply observe_commutes. inversion_clear Hnd as [|? ? Hn _]. intros E. apply Hn. cbn. by left.
  - rewrite IH1 by done. apply IH2. eapply Permutation_NoDup; [|exact Hnd]. by apply Permutation_map.
Qed.

Fixpoint observe_all (orgID targetID : uuid) (obs : list LifecycleObservation) (d : AutoDB) : result AutoDB :=
  match obs with
  | [] => Ok d
  | o :: rest => let? (d1, _) := SetLifecycleObserved (ob_now o) orgID targetID (ob_state o) (Some (ob_at o)) d in observe_all orgID targetID rest d1
  end.

Lemma set_targets_keys now p f d : (forall t, at_id (f t) = at_id t) ->
  map at_id (automation_targets (set_targets now p f d)) = map at_id (automation_targets d).
Proof. intros H. apply update_key. intros t. exact (H t). Qed.

Lemma observe_all_row orgID targetID obs d d' t : List.NoDup (map at_id (automation_targets d)) -> In t (automation_targets d) ->
  is_target orgID targetID t = true -> observe_all orgID targetID obs d = Ok d' ->
  List.NoDup (map at_id (automation_targets d')) /\ In (fold_left observe_row obs t) (automation_targets d')
  /\ is_target orgID targetID (fold_left observe_row obs t) = true.
Proof.
  revert d t. induction obs as [|o obs IH]; intros d t Hnd Ht Hp; cbn [observe_all fold_left]; [by intros <-%ok_inj|].
  unfold SetLifecycleObserved. destruct (negb _); [done|]. intros Hend. eapply IH; [..|exact Hend].
  - by rewrite set_targets_keys.
  - apply in_update. exists t. split; [done|]. unfold observe_row. rewrite Hp. cbn [andb]. case_match; auto.
  - unfold observe_row. by case_match.
Qed.

(** the order in which the observations of a pull request arrive does not
    matter.  As long as GitHub dates them differently, every order leaves the
    target in the same lifecycle state. *)
Theorem lifecycle_order_is_irrelevant used d orgID targetID obs obs' d1 d2 t1 t2 :
  auto_reachable used d -> Permutation obs obs' -> List.NoDup (map ob_at obs) ->
  observe_all orgID targetID obs d = Ok d1 -> observe_all orgID targetID obs' d = Ok d2 ->
  GetTargetByID orgID targetID d1 = Ok t1 -> GetTargetByID orgID targetID d2 = Ok t2 ->
  (exists t, In t (automation_targets d) /\ is_target orgID targetID t = true) -> at_lifecycle_state t1 = at_lifecycle_state t2.
Proof.
  intros Hd%auto_reachable_inv Hp Hnd H1 H2 G1 G2 (t & Ht & Hpt). pose proof (gi_targets _ _ _ (ai_generations _ Hd)) as Hids.
  destruct (observe_all_row _ _ _ _ _ _ Hids Ht Hpt H1) as (N1 & I1 & P1).
  destruct (observe_all_row _ _ _ _ _ _ Hids Ht Hpt H2) as (N2 & I2 & P2).
  assert (forall l x y, List.NoDup (map at_id l) -> In x l -> In y l -> is_target orgID targetID x = true ->
            is_target orgID targetID y = true -> x = y) as Hu.
  { intros l x y Hn Hx Hy Px Py. apply (map_key_inj at_id l); try done. unfold is_target in *. reflect_bools. congruence. }
  apply one_row_ok in G1 as [J1 Q1]. apply one_row_ok in G2 as [J2 Q2].
  rewrite (Hu _ _ _ N1 J1 I1 Q1 P1), (Hu _ _ _ N2 J2 I2 Q2 P2). apply (observe_permuted obs obs' Hp Hnd t).
Qed.
Definition obs1 : list LifecycleObservation :=
  [MkLifecycleObservation t0 AutomationTargetLifecycleClosed (t0 + minute); MkLifecycleObservation t0 AutomationTargetLifecycleOpen (t0 + hour)].
Definition observed (obs : list LifecycleObservation) : AutoDB := ok empty_auto (observe_all "org1" "tgt1" obs d_completed).
Definition observed_target (obs : list LifecycleObservation) : AutomationTarget :=
  ok (new_target t0 "" "" "" "" "") (GetTargetByID "org1" "tgt1" (observed obs)).
Lemma lifecycle_order_is_irrelevant_witness :
  at_lifecycle_state (observed_target obs1) = at_lifecycle_state (observed_target (rev obs1))
  /\ at_lifecycle_state (observed_target obs1) = AutomationTargetLifecycleOpen.
Proof.
  split; [|by vm_compute].
  apply (lifecycle_order_is_irrelevant ["tok1"] d_completed "org1" "tgt1" obs1 (rev obs1) (observed obs1) (observed (rev obs1))).
  - exact reached_completed.
  - apply Permutation_rev.
  - vm_compute. constructor; [by intros [E|[]]|]. constructor; [by intros []|apply List.NoDup_nil].
  - by vm_compute.
  - by vm_compute.
  - by vm_compute.
  - by vm_compute.
  - destruct (automation_targets d_completed) as [|t l] eqn:E; [by vm_compute in E|]. exists t. split; [by left|].
    vm_compute in E. by simplify_eq.
Defined.

(** ** Refinement and bounds *)

(** C31: every run of automations, seen from the execution plane, is a run of
    the plane: no transaction of theirs writes a job, executor, runtime, inbox
    entry or node in a way the plane's own operations do not, so everything
    proved of the plane holds with automations running. *)
Theorem automations_stay_in_the_plane used d used' d' : auto_reachable used d -> auto_steps used d used' d' ->
  reachable used (plane d) /\ steps used (plane d) used' (plane d').
Proof.
  intros Hd Hs. split; [by apply reachable_plane|]. exact (auto_steps_plane used d used' d' (auto_reachable_inv _ _ Hd) Hs).
Qed.
Lemma automations_stay_in_the_plane_witness : reachable ["tok1"] (plane d_completed)
  /\ steps ["tok1"] (plane d_completed) ["tok1"] (plane d_completed).
Proof. exact (automations_stay_in_the_plane ["tok1"] d_completed ["tok1"] d_completed reached_completed (auto_refl _ _)). Defined.

(** Five doublings are enough: the backoff stops for a reason, and lies
    between 30 seconds and 10 minutes. *)
Lemma backoff_from_spec n delay elapsed : 0 < delay -> automationHeadLookupRetryMax <= delay * 2 ^ Z.of_nat n ->
  let b := backoff_from n delay elapsed in
  delay <= b /\ (b < automationHeadLookupRetryMax -> elapsed < b * 2).
Proof.
  revert delay. induction n as [|n IH]; intros delay Hd Hn; cbn [backoff_from]; [simpl in Hn; lia|].
  destruct ((delay <? automationHeadLookupRetryMax) && (delay * 2 <=? elapsed)) eqn:E.
  - assert (0 < delay * 2) as Hd' by lia. destruct (IH (delay * 2) Hd') as [H1 H2]; [rewrite Nat2Z.inj_succ, Z.pow_succ_r in Hn by lia; lia|].
    cbv zeta in *. split; [lia|done].
  - cbv zeta. split; [lia|]. intros Hb. apply andb_false_iff in E as [E|E]; reflect_bools; lia.
Qed.
Theorem head_backoff_is_bounded wall r : let b := headLookupBackoff wall r in
  automationHeadLookupRetryMin <= b <= automationHeadLookupRetryMax
  /\ (b < automationHeadLookupRetryMax -> Sub wall (default (ar_triggered_at r) (ar_wait_started_at r)) < b * 2).
Proof.
  cbv zeta. unfold headLookupBackoff. set (e := Sub _ _).
  destruct (backoff_from_spec 5 automationHeadLookupRetryMin e) as [H1 H2]; [done|done|]. cbv zeta in *.
  unfold automationHeadLookupRetryMin, automationHeadLookupRetryMax in *. split; [split; [unfold minute, second in *; lia|lia]|].
  intros Hb. rewrite Z.min_l by lia. apply H2. lia.
Qed.

(** ** Behaviours that differ from what is intended *)

(** A lookup that is older than the observed head is adopted all the same: the
    head and its date move back. *)
Definition d_ahead : AutoDB := (ok (empty_auto, 0) (AdoptHead (t0 + hour) "org1" "tgt1" "h2" (Some (t0 + hour)) d_completed)).1.
Lemma stale_lookup_is_adopted : exists t d' e t', GetTargetByID "org1" "tgt1" d_ahead = Ok t
  /\ at_observed_head_sha t = Some "h2" /\ at_observed_head_updated_at t = Some (t0 + hour)
  /\ observe_lookup (t0 + 2 * hour) "org1" t "run2" (MkHeadInfo "h1" (Some t0) "open" "main") d_ahead = Ok (d', e, true)
  /\ GetTargetByID "org1" "tgt1" d' = Ok t' /\ at_observed_head_sha t' = Some "h1" /\ at_observed_head_updated_at t' = Some t0.
Proof. eexists _, _, _, _. split; [by vm_compute|]. do 2 (split; [by vm_compute|]). split; [by vm_compute|]. by vm_compute. Qed.

(** Deleting an automation leaves its generations active and the owners of
    their sessions. *)
Lemma deleted_automation_keeps_its_sessions : exists d' s, SoftDelete (t0 + hour) "org1" "au1" d_completed = Ok d'
  /\ In s (sessions (plane d')) /\ s_automation_owner_generation_id s = Some "g1"
  /\ map ag_status (automation_target_sessions d') = [AutomationTargetSessionStatusActive].
Proof. eexists _, _. split; [by vm_compute|]. split; [vm_compute; by left|]. by vm_compute. Qed.
