(* ===== verification/GoStrings.v ===== *)
(** * Substrings

    [strings.Cut], [strings.Contains], [strings.HasPrefix] and the hexadecimal
    SHA-256 digest, with the lemmas that texts assembled around a marker need. *)

From S2P Require Import Prelude GoRuntime.
From stdpp Require Import base option list strings.
From Stdlib Require Import Ascii.

Open Scope string_scope.
Open Scope Z_scope.

(** [s[n:]]. *)
Definition slice_from (n : nat) (s : string) : string := String.substring n (String.length s) s.
#[global] Arguments slice_from : simpl never.

(** [strings.Cut(s, sep)]: the text before the first [sep] and after it. *)
Fixpoint Cut (s sep : string) : option (string * string) :=
  if String.prefix sep s then Some ("", slice_from (String.length sep) s)
  else match s with
       | String a s' => match Cut s' sep with Some (b, r) => Some (String a b, r) | None => None end
       | EmptyString => None
       end.

Definition HasPrefix (s p : string) : bool := String.prefix p s.

(** [fmt.Sprintf("%x", sum)] of a digest given as eight 32-bit words. *)
Definition hex_char (n : Z) : ascii := nth (Z.to_nat n) (String.list_ascii_of_string "0123456789abcdef") "0"%char.
Fixpoint hex_word (n : nat) (z : Z) : list ascii :=
  match n with O => [] | S m => hex_word m (z / 16) ++ [hex_char (z mod 16)] end.
Definition hex_digest (s : string) : string :=
  String.string_of_list_ascii (concat (map (hex_word 8) (Sha256.Sum256 (Sha256.bytes_of s)))).

Example hex_digest_abc : hex_digest "abc" = "ba7816bf8f01cfea414140de5dae2223b00361a396177a9cb410ff61f20015ad".
Proof. by vm_compute. Qed.

(** ** Prefixes and concatenation *)

Lemma append_assoc (a b c : string) : (a +:+ b) +:+ c = a +:+ (b +:+ c).
Proof. induction a as [|x a IH]; [done|]. change (String x ((a +:+ b) +:+ c) = String x (a +:+ (b +:+ c))). by rewrite IH. Qed.
Lemma append_nil (a : string) : a +:+ "" = a.
Proof. induction a as [|x a IH]; [done|]. change (String x (a +:+ "") = String x a). by rewrite IH. Qed.
Lemma append_cons x (a b : string) : String x a +:+ b = String x (a +:+ b).
Proof. done. Qed.

Lemma string_prefix_app (p s : string) : String.prefix p (p +:+ s) = true.
Proof. induction p as [|x p IH]; [by destruct s|]. rewrite append_cons. cbn [String.prefix]. by destruct (ascii_dec x x). Qed.
Lemma prefix_split (p s : string) : String.prefix p s = true -> exists r, s = p +:+ r.
Proof.
  revert s. induction p as [|x p IH]; intros s H; [by exists s|]. destruct s as [|y s]; [done|]. cbn [String.prefix] in H.
  destruct (ascii_dec x y) as [->|]; [|done]. destruct (IH s H) as [r ->]. by exists r.
Qed.
Lemma substring_all (s : string) n : (String.length s <= n)%nat -> String.substring 0 n s = s.
Proof. revert n. induction s as [|x s IH]; intros [|n] H; cbn in *; try done; [lia|]. by rewrite IH by lia. Qed.
Lemma substring_after (p r : string) n : (String.length r <= n)%nat -> String.substring (String.length p) n (p +:+ r) = r.
Proof. intros H. induction p as [|x p IH]; [by apply substring_all|]. rewrite append_cons. cbn. exact IH. Qed.
Lemma length_app_string (a b : string) : String.length (a +:+ b) = (String.length a + String.length b)%nat.
Proof. induction a as [|x a IH]; [done|]. rewrite append_cons. cbn. by rewrite IH. Qed.

Lemma slice_after (p r : string) : slice_from (String.length p) (p +:+ r) = r.
Proof. apply substring_after. rewrite length_app_string. lia. Qed.

(** ** [Cut] finds the first occurrence *)

Lemma Cut_sound s sep b r : Cut s sep = Some (b, r) -> s = b +:+ sep +:+ r.
Proof.
  revert b r. induction s as [|x s IH]; intros b r; cbn [Cut].
  - destruct (String.prefix sep "") eqn:E; [|done]. intros [= <- <-]. apply prefix_split in E as [r E].
    destruct sep; [|done]. by destruct r.
  - destruct (String.prefix sep (String x s)) eqn:E.
    + intros [= <- <-]. apply prefix_split in E as [r E]. rewrite E.
      by rewrite slice_after.
    + destruct (Cut s sep) as [[b' r']|] eqn:Ec; [|done]. intros [= <- <-]. by rewrite (IH _ _ eq_refl).
Qed.

Lemma Cut_complete (b sep r : string) : is_Some (Cut (b +:+ sep +:+ r) sep).
Proof.
  induction b as [|x b IH].
  - change ("" +:+ sep +:+ r) with (sep +:+ r). pose proof (string_prefix_app sep r) as Hp.
    destruct (sep +:+ r) as [|y t]; cbn [Cut]; rewrite Hp; eauto.
  - rewrite append_cons. cbn [Cut]. case_match; [eauto|]. destruct IH as [[b' r'] ->]. eauto.
Qed.

(** A separator that begins with a character the text before lacks is found
    right after that text. *)
Definition lacks (c : ascii) (s : string) : Prop := ~ In c (String.list_ascii_of_string s).

Lemma Cut_at c (b sep r : string) : lacks c b -> Cut (b +:+ String c sep +:+ r) (String c sep) = Some (b, r).
Proof.
  intros Hb. induction b as [|x b IH].
  - change ("" +:+ String c sep +:+ r) with (String c sep +:+ r). rewrite append_cons. cbn [Cut].
    by rewrite <- append_cons, string_prefix_app, slice_after.
  - rewrite append_cons. cbn [Cut String.prefix]. destruct (ascii_dec c x) as [->|]; [exfalso; apply Hb; by left|].
    rewrite IH; [done|]. intros H. apply Hb. by right.
Qed.

(** ** [Contains] *)

Lemma index_prefix (s sub : string) : String.prefix sub s = true -> String.index 0 sub s = Some 0%nat.
Proof. destruct s as [|x s]; cbn [String.index]; [by destruct sub|]. by intros ->. Qed.

Lemma Contains_Cut s sub : Contains s sub = match Cut s sub with Some _ => true | None => false end.
Proof.
  unfold Contains. induction s as [|x s IH]; cbn [Cut].
  - destruct (String.prefix sub "") eqn:E; [by rewrite (index_prefix _ _ E)|]. by destruct sub.
  - destruct (String.prefix sub (String x s)) eqn:E; [by rewrite (index_prefix _ _ E)|].
    cbn [String.index]. rewrite E. destruct (String.index 0 sub s), (Cut s sub) as [[]|]; done.
Qed.

Lemma Contains_iff s sub : Contains s sub = true <-> exists b r, s = b +:+ sub +:+ r.
Proof.
  rewrite Contains_Cut. split.
  - destruct (Cut s sub) as [[b r]|] eqn:E; [|done]. intros _. exists b, r. by apply Cut_sound.
  - intros (b & r & ->). by destruct (Cut_complete b sub r) as [? ->].
Qed.
Lemma Contains_middle (b sub r : string) : Contains (b +:+ sub +:+ r) sub = true.
Proof. apply Contains_iff. by exists b, r. Qed.

(** A substring without the character [c] lies on one side of it. *)
Lemma prefix_cut c sub (a b : string) : lacks c sub -> String.prefix sub (a +:+ String c b) = String.prefix sub a.
Proof.
  revert a. induction sub as [|x sub IH]; intros a H; [by destruct a|].
  assert (x <> c) as Hx by (intros ->; apply H; by left).
  assert (lacks c sub) as Hs by (intros ?; apply H; by right).
  destruct a as [|y a]; [change ("" +:+ String c b) with (String c b)|rewrite append_cons]; cbn [String.prefix].
  - by destruct (ascii_dec x c).
  - destruct (ascii_dec x y); [by apply IH|done].
Qed.
Lemma Contains_cons x s sub : Contains (String x s) sub = String.prefix sub (String x s) || Contains s sub.
Proof. rewrite !Contains_Cut. cbn [Cut]. destruct (String.prefix _ _); [done|]. by destruct (Cut s sub) as [[]|]. Qed.
Lemma Contains_across c sub (a b : string) : lacks c sub ->
  Contains (a +:+ String c b) sub = Contains a sub || Contains b sub.
Proof.
  intros H. induction a as [|x a IH].
  - change ("" +:+ String c b) with (String c b). rewrite Contains_cons.
    rewrite (prefix_cut c sub "" b H : String.prefix sub (String c b) = _). unfold Contains at 2. by destruct sub.
  - rewrite append_cons, !Contains_cons, IH, <- append_cons, (prefix_cut c sub (String x a) b H). apply orb_assoc.
Qed.

Lemma Contains_trans s sub1 sub2 : Contains s sub1 = true -> Contains sub1 sub2 = true -> Contains s sub2 = true.
Proof.
  intros (a & b & ->)%Contains_iff (c & d & ->)%Contains_iff. apply Contains_iff. exists (a +:+ c), (d +:+ b).
  by rewrite !append_assoc.
Qed.

(** A substring that starts with [c] in a text whose other characters are not
    [c] is a prefix of it. *)
Lemma Contains_first c s sub : lacks c s -> Contains (String c s) (String c sub) = String.prefix (String c sub) (String c s).
Proof.
  intros H. rewrite Contains_cons. destruct (String.prefix _ _) eqn:E; [done|]. cbn [orb].
  apply not_true_iff_false. intros (a & b & ->)%Contains_iff. apply H.
  clear. induction a as [|x a IH]; [by left|by right].
Qed.

Lemma lacks_app c (a b : string) : lacks c (a +:+ b) <-> lacks c a /\ lacks c b.
Proof.
  unfold lacks. induction a as [|x a IH].
  - change ("" +:+ b) with b. cbn. tauto.
  - rewrite append_cons. cbn. tauto.
Qed.
Definition lacksb (c : ascii) (s : string) : bool := negb (existsb (Ascii.eqb c) (String.list_ascii_of_string s)).
Lemma lacksb_spec c s : lacksb c s = true -> lacks c s.
Proof.
  unfold lacksb, lacks. intros H%negb_true_iff Hin. apply not_true_iff_false in H. apply H.
  apply existsb_exists. exists c. split; [done|]. apply Ascii.eqb_refl.
Qed.

(** ** The characters of a digest *)

Definition is_hex (a : ascii) : bool := existsb (Ascii.eqb a) (String.list_ascii_of_string "0123456789abcdef").
Lemma hex_digit_hex n : is_hex (hex_char n) = true.
Proof.
  unfold hex_char. destruct (nth_in_or_default (Z.to_nat n) (String.list_ascii_of_string "0123456789abcdef") "0"%char) as [H| ->]; [|done].
  unfold is_hex. apply existsb_exists. exists (nth (Z.to_nat n) (String.list_ascii_of_string "0123456789abcdef") "0"%char).
  split; [done|]. apply Ascii.eqb_refl.
Qed.
Lemma hex_word_hex n z : Forall (fun a => is_hex a = true) (hex_word n z).
Proof.
  revert z. induction n as [|n IH]; intros z; cbn [hex_word]; [constructor|].
  apply Forall_app. split; [apply IH|]. constructor; [apply hex_digit_hex|constructor].
Qed.
Lemma hex_digest_hex s : Forall (fun a => is_hex a = true) (String.list_ascii_of_string (hex_digest s)).
Proof.
  unfold hex_digest. rewrite String.list_ascii_of_string_of_list_ascii.
  induction (Sha256.Sum256 _) as [|w l IH]; cbn [map concat]; [constructor|].
  apply Forall_app. split; [apply hex_word_hex|done].
Qed.
Lemma hex_digest_lacks c s : is_hex c = false -> lacks c (hex_digest s).
Proof.
  intros Hc Hin. pose proof (hex_digest_hex s) as H. rewrite List.Forall_forall in H. apply H in Hin. congruence.
Qed.
#[global] Opaque hex_digest.
