(* ===== verification/Review.v ===== *)
(** * Rows and enumerations of code review

    models/code_review_assessment.go, code_review_scheduling.go and the columns
    of code_review.go that publication uses; the tables of migrations 000295 and
    its predecessors.  The captured columns of an assessment, which no statement
    rewrites, are the record [CodeReviewAssessmentCapture]. *)

From S2P Require Import Prelude Sql Tables.
From stdpp Require Import base option list strings gmap.
From Stdlib Require Import Ascii.

Open Scope string_scope.
Open Scope Z_scope.

(** ** Enumerations *)

Inductive CodeReviewScope := CodeReviewScopeFull | CodeReviewScopeEvidenceOnly | CodeReviewScopeOther (s : string).
#[export] Instance CodeReviewScope_eq_dec : EqDecision CodeReviewScope.
Proof. solve_decision. Defined.
Definition validate_scope (s : CodeReviewScope) : bool := match s with CodeReviewScopeOther _ => false | _ => true end.

Inductive CodeReviewAssessmentRouteReason :=
| CodeReviewRouteInitialFull | CodeReviewRouteVisualChanged | CodeReviewRouteEvidenceChanged | CodeReviewRouteChecksChanged
| CodeReviewRouteNoEvidenceChange | CodeReviewRouteCodeChanged | CodeReviewRouteContractChanged | CodeReviewRouteIntentChanged
| CodeReviewRouteRequestChanged | CodeReviewRouteGatesChanged | CodeReviewRouteNoBaseline | CodeReviewRouteBaselineBlocked
| CodeReviewRouteEvidenceInvalid | CodeReviewRouteInputsUnavailable | CodeReviewRouteForceFresh | CodeReviewRouteDispute
| CodeReviewRouteOther (s : string).
#[export] Instance CodeReviewAssessmentRouteReason_eq_dec : EqDecision CodeReviewAssessmentRouteReason.
Proof. solve_decision. Defined.
Definition validate_route (r : CodeReviewAssessmentRouteReason) : bool := match r with CodeReviewRouteOther _ => false | _ => true end.

Inductive CodeReviewAssessmentStatus :=
| CodeReviewAssessmentReserved | CodeReviewAssessmentRunning | CodeReviewAssessmentPublishing | CodeReviewAssessmentCompleted
| CodeReviewAssessmentSuperseded | CodeReviewAssessmentFailed | CodeReviewAssessmentCancelled.
#[export] Instance CodeReviewAssessmentStatus_eq_dec : EqDecision CodeReviewAssessmentStatus.
Proof. solve_decision. Defined.

Inductive CodeReviewResultOrigin := CodeReviewResultExecuted | CodeReviewResultReused | CodeReviewResultEvidenceOnly
| CodeReviewResultOther (s : string).
#[export] Instance CodeReviewResultOrigin_eq_dec : EqDecision CodeReviewResultOrigin.
Proof. solve_decision. Defined.
Definition validate_origin (o : CodeReviewResultOrigin) : bool := match o with CodeReviewResultOther _ => false | _ => true end.

Inductive CodeReviewPublicationState :=
| CodeReviewPublicationNotStarted | CodeReviewPublicationReserved | CodeReviewPublicationUncertain
| CodeReviewPublicationConfirmed | CodeReviewPublicationNotRequired.
#[export] Instance CodeReviewPublicationState_eq_dec : EqDecision CodeReviewPublicationState.
Proof. solve_decision. Defined.

Inductive CodeReviewDecision :=
| CodeReviewDecisionApproved | CodeReviewDecisionCommentOnly | CodeReviewDecisionNeedsHumanReview | CodeReviewDecisionBlocked
| CodeReviewDecisionOther (s : string).
#[export] Instance CodeReviewDecision_eq_dec : EqDecision CodeReviewDecision.
Proof. solve_decision. Defined.
Definition validate_review_decision (d : CodeReviewDecision) : bool := match d with CodeReviewDecisionOther _ => false | _ => true end.

Inductive CodeReviewSessionStatus :=
| CodeReviewSessionStatusQueued | CodeReviewSessionStatusRunning | CodeReviewSessionStatusCompleted
| CodeReviewSessionStatusFailed | CodeReviewSessionStatusStale | CodeReviewSessionStatusCancelled.
#[export] Instance CodeReviewSessionStatus_eq_dec : EqDecision CodeReviewSessionStatus.
Proof. solve_decision. Defined.
Definition session_status_text (s : CodeReviewSessionStatus) : string :=
  match s with
  | CodeReviewSessionStatusQueued => "queued" | CodeReviewSessionStatusRunning => "running"
  | CodeReviewSessionStatusCompleted => "completed" | CodeReviewSessionStatusFailed => "failed"
  | CodeReviewSessionStatusStale => "stale" | CodeReviewSessionStatusCancelled => "cancelled"
  end.

(** ** JSON documents

    What [json.Unmarshal] into [any] and [jsonb] keep of a document; numbers
    are integers.  [canonical] is the order that both give the fields: by key,
    the last of equal keys. *)

#[warnings="-register-all"]
Inductive jtree :=
| TNull | TBool (b : bool) | TNum (z : Z) | TStr (s : string) | TArr (l : list jtree) | TObj (fields : list (string * jtree)).

Section jtree_ind'.
Context (P : jtree -> Prop) (HNull : P TNull) (HBool : forall b, P (TBool b)) (HNum : forall z, P (TNum z))
  (HStr : forall s, P (TStr s)) (HArr : forall l, Forall P l -> P (TArr l))
  (HObj : forall fs, Forall (fun f => P f.2) fs -> P (TObj fs)).
Fixpoint jtree_ind' (t : jtree) : P t :=
  match t with
  | TNull => HNull | TBool b => HBool b | TNum z => HNum z | TStr s => HStr s
  | TArr l => HArr l ((fix go l : Forall P l := match l with [] => List.Forall_nil _ | x :: l => List.Forall_cons _ _ _ (jtree_ind' x) (go l) end) l)
  | TObj fs => HObj fs ((fix go fs : Forall (fun f => P f.2) fs :=
      match fs with [] => List.Forall_nil _ | f :: fs => List.Forall_cons _ _ _ (jtree_ind' f.2) (go fs) end) fs)
  end.
End jtree_ind'.

#[export] Instance jtree_eq_dec : EqDecision jtree.
Proof.
  unfold EqDecision, RelDecision, Decision. fix go 1. intros x y.
  assert (forall l1 l2 : list jtree, {l1 = l2} + {l1 <> l2}) as Hl by (apply List.list_eq_dec; exact go).
  assert (forall l1 l2 : list (string * jtree), {l1 = l2} + {l1 <> l2}) as Hf.
  { apply List.list_eq_dec. intros [a u] [b v]. destruct (String.string_dec a b), (go u v); (left; congruence) || (right; congruence). }
  decide equality; first [apply Hl | apply Hf | apply Bool.bool_dec | apply Z.eq_dec | apply String.string_dec].
Defined.

(** [m[k] = v] on fields kept in the order of their keys. *)
Fixpoint put_field (k : string) (v : jtree) (fs : list (string * jtree)) : list (string * jtree) :=
  match fs with
  | [] => [(k, v)]
  | (k', v') :: fs' =>
      match String.compare k k' with
      | Lt => (k, v) :: fs
      | Eq => (k, v) :: fs'
      | Gt => (k', v') :: put_field k v fs'
      end
  end.
Definition put_fields (fs : list (string * jtree)) : list (string * jtree) := foldl (fun out f => put_field f.1 f.2 out) [] fs.
Fixpoint canonical (t : jtree) : jtree :=
  match t with
  | TArr l => TArr (map canonical l)
  | TObj fs => TObj (put_fields (map (fun f => (f.1, canonical f.2)) fs))
  | _ => t
  end.

(** [t #> path]. *)
Definition field (k : string) (t : jtree) : option jtree :=
  match t with TObj fs => option_map snd (List.find (fun f => (f.1 ==? k)%string) fs) | _ => None end.

(** A json.RawMessage. *)
Inductive RawMessage := RawEmpty | RawInvalid | RawJSON (t : jtree).
#[export] Instance RawMessage_eq_dec : EqDecision RawMessage.
Proof. solve_decision. Defined.

(** The parameter of a nullable jsonb column. *)
Definition raw_column (r : RawMessage) : option jtree := match r with RawJSON t => Some (canonical t) | _ => None end.

(** ** Rows *)

Record CodeReviewAssessmentCapture := MkCapture {
  c_ID : uuid; c_OrgID : uuid; c_RepositoryID : uuid; c_PullRequestID : uuid; c_PolicyID : uuid; c_SessionID : uuid;
  c_Generation : Z; c_ConversationID : option uuid; c_SourceAssessmentID : option uuid;
  c_PreviousAssessmentID : option uuid; c_PreviousPublishedAssessmentID : option uuid;
  c_BaseSHA : string; c_BaseRef : string; c_HeadSHA : string; c_InputVersion : Z; c_CodeDigest : string;
  c_ContractDigest : string; c_IntentDigest : string; c_VisualDigest : string; c_RequestDigest : string;
  c_GateDigest : string; c_InputDigest : string; c_InputManifest : RawMessage; c_ReviewScope : CodeReviewScope;
  c_RouteReason : CodeReviewAssessmentRouteReason; c_PublicationKey : string
}.
#[export] Instance CodeReviewAssessmentCapture_eq_dec : EqDecision CodeReviewAssessmentCapture.
Proof. solve_decision. Defined.
#[export] Instance eta_Capture : Eta CodeReviewAssessmentCapture := fun c =>
  MkCapture (c_ID c) (c_OrgID c) (c_RepositoryID c) (c_PullRequestID c) (c_PolicyID c) (c_SessionID c) (c_Generation c)
    (c_ConversationID c) (c_SourceAssessmentID c) (c_PreviousAssessmentID c) (c_PreviousPublishedAssessmentID c)
    (c_BaseSHA c) (c_BaseRef c) (c_HeadSHA c) (c_InputVersion c) (c_CodeDigest c) (c_ContractDigest c) (c_IntentDigest c)
    (c_VisualDigest c) (c_RequestDigest c) (c_GateDigest c) (c_InputDigest c) (c_InputManifest c) (c_ReviewScope c)
    (c_RouteReason c) (c_PublicationKey c).

Record CodeReviewAssessmentCompletion := MkCompletion {
  r_ResultOrigin : CodeReviewResultOrigin; r_CoverageComplete : bool; r_Decision : CodeReviewDecision; r_Acceptable : bool;
  r_RiskReasonDetails : RawMessage; r_StructuredOutcome : RawMessage; r_RenderedBody : string
}.

Record CodeReviewAssessment := MkAssessment {
  ra_Capture : CodeReviewAssessmentCapture; ra_RepositoryFullName : string; ra_MetadataID : uuid;
  ra_SupersededByAssessmentID : option uuid;
  ra_ResultOrigin : option CodeReviewResultOrigin; ra_CoverageComplete : bool; ra_Status : CodeReviewAssessmentStatus;
  ra_Decision : option CodeReviewDecision; ra_Acceptable : option bool; ra_RiskReasonDetails : option jtree;
  ra_StructuredOutcome : option jtree; ra_RenderedBody : option string; ra_FailureDetail : option string;
  ra_PublicationState : CodeReviewPublicationState; ra_PublicationReceipt : option jtree; ra_GitHubReviewID : option Z;
  ra_GitHubReviewURL : option string; ra_SubmittedCommitSHA : option string; ra_CreatedAt : time;
  ra_CompletedAt : option time; ra_SupersededAt : option time
}.
#[export] Instance eta_Assessment : Eta CodeReviewAssessment := fun a =>
  MkAssessment (ra_Capture a) (ra_RepositoryFullName a) (ra_MetadataID a) (ra_SupersededByAssessmentID a) (ra_ResultOrigin a)
    (ra_CoverageComplete a) (ra_Status a) (ra_Decision a) (ra_Acceptable a) (ra_RiskReasonDetails a) (ra_StructuredOutcome a)
    (ra_RenderedBody a) (ra_FailureDetail a) (ra_PublicationState a) (ra_PublicationReceipt a) (ra_GitHubReviewID a)
    (ra_GitHubReviewURL a) (ra_SubmittedCommitSHA a) (ra_CreatedAt a) (ra_CompletedAt a) (ra_SupersededAt a).

Definition ra_ID (a : CodeReviewAssessment) : uuid := c_ID (ra_Capture a).
Definition ra_OrgID (a : CodeReviewAssessment) : uuid := c_OrgID (ra_Capture a).
Definition ra_PublicationKey (a : CodeReviewAssessment) : string := c_PublicationKey (ra_Capture a).
Definition ra_Generation (a : CodeReviewAssessment) : Z := c_Generation (ra_Capture a).
Definition ra_InputDigest (a : CodeReviewAssessment) : string := c_InputDigest (ra_Capture a).
Definition ra_HeadSHA (a : CodeReviewAssessment) : string := c_HeadSHA (ra_Capture a).
Definition ra_PullRequestID (a : CodeReviewAssessment) : uuid := c_PullRequestID (ra_Capture a).
Definition ra_SessionID (a : CodeReviewAssessment) : uuid := c_SessionID (ra_Capture a).
Definition ra_Scope (a : CodeReviewAssessment) : CodeReviewScope := c_ReviewScope (ra_Capture a).

(** The columns of code_review_session_metadata used here. *)
Record CodeReviewSessionMetadata := MkMetadata {
  m_ID : uuid; m_OrgID : uuid; m_SessionID : uuid; m_RepositoryID : uuid; m_PullRequestID : uuid; m_PolicyID : uuid;
  m_Status : CodeReviewSessionStatus; m_FailureReason : option string; m_GitHubReviewID : option Z;
  m_GitHubReviewURL : option string; m_FinalReviewBody : option string; m_CreatedAt : time; m_CompletedAt : option time
}.
#[export] Instance eta_Metadata : Eta CodeReviewSessionMetadata := fun m =>
  MkMetadata (m_ID m) (m_OrgID m) (m_SessionID m) (m_RepositoryID m) (m_PullRequestID m) (m_PolicyID m) (m_Status m)
    (m_FailureReason m) (m_GitHubReviewID m) (m_GitHubReviewURL m) (m_FinalReviewBody m) (m_CreatedAt m) (m_CompletedAt m).

Record ReviewPullRequest := MkReviewPR { rp_ID : uuid; rp_OrgID : uuid; rp_GitHubRepo : string; rp_GitHubPRNumber : Z }.
Record ReviewRepository := MkReviewRepo { rr_ID : uuid; rr_OrgID : uuid; rr_FullName : string; rr_InstallationID : Z }.
Record ReviewPolicy := MkReviewPolicy { pol_ID : uuid; pol_OrgID : uuid; pol_RepositoryID : option uuid }.

Inductive CodeReviewScheduleState :=
| CodeReviewScheduleIdle | CodeReviewScheduleWaiting | CodeReviewScheduleRunning | CodeReviewScheduleCovered
| CodeReviewSchedulePaused | CodeReviewScheduleClosed.
#[export] Instance CodeReviewScheduleState_eq_dec : EqDecision CodeReviewScheduleState.
Proof. solve_decision. Defined.
Inductive CodeReviewWaitReason :=
| CodeReviewWaitNone | CodeReviewWaitQuiet | CodeReviewWaitInterval | CodeReviewWaitDraft | CodeReviewWaitPaused | CodeReviewWaitPolicy
| CodeReviewWaitApproved | CodeReviewWaitActive | CodeReviewWaitContext | CodeReviewWaitCapacity.

Record CodeReviewPRState := MkPRState {
  st_ID : uuid; st_OrgID : uuid; st_RepositoryID : uuid; st_PullRequestID : uuid; st_Generation : Z; st_AutomaticPaused : bool;
  st_HeadSHA : string; st_BaseSHA : string; st_BaseRef : string; st_IsDraft : bool; st_SnapshotObservedAt : option time;
  st_LastMaterialChangeAt : option time; st_FirstPendingAt : option time; st_LastAgentStartAt : option time;
  st_EligibleAt : option time; st_RetryAt : option time; st_ActiveSessionID : option uuid; st_ActiveAssessmentID : option uuid;
  st_CurrentAssessmentID : option uuid; st_PendingRequestID : option uuid; st_PendingInput : option jtree;
  st_State : CodeReviewScheduleState; st_WaitReason : CodeReviewWaitReason; st_CreatedAt : time; st_UpdatedAt : time
}.
#[export] Instance eta_PRState : Eta CodeReviewPRState := fun s =>
  MkPRState (st_ID s) (st_OrgID s) (st_RepositoryID s) (st_PullRequestID s) (st_Generation s) (st_AutomaticPaused s) (st_HeadSHA s)
    (st_BaseSHA s) (st_BaseRef s) (st_IsDraft s) (st_SnapshotObservedAt s) (st_LastMaterialChangeAt s) (st_FirstPendingAt s)
    (st_LastAgentStartAt s) (st_EligibleAt s) (st_RetryAt s) (st_ActiveSessionID s) (st_ActiveAssessmentID s) (st_CurrentAssessmentID s)
    (st_PendingRequestID s) (st_PendingInput s) (st_State s) (st_WaitReason s) (st_CreatedAt s) (st_UpdatedAt s).

Inductive CodeReviewRequestStatus := RequestPending | RequestJoined | RequestSatisfied | RequestSuperseded | RequestCancelled | RequestFailed.
#[export] Instance CodeReviewRequestStatus_eq_dec : EqDecision CodeReviewRequestStatus.
Proof. solve_decision. Defined.
Record CodeReviewRequest := MkRequest {
  rq_ID : uuid; rq_OrgID : uuid; rq_PullRequestID : uuid; rq_SessionID : option uuid; rq_AssessmentID : option uuid;
  rq_Status : CodeReviewRequestStatus
}.
#[export] Instance eta_Request : Eta CodeReviewRequest := fun r =>
  MkRequest (rq_ID r) (rq_OrgID r) (rq_PullRequestID r) (rq_SessionID r) (rq_AssessmentID r) (rq_Status r).

Record ReviewDB := MkReviewDB {
  assessments : list CodeReviewAssessment;
  review_metadata : list CodeReviewSessionMetadata;
  review_pull_requests : list ReviewPullRequest;
  review_repositories : list ReviewRepository;
  review_policies : list ReviewPolicy;
  pr_states : list CodeReviewPRState;
  review_requests : list CodeReviewRequest;
  review_plane : DB
}.
#[export] Instance eta_ReviewDB : Eta ReviewDB := fun d =>
  MkReviewDB (assessments d) (review_metadata d) (review_pull_requests d) (review_repositories d) (review_policies d)
    (pr_states d) (review_requests d) (review_plane d).

(** ** Canonical documents *)

Definition key_lt (f g : string * jtree) : Prop := String.compare f.1 g.1 = Lt.
Definition ordered (fs : list (string * jtree)) : Prop := Sorted.StronglySorted key_lt fs.

Lemma compare_lt_trans a b c : String.compare a b = Lt -> String.compare b c = Lt -> String.compare a c = Lt.
Proof.
  revert b c. induction a as [|x a IH]; intros [|y b] [|z c]; try done. cbn. unfold Ascii.compare.
  destruct (N.compare_spec (N_of_ascii x) (N_of_ascii y)) as [E1|E1|E1], (N.compare_spec (N_of_ascii y) (N_of_ascii z)) as [E2|E2|E2];
    intros H1 H2; try done.
  - rewrite E1, E2, N.compare_refl. by eapply IH.
  - rewrite E1. by apply N.compare_lt_iff in E2 as ->.
  - rewrite <- E2. by apply N.compare_lt_iff in E1 as ->.
  - assert (N_of_ascii x < N_of_ascii z)%N as E by lia. by apply N.compare_lt_iff in E as ->.
Qed.
Lemma put_field_values k v fs f : In f (put_field k v fs) -> f = (k, v) \/ In f fs.
Proof.
  induction fs as [|[k' v'] fs IH]; cbn; [intros [<-|[]]; auto|].
  destruct (String.compare k k'); cbn; intros [<-|H]; auto. apply IH in H as [H|H]; auto.
Qed.
Lemma put_field_ordered k v fs : ordered fs -> ordered (put_field k v fs).
Proof.
  induction 1 as [|[k' v'] fs Hs IH Hf]; cbn; [repeat constructor|]. destruct (String.compare k k') eqn:E.
  - apply String.compare_eq_iff in E as ->. constructor; done.
  - constructor; [by constructor|]. constructor; [done|]. eapply Forall_impl; [exact Hf|]. intros [k'' v''] H.
    unfold key_lt in *. cbn in *. by eapply compare_lt_trans.
  - constructor; [done|]. apply List.Forall_forall. intros f [->|Hin]%put_field_values.
    + unfold key_lt. cbn. by rewrite String.compare_antisym, E.
    + rewrite List.Forall_forall in Hf. by apply Hf.
Qed.
Lemma put_fields_from fs out : ordered out -> ordered (foldl (fun out f => put_field f.1 f.2 out) out fs)
  /\ forall f, In f (foldl (fun out f => put_field f.1 f.2 out) out fs) -> In f out \/ In f fs.
Proof.
  revert out. induction fs as [|[k v] fs IH]; intros out Ho; cbn; [auto|].
  destruct (IH (put_field k v out) (put_field_ordered k v out Ho)) as [H1 H2]. split; [done|].
  intros f [H|H]%H2; [|auto]. apply put_field_values in H as [->|H]; auto.
Qed.
Lemma put_field_last k v out : Forall (fun f => key_lt f (k, v)) out -> put_field k v out = (out ++ [(k, v)])%list.
Proof.
  induction 1 as [|[k' v'] out Hk _ IH]; cbn; [done|]. unfold key_lt in Hk. cbn in Hk.
  rewrite String.compare_antisym, Hk. cbn. by rewrite IH.
Qed.
Lemma put_fields_ordered fs out : ordered (out ++ fs) -> foldl (fun out f => put_field f.1 f.2 out) out fs = (out ++ fs)%list.
Proof.
  revert out. induction fs as [|[k v] fs IH]; intros out H; cbn; [by rewrite app_nil_r|].
  rewrite put_field_last.
  - rewrite IH by by rewrite <- app_assoc. by rewrite <- app_assoc.
  - clear IH. unfold ordered in H. induction out as [|f out IHo]; constructor; cbn in H; inv H.
    + rewrite List.Forall_forall in H3. apply H3, in_app_iff. right. by left.
    + auto.
Qed.

Lemma canonical_idem t : canonical (canonical t) = canonical t.
Proof.
  induction t as [| | | |l Hl|fs Hf] using jtree_ind'; cbn; try done.
  - f_equal. rewrite map_map. induction Hl; cbn; by f_equal.
  - f_equal. destruct (put_fields_from (map (fun f => (f.1, canonical f.2)) fs) [] (Sorted.SSorted_nil _)) as [Ho Hin].
    fold (put_fields (map (fun f => (f.1, canonical f.2)) fs)) in Ho, Hin.
    replace (map (fun f => (f.1, canonical f.2)) (put_fields (map (fun f => (f.1, canonical f.2)) fs)))
      with (put_fields (map (fun f => (f.1, canonical f.2)) fs)); [by apply (put_fields_ordered _ [])|].
    symmetry. rewrite <- map_id. apply map_ext_in. intros [k v] Hkv. apply Hin in Hkv as [[]|Hkv].
    apply in_map_iff in Hkv as (f & [= <- <-] & Hf'). rewrite List.Forall_forall in Hf. cbn. f_equal. by apply Hf.
Qed.
