(* ===== verification/ReviewMarkers.v ===== *)
(** * The hidden markers of published code reviews

    internal/services/codereview/github_submitter.go: the HTML comments that a
    review summary, a formal approval and every inline finding carry, by which
    a later attempt recognises what an earlier one published.  Text is a
    sequence of bytes; trimming removes ASCII white space. *)

From S2P Require Import Prelude GoRuntime GoStrings.
From stdpp Require Import base option list strings gmap.
From Stdlib Require Import Ascii.

Open Scope string_scope.
Open Scope Z_scope.

Definition newline : string := String "010"%char "".
Definition blank_line : string := newline +:+ newline.

(** ** Digests and markers *)

Definition codeReviewMarkerDigest (value : string) : string := hex_digest (TrimSpace value).

Definition output_prefix : string := "<!-- 143-code-review-output:".
Definition finding_prefix : string := "<!-- 143-code-review-finding:".
Definition marker_end : string := " -->".
Definition codeReviewStatusCommentMarker : string := "<!-- 143-code-review-status -->".

Definition codeReviewOutputMarker (outputKey : string) : string :=
  output_prefix +:+ codeReviewMarkerDigest outputKey +:+ marker_end.
Definition codeReviewFindingMarker (markerKey : string) : string :=
  finding_prefix +:+ codeReviewMarkerDigest markerKey +:+ marker_end.

Definition codeReviewFindingMarkerKey (outputKey dedupeKey : string) : string :=
  let dedupeKey := TrimSpace dedupeKey in
  if dedupeKey ==? "" then ""
  else
    let outputKey := TrimSpace outputKey in
    if outputKey ==? "" then dedupeKey else outputKey +:+ newline +:+ dedupeKey.

(** What both functions below do with a marker. *)
Definition with_marker (body marker : string) : string :=
  if Contains body marker then body
  else if body ==? "" then marker
  else body +:+ blank_line +:+ marker.

Definition withCodeReviewOutputMarker (body outputKey : string) : string :=
  let outputKey := TrimSpace outputKey in
  if outputKey ==? "" then TrimSpace body
  else with_marker (TrimSpace body) (codeReviewOutputMarker outputKey).

Definition withCodeReviewFindingMarker (body markerKey : string) : string :=
  let markerKey := TrimSpace markerKey in
  let body := TrimSpace body in
  if markerKey ==? "" then body
  else with_marker body (codeReviewFindingMarker markerKey).

Definition extractCodeReviewFindingMarker (body : string) : string :=
  match Cut body finding_prefix with
  | None => ""
  | Some (_, rest) =>
      match Cut rest marker_end with
      | None => ""
      | Some (digest, _) => TrimSpace digest
      end
  end.

Definition IsCodeReviewAuthoredBody (body : string) : bool :=
  Contains body output_prefix || Contains body finding_prefix || Contains body codeReviewStatusCommentMarker.

(** ** Decisions *)

Inductive SubmitReviewDecision :=
| SubmitReviewDecisionApproved | SubmitReviewDecisionCommentOnly | SubmitReviewDecisionNeedsHumanReview
| SubmitReviewDecisionBlocked | SubmitReviewDecisionOther (s : string).
#[export] Instance SubmitReviewDecision_eq_dec : EqDecision SubmitReviewDecision.
Proof. solve_decision. Defined.

Definition githubReviewEvent (decision : SubmitReviewDecision) : string :=
  match decision with SubmitReviewDecisionApproved => "APPROVE" | _ => "COMMENT" end.
Definition validate_decision (decision : SubmitReviewDecision) : bool :=
  match decision with SubmitReviewDecisionOther _ => false | _ => true end.

(** ** Inline comments by marker *)

Record githubReviewCommentItem := MkCommentItem { ci_ID : Z; ci_Path : string; ci_Line : Z; ci_Body : string }.

(** The first comment of each marker. *)
Fixpoint comments_by_marker (out : gmap string githubReviewCommentItem) (comments : list githubReviewCommentItem)
    : gmap string githubReviewCommentItem :=
  match comments with
  | [] => out
  | comment :: comments =>
      let marker := extractCodeReviewFindingMarker (ci_Body comment) in
      comments_by_marker
        (if marker ==? "" then out
         else match out !! marker with Some _ => out | None => <[marker := comment]> out end) comments
  end.
Definition codeReviewCommentsByMarker (comments : list githubReviewCommentItem) : gmap string githubReviewCommentItem :=
  comments_by_marker ∅ comments.

(** ** White space *)

Lemma drop_spaces_none l : Forall (fun a => is_space a = false) l -> drop_spaces l = l.
Proof. intros H. destruct l as [|a l]; [done|]. inv H. cbn. by rewrite H2. Qed.
Lemma TrimSpace_none s : Forall (fun a => is_space a = false) (String.list_ascii_of_string s) -> TrimSpace s = s.
Proof.
  intros H. unfold TrimSpace. rewrite (drop_spaces_none _ H), drop_spaces_none, rev_involutive; [apply String.string_of_list_ascii_of_string|].
  apply List.Forall_forall. intros a Ha%in_rev. rewrite List.Forall_forall in H. by apply H.
Qed.
Lemma is_hex_no_space a : is_hex a = true -> is_space a = false.
Proof.
  unfold is_hex. intros (x & Hx & ->%Ascii.eqb_eq)%existsb_exists. cbn in Hx.
  repeat (destruct Hx as [<-|Hx]; [done|]). done.
Qed.
Lemma TrimSpace_digest k : TrimSpace (codeReviewMarkerDigest k) = codeReviewMarkerDigest k.
Proof.
  apply TrimSpace_none. eapply Forall_impl; [apply hex_digest_hex|]. apply is_hex_no_space.
Qed.

Lemma drop_spaces_rest l : exists l', l = (l' ++ drop_spaces l)%list /\ Forall (fun a => is_space a = true) l'.
Proof.
  induction l as [|a l (l' & Hl & Hf)]; [by exists []|]. cbn. destruct (is_space a) eqn:E; [|by exists []].
  exists (a :: l'). split; [cbn; by f_equal|by constructor].
Qed.
Lemma drop_spaces_idem l : drop_spaces (drop_spaces l) = drop_spaces l.
Proof. induction l as [|a l IH]; [done|]. cbn. destruct (is_space a) eqn:E; [done|]. cbn. by rewrite E. Qed.

(** Trimming the end of a text without leading space keeps it so. *)
Lemma drop_spaces_trimmed l : drop_spaces l = l -> drop_spaces (rev (drop_spaces (rev l))) = rev (drop_spaces (rev l)).
Proof.
  intros H. destruct (drop_spaces_rest (rev l)) as (l' & Hl & _).
  apply (f_equal (@rev _)) in Hl. rewrite rev_involutive, rev_app_distr in Hl.
  destruct (rev (drop_spaces (rev l))) as [|a r]; [done|]. rewrite Hl in H. cbn in H. cbn.
  destruct (is_space a) eqn:E; [|done]. exfalso.
  destruct (drop_spaces_rest (r ++ rev l')%list) as (l2 & Hl2 & _).
  rewrite H in Hl2. apply (f_equal length) in Hl2. rewrite !length_app in Hl2. cbn in Hl2. rewrite length_app in Hl2. lia.
Qed.
Lemma TrimSpace_idem s : TrimSpace (TrimSpace s) = TrimSpace s.
Proof.
  unfold TrimSpace. rewrite String.list_ascii_of_string_of_list_ascii.
  rewrite (drop_spaces_trimmed (drop_spaces (String.list_ascii_of_string s))) by apply drop_spaces_idem. by rewrite rev_involutive, drop_spaces_idem.
Qed.

Lemma drop_spaces_all l : drop_spaces l = [] -> Forall (fun a => is_space a = true) l.
Proof. induction l as [|a l IH]; cbn; [constructor|]. destruct (is_space a) eqn:E; [|done]. intros H. constructor; auto. Qed.
Lemma TrimSpace_empty s : TrimSpace s = "" -> Forall (fun a => is_space a = true) (String.list_ascii_of_string s).
Proof.
  unfold TrimSpace. intros H. apply (f_equal String.list_ascii_of_string) in H. rewrite String.list_ascii_of_string_of_list_ascii in H. cbn in H.
  apply (f_equal (@rev _)) in H. rewrite rev_involutive in H. cbn in H. apply drop_spaces_all in H.
  destruct (drop_spaces_rest (String.list_ascii_of_string s)) as (l' & Hl & Hf). rewrite Hl. apply Forall_app. split; [done|].
  rewrite List.Forall_forall in *. intros a Ha. apply H. by apply in_rev in Ha.
Qed.

(** ** Markers in texts *)

Lemma digest_lacks c k : is_hex c = false -> lacks c (codeReviewMarkerDigest k).
Proof. apply hex_digest_lacks. Qed.
Lemma digest_trim k : codeReviewMarkerDigest (TrimSpace k) = codeReviewMarkerDigest k.
Proof. unfold codeReviewMarkerDigest. by rewrite TrimSpace_idem. Qed.
Lemma output_marker_trim k : codeReviewOutputMarker (TrimSpace k) = codeReviewOutputMarker k.
Proof. unfold codeReviewOutputMarker. by rewrite digest_trim. Qed.

Definition nl : ascii := "010"%char.
Lemma output_marker_nl k : lacks nl (codeReviewOutputMarker k).
Proof.
  unfold codeReviewOutputMarker. rewrite !lacks_app. split; [by apply lacksb_spec|].
  split; [by apply digest_lacks|by apply lacksb_spec].
Qed.
Lemma finding_marker_nl k : lacks nl (codeReviewFindingMarker k).
Proof.
  unfold codeReviewFindingMarker. rewrite !lacks_app. split; [by apply lacksb_spec|].
  split; [by apply digest_lacks|by apply lacksb_spec].
Qed.

Lemma hex_append_inj (d1 d2 r1 r2 : string) c : lacks c d1 -> lacks c d2 ->
  d1 +:+ String c r1 = d2 +:+ String c r2 -> d1 = d2.
Proof.
  revert d2. induction d1 as [|x d1 IH]; intros [|y d2] H1 H2 H; cbn in H; [done| | |].
  - rewrite append_cons in H. change ("" +:+ String c r1) with (String c r1) in H. injection H as -> _.
    exfalso. apply H2. by left.
  - rewrite append_cons in H. change ("" +:+ String c r2) with (String c r2) in H. injection H as -> _.
    exfalso. apply H1. by left.
  - rewrite !append_cons in H. injection H as -> H. f_equal. apply (IH d2); [| |done]; intros ?; [apply H1|apply H2]; by right.
Qed.

(** One marker occurs in another only when their keys have one digest. *)
Lemma output_marker_in k k' :
  Contains (codeReviewOutputMarker k) (codeReviewOutputMarker k') = true -> codeReviewMarkerDigest k = codeReviewMarkerDigest k'.
Proof.
  unfold codeReviewOutputMarker. change output_prefix with (String "<" "!-- 143-code-review-output:"). rewrite !(append_cons "<").
  rewrite Contains_first by (rewrite !lacks_app; repeat split; [by apply lacksb_spec|by apply digest_lacks|by apply lacksb_spec]).
  intros [r H]%prefix_split. rewrite (append_cons "<") in H. injection H as H. rewrite !append_assoc in H.
  change (codeReviewMarkerDigest k +:+ marker_end = codeReviewMarkerDigest k' +:+ marker_end +:+ r) in H. change marker_end with (String " " "-->") in H. rewrite (append_cons " ") in H.
  eapply hex_append_inj; [| |exact H]; by apply digest_lacks.
Qed.
Lemma output_marker_prefix k : Contains (codeReviewOutputMarker k) output_prefix = true.
Proof. apply Contains_iff. exists "". eexists. reflexivity. Qed.

(** A body that carries no marker yet carries, once marked, exactly its own. *)
Definition unmarked (body : string) : Prop := Contains body output_prefix = false.

Lemma string_of_app l1 l2 : String.string_of_list_ascii (l1 ++ l2) = String.string_of_list_ascii l1 +:+ String.string_of_list_ascii l2.
Proof. induction l1 as [|x l1 IH]; [done|]. cbn. by rewrite IH. Qed.
(** Trimming takes a middle part. *)
Lemma TrimSpace_middle s : exists b r, s = b +:+ TrimSpace s +:+ r.
Proof.
  destruct (drop_spaces_rest (String.list_ascii_of_string s)) as (b & Hb & _).
  destruct (drop_spaces_rest (rev (drop_spaces (String.list_ascii_of_string s)))) as (r & Hr & _).
  apply (f_equal (@rev _)) in Hr. rewrite rev_involutive, rev_app_distr in Hr. rewrite Hr in Hb.
  exists (String.string_of_list_ascii b), (String.string_of_list_ascii (rev r)). unfold TrimSpace.
  rewrite <- !string_of_app, <- Hb. by rewrite String.string_of_list_ascii_of_string.
Qed.
Lemma unmarked_trim s : unmarked s -> unmarked (TrimSpace s).
Proof.
  unfold unmarked. intros H. destruct (Contains (TrimSpace s) output_prefix) eqn:E; [|done].
  destruct (TrimSpace_middle s) as (b & r & Hs). rewrite <- H. symmetry. eapply Contains_trans; [|exact E]. rewrite Hs at 1. apply Contains_middle.
Qed.

Lemma blank_line_split (a b : string) : a +:+ blank_line +:+ b = a +:+ String nl (String nl b).
Proof. done. Qed.

Lemma unmarked_no_marker body k : unmarked body -> Contains body (codeReviewOutputMarker k) = false.
Proof.
  unfold unmarked. intros H. apply not_true_iff_false. intros Hc.
  pose proof (Contains_trans _ _ _ Hc (output_marker_prefix k)). congruence.
Qed.

Lemma marked_body_own body k : TrimSpace k <> "" -> Contains (withCodeReviewOutputMarker body k) (codeReviewOutputMarker k) = true.
Proof.
  intros Hk. unfold withCodeReviewOutputMarker, with_marker. rewrite output_marker_trim, bool_decide_eq_false_2 by done.
  destruct (Contains (TrimSpace body) (codeReviewOutputMarker k)) eqn:E; [done|]. case_bool_decide.
  - apply Contains_iff. exists "", "". by rewrite append_nil.
  - rewrite blank_line_split. rewrite Contains_across by apply output_marker_nl.
    rewrite Contains_cons. rewrite !orb_true_iff. right. right. apply Contains_iff. exists "", "". by rewrite append_nil.
Qed.
Lemma marked_body_only body k k' : TrimSpace k <> "" -> unmarked (TrimSpace body) ->
  Contains (withCodeReviewOutputMarker body k) (codeReviewOutputMarker k') = true ->
  codeReviewMarkerDigest k = codeReviewMarkerDigest k'.
Proof.
  intros Hk Hu. unfold withCodeReviewOutputMarker, with_marker. rewrite output_marker_trim, bool_decide_eq_false_2 by done.
  rewrite (unmarked_no_marker (TrimSpace body)) by done. case_bool_decide; [apply output_marker_in|].
  rewrite blank_line_split, Contains_across by apply output_marker_nl. rewrite (unmarked_no_marker (TrimSpace body)) by done. cbn [orb].
  rewrite (Contains_across nl _ "" (codeReviewOutputMarker k) (output_marker_nl k') : Contains (String nl _) _ = _).
  change (Contains "" (codeReviewOutputMarker k')) with false. apply output_marker_in.
Qed.

(** ** The digest of a finding comes back out of its comment *)

Lemma Cut_none_app c (a b sep : string) : lacks c sep -> Contains a sep = false ->
  Cut (a +:+ String c b) sep = match Cut b sep with Some (x, r) => Some (a +:+ String c x, r) | None => None end.
Proof.
  intros Hs Ha. induction a as [|x a IH].
  - change ("" +:+ String c b) with (String c b). cbn [Cut].
    rewrite (prefix_cut c sep "" b Hs : String.prefix sep (String c b) = _).
    replace (String.prefix sep "") with false by (unfold Contains in Ha; by destruct sep). by destruct (Cut b sep) as [[]|].
  - rewrite append_cons. cbn [Cut]. rewrite Contains_cons in Ha. apply orb_false_iff in Ha as [Hp Ha].
    rewrite <- append_cons, (prefix_cut c sep _ b Hs), Hp, (IH Ha). by destruct (Cut b sep) as [[]|].
Qed.
Lemma Cut_here (sep r : string) : Cut (sep +:+ r) sep = Some ("", r).
Proof.
  pose proof (string_prefix_app sep r) as Hp. pose proof (slice_after sep r) as Hs.
  destruct (sep +:+ r) as [|x t]; cbn [Cut]; by rewrite Hp, Hs.
Qed.

Lemma extract_here k : extractCodeReviewFindingMarker (codeReviewFindingMarker k) = codeReviewMarkerDigest k.
Proof.
  unfold extractCodeReviewFindingMarker, codeReviewFindingMarker. rewrite Cut_here.
  rewrite <- (append_nil marker_end) at 1. change marker_end with (String " " "-->").
  rewrite Cut_at by by apply digest_lacks. apply TrimSpace_digest.
Qed.
Lemma finding_prefix_nl : lacks nl finding_prefix.
Proof. by apply lacksb_spec. Qed.

Lemma extract_finding_marker body key :
  TrimSpace key <> "" -> Contains (TrimSpace body) finding_prefix = false ->
  extractCodeReviewFindingMarker (withCodeReviewFindingMarker body key) = codeReviewMarkerDigest key.
Proof.
  intros Hk Hb. unfold withCodeReviewFindingMarker, with_marker. rewrite bool_decide_eq_false_2 by done.
  assert (Contains (TrimSpace body) (codeReviewFindingMarker (TrimSpace key)) = false) as ->.
  { apply not_true_iff_false. intros Hc. apply not_true_iff_false in Hb. apply Hb. eapply Contains_trans; [exact Hc|].
    apply Contains_iff. exists "". eexists. reflexivity. }
  rewrite <- (digest_trim key). case_bool_decide; [apply extract_here|].
  rewrite blank_line_split. unfold extractCodeReviewFindingMarker at 1.
  rewrite Cut_none_app by (done || apply finding_prefix_nl).
  rewrite (Cut_none_app nl "" _ finding_prefix finding_prefix_nl eq_refl : Cut (String nl _) _ = _).
  pose proof (extract_here (TrimSpace key)) as He. unfold extractCodeReviewFindingMarker in He.
  destruct (Cut (codeReviewFindingMarker (TrimSpace key)) finding_prefix) as [[x r]|] eqn:E; [done|].
  unfold codeReviewFindingMarker in E. by rewrite Cut_here in E.
Qed.

Lemma comments_by_marker_in out l c : In c l -> extractCodeReviewFindingMarker (ci_Body c) <> "" ->
  is_Some (comments_by_marker out l !! extractCodeReviewFindingMarker (ci_Body c)).
Proof.
  assert (forall l out m, is_Some (out !! m) -> is_Some (comments_by_marker out l !! m)) as Hmono.
  { clear. induction l as [|x l IH]; intros out m H; [done|]. cbn. apply IH. case_bool_decide; [done|].
    case_match; [done|]. rewrite lookup_insert_is_Some'. eauto. }
  revert out. induction l as [|x l IH]; intros out Hin Hm; [done|]. destruct Hin as [->|Hin]; [|by apply IH].
  cbn. apply Hmono. rewrite bool_decide_eq_false_2 by done. case_match; [eauto|]. rewrite lookup_insert. by case_decide; eauto.
Qed.

(** What a comment's marker finds is a comment with that marker, and the first. *)
Lemma comments_by_marker_from out l m c : comments_by_marker out l !! m = Some c ->
  out !! m = Some c \/ (In c l /\ extractCodeReviewFindingMarker (ci_Body c) = m /\ m <> "").
Proof.
  revert out. induction l as [|x l IH]; intros out H; [by left|]. cbn in H. apply IH in H as [H|(H1 & H2)]; [|right; split; [by right|done]].
  case_bool_decide as Hx; [by left|]. case_match; [by left|]. apply lookup_insert_Some in H as [[<- <-]|[_ H]]; [|by left].
  right. split; [by left|done].
Qed.
