(* ===== verification/ReviewStore.v ===== *)
(** * The store of code review assessments

    One definition per statement that writes code_review_revision_assessments:
    db/code_review_assessments.go, code_review_publication_recovery.go,
    code_review_job_terminal.go, code_review_terminal_recovery.go,
    code_review_assessment_refresh.go, code_review_scheduling.go,
    code_review_loop_guard.go, code_review_ended_recovery.go and
    services/codereview/recheck_admission.go, and the two writes of the review
    metadata that publication makes.  [now] is the start of the transaction; an
    [Err] leaves the database as it was. *)

From S2P Require Import Prelude GoRuntime GoStrings Sql Tables JobStore Automation Review.
From stdpp Require Import base option list strings gmap.
From Stdlib Require Import Ascii.

Open Scope string_scope.
Open Scope Z_scope.

Definition ErrCodeReviewAssessmentConflict : string := "code review assessment identity conflicts with captured inputs".
Definition ErrCodeReviewAssessmentState : string := "code review assessment state changed".
Definition ErrNoRows : string := "no rows in result set".

Definition CodeReviewPublicationReconciliationWindow : duration := 2 * hour.
Definition CodeReviewPublicationOperatorRequired : string :=
  "operator_reconciliation_required: automatic reconciliation stopped after the assessment exceeded two hours; verify the original GitHub publication key and commit before resolving this reservation".
Definition CodeReviewPublicationLegacyReceiptAttempted : string :=
  "operator_reconciliation_required: legacy receipt lookup attempted; no verified receipt recorded".

(** [s LIKE 'pattern%']: an underscore of the pattern matches any character. *)
Fixpoint like_prefix (pattern s : string) : bool :=
  match pattern, s with
  | EmptyString, _ => true
  | String p pattern, String c s => ((p =? "_")%char || (p =? c)%char) && like_prefix pattern s
  | _, _ => false
  end.
Definition col_like (c : option string) (pattern : string) : bool := match c with Some s => like_prefix pattern s | None => false end.
(** [regexp_replace(s, '^old', 'new')]. *)
Definition replace_prefix (old new s : string) : string :=
  if HasPrefix s old then new +:+ slice_from (String.length old) s else s.

(** ** Captured inputs *)

Definition canonicalAssessmentManifest (raw : RawMessage) : result jtree :=
  match raw with
  | RawJSON (TObj fs) => Ok (canonical (TObj fs))
  | _ => Err "assessment manifest must be a JSON object"
  end.

Definition validateAssessmentCapture (c : CodeReviewAssessmentCapture) : result unit :=
  if (c_OrgID c ==? uuid_Nil) || (c_RepositoryID c ==? uuid_Nil) || (c_PullRequestID c ==? uuid_Nil) || (c_PolicyID c ==? uuid_Nil)
     || (c_SessionID c ==? uuid_Nil) || (c_Generation c <? 1) || (c_InputVersion c <? 1)
  then Err "assessment requires org, repository, PR, policy, session, positive generation and input version"
  else if negb (validate_scope (c_ReviewScope c)) then Err "invalid code review scope"
  else if negb (validate_route (c_RouteReason c)) then Err "invalid code review assessment route reason"
  else if ((c_ReviewScope c ==? CodeReviewScopeEvidenceOnly) && is_null (c_SourceAssessmentID c))
          || ((c_ReviewScope c ==? CodeReviewScopeFull) && negb (is_null (c_SourceAssessmentID c)))
  then Err "assessment source must be a full baseline only for evidence-only scope"
  else if (c_HeadSHA c ==? "") || (c_BaseSHA c ==? "") || (c_BaseRef c ==? "") || (c_CodeDigest c ==? "") || (c_ContractDigest c ==? "")
          || (c_IntentDigest c ==? "") || (c_VisualDigest c ==? "") || (c_RequestDigest c ==? "") || (c_GateDigest c ==? "")
          || (c_InputDigest c ==? "") || (c_RouteReason c ==? CodeReviewRouteOther "") || (c_PublicationKey c ==? "")
  then Err "assessment requires a complete captured revision and digest set"
  else let? _ := canonicalAssessmentManifest (c_InputManifest c) in Ok tt.

(** The policy a manifest was captured under. *)
Definition policy_identity (manifest : jtree) : option (string * Z * string) :=
  match field "contract" manifest with
  | Some contract =>
      match field "policy_id" contract, field "policy_version" contract, field "policy_digest" contract with
      | Some (TStr id), Some (TNum v), Some (TStr d) => Some (id, v, d)
      | _, _, _ => None
      end
  | None => None
  end.

Definition sameUUID (a b : option uuid) : bool :=
  match a, b with Some a, Some b => a ==? b | None, None => true | _, _ => false end.

Definition assessmentCaptureEqual (c : CodeReviewAssessmentCapture) (manifest : jtree) (row : CodeReviewAssessment) (explicitID : bool) : bool :=
  let a := ra_Capture row in
  match canonicalAssessmentManifest (c_InputManifest a) with
  | Err _ => false
  | Ok existingManifest =>
      (negb explicitID || (c_ID a ==? c_ID c)) && (c_OrgID a ==? c_OrgID c) && (c_RepositoryID a ==? c_RepositoryID c)
      && (c_PullRequestID a ==? c_PullRequestID c) && (c_PolicyID a ==? c_PolicyID c) && (c_SessionID a ==? c_SessionID c)
      && (c_Generation a =? c_Generation c)
      && sameUUID (c_ConversationID a) (c_ConversationID c) && sameUUID (c_SourceAssessmentID a) (c_SourceAssessmentID c)
      && sameUUID (c_PreviousAssessmentID a) (c_PreviousAssessmentID c)
      && sameUUID (c_PreviousPublishedAssessmentID a) (c_PreviousPublishedAssessmentID c)
      && (c_BaseSHA a ==? c_BaseSHA c) && (c_BaseRef a ==? c_BaseRef c) && (c_HeadSHA a ==? c_HeadSHA c)
      && (c_InputVersion a =? c_InputVersion c) && (c_CodeDigest a ==? c_CodeDigest c) && (c_ContractDigest a ==? c_ContractDigest c)
      && (c_IntentDigest a ==? c_IntentDigest c) && (c_VisualDigest a ==? c_VisualDigest c) && (c_RequestDigest a ==? c_RequestDigest c)
      && (c_GateDigest a ==? c_GateDigest c) && (c_InputDigest a ==? c_InputDigest c) && (existingManifest ==? manifest)
      && (c_ReviewScope a ==? c_ReviewScope c) && (c_RouteReason a ==? c_RouteReason c) && (c_PublicationKey a ==? c_PublicationKey c)
  end.

Definition active_assessment (a : CodeReviewAssessment) : bool :=
  (ra_Status a ==? CodeReviewAssessmentReserved) || (ra_Status a ==? CodeReviewAssessmentRunning)
  || (ra_Status a ==? CodeReviewAssessmentPublishing).

Section Store.
Variables (now : time) (orgID : uuid).

Definition is_assessment (id : uuid) (a : CodeReviewAssessment) : bool := (ra_OrgID a ==? orgID) && (ra_ID a ==? id).

Definition set_assessments (p : CodeReviewAssessment -> bool) (f : CodeReviewAssessment -> CodeReviewAssessment) (d : ReviewDB) : ReviewDB :=
  d <| assessments := update p f (assessments d) |>.

(** An UPDATE of one row that must find it. *)
Definition write_assessment (p : CodeReviewAssessment -> bool) (f : CodeReviewAssessment -> CodeReviewAssessment) (d : ReviewDB) : result ReviewDB :=
  if exists_row p (assessments d) then Ok (set_assessments p f d) else Err ErrCodeReviewAssessmentState.

Definition GetByID (id : uuid) (d : ReviewDB) : result CodeReviewAssessment := one_row (is_assessment id) (assessments d) ErrNoRows.

(** ** Create *)

(** The metadata row that the INSERT selects from its join. *)
Definition capture_metadata (c : CodeReviewAssessmentCapture) (d : ReviewDB) : list (CodeReviewSessionMetadata * string) :=
  omap (fun m =>
    if (m_OrgID m ==? c_OrgID c) && (m_SessionID m ==? c_SessionID c) && (m_RepositoryID m ==? c_RepositoryID c)
       && (m_PullRequestID m ==? c_PullRequestID c) && (m_PolicyID m ==? c_PolicyID c)
       && exists_row (fun pol => (pol_OrgID pol ==? m_OrgID m) && (pol_ID pol ==? m_PolicyID m)
                                 && match pol_RepositoryID pol with Some r => r ==? m_RepositoryID m | None => true end) (review_policies d)
    then match select (fun p => (rp_OrgID p ==? m_OrgID m) && (rp_ID p ==? m_PullRequestID m)
                                && exists_row (fun r => (rr_OrgID r ==? m_OrgID m) && (rr_ID r ==? m_RepositoryID m)
                                                        && (rr_FullName r ==? rp_GitHubRepo p)) (review_repositories d))
                      (review_pull_requests d) with
         | p :: _ => Some (m, rp_GitHubRepo p)
         | [] => None
         end
    else None)
    (order_by (fun m n => (m_CreatedAt n <? m_CreatedAt m) || ((m_CreatedAt n =? m_CreatedAt m) && negb (String.ltb (m_ID m) (m_ID n))))
              (review_metadata d)).

Definition new_assessment (c : CodeReviewAssessmentCapture) (repo : string) (metadataID : uuid) : CodeReviewAssessment :=
  MkAssessment c repo metadataID None None false CodeReviewAssessmentReserved None None None None None None
    CodeReviewPublicationNotStarted None None None None now None None.

(** The unique keys that ON CONFLICT DO NOTHING covers. *)
Definition capture_conflict (c : CodeReviewAssessmentCapture) (a : CodeReviewAssessment) : bool :=
  (ra_ID a ==? c_ID c)
  || ((ra_OrgID a ==? c_OrgID c) && (((ra_PullRequestID a ==? c_PullRequestID c) && (ra_Generation a =? c_Generation c))
       || (ra_PublicationKey a ==? c_PublicationKey c) || ((ra_PullRequestID a ==? c_PullRequestID c) && active_assessment a))).

(** The row that an evidence-only capture is based on. *)
Definition full_baseline (c : CodeReviewAssessmentCapture) (source : uuid) (version : Z) (digest : string) (a : CodeReviewAssessment) : bool :=
  (ra_OrgID a ==? c_OrgID c) && (ra_PullRequestID a ==? c_PullRequestID c) && (ra_ID a ==? source) && (ra_Scope a ==? CodeReviewScopeFull)
  && (ra_Status a ==? CodeReviewAssessmentCompleted) && ra_CoverageComplete a && (ra_SessionID a ==? c_SessionID c)
  && (c_RepositoryID (ra_Capture a) ==? c_RepositoryID c) && (c_PolicyID (ra_Capture a) ==? c_PolicyID c) && (ra_HeadSHA a ==? c_HeadSHA c)
  && (c_BaseSHA (ra_Capture a) ==? c_BaseSHA c) && (c_BaseRef (ra_Capture a) ==? c_BaseRef c)
  && (c_CodeDigest (ra_Capture a) ==? c_CodeDigest c)
  && match c_InputManifest (ra_Capture a) with RawJSON t => policy_identity t ==? Some (c_PolicyID c, version, digest) | _ => false end.

Definition earlier (c : CodeReviewAssessmentCapture) (id : uuid) (a : CodeReviewAssessment) : bool :=
  (ra_OrgID a ==? c_OrgID c) && (ra_PullRequestID a ==? c_PullRequestID c) && (ra_ID a ==? id) && (ra_Generation a <? c_Generation c).
Definition published (a : CodeReviewAssessment) : bool :=
  (ra_Status a ==? CodeReviewAssessmentCompleted)
  && ((ra_PublicationState a ==? CodeReviewPublicationConfirmed) || (ra_PublicationState a ==? CodeReviewPublicationNotRequired)).

Definition check_source (c : CodeReviewAssessmentCapture) (manifest : jtree) (d : ReviewDB) : result unit :=
  match c_SourceAssessmentID c with
  | None => Ok tt
  | Some source =>
      match policy_identity manifest with
      | Some (id, version, digest) =>
          if (id <>? c_PolicyID c) || (version <? 1) || (digest ==? "") then Err ErrCodeReviewAssessmentConflict
          else if exists_row (full_baseline c source version digest) (assessments d) then Ok tt else Err ErrCodeReviewAssessmentConflict
      | None => Err ErrCodeReviewAssessmentConflict
      end
  end.
Definition check_previous (c : CodeReviewAssessmentCapture) (d : ReviewDB) : result unit :=
  match c_PreviousAssessmentID c with
  | None => Ok tt
  | Some id => if exists_row (earlier c id) (assessments d) then Ok tt else Err ErrCodeReviewAssessmentConflict
  end.
Definition check_previous_published (c : CodeReviewAssessmentCapture) (d : ReviewDB) : result unit :=
  match c_PreviousPublishedAssessmentID c with
  | None => Ok tt
  | Some id => if exists_row (fun a => earlier c id a && published a) (assessments d) then Ok tt else Err ErrCodeReviewAssessmentConflict
  end.

(** The INSERT, and the lookup of the row it collided with. *)
Definition insert_capture (c : CodeReviewAssessmentCapture) (manifest : jtree) (explicitID : bool) (d : ReviewDB)
    : result (ReviewDB * (CodeReviewAssessment * bool)) :=
  match capture_metadata c d, exists_row (capture_conflict c) (assessments d) with
  | (m, repo) :: _, false =>
      let a := new_assessment (c <| c_InputManifest := RawJSON manifest |>) repo (m_ID m) in
      Ok (d <| assessments := (assessments d ++ [a])%list |>, (a, false))
  | joined, _ =>
      match limit 2 (select (fun a => (ra_OrgID a ==? c_OrgID c)
                               && ((ra_ID a ==? c_ID c) || ((ra_PullRequestID a ==? c_PullRequestID c) && (ra_Generation a =? c_Generation c))
                                   || (ra_PublicationKey a ==? c_PublicationKey c))) (assessments d)) with
      | [] => match joined with [] => Err ErrNoRows | _ => Err ErrCodeReviewAssessmentConflict end
      | [a] => if assessmentCaptureEqual c manifest a explicitID then Ok (d, (a, true)) else Err ErrCodeReviewAssessmentConflict
      | _ => Err ErrCodeReviewAssessmentConflict
      end
  end.

Definition Create (fresh : uuid) (c : CodeReviewAssessmentCapture) (d : ReviewDB) : result (ReviewDB * (CodeReviewAssessment * bool)) :=
  let? _ := validateAssessmentCapture c in
  let explicitID := c_ID c <>? uuid_Nil in
  let c := if explicitID then c else c <| c_ID := fresh |> in
  let? manifest := canonicalAssessmentManifest (c_InputManifest c) in
  let? _ := check_source c manifest d in
  let? _ := check_previous c d in
  let? _ := check_previous_published c d in
  insert_capture c manifest explicitID d.

(** ** The life of an assessment *)

(** The identity every statement repeats. *)
Definition same_inputs (id : uuid) (generation : Z) (inputDigest : string) (a : CodeReviewAssessment) : bool :=
  is_assessment id a && (ra_Generation a =? generation) && (ra_InputDigest a ==? inputDigest).
Definition no_receipt (a : CodeReviewAssessment) : bool := is_null (ra_PublicationReceipt a) && is_null (ra_GitHubReviewID a).
Definition publishing (s : CodeReviewPublicationState) (a : CodeReviewAssessment) : bool :=
  (ra_Status a ==? CodeReviewAssessmentPublishing) && (ra_PublicationState a ==? s).
(** Reserved or running before any reservation. *)
Definition not_started (a : CodeReviewAssessment) : bool :=
  ((ra_Status a ==? CodeReviewAssessmentReserved) || (ra_Status a ==? CodeReviewAssessmentRunning))
  && (ra_PublicationState a ==? CodeReviewPublicationNotStarted).
(** Nothing of it can have been sent. *)
Definition unsent (a : CodeReviewAssessment) : bool := not_started a || publishing CodeReviewPublicationReserved a.

Definition close (s : CodeReviewAssessmentStatus) (detail : string) (a : CodeReviewAssessment) : CodeReviewAssessment :=
  a <| ra_Status := s |> <| ra_FailureDetail := Some detail |> <| ra_CompletedAt := Some now |>.

Definition MarkRunning (id : uuid) (generation : Z) (inputDigest : string) : ReviewDB -> result ReviewDB :=
  write_assessment (fun a => same_inputs id generation inputDigest a && (ra_Status a ==? CodeReviewAssessmentReserved))
    (fun a => a <| ra_Status := CodeReviewAssessmentRunning |>).

Definition validateAssessmentCompletion (r : CodeReviewAssessmentCompletion) : result unit :=
  if negb (validate_origin (r_ResultOrigin r)) then Err "invalid code review result origin"
  else if negb (validate_review_decision (r_Decision r)) then Err "invalid code review decision"
  else let? _ := canonicalAssessmentManifest (r_StructuredOutcome r) in
       match r_RiskReasonDetails r with RawInvalid => Err "invalid risk reason details" | _ => Ok tt end.

(** The documents of a staged result, compared as decoded values. *)
Definition assessmentJSONEqual (a : option jtree) (b : RawMessage) : bool :=
  match a, b with
  | None, RawEmpty => true
  | Some a, RawJSON b => canonical a ==? canonical b
  | _, _ => false
  end.

Definition stage (r : CodeReviewAssessmentCompletion) (a : CodeReviewAssessment) : CodeReviewAssessment :=
  a <| ra_ResultOrigin := Some (r_ResultOrigin r) |> <| ra_CoverageComplete := r_CoverageComplete r |>
    <| ra_Decision := Some (r_Decision r) |> <| ra_Acceptable := Some (r_Acceptable r) |>
    <| ra_RiskReasonDetails := raw_column (r_RiskReasonDetails r) |> <| ra_StructuredOutcome := raw_column (r_StructuredOutcome r) |>
    <| ra_RenderedBody := Some (r_RenderedBody r) |>.
Definition staged_as (r : CodeReviewAssessmentCompletion) (a : CodeReviewAssessment) : bool :=
  col_is (ra_ResultOrigin a) (r_ResultOrigin r) && Bool.eqb (ra_CoverageComplete a) (r_CoverageComplete r)
  && col_is (ra_Decision a) (r_Decision r) && col_is (ra_Acceptable a) (r_Acceptable r)
  && col_is (ra_RenderedBody a) (r_RenderedBody r)
  && assessmentJSONEqual (ra_RiskReasonDetails a) (r_RiskReasonDetails r)
  && assessmentJSONEqual (ra_StructuredOutcome a) (r_StructuredOutcome r).

Definition StageOutcome (id : uuid) (generation : Z) (inputDigest : string) (r : CodeReviewAssessmentCompletion) (d : ReviewDB) : result ReviewDB :=
  let? _ := validateAssessmentCompletion r in
  let p a := same_inputs id generation inputDigest a && (ra_Status a ==? CodeReviewAssessmentRunning) && is_null (ra_ResultOrigin a) in
  if exists_row p (assessments d) then Ok (set_assessments p (stage r) d)
  else
    let? a := GetByID id d in
    if (ra_Generation a =? generation) && (ra_InputDigest a ==? inputDigest)
       && ((ra_Status a ==? CodeReviewAssessmentRunning) || (ra_Status a ==? CodeReviewAssessmentPublishing)) && staged_as r a
    then Ok d else Err ErrCodeReviewAssessmentConflict.

Definition ReservePublication (id : uuid) (generation : Z) (inputDigest submittedCommitSHA : string) (d : ReviewDB) : result ReviewDB :=
  if submittedCommitSHA ==? "" then Err "publication requires submitted commit SHA"
  else write_assessment (fun a => same_inputs id generation inputDigest a && (ra_Status a ==? CodeReviewAssessmentRunning)
           && (ra_PublicationState a ==? CodeReviewPublicationNotStarted) && negb (is_null (ra_ResultOrigin a)) && (ra_HeadSHA a ==? submittedCommitSHA))
         (fun a => a <| ra_Status := CodeReviewAssessmentPublishing |> <| ra_PublicationState := CodeReviewPublicationReserved |>
                     <| ra_SubmittedCommitSHA := Some submittedCommitSHA |>) d.

Definition submitted_head (a : CodeReviewAssessment) : bool := col_is (ra_SubmittedCommitSHA a) (ra_HeadSHA a).

Definition MarkPublicationAttemptUncertain (id : uuid) (generation : Z) (inputDigest : string) : ReviewDB -> result ReviewDB :=
  write_assessment (fun a => same_inputs id generation inputDigest a && publishing CodeReviewPublicationReserved a
      && negb (is_null (ra_ResultOrigin a)) && submitted_head a && no_receipt a)
    (fun a => a <| ra_PublicationState := CodeReviewPublicationUncertain |>).

Definition NoteUncertainPublication (id : uuid) (generation : Z) (inputDigest detail : string) (d : ReviewDB) : result ReviewDB :=
  if detail ==? "" then Err "reconciliation detail is required"
  else write_assessment (fun a => same_inputs id generation inputDigest a && publishing CodeReviewPublicationUncertain a
           && negb (is_null (ra_ResultOrigin a)))
         (fun a => a <| ra_FailureDetail := Some detail |>) d.

Definition RestoreRejectedPublication (id : uuid) (generation : Z) (inputDigest detail : string) (d : ReviewDB) : result ReviewDB :=
  if detail ==? "" then Err "publication rejection detail is required"
  else write_assessment (fun a => same_inputs id generation inputDigest a && publishing CodeReviewPublicationUncertain a
           && negb (is_null (ra_ResultOrigin a)) && submitted_head a && no_receipt a)
         (fun a => a <| ra_PublicationState := CodeReviewPublicationReserved |> <| ra_FailureDetail := Some detail |>) d.

Definition SupersedeUnsentPublication (id : uuid) (generation : Z) (inputDigest detail : string) (d : ReviewDB) : result ReviewDB :=
  if detail ==? "" then Err "supersede detail is required"
  else write_assessment (fun a => same_inputs id generation inputDigest a && publishing CodeReviewPublicationReserved a
           && negb (is_null (ra_ResultOrigin a)) && no_receipt a)
         (fun a => close CodeReviewAssessmentSuperseded detail a <| ra_SupersededAt := Some now |>) d.

Definition RecordPublication (id : uuid) (generation : Z) (inputDigest : string) (state : CodeReviewPublicationState) (receipt : RawMessage)
    (githubReviewID : option Z) (githubReviewURL : option string) (d : ReviewDB) : result ReviewDB :=
  if (state <>? CodeReviewPublicationUncertain) && (state <>? CodeReviewPublicationConfirmed) then Err "unsupported publication result"
  else if receipt ==? RawInvalid then Err "publication receipt is not valid JSON"
  else if (state ==? CodeReviewPublicationConfirmed) && (is_null githubReviewID || (receipt ==? RawEmpty))
  then Err "confirmed publication requires review identity and receipt"
  else write_assessment (fun a => same_inputs id generation inputDigest a && (ra_Status a ==? CodeReviewAssessmentPublishing)
           && (((state ==? CodeReviewPublicationUncertain) && (ra_PublicationState a ==? CodeReviewPublicationReserved))
               || ((state ==? CodeReviewPublicationConfirmed) && (ra_PublicationState a ==? CodeReviewPublicationUncertain))))
         (fun a => a <| ra_PublicationState := state |> <| ra_PublicationReceipt := raw_column receipt |>
                     <| ra_GitHubReviewID := githubReviewID |> <| ra_GitHubReviewURL := githubReviewURL |>
                     <| ra_FailureDetail := if state ==? CodeReviewPublicationConfirmed then None else ra_FailureDetail a |>) d.

Definition MarkPublicationNotRequired (id : uuid) (generation : Z) (inputDigest : string) : ReviewDB -> result ReviewDB :=
  write_assessment (fun a => same_inputs id generation inputDigest a && (ra_Status a ==? CodeReviewAssessmentRunning)
      && (ra_PublicationState a ==? CodeReviewPublicationNotStarted) && negb (is_null (ra_ResultOrigin a)))
    (fun a => a <| ra_PublicationState := CodeReviewPublicationNotRequired |>).

(** The comparison of the SQL: NULLs of a column never equal a value, except
    for the risk reasons. *)
Definition outcome_is (r : CodeReviewAssessmentCompletion) (a : CodeReviewAssessment) : bool :=
  col_is (ra_ResultOrigin a) (r_ResultOrigin r) && Bool.eqb (ra_CoverageComplete a) (r_CoverageComplete r)
  && col_is (ra_Decision a) (r_Decision r) && col_is (ra_Acceptable a) (r_Acceptable r)
  && (ra_RiskReasonDetails a ==? raw_column (r_RiskReasonDetails r))
  && match raw_column (r_StructuredOutcome r) with Some t => col_is (ra_StructuredOutcome a) t | None => false end
  && col_is (ra_RenderedBody a) (r_RenderedBody r).

Definition Complete (id : uuid) (generation : Z) (inputDigest : string) (r : CodeReviewAssessmentCompletion) (d : ReviewDB) : result ReviewDB :=
  let? _ := validateAssessmentCompletion r in
  write_assessment (fun a => same_inputs id generation inputDigest a
      && ((ra_Status a ==? CodeReviewAssessmentRunning) || (ra_Status a ==? CodeReviewAssessmentPublishing))
      && ((ra_PublicationState a ==? CodeReviewPublicationConfirmed) || (ra_PublicationState a ==? CodeReviewPublicationNotRequired))
      && outcome_is r a)
    (fun a => a <| ra_Status := CodeReviewAssessmentCompleted |> <| ra_CompletedAt := Some now |>) d.

Definition Fail (id : uuid) (generation : Z) (inputDigest detail : string) (d : ReviewDB) : result ReviewDB :=
  if detail ==? "" then Err "failure detail is required"
  else write_assessment (fun a => same_inputs id generation inputDigest a
           && (not_started a || (publishing CodeReviewPublicationReserved a && no_receipt a)))
         (close CodeReviewAssessmentFailed detail) d.

Definition Supersede (id : uuid) (generation : Z) (inputDigest detail : string) (d : ReviewDB) : result ReviewDB :=
  if detail ==? "" then Err "supersede detail is required"
  else write_assessment (fun a => same_inputs id generation inputDigest a && not_started a)
         (fun a => close CodeReviewAssessmentSuperseded detail a <| ra_SupersededAt := Some now |>) d.

(** ** Writes of other components *)

Definition expired_uncertain (a : CodeReviewAssessment) : bool :=
  publishing CodeReviewPublicationUncertain a && negb (is_null (ra_ResultOrigin a))
  && (ra_CreatedAt a <=? now - CodeReviewPublicationReconciliationWindow).

Definition PauseExpiredPublication (id : uuid) (generation : Z) (inputDigest : string) (d : ReviewDB) : ReviewDB * bool :=
  let p a := same_inputs id generation inputDigest a && expired_uncertain a in
  (set_assessments p (fun a => a <| ra_FailureDetail := Some CodeReviewPublicationOperatorRequired |>) d, exists_row p (assessments d)).

(** The pause of RepairMissingWakes: the hundred oldest of every organization. *)
Definition pause_expired_batch (d : ReviewDB) : ReviewDB :=
  let due a := expired_uncertain a && negb (like_prefix "operator_reconciliation_required:" (default "" (ra_FailureDetail a))) in
  let ids := map (fun a => (ra_OrgID a, ra_ID a))
    (limit 100 (order_by (fun a b => (ra_CreatedAt a <? ra_CreatedAt b) || ((ra_CreatedAt a =? ra_CreatedAt b) && negb (String.ltb (ra_ID b) (ra_ID a))))
                         (select due (assessments d)))) in
  set_assessments (fun a => bool_decide ((ra_OrgID a, ra_ID a) ∈ ids) && publishing CodeReviewPublicationUncertain a)
    (fun a => a <| ra_FailureDetail := Some CodeReviewPublicationOperatorRequired |>) d.

(** The mark of the legacy receipts whose controllers RepairMissingWakes
    enqueued. *)
Definition note_legacy_attempts (enqueued : list Job) (d : ReviewDB) : ReviewDB :=
  set_assessments (fun a => existsb (fun j => (j_org_id j ==? ra_OrgID a) && col_is (payload_text (j_payload j) "session_id") (ra_SessionID a)
                                              && col_is (payload_text (j_payload j) "review_output_key") (ra_PublicationKey a)) enqueued
                            && (ra_PublicationState a ==? CodeReviewPublicationUncertain)
                            && exists_row (fun m => (m_OrgID m ==? ra_OrgID a) && (m_ID m ==? ra_MetadataID a) && (m_SessionID m ==? ra_SessionID a)
                                                    && negb (is_null (m_GitHubReviewID m))) (review_metadata d))
    (fun a => a <| ra_FailureDetail := Some CodeReviewPublicationLegacyReceiptAttempted |>) d.

Definition job_assessment (j : Job) (a : CodeReviewAssessment) : bool :=
  ((j_job_type j ==? "run_code_review") && (ra_Scope a ==? CodeReviewScopeFull)
   && col_is (payload_text (j_payload j) "session_id") (ra_SessionID a)
   && col_is (payload_text (j_payload j) "review_output_key") (ra_PublicationKey a))
  || ((j_job_type j ==? "run_code_review_recheck") && col_is (payload_text (j_payload j) "assessment_id") (ra_ID a)).

Definition DeadLetterCodeReviewWithLease (jobID lockToken : uuid) (errMsg failureDetail : string) (d : ReviewDB) : ReviewDB * bool :=
  let leased j := (j_org_id j ==? orgID) && (j_id j ==? jobID) && (j_status j ==? JobStatusRunning) && col_is (j_lock_token j) lockToken
                  && ((j_job_type j ==? "run_code_review") || (j_job_type j ==? "run_code_review_recheck")) in
  match select leased (jobs (review_plane d)) with
  | [] => (d, false)
  | js =>
      let plane' := (DeadLetterWithLease now jobID lockToken errMsg (review_plane d)).1 in
      (set_assessments (fun a => (ra_OrgID a ==? orgID) && existsb (fun j => job_assessment j a) js && no_receipt a && unsent a)
         (close CodeReviewAssessmentFailed failureDetail) (d <| review_plane := plane' |>), true)
  end.

(** The first statement of reconcileTerminalReviews. *)
Definition terminal_metadata (a : CodeReviewAssessment) (m : CodeReviewSessionMetadata) : bool :=
  (m_OrgID m ==? ra_OrgID a) && (m_ID m ==? ra_MetadataID a) && (m_SessionID m ==? ra_SessionID a) && (m_PullRequestID m ==? ra_PullRequestID a)
  && ((m_Status m ==? CodeReviewSessionStatusStale) || (m_Status m ==? CodeReviewSessionStatusFailed) || (m_Status m ==? CodeReviewSessionStatusCancelled)).
Definition end_with (m : CodeReviewSessionMetadata) (a : CodeReviewAssessment) : CodeReviewAssessment :=
  a <| ra_Status := match m_Status m with
                    | CodeReviewSessionStatusStale => CodeReviewAssessmentSuperseded
                    | CodeReviewSessionStatusCancelled => CodeReviewAssessmentCancelled
                    | _ => CodeReviewAssessmentFailed
                    end |>
    <| ra_CompletedAt := coalesce (ra_CompletedAt a) now |>
    <| ra_SupersededAt := if m_Status m ==? CodeReviewSessionStatusStale then coalesce (ra_SupersededAt a) now else ra_SupersededAt a |>
    <| ra_FailureDetail := coalesce (ra_FailureDetail a) ("full review ended with status " +:+ session_status_text (m_Status m)) |>.
Definition reconcile_terminal_assessments (prID : uuid) (d : ReviewDB) : ReviewDB :=
  set_assessments (fun a => (ra_OrgID a ==? orgID) && (ra_PullRequestID a ==? prID) && (ra_Scope a ==? CodeReviewScopeFull)
                            && exists_row (terminal_metadata a) (review_metadata d) && unsent a && no_receipt a)
    (fun a => match select (terminal_metadata a) (review_metadata d) with m :: _ => end_with m a | [] => a end) d.

(** The cancellation of a superseded evidence turn by a forced fresh review. *)
Definition force_fresh_cancel (assessmentID requestID : uuid) (d : ReviewDB) : ReviewDB :=
  set_assessments (fun a => is_assessment assessmentID a && (ra_Scope a ==? CodeReviewScopeEvidenceOnly) && no_receipt a && unsent a)
    (close CodeReviewAssessmentCancelled ("force_fresh:" +:+ requestID)) d.

(** The failure of a full review whose parent ended without saved work: the
    row that the locked lookup of ReconcileEndedFullReview accepts. *)
Definition fail_ended_review (assessmentID : uuid) (reason : string) (d : ReviewDB) : ReviewDB :=
  set_assessments (fun a => is_assessment assessmentID a && (ra_Scope a ==? CodeReviewScopeFull) && (ra_Status a ==? CodeReviewAssessmentRunning)
                            && is_null (ra_ResultOrigin a) && (ra_PublicationState a ==? CodeReviewPublicationNotStarted) && no_receipt a)
    (close CodeReviewAssessmentFailed reason) d.

(** The stop of a restart loop: the row that heads the chain of attempts. *)
Definition stop_loop (assessmentID : uuid) (d : ReviewDB) : ReviewDB :=
  set_assessments (fun a => is_assessment assessmentID a && (ra_Scope a ==? CodeReviewScopeFull)
                            && ((ra_Status a ==? CodeReviewAssessmentFailed) || (ra_Status a ==? CodeReviewAssessmentSuperseded))
                            && col_like (ra_FailureDetail a) "full_review:"
                            && ((ra_PublicationState a ==? CodeReviewPublicationNotStarted) || (ra_PublicationState a ==? CodeReviewPublicationReserved))
                            && no_receipt a)
    (fun a => a <| ra_Status := CodeReviewAssessmentCancelled |> <| ra_FailureDetail := Some "review_loop_detected" |> <| ra_Decision := None |>
                <| ra_Acceptable := None |> <| ra_RiskReasonDetails := None |> <| ra_CompletedAt := coalesce (ra_CompletedAt a) now |>) d.

Definition MarkFallbackQueued (assessmentID : uuid) (d : ReviewDB) : ReviewDB :=
  set_assessments (fun a => is_assessment assessmentID a
      && ((ra_Status a ==? CodeReviewAssessmentFailed) || (ra_Status a ==? CodeReviewAssessmentSuperseded)) && col_like (ra_FailureDetail a) "full_review:")
    (fun a => a <| ra_FailureDetail := option_map (replace_prefix "full_review:" "full_review_queued:") (ra_FailureDetail a) |>) d.
Definition MarkEvidenceRefreshQueued (assessmentID : uuid) (d : ReviewDB) : ReviewDB :=
  set_assessments (fun a => is_assessment assessmentID a && (ra_Status a ==? CodeReviewAssessmentSuperseded) && col_like (ra_FailureDetail a) "evidence_recheck:")
    (fun a => a <| ra_FailureDetail := option_map (replace_prefix "evidence_recheck:" "evidence_recheck_queued:") (ra_FailureDetail a) |>) d.
Definition MarkEvidenceRefreshFailed (assessmentID : uuid) (d : ReviewDB) : ReviewDB :=
  set_assessments (fun a => is_assessment assessmentID a && (ra_Status a ==? CodeReviewAssessmentSuperseded) && col_like (ra_FailureDetail a) "evidence_recheck:")
    (fun a => a <| ra_FailureDetail := Some "evidence_recheck_failed:Evidence could not be captured. Try again or request a full review." |>) d.

(** ** The scheduler of the pull request *)

(** withLockedPRInTx: the state of the pull request is read, created when it
    is missing, and written back after [fn]. *)
Definition is_pr_state (prID : uuid) (s : CodeReviewPRState) : bool := (st_OrgID s ==? orgID) && (st_PullRequestID s ==? prID).
Definition new_pr_state (fresh repoID prID : uuid) : CodeReviewPRState :=
  MkPRState fresh orgID repoID prID 0 false "" "" "" false None None None None None None None None None None None
    CodeReviewScheduleIdle CodeReviewWaitNone now now.
Definition withLockedPRInTx (fresh repoID prID : uuid) (fn : CodeReviewPRState -> ReviewDB -> result (CodeReviewPRState * ReviewDB)) (d : ReviewDB)
    : result ReviewDB :=
  let owned := exists_row (fun p => (rp_OrgID p ==? orgID) && (rp_ID p ==? prID)
                  && exists_row (fun r => (rr_OrgID r ==? orgID) && (rr_FullName r ==? rp_GitHubRepo p) && (rr_ID r ==? repoID)) (review_repositories d))
                 (review_pull_requests d) in
  if negb owned then Err ErrNoRows
  else
    let d := if exists_row (is_pr_state prID) (pr_states d) then d else d <| pr_states := (pr_states d ++ [new_pr_state fresh repoID prID])%list |> in
    let? s := one_row (is_pr_state prID) (pr_states d) ErrNoRows in
    let? (s', d) := fn s d in
    Ok (d <| pr_states := update (is_pr_state prID) (fun _ => s' <| st_UpdatedAt := now |>) (pr_states d) |>).

(** The newest completed assessment that nothing replaced. *)
Definition current_completed (prID : uuid) (d : ReviewDB) : option uuid :=
  option_map ra_ID (head (order_by (fun a b => ra_Generation b <=? ra_Generation a)
    (select (fun a => (ra_OrgID a ==? orgID) && (ra_PullRequestID a ==? prID) && (ra_Status a ==? CodeReviewAssessmentCompleted)
                      && is_null (ra_SupersededByAssessmentID a)) (assessments d)))).

Definition settleAssessmentLockedPR (assessmentID repoID prID : uuid) (s : CodeReviewPRState) (d : ReviewDB) : result (CodeReviewPRState * ReviewDB) :=
  let? a := one_row (fun a => is_assessment assessmentID a && (c_RepositoryID (ra_Capture a) ==? repoID) && (ra_PullRequestID a ==? prID)) (assessments d) ErrNoRows in
  if active_assessment a then Ok (s, d)
  else
    let completed := ra_Status a ==? CodeReviewAssessmentCompleted in
    let requestStatus := if completed then RequestSatisfied else RequestFailed in
    let d := d <| review_requests := update (fun r => (rq_OrgID r ==? orgID) && ((rq_Status r ==? RequestPending) || (rq_Status r ==? RequestJoined))
        && (col_is (rq_AssessmentID r) assessmentID
            || (completed && (ra_Scope a ==? CodeReviewScopeFull) && is_null (rq_AssessmentID r) && (rq_Status r ==? RequestJoined)
                && col_is (rq_SessionID r) (ra_SessionID a) && (rq_PullRequestID r ==? prID))))
        (fun r => r <| rq_Status := requestStatus |>) (review_requests d) |> in
    let ownsAssessment := col_is (st_ActiveAssessmentID s) assessmentID in
    let ownsLegacySession := is_null (st_ActiveAssessmentID s) && (ra_Scope a ==? CodeReviewScopeFull) && col_is (st_ActiveSessionID s) (ra_SessionID a) in
    if negb ownsAssessment && negb ownsLegacySession then Ok (s, d)
    else
      let s := s <| st_ActiveAssessmentID := None |> <| st_ActiveSessionID := None |> in
      let s := if completed then s <| st_CurrentAssessmentID := Some assessmentID |>
               else if col_is (st_CurrentAssessmentID s) assessmentID then s <| st_CurrentAssessmentID := current_completed prID d |>
               else s in
      if negb (is_null (st_PendingInput s)) then Ok (s, d)
      else Ok (s <| st_State := if completed && (ra_HeadSHA a ==? st_HeadSHA s) && (c_BaseSHA (ra_Capture a) ==? st_BaseSHA s)
                                      && (c_BaseRef (ra_Capture a) ==? st_BaseRef s)
                                  then CodeReviewScheduleCovered else CodeReviewScheduleIdle |>
                 <| st_WaitReason := CodeReviewWaitNone |> <| st_RetryAt := None |> <| st_EligibleAt := None |>, d).

Definition SettleAssessmentInTx (fresh assessmentID : uuid) (d : ReviewDB) : result ReviewDB :=
  let? a := GetByID assessmentID d in
  withLockedPRInTx fresh (c_RepositoryID (ra_Capture a)) (ra_PullRequestID a)
    (settleAssessmentLockedPR assessmentID (c_RepositoryID (ra_Capture a)) (ra_PullRequestID a)) d.

(** ** Review metadata *)

Definition is_metadata (sessionID : uuid) (m : CodeReviewSessionMetadata) : bool := (m_OrgID m ==? orgID) && (m_SessionID m ==? sessionID).
Definition set_metadata (p : CodeReviewSessionMetadata -> bool) (f : CodeReviewSessionMetadata -> CodeReviewSessionMetadata) (d : ReviewDB) : ReviewDB :=
  d <| review_metadata := update p f (review_metadata d) |>.
Definition write_metadata (p : CodeReviewSessionMetadata -> bool) (f : CodeReviewSessionMetadata -> CodeReviewSessionMetadata) (d : ReviewDB) : result ReviewDB :=
  if exists_row p (review_metadata d) then Ok (set_metadata p f d) else Err ErrNoRows.

Definition RecordGitHubReview (sessionID : uuid) (githubReviewID : Z) (githubReviewURL finalReviewBody : string) : ReviewDB -> result ReviewDB :=
  write_metadata (is_metadata sessionID)
    (fun m => m <| m_GitHubReviewID := Some githubReviewID |> <| m_GitHubReviewURL := Some githubReviewURL |> <| m_FinalReviewBody := Some finalReviewBody |>).
Definition MarkStale (sessionID : uuid) (reason : string) (activeOnly : bool) : ReviewDB -> result ReviewDB :=
  write_metadata (fun m => is_metadata sessionID m
      && (negb activeOnly || (m_Status m ==? CodeReviewSessionStatusQueued) || (m_Status m ==? CodeReviewSessionStatusRunning)))
    (fun m => m <| m_Status := CodeReviewSessionStatusStale |> <| m_FailureReason := Some reason |> <| m_CompletedAt := coalesce (m_CompletedAt m) now |>).

End Store.
