(* ===== verification/ReviewSteps.v ===== *)
(** * The life of an assessment as a state machine

    Every statement of [ReviewStore] moves each row by a [row_step]; the rows
    refine the publication machine [phase_step].  The kind of a step says
    whether it belongs to the owner of the publication lock: the declaration of
    a send, the record of its rejection, the record of its receipt. *)

From S2P Require Import Prelude GoRuntime GoStrings Sql Tables JobStore Automation Review ReviewStore.
From stdpp Require Import base option list strings gmap.

Open Scope string_scope.
Open Scope Z_scope.

(** ** Phases *)

Inductive phase := Preparing | Reserved | MaybeSent | Published | LocalOnly | Dropped.

Definition phase_of (a : CodeReviewAssessment) : option phase :=
  match ra_Status a, ra_PublicationState a with
  | CodeReviewAssessmentReserved, CodeReviewPublicationNotStarted => Some Preparing
  | CodeReviewAssessmentRunning, CodeReviewPublicationNotStarted => Some Preparing
  | CodeReviewAssessmentRunning, CodeReviewPublicationNotRequired => Some LocalOnly
  | CodeReviewAssessmentPublishing, CodeReviewPublicationReserved => Some Reserved
  | CodeReviewAssessmentPublishing, CodeReviewPublicationUncertain => Some MaybeSent
  | CodeReviewAssessmentPublishing, CodeReviewPublicationConfirmed => Some Published
  | CodeReviewAssessmentCompleted, CodeReviewPublicationConfirmed => Some Published
  | CodeReviewAssessmentCompleted, CodeReviewPublicationNotRequired => Some LocalOnly
  | CodeReviewAssessmentFailed, CodeReviewPublicationNotStarted => Some Dropped
  | CodeReviewAssessmentFailed, CodeReviewPublicationReserved => Some Dropped
  | CodeReviewAssessmentSuperseded, CodeReviewPublicationNotStarted => Some Dropped
  | CodeReviewAssessmentSuperseded, CodeReviewPublicationReserved => Some Dropped
  | CodeReviewAssessmentCancelled, CodeReviewPublicationNotStarted => Some Dropped
  | CodeReviewAssessmentCancelled, CodeReviewPublicationReserved => Some Dropped
  | _, _ => None
  end.

Inductive kind := Quiet | Send | Reject | Confirm.

Inductive phase_step : kind -> phase -> phase -> Prop :=
| ps_stay k p : phase_step k p p
| ps_reserve : phase_step Quiet Preparing Reserved
| ps_local : phase_step Quiet Preparing LocalOnly
| ps_drop : phase_step Quiet Preparing Dropped
| ps_drop_reserved : phase_step Quiet Reserved Dropped
| ps_send : phase_step Send Reserved MaybeSent
| ps_reject : phase_step Reject MaybeSent Reserved
| ps_confirm : phase_step Confirm MaybeSent Published.

(** ** Rows *)

Definition closed_as (s : CodeReviewAssessmentStatus) : Prop :=
  s = CodeReviewAssessmentFailed \/ s = CodeReviewAssessmentSuperseded \/ s = CodeReviewAssessmentCancelled.

Inductive row_step : kind -> CodeReviewAssessment -> CodeReviewAssessment -> Prop :=
| rs_stay k a : row_step k a a
| rs_run a : ra_Status a = CodeReviewAssessmentReserved -> row_step Quiet a (a <| ra_Status := CodeReviewAssessmentRunning |>)
| rs_stage a r : ra_Status a = CodeReviewAssessmentRunning -> ra_ResultOrigin a = None ->
    row_step Quiet a (stage r a)
| rs_reserve a : ra_Status a = CodeReviewAssessmentRunning -> ra_PublicationState a = CodeReviewPublicationNotStarted ->
    ra_ResultOrigin a <> None ->
    row_step Quiet a (a <| ra_Status := CodeReviewAssessmentPublishing |> <| ra_PublicationState := CodeReviewPublicationReserved |>
                        <| ra_SubmittedCommitSHA := Some (ra_HeadSHA a) |>)
| rs_send a : publishing CodeReviewPublicationReserved a = true -> ra_ResultOrigin a <> None ->
    row_step Send a (a <| ra_PublicationState := CodeReviewPublicationUncertain |>)
| rs_detail a detail : row_step Quiet a (a <| ra_FailureDetail := detail |>)
| rs_reject a detail : publishing CodeReviewPublicationUncertain a = true ->
    row_step Reject a (a <| ra_PublicationState := CodeReviewPublicationReserved |> <| ra_FailureDetail := detail |>)
| rs_confirm a receipt id url : publishing CodeReviewPublicationUncertain a = true ->
    row_step Confirm a (a <| ra_PublicationState := CodeReviewPublicationConfirmed |> <| ra_PublicationReceipt := Some receipt |>
                          <| ra_GitHubReviewID := Some id |> <| ra_GitHubReviewURL := url |> <| ra_FailureDetail := None |>)
| rs_local a : ra_Status a = CodeReviewAssessmentRunning -> ra_PublicationState a = CodeReviewPublicationNotStarted ->
    ra_ResultOrigin a <> None -> row_step Quiet a (a <| ra_PublicationState := CodeReviewPublicationNotRequired |>)
| rs_complete a t : ra_Status a = CodeReviewAssessmentRunning \/ ra_Status a = CodeReviewAssessmentPublishing ->
    ra_PublicationState a = CodeReviewPublicationConfirmed \/ ra_PublicationState a = CodeReviewPublicationNotRequired ->
    row_step Quiet a (a <| ra_Status := CodeReviewAssessmentCompleted |> <| ra_CompletedAt := Some t |>)
| rs_close a s detail t superseded : unsent a = true -> closed_as s ->
    row_step Quiet a (a <| ra_Status := s |> <| ra_FailureDetail := detail |> <| ra_CompletedAt := Some t |> <| ra_SupersededAt := superseded |>)
| rs_stop a detail t : closed_as (ra_Status a) ->
    row_step Quiet a (a <| ra_Status := CodeReviewAssessmentCancelled |> <| ra_FailureDetail := detail |> <| ra_Decision := None |>
                        <| ra_Acceptable := None |> <| ra_RiskReasonDetails := None |> <| ra_CompletedAt := coalesce (ra_CompletedAt a) t |>).

(** What holds of every row. *)
Record assessment_ok (a : CodeReviewAssessment) : Prop := {
  ok_phase : is_Some (phase_of a);
  ok_receipt : ra_PublicationState a = CodeReviewPublicationConfirmed <-> is_Some (ra_PublicationReceipt a);
  ok_review : is_Some (ra_GitHubReviewID a) <-> is_Some (ra_PublicationReceipt a);
  ok_outcome : ra_PublicationState a <> CodeReviewPublicationNotStarted -> ra_ResultOrigin a <> None;
  ok_commit : ra_Status a = CodeReviewAssessmentPublishing -> ra_SubmittedCommitSHA a = Some (ra_HeadSHA a);
  ok_staged : ra_ResultOrigin a <> None -> ra_Status a <> CodeReviewAssessmentCancelled ->
    is_Some (ra_Decision a) /\ is_Some (ra_Acceptable a) /\ is_Some (ra_RenderedBody a);
  ok_completed : is_Some (ra_CompletedAt a) <-> active_assessment a = false
}.

(** A fresh capture. *)
Definition fresh_row (a : CodeReviewAssessment) : Prop :=
  ra_Status a = CodeReviewAssessmentReserved /\ ra_PublicationState a = CodeReviewPublicationNotStarted
  /\ ra_PublicationReceipt a = None /\ ra_GitHubReviewID a = None /\ ra_ResultOrigin a = None /\ ra_CompletedAt a = None.

Lemma publishing_spec s a : publishing s a = true <-> ra_Status a = CodeReviewAssessmentPublishing /\ ra_PublicationState a = s.
Proof. unfold publishing. rewrite andb_true_iff, !bool_decide_eq_true. tauto. Qed.
Lemma not_started_spec a : not_started a = true <->
  (ra_Status a = CodeReviewAssessmentReserved \/ ra_Status a = CodeReviewAssessmentRunning) /\ ra_PublicationState a = CodeReviewPublicationNotStarted.
Proof. unfold not_started. rewrite andb_true_iff, orb_true_iff, !bool_decide_eq_true. tauto. Qed.
Lemma unsent_spec a : unsent a = true <-> phase_of a = Some Preparing \/ phase_of a = Some Reserved.
Proof.
  unfold unsent. rewrite orb_true_iff, not_started_spec, publishing_spec. unfold phase_of.
  destruct (ra_Status a), (ra_PublicationState a); split; intuition congruence.
Qed.

Lemma fresh_row_ok a : fresh_row a -> assessment_ok a.
Proof.
  intros (Hs & Hp & Hr & Hg & Ho & Hc). split; unfold phase_of, active_assessment; rewrite ?Hs, ?Hp, ?Hr, ?Hg, ?Ho, ?Hc;
    try done; split; done || by intros [? ?].
Qed.

Ltac row_cases :=
  match goal with
  | H : row_step _ _ _ |- _ => destruct H; try done
  end.

(** The captured inputs are immutable. *)
Lemma row_step_capture k a a' : row_step k a a' -> ra_Capture a' = ra_Capture a.
Proof. by destruct 1. Qed.

Lemma row_step_phase k a a' p : assessment_ok a -> row_step k a a' -> phase_of a = Some p ->
  exists p', phase_of a' = Some p' /\ phase_step k p p'.
Proof.
  intros Hok Hs. unfold phase_of.
  destruct Hs; cbn; try rewrite publishing_spec in *; try rewrite unsent_spec in *; unfold phase_of, closed_as in *;
    destruct (ra_Status a) eqn:Es, (ra_PublicationState a) eqn:Ep; intros [= <-]; intuition (try congruence);
    subst; try (eexists; split; [reflexivity|]; constructor).
Qed.

(** The status and publication state of a row that has a phase. *)
Ltac row_state :=
  repeat match goal with
  | H : publishing _ _ = true |- _ => apply publishing_spec in H as [? ?]
  | H : unsent _ = true |- _ => apply unsent_spec in H
  | H : _ \/ _ |- _ => destruct H
  | H : closed_as _ |- _ => unfold closed_as in H
  | H : _ /\ _ |- _ => destruct H
  end.

Lemma row_step_ok k a a' : row_step k a a' -> assessment_ok a -> assessment_ok a'.
Proof.
  intros Hs Hok. destruct (ok_phase a Hok) as [p Hp].
  destruct (row_step_phase k a a' p Hok Hs Hp) as (p' & Hp' & _).
  destruct Hok as [_ H1 H2 H3 H4 H5 H6]. unfold active_assessment in H6. unfold phase_of in Hp.
  destruct Hs as [k a|a|a r|a|a|a|a|a|a|a|a s detail t sup|a]; try done; row_state.
  all: try (split; [by eexists; exact Hp'|done..]).
  all: unfold phase_of in *; destruct (ra_Status a) eqn:Es; try done.
  all: destruct (ra_PublicationState a) eqn:Ep; try done.
  all: split; [by eexists; exact Hp'|..]; unfold active_assessment; cbn; rewrite ?Es, ?Ep; subst; cbn.
  all: try done.
  all: try by eauto.
  all: try (split; [done|intros _; by apply coalesce_some]).
  all: rewrite <- H1; by split.
Qed.
#[export] Hint Resolve row_step_ok : plane.

(** ** Tables *)

Definition org_key (a : CodeReviewAssessment) : uuid * string := (ra_OrgID a, ra_PublicationKey a).
Definition org_pr (a : CodeReviewAssessment) : uuid * uuid := (ra_OrgID a, ra_PullRequestID a).
Definition pr_generation (a : CodeReviewAssessment) : uuid * uuid * Z := (ra_OrgID a, ra_PullRequestID a, ra_Generation a).

(** A capture that [Create] may add to [l]: it clashes with no key, and the
    publication it follows is complete. *)
Definition follows (a b : CodeReviewAssessment) : Prop :=
  org_pr b = org_pr a /\ c_PreviousPublishedAssessmentID (ra_Capture a) = Some (ra_ID b).
Record addable (l : list CodeReviewAssessment) (a : CodeReviewAssessment) : Prop := {
  add_fresh : fresh_row a;
  add_unique b : In b l -> ra_ID b <> ra_ID a /\ org_key b <> org_key a /\ pr_generation b <> pr_generation a /\ (active_assessment b = true -> org_pr b <> org_pr a);
  add_previous : c_PreviousPublishedAssessmentID (ra_Capture a) <> None -> exists b, In b l /\ follows a b /\ published b = true
}.

(** The rows that stay, and the capture that is added. *)
Definition rows_step (k : kind) (l l' : list CodeReviewAssessment) : Prop :=
  exists kept new, l' = (kept ++ new)%list /\ Forall2 (row_step k) l kept /\ (new = [] \/ exists a, new = [a] /\ addable l a).

Lemma rows_step_update k p f l : (forall a, In a l -> p a = true -> row_step k a (f a)) -> rows_step k l (update p f l).
Proof.
  intros H. exists (update p f l), []. rewrite app_nil_r. split; [done|]. split; [|by left]. unfold update.
  induction l as [|a l IH]; cbn; constructor; [|apply IH; intros x Hx; apply H; by right].
  destruct (p a) eqn:E; [apply H; [by left|done]|constructor].
Qed.
Lemma rows_stay k l : Forall2 (row_step k) l l.
Proof. induction l; constructor; [constructor|done]. Qed.
Lemma rows_step_refl k l : rows_step k l l.
Proof. exists l, []. rewrite app_nil_r. split; [done|]. split; [apply rows_stay|by left]. Qed.
Lemma rows_step_new k l a : addable l a -> rows_step k l (l ++ [a]).
Proof. intros H. exists l, [a]. split; [done|]. split; [apply rows_stay|eauto]. Qed.

Lemma write_rows k p f d d' : (forall a, p a = true -> row_step k a (f a)) -> write_assessment p f d = Ok d' ->
  rows_step k (assessments d) (assessments d').
Proof.
  intros H. unfold write_assessment. destruct (exists_row _ _); [|done]. intros [= <-]. apply rows_step_update. auto.
Qed.

(** One statement of the store, or any write of the other tables; [Confirm]
    records only confirmed receipts, as its callers do. *)
Inductive review_op (d : ReviewDB) : kind -> ReviewDB -> Prop :=
| op_create now fresh c d' r : Create now fresh c d = Ok (d', r) -> review_op d Quiet d'
| op_running org id g i d' : MarkRunning org id g i d = Ok d' -> review_op d Quiet d'
| op_stage org id g i r d' : StageOutcome org id g i r d = Ok d' -> review_op d Quiet d'
| op_reserve org id g i sha d' : ReservePublication org id g i sha d = Ok d' -> review_op d Quiet d'
| op_uncertain org id g i d' : MarkPublicationAttemptUncertain org id g i d = Ok d' -> review_op d Send d'
| op_note org id g i detail d' : NoteUncertainPublication org id g i detail d = Ok d' -> review_op d Quiet d'
| op_restore org id g i detail d' : RestoreRejectedPublication org id g i detail d = Ok d' -> review_op d Reject d'
| op_supersede_unsent now org id g i detail d' : SupersedeUnsentPublication now org id g i detail d = Ok d' -> review_op d Quiet d'
| op_record org id g i receipt rid url d' :
    RecordPublication org id g i CodeReviewPublicationConfirmed receipt rid url d = Ok d' -> review_op d Confirm d'
| op_not_required org id g i d' : MarkPublicationNotRequired org id g i d = Ok d' -> review_op d Quiet d'
| op_complete now org id g i r d' : Complete now org id g i r d = Ok d' -> review_op d Quiet d'
| op_fail now org id g i detail d' : Fail now org id g i detail d = Ok d' -> review_op d Quiet d'
| op_supersede now org id g i detail d' : Supersede now org id g i detail d = Ok d' -> review_op d Quiet d'
| op_pause now org id g i : review_op d Quiet (PauseExpiredPublication now org id g i d).1
| op_pause_batch now : review_op d Quiet (pause_expired_batch now d)
| op_legacy enqueued : review_op d Quiet (note_legacy_attempts enqueued d)
| op_dead_letter now org job tok msg detail : review_op d Quiet (DeadLetterCodeReviewWithLease now org job tok msg detail d).1
| op_terminal now org pr : review_op d Quiet (reconcile_terminal_assessments now org pr d)
| op_force_fresh now org id request : review_op d Quiet (force_fresh_cancel now org id request d)
| op_ended now org id reason : review_op d Quiet (fail_ended_review now org id reason d)
| op_loop now org id : review_op d Quiet (stop_loop now org id d)
| op_fallback org id : review_op d Quiet (MarkFallbackQueued org id d)
| op_refresh org id : review_op d Quiet (MarkEvidenceRefreshQueued org id d)
| op_refresh_failed org id : review_op d Quiet (MarkEvidenceRefreshFailed org id d)
| op_other d' : assessments d' = assessments d -> review_op d Quiet d'.


Lemma insert_rows now c manifest explicit d d' r : insert_capture now c manifest explicit d = Ok (d', r) ->
  check_previous_published c d = Ok tt -> rows_step Quiet (assessments d) (assessments d').
Proof.
  intros H Hprev. unfold insert_capture in H.
  destruct (capture_metadata c d) as [|[m repo] l], (exists_row (capture_conflict c) (assessments d)) eqn:Ec.
  4: { injection H as <- _. apply rows_step_new. split; [done| |].
    - intros b Hb. pose proof (exists_row_none _ _ _ Ec Hb) as Hx. unfold capture_conflict in Hx. apply orb_false_iff in Hx as [H1 H2].
      apply bool_decide_eq_false in H1. split; [done|]. unfold org_key, org_pr, pr_generation, ra_OrgID, ra_PublicationKey, ra_PullRequestID, ra_Generation in *. cbn.
      split; [|split]; [| |intros Ha]; [intros [= E1 E2]|intros [= E1 E2 E3]|intros [= E1 E2]]; rewrite (bool_decide_eq_true_2 _ E1) in H2; cbn [andb] in H2;
        apply orb_false_iff in H2 as [[H0 H2]%orb_false_iff H3].
      + by apply bool_decide_eq_false in H2.
      + by rewrite (bool_decide_eq_true_2 _ E2), E3, Z.eqb_refl in H0.
      + rewrite Ha, andb_true_r in H3. by apply bool_decide_eq_false in H3.
    - cbn. unfold check_previous_published in Hprev. destruct (c_PreviousPublishedAssessmentID c) as [id|] eqn:Ep; [|done]. intros _.
      match type of Hprev with (if ?x then _ else _) = _ => destruct x eqn:Ex end; [|done]. apply exists_row_true in Ex as (b & Hb & Hc). exists b. split; [done|].
      unfold earlier in Hc. reflect_bools. split; [|done]. unfold follows, org_pr, ra_OrgID, ra_PullRequestID in *. cbn. split; congruence. }
  all: destruct (limit 2 _) as [|a [|]]; try done; destruct (assessmentCaptureEqual _ _ _ _); [|done]; injection H as <- _; apply rows_step_refl.
Qed.
Lemma create_rows now fresh c d d' r : Create now fresh c d = Ok (d', r) -> rows_step Quiet (assessments d) (assessments d').
Proof.
  unfold Create. intros H. destruct (validateAssessmentCapture c); [|done].
  destruct (canonicalAssessmentManifest _); [|done]. destruct (check_source _ _ _); [|done]. destruct (check_previous _ _); [|done].
  destruct (check_previous_published _ _) as [[]|] eqn:Ep; [|done]. by eapply insert_rows.
Qed.
Lemma set_rows k p f d : (forall a, In a (assessments d) -> p a = true -> row_step k a (f a)) ->
  rows_step k (assessments d) (assessments (set_assessments p f d)).
Proof. apply rows_step_update. Qed.
Lemma write_metadata_rows p f d d' : write_metadata p f d = Ok d' -> assessments d' = assessments d.
Proof. unfold write_metadata. destruct (exists_row _ _); [|done]. by intros [= <-]. Qed.

Lemma not_started_unsent a : not_started a = true -> unsent a = true.
Proof. unfold unsent. by intros ->. Qed.
Lemma reserved_unsent a : publishing CodeReviewPublicationReserved a = true -> unsent a = true.
Proof. unfold unsent. intros ->. apply orb_true_r. Qed.
Lemma failable_unsent a : not_started a || (publishing CodeReviewPublicationReserved a && no_receipt a) = true -> unsent a = true.
Proof. unfold unsent. destruct (not_started a); [done|]. by intros [-> _]%andb_true_iff. Qed.
#[export] Hint Resolve not_started_unsent reserved_unsent failable_unsent : plane.

Lemma is_null_false {A} (c : option A) : is_null c = false -> c <> None.
Proof. by destruct c. Qed.
#[export] Hint Resolve is_null_false : plane.

(** The facts of a WHERE clause. *)
Ltac where_at a := let Ha := fresh "Ha" in intros Ha; cbn beta in Ha; reflect_bools.
Ltac where_row := let a := fresh "a" in intros a; where_at a.
Ltac close_row := eapply rs_close; [eauto with plane|unfold closed_as; auto].

Lemma end_with_step now m a : unsent a = true -> row_step Quiet a (end_with now m a).
Proof.
  intros Hu.
  assert (exists s t detail sup, closed_as s /\
    end_with now m a = a <| ra_Status := s |> <| ra_FailureDetail := detail |> <| ra_CompletedAt := Some t |> <| ra_SupersededAt := sup |>)
    as (s & t & detail & sup & Hs & ->); [|by constructor].
  unfold end_with, closed_as. destruct (ra_CompletedAt a) as [t|] eqn:E; [exists (match m_Status m with
    | CodeReviewSessionStatusStale => CodeReviewAssessmentSuperseded
    | CodeReviewSessionStatusCancelled => CodeReviewAssessmentCancelled | _ => CodeReviewAssessmentFailed end), t
    |exists (match m_Status m with
    | CodeReviewSessionStatusStale => CodeReviewAssessmentSuperseded
    | CodeReviewSessionStatusCancelled => CodeReviewAssessmentCancelled | _ => CodeReviewAssessmentFailed end), now].
  all: do 2 eexists; split; [destruct (m_Status m); auto|reflexivity].
Qed.

Lemma review_op_rows d k d' : review_op d k d' -> rows_step k (assessments d) (assessments d').
Proof.
  destruct 1 as [? ? ? ? ? H| ? ? ? ? ? H| ? ? ? ? r ? H| ? ? ? ? sha ? H| ? ? ? ? ? H| ? ? ? ? ? ? H| ? ? ? ? ? ? H| ? ? ? ? ? ? ? H
    | ? ? ? ? receipt rid url ? H| ? ? ? ? ? H| ? ? ? ? ? ? ? H| ? ? ? ? ? ? ? H| ? ? ? ? ? ? ? H| | | | | | | | | | | | ? H].
  - by eapply create_rows.
  - eapply write_rows; [|exact H]. where_row. by constructor.
  - unfold StageOutcome in H. destruct (validateAssessmentCompletion r) as [[]|]; [|done].
    destruct (exists_row _ _); [injection H as <-|].
    + apply set_rows. intros a _. where_at a. constructor; [done|]. by destruct (ra_ResultOrigin a).
    + destruct (GetByID _ _ _); [|done]. case_match; [|done]. injection H as <-. apply rows_step_refl.
  - unfold ReservePublication in H. case_bool_decide; [done|]. eapply write_rows; [|exact H]. where_row. subst sha. constructor; eauto with plane.
  - eapply write_rows; [|exact H]. where_row. constructor; eauto with plane.
  - unfold NoteUncertainPublication in H. case_bool_decide; [done|]. eapply write_rows; [|exact H]. where_row. constructor.
  - unfold RestoreRejectedPublication in H. case_bool_decide; [done|]. eapply write_rows; [|exact H]. where_row. by constructor.
  - unfold SupersedeUnsentPublication in H. case_bool_decide; [done|]. eapply write_rows; [|exact H]. where_row. close_row.
  - unfold RecordPublication in H. cbn [bool_decide] in H. destruct rid as [rid|]; [|by repeat case_bool_decide].
    destruct receipt as [| |t]; [by repeat case_bool_decide..|]. cbn in H.
    eapply write_rows; [|exact H]. where_row. destruct (ra_PublicationState a) eqn:Ep; try done. constructor. by apply publishing_spec.
  - eapply write_rows; [|exact H]. where_row. constructor; eauto with plane.
  - unfold Complete in H. destruct (validateAssessmentCompletion _) as [[]|]; [|done]. eapply write_rows; [|exact H]. where_row.
    constructor; [by destruct (ra_Status a); auto|by destruct (ra_PublicationState a); auto].
  - unfold Fail in H. case_bool_decide; [done|]. eapply write_rows; [|exact H]. where_row. close_row.
  - unfold Supersede in H. case_bool_decide; [done|]. eapply write_rows; [|exact H]. where_row. close_row.
  - apply set_rows. intros a _. constructor.
  - apply set_rows. intros a _. constructor.
  - apply set_rows. intros a _. constructor.
  - unfold DeadLetterCodeReviewWithLease. destruct (select _ _); [apply rows_step_refl|]. cbn. apply rows_step_update.
    intros a _. where_at a. close_row.
  - apply set_rows. intros a _. where_at a. destruct (select _ _) as [|m l]; [constructor|]. by apply end_with_step.
  - apply set_rows. intros a _. where_at a. close_row.
  - apply set_rows. intros a _. where_at a. close_row. apply not_started_unsent, not_started_spec. split; auto.
  - apply set_rows. intros a _. where_at a. constructor. unfold closed_as. destruct (ra_Status a); done || auto.
  - apply set_rows. intros a _. constructor.
  - apply set_rows. intros a _. constructor.
  - apply set_rows. intros a _. constructor.
  - rewrite H. apply rows_step_refl.
Qed.

(** ** Properties of a table that its statements keep *)

Record rows_ok (l : list CodeReviewAssessment) : Prop := {
  ro_rows : Forall assessment_ok l;
  ro_ids : List.NoDup (map ra_ID l);
  ro_keys : List.NoDup (map org_key l);
  ro_generations : List.NoDup (map pr_generation l);
  ro_active a b : In a l -> In b l -> active_assessment a = true -> active_assessment b = true -> org_pr a = org_pr b -> ra_ID a = ra_ID b;
  ro_previous : forall a, In a l -> c_PreviousPublishedAssessmentID (ra_Capture a) <> None -> exists b, In b l /\ follows a b /\ published b = true
}.

Lemma kept_captures k l kept : Forall2 (row_step k) l kept -> map ra_Capture kept = map ra_Capture l.
Proof. induction 1 as [|a a' l kept Hs _ IH]; [done|]. cbn. by rewrite (row_step_capture _ _ _ Hs), IH. Qed.

(** A completed assessment is final. *)
Lemma completed_stays k a a' : row_step k a a' -> ra_Status a = CodeReviewAssessmentCompleted ->
  a' = a \/ exists detail, a' = a <| ra_FailureDetail := detail |>.
Proof.
  intros Hs E. destruct Hs as [k a|a H|a r H|a H|a H|a|a d H|a r id u H|a H|a t H|a s d t u H Hs|a d t H]; eauto; exfalso.
  all: try (apply publishing_spec in H as [H _]); try congruence.
  - destruct H; congruence.
  - apply unsent_spec in H. unfold phase_of in H. rewrite E in H. by destruct (ra_PublicationState a), H.
  - rewrite E in H. by destruct H as [?|[?|?]].
Qed.
Lemma completed_final k a a' : row_step k a a' -> ra_Status a = CodeReviewAssessmentCompleted ->
  ra_Status a' = ra_Status a /\ ra_PublicationState a' = ra_PublicationState a /\ ra_GitHubReviewID a' = ra_GitHubReviewID a.
Proof. intros Hs E. by destruct (completed_stays _ _ _ Hs E) as [->|[detail ->]]. Qed.
Lemma published_stays k a a' : row_step k a a' -> published a = true -> published a' = true /\ ra_GitHubReviewID a' = ra_GitHubReviewID a.
Proof.
  unfold published. intros Hs H. pose proof H as [H1%bool_decide_eq_true _]%andb_true_iff.
  destruct (completed_final k a a' Hs H1) as (-> & -> & ->). done.
Qed.
Lemma follows_capture a a' b b' : ra_Capture a' = ra_Capture a -> ra_Capture b' = ra_Capture b -> follows a b -> follows a' b'.
Proof. unfold follows, org_pr, ra_OrgID, ra_PullRequestID, ra_ID. by intros -> ->. Qed.

Lemma kept_from k l kept a' : Forall2 (row_step k) l kept -> In a' kept -> exists a, In a l /\ row_step k a a'.
Proof. induction 1 as [|x y l kept Hs _ IH]; intros Hin; [done|]. destruct Hin as [->|Hin]; [eexists; split; [by left|done]|]. destruct (IH Hin) as (a & ? & ?). exists a. split; [by right|done]. Qed.
Lemma kept_in k l kept a : Forall2 (row_step k) l kept -> In a l -> exists a', In a' kept /\ row_step k a a'.
Proof. induction 1 as [|x y l kept Hs _ IH]; intros Hin; [done|]. destruct Hin as [->|Hin]; [eexists; split; [by left|done]|]. destruct (IH Hin) as (a' & ? & ?). exists a'. split; [by right|done]. Qed.

Lemma active_before k a a' : row_step k a a' -> active_assessment a' = true -> active_assessment a = true.
Proof.
  unfold active_assessment. intros Hs. destruct Hs as [k a|a H|a r H|a H|a H|a|a d H|a r id u H|a H|a t H|a s d t u H Hs|a]; cbn; try done.
  all: try (rewrite H; done).
  all: try (apply publishing_spec in H as [-> _]; done).
  apply unsent_spec in H. unfold phase_of in H. destruct (ra_Status a); try done; by destruct (ra_PublicationState a), H.
Qed.

Lemma in_map_capture {B} (f : CodeReviewAssessmentCapture -> B) k l kept : Forall2 (row_step k) l kept ->
  map (fun a => f (ra_Capture a)) kept = map (fun a => f (ra_Capture a)) l.
Proof. intros HF. rewrite <- !(map_map ra_Capture f). by rewrite (kept_captures _ _ _ HF). Qed.

Lemma kept_ok k l kept : Forall2 (row_step k) l kept -> rows_ok l -> rows_ok kept.
Proof.
  intros HF [Hok Hid Hkey Hgen Hact Hprev]. split.
  - apply List.Forall_forall. intros a' Ha. destruct (kept_from _ _ _ _ HF Ha) as (a & Hin & Hs). rewrite List.Forall_forall in Hok. eauto with plane.
  - exact (eq_ind_r (fun x => List.NoDup x) Hid (in_map_capture c_ID _ _ _ HF)).
  - exact (eq_ind_r (fun x => List.NoDup x) Hkey (in_map_capture (fun c => (c_OrgID c, c_PublicationKey c)) _ _ _ HF)).
  - exact (eq_ind_r (fun x => List.NoDup x) Hgen (in_map_capture (fun c => (c_OrgID c, c_PullRequestID c, c_Generation c)) _ _ _ HF)).
  - intros a' b' Ha Hb Aa Ab. destruct (kept_from _ _ _ _ HF Ha) as (a & Hina & Hsa), (kept_from _ _ _ _ HF Hb) as (b & Hinb & Hsb).
    pose proof (row_step_capture _ _ _ Hsa) as Ea. pose proof (row_step_capture _ _ _ Hsb) as Eb.
    unfold org_pr, ra_ID, ra_OrgID, ra_PullRequestID in *. rewrite Ea, Eb. apply Hact; try done; by eapply active_before.
  - intros a' Ha Hp. destruct (kept_from _ _ _ _ HF Ha) as (a & Hin & Hs). pose proof (row_step_capture _ _ _ Hs) as Ec.
    destruct (Hprev a Hin) as (b & Hb & Hf & Hpub); [by rewrite <- Ec|]. destruct (kept_in _ _ _ _ HF Hb) as (b' & Hb' & Hsb).
    exists b'. split; [done|]. split; [by eapply follows_capture; [exact Ec|by eapply row_step_capture|]|by eapply published_stays].
Qed.

Lemma NoDup_snoc {A B} (f : A -> B) l x : List.NoDup (map f l) -> (forall y, In y l -> f y <> f x) -> List.NoDup (map f (l ++ [x])).
Proof.
  intros Hl Hx. rewrite map_app. apply List.NoDup_app; [done|repeat constructor; auto|].
  intros y (z & <- & Hz)%in_map_iff [E|[]]. by apply (Hx z).
Qed.

Lemma rows_step_ok k l l' : rows_step k l l' -> rows_ok l -> rows_ok l'.
Proof.
  intros (kept & new & -> & HF & Hnew) Hl. pose proof (kept_ok _ _ _ HF Hl) as Kok.
  destruct Hnew as [->|(a & -> & [Hfr Hu Hpa])]; [by rewrite app_nil_r|].
  assert (forall b, In b kept -> ra_ID b <> ra_ID a /\ org_key b <> org_key a /\ pr_generation b <> pr_generation a /\ (active_assessment b = true -> org_pr b <> org_pr a)) as Hku.
  { intros b Hb. destruct (kept_from _ _ _ _ HF Hb) as (b0 & Hin & Hs). pose proof (row_step_capture _ _ _ Hs) as Ec. specialize (Hu b0 Hin).
    unfold org_key, org_pr, pr_generation, ra_ID, ra_OrgID, ra_PublicationKey, ra_PullRequestID, ra_Generation in *. rewrite Ec.
    destruct Hu as (? & ? & ? & H3). do 3 (split; [done|]).
    intros Hact. apply H3. by eapply active_before. }
  clear Hu. destruct Kok as [Hok Hid Hkey Hgen Hact Hprev]. split.
  - apply Forall_app. split; [done|]. apply Forall_singleton. by apply fresh_row_ok.
  - apply NoDup_snoc; [done|]. intros y Hy. by apply Hku.
  - apply NoDup_snoc; [done|]. intros y Hy. by apply Hku.
  - apply NoDup_snoc; [done|]. intros y Hy. by apply Hku.
  - intros x y [Hx|[<-|[]]]%in_app_iff [Hy|[<-|[]]]%in_app_iff Ax Ay E; [by apply Hact| | |done].
    + by apply (Hku x Hx) in Ax.
    + by apply (Hku y Hy) in Ay.
  - intros x [Hx|[<-|[]]]%in_app_iff Hp.
    + destruct (Hprev x Hx Hp) as (b & Hb & ?). exists b. split; [apply in_app_iff; by left|done].
    + destruct (Hpa Hp) as (b & Hb & Hf & Hpub). destruct (kept_in _ _ _ _ HF Hb) as (b' & Hb' & Hs). exists b'.
      split; [apply in_app_iff; by left|]. split; [by eapply follows_capture; [|by eapply row_step_capture|]|by eapply published_stays].
Qed.
