(* ===== verification/ReviewSubmit.v ===== *)
(** * Publishing a review on GitHub

    internal/services/codereview/github_submitter.go (SubmitReview and what it
    calls), assessment_publication.go and publication_rejection.go.

    The pull request at GitHub is a state of the class [GitHub]; a request
    changes it and is answered.  What the code relies on of GitHub are the laws
    of [GitHubLaws].  Between two requests, and during one, other people review
    the same pull request; what they leave alone are the bodies that carry an
    output marker, which only this code writes. *)

From S2P Require Import Prelude GoRuntime GoStrings PrHealth Review ReviewMarkers.
From stdpp Require Import base option list strings gmap.

Open Scope string_scope.
Open Scope Z_scope.

(** ** Requests and replies *)

Record githubReviewListItem := MkReviewItem { ri_CommitID : string; ri_State : string; ri_ID : Z; ri_HTMLURL : string; ri_Body : string }.
#[export] Instance eta_ReviewItem : Eta githubReviewListItem := fun r =>
  MkReviewItem (ri_CommitID r) (ri_State r) (ri_ID r) (ri_HTMLURL r) (ri_Body r).

Record NewComment := MkNewComment { nc_Path : string; nc_Line : Z; nc_Body : string }.

Inductive GHRequest :=
| ListReviews (page : nat)
| ListReviewComments (reviewID : Z)
| ListPullComments (page : nat)
| PostReview (commit body event : string) (comments : list NewComment)
| PutReview (reviewID : Z) (body : string)
| PostComment (commit : string) (comment : NewComment)
| PatchComment (commentID : Z) (body : string).

(** A request that changes the reviews of the pull request. *)
Definition writes_review (r : GHRequest) : bool := match r with PostReview _ _ _ _ | PutReview _ _ => true | _ => false end.

Inductive GHBody :=
| Undecodable | NoBody
| ReviewList (l : list githubReviewListItem) (next : bool)
| CommentList (l : list githubReviewCommentItem) (next : bool)
| ReviewReceipt (id : Z) (url : string)
| CommentReceipt (c : githubReviewCommentItem).
Inductive GHReply := Unreachable | Replied (status : Z) (b : GHBody).

Definition success (status : Z) : bool := (200 <=? status) && (status <? 300).
Definition accepted (r : GHReply) : bool := match r with Replied s _ => success s | Unreachable => false end.
Definition StatusUnprocessableEntity : Z := 422.
Definition refused (r : GHReply) : bool := match r with Replied s _ => s =? StatusUnprocessableEntity | Unreachable => false end.

Class GitHub := {
  GH : Type;
  Reviews : GH -> list githubReviewListItem;
  gh_call : GHRequest -> GH -> GH * GHReply
}.

(** Reviews that other people may have touched: none lost, the marked bodies
    as they were, the new ones unmarked. *)
Definition marked (r : githubReviewListItem) : bool := Contains (ri_Body r) output_prefix.
Definition same_review (r r' : githubReviewListItem) : Prop :=
  ri_ID r' = ri_ID r /\ (ri_Body r' = ri_Body r \/ (marked r = false /\ marked r' = false)).
Definition others (l l' : list githubReviewListItem) : Prop :=
  exists kept new, l' = (kept ++ new)%list /\ Forall2 same_review l kept /\ Forall (fun r => marked r = false) new.

Definition replace_body (id : Z) (body : string) (l : list githubReviewListItem) : list githubReviewListItem :=
  map (fun r => if ri_ID r =? id then r <| ri_Body := body |> else r) l.

Definition per_page : nat := 100.

Class GitHubLaws (G : GitHub) := {
  gh_ids g : List.NoDup (map ri_ID (Reviews g)) /\ Forall (fun r => ri_ID r <> 0) (Reviews g);
  (** Listings and inline comments leave the marked reviews alone. *)
  gh_quiet req g : writes_review req = false -> others (Reviews g) (Reviews (gh_call req g).1);
  (** A page of the chronological listing. *)
  gh_page n g s b : (gh_call (ListReviews n) g).2 = Replied s b -> success s = true ->
    b = Undecodable \/ b = ReviewList (take per_page (drop (n * per_page) (Reviews (gh_call (ListReviews n) g).1)))
                         (bool_decide (S n * per_page < length (Reviews (gh_call (ListReviews n) g).1))%nat);
  (** A review is created at most once, with the body it was posted with; a
      refusal creates none, and a receipt names it. *)
  gh_post commit body event comments g : let '(g', r) := gh_call (PostReview commit body event comments) g in
    (others (Reviews g) (Reviews g') /\ accepted r = false)
    \/ (exists l x, others (Reviews g) l /\ others (l ++ [x]) (Reviews g') /\ ri_Body x = body /\ refused r = false
        /\ forall s id url, r = Replied s (ReviewReceipt id url) -> success s = true -> id = ri_ID x);
  (** An update replaces one body, of a review that exists when it is
      accepted, and the receipt names that review; a refused one nothing. *)
  gh_put id body g : let '(g', r) := gh_call (PutReview id body) g in
    (others (Reviews g) (Reviews g') /\ accepted r = false)
    \/ (exists l, others (Reviews g) l /\ others (replace_body id body l) (Reviews g') /\ refused r = false
        /\ (accepted r = true -> In id (map ri_ID l))
        /\ forall s i url, r = Replied s (ReviewReceipt i url) -> success s = true -> i = id)
}.

(** ** Errors *)

Inductive problem :=
| ErrReviewPublicationRejected | GitHubAPIError (status : Z)
| errFullAssessmentInputsChanged | errFullAssessmentFreshnessInconclusive | ErrAssessmentReuseUnavailable
| ErrInvalidCodeReviewGuidanceFile | AssessmentState | errCodeReviewPublicationPaused | errCodeReviewUnsentInputsChanged
| errCodeReviewPublicationSuperseded | NoRows | Retryable.
#[export] Instance problem_eq_dec : EqDecision problem.
Proof. solve_decision. Defined.
(** The errors that [errors.Is] and [errors.As] find. *)
Definition problems := list problem.
Definition is_problem (e : problems) (x : problem) : bool := existsb (fun y => x ==? y) e.

(** ** The monad *)

Section Submitter.
Context {G : GitHub}.

(** [w_step] counts the answers drawn from the environment, [w_calls] keeps
    the requests that were made. *)
Record World := MkWorld { w_db : ReviewDB; w_gh : GH; w_step : nat; w_calls : list GHRequest }.
#[export] Instance eta_RWorld : Eta World := fun w => MkWorld (w_db w) (w_gh w) (w_step w) (w_calls w).

Definition M (A : Type) : Type := World -> World * (problems + A).
#[export] Instance M_ret : MRet M := fun _ a w => (w, inr a).
#[export] Instance M_bind : MBind M := fun _ _ k m w =>
  let '(w, r) := m w in match r with inl e => (w, inl e) | inr a => k a w end.
Definition throw {A} (e : problems) : M A := fun w => (w, inl e).
(** [f(err)] of an error. *)
Definition on_error {A} (f : problems -> problems) (m : M A) : M A := fun w =>
  let '(w, r) := m w in match r with inl e => (w, inl (f e)) | inr a => (w, inr a) end.

Definition call (req : GHRequest) : M GHReply := fun w =>
  let '(g, r) := gh_call req (w_gh w) in (w <| w_gh := g |> <| w_calls := (w_calls w ++ [req])%list |>, inr r).

(** A reply outside 2xx is a GitHubAPIError with its status. *)
Definition send (req : GHRequest) : M (Z * GHBody) :=
  r ← call req;
  match r with
  | Unreachable => throw []
  | Replied s b => if success s then mret (s, b) else throw [GitHubAPIError s]
  end.

(** ** Listing *)

(** [decodeGitHubJSONResponse] of a page; without a body the target stays
    empty. *)
Definition decode_reviews (b : GHBody) : M (list githubReviewListItem * bool) :=
  match b with ReviewList l next => mret (l, next) | NoBody => mret ([], false) | _ => throw [] end.
Definition decode_comments (b : GHBody) : M (list githubReviewCommentItem * bool) :=
  match b with CommentList l next => mret (l, next) | NoBody => mret ([], false) | _ => throw [] end.

Record SubmitReviewComment := MkSubmitComment { sc_Path : string; sc_Line : Z; sc_Body : string; sc_DedupeKey : string }.
Record SubmitReviewPostedComment := MkPosted { pc_ID : Z; pc_Path : string; pc_Line : Z; pc_Body : string; pc_DedupeKey : string }.
Record SubmitReviewResult := MkSubmitResult {
  sr_SubmittedCommitSHA : string; sr_ReviewState : string; sr_FormalApprovalID : option Z; sr_FormalApprovalURL : option string;
  sr_ID : Z; sr_URL : string; sr_Body : string; sr_Comments : list SubmitReviewPostedComment
}.
#[export] Instance eta_SubmitResult : Eta SubmitReviewResult := fun r =>
  MkSubmitResult (sr_SubmittedCommitSHA r) (sr_ReviewState r) (sr_FormalApprovalID r) (sr_FormalApprovalURL r) (sr_ID r) (sr_URL r)
    (sr_Body r) (sr_Comments r).
Record SubmitReviewRequest := MkSubmitRequest {
  q_RequirePublicationReceipt : bool; q_InstallationID : Z; q_Repository : string; q_PullNumber : Z; q_HeadSHA : string;
  q_OutputKey : string; q_PreviousOutputKey : string; q_ExistingReviewID : Z; q_ExistingReviewURL : string;
  q_Decision : SubmitReviewDecision; q_PreviousDecision : SubmitReviewDecision; q_PreviousDecidedAt : time; q_PreviousBody : string;
  q_Body : string; q_Comments : list SubmitReviewComment
}.

Definition posted_item (c : githubReviewCommentItem) : SubmitReviewPostedComment := MkPosted (ci_ID c) (ci_Path c) (ci_Line c) (ci_Body c) "".

Definition listReviewComments (reviewID : Z) : M (list SubmitReviewPostedComment) :=
  '(_, b) ← send (ListReviewComments reviewID);
  '(l, _) ← decode_comments b;
  mret (map posted_item l).

(** The deadline of the publication lock bounds the number of pages. *)
Definition maxPages : nat := 1000.

Fixpoint find_page (marker : string) (fuel page : nat) : M (option githubReviewListItem) :=
  match fuel with
  | O => throw []
  | S fuel =>
      '(_, b) ← send (ListReviews page);
      '(reviews, next) ← decode_reviews b;
      match List.find (fun r => (ri_ID r <>? 0) && Contains (ri_Body r) marker) reviews with
      | Some review => mret (Some review)
      | None => if next : bool then find_page marker fuel (S page) else mret None
      end
  end.

Definition findExistingReview (outputKey : string) : M (option SubmitReviewResult) :=
  r ← find_page (codeReviewOutputMarker outputKey) maxPages 0;
  match r with
  | None => mret None
  | Some review =>
      comments ← listReviewComments (ri_ID review);
      mret (Some (MkSubmitResult (ri_CommitID review) (ri_State review) None None (ri_ID review) (ri_HTMLURL review) "" comments))
  end.

Fixpoint comment_pages (fuel page : nat) (comments : list githubReviewCommentItem) : M (list githubReviewCommentItem) :=
  match fuel with
  | O => throw []
  | S fuel =>
      '(_, b) ← send (ListPullComments page);
      '(l, next) ← decode_comments b;
      let comments := (comments ++ l)%list in
      if next : bool then comment_pages fuel (S page) comments else mret comments
  end.
Definition listPullRequestReviewComments : M (list githubReviewCommentItem) := comment_pages maxPages 0 [].

Definition updateReviewComment (commentID : Z) (body : string) : M unit := _ ← send (PatchComment commentID body); mret tt.

(** ** Writing *)

Definition reviewPublicationRejection (e : problems) : problems :=
  if is_problem e (GitHubAPIError StatusUnprocessableEntity) then ErrReviewPublicationRejected :: e else e.

Definition updateReviewSummary (reviewID : Z) (body : string) : M SubmitReviewResult :=
  '(_, b) ← send (PutReview reviewID body);
  match b with
  | ReviewReceipt id url => mret (MkSubmitResult "" "" None None (if id =? 0 then reviewID else id) url "" [])
  | NoBody => mret (MkSubmitResult "" "" None None reviewID "" "" [])
  | _ => throw []
  end.

Definition createReviewComment (headSHA : string) (comment : SubmitReviewComment) (body : string) : M SubmitReviewPostedComment :=
  '(_, b) ← send (PostComment headSHA (MkNewComment (sc_Path comment) (sc_Line comment) body));
  match b with
  | CommentReceipt c => mret (MkPosted (ci_ID c) (ci_Path c) (ci_Line c) body (sc_DedupeKey comment))
  | NoBody => mret (MkPosted 0 "" 0 body (sc_DedupeKey comment))
  | _ => throw []
  end.

Definition approval_key (outputKey : string) : string := TrimSpace outputKey +:+ ":formal-approval".

Definition ensureFormalApprovalReceipt (req : SubmitReviewRequest) : M SubmitReviewResult :=
  existing ← (if TrimSpace (q_OutputKey req) ==? "" then mret None else findExistingReview (approval_key (q_OutputKey req)));
  match existing with
  | Some existing =>
      if q_RequirePublicationReceipt req
         && ((sr_ID existing =? 0) || negb (EqualFold (sr_SubmittedCommitSHA existing) (q_HeadSHA req)) || negb (EqualFold (sr_ReviewState existing) "APPROVED"))
      then throw [] else mret existing
  | None =>
      '(_, b) ← send (PostReview (q_HeadSHA req) (withCodeReviewOutputMarker "" (approval_key (q_OutputKey req)))
                        (githubReviewEvent SubmitReviewDecisionApproved) []);
      if negb (q_RequirePublicationReceipt req) then mret (MkSubmitResult "" "" None None 0 "" "" [])
      else match b with
           | ReviewReceipt id url => if id =? 0 then throw [] else mret (MkSubmitResult "" "" None None id url "" [])
           | _ => throw []
           end
  end.

(** A comment that the loops skip. *)
Definition blank_comment (c : SubmitReviewComment) : bool := (TrimSpace (sc_Path c) ==? "") || (sc_Line c <=? 0) || (TrimSpace (sc_Body c) ==? "").

Fixpoint find_by_key (existing : gmap string githubReviewCommentItem) (dedupeKey : string) (outputKeys : list string) : option githubReviewCommentItem :=
  match outputKeys with
  | [] => None
  | k :: ks =>
      let candidateKey := codeReviewFindingMarkerKey k dedupeKey in
      if TrimSpace candidateKey ==? "" then find_by_key existing dedupeKey ks
      else match existing !! codeReviewMarkerDigest candidateKey with
           | Some c => Some c
           | None => find_by_key existing dedupeKey ks
           end
  end.

Section Existing.
Context (req : SubmitReviewRequest) (existingByMarker : gmap string githubReviewCommentItem).

(** One inline comment of an updated review. *)
Definition post_or_update (comment : SubmitReviewComment) : M SubmitReviewPostedComment :=
  let body := withCodeReviewFindingMarker (sc_Body comment) (codeReviewFindingMarkerKey "" (sc_DedupeKey comment)) in
  match find_by_key existingByMarker (sc_DedupeKey comment) [q_OutputKey req; q_PreviousOutputKey req; ""] with
  | Some existing =>
      _ ← (if TrimSpace (ci_Body existing) ==? TrimSpace body then mret tt else updateReviewComment (ci_ID existing) body);
      mret (MkPosted (ci_ID existing) (ci_Path existing) (ci_Line existing) body (sc_DedupeKey comment))
  | None => createReviewComment (q_HeadSHA req) comment body
  end.
Fixpoint post_comments (comments : list SubmitReviewComment) (posted : list SubmitReviewPostedComment) : M (list SubmitReviewPostedComment) :=
  match comments with
  | [] => mret posted
  | c :: comments =>
      if blank_comment c then post_comments comments posted
      else p ← post_or_update c; post_comments comments (posted ++ [p])%list
  end.

(** The inline comments of a new review: the ones to post with it, and the
    ones that an earlier attempt left. *)
Fixpoint new_comments (comments : list SubmitReviewComment) (payload : list NewComment) (known : list SubmitReviewPostedComment) (keys : gmap string string)
    : M (list NewComment * list SubmitReviewPostedComment * gmap string string) :=
  match comments with
  | [] => mret (payload, known, keys)
  | c :: comments =>
      if blank_comment c then new_comments comments payload known keys
      else
        let markerKey := codeReviewFindingMarkerKey (q_OutputKey req) (sc_DedupeKey c) in
        let keyed := TrimSpace (sc_DedupeKey c) <>? "" in
        let keys := if keyed then <[codeReviewMarkerDigest markerKey := sc_DedupeKey c]> keys else keys in
        let body := withCodeReviewFindingMarker (sc_Body c) markerKey in
        match (if keyed then existingByMarker !! codeReviewMarkerDigest markerKey else None) with
        | Some existing =>
            _ ← (if TrimSpace (ci_Body existing) ==? TrimSpace body then mret tt else updateReviewComment (ci_ID existing) body);
            new_comments comments payload (known ++ [MkPosted (ci_ID existing) (ci_Path existing) (ci_Line existing) body (sc_DedupeKey c)])%list keys
        | None => new_comments comments (payload ++ [MkNewComment (sc_Path c) (sc_Line c) body])%list known keys
        end
  end.
End Existing.

Definition annotate (keys : gmap string string) (c : SubmitReviewPostedComment) : SubmitReviewPostedComment :=
  let marker := extractCodeReviewFindingMarker (pc_Body c) in
  if marker ==? "" then c
  else match keys !! marker with
       | Some key => if key ==? "" then c else MkPosted (pc_ID c) (pc_Path c) (pc_Line c) (pc_Body c) key
       | None => c
       end.
Definition annotatePostedCommentsWithDedupeKeys (comments : list SubmitReviewPostedComment) (keys : gmap string string) : list SubmitReviewPostedComment :=
  map (annotate keys) comments.
Definition submitReviewHasCommentDedupeKeys (comments : list SubmitReviewComment) : bool :=
  existsb (fun c => TrimSpace (sc_DedupeKey c) <>? "") comments.

(** The inline comments and the summary of an update. *)
Definition summary_update (req : SubmitReviewRequest) (reviewBody : string) : M SubmitReviewResult :=
  comments ← listPullRequestReviewComments;
  posted ← post_comments req (codeReviewCommentsByMarker comments) (q_Comments req) [];
  result ← updateReviewSummary (q_ExistingReviewID req) reviewBody;
  mret (result <| sr_Comments := posted |>).

Definition updateExistingReview (req : SubmitReviewRequest) (reviewBody : string) : M SubmitReviewResult :=
  result ← on_error reviewPublicationRejection (summary_update req reviewBody);
  result ← (match q_Decision req with
            | SubmitReviewDecisionApproved =>
                approval ← ensureFormalApprovalReceipt req;
                mret (if 0 <? sr_ID approval
                      then result <| sr_FormalApprovalID := Some (sr_ID approval) |> <| sr_FormalApprovalURL := Some (sr_URL approval) |>
                      else result)
            | _ => mret result
            end);
  mret (if TrimSpace (sr_URL result) ==? "" then result <| sr_URL := TrimSpace (q_ExistingReviewURL req) |> else result).

(** The inline comments that precede the creation. *)
Definition prepare_comments (req : SubmitReviewRequest) : M (list NewComment * list SubmitReviewPostedComment * gmap string string) :=
  existingByMarker ← (if submitReviewHasCommentDedupeKeys (q_Comments req)
                      then comments ← listPullRequestReviewComments; mret (codeReviewCommentsByMarker comments)
                      else mret ∅);
  new_comments req existingByMarker (q_Comments req) [] [] ∅.

Definition is_approved (req : SubmitReviewRequest) : bool := q_Decision req ==? SubmitReviewDecisionApproved.

(** The receipt of a created review. *)
Definition created_result (req : SubmitReviewRequest) (visible : string) (known : list SubmitReviewPostedComment) (keys : gmap string string) (b : GHBody)
    : M SubmitReviewResult :=
  '(id, url) ← (match b with ReviewReceipt id url => mret (id, url) | NoBody => mret (0, "") | _ => throw [] end);
  if q_RequirePublicationReceipt req && (id =? 0) then throw []
  else
    let result := MkSubmitResult "" "" None None id url visible known in
    let result := if q_RequirePublicationReceipt req && is_approved req
                  then result <| sr_FormalApprovalID := Some id |> <| sr_FormalApprovalURL := Some url |>
                              <| sr_SubmittedCommitSHA := q_HeadSHA req |> <| sr_ReviewState := "APPROVED" |>
                  else result in
    match q_Comments req with
    | _ :: _ =>
        if id =? 0 then mret result
        else
          comments ← listReviewComments id;
          mret (result <| sr_Comments := (sr_Comments result ++ annotatePostedCommentsWithDedupeKeys comments keys)%list |>)
    | [] => mret result
    end.

(** A new review, unless an earlier attempt created it. *)
Definition createReview (req : SubmitReviewRequest) (visible : string) : M SubmitReviewResult :=
  found ← findExistingReview (q_OutputKey req);
  match found with
  | Some existing =>
      if q_RequirePublicationReceipt req
         && ((sr_ID existing =? 0) || negb (EqualFold (sr_SubmittedCommitSHA existing) (q_HeadSHA req))
             || (is_approved req && negb (EqualFold (sr_ReviewState existing) "APPROVED")))
      then throw []
      else
        let existing := if q_RequirePublicationReceipt req && is_approved req
                        then existing <| sr_FormalApprovalID := Some (sr_ID existing) |> <| sr_FormalApprovalURL := Some (sr_URL existing) |>
                        else existing in
        mret (existing <| sr_Body := visible |>)
  | None =>
      '(comments, known, keys) ← prepare_comments req;
      '(_, b) ← on_error reviewPublicationRejection
        (send (PostReview (q_HeadSHA req) (withCodeReviewOutputMarker visible (q_OutputKey req)) (githubReviewEvent (q_Decision req)) comments));
      created_result req visible known keys b
  end.

(** Text of the review history, its links and its times: withCodeReviewHistory. *)
Context (withCodeReviewHistory : string -> string -> SubmitReviewDecision -> time -> string).
(** What GetInstallationToken answers. *)
Context (token : nat -> bool).
Definition GetInstallationToken : M unit := fun w =>
  (w <| w_step := S (w_step w) |>, if token (w_step w) then inr tt else inl []).

Definition valid_repository (repository : string) : bool :=
  match Cut repository "/" with Some (owner, repo) => negb (owner ==? "") && negb (repo ==? "") | None => false end.

(** The text a request publishes. *)
Definition visible_body (req : SubmitReviewRequest) : string :=
  if 0 <? q_ExistingReviewID req
  then withCodeReviewHistory (TrimSpace (q_Body req)) (q_PreviousBody req) (q_PreviousDecision req) (q_PreviousDecidedAt req)
  else TrimSpace (q_Body req).

Definition SubmitReview (req : SubmitReviewRequest) : M SubmitReviewResult :=
  if negb (valid_repository (q_Repository req)) || (q_PullNumber req <=? 0) || (q_InstallationID req <=? 0)
     || (TrimSpace (q_HeadSHA req) ==? "") || (TrimSpace (q_OutputKey req) ==? "") || negb (validate_decision (q_Decision req))
  then throw []
  else
    _ ← GetInstallationToken;
    if 0 <? q_ExistingReviewID req
    then result ← updateExistingReview req (withCodeReviewOutputMarker (visible_body req) (q_OutputKey req));
         mret (result <| sr_Body := visible_body req |>)
    else createReview req (visible_body req).

(** Read-only: what an earlier attempt published. *)
Definition ReconcileAssessmentPublication (req : SubmitReviewRequest) : M (option SubmitReviewResult) :=
  if (q_InstallationID req <=? 0) || (q_PullNumber req <=? 0) || (q_OutputKey req ==? "") || (q_HeadSHA req ==? "") || negb (valid_repository (q_Repository req))
  then throw []
  else
    _ ← GetInstallationToken;
    found ← findExistingReview (q_OutputKey req);
    match found with
    | None => mret None
    | Some result =>
        let confirms r := (sr_SubmittedCommitSHA r ==? q_HeadSHA req) && (sr_ReviewState r ==? "APPROVED") in
        match q_Decision req with
        | SubmitReviewDecisionApproved =>
            if q_ExistingReviewID req =? 0
            then if confirms result
                 then mret (Some (result <| sr_FormalApprovalID := Some (sr_ID result) |> <| sr_FormalApprovalURL := Some (sr_URL result) |>
                                         <| sr_Body := q_Body req |>))
                 else mret None
            else
              approval ← findExistingReview (q_OutputKey req +:+ ":formal-approval");
              match approval with
              | None => mret None
              | Some approval =>
                  if confirms approval
                  then mret (Some (result <| sr_FormalApprovalID := Some (sr_ID approval) |> <| sr_FormalApprovalURL := Some (sr_URL approval) |>
                                          <| sr_Body := q_Body req |>))
                  else mret None
              end
        | _ => mret (Some (result <| sr_Body := q_Body req |>))
        end
    end.

End Submitter.
