(* ===== verification/ReviewSubmitSpec.v ===== *)
(** * What a submission does to the reviews of a pull request

    The reviews that carry the marker of a publication key, before and after
    each program of [ReviewSubmit]. *)

From S2P Require Import Prelude GoRuntime GoStrings PrHealth Review ReviewMarkers ReviewSubmit.
From stdpp Require Import base option list strings gmap.
From Stdlib Require Import Ascii.

Open Scope string_scope.
Open Scope Z_scope.

(** ** Reviews that carry a marker *)

Definition carries (k : string) (r : githubReviewListItem) : bool := Contains (ri_Body r) (codeReviewOutputMarker k).
Definition carriers (k : string) (l : list githubReviewListItem) : list Z := map ri_ID (List.filter (carries k) l).

Lemma carriers_app k l1 l2 : carriers k (l1 ++ l2) = (carriers k l1 ++ carriers k l2)%list.
Proof. unfold carriers. by rewrite List.filter_app, map_app. Qed.
Lemma marked_false_carries k r : marked r = false -> carries k r = false.
Proof. intros H. by apply unmarked_no_marker. Qed.
Lemma carriers_unmarked k l : Forall (fun r => marked r = false) l -> carriers k l = [].
Proof. unfold carriers. induction 1 as [|r l Hr _ IH]; [done|]. cbn. by rewrite marked_false_carries. Qed.
Lemma carriers_in k l id : In id (carriers k l) <-> exists r, In r l /\ carries k r = true /\ ri_ID r = id.
Proof.
  unfold carriers. rewrite in_map_iff. split.
  - intros (r & <- & [Hr Hc]%List.filter_In). eauto.
  - intros (r & Hr & Hc & <-). exists r. split; [done|]. by apply List.filter_In.
Qed.
Lemma carriers_nil k l : (forall r, In r l -> carries k r = false) -> carriers k l = [].
Proof.
  intros H. destruct (carriers k l) as [|id ids] eqn:E; [done|]. assert (In id (carriers k l)) as (r & Hr & Hc & _)%carriers_in by (rewrite E; by left).
  rewrite (H r Hr) in Hc. done.
Qed.
Lemma carriers_none k l r : carriers k l = [] -> In r l -> carries k r = false.
Proof.
  intros H Hr. destruct (carries k r) eqn:E; [|done]. assert (In (ri_ID r) (carriers k l)) as Hin by (apply carriers_in; eauto).
  by rewrite H in Hin.
Qed.
Lemma carriers_nodup k l : List.NoDup (map ri_ID l) -> List.NoDup (carriers k l).
Proof. apply NoDup_map_filter. Qed.

(** ** Other people *)

Lemma same_review_refl r : same_review r r.
Proof. split; auto. Qed.
Lemma same_review_trans a b c : same_review a b -> same_review b c -> same_review a c.
Proof.
  unfold same_review, marked. intros [I1 B1] [I2 B2]. split; [congruence|].
  destruct B1 as [B1|[B1 B1']], B2 as [B2|[B2 B2']]; rewrite ?B1, ?B2 in *; auto.
Qed.
Lemma same_review_carries k r r' : same_review r r' -> carries k r' = carries k r.
Proof.
  intros [_ [H|[H1 H2]]]; [by unfold carries; rewrite H|]. by rewrite !marked_false_carries.
Qed.
Lemma same_review_marked r r' : same_review r r' -> marked r = false -> marked r' = false.
Proof. intros [_ [H|[_ H]]]; [unfold marked; by rewrite H|done]. Qed.

Lemma others_refl l : others l l.
Proof. exists l, []. rewrite app_nil_r. split; [done|]. split; [|done]. apply Forall2_same_length_lookup_2; [done|].
  intros i x y Hx Hy. rewrite Hx in Hy. simplify_eq. apply same_review_refl. Qed.
Lemma others_trans l1 l2 l3 : others l1 l2 -> others l2 l3 -> others l1 l3.
Proof.
  intros (k1 & n1 & -> & F1 & U1) (k2 & n2 & -> & F2 & U2).
  apply Forall2_app_inv_l in F2 as (k2a & k2b & Fa & Fb & ->).
  exists k2a, (k2b ++ n2)%list. rewrite app_assoc. split; [done|]. split.
  - clear -F1 Fa. revert k2a Fa. induction F1; intros k2a Fa; inv Fa; constructor; [by eapply same_review_trans|auto].
  - apply Forall_app. split; [|done]. clear -Fb U1. induction Fb; inv U1; constructor; [by eapply same_review_marked|auto].
Qed.
Lemma others_carriers k l l' : others l l' -> carriers k l' = carriers k l.
Proof.
  intros (kept & new & -> & F & U). rewrite carriers_app, (carriers_unmarked k new U), app_nil_r. clear U.
  unfold carriers. induction F as [|r r' l kept Hs _ IH]; [done|]. cbn. rewrite (same_review_carries k r r' Hs).
  destruct (carries k r); cbn; [|done]. destruct Hs as [-> _]. by rewrite IH.
Qed.
Lemma others_prefix n l l' : others l l' -> (n <= length l)%nat -> Forall2 same_review (take n l) (take n l').
Proof.
  intros (kept & new & -> & F & _) Hn. pose proof (Forall2_length _ _ _ F). rewrite take_app_le by lia. by apply Forall2_take.
Qed.

Lemma carriers_replace k id body l : (forall b, Contains body (codeReviewOutputMarker k) = b -> b = false) ->
  incl (carriers k (replace_body id body l)) (carriers k l).
Proof.
  intros H x (r & Hr & Hc & <-)%carriers_in. unfold replace_body in Hr. apply in_map_iff in Hr as (r0 & <- & Hr0).
  destruct (ri_ID r0 =? id); [|apply carriers_in; eauto]. unfold carries in Hc. cbn in Hc. by apply H in Hc.
Qed.
Lemma carriers_replace_own k id body l : incl (carriers k (replace_body id body l)) (id :: carriers k l).
Proof.
  intros x (r & Hr & Hc & <-)%carriers_in. unfold replace_body in Hr. apply in_map_iff in Hr as (r0 & <- & Hr0).
  destruct (ri_ID r0 =? id) eqn:E; [left; by apply Z.eqb_eq in E|right; apply carriers_in; eauto].
Qed.

Lemma carriers_replaced k id body l : Contains body (codeReviewOutputMarker k) = true -> In id (map ri_ID l) -> In id (carriers k (replace_body id body l)).
Proof.
  intros Hb (r & <- & Hr)%in_map_iff. apply carriers_in. exists (r <| ri_Body := body |>). split; [|done].
  unfold replace_body. apply in_map_iff. exists r. by rewrite Z.eqb_refl.
Qed.

Section Spec.
Context {G : GitHub} {L : GitHubLaws G}.

Definition own (k : string) (w : World) : list Z := carriers k (Reviews (w_gh w)).
Definition same_others (w w' : World) : Prop := others (Reviews (w_gh w)) (Reviews (w_gh w')).
(** No request of the run changed a review. *)
Definition new_calls (w w' : World) (l : list GHRequest) : Prop := w_calls w' = (w_calls w ++ l)%list.

(** ** Programs that only read and comment *)

Record reads (w w' : World) : Prop := {
  rd_db : w_db w' = w_db w;
  rd_gh : same_others w w';
  rd_calls : exists l, new_calls w w' l /\ forallb (fun r => negb (writes_review r)) l = true
}.
Definition reading {A} (m : M A) : Prop := forall w, reads w (m w).1.

Lemma reads_refl w : reads w w.
Proof. split; [done|apply others_refl|]. exists []. split; [by unfold new_calls; rewrite app_nil_r|done]. Qed.
Lemma reads_trans w1 w2 w3 : reads w1 w2 -> reads w2 w3 -> reads w1 w3.
Proof.
  intros [D1 O1 (l1 & C1 & F1)] [D2 O2 (l2 & C2 & F2)]. split; [congruence|by eapply others_trans|].
  exists (l1 ++ l2)%list. split; [unfold new_calls in *; by rewrite C2, C1, app_assoc|by rewrite forallb_app, F1, F2].
Qed.
Lemma reads_own k w w' : reads w w' -> own k w' = own k w.
Proof. intros [_ H _]. by apply others_carriers. Qed.

Lemma reading_ret {A} (a : A) : reading (mret a).
Proof. intros w. apply reads_refl. Qed.
Lemma reading_throw {A} e : reading (throw (A:=A) e).
Proof. intros w. apply reads_refl. Qed.
Lemma reading_bind {A B} (m : M A) (k : A -> M B) : reading m -> (forall a, reading (k a)) -> reading (m ≫= k).
Proof.
  intros Hm Hk w. specialize (Hm w). unfold mbind, M_bind. destruct (m w) as [w1 [e|a]]; [done|].
  eapply reads_trans; [exact Hm|apply Hk].
Qed.
Lemma reading_on_error {A} f (m : M A) : reading m -> reading (on_error f m).
Proof. intros Hm w. specialize (Hm w). unfold on_error. by destruct (m w) as [w1 [e|a]]. Qed.
Lemma reading_call req : writes_review req = false -> reading (call req).
Proof.
  intros Hr w. pose proof (gh_quiet req (w_gh w) Hr) as H. unfold call. destruct (gh_call req (w_gh w)) as [g r].
  split; [done|exact H|]. exists [req]. split; [done|]. cbn. by rewrite Hr.
Qed.
Lemma reading_send req : writes_review req = false -> reading (send req).
Proof.
  intros Hr. apply reading_bind; [by apply reading_call|]. intros [|s b]; [apply reading_throw|].
  destruct (success s); [apply reading_ret|apply reading_throw].
Qed.

Ltac reading :=
  repeat first
    [ apply reading_ret | apply reading_throw | apply reading_on_error | (apply reading_send; done)
    | apply reading_bind; [|intros ?]
    | progress case_match | assumption ].

Lemma reading_decode_reviews b : reading (decode_reviews b).
Proof. unfold decode_reviews. reading. Qed.
Lemma reading_decode_comments b : reading (decode_comments b).
Proof. unfold decode_comments. reading. Qed.
Lemma reading_listReviewComments id : reading (listReviewComments id).
Proof. unfold listReviewComments. reading. apply reading_decode_comments. Qed.
Lemma reading_find_page m fuel page : reading (find_page m fuel page).
Proof.
  revert page. induction fuel as [|fuel IH]; intros page; cbn [find_page]; [apply reading_throw|].
  apply reading_bind; [by apply reading_send|]. intros [s b]. apply reading_bind; [apply reading_decode_reviews|]. intros [l next].
  destruct (List.find _ l); [apply reading_ret|]. destruct next; [apply IH|apply reading_ret].
Qed.
Lemma reading_findExistingReview k : reading (findExistingReview k).
Proof.
  unfold findExistingReview. apply reading_bind; [apply reading_find_page|]. intros [r|]; [|apply reading_ret].
  apply reading_bind; [apply reading_listReviewComments|]. intros. apply reading_ret.
Qed.
Lemma reading_listPullRequestReviewComments : reading listPullRequestReviewComments.
Proof.
  unfold listPullRequestReviewComments. generalize 0%nat, (@nil githubReviewCommentItem).
  induction maxPages as [|fuel IH]; intros page l; cbn [comment_pages]; [apply reading_throw|].
  apply reading_bind; [by apply reading_send|]. intros [s b]. apply reading_bind; [apply reading_decode_comments|]. intros [l' next].
  destruct next; [apply IH|apply reading_ret].
Qed.
Lemma reading_updateReviewComment id body : reading (updateReviewComment id body).
Proof. unfold updateReviewComment. reading. Qed.
Lemma reading_createReviewComment sha c body : reading (createReviewComment sha c body).
Proof. unfold createReviewComment. reading. Qed.
Lemma reading_post_comments req m cs posted : reading (post_comments req m cs posted).
Proof.
  revert posted. induction cs as [|c cs IH]; intros posted; cbn [post_comments]; [apply reading_ret|].
  destruct (blank_comment c); [apply IH|]. apply reading_bind; [|intros; apply IH]. unfold post_or_update.
  destruct (find_by_key _ _ _); [|apply reading_createReviewComment].
  apply reading_bind; [|intros; apply reading_ret]. case_match; [apply reading_ret|apply reading_updateReviewComment].
Qed.
Lemma reading_new_comments req m cs p kn ks : reading (new_comments req m cs p kn ks).
Proof.
  revert p kn ks. induction cs as [|c cs IH]; intros p kn ks; cbn [new_comments]; [apply reading_ret|].
  destruct (blank_comment c); [apply IH|]. destruct (if TrimSpace (sc_DedupeKey c) <>? "" then _ else None) as [e|]; [|apply IH].
  apply reading_bind; [|intros; apply IH]. destruct (bool_decide _); [apply reading_ret|apply reading_updateReviewComment].
Qed.
Lemma reading_token t : reading (GetInstallationToken t).
Proof. intros w. unfold GetInstallationToken. destruct (t _); split; cbn; try done; try apply others_refl;
  exists []; (split; [by unfold new_calls; cbn; rewrite app_nil_r|done]). Qed.

(** ** The listing misses nothing *)

Lemma page_reply n w w' s b : send (ListReviews n) w = (w', inr (s, b)) ->
  reads w w' /\ (b = Undecodable \/ b = ReviewList (take per_page (drop (n * per_page) (Reviews (w_gh w'))))
                                 (bool_decide (S n * per_page < length (Reviews (w_gh w')))%nat)).
Proof.
  intros H. pose proof (reading_send (ListReviews n) eq_refl w) as Hr. rewrite H in Hr. split; [done|].
  unfold send, mbind, M_bind, call in H. pose proof (gh_page n (w_gh w)) as Hp.
  destruct (gh_call (ListReviews n) (w_gh w)) as [g [|s' b']]; [done|]. destruct (success s') eqn:Es; [|done].
  injection H as <- -> ->. by apply (Hp s b).
Qed.

Lemma find_none_carries k l : Forall (fun r => ri_ID r <> 0) l ->
  List.find (fun r => (ri_ID r <>? 0) && Contains (ri_Body r) (codeReviewOutputMarker k)) l = None -> forall r, In r l -> carries k r = false.
Proof.
  intros Hid Hf r Hr. pose proof (find_none _ _ Hf r Hr) as H. cbn in H. rewrite List.Forall_forall in Hid.
  by rewrite bool_decide_eq_false_2 in H by by apply Hid.
Qed.

Lemma find_page_none k fuel page w w' :
  (forall r, In r (take (page * per_page) (Reviews (w_gh w))) -> carries k r = false) ->
  (page * per_page <= length (Reviews (w_gh w)))%nat ->
  find_page (codeReviewOutputMarker k) fuel page w = (w', inr None) -> own k w' = [].
Proof.
  revert page w. induction fuel as [|fuel IH]; intros page w Hpre Hlen H; [done|]. cbn [find_page] in H.
  unfold mbind, M_bind in H. destruct (send (ListReviews page) w) as [w1 [e|[s b]]] eqn:Es; [done|].
  apply page_reply in Es as [Hrd [->| ->]]; [done|]. cbn [decode_reviews mret M_ret] in H.
  destruct (List.find _ _) eqn:Ef; [done|].
  set (l1 := Reviews (w_gh w1)) in *.
  assert (forall r, In r (take (page * per_page) l1) -> carries k r = false) as Hpre1.
  { pose proof (others_prefix (page * per_page) _ _ (rd_gh _ _ Hrd) Hlen) as F. fold l1 in F.
    clear -F Hpre. revert Hpre. induction F as [|x y l l' Hs _ IHF]; intros Hpre r Hr; [done|]. destruct Hr as [<-|Hr].
    - rewrite (same_review_carries k _ _ Hs). apply Hpre. by left.
    - apply IHF; [|done]. intros z Hz. apply Hpre. by right. }
  assert (forall r, In r (take (S page * per_page) l1) -> carries k r = false) as Hpre2.
  { intros r Hr. replace (S page * per_page)%nat with (page * per_page + per_page)%nat in Hr by lia.
    rewrite <- take_take_drop in Hr. apply in_app_iff in Hr as [Hr|Hr]; [by apply Hpre1|].
    eapply find_none_carries; [|exact Ef|exact Hr]. apply Forall_take, Forall_drop, gh_ids. }
  case_bool_decide as Hn.
  - by eapply (IH (S page) w1); [exact Hpre2|fold l1; lia|].
  - injection H as <-. apply carriers_nil. intros r Hr. apply Hpre2. rewrite take_ge by lia. done.
Qed.

Lemma findExistingReview_none k w w' : findExistingReview k w = (w', inr None) -> own k w' = [].
Proof.
  unfold findExistingReview, mbind, M_bind. destruct (find_page _ _ _ w) as [w1 [e|[r|]]] eqn:E; [done| |].
  - destruct (listReviewComments _ w1) as [w2 [e|c]]; done.
  - intros [= <-]. by eapply find_page_none; [..|exact E]; [intros r Hr; rewrite take_0 in Hr|lia].
Qed.

(** ** The two writes *)

(** The body of a review published under [key]. *)
Definition body_of (key body : string) : Prop :=
  Contains body (codeReviewOutputMarker key) = true
  /\ forall k, Contains body (codeReviewOutputMarker k) = true -> codeReviewMarkerDigest k = codeReviewMarkerDigest key.

Lemma body_of_marked visible key : TrimSpace key <> "" -> unmarked (TrimSpace visible) -> body_of key (withCodeReviewOutputMarker visible key).
Proof.
  intros Hk Hv. split; [by apply marked_body_own|]. intros k H. symmetry. by eapply marked_body_only.
Qed.

(** Every error of a request is an API status or a lost reply. *)
Definition plain (e : problems) : Prop := e = [] \/ exists s, e = [GitHubAPIError s].
Lemma plain_no_reject e : plain e -> is_problem e ErrReviewPublicationRejected = false.
Proof. by intros [->|[s ->]]. Qed.

Lemma send_spec req w w' r : send req w = (w', r) ->
  w_db w' = w_db w /\ w_gh w' = (gh_call req (w_gh w)).1 /\ new_calls w w' [req]
  /\ match r with
     | inl e => plain e /\ accepted (gh_call req (w_gh w)).2 = false
                /\ (is_problem e (GitHubAPIError StatusUnprocessableEntity) = true -> refused (gh_call req (w_gh w)).2 = true)
     | inr (s, b) => (gh_call req (w_gh w)).2 = Replied s b /\ success s = true
     end.
Proof.
  unfold send, mbind, M_bind, call. destruct (gh_call req (w_gh w)) as [g [|s b]].
  - intros [= <- <-]. cbn. split; [done|]. split; [done|]. split; [done|]. split; [by left|]. done.
  - destruct (success s) eqn:Es; intros [= <- <-]; cbn; (split; [done|]); (split; [done|]); (split; [done|]); [done|].
    split; [right; eauto|]. rewrite Es. split; [done|]. unfold is_problem, refused. cbn. rewrite orb_false_r, bool_decide_eq_true.
    intros [= <-]. done.
Qed.

Lemma post_spec commit body event cs key w w' r : body_of key body -> send (PostReview commit body event cs) w = (w', r) ->
  w_db w' = w_db w
  /\ (forall k, codeReviewMarkerDigest k <> codeReviewMarkerDigest key -> own k w' = own k w)
  /\ (own key w' = own key w \/ exists id, own key w' = (own key w ++ [id])%list)
  /\ match r with
     | inl e => plain e /\ (is_problem e (GitHubAPIError StatusUnprocessableEntity) = true -> own key w' = own key w)
     | inr (s, b) => forall id url, b = ReviewReceipt id url -> In id (own key w')
     end.
Proof.
  intros [Hown Honly] H. apply send_spec in H as (Hdb & Hg & _ & Hr). split; [done|].
  pose proof (gh_post commit body event cs (w_gh w)) as Hp. unfold own. rewrite Hg.
  destruct (gh_call (PostReview commit body event cs) (w_gh w)) as [g rep]. cbn [fst snd] in *.
  destruct Hp as [[Ho Ha]|(l & x & Ho & Hx & Hb & Href & Hrec)].
  - split; [intros k _; by apply others_carriers|]. split; [left; by apply others_carriers|].
    destruct r as [e|[s b]]; [split; [apply Hr|intros _; by apply others_carriers]|]. destruct Hr as [-> Hs]. cbn in Ha. congruence.
  - assert (carries key x = true) as Hcx by (unfold carries; by rewrite Hb).
    assert (carriers key (Reviews g) = (carriers key (Reviews (w_gh w)) ++ [ri_ID x])%list) as Hkey.
    { rewrite (others_carriers key _ _ Hx), carriers_app, (others_carriers key _ _ Ho). unfold carriers at 2. cbn. by rewrite Hcx. }
    split; [|split; [right; eauto|]].
    + intros k Hk. rewrite (others_carriers k _ _ Hx), carriers_app, (others_carriers k _ _ Ho). unfold carriers at 2. cbn.
      destruct (carries k x) eqn:Ec; [|by rewrite app_nil_r]. unfold carries in Ec. rewrite Hb in Ec. by apply Honly in Ec.
    + destruct r as [e|[s b]].
      * destruct Hr as (Hpl & _ & Hrej). split; [done|]. intros He. apply Hrej in He. congruence.
      * destruct Hr as [-> Hs]. intros id url ->. rewrite Hkey. apply in_app_iff. right. left. symmetry. by eapply Hrec.
Qed.

Lemma put_spec n body key w w' r : body_of key body -> send (PutReview n body) w = (w', r) ->
  w_db w' = w_db w
  /\ (forall k, codeReviewMarkerDigest k <> codeReviewMarkerDigest key -> incl (own k w') (own k w))
  /\ incl (own key w') (n :: own key w)
  /\ match r with
     | inl e => plain e /\ (is_problem e (GitHubAPIError StatusUnprocessableEntity) = true -> forall k, own k w' = own k w)
     | inr (_, b) => In n (own key w') /\ forall id url, b = ReviewReceipt id url -> id = n
     end.
Proof.
  intros [Hown Honly] H. apply send_spec in H as (Hdb & Hg & _ & Hr). split; [done|].
  pose proof (gh_put n body (w_gh w)) as Hp. unfold own. rewrite Hg.
  destruct (gh_call (PutReview n body) (w_gh w)) as [g rep]. cbn [fst snd] in *.
  destruct Hp as [[Ho Ha]|(l & Ho & Hx & Href & Hin & Hrec)].
  - assert (forall k, carriers k (Reviews g) = carriers k (Reviews (w_gh w))) as E by (intros k; by apply others_carriers).
    split; [intros k _; rewrite E; apply incl_refl|]. split; [rewrite E; apply incl_tl, incl_refl|].
    destruct r as [e|[s b]]; [split; [apply Hr|auto]|]. destruct Hr as [-> Hs]. cbn in Ha. congruence.
  - split; [|split].
    + intros k Hk. rewrite (others_carriers k _ _ Hx), <- (others_carriers k _ _ Ho). apply carriers_replace.
      intros [] Hc; [|done]. by apply Honly in Hc.
    + rewrite (others_carriers key _ _ Hx), <- (others_carriers key _ _ Ho). apply carriers_replace_own.
    + destruct r as [e|[s b]]; [destruct Hr as (Hpl & _ & Hrej); split; [done|]; intros He; apply Hrej in He; congruence|].
      destruct Hr as [-> Hs]. split; [|intros id url ->; by eapply Hrec].
      rewrite (others_carriers key _ _ Hx). apply carriers_replaced; auto.
Qed.

(** ** Submissions *)

Lemma approval_key_nonempty k : TrimSpace (approval_key k) <> "".
Proof.
  intros H%TrimSpace_empty. unfold approval_key in H. rewrite List.Forall_forall in H.
  assert (is_space ":"%char = true) as Hc; [|done]. apply H. clear H.
  induction (TrimSpace k) as [|x t IH]; [by left|]. by right.
Qed.

Lemma incl_length_le (l l' : list Z) : List.NoDup l -> incl l l' -> (length l <= length l')%nat.
Proof. intros. by apply List.NoDup_incl_length. Qed.
Lemma own_nodup k w : List.NoDup (own k w).
Proof. apply carriers_nodup, gh_ids. Qed.

Record submitted (req : SubmitReviewRequest) (w w' : World) (e : option problems) : Prop := {
  sb_db : w_db w' = w_db w;
  sb_other : forall k, codeReviewMarkerDigest k <> codeReviewMarkerDigest (q_OutputKey req) ->
    codeReviewMarkerDigest k <> codeReviewMarkerDigest (approval_key (q_OutputKey req)) -> incl (own k w') (own k w);
  sb_create : (0 <? q_ExistingReviewID req) = false -> (length (own (q_OutputKey req) w) <= 1)%nat -> (length (own (q_OutputKey req) w') <= 1)%nat;
  sb_update : (0 <? q_ExistingReviewID req) = true -> incl (own (q_OutputKey req) w) [q_ExistingReviewID req] ->
    incl (own (q_OutputKey req) w') [q_ExistingReviewID req];
  sb_approval : (length (own (approval_key (q_OutputKey req)) w) <= 1)%nat -> (length (own (approval_key (q_OutputKey req)) w') <= 1)%nat;
  sb_rejected : match e with Some e => is_problem e ErrReviewPublicationRejected = true -> forall k, incl (own k w') (own k w) | None => True end
}.
Definition error_of {A} (r : problems + A) : option problems := match r with inl e => Some e | inr _ => None end.

Lemma reads_submitted req w w' e : reads w w' -> submitted req w w' e.
Proof.
  intros H. pose proof (fun k => reads_own k _ _ H) as E. split; [apply H|..].
  - intros k _ _. rewrite E. apply incl_refl.
  - intros _. by rewrite E.
  - intros _. by rewrite E.
  - by rewrite E.
  - destruct e; [|done]. intros _ k. rewrite E. apply incl_refl.
Qed.
Lemma reads_submitted_r req w1 w2 w3 e e' : submitted req w1 w2 e -> reads w2 w3 -> (e' = None \/ e' = e) -> submitted req w1 w3 e'.
Proof.
  intros [D O C U A R] H He. pose proof (fun k => reads_own k _ _ H) as E. split; [by rewrite (rd_db _ _ H)|..].
  - intros k H1 H2. rewrite E. by apply O.
  - by rewrite E.
  - by rewrite E.
  - by rewrite E.
  - destruct He as [->| ->]; [done|]. destruct e; [|done]. intros H' k. rewrite E. by apply R.
Qed.
Lemma reads_submitted_plain req w1 w2 w3 e : submitted req w1 w2 None -> reads w2 w3 -> plain e -> submitted req w1 w3 (Some e).
Proof.
  intros S H He. destruct (reads_submitted_r req w1 w2 w3 None None S H (or_introl eq_refl)) as [D O C U A _]. split; try done.
  by rewrite (plain_no_reject e He).
Qed.
Lemma reads_submitted_l req w1 w2 w3 e : reads w1 w2 -> submitted req w2 w3 e -> submitted req w1 w3 e.
Proof.
  intros H [D O C U A R]. pose proof (fun k => reads_own k _ _ H) as E. split; [rewrite D; apply H|..].
  - intros k H1 H2. rewrite <- E. by apply O.
  - by rewrite <- E.
  - by rewrite <- E.
  - by rewrite <- E.
  - destruct e; [|done]. intros H' k. rewrite <- E. by apply R.
Qed.

(** The errors of the programs that list. *)
Definition mild {A} (m : M A) : Prop := forall w, match (m w).2 with inl e => plain e | inr _ => True end.
Lemma mild_ret {A} (a : A) : mild (mret a).
Proof. done. Qed.
Lemma mild_throw {A} : mild (throw (A:=A) []).
Proof. intros w. by left. Qed.
Lemma mild_bind {A B} (m : M A) (k : A -> M B) : mild m -> (forall a, mild (k a)) -> mild (m ≫= k).
Proof. intros Hm Hk w. specialize (Hm w). unfold mbind, M_bind. destruct (m w) as [w1 [e|a]]; [done|]. apply Hk. Qed.
Lemma mild_send req : mild (send req).
Proof. intros w. destruct (send req w) as [w' r] eqn:E. apply send_spec in E as (_ & _ & _ & H). destruct r as [e|]; [apply H|done]. Qed.
Lemma mild_findExistingReview k : mild (findExistingReview k).
Proof.
  unfold findExistingReview. apply mild_bind.
  - generalize 0%nat. induction maxPages as [|fuel IH]; intros page; cbn [find_page]; [apply mild_throw|].
    apply mild_bind; [apply mild_send|]. intros [s b]. apply mild_bind; [destruct b; by constructor|]. intros [l next].
    destruct (List.find _ l); [done|]. destruct next; [apply IH|done].
  - intros [r|]; [|done]. apply mild_bind; [|done]. unfold listReviewComments. apply mild_bind; [apply mild_send|]. intros [s b].
    apply mild_bind; [destruct b; by constructor|]. intros [l next]. done.
Qed.

Lemma approval_spec req w w' r : ensureFormalApprovalReceipt req w = (w', r) -> TrimSpace (q_OutputKey req) <> "" ->
  w_db w' = w_db w
  /\ (forall k, codeReviewMarkerDigest k <> codeReviewMarkerDigest (approval_key (q_OutputKey req)) -> own k w' = own k w)
  /\ ((length (own (approval_key (q_OutputKey req)) w) <= 1)%nat -> (length (own (approval_key (q_OutputKey req)) w') <= 1)%nat)
  /\ (forall e, r = inl e -> plain e).
Proof.
  intros H Hk. unfold ensureFormalApprovalReceipt in H. rewrite bool_decide_eq_false_2 in H by done.
  unfold mbind, M_bind in H. pose proof (reading_findExistingReview (approval_key (q_OutputKey req)) w) as Hr.
  pose proof (mild_findExistingReview (approval_key (q_OutputKey req)) w) as Hm.
  destruct (findExistingReview (approval_key (q_OutputKey req)) w) as [w1 [e|[x|]]] eqn:Ef; cbn [fst snd] in *.
  1, 2: assert (reads w w' /\ forall e, r = inl e -> plain e) as [Hw He].
  1: { injection H as <- <-. split; [done|]. by intros ? [= <-]. }
  2: { destruct (q_RequirePublicationReceipt req && _); injection H as <- <-; (split; [done|]); [|done]. intros ? [= <-]. by left. }
  1, 2: pose proof (fun k => reads_own k _ _ Hw) as E; split; [apply Hw|]; split; [auto|]; split; [by rewrite E|done].
  pose proof (fun k => reads_own k _ _ Hr) as E. apply findExistingReview_none in Ef.
  destruct (send _ w1) as [w2 [e|[s b]]] eqn:Es;
    (eapply post_spec in Es as (Hdb & Ho & Hown & Hx); [|apply body_of_marked; [apply approval_key_nonempty|done]]).
  all: assert (w' = w2 /\ forall e, r = inl e -> plain e) as [-> Hpl].
  1: { injection H as <- <-. split; [done|]. intros ? [= <-]. apply Hx. }
  2: { destruct (negb _); [by injection H as <- <-|]. destruct b; try (injection H as <- <-; split; [done|]; intros ? [= <-]; by left).
       destruct (id =? 0); injection H as <- <-; (split; [done|]); [|done]. intros ? [= <-]. by left. }
  all: split; [rewrite Hdb; apply Hr|]; split; [intros k Hd; rewrite Ho by done; apply E|]; split; [|done];
    intros _; rewrite Ef in Hown; destruct Hown as [-> | [id ->]]; cbn; lia.
Qed.

Lemma rejection_of e : is_problem e ErrReviewPublicationRejected = false ->
  is_problem (reviewPublicationRejection e) ErrReviewPublicationRejected = is_problem e (GitHubAPIError StatusUnprocessableEntity).
Proof. unfold reviewPublicationRejection. intros H. destruct (is_problem e (GitHubAPIError _)); [done|exact H]. Qed.

Lemma summary_update_split req body w w' r : summary_update req body w = (w', r) ->
  exists w1, reads w w1 /\ ((w' = w1 /\ exists e, r = inl e)
    \/ exists r', send (PutReview (q_ExistingReviewID req) body) w1 = (w', r')
        /\ match r' with inl e => r = inl e | inr _ => forall e, r = inl e -> e = [] end).
Proof.
  unfold summary_update, updateReviewSummary, mbind, M_bind. pose proof (reading_listPullRequestReviewComments w) as H1.
  destruct (listPullRequestReviewComments w) as [w1 [e|cs]]; cbn [fst] in H1; [intros [= <- <-]; exists w1; eauto|].
  pose proof (reading_post_comments req (codeReviewCommentsByMarker cs) (q_Comments req) [] w1) as H2.
  destruct (post_comments req _ _ [] w1) as [w2 [e|posted]]; cbn [fst] in H2; pose proof (reads_trans _ _ _ H1 H2) as H12;
    [intros [= <- <-]; exists w2; eauto|].
  destruct (send (PutReview _ body) w2) as [w3 r'] eqn:Es. intros H. exists w2. split; [done|]. right. exists r'.
  destruct r' as [e|[s b]]; [by injection H as <- <-|]. destruct b; injection H as <- <-; (split; [done|]); by intros ? [= <-].
Qed.

Lemma summary_update_spec req body w w' r : body_of (q_OutputKey req) body -> summary_update req body w = (w', r) ->
  w_db w' = w_db w
  /\ (forall k, codeReviewMarkerDigest k <> codeReviewMarkerDigest (q_OutputKey req) -> incl (own k w') (own k w))
  /\ incl (own (q_OutputKey req) w') (q_ExistingReviewID req :: own (q_OutputKey req) w)
  /\ forall e, r = inl e -> is_problem e (GitHubAPIError StatusUnprocessableEntity) = true -> forall k, own k w' = own k w.
Proof.
  intros Hb (w1 & Hr & H)%summary_update_split. pose proof (fun k => reads_own k _ _ Hr) as E. destruct H as [[-> _]|(r' & Hs & Hr')].
  - split; [apply Hr|]. split; [intros k _; rewrite E; apply incl_refl|]. split; [rewrite E; apply incl_tl, incl_refl|auto].
  - eapply put_spec in Hs as (Hd & Ho & Hown & Hrej); [|exact Hb]. split; [rewrite Hd; apply Hr|].
    split; [intros k Hk; rewrite <- E; by apply Ho|]. split; [by rewrite <- E|].
    intros e -> He k. destruct r' as [e'|]; [injection Hr' as ->; rewrite <- E; by apply Hrej|]. by rewrite (Hr' e eq_refl) in He.
Qed.

(** The errors of listing and commenting name no rejection themselves. *)
Lemma mild_summary_update req body : mild (summary_update req body).
Proof.
  unfold summary_update. apply mild_bind.
  { unfold listPullRequestReviewComments. generalize 0%nat, (@nil githubReviewCommentItem).
    induction maxPages as [|fuel IH]; intros page l; cbn [comment_pages]; [apply mild_throw|].
    apply mild_bind; [apply mild_send|]. intros [s b]. apply mild_bind; [destruct b; by constructor|]. intros [l' []]; [apply IH|done]. }
  intros cs. apply mild_bind.
  { generalize (codeReviewCommentsByMarker cs), (@nil SubmitReviewPostedComment). intros m. induction (q_Comments req) as [|c l IH]; intros posted; [done|].
    cbn [post_comments]. destruct (blank_comment c); [apply IH|]. apply mild_bind; [|intros; apply IH]. unfold post_or_update.
    destruct (find_by_key _ _ _).
    - apply mild_bind; [|done]. destruct (bool_decide _); [done|]. apply mild_bind; [apply mild_send|done].
    - apply mild_bind; [apply mild_send|]. intros [s b]. destruct b; by constructor. }
  intros posted. apply mild_bind; [|done]. apply mild_bind; [apply mild_send|]. intros [s b]. destruct b; by constructor.
Qed.

Lemma updateExistingReview_spec req body w w' r :
  body_of (q_OutputKey req) body -> TrimSpace (q_OutputKey req) <> "" ->
  codeReviewMarkerDigest (approval_key (q_OutputKey req)) <> codeReviewMarkerDigest (q_OutputKey req) ->
  (0 <? q_ExistingReviewID req) = true -> updateExistingReview req body w = (w', r) -> submitted req w w' (error_of r).
Proof.
  intros Hb Hk Hsep Hn H. unfold updateExistingReview in H.
  unfold mbind, M_bind, on_error in H. pose proof (mild_summary_update req body w) as Hm.
  destruct (summary_update req body w) as [w1 r1] eqn:E1. apply summary_update_spec in E1 as (D1 & O1 & U1 & R1); [|done].
  destruct r1 as [e|res].
  { injection H as <- <-. split; [done|intros k ? _; by apply O1|by rewrite Hn| | |].
    - intros _ Hi x Hx. apply U1 in Hx as [<-|Hx]; [by left|by apply Hi].
    - intros Hl. etransitivity; [apply incl_length_le; [apply own_nodup|by apply O1]|done].
    - cbn. rewrite rejection_of by by apply plain_no_reject. intros He k. rewrite (R1 e eq_refl He). apply incl_refl. }
  assert (submitted req w w1 None) as S1.
  { split; [done|intros k ? _; by apply O1|by rewrite Hn| | |done].
    - intros _ Hi x Hx. apply U1 in Hx as [<-|Hx]; [by left|by apply Hi].
    - intros Hl. etransitivity; [apply incl_length_le; [apply own_nodup|by apply O1]|done]. }
  assert (match q_Decision req with
     | SubmitReviewDecisionApproved => exists ra, ensureFormalApprovalReceipt req w1 = (w', ra) /\ match ra with inl e => r = inl e | inr _ => error_of r = None end
     | _ => w' = w1 /\ error_of r = None end) as Hc.
  { destruct (q_Decision req); try by injection H as <- <-.
    destruct (ensureFormalApprovalReceipt req w1) as [w2 [e|a]] eqn:Ea; injection H as <- <-;
      (eexists; split; [reflexivity|done]). }
  destruct (q_Decision req); try by destruct Hc as [-> ->].
  destruct Hc as (ra & Ha & Hr). apply approval_spec in Ha as (D2 & O2 & L2 & P2); [|done]. destruct S1 as [_ SO _ SU SA _].
  split; [by rewrite D2| |by rewrite Hn| | |].
  - intros k H1 H2. rewrite O2 by done. by apply SO.
  - rewrite O2 by done. done.
  - auto.
  - destruct ra as [e|]; [subst r; cbn|by rewrite Hr]. intros He. rewrite (plain_no_reject e) in He by by apply P2. done.
Qed.

(** What follows the request that creates a review. *)
Lemma post_submitted req visible cs w w' r : own (q_OutputKey req) w = [] -> TrimSpace (q_OutputKey req) <> "" -> unmarked (TrimSpace visible) ->
  codeReviewMarkerDigest (approval_key (q_OutputKey req)) <> codeReviewMarkerDigest (q_OutputKey req) -> (0 <? q_ExistingReviewID req) = false ->
  on_error reviewPublicationRejection
    (send (PostReview (q_HeadSHA req) (withCodeReviewOutputMarker visible (q_OutputKey req)) (githubReviewEvent (q_Decision req)) cs)) w = (w', r) ->
  submitted req w w' (error_of r) /\ (forall s id url, r = inr (s, ReviewReceipt id url) -> In id (own (q_OutputKey req) w')).
Proof.
  intros Hnone Hk Hv Hsep Hn H. unfold on_error in H.
  destruct (send _ w) as [w1 r1] eqn:Es. eapply post_spec in Es as (D & O & Hown & Hr); [|by apply body_of_marked].
  assert (w1 = w' /\ match r1 with inl e => r = inl (reviewPublicationRejection e) | inr a => r = inr a end) as [-> Hrr]
    by (destruct r1; by injection H as <- <-).
  rewrite Hnone in Hown. split.
  - split; [done|intros k ? _; rewrite O by done; apply incl_refl| |by rewrite Hn|by rewrite O|].
    + intros _ _. destruct Hown as [-> | [id ->]]; cbn; lia.
    + destruct r1 as [e|]; [|by subst r]. destruct Hr as [Hpl Hrej]. subst r. cbn. rewrite rejection_of by by apply plain_no_reject.
      intros He k. destruct (decide (codeReviewMarkerDigest k = codeReviewMarkerDigest (q_OutputKey req))) as [E|E]; [|rewrite O by done; apply incl_refl].
      unfold own, carriers, carries, codeReviewOutputMarker. rewrite E.
      change (incl (own (q_OutputKey req) w') (own (q_OutputKey req) w)). rewrite (Hrej He). apply incl_refl.
  - intros s id url ->. destruct r1 as [e|[s' b]]; [done|]. injection Hrr as <- <-. by eapply Hr.
Qed.

Lemma reading_prepare_comments req : reading (prepare_comments req).
Proof.
  unfold prepare_comments. apply reading_bind; [|intros; apply reading_new_comments].
  destruct (submitReviewHasCommentDedupeKeys _); [|apply reading_ret].
  apply reading_bind; [apply reading_listPullRequestReviewComments|intros; apply reading_ret].
Qed.

Lemma created_result_spec req visible known keys b : reading (created_result req visible known keys b) /\ mild (created_result req visible known keys b)
  /\ forall w w' r, created_result req visible known keys b w = (w', inr r) -> q_RequirePublicationReceipt req = true ->
      exists url, b = ReviewReceipt (sr_ID r) url.
Proof.
  unfold created_result. split; [|split].
  - apply reading_bind; [destruct b; by (apply reading_ret || apply reading_throw)|]. intros [id url]. destruct (_ && _); [apply reading_throw|].
    destruct (q_Comments req); [apply reading_ret|]. destruct (id =? 0); [apply reading_ret|].
    apply reading_bind; [apply reading_listReviewComments|intros; apply reading_ret].
  - apply mild_bind; [destruct b; by constructor|]. intros [id url]. destruct (_ && _); [apply mild_throw|].
    destruct (q_Comments req); [done|]. destruct (id =? 0); [done|].
    apply mild_bind; [|done]. unfold listReviewComments. apply mild_bind; [apply mild_send|]. intros [s' b'].
    apply mild_bind; [destruct b'; by constructor|]. intros [l' next]. done.
  - intros w w' r H Hreq. unfold mbind, M_bind in H. destruct b as [| | | |id url|]; try done.
    + cbn in H. by rewrite Hreq in H.
    + cbn in H. rewrite Hreq in H. cbn in H. destruct (id =? 0); [done|]. exists url.
      destruct (q_Comments req); [|destruct (listReviewComments id w) as [w1 [e|cs]]; [done|]]; injection H as <- <-; by destruct (is_approved req).
Qed.

Lemma createReview_spec req visible w w' r : TrimSpace (q_OutputKey req) <> "" -> unmarked (TrimSpace visible) ->
  codeReviewMarkerDigest (approval_key (q_OutputKey req)) <> codeReviewMarkerDigest (q_OutputKey req) -> (0 <? q_ExistingReviewID req) = false ->
  createReview req visible w = (w', r) -> submitted req w w' (error_of r).
Proof.
  intros Hk Hv Hsep Hn H. unfold createReview, mbind, M_bind in H. pose proof (reading_findExistingReview (q_OutputKey req) w) as H1.
  destruct (findExistingReview (q_OutputKey req) w) as [w1 [e|[x|]]] eqn:E1; cbn [fst] in H1.
  { injection H as <- <-. by apply reads_submitted. }
  { destruct (_ && _); injection H as <- <-; by apply reads_submitted. }
  apply findExistingReview_none in E1.
  pose proof (reading_prepare_comments req w1) as H2. destruct (prepare_comments req w1) as [w2 [e|[[cs known] keys]]]; cbn [fst] in H2;
    pose proof (reads_trans _ _ _ H1 H2) as H12; [injection H as <- <-; by apply reads_submitted|].
  rewrite <- (reads_own _ _ _ H2) in E1. apply (reads_submitted_l req _ w2); [done|].
  destruct (on_error _ _ w2) as [w3 r3] eqn:E3. apply post_submitted in E3 as [S _]; try done.
  destruct r3 as [e|[s b]]; [by injection H as <- <-|].
  destruct (created_result_spec req visible known keys b) as (Hr & Hm & _). specialize (Hr w3). specialize (Hm w3).
  rewrite H in Hr, Hm. cbn [fst snd] in Hr, Hm. destruct r as [e|]; [by eapply reads_submitted_plain|].
  eapply reads_submitted_r; [exact S|exact Hr|by left].
Qed.

(** ** Receipts name the review *)

Lemma find_page_some k fuel page w w' r : find_page (codeReviewOutputMarker k) fuel page w = (w', inr (Some r)) -> In (ri_ID r) (own k w').
Proof.
  revert page w. induction fuel as [|fuel IH]; intros page w H; [done|]. cbn [find_page] in H. unfold mbind, M_bind in H.
  destruct (send (ListReviews page) w) as [w1 [e|[s b]]] eqn:Es; [done|]. apply page_reply in Es as [_ [->| ->]]; [done|].
  cbn [decode_reviews mret M_ret] in H. destruct (List.find _ _) as [x|] eqn:Ef.
  - injection H as <- <-. apply find_some in Ef as [Hin [_ Hc]%andb_true_iff]. apply carriers_in. exists x. split; [|done].
    rewrite <- (take_drop (page * per_page) (Reviews (w_gh w1))), <- (take_drop per_page (drop _ _)). apply in_app_iff. right. apply in_app_iff. by left.
  - destruct (bool_decide _); [by eapply IH|done].
Qed.
Lemma findExistingReview_some k w w' r : findExistingReview k w = (w', inr (Some r)) -> In (sr_ID r) (own k w').
Proof.
  unfold findExistingReview, mbind, M_bind. destruct (find_page _ _ _ w) as [w1 [e|[x|]]] eqn:E; [done| |done].
  apply find_page_some in E. pose proof (reading_listReviewComments (ri_ID x) w1) as Hr.
  destruct (listReviewComments _ w1) as [w2 [e|c]]; [done|]. intros [= <- <-]. by rewrite (reads_own _ _ _ Hr).
Qed.
Lemma updateReviewSummary_receipt n body key w w' r : body_of key body -> updateReviewSummary n body w = (w', inr r) ->
  sr_ID r = n /\ In n (own key w').
Proof.
  intros Hb. unfold updateReviewSummary, mbind, M_bind. destruct (send _ w) as [w1 [e|[s b]]] eqn:Es; [done|].
  eapply put_spec in Es as (_ & _ & _ & Hin & Hid); [|done]. destruct b as [| | | |id url|]; try done; intros [= <- <-]; (split; [|done]); [done|].
  cbn. destruct (id =? 0); [done|]. by eapply Hid.
Qed.
Lemma summary_update_receipt req body w w' r : body_of (q_OutputKey req) body -> summary_update req body w = (w', inr r) ->
  sr_ID r = q_ExistingReviewID req /\ In (sr_ID r) (own (q_OutputKey req) w').
Proof.
  intros Hb. unfold summary_update, mbind, M_bind. destruct (listPullRequestReviewComments w) as [w1 [e|cs]]; [done|].
  destruct (post_comments req _ _ [] w1) as [w2 [e|posted]]; [done|]. destruct (updateReviewSummary _ body w2) as [w3 [e|x]] eqn:Eu; [done|].
  intros [= <- <-]. eapply updateReviewSummary_receipt in Eu as [-> ?]; [|done]. done.
Qed.
Lemma updateExistingReview_receipt req body w w' r : body_of (q_OutputKey req) body -> TrimSpace (q_OutputKey req) <> "" ->
  codeReviewMarkerDigest (approval_key (q_OutputKey req)) <> codeReviewMarkerDigest (q_OutputKey req) ->
  updateExistingReview req body w = (w', inr r) -> In (sr_ID r) (own (q_OutputKey req) w').
Proof.
  intros Hb Hk Hsep. unfold updateExistingReview, mbind, M_bind, on_error. destruct (summary_update req body w) as [w1 [e|x]] eqn:E1; [done|].
  apply summary_update_receipt in E1 as [_ Hin]; [|done].
  assert (forall y w2 v, In (sr_ID x) (own (q_OutputKey req) w2) -> sr_ID y = sr_ID x ->
    (w2, inr (A := problems) (if TrimSpace (sr_URL y) ==? "" then y <| sr_URL := v |> else y)) = (w', inr r) -> In (sr_ID r) (own (q_OutputKey req) w')) as Hend.
  { intros y w2 v H2 Ey [= <- <-]. case_match; cbn; by rewrite Ey. }
  destruct (q_Decision req); try (intros H; by eapply Hend in H).
  destruct (ensureFormalApprovalReceipt req w1) as [w2 [e|a]] eqn:Ea; [done|]. apply approval_spec in Ea as (_ & O & _); [|done].
  cbn [mret M_ret]. intros H. eapply Hend in H; [done|by rewrite O|by destruct (0 <? sr_ID a)].
Qed.
Lemma createReview_receipt req visible w w' r : q_RequirePublicationReceipt req = true -> TrimSpace (q_OutputKey req) <> "" -> unmarked (TrimSpace visible) ->
  createReview req visible w = (w', inr r) -> In (sr_ID r) (own (q_OutputKey req) w').
Proof.
  intros Hreq Hk Hv. unfold createReview, mbind, M_bind. destruct (findExistingReview (q_OutputKey req) w) as [w1 [e|[x|]]] eqn:E1; [done| |].
  - apply findExistingReview_some in E1. destruct (_ && _); [done|]. intros [= <- <-]. by case_match.
  - destruct (prepare_comments req w1) as [w2 [e|[[cs known] keys]]]; [done|]. unfold on_error.
    destruct (send _ w2) as [w3 [e|[s b]]] eqn:Es; [done|]. eapply post_spec in Es as (_ & _ & _ & Hid); [|by apply body_of_marked].
    intros H. destruct (created_result_spec req visible known keys b) as (Hr & _ & Hb). specialize (Hr w3). rewrite H in Hr. cbn [fst] in Hr.
    destruct (Hb _ _ _ H Hreq) as [url ->]. rewrite (reads_own _ _ _ Hr). by eapply Hid.
Qed.

Section Published.
Context (history : string -> string -> SubmitReviewDecision -> time -> string) (token : nat -> bool).

(** What the theorems ask of a request: its text carries no marker of its own,
    and its approval has a digest of its own. *)
Definition plain_request (req : SubmitReviewRequest) : Prop :=
  unmarked (TrimSpace (visible_body history req))
  /\ codeReviewMarkerDigest (approval_key (q_OutputKey req)) <> codeReviewMarkerDigest (q_OutputKey req).

Lemma SubmitReview_spec req w w' r : plain_request req -> SubmitReview history token req w = (w', r) -> submitted req w w' (error_of r).
Proof.
  intros [Hv Hsep] H. unfold SubmitReview in H. destruct (_ || _) eqn:Eg.
  { injection H as <- <-. apply reads_submitted, reads_refl. }
  assert (TrimSpace (q_OutputKey req) <> "") as Hk by (intros E; rewrite E in Eg; by rewrite orb_true_r in Eg).
  unfold mbind, M_bind in H. pose proof (reading_token token w) as H1. destruct (GetInstallationToken token w) as [w1 [e|[]]]; cbn [fst] in H1.
  { injection H as <- <-. by apply reads_submitted. }
  apply (reads_submitted_l req _ w1); [done|]. destruct (0 <? q_ExistingReviewID req) eqn:Hn; [|by eapply createReview_spec].
  destruct (updateExistingReview _ _ w1) as [w2 r2] eqn:E2. apply updateExistingReview_spec in E2; try done; [|by apply body_of_marked].
  destruct r2; by injection H as <- <-.
Qed.

Lemma SubmitReview_receipt req w w' r : plain_request req -> q_RequirePublicationReceipt req = true ->
  SubmitReview history token req w = (w', inr r) -> In (sr_ID r) (own (q_OutputKey req) w').
Proof.
  intros [Hv Hsep] Hreq H. unfold SubmitReview in H. destruct (_ || _) eqn:Eg; [done|].
  assert (TrimSpace (q_OutputKey req) <> "") as Hk by (intros E; rewrite E in Eg; by rewrite orb_true_r in Eg).
  unfold mbind, M_bind in H. destruct (GetInstallationToken token w) as [w1 [e|[]]]; [done|].
  destruct (0 <? q_ExistingReviewID req); [|by eapply createReview_receipt].
  destruct (updateExistingReview _ _ w1) as [w2 [e|x]] eqn:E2; [done|]. apply updateExistingReview_receipt in E2; [|by apply body_of_marked|done..].
  by injection H as <- <-.
Qed.

Lemma reading_Reconcile req : reading (ReconcileAssessmentPublication token req).
Proof.
  unfold ReconcileAssessmentPublication. destruct (_ || _); [apply reading_throw|]. apply reading_bind; [apply reading_token|]. intros _.
  apply reading_bind; [apply reading_findExistingReview|]. intros [r|]; [|apply reading_ret].
  destruct (q_Decision req); try apply reading_ret. destruct (q_ExistingReviewID req =? 0); [destruct (_ && _); apply reading_ret|].
  apply reading_bind; [apply reading_findExistingReview|]. intros [a|]; [|apply reading_ret]. destruct (_ && _); apply reading_ret.
Qed.
End Published.

End Spec.
