(* ===== verification/ReviewPublish.v ===== *)
(** * The worker's publication of an assessment

    internal/worker/code_review_assessment.go (submitFullReviewWithAssessment,
    supersedeUnsentFullPublication), code_review_handler.go
    (submitCodeReviewToGitHubWithOptions), code_review_publication_recovery.go
    (reconcileRejectedCodeReviewPublication), code_review_recheck_handler.go
    (publishCodeReviewRecheck), db/code_reviews.go (RunWithGitHubPublicationLock)
    and db/code_review_assessment_events.go (LockAssessmentPublicationJob).

    A run is a sequence of statements and requests.  Before every statement the
    other processes write; a statement may fail, or take effect although its
    reply is lost.  A worker that dies is one whose remaining statements and
    requests all fail.  What the input capture, the approval rules and the
    scheduler answer is given by the number of the step. *)

From S2P Require Import Prelude GoRuntime GoStrings Sql Tables JobStore Automation PrHealth Review ReviewMarkers ReviewStore ReviewSubmit.
From stdpp Require Import base option list strings gmap.

Open Scope string_scope.
Open Scope Z_scope.

Inductive fate := Done | Failed | Lost.

Record PubEnv := MkPubEnv {
  p_others : nat -> ReviewDB -> ReviewDB;
  p_fate : nat -> fate;
  p_now : nat -> time;
  p_uuid : nat -> uuid;
  p_token : nat -> bool;
  (** captureFreshFullAssessment *)
  p_fresh : nat -> problems + unit;
  (** verifyFullAssessmentApproval *)
  p_approval : nat -> problems + unit;
  (** CaptureAssessmentInputs of a recheck: the digest of the inputs now *)
  p_capture : nat -> problems + string;
  (** ListFindings, the diff and codeReviewInlineComments *)
  p_comments : nat -> problems + list SubmitReviewComment;
  (** FallbackAssessmentToFull and RefreshUnsentEvidenceAssessment *)
  p_replace : nat -> problems + unit;
  (** withCodeReviewHistory *)
  p_history : string -> string -> SubmitReviewDecision -> time -> string;
  (** [err.Error()] *)
  p_error : problems -> string;
  (** services.CodeReviews is set, and can reconcile and update status comments *)
  p_publisher : bool;
  p_reconciler : bool;
  p_updater : bool
}.

(** The columns of runCodeReviewPayload that publication reads, and the lease
    in the context of the job. *)
Record ReviewJob := MkReviewJob {
  rj_OrgID : uuid; rj_RepositoryID : uuid; rj_PullRequestID : uuid; rj_SessionID : uuid; rj_HeadSHA : string; rj_OutputKey : string;
  rj_PreviousOutputKey : string; rj_ExistingGitHubReviewID : option Z; rj_ExistingGitHubReviewURL : option string;
  rj_PreviousReviewBody : option string; rj_PreviousReviewDecision : option CodeReviewDecision; rj_PreviousReviewDecidedAt : option time
}.
#[export] Instance eta_ReviewJob : Eta ReviewJob := fun j =>
  MkReviewJob (rj_OrgID j) (rj_RepositoryID j) (rj_PullRequestID j) (rj_SessionID j) (rj_HeadSHA j) (rj_OutputKey j)
    (rj_PreviousOutputKey j) (rj_ExistingGitHubReviewID j) (rj_ExistingGitHubReviewURL j) (rj_PreviousReviewBody j)
    (rj_PreviousReviewDecision j) (rj_PreviousReviewDecidedAt j).
Record Lease := MkLease { l_jobID : option uuid; l_token : option uuid }.

Record codeReviewSubmission := MkSubmission {
  cs_GitHubReviewID : option Z; cs_GitHubReviewURL : option string; cs_FormalApprovalID : option Z; cs_FormalApprovalURL : option string;
  cs_FinalReviewBody : string
}.

Definition codeReviewSubmitDecision (d : CodeReviewDecision) : SubmitReviewDecision :=
  match d with
  | CodeReviewDecisionApproved => SubmitReviewDecisionApproved
  | CodeReviewDecisionCommentOnly => SubmitReviewDecisionCommentOnly
  | CodeReviewDecisionNeedsHumanReview => SubmitReviewDecisionNeedsHumanReview
  | CodeReviewDecisionBlocked => SubmitReviewDecisionBlocked
  | CodeReviewDecisionOther s => SubmitReviewDecisionOther s
  end.
Definition codeReviewSubmitDecisionPtr (d : option CodeReviewDecision) : SubmitReviewDecision :=
  match d with Some d => codeReviewSubmitDecision d | None => SubmitReviewDecisionOther "" end.

Definition problem_of (msg : string) : problems :=
  if msg ==? ErrCodeReviewAssessmentState then [AssessmentState] else if msg ==? ErrNoRows then [NoRows] else [].

Section Publish.
Context {G : GitHub} (E : PubEnv).

Definition ask {A} (f : PubEnv -> nat -> problems + A) : M A := fun w => (w <| w_step := S (w_step w) |>, f E (w_step w)).
(** The error as a value. *)
Definition attempt {A} (m : M A) : M (problems + A) := fun w => let '(w, r) := m w in (w, inr r).
Definition catch {A} (m : M A) (h : problems -> M A) : M A := fun w =>
  let '(w, r) := m w in match r with inl e => h e w | inr a => (w, inr a) end.

Definition statement {A} (f : nat -> ReviewDB -> result (ReviewDB * A)) : M A := fun w =>
  let n := w_step w in
  let found := p_others E n (w_db w) in
  let w := w <| w_step := S n |> in
  match p_fate E n with
  | Failed => (w <| w_db := found |>, inl [])
  | Done => match f n found with
            | Ok (d, a) => (w <| w_db := d |>, inr a)
            | Err m => (w <| w_db := found |>, inl (problem_of m))
            end
  | Lost => match f n found with
            | Ok (d, _) => (w <| w_db := d |>, inl [])
            | Err _ => (w <| w_db := found |>, inl [])
            end
  end.
Definition read {A} (f : ReviewDB -> result A) : M A := statement (fun _ d => let? a := f d in Ok (d, a)).
Definition write (f : time -> ReviewDB -> result ReviewDB) : M unit := statement (fun n d => let? d := f (p_now E n) d in Ok (d, tt)).

(** ** The publication lock *)

(** RunWithGitHubPublicationLock: begin and lock, the callback, and the commit
    of what it wrote in the transaction. *)
Definition RunWithGitHubPublicationLock {A} (fn : M (A * (nat -> ReviewDB -> result ReviewDB))) : M A :=
  _ ← read (fun _ => Ok tt);
  '(a, writes) ← fn;
  _ ← statement (fun n d => let? d := writes n d in Ok (d, tt));
  mret a.
Definition no_writes : nat -> ReviewDB -> result ReviewDB := fun _ d => Ok d.

Definition LockAssessmentPublicationJob (orgID jobID token : uuid) : M unit :=
  if (jobID ==? uuid_Nil) || (token ==? uuid_Nil) then throw []
  else read (fun d => if exists_row (fun j => (j_org_id j ==? orgID) && (j_id j ==? jobID) && col_is (j_lock_token j) token && (j_status j ==? JobStatusRunning))
                           (jobs (review_plane d)) then Ok tt else Err ErrNoRows).

Definition lock_lease (orgID : uuid) (lease : Lease) : M unit :=
  match l_jobID lease, l_token lease with
  | Some jobID, Some token => LockAssessmentPublicationJob orgID jobID token
  | _, _ => throw []
  end.

Definition get_assessment (orgID id : uuid) : M CodeReviewAssessment := read (GetByID orgID id).

(** The rejection of a send that this attempt declared; the original error
    stays the result. *)
Definition reconcileRejectedCodeReviewPublication {A} (a : CodeReviewAssessment) (attemptStartedReserved : bool) (submitErr : problems) : M A :=
  if negb attemptStartedReserved || negb (is_problem submitErr ErrReviewPublicationRejected) then throw submitErr
  else
    r ← attempt (write (fun _ => RestoreRejectedPublication (ra_OrgID a) (ra_ID a) (ra_Generation a) (ra_InputDigest a) (p_error E submitErr)));
    throw (match r with inl e => (submitErr ++ e)%list | inr _ => submitErr end).

Definition note_uncertain (a : CodeReviewAssessment) (detail : string) : M unit :=
  write (fun _ => NoteUncertainPublication (ra_OrgID a) (ra_ID a) (ra_Generation a) (ra_InputDigest a) detail).
Definition reconcile (request : SubmitReviewRequest) : M (option SubmitReviewResult) :=
  if p_reconciler E then ReconcileAssessmentPublication (p_token E) request else throw [].

(** ** Full reviews *)

Inductive PreSubmit := Reconciled (r : SubmitReviewResult) | Proceed (attemptStartedReserved : bool).

(** The callback preSubmit of submitFullReviewWithAssessment. *)
Definition preSubmit (job : ReviewJob) (lease : Lease) (metadata : CodeReviewSessionMetadata) (a : CodeReviewAssessment) (decision : CodeReviewDecision)
    (request : SubmitReviewRequest) : M PreSubmit :=
  _ ← lock_lease (ra_OrgID a) lease;
  current ← get_assessment (ra_OrgID a) (ra_ID a);
  let running := (ra_Status current ==? CodeReviewAssessmentRunning) && (ra_PublicationState current ==? CodeReviewPublicationNotStarted) in
  let sending := publishing CodeReviewPublicationReserved current || publishing CodeReviewPublicationUncertain current in
  if (negb running && negb sending) || negb (ra_Generation current =? ra_Generation a) || (ra_InputDigest current <>? ra_InputDigest a)
     || is_null (ra_ResultOrigin current) || (running && (ra_HeadSHA current <>? rj_HeadSHA job))
  then throw [AssessmentState]
  else
    let uncertain := ra_PublicationState current ==? CodeReviewPublicationUncertain in
    match uncertain, m_GitHubReviewID metadata with
    | true, Some known =>
        _ ← note_uncertain current CodeReviewPublicationLegacyReceiptAttempted;
        found ← (if p_reconciler E then reconcile request else throw [errCodeReviewPublicationPaused]);
        match found with
        | Some result =>
            if negb (sr_ID result =? known) || ((q_ExistingReviewID request =? 0) && (sr_SubmittedCommitSHA result <>? ra_HeadSHA current))
               || ((q_Decision request ==? SubmitReviewDecisionApproved) && is_null (sr_FormalApprovalID result))
            then throw [errCodeReviewPublicationPaused] else mret (Reconciled result)
        | None => throw [errCodeReviewPublicationPaused]
        end
    | _, _ =>
        fresh ← attempt (_ ← ask p_fresh; if decision ==? CodeReviewDecisionApproved then ask p_approval else mret tt);
        match fresh with
        | inl e =>
            if negb (is_problem e errFullAssessmentInputsChanged) && negb (is_problem e ErrAssessmentReuseUnavailable)
               && negb (is_problem e errFullAssessmentFreshnessInconclusive) then throw e
            else if negb uncertain then throw e
            else
              found ← reconcile request;
              match found with
              | Some result => mret (Reconciled result)
              | None => _ ← note_uncertain current "review marker not found; pending reconciliation"; throw []
              end
        | inr _ =>
            _ ← (if running
                 then write (fun _ => ReservePublication (ra_OrgID current) (ra_ID current) (ra_Generation current) (ra_InputDigest current) (rj_HeadSHA job))
                 else mret tt);
            if uncertain then mret (Proceed false)
            else
              _ ← write (fun _ => MarkPublicationAttemptUncertain (ra_OrgID current) (ra_ID current) (ra_Generation current) (ra_InputDigest current));
              mret (Proceed true)
        end
    end.

(** The callback that runs under the publication lock: preSubmit, SubmitReview
    and onSubmitError.  A legacy review has no assessment. *)
Definition locked_submit (job : ReviewJob) (lease : Lease) (metadata : CodeReviewSessionMetadata) (a : option CodeReviewAssessment) (decision : CodeReviewDecision)
    (request : SubmitReviewRequest) : M ((SubmitReviewResult * bool) * (nat -> ReviewDB -> result ReviewDB)) :=
  match a with
  | None => result ← SubmitReview (p_history E) (p_token E) request; mret ((result, false), no_writes)
  | Some a =>
      pre ← preSubmit job lease metadata a decision request;
      match pre with
      | Reconciled result => mret ((result, true), no_writes)
      | Proceed startedReserved =>
          result ← catch (SubmitReview (p_history E) (p_token E) request) (reconcileRejectedCodeReviewPublication a startedReserved);
          mret ((result, false), no_writes)
      end
  end.

Definition empty_submission : codeReviewSubmission := MkSubmission None None None None "".

Definition submit_request (job : ReviewJob) (repo : ReviewRepository) (pr : ReviewPullRequest) (decision : CodeReviewDecision) (body : string)
    (comments : list SubmitReviewComment) (requireReceipt : bool) : SubmitReviewRequest :=
  let repository := if TrimSpace (rp_GitHubRepo pr) ==? "" then TrimSpace (rr_FullName repo) else TrimSpace (rp_GitHubRepo pr) in
  MkSubmitRequest requireReceipt (rr_InstallationID repo) repository (rp_GitHubPRNumber pr) (rj_HeadSHA job) (rj_OutputKey job)
    (rj_PreviousOutputKey job) (default 0 (rj_ExistingGitHubReviewID job)) (default "" (rj_ExistingGitHubReviewURL job))
    (codeReviewSubmitDecision decision) (codeReviewSubmitDecisionPtr (rj_PreviousReviewDecision job))
    (default zero_time (rj_PreviousReviewDecidedAt job)) (default "" (rj_PreviousReviewBody job)) body comments.

(** What one publication sends and where, read before the lock. *)
Definition load_request (job : ReviewJob) (decision : CodeReviewDecision) (body : string) (requireReceipt : bool) : M SubmitReviewRequest :=
  repo ← read (fun d => one_row (fun r => (rr_OrgID r ==? rj_OrgID job) && (rr_ID r ==? rj_RepositoryID job)) (review_repositories d) ErrNoRows);
  if rr_InstallationID repo =? 0 then throw []
  else
    pr ← read (fun d => one_row (fun p => (rp_OrgID p ==? rj_OrgID job) && (rp_ID p ==? rj_PullRequestID job)) (review_pull_requests d) ErrNoRows);
    comments ← ask p_comments;
    mret (submit_request job repo pr decision body comments requireReceipt).

(** The submission, and whether this run sent it. *)
Definition submitCodeReviewToGitHubWithOptions (job : ReviewJob) (lease : Lease) (metadata : CodeReviewSessionMetadata) (a : option CodeReviewAssessment)
    (decision : CodeReviewDecision) (body : string) : M (codeReviewSubmission * bool) :=
  let requireReceipt := negb (is_null a) in
  if negb (p_publisher E) then mret (empty_submission, false)
  else if negb (is_null (m_GitHubReviewID metadata)) && negb requireReceipt
  then mret (MkSubmission (m_GitHubReviewID metadata) (m_GitHubReviewURL metadata) None None (default "" (m_FinalReviewBody metadata)), false)
  else
    request ← load_request job decision body requireReceipt;
    '(result, reconciled) ← RunWithGitHubPublicationLock (locked_submit job lease metadata a decision request);
    let finalReviewBody := if TrimSpace (sr_Body result) ==? "" then body else TrimSpace (sr_Body result) in
    _ ← write (fun _ => RecordGitHubReview (rj_OrgID job) (rj_SessionID job) (sr_ID result) (sr_URL result) finalReviewBody);
    mret (MkSubmission (Some (sr_ID result)) (Some (sr_URL result)) (sr_FormalApprovalID result) (sr_FormalApprovalURL result) finalReviewBody,
          negb reconciled).

Definition supersedeUnsentFullPublication (a : CodeReviewAssessment) : M unit :=
  let reason := "inputs changed before publication" in
  let detail := "full_review:" +:+ reason in
  current ← get_assessment (ra_OrgID a) (ra_ID a);
  let identity := (ra_OrgID current, ra_ID current, ra_Generation current, ra_InputDigest current) in
  let '(org, id, generation, digest) := identity in
  _ ← (if publishing CodeReviewPublicationReserved current
       then write (fun now => SupersedeUnsentPublication now org id generation digest detail)
       else if not_started current then write (fun now => Supersede now org id generation digest detail)
       else if (ra_Status current ==? CodeReviewAssessmentSuperseded) && col_is (ra_FailureDetail current) detail then mret tt
       else throw [AssessmentState]);
  _ ← write (fun now => MarkStale now org (ra_SessionID current) reason false);
  _ ← statement (fun n d => let? d := SettleAssessmentInTx (p_now E n) org (p_uuid E n) id d in Ok (d, tt));
  ask p_replace.

(** fullAssessmentPublicationReceipt. *)
Definition omit_empty (k : string) (v : option jtree) : list (string * jtree) := match v with Some t => [(k, t)] | None => [] end.
Definition fullAssessmentPublicationReceipt (a : CodeReviewAssessment) (commitSHA : string) (s : codeReviewSubmission) : RawMessage :=
  RawJSON (TObj ([("assessment_id", TStr (ra_ID a)); ("input_digest", TStr (ra_InputDigest a)); ("submitted_commit_sha", TStr commitSHA)]
    ++ omit_empty "github_review_id" (option_map TNum (cs_GitHubReviewID s)) ++ omit_empty "github_review_url" (option_map TStr (cs_GitHubReviewURL s))
    ++ omit_empty "formal_approval_id" (option_map TNum (cs_FormalApprovalID s))
    ++ omit_empty "formal_approval_url" (option_map TStr (cs_FormalApprovalURL s)))).

(** The job as it publishes [a]: its key, and the review it updates. *)
Definition job_for (job : ReviewJob) (a : CodeReviewAssessment) : M ReviewJob :=
  let job := job <| rj_OutputKey := ra_PublicationKey a |> in
  match c_PreviousPublishedAssessmentID (ra_Capture a) with
  | None => mret job
  | Some previousID =>
      previous ← get_assessment (ra_OrgID a) previousID;
      if (ra_PublicationState previous <>? CodeReviewPublicationConfirmed) || is_null (ra_GitHubReviewID previous) then throw [AssessmentState]
      else mret (job <| rj_PreviousOutputKey := ra_PublicationKey previous |> <| rj_ExistingGitHubReviewID := ra_GitHubReviewID previous |>
                     <| rj_ExistingGitHubReviewURL := ra_GitHubReviewURL previous |> <| rj_PreviousReviewBody := ra_RenderedBody previous |>
                     <| rj_PreviousReviewDecision := ra_Decision previous |> <| rj_PreviousReviewDecidedAt := ra_CompletedAt previous |>)
  end.

(** Inputs that changed before the send replace the assessment. *)
Definition supersede_stale {A} (a : CodeReviewAssessment) (e : problems) : M A :=
  if is_problem e errFullAssessmentInputsChanged || is_problem e ErrAssessmentReuseUnavailable
  then _ ← supersedeUnsentFullPublication a; throw [errCodeReviewPublicationSuperseded]
  else throw e.

(** The submission of an assessment without a receipt, and its record. *)
Definition submit_assessment (job : ReviewJob) (lease : Lease) (metadata : CodeReviewSessionMetadata) (a : CodeReviewAssessment)
    (decision : CodeReviewDecision) (body : string) : M (codeReviewSubmission * bool) :=
  job ← job_for job a;
  submitted ← catch (submitCodeReviewToGitHubWithOptions job lease metadata (Some a) decision body) (supersede_stale a);
  match cs_GitHubReviewID submitted.1 with
  | None => mret submitted
  | Some id =>
      _ ← (if ra_PublicationState a ==? CodeReviewPublicationConfirmed then mret tt
           else write (fun _ => RecordPublication (ra_OrgID a) (ra_ID a) (ra_Generation a) (ra_InputDigest a) CodeReviewPublicationConfirmed
                         (fullAssessmentPublicationReceipt a (rj_HeadSHA job) submitted.1) (Some id) (cs_GitHubReviewURL submitted.1)));
      mret submitted
  end.

Definition submitFullReviewWithAssessment (job : ReviewJob) (lease : Lease) (metadata : CodeReviewSessionMetadata) (a : option CodeReviewAssessment)
    (decision : CodeReviewDecision) (body : string) : M (codeReviewSubmission * bool) :=
  match a with
  | None => submitCodeReviewToGitHubWithOptions job lease metadata None decision body
  | Some a =>
      match ra_PublicationState a ==? CodeReviewPublicationConfirmed, ra_GitHubReviewID a with
      | true, Some id => mret (MkSubmission (Some id) (ra_GitHubReviewURL a) None None (default "" (m_FinalReviewBody metadata)), false)
      | _, _ => submit_assessment job lease metadata a decision body
      end
  end.

(** ** Evidence rechecks *)

Definition codeReviewStatusCommentJobMaxAttempts : Z := 3.
Definition status_comment_job (a : CodeReviewAssessment) : EnqueueOpts :=
  MkEnqueueOpts "default" "sync_code_review_status_comment"
    (<["org_id" := jstr (ra_OrgID a)]> (<["session_id" := jstr (ra_SessionID a)]> (<["repository_id" := jstr (c_RepositoryID (ra_Capture a))]>
      (<["pull_request_id" := jstr (ra_PullRequestID a)]> ∅))))
    3 (Some ("code_review_status_comment:assessment:" +:+ ra_ID a)) None codeReviewStatusCommentJobMaxAttempts None.

(** The closure [complete]: completion, settlement and the status comment, in
    the transaction of the lock. *)
Definition complete_recheck (a : CodeReviewAssessment) (completion : CodeReviewAssessmentCompletion) (n : nat) (d : ReviewDB) : result ReviewDB :=
  let? d := Complete (p_now E n) (ra_OrgID a) (ra_ID a) (ra_Generation a) (ra_InputDigest a) completion d in
  let? d := SettleAssessmentInTx (p_now E n) (ra_OrgID a) (p_uuid E n) (ra_ID a) d in
  if negb (p_updater E) then Ok d
  else let? (plane, _) := enqueueOn (p_now E n) (p_uuid E n) (ra_OrgID a) (status_comment_job a) (review_plane d) in
       Ok (d <| review_plane := plane |>).

(** The receipt that a recheck records. *)
Definition recheck_receipt (a : CodeReviewAssessment) (r : SubmitReviewResult) : RawMessage :=
  let pointer {A} (f : A -> jtree) (v : option A) := match v with Some v => f v | None => TNull end in
  RawJSON (TObj [("OutputKey", TStr (ra_PublicationKey a)); ("CommitSHA", TStr (ra_HeadSHA a)); ("InputDigest", TStr (ra_InputDigest a));
    ("SummaryID", TNum (sr_ID r)); ("SummaryURL", TStr (sr_URL r)); ("FormalApprovalID", pointer TNum (sr_FormalApprovalID r));
    ("FormalApprovalURL", pointer TStr (sr_FormalApprovalURL r))]).

Definition recheck_request (a : CodeReviewAssessment) (repo : ReviewRepository) (prNumber : Z) (decision : CodeReviewDecision) (body : string)
    (previous : option CodeReviewAssessment) : SubmitReviewRequest :=
  MkSubmitRequest true (rr_InstallationID repo) (rr_FullName repo) prNumber (ra_HeadSHA a) (ra_PublicationKey a)
    (match previous with Some p => ra_PublicationKey p | None => "" end)
    (match previous with Some p => default 0 (ra_GitHubReviewID p) | None => 0 end)
    (match previous with Some p => default "" (ra_GitHubReviewURL p) | None => "" end)
    (codeReviewSubmitDecision decision)
    (match previous with Some p => codeReviewSubmitDecisionPtr (ra_Decision p) | None => SubmitReviewDecisionOther "" end)
    (match previous with Some p => default zero_time (ra_CompletedAt p) | None => zero_time end)
    (match previous with Some p => default "" (ra_RenderedBody p) | None => "" end) body [].

Definition record_and_complete (a : CodeReviewAssessment) (completion : CodeReviewAssessmentCompletion) (r : SubmitReviewResult) (n : nat) (d : ReviewDB) : result ReviewDB :=
  let? d := RecordPublication (ra_OrgID a) (ra_ID a) (ra_Generation a) (ra_InputDigest a) CodeReviewPublicationConfirmed (recheck_receipt a r)
              (Some (sr_ID r)) (Some (sr_URL r)) d in
  complete_recheck a completion n d.

(** The callback of publishCodeReviewRecheck. *)
Definition locked_recheck (a : CodeReviewAssessment) (lease : Lease) (repo : ReviewRepository) (prNumber : Z) (decision : CodeReviewDecision) (body : string)
    (completion : CodeReviewAssessmentCompletion) : M (unit * (nat -> ReviewDB -> result ReviewDB)) :=
  _ ← lock_lease (ra_OrgID a) lease;
  current ← get_assessment (ra_OrgID a) (ra_ID a);
  if ra_Status current ==? CodeReviewAssessmentCompleted then mret (tt, no_writes)
  else if (ra_Status current <>? CodeReviewAssessmentPublishing) || (ra_InputDigest current <>? ra_InputDigest a) then throw [AssessmentState]
  else if ra_PublicationState current ==? CodeReviewPublicationConfirmed then mret (tt, complete_recheck a completion)
  else
    previous ← (match c_PreviousPublishedAssessmentID (ra_Capture a) with
                | Some id => p ← get_assessment (ra_OrgID a) id; mret (Some p)
                | None => mret None
                end);
    let request := recheck_request a repo prNumber decision body previous in
    let reserved := ra_PublicationState current ==? CodeReviewPublicationReserved in
    captured ← attempt (ask p_capture);
    let invalid := match captured with inl e => is_problem e ErrInvalidCodeReviewGuidanceFile | inr _ => false end in
    let allowWrite := match captured with inl _ => false | inr digest => digest ==? ra_InputDigest a end in
    let inputsChanged := match captured with inl e => is_problem e ErrAssessmentReuseUnavailable | inr digest => digest <>? ra_InputDigest a end in
    if invalid && reserved then throw (match captured with inl e => e | inr _ => [] end)
    else if inputsChanged && reserved then throw [errCodeReviewUnsentInputsChanged]
    else if allowWrite
    then
      _ ← (if reserved then write (fun _ => MarkPublicationAttemptUncertain (ra_OrgID a) (ra_ID a) (ra_Generation a) (ra_InputDigest a)) else mret tt);
      result ← catch (SubmitReview (p_history E) (p_token E) request) (reconcileRejectedCodeReviewPublication current reserved);
      mret (tt, record_and_complete a completion result)
    else
      found ← reconcile request;
      match found with
      | None =>
          _ ← (if inputsChanged && (ra_PublicationState current ==? CodeReviewPublicationUncertain)
               then note_uncertain current "review marker not found after input change; pending reconciliation" else mret tt);
          throw [Retryable]
      | Some result => mret (tt, record_and_complete a completion result)
      end.

Definition publishCodeReviewRecheck (a : CodeReviewAssessment) (lease : Lease) (prNumber : Z) (decision : CodeReviewDecision) (body : string)
    (completion : CodeReviewAssessmentCompletion) : M unit :=
  if negb (p_publisher E) then throw []
  else
    repo ← read (fun d => one_row (fun r => (rr_OrgID r ==? ra_OrgID a) && (rr_ID r ==? c_RepositoryID (ra_Capture a))) (review_repositories d) ErrNoRows);
    _ ← (if ra_PublicationState a ==? CodeReviewPublicationNotStarted
         then _ ← write (fun _ => StageOutcome (ra_OrgID a) (ra_ID a) (ra_Generation a) (ra_InputDigest a) completion);
              write (fun _ => ReservePublication (ra_OrgID a) (ra_ID a) (ra_Generation a) (ra_InputDigest a) (ra_HeadSHA a))
         else mret tt);
    catch (RunWithGitHubPublicationLock (locked_recheck a lease repo prNumber decision body completion))
      (fun e => if is_problem e errCodeReviewUnsentInputsChanged
                then _ ← ask p_replace; throw [errCodeReviewPublicationSuperseded]
                else throw e).

End Publish.
