(* ===== verification/ReviewLedger.v ===== *)
(** * The table of assessments and the reviews on GitHub

    What ties the rows of one pull request to the reviews it has on GitHub: the
    marker of an assessment that cannot have been sent is nowhere, and a marker
    is on at most one review.  The invariant [ledger] holds under the writes of
    every other process ([calm]), under the reviews of other people, and under
    a submission whose row says that it may have been sent. *)

From S2P Require Import Prelude GoRuntime GoStrings Sql Tables JobStore Automation Review ReviewMarkers ReviewStore ReviewSteps ReviewSubmit ReviewSubmitSpec.
From stdpp Require Import base option list strings gmap.

Open Scope string_scope.
Open Scope Z_scope.

Definition sent (a : CodeReviewAssessment) : Prop :=
  ra_PublicationState a = CodeReviewPublicationUncertain \/ ra_PublicationState a = CodeReviewPublicationConfirmed.

Lemma sent_stays k a a' : row_step k a a' -> k <> Reject -> sent a -> sent a'.
Proof.
  unfold sent. intros Hs Hk H. destruct Hs as [k a|a E|a r E|a E1 E2|a E|a|a d E|a r id u E|a E1 E2|a t E|a s d t u E|a d t E]; try done; cbn; auto.
  all: rewrite E2 in H; by destruct H.
Qed.

Lemma same_row l a b : List.NoDup (map ra_ID l) -> In a l -> In b l -> ra_ID a = ra_ID b -> a = b.
Proof. apply map_key_inj. Qed.

Section Ledger.
Context (org pr : uuid) (Keys : string -> Prop).
(** The review that the payload of a full review's job names; 0 for none. *)
Context (payload_review : uuid -> Z).

(** The keys of the pull request's assessments, and those of their approvals,
    have digests of their own. *)
Record key_space : Prop := {
  ks_keys k k' : Keys k -> Keys k' -> codeReviewMarkerDigest k = codeReviewMarkerDigest k' -> k = k';
  ks_approvals k k' : Keys k -> Keys k' -> codeReviewMarkerDigest (approval_key k) = codeReviewMarkerDigest (approval_key k') -> k = k';
  ks_apart k k' : Keys k -> Keys k' -> codeReviewMarkerDigest k <> codeReviewMarkerDigest (approval_key k')
}.

Definition mine (a : CodeReviewAssessment) : Prop := org_pr a = (org, pr).

(** The review that the publication of [a] updates; 0 for a new one. *)
Inductive target (l : list CodeReviewAssessment) (a : CodeReviewAssessment) : Z -> Prop :=
| target_payload : c_PreviousPublishedAssessmentID (ra_Capture a) = None -> target l a (payload_review (ra_ID a))
| target_previous b : In b l -> follows a b -> target l a (default 0 (ra_GitHubReviewID b)).

Definition plain_rows (l : list CodeReviewAssessment) : Prop :=
  forall a, In a l -> mine a -> Keys (ra_PublicationKey a) /\ unmarked (default "" (ra_RenderedBody a)).

Definition unpublished (key : string) (rs : list githubReviewListItem) : Prop := carriers key rs = [] /\ carriers (approval_key key) rs = [].

Record marks (l : list CodeReviewAssessment) (rs : list githubReviewListItem) (a : CodeReviewAssessment) : Prop := {
  mk_unsent : ~ sent a -> unpublished (ra_PublicationKey a) rs;
  mk_target t : target l a t ->
    if 0 <? t then incl (carriers (ra_PublicationKey a) rs) [t] else (length (carriers (ra_PublicationKey a) rs) <= 1)%nat;
  mk_approval : (length (carriers (approval_key (ra_PublicationKey a)) rs) <= 1)%nat
}.

Record ledger (l : list CodeReviewAssessment) (rs : list githubReviewListItem) : Prop := {
  lg_rows : rows_ok l;
  lg_plain : plain_rows l;
  lg_known k : Keys k -> ~ unpublished k rs -> exists a, In a l /\ mine a /\ ra_PublicationKey a = k;
  lg_marks a : In a l -> mine a -> marks l rs a
}.

(** ** Steps of the table *)

Lemma mine_step k a a' : row_step k a a' -> mine a' <-> mine a.
Proof. intros Hs. unfold mine, org_pr, ra_OrgID, ra_PullRequestID. by rewrite (row_step_capture _ _ _ Hs). Qed.
Lemma key_step k a a' : row_step k a a' -> ra_PublicationKey a' = ra_PublicationKey a.
Proof. intros Hs. unfold ra_PublicationKey. by rewrite (row_step_capture _ _ _ Hs). Qed.

Lemma target_unique l a t t' : rows_ok l -> target l a t -> target l a t' -> t = t'.
Proof.
  intros Hl [H|b Hb [Hp Hf]] [H'|b' Hb' [Hp' Hf']]; try congruence.
  rewrite Hf in Hf'. injection Hf' as E. by rewrite (same_row l b b' (ro_ids _ Hl) Hb Hb' E).
Qed.

Lemma target_exists l a : rows_ok l -> In a l -> exists t, target l a t.
Proof.
  intros Hl Ha. destruct (c_PreviousPublishedAssessmentID (ra_Capture a)) as [id|] eqn:E; [|eexists; by constructor].
  destruct (ro_previous _ Hl a Ha) as (b & Hb & Hf & _); [congruence|]. eexists. by eapply target_previous.
Qed.

Lemma target_forward k l l' a a' t : rows_ok l -> rows_step k l l' -> In a l -> row_step k a a' -> target l a t -> target l' a' t.
Proof.
  intros Hl (kept & new & -> & HF & _) Ha Hs. pose proof (row_step_capture _ _ _ Hs) as Ec. intros [H|b Hb Hf].
  - replace (ra_ID a) with (ra_ID a') by (unfold ra_ID; by rewrite Ec). constructor. by rewrite Ec.
  - destruct (ro_previous _ Hl a Ha) as (c & Hc & Hfc & Hpub); [by destruct Hf as [_ ->]|].
    assert (b = c) as -> by (destruct Hf as [_ Hf], Hfc as [_ Hfc]; rewrite Hf in Hfc; injection Hfc as E; by eapply same_row; [apply Hl|..]).
    destruct (kept_in _ _ _ _ HF Hc) as (c' & Hc' & Hsc). destruct (published_stays _ _ _ Hsc Hpub) as [_ <-].
    eapply target_previous; [apply in_app_iff; by left|]. eapply follows_capture; [exact Ec|by eapply row_step_capture|done].
Qed.

Lemma target_step k l l' a a' t : rows_ok l -> rows_step k l l' -> In a l -> row_step k a a' -> target l' a' t -> target l a t.
Proof.
  intros Hl HF Ha Hs Ht. destruct (target_exists l a Hl Ha) as [t0 Ht0].
  pose proof (target_forward _ _ _ _ _ _ Hl HF Ha Hs Ht0) as H0. rewrite (target_unique l' a' t t0); try done. by eapply rows_step_ok.
Qed.

Lemma ledger_step k l l' rs : rows_step k l l' -> plain_rows l' ->
  (forall a a', In a l -> mine a -> row_step k a a' -> In a' l' -> sent a -> ~ sent a' -> unpublished (ra_PublicationKey a) rs) ->
  ledger l rs -> ledger l' rs.
Proof.
  intros Hs Hpl Hrej [Hrows _ Hkn Hmk]. pose proof (rows_step_ok _ _ _ Hs Hrows) as Hrows'.
  pose proof Hs as (kept & new & -> & HF & Hnew). split; [done|done| |].
  - intros k' Hk Hne. destruct (Hkn k' Hk Hne) as (a & Ha & Hm & <-). destruct (kept_in _ _ _ _ HF Ha) as (a' & Ha' & Hsa).
    exists a'. split; [apply in_app_iff; by left|]. split; [by eapply mine_step|by eapply key_step].
  - intros a' Ha' Hm. pose proof Ha' as Hin. apply in_app_iff in Hin as [Hk|Hn].
    + destruct (kept_from _ _ _ _ HF Hk) as (a & Ha & Hsa). apply (mine_step _ _ _ Hsa) in Hm. destruct (Hmk a Ha Hm) as [M1 M2 M3].
      pose proof (key_step _ _ _ Hsa) as Ek. split; rewrite Ek; [|intros t Ht; apply M2; by eapply target_step|done].
      intros Hns. destruct (decide (ra_PublicationState a = CodeReviewPublicationUncertain \/ ra_PublicationState a = CodeReviewPublicationConfirmed)) as [H|H].
      * by eapply Hrej.
      * by apply M1.
    + destruct Hnew as [->|(x & -> & [Hfr Hu _])]; [done|]. destruct Hn as [->|[]].
      assert (unpublished (ra_PublicationKey a') rs) as [E1 E2].
      { destruct (decide (unpublished (ra_PublicationKey a') rs)) as [H|H]; [done|]. exfalso.
        destruct (Hkn (ra_PublicationKey a')) as (b & Hb & Hmb & Ek); [by apply Hpl|done|].
        destruct (Hu b Hb) as (_ & H1 & _). apply H1. unfold org_key. rewrite Ek. unfold mine, org_pr in *. congruence. }
      split; [done| |by rewrite E2; cbn; lia]. intros t _. rewrite E1. destruct (0 <? t); [apply incl_nil_l|cbn; lia].
Qed.

Lemma ledger_same l rs rs' : (forall k, carriers k rs' = carriers k rs) -> ledger l rs -> ledger l rs'.
Proof.
  intros E [H1 H2 H3 H4]. split; [done|done|intros k; unfold unpublished; rewrite !E; apply H3|].
  intros a Ha Hm. destruct (H4 a Ha Hm) as [M1 M2 M3]. split; unfold unpublished; [intros H; rewrite !E; by apply M1|intros t Ht; rewrite !E; by apply M2|by rewrite E].
Qed.

(** ** The writes of every process but the owner of a rejection *)

Definition calm_op (d d' : ReviewDB) : Prop :=
  exists k, k <> Reject /\ review_op d k d' /\ (plain_rows (assessments d) -> plain_rows (assessments d')).
Definition calm : ReviewDB -> ReviewDB -> Prop := rtc calm_op.

(** A row with the inputs of [a], and whether it may have been sent. *)
Definition known (a : CodeReviewAssessment) (d : ReviewDB) : Prop := exists b, In b (assessments d) /\ ra_Capture b = ra_Capture a.
Definition known_sent (a : CodeReviewAssessment) (d : ReviewDB) : Prop := exists b, In b (assessments d) /\ ra_Capture b = ra_Capture a /\ sent b.

Lemma kept_row k l l' b : rows_step k l l' -> In b l -> exists b', In b' l' /\ row_step k b b'.
Proof. intros (kept & new & -> & HF & _) Hb. destruct (kept_in _ _ _ _ HF Hb) as (b' & ? & ?). exists b'. split; [apply in_app_iff; by left|done]. Qed.

Lemma known_calm a d d' : calm d d' -> known a d -> known a d'.
Proof.
  induction 1 as [|d1 d2 d3 (k & _ & Hop & _) _ IH]; [done|]. intros (b & Hb & E). apply IH.
  destruct (kept_row _ _ _ _ (review_op_rows _ _ _ Hop) Hb) as (b' & Hb' & Hs). exists b'. split; [done|]. by rewrite (row_step_capture _ _ _ Hs).
Qed.
Lemma known_sent_calm a d d' : calm d d' -> known_sent a d -> known_sent a d'.
Proof.
  induction 1 as [|d1 d2 d3 (k & Hk & Hop & _) _ IH]; [done|]. intros (b & Hb & E & Hsent). apply IH.
  destruct (kept_row _ _ _ _ (review_op_rows _ _ _ Hop) Hb) as (b' & Hb' & Hs). exists b'. split; [done|].
  rewrite (row_step_capture _ _ _ Hs). split; [done|]. by eapply sent_stays.
Qed.
Lemma known_sent_known a d : known_sent a d -> known a d.
Proof. intros (b & ? & ? & _). by exists b. Qed.

Lemma ledger_calm rs d d' : calm d d' -> ledger (assessments d) rs -> ledger (assessments d') rs.
Proof.
  induction 1 as [|d1 d2 d3 (k & Hk & Hop & Hpl) _ IH]; [done|]. intros Hl. apply IH.
  eapply ledger_step; [by apply review_op_rows|apply Hpl, Hl| |done]. intros a a' _ _ Hs _ H1 H2. destruct H2. by eapply sent_stays.
Qed.

(** The target of [a], of which only the inputs matter. *)
Lemma target_capture l a b t : ra_Capture b = ra_Capture a -> target l a t -> target l b t.
Proof.
  intros E [H|c Hc Hf].
  - replace (ra_ID a) with (ra_ID b) by (unfold ra_ID; by rewrite E). constructor. by rewrite E.
  - eapply target_previous; [done|]. by eapply follows_capture; [exact E| |exact Hf].
Qed.
Lemma target_calm rs a t d d' : calm d d' -> ledger (assessments d) rs -> known a d -> target (assessments d) a t -> target (assessments d') a t.
Proof.
  induction 1 as [|d1 d2 d3 Hc _ IH]; [done|]. intros Hl Hk Ht. apply IH.
  - by eapply ledger_calm; [apply rtc_once|].
  - by eapply known_calm; [apply rtc_once|].
  - destruct Hc as (k & _ & Hop%review_op_rows & _), Hk as (b & Hb & E). destruct (kept_row _ _ _ _ Hop Hb) as (b' & Hb' & Hs).
    eapply (target_capture _ b'); [rewrite (row_step_capture _ _ _ Hs); congruence|].
    eapply target_forward; [apply Hl|done|exact Hb|done|]. by eapply target_capture.
Qed.

(** ** A submission *)

Context {G : GitHub} {L : GitHubLaws G}.
Definition reviews (w : World) : list githubReviewListItem := Reviews (w_gh w).

Lemma marks_shrink l w w' b : (forall k, k = ra_PublicationKey b \/ k = approval_key (ra_PublicationKey b) -> incl (own k w') (own k w)) ->
  marks l (reviews w) b -> marks l (reviews w') b.
Proof.
  unfold reviews. intros Hi [M1 M2 M3]. pose proof (Hi _ (or_introl eq_refl)) as I1. pose proof (Hi _ (or_intror eq_refl)) as I2. split.
  - intros H. destruct (M1 H) as [E1 E2]. unfold own in *. rewrite E1 in I1. rewrite E2 in I2. split; by apply incl_l_nil.
  - intros t Ht. specialize (M2 t Ht). destruct (0 <? t); [by eapply incl_tran|].
    etransitivity; [apply incl_length_le; [apply own_nodup|exact I1]|exact M2].
  - etransitivity; [apply incl_length_le; [apply own_nodup|exact I2]|exact M3].
Qed.

Lemma ledger_submit req l a w w' e : key_space -> ledger l (reviews w) -> submitted req w w' e -> In a l -> mine a -> sent a ->
  q_OutputKey req = ra_PublicationKey a -> target l a (q_ExistingReviewID req) -> ledger l (reviews w').
Proof.
  intros KS [H1 H2 H3 H4] [_ So Sc Su Sa _] Ha Hm Hsent Hk Ht. rewrite Hk in *. destruct (H2 a Ha Hm) as [Ka _].
  assert (forall k, Keys k -> k <> ra_PublicationKey a -> incl (own k w') (own k w) /\ incl (own (approval_key k) w') (own (approval_key k) w)) as Hin.
  { intros k Kk Hne. destruct KS as [K1 K2 K3]. split; apply So; auto. intros E. by apply (K3 _ _ Ka Kk). }
  split; [done|done| |].
  - intros k Kk Hne. destruct (decide (k = ra_PublicationKey a)) as [->|Hd]; [by exists a|].
    apply H3; [done|]. intros [E1 E2]. apply Hne. destruct (Hin k Kk Hd) as [I1 I2]. unfold own, reviews in *. rewrite E1 in I1. rewrite E2 in I2.
    split; by apply incl_l_nil.
  - intros b Hb Hmb. destruct (H2 b Hb Hmb) as [Kb _]. specialize (H4 b Hb Hmb). destruct (decide (ra_PublicationKey b = ra_PublicationKey a)) as [E|Hd].
    + assert (b = a) as -> by (apply (map_key_inj org_key l b a (ro_keys _ H1) Hb Ha); unfold org_key, mine, org_pr in *; congruence).
      destruct H4 as [M1 M2 M3]. split; [by intros []| |exact (Sa M3)].
      intros t' Ht'. rewrite (target_unique _ _ _ _ H1 Ht' Ht). specialize (M2 _ Ht). destruct (0 <? q_ExistingReviewID req); auto.
    + destruct (Hin _ Kb Hd) as [I1 I2]. eapply marks_shrink; [|exact H4]. by intros k [->| ->].
Qed.

End Ledger.
