(* ===== verification/ReviewRun.v ===== *)
(** * Publication runs keep the ledger

    The programs of [ReviewPublish] against the invariant [ledger].  Everything
    but the submission itself is [resting]: it makes the writes that every
    process may make, and no request that changes a review.  The submission
    runs after the row says that it may have been sent, and only a rejection of
    a send that the same run declared takes that back. *)

From S2P Require Import Prelude GoRuntime GoStrings Sql Tables JobStore Automation Review ReviewMarkers ReviewStore ReviewSteps ReviewSubmit ReviewSubmitSpec ReviewPublish ReviewLedger.
From stdpp Require Import base option list strings gmap.

Open Scope string_scope.
Open Scope Z_scope.

(** ** Statements that keep the texts *)

Definition silent (d d' : ReviewDB) : Prop :=
  forall a', In a' (assessments d') -> exists a, In a (assessments d) /\ ra_Capture a' = ra_Capture a /\ ra_RenderedBody a' = ra_RenderedBody a.

Lemma silent_set p f d : (forall a, ra_Capture (f a) = ra_Capture a /\ ra_RenderedBody (f a) = ra_RenderedBody a) -> silent d (set_assessments p f d).
Proof.
  intros H a' Ha'. unfold set_assessments, update in Ha'. cbn in Ha'. apply in_map_iff in Ha' as (a & <- & Ha). exists a. split; [done|].
  destruct (p a); [apply H|done].
Qed.
Lemma silent_write p f d d' : (forall a, ra_Capture (f a) = ra_Capture a /\ ra_RenderedBody (f a) = ra_RenderedBody a) ->
  write_assessment p f d = Ok d' -> silent d d'.
Proof. intros H. unfold write_assessment. destruct (exists_row _ _); [|done]. intros [= <-]. by apply silent_set. Qed.
Lemma silent_eq d d' : assessments d' = assessments d -> silent d d'.
Proof. intros E a' Ha'. rewrite E in Ha'. eauto. Qed.

Lemma settle_locked_rows org id repo pr s d s' d' : settleAssessmentLockedPR org id repo pr s d = Ok (s', d') -> assessments d' = assessments d.
Proof.
  unfold settleAssessmentLockedPR. destruct (one_row _ _ _) as [a|]; [|done]. cbn. destruct (active_assessment a); [by intros [= _ <-]|].
  destruct (_ && _); [by intros [= _ <-]|]. case_match; by intros [= _ <-].
Qed.
Lemma settle_rows now org fresh id d d' : SettleAssessmentInTx now org fresh id d = Ok d' -> assessments d' = assessments d.
Proof.
  unfold SettleAssessmentInTx. destruct (GetByID org id d) as [a|]; [|done]. cbn. unfold withLockedPRInTx. destruct (negb _); [done|].
  set (d1 := if exists_row _ (pr_states d) then d else _). assert (assessments d1 = assessments d) as E by (unfold d1; by destruct (exists_row _ _)).
  destruct (one_row _ (pr_states d1) _) as [s|]; [|done]. cbn. destruct (settleAssessmentLockedPR _ _ _ _ _ _) as [[s' d2]|] eqn:Es; [|done].
  intros [= <-]. apply settle_locked_rows in Es. by rewrite <- E, <- Es.
Qed.

Section Run.
Context (org pr : uuid) (Keys : string -> Prop) (payload_review : uuid -> Z).
Context {G : GitHub} {L : GitHubLaws G}.
Local Abbreviation calm := (ReviewLedger.calm org pr Keys).
Local Abbreviation mine := (ReviewLedger.mine org pr).
Local Abbreviation plain_rows := (ReviewLedger.plain_rows org pr Keys).
Local Abbreviation target := (ReviewLedger.target payload_review).
Local Abbreviation ledger := (ReviewLedger.ledger org pr Keys payload_review).
Local Abbreviation key_space := (ReviewLedger.key_space Keys).

Lemma silent_plain d d' : silent d d' -> plain_rows (assessments d) -> plain_rows (assessments d').
Proof.
  intros Hs Hp a' Ha' Hm. destruct (Hs a' Ha') as (a & Ha & Ec & Eb). rewrite Eb.
  replace (ra_PublicationKey a') with (ra_PublicationKey a) by (unfold ra_PublicationKey; by rewrite Ec). apply Hp; [done|].
  unfold ReviewLedger.mine, org_pr, ra_OrgID, ra_PullRequestID in *. by rewrite <- Ec.
Qed.
Lemma calm_silent k d d' : review_op d k d' -> k <> Reject -> silent d d' -> calm d d'.
Proof. intros. apply rtc_once. exists k. split; [done|]. split; [done|]. by apply silent_plain. Qed.
Lemma calm_other d d' : assessments d' = assessments d -> calm d d'.
Proof. intros E. eapply calm_silent; [by apply op_other|done|by apply silent_eq]. Qed.

Lemma calm_Reserve o id g i sha d d' : ReservePublication o id g i sha d = Ok d' -> calm d d'.
Proof.
  intros H. eapply calm_silent; [by eapply op_reserve|done|]. unfold ReservePublication in H. case_bool_decide; [done|]. by eapply silent_write; [|exact H].
Qed.
Lemma calm_Mark o id g i d d' : MarkPublicationAttemptUncertain o id g i d = Ok d' -> calm d d'.
Proof. intros H. eapply calm_silent; [by eapply op_uncertain|done|]. by eapply silent_write; [|exact H]. Qed.
Lemma calm_Note o id g i detail d d' : NoteUncertainPublication o id g i detail d = Ok d' -> calm d d'.
Proof.
  intros H. eapply calm_silent; [by eapply op_note|done|]. unfold NoteUncertainPublication in H. case_bool_decide; [done|]. by eapply silent_write; [|exact H].
Qed.
Lemma calm_SupersedeUnsent now o id g i detail d d' : SupersedeUnsentPublication now o id g i detail d = Ok d' -> calm d d'.
Proof.
  intros H. eapply calm_silent; [by eapply op_supersede_unsent|done|]. unfold SupersedeUnsentPublication in H. case_bool_decide; [done|]. by eapply silent_write; [|exact H].
Qed.
Lemma calm_Supersede now o id g i detail d d' : Supersede now o id g i detail d = Ok d' -> calm d d'.
Proof.
  intros H. eapply calm_silent; [by eapply op_supersede|done|]. unfold Supersede in H. case_bool_decide; [done|]. by eapply silent_write; [|exact H].
Qed.
Lemma calm_Record o id g i receipt rid url d d' :
  RecordPublication o id g i CodeReviewPublicationConfirmed receipt rid url d = Ok d' -> calm d d'.
Proof.
  intros H. eapply calm_silent; [by eapply op_record|done|]. unfold RecordPublication in H. repeat (case_match; [done|]). by eapply silent_write; [|exact H].
Qed.
Lemma calm_Complete now o id g i r d d' : Complete now o id g i r d = Ok d' -> calm d d'.
Proof.
  intros H. eapply calm_silent; [by eapply op_complete|done|]. unfold Complete in H. destruct (validateAssessmentCompletion r); [|done]. by eapply silent_write; [|exact H].
Qed.
Lemma calm_Stage o id g i r d d' : unmarked (r_RenderedBody r) -> StageOutcome o id g i r d = Ok d' -> calm d d'.
Proof.
  intros Hr H. apply rtc_once. exists Quiet. split; [done|]. split; [by eapply op_stage|]. intros Hp. unfold StageOutcome in H.
  destruct (validateAssessmentCompletion r) as [[]|]; [|done]. destruct (exists_row _ _).
  - injection H as <-. intros a' Ha' Hm. unfold set_assessments, update in Ha'. cbn in Ha'. apply in_map_iff in Ha' as (a & <- & Ha).
    match goal with |- context [if ?x then _ else _] => destruct x end; [|by apply Hp]. split; [|done]. by apply (Hp a).
  - destruct (GetByID _ _ _); [|done]. case_match; [|done]. by injection H as <-.
Qed.
Lemma calm_RecordGitHubReview o s id url body d d' : RecordGitHubReview o s id url body d = Ok d' -> calm d d'.
Proof. intros H%write_metadata_rows. by apply calm_other. Qed.
Lemma calm_MarkStale now o s reason b d d' : MarkStale now o s reason b d = Ok d' -> calm d d'.
Proof. intros H%write_metadata_rows. by apply calm_other. Qed.
Lemma calm_Settle now o fresh id d d' : SettleAssessmentInTx now o fresh id d = Ok d' -> calm d d'.
Proof. intros H%settle_rows. by apply calm_other. Qed.

(** ** Programs that rest *)

Record rests (w w' : World) : Prop := { rest_db : calm (w_db w) (w_db w'); rest_gh : others (reviews w) (reviews w') }.
Definition resting {A} (m : M A) : Prop := forall w, rests w (m w).1.

Lemma rests_refl w : rests w w.
Proof. split; [apply rtc_refl|apply others_refl]. Qed.
Lemma rests_trans w1 w2 w3 : rests w1 w2 -> rests w2 w3 -> rests w1 w3.
Proof. intros [] []. split; [by etransitivity|by eapply others_trans]. Qed.
Lemma resting_ret {A} (a : A) : resting (mret a).
Proof. intros w. apply rests_refl. Qed.
Lemma resting_throw {A} e : resting (throw (A:=A) e).
Proof. intros w. apply rests_refl. Qed.
Lemma resting_reading {A} (m : M A) : reading m -> resting m.
Proof. intros H w. destruct (H w) as [E ? _]. split; [by rewrite E; apply rtc_refl|done]. Qed.
Lemma resting_bind {A B} (m : M A) (k : A -> M B) : resting m -> (forall a, resting (k a)) -> resting (m ≫= k).
Proof.
  intros Hm Hk w. specialize (Hm w). unfold mbind, M_bind. destruct (m w) as [w1 [e|a]]; [done|]. eapply rests_trans; [exact Hm|apply Hk].
Qed.
Lemma resting_catch {A} (m : M A) h : resting m -> (forall e, resting (h e)) -> resting (catch m h).
Proof.
  intros Hm Hk w. specialize (Hm w). unfold catch. destruct (m w) as [w1 [e|a]]; [|done]. eapply rests_trans; [exact Hm|apply Hk].
Qed.
Lemma resting_attempt {A} (m : M A) : resting m -> resting (attempt m).
Proof. intros Hm w. specialize (Hm w). unfold attempt. by destruct (m w). Qed.

Lemma ledger_rests w w' : rests w w' -> ledger (assessments (w_db w)) (reviews w) -> ledger (assessments (w_db w')) (reviews w').
Proof.
  intros [Hc Ho] Hl. eapply ledger_same; [intros k; by apply others_carriers|]. by eapply ledger_calm.
Qed.
Lemma unpublished_rests key w w' : rests w w' -> unpublished key (reviews w) -> unpublished key (reviews w').
Proof. intros [_ Ho] [E1 E2]. split; by rewrite (others_carriers _ _ _ Ho). Qed.

Context (E : PubEnv).
(** The other processes, and the text of the history. *)
Record calm_env : Prop := {
  ce_others n d : calm d (p_others E n d);
  ce_history b p dec t : unmarked b -> unmarked p -> unmarked (TrimSpace (p_history E b p dec t))
}.
Context (HE : calm_env).

Lemma resting_ask {A} (f : PubEnv -> nat -> problems + A) : resting (ask E f).
Proof. intros w. split; [apply rtc_refl|apply others_refl]. Qed.

Lemma statement_ok {A} (f : nat -> ReviewDB -> result (ReviewDB * A)) w w' x : statement E f w = (w', inr x) ->
  exists d, calm (w_db w) d /\ f (w_step w) d = Ok (w_db w', x) /\ w_gh w' = w_gh w.
Proof.
  unfold statement. intros H. exists (p_others E (w_step w) (w_db w)). split; [apply HE|].
  destruct (p_fate E (w_step w)); [|done|by destruct (f _ _) as [[? ?]|]]. destruct (f _ _) as [[d a]|] eqn:Ef; [|done].
  injection H as <- <-. done.
Qed.
Lemma resting_statement {A} (f : nat -> ReviewDB -> result (ReviewDB * A)) : (forall n d d' x, f n d = Ok (d', x) -> calm d d') -> resting (statement E f).
Proof.
  intros Hf w. assert (forall d, calm (p_others E (w_step w) (w_db w)) d -> calm (w_db w) d) as Hc by (intros d Hd; etransitivity; [apply HE|exact Hd]).
  unfold statement. destruct (p_fate E (w_step w)); try (split; [apply HE|apply others_refl]).
  all: destruct (f (w_step w) _) as [[d' x]|] eqn:Ef; (split; [|apply others_refl]); try apply HE; cbn; by eapply Hc, Hf.
Qed.
Lemma resting_read {A} (f : ReviewDB -> result A) : resting (read E f).
Proof. apply resting_statement. intros n d d' x. destruct (f d); [|done]. cbn. intros [= <- _]. apply rtc_refl. Qed.
Lemma resting_write f : (forall t d d', f t d = Ok d' -> calm d d') -> resting (write E f).
Proof. intros Hf. apply resting_statement. intros n d d' x. destruct (f _ d) as [d1|] eqn:Ef; [|done]. cbn. intros [= <- _]. by eapply Hf. Qed.
Lemma read_ok {A} (f : ReviewDB -> result A) w w' x : read E f w = (w', inr x) -> f (w_db w') = Ok x /\ rests w w'.
Proof.
  intros H. pose proof (resting_read f w) as Hr. rewrite H in Hr. split; [|done]. apply statement_ok in H as (d & _ & Hd & _).
  destruct (f d) eqn:Ef; [|done]. cbn in Hd. by injection Hd as <- <-.
Qed.

Lemma bind_ok {A B} (m : M A) (k : A -> M B) w w' b : (m ≫= k) w = (w', inr b) -> exists w1 a, m w = (w1, inr a) /\ k a w1 = (w', inr b).
Proof. unfold mbind, M_bind. destruct (m w) as [w1 [e|a]]; [done|]. eauto. Qed.

Ltac calm_write := intros ? ? ?; first [apply calm_Reserve | apply calm_Mark | apply calm_Note | apply calm_SupersedeUnsent | apply calm_Supersede
  | apply calm_Record | apply calm_RecordGitHubReview | apply calm_MarkStale].
Ltac rest := repeat first
  [ apply resting_ret | apply resting_throw | apply resting_ask | apply resting_read | (apply resting_write; calm_write) | apply resting_attempt
  | (apply resting_bind; [|intros ?]) | (apply resting_reading; apply reading_Reconcile) | progress case_match | assumption ].

Lemma resting_lock_lease o lease : resting (lock_lease E o lease).
Proof. unfold lock_lease, LockAssessmentPublicationJob. rest. Qed.
Lemma resting_note a detail : resting (note_uncertain E a detail).
Proof. unfold note_uncertain. rest. Qed.
Lemma resting_reconcile req : resting (reconcile E req).
Proof. unfold reconcile. rest. Qed.
Lemma resting_preSubmit job lease md a dec req : resting (preSubmit E job lease md a dec req).
Proof.
  unfold preSubmit, get_assessment. apply resting_bind; [apply resting_lock_lease|]. intros _.
  rest; try apply resting_note; try apply resting_reconcile.
Qed.
Lemma resting_job_for job a : resting (job_for E job a).
Proof. unfold job_for, get_assessment. rest. Qed.
Lemma resting_load_request job dec body b : resting (load_request E job dec body b).
Proof. unfold load_request. rest. Qed.
Lemma resting_supersede a : resting (supersedeUnsentFullPublication E a).
Proof.
  unfold supersedeUnsentFullPublication, get_assessment. rest.
  apply resting_statement. intros n d d' x. destruct (SettleAssessmentInTx _ _ _ _ d) eqn:Es; [|done]. cbn. intros [= <- _]. by eapply calm_Settle.
Qed.

Lemma calm_complete_recheck a completion n d d' : complete_recheck E a completion n d = Ok d' -> calm d d'.
Proof.
  unfold complete_recheck. destruct (Complete _ _ _ _ _ _ d) as [d1|] eqn:E1; [|done].
  destruct (SettleAssessmentInTx _ _ _ _ d1) as [d2|] eqn:E2; [|done]. intros H.
  transitivity d1; [by eapply calm_Complete|]. transitivity d2; [by eapply calm_Settle|].
  cbv beta iota in H. destruct (negb _); [injection H as <-; apply rtc_refl|]. destruct (enqueueOn _ _ _ _ _) as [[plane x]|]; [|done]. injection H as <-. by apply calm_other.
Qed.
Lemma calm_record_and_complete a completion r n d d' : record_and_complete E a completion r n d = Ok d' -> calm d d'.
Proof.
  unfold record_and_complete. destruct (RecordPublication _ _ _ _ _ _ _ _ d) as [d1|] eqn:E1; [|done]. cbn. intros H.
  transitivity d1; [by eapply calm_Record|by eapply calm_complete_recheck].
Qed.

(** ** The declaration of a send *)

Lemma GetByID_row o id d a : GetByID o id d = Ok a -> In a (assessments d) /\ ra_OrgID a = o /\ ra_ID a = id.
Proof.
  unfold GetByID, one_row. destruct (select _ _) as [|x l] eqn:Es; [done|]. intros [= ->].
  assert (In a (select (is_assessment o id) (assessments d))) as [Hin Hp]%in_filter_iff by (rewrite Es; by left). unfold is_assessment in Hp. reflect_bools. done.
Qed.

(** The row of an identity is the known one. *)
Lemma known_row a b d rs : ledger (assessments d) rs -> known a d -> In b (assessments d) -> ra_ID b = ra_ID a -> ra_Capture b = ra_Capture a.
Proof.
  intros Hl (c & Hc & Ec) Hb Eid. rewrite <- Ec. f_equal. eapply same_row; [apply Hl|done..|]. unfold ra_ID in *. by rewrite Ec.
Qed.

Lemma Mark_row o id g i d d' : MarkPublicationAttemptUncertain o id g i d = Ok d' ->
  exists b b', In b (assessments d) /\ ra_ID b = id /\ ~ sent b /\ In b' (assessments d') /\ ra_Capture b' = ra_Capture b /\ sent b'.
Proof.
  unfold MarkPublicationAttemptUncertain, write_assessment. destruct (exists_row _ _) eqn:Ex; [|done]. intros [= <-].
  apply exists_row_true in Ex as (b & Hb & Hp). exists b, (b <| ra_PublicationState := CodeReviewPublicationUncertain |>).
  split; [done|]. split; [|split; [|split]].
  - unfold same_inputs, is_assessment in Hp. reflect_bools. done.
  - reflect_bools. match goal with H : publishing _ _ = true |- _ => apply publishing_spec in H as [_ Hs] end. unfold sent. rewrite Hs. by intros [].
  - unfold set_assessments, update. cbn. apply in_map_iff. exists b. by rewrite Hp.
  - split; [done|]. by left.
Qed.

Definition holds (w : World) : Prop := ledger (assessments (w_db w)) (reviews w).

(** What a declared send leaves: the row says so, and the marker is nowhere. *)
Lemma mark_spec a w w' x : mine a -> holds w -> known a (w_db w) ->
  write E (fun _ => MarkPublicationAttemptUncertain (ra_OrgID a) (ra_ID a) (ra_Generation a) (ra_InputDigest a)) w = (w', inr x) ->
  known_sent a (w_db w') /\ unpublished (ra_PublicationKey a) (reviews w').
Proof.
  intros Hm Hl Hk H. apply statement_ok in H as (d & Hc & Hd & Hg). destruct (MarkPublicationAttemptUncertain _ _ _ _ d) as [d1|] eqn:Em; [|done].
  cbn in Hd. injection Hd as -> _. apply Mark_row in Em as (b & b' & Hb & Eid & Hns & Hb' & Ec & Hs).
  pose proof (ledger_calm _ _ _ _ _ _ _ Hc Hl) as Hl'. pose proof (known_row a b d _ Hl' (known_calm _ _ _ _ _ _ Hc Hk) Hb Eid) as Eb.
  split; [exists b'; split; [done|]; by rewrite Ec|]. unfold reviews. rewrite Hg.
  replace (ra_PublicationKey a) with (ra_PublicationKey b) by (unfold ra_PublicationKey; by rewrite Eb).
  eapply (lg_marks _ _ _ _ _ _ Hl'); [done| |done]. unfold ReviewLedger.mine, org_pr, ra_OrgID, ra_PullRequestID in *. by rewrite Eb.
Qed.

Lemma holds_rests w w' : rests w w' -> holds w -> holds w'.
Proof. apply ledger_rests. Qed.
Lemma resting_ok {A} (m : M A) w w' r : resting m -> m w = (w', r) -> rests w w'.
Proof. intros H Hm. specialize (H w). by rewrite Hm in H. Qed.
Lemma known_rests a w w' : rests w w' -> known a (w_db w) -> known a (w_db w').
Proof. intros [H _]. by apply known_calm with (1 := H). Qed.

(** The current row of a known assessment. *)
Lemma current_row a w w' c : holds w -> known a (w_db w) -> get_assessment E (ra_OrgID a) (ra_ID a) w = (w', inr c) ->
  rests w w' /\ In c (assessments (w_db w')) /\ ra_Capture c = ra_Capture a.
Proof.
  intros Hl Hk [H Hr]%read_ok. apply GetByID_row in H as (Hin & _ & Eid). split; [done|]. split; [done|].
  eapply known_row; [by eapply holds_rests|by eapply known_rests|done..].
Qed.

Lemma preSubmit_spec job lease md a dec req w w' b : mine a -> holds w -> known a (w_db w) ->
  preSubmit E job lease md a dec req w = (w', inr (Proceed b)) ->
  known_sent a (w_db w') /\ (b = true -> unpublished (ra_PublicationKey a) (reviews w')).
Proof.
  intros Hm Hl Hk H. unfold preSubmit in H. apply bind_ok in H as (w1 & [] & H1 & H).
  apply resting_ok in H1; [|apply resting_lock_lease]. pose proof (holds_rests _ _ H1 Hl) as Hl1. pose proof (known_rests _ _ _ H1 Hk) as Hk1.
  apply bind_ok in H as (w2 & c & H2 & H). apply current_row in H2 as (H2 & Hc & Ec); [|done..].
  pose proof (holds_rests _ _ H2 Hl1) as Hl2. pose proof (known_rests _ _ _ H2 Hk1) as Hk2. clear Hl Hk H1 Hl1 Hk1 H2.
  match type of H with (if ?x then _ else _) _ = _ => destruct x end; [done|].
  destruct (bool_decide (ra_PublicationState c = CodeReviewPublicationUncertain)) eqn:Eu, (m_GitHubReviewID md) as [kn|].
  1: { apply bind_ok in H as (w3 & [] & _ & H). apply bind_ok in H as (w4 & [r|] & _ & H); [|done]. by destruct (_ || _) in H. }
  all: apply bind_ok in H as (w3 & fr & H3 & H).
  all: apply resting_ok in H3; [|by rest]; pose proof (holds_rests _ _ H3 Hl2) as Hl3; pose proof (known_rests _ _ _ H3 Hk2) as Hk3.
  all: destruct fr as [e|[]].
  1, 3, 5: exfalso; destruct (_ && _) in H; [done|try done].
  1: { cbn in H. apply bind_ok in H as (w4 & [r|] & _ & H); [done|]. by apply bind_ok in H as (? & ? & _ & H). }
  all: apply bind_ok in H as (w4 & [] & H4 & H); apply resting_ok in H4; [|by rest].
  1: { injection H as <- <-. split; [|done]. apply bool_decide_eq_true in Eu. eapply known_sent_calm; [by etransitivity; [apply H3|apply H4]|].
       exists c. split; [done|]. split; [done|]. by left. }
  all: apply bind_ok in H as (w5 & [] & H5 & H); injection H as <- <-.
  all: assert (ra_OrgID c = ra_OrgID a /\ ra_ID c = ra_ID a /\ ra_Generation c = ra_Generation a /\ ra_InputDigest c = ra_InputDigest a)
         as (E1 & E2 & E3 & E4) by (unfold ra_OrgID, ra_ID, ra_Generation, ra_InputDigest; by rewrite Ec); rewrite E1, E2, E3, E4 in H5.
  all: apply mark_spec in H5 as [? ?]; [done|done|by eapply holds_rests|by eapply known_rests].
Qed.

(** ** The submission under the lock *)

Lemma Restore_other o id g i detail d d' : RestoreRejectedPublication o id g i detail d = Ok d' ->
  silent d d' /\ forall b', In b' (assessments d') -> ~ sent b' -> forall b, In b (assessments d) -> ra_Capture b = ra_Capture b' -> sent b ->
    ra_ID b = id \/ ~ List.NoDup (map ra_ID (assessments d)).
Proof.
  unfold RestoreRejectedPublication. case_bool_decide as Hd; [done|]. intros H. split; [by eapply silent_write; [|exact H]|].
  unfold write_assessment in H. destruct (exists_row _ _); [|done]. injection H as <-. intros b' Hb' Hns b Hb Ec Hs.
  unfold set_assessments, update in Hb'. cbn in Hb'. apply in_map_iff in Hb' as (b0 & <- & Hb0).
  destruct (decide (ra_ID b = id)) as [|Hne]; [by left|right]. intros Hn. match type of Hns with context [if ?x then _ else _] => destruct x eqn:Ex end.
  - assert (ra_ID b0 = id) by (unfold same_inputs, is_assessment in Ex; reflect_bools; done). apply Hne. unfold ra_ID in *. rewrite Ec. done.
  - apply Hns. rewrite <- (same_row _ b b0 Hn Hb Hb0); [done|]. unfold ra_ID. by rewrite Ec.
Qed.

Lemma restore_holds c detail w w' r : mine c -> holds w -> known c (w_db w) -> unpublished (ra_PublicationKey c) (reviews w) ->
  write E (fun _ => RestoreRejectedPublication (ra_OrgID c) (ra_ID c) (ra_Generation c) (ra_InputDigest c) detail) w = (w', r) ->
  holds w'.
Proof.
  intros Hm Hl Hk Hu H. unfold write, statement in H. set (d := p_others E (w_step w) (w_db w)) in *.
  assert (calm (w_db w) d) as Hc by apply HE. pose proof (ledger_calm _ _ _ _ _ _ _ Hc Hl) as Hld. pose proof (known_calm _ _ _ _ _ _ Hc Hk) as Hkd.
  assert (forall d', RestoreRejectedPublication (ra_OrgID c) (ra_ID c) (ra_Generation c) (ra_InputDigest c) detail d = Ok d' ->
    ledger (assessments d') (reviews w)) as Hres.
  { intros d' Hd. pose proof (Restore_other _ _ _ _ _ _ _ Hd) as [Hsil Hoth]. eapply ledger_step; [apply review_op_rows; by eapply op_restore| | |exact Hld].
    - by eapply silent_plain; [|apply Hld].
    - intros b b' Hb Hmb Hs Hb' H1 H2. destruct (Hoth b' Hb' H2 b Hb) as [Eid|Hn]; [by symmetry; eapply row_step_capture|done| |by destruct Hn; apply Hld].
      pose proof (known_row c b d _ Hld Hkd Hb Eid) as Eb. unfold ra_PublicationKey in *. by rewrite Eb. }
  destruct (p_fate E (w_step w)); [|by injection H as <- _|].
  all: destruct (RestoreRejectedPublication _ _ _ _ _ d) as [d'|] eqn:Er; cbn in H; injection H as <- _; try exact Hld; apply (Hres d' eq_refl).
Qed.

(** What a submission needs when it starts. *)
Record ready (a : CodeReviewAssessment) (req : SubmitReviewRequest) (started : bool) (w : World) : Prop := {
  rdy_mine : mine a;
  rdy_holds : holds w;
  rdy_sent : known_sent a (w_db w);
  rdy_started : started = true -> unpublished (ra_PublicationKey a) (reviews w);
  rdy_key : q_OutputKey req = ra_PublicationKey a;
  rdy_target : target (assessments (w_db w)) a (q_ExistingReviewID req);
  rdy_plain : plain_request (p_history E) req
}.

Lemma submission_holds a c req started w w' r : key_space -> ready a req started w -> ra_Capture c = ra_Capture a ->
  catch (SubmitReview (p_history E) (p_token E) req) (reconcileRejectedCodeReviewPublication E c started) w = (w', r) -> holds w'.
Proof.
  intros KS [Hm Hl (b & Hb & Eb & Hs) Hst Hk Ht Hp] Ec H. unfold catch in H.
  destruct (SubmitReview _ _ req w) as [w1 r1] eqn:Es. apply SubmitReview_spec in Es; [|done].
  assert (ra_PublicationKey b = ra_PublicationKey a) as Ekb by (unfold ra_PublicationKey; by rewrite Eb).
  assert (holds w1) as Hl1.
  { unfold holds. rewrite (sb_db _ _ _ _ Es). eapply ledger_submit; [exact _|exact KS|exact Hl|exact Es|exact Hb| |exact Hs|congruence|by eapply target_capture].
    unfold ReviewLedger.mine, org_pr, ra_OrgID, ra_PullRequestID in *. by rewrite Eb. }
  destruct r1 as [e|x]; [|by injection H as <- _]. unfold reconcileRejectedCodeReviewPublication in H.
  destruct started, (is_problem e ErrReviewPublicationRejected) eqn:Ee; try by injection H as <- _. cbn in H.
  pose proof (sb_rejected _ _ _ _ Es Ee) as Hrej. specialize (Hst eq_refl).
  unfold mbind, M_bind, attempt in H. destruct (write E _ w1) as [w2 r2] eqn:Ew.
  assert (w' = w2) as -> by (by destruct r2; injection H as <- _).
  assert (ra_PublicationKey c = ra_PublicationKey a) as Ekc by (unfold ra_PublicationKey; by rewrite Ec).
  eapply restore_holds; [|exact Hl1| | |exact Ew].
  - unfold ReviewLedger.mine, org_pr, ra_OrgID, ra_PullRequestID in *. by rewrite Ec.
  - rewrite (sb_db _ _ _ _ Es). exists b. split; [done|]. congruence.
  - rewrite Ekc. destruct Hst as [E1 E2]. split; apply incl_l_nil; [rewrite <- E1|rewrite <- E2]; apply Hrej.
Qed.

(** ** Full reviews *)

Lemma rest_holds {A} (m : M A) w : resting m -> holds w -> holds (m w).1.
Proof. intros H. by apply holds_rests. Qed.
Lemma bind_holds {A B} (m : M A) (k : A -> M B) w : (forall w1 r, m w = (w1, r) -> holds w1) ->
  (forall w1 a, m w = (w1, inr a) -> holds (k a w1).1) -> holds ((m ≫= k) w).1.
Proof. intros H1 H2. unfold mbind, M_bind. destruct (m w) as [w1 [e|a]]; [by eapply H1|by apply H2]. Qed.
Lemma bind_rest_holds {A B} (m : M A) (k : A -> M B) w : resting m -> holds w ->
  (forall w1 a, rests w w1 -> m w = (w1, inr a) -> holds (k a w1).1) -> holds ((m ≫= k) w).1.
Proof.
  intros Hm Hw Hk. apply bind_holds.
  - intros w1 r H. eapply holds_rests; [by eapply resting_ok|done].
  - intros w1 a H. apply Hk; [by eapply resting_ok|done].
Qed.

Lemma known_keys a w : mine a -> holds w -> known a (w_db w) -> Keys (ra_PublicationKey a).
Proof.
  intros Hm Hl (b & Hb & Ec). replace (ra_PublicationKey a) with (ra_PublicationKey b) by (unfold ra_PublicationKey; by rewrite Ec).
  apply (lg_plain _ _ _ _ _ _ Hl b Hb). unfold ReviewLedger.mine, org_pr, ra_OrgID, ra_PullRequestID in *. by rewrite Ec.
Qed.
Lemma target_rests a t w w' : rests w w' -> holds w -> known a (w_db w) -> target (assessments (w_db w)) a t -> target (assessments (w_db w')) a t.
Proof. intros [Hc _] Hl. by eapply target_calm. Qed.

(** The publication that [a] follows, as it is read. *)
Lemma previous_row a id w w' p : mine a -> holds w -> known a (w_db w) -> c_PreviousPublishedAssessmentID (ra_Capture a) = Some id ->
  get_assessment E (ra_OrgID a) id w = (w', inr p) ->
  rests w w' /\ target (assessments (w_db w')) a (default 0 (ra_GitHubReviewID p)) /\ unmarked (default "" (ra_RenderedBody p)).
Proof.
  intros Hm Hl Hk Ep [H Hr]%read_ok. apply GetByID_row in H as (Hin & _ & Eid). split; [done|].
  pose proof (holds_rests _ _ Hr Hl) as Hl'. destruct (known_rests _ _ _ Hr Hk) as (c & Hc & Ec).
  destruct (ro_previous _ (lg_rows _ _ _ _ _ _ Hl') c Hc) as (b & Hb & Hf & _); [by rewrite Ec, Ep|].
  assert (p = b) as ->.
  { eapply same_row; [apply Hl'|done..|]. destruct Hf as [_ Hf]. rewrite Ec, Ep in Hf. injection Hf as <-. done. }
  split.
  - eapply target_capture; [by symmetry|]. by eapply target_previous.
  - apply (lg_plain _ _ _ _ _ _ Hl' b Hb). destruct Hf as [Hf _]. unfold ReviewLedger.mine in *. rewrite Hf.
    unfold org_pr, ra_OrgID, ra_PullRequestID in *. by rewrite Ec.
Qed.

Lemma job_for_spec job a w w' job' : mine a -> holds w -> known a (w_db w) ->
  (c_PreviousPublishedAssessmentID (ra_Capture a) = None -> default 0 (rj_ExistingGitHubReviewID job) = payload_review (ra_ID a)) ->
  unmarked (default "" (rj_PreviousReviewBody job)) -> job_for E job a w = (w', inr job') ->
  rj_OutputKey job' = ra_PublicationKey a /\ target (assessments (w_db w')) a (default 0 (rj_ExistingGitHubReviewID job'))
  /\ unmarked (default "" (rj_PreviousReviewBody job')).
Proof.
  intros Hm Hl Hk Hpay Hbody H. unfold job_for in H. destruct (c_PreviousPublishedAssessmentID _) as [id|] eqn:Ep.
  - apply bind_ok in H as (w1 & p & H1 & H). apply previous_row in H1 as (_ & Ht & Hu); [|done..].
    match type of H with (if ?x then _ else _) _ = _ => destruct x end; [done|]. injection H as <- <-. done.
  - injection H as <- <-. split; [done|]. split; [|done]. cbn. rewrite (Hpay eq_refl). by constructor.
Qed.

Lemma request_plain req a w : key_space -> mine a -> holds w -> known a (w_db w) -> q_OutputKey req = ra_PublicationKey a ->
  unmarked (q_Body req) -> unmarked (q_PreviousBody req) -> plain_request (p_history E) req.
Proof.
  intros KS Hm Hl Hk Ek Hb Hp. split.
  - unfold visible_body. destruct (0 <? _); [apply HE; [by apply unmarked_trim|done]|by do 2 apply unmarked_trim].
  - rewrite Ek. intros Ed. pose proof (known_keys _ _ Hm Hl Hk) as Kk. by apply (ks_apart _ KS _ _ Kk Kk).
Qed.

Lemma locked_submit_holds job lease md a dec req w : key_space -> mine a -> holds w -> known a (w_db w) -> q_OutputKey req = ra_PublicationKey a ->
  target (assessments (w_db w)) a (q_ExistingReviewID req) -> plain_request (p_history E) req -> holds (locked_submit E job lease md (Some a) dec req w).1.
Proof.
  intros KS Hm Hl Hk Ek Ht Hp. unfold locked_submit. apply bind_rest_holds; [apply resting_preSubmit|done|]. intros w1 pre Hr Hpre.
  pose proof (holds_rests _ _ Hr Hl) as Hl1. destruct pre as [x|b]; [done|]. destruct (preSubmit_spec _ _ _ _ _ _ _ _ _ Hm Hl Hk Hpre) as [Hs Hst].
  apply bind_holds; [|intros w2 x H; cbn]; intros; (eapply submission_holds; [exact KS| |reflexivity|eassumption]); split; try done; by eapply target_rests.
Qed.

Lemma lock_holds {A} (fn : M (A * (nat -> ReviewDB -> result ReviewDB))) w : holds w ->
  (forall w1, rests w w1 -> holds (fn w1).1) -> (forall w1 w2 a f, fn w1 = (w2, inr (a, f)) -> forall n d d', f n d = Ok d' -> calm d d') ->
  holds (RunWithGitHubPublicationLock E fn w).1.
Proof.
  intros Hw Hfn Hf. unfold RunWithGitHubPublicationLock. apply bind_rest_holds; [apply resting_read|done|]. intros w1 _ Hr _. apply bind_holds.
  - intros w2 r H. specialize (Hfn w1 Hr). by rewrite H in Hfn.
  - intros w2 [a f] H. specialize (Hfn w1 Hr). rewrite H in Hfn. apply rest_holds; [|done]. apply resting_bind; [|intros; apply resting_ret].
    apply resting_statement. intros n d d' x Hd. destruct (f n d) eqn:Ef; [|done]. injection Hd as <- _. by eapply Hf.
Qed.

Lemma locked_submit_writes job lease md a dec req w w' x f : locked_submit E job lease md a dec req w = (w', inr (x, f)) -> f = no_writes.
Proof.
  unfold locked_submit. destruct a as [a|]; intros (w1 & y & _ & H)%bind_ok; [|by injection H].
  destruct y as [y|b]; [by injection H|]. apply bind_ok in H as (w2 & z & _ & H). by injection H.
Qed.

Lemma full_submit_holds job lease md a dec body w : key_space -> mine a -> holds w -> known a (w_db w) -> rj_OutputKey job = ra_PublicationKey a ->
  target (assessments (w_db w)) a (default 0 (rj_ExistingGitHubReviewID job)) -> unmarked body -> unmarked (default "" (rj_PreviousReviewBody job)) ->
  holds (submitCodeReviewToGitHubWithOptions E job lease md (Some a) dec body w).1.
Proof.
  intros KS Hm Hl Hk Ek Ht Hb Hp. unfold submitCodeReviewToGitHubWithOptions. destruct (negb (p_publisher E)); [done|]. rewrite andb_false_r.
  apply bind_rest_holds; [apply resting_load_request|done|]. intros w1 req Hr Hreq.
  assert (exists repo p cs, req = submit_request job repo p dec body cs true) as (repo & p & cs & ->).
  { unfold load_request in Hreq. apply bind_ok in Hreq as (w2 & repo & _ & H). destruct (_ =? 0); [done|].
    apply bind_ok in H as (w3 & p & _ & H). apply bind_ok in H as (w4 & cs & _ & H). injection H as _ <-. eauto. }
  pose proof (holds_rests _ _ Hr Hl) as Hl1. pose proof (known_rests _ _ _ Hr Hk) as Hk1. pose proof (target_rests _ _ _ _ Hr Hl Hk Ht) as Ht1.
  assert (holds (RunWithGitHubPublicationLock E (locked_submit E job lease md (Some a) dec (submit_request job repo p dec body cs true)) w1).1) as Hlock.
  { apply lock_holds; [done| |].
    - intros w2 Hr2. apply locked_submit_holds; try done; [by eapply holds_rests|by eapply known_rests|by eapply target_rests|].
      by eapply request_plain.
    - intros w2 w3 x f Hx n d d' Hd. rewrite (locked_submit_writes _ _ _ _ _ _ _ _ _ _ Hx) in Hd. injection Hd as <-. apply rtc_refl. }
  apply bind_holds; [by intros w2 r H; rewrite H in Hlock|]. intros w2 [res rec] H. rewrite H in Hlock. apply rest_holds; [|done]. rest.
Qed.

Lemma resting_supersede_stale {A} a e : resting (supersede_stale (A:=A) E a e).
Proof. unfold supersede_stale. destruct (_ || _); [apply resting_bind; [apply resting_supersede|]|]; intros; apply resting_throw. Qed.

Lemma full_run_holds job lease md a dec body w : key_space -> mine a -> holds w -> known a (w_db w) ->
  (c_PreviousPublishedAssessmentID (ra_Capture a) = None -> default 0 (rj_ExistingGitHubReviewID job) = payload_review (ra_ID a)) ->
  unmarked body -> unmarked (default "" (rj_PreviousReviewBody job)) ->
  holds (submitFullReviewWithAssessment E job lease md (Some a) dec body w).1.
Proof.
  intros KS Hm Hl Hk Hpay Hb Hp. unfold submitFullReviewWithAssessment.
  assert (holds (submit_assessment E job lease md a dec body w).1) as Hrun; [|by destruct (ra_PublicationState a ==? _), (ra_GitHubReviewID a)].
  unfold submit_assessment. apply bind_rest_holds; [apply resting_job_for|done|]. intros w1 job' Hr Hj.
  destruct (job_for_spec _ _ _ _ _ Hm Hl Hk Hpay Hp Hj) as (Ek & Ht & Hu).
  pose proof (full_submit_holds job' lease md a dec body w1 KS Hm (holds_rests _ _ Hr Hl) (known_rests _ _ _ Hr Hk) Ek Ht Hb Hu) as Hs.
  assert (forall w2 r, catch (submitCodeReviewToGitHubWithOptions E job' lease md (Some a) dec body) (supersede_stale E a) w1 = (w2, r) -> holds w2) as Hc.
  { intros w2 r H. unfold catch in H. destruct (submitCodeReviewToGitHubWithOptions _ _ _ _ _ _ _ w1) as [w3 [e|x]]; [|by injection H as <- _].
    eapply holds_rests; [|exact Hs]. eapply resting_ok; [apply resting_supersede_stale|exact H]. }
  apply bind_holds; [exact Hc|]. intros w2 x H. apply rest_holds; [rest|by eapply Hc].
Qed.

(** ** Evidence rechecks *)

Definition recheck_previous (a : CodeReviewAssessment) : M (option CodeReviewAssessment) :=
  match c_PreviousPublishedAssessmentID (ra_Capture a) with
  | Some id => p ← get_assessment E (ra_OrgID a) id; mret (Some p)
  | None => mret None
  end.
Lemma resting_recheck_previous a : resting (recheck_previous a).
Proof. unfold recheck_previous, get_assessment. rest. Qed.

Lemma recheck_previous_spec a w w' p repo n dec body : mine a -> holds w -> known a (w_db w) ->
  (c_PreviousPublishedAssessmentID (ra_Capture a) = None -> payload_review (ra_ID a) = 0) -> recheck_previous a w = (w', inr p) ->
  target (assessments (w_db w')) a (q_ExistingReviewID (recheck_request a repo n dec body p)) /\ unmarked (q_PreviousBody (recheck_request a repo n dec body p)).
Proof.
  intros Hm Hl Hk Hpay H. unfold recheck_previous in H. destruct (c_PreviousPublishedAssessmentID _) as [id|] eqn:Ep.
  - apply bind_ok in H as (w1 & x & H1 & H). injection H as <- <-. by apply previous_row in H1 as (_ & ? & ?).
  - injection H as <- <-. split; [|done]. cbn. rewrite <- (Hpay eq_refl). by constructor.
Qed.

Lemma publishing_sent w c : holds w -> In c (assessments (w_db w)) -> ra_Status c = CodeReviewAssessmentPublishing ->
  ra_PublicationState c <> CodeReviewPublicationReserved -> sent c.
Proof.
  intros Hl Hc Es Hr. pose proof (ro_rows _ (lg_rows _ _ _ _ _ _ Hl)) as Hok. rewrite List.Forall_forall in Hok.
  destruct (ok_phase _ (Hok c Hc)) as [p Hp]. unfold phase_of, sent in *. rewrite Es in Hp. destruct (ra_PublicationState c); auto; done.
Qed.

Lemma locked_recheck_holds a lease repo n dec body completion w : key_space -> mine a -> holds w -> known a (w_db w) ->
  (c_PreviousPublishedAssessmentID (ra_Capture a) = None -> payload_review (ra_ID a) = 0) -> unmarked body ->
  holds (locked_recheck E a lease repo n dec body completion w).1.
Proof.
  intros KS Hm Hl Hk Hpay Hb. unfold locked_recheck. apply bind_rest_holds; [apply resting_lock_lease|done|]. intros w1 _ H1 _.
  pose proof (holds_rests _ _ H1 Hl) as Hl1. pose proof (known_rests _ _ _ H1 Hk) as Hk1.
  apply bind_rest_holds; [apply resting_read|done|]. intros w2 c H2 Hc. apply current_row in Hc as (_ & Hc & Ec); [|done..].
  pose proof (holds_rests _ _ H2 Hl1) as Hl2. pose proof (known_rests _ _ _ H2 Hk1) as Hk2. clear H1 H2 Hl Hk Hl1 Hk1.
  destruct (ra_Status c ==? CodeReviewAssessmentCompleted); [done|].
  destruct (_ || _) eqn:Eg; [done|]. destruct (ra_PublicationState c ==? CodeReviewPublicationConfirmed) eqn:Econf; [done|].
  fold (recheck_previous a). apply bind_rest_holds; [apply resting_recheck_previous|done|]. intros w3 p H3 Hprev.
  destruct (recheck_previous_spec _ _ _ _ repo n dec body Hm Hl2 Hk2 Hpay Hprev) as [Ht Hpb].
  pose proof (holds_rests _ _ H3 Hl2) as Hl3. pose proof (known_rests _ _ _ H3 Hk2) as Hk3.
  apply bind_rest_holds; [rest|done|]. intros w4 cap H4 _. pose proof (holds_rests _ _ H4 Hl3) as Hl4. pose proof (known_rests _ _ _ H4 Hk3) as Hk4.
  pose proof (target_rests _ _ _ _ H4 Hl3 Hk3 Ht) as Ht4.
  repeat (match goal with |- holds ((if (_ && _) then _ else _) _).1 => destruct (_ && _) end; [done|]).
  match goal with |- holds ((if ?x then _ else _) _).1 => destruct x end.
  2: { apply rest_holds; [|done]. apply resting_bind; [apply resting_reconcile|]. intros [r|]; [apply resting_ret|].
       apply resting_bind; [destruct (_ && _); [apply resting_note|apply resting_ret]|]. intros. apply resting_throw. }
  apply bind_rest_holds; [rest|done|]. intros w5 [] H5 Hw.
  pose proof (holds_rests _ _ H5 Hl4) as Hl5. pose proof (known_rests _ _ _ H5 Hk4) as Hk5. pose proof (target_rests _ _ _ _ H5 Hl4 Hk4 Ht4) as Ht5.
  assert (ready a (recheck_request a repo n dec body p) (ra_PublicationState c ==? CodeReviewPublicationReserved) w5) as Hready.
  { split; try done; [| |by eapply request_plain].
    - destruct (ra_PublicationState c ==? CodeReviewPublicationReserved) eqn:Es; [by apply mark_spec in Hw as [? _]|].
      eapply known_sent_calm; [etransitivity; [apply H3|etransitivity; [apply H4|apply H5]]|]. exists c. split; [done|]. split; [done|].
      apply (publishing_sent _ _ Hl2 Hc); reflect_bools; done.
    - intros Es. rewrite Es in Hw. by apply mark_spec in Hw as [_ ?]. }
  apply bind_holds; [|intros w6 x H; cbn]; intros; (eapply submission_holds; [exact KS|exact Hready|exact Ec|eassumption]).
Qed.

Lemma locked_recheck_writes a lease repo n dec body completion w w' x f :
  locked_recheck E a lease repo n dec body completion w = (w', inr (x, f)) -> forall m d d', f m d = Ok d' -> calm d d'.
Proof.
  intros H m d d' Hd. assert (f = no_writes \/ f = complete_recheck E a completion \/ exists r, f = record_and_complete E a completion r) as Hf.
  { unfold locked_recheck in H. apply bind_ok in H as (w1 & [] & _ & H). apply bind_ok in H as (w2 & c & _ & H).
    destruct (_ ==? _) in H; [injection H as _ <-; by left|]. destruct (_ || _) in H; [done|].
    destruct (_ ==? CodeReviewPublicationConfirmed) in H; [injection H as _ <-; by right; left|].
    apply bind_ok in H as (w3 & p & _ & H). apply bind_ok in H as (w4 & cap & _ & H).
    repeat (match type of H with (if (_ && _) then _ else _) _ = _ => destruct (_ && _) in H end; [done|]).
    match type of H with (if ?x then _ else _) _ = _ => destruct x end; apply bind_ok in H as (w5 & y & _ & H).
    - apply bind_ok in H as (w6 & r & _ & H). injection H as _ <-. eauto.
    - destruct y as [r|]; [injection H as _ <-; eauto|]. by apply bind_ok in H as (w6 & [] & _ & H). }
  destruct Hf as [->|[->|[r ->]]]; [injection Hd as <-; apply rtc_refl|by eapply calm_complete_recheck|by eapply calm_record_and_complete].
Qed.

Lemma recheck_run_holds a lease n dec body completion w : key_space -> mine a -> holds w -> known a (w_db w) ->
  (c_PreviousPublishedAssessmentID (ra_Capture a) = None -> payload_review (ra_ID a) = 0) -> unmarked body -> unmarked (r_RenderedBody completion) ->
  holds (publishCodeReviewRecheck E a lease n dec body completion w).1.
Proof.
  intros KS Hm Hl Hk Hpay Hb Hc. unfold publishCodeReviewRecheck. destruct (negb (p_publisher E)); [done|].
  apply bind_rest_holds; [apply resting_read|done|]. intros w1 repo H1 _. pose proof (holds_rests _ _ H1 Hl) as Hl1. pose proof (known_rests _ _ _ H1 Hk) as Hk1.
  apply bind_rest_holds; [|done|].
  { destruct (_ ==? _); [|apply resting_ret]. apply resting_bind; [|intros; rest]. apply resting_write. intros t d d'. by apply calm_Stage. }
  intros w2 _ H2 _. pose proof (holds_rests _ _ H2 Hl1) as Hl2. pose proof (known_rests _ _ _ H2 Hk1) as Hk2.
  assert (holds (RunWithGitHubPublicationLock E (locked_recheck E a lease repo n dec body completion) w2).1) as Hlock.
  { apply lock_holds; [done| |].
    - intros w3 H3. apply locked_recheck_holds; try done; [by eapply holds_rests|by eapply known_rests].
    - intros w3 w4 x f Hx. by eapply locked_recheck_writes. }
  unfold catch. destruct (RunWithGitHubPublicationLock _ _ w2) as [w3 [e|x]]; [|done]. cbn [fst] in Hlock.
  destruct (is_problem e _); [|done]. apply rest_holds; [rest|done].
Qed.

End Run.
