(* ===== verification/ReviewScenario.v ===== *)
(** * A concrete publication

    A pull request on a GitHub that follows its laws and fails as a tape says,
    and one assessment that is captured, reviewed and published: the first
    attempt creates the review and loses the reply, the second one finds it.
    The witnesses of [ReviewProperties] evaluate the model on these states. *)

From S2P Require Import Prelude GoRuntime GoStrings Sql Tables JobStore Scenario Automation PrHealth.
From S2P Require Import Review ReviewMarkers ReviewStore ReviewSteps ReviewSubmit ReviewSubmitSpec ReviewPublish.
From stdpp Require Import base option list strings gmap.
From Stdlib Require Import Finite.

Open Scope string_scope.
Open Scope Z_scope.

(** ** A GitHub *)

(** How the next request goes: served, lost on the way, lost on the way back,
    or refused. *)
Inductive luck := Served | NeverArrived | ReplyLost | Refused422.
Record Hub := MkHub { hub_reviews : list (string * string * string); hub_tape : list luck }.

Definition hub_item (i : nat) (r : string * string * string) : githubReviewListItem := MkReviewItem r.1.1 r.1.2 (Z.of_nat (S i)) "" r.2.
Definition hub_list (l : list (string * string * string)) : list githubReviewListItem := imap hub_item l.
Definition hub_state (event : string) : string := if event ==? "APPROVE" then "APPROVED" else "COMMENTED".
Definition hub_put (id : Z) (body : string) (l : list (string * string * string)) : list (string * string * string) :=
  imap (fun i r => if Z.of_nat (S i) =? id then (r.1, body) else r) l.

Definition serve (req : GHRequest) (l : list (string * string * string)) : list (string * string * string) * GHReply :=
  match req with
  | ListReviews n => (l, Replied 200 (ReviewList (take per_page (drop (n * per_page) (hub_list l)))
                                        (bool_decide (S n * per_page < length (hub_list l))%nat)))
  | ListReviewComments _ | ListPullComments _ => (l, Replied 200 (CommentList [] false))
  | PostReview commit body event _ => ((l ++ [(commit, hub_state event, body)])%list, Replied 200 (ReviewReceipt (Z.of_nat (S (length l))) "url"))
  | PutReview id body => if bool_decide (id ∈ map ri_ID (hub_list l)) then (hub_put id body l, Replied 200 (ReviewReceipt id "url")) else (l, Replied 404 NoBody)
  | PostComment _ c => (l, Replied 201 (CommentReceipt (MkCommentItem 1 (nc_Path c) (nc_Line c) (nc_Body c))))
  | PatchComment _ _ => (l, Replied 200 NoBody)
  end.
Definition hub_call (req : GHRequest) (h : Hub) : Hub * GHReply :=
  let l := hub_reviews h in
  match hub_tape h with
  | NeverArrived :: tape => (MkHub l tape, Unreachable)
  | Refused422 :: tape => (MkHub l tape, Replied StatusUnprocessableEntity NoBody)
  | ReplyLost :: tape => (MkHub (serve req l).1 tape, Unreachable)
  | Served :: tape => (MkHub (serve req l).1 tape, (serve req l).2)
  | [] => (MkHub (serve req l).1 [], (serve req l).2)
  end.
#[export] Instance hub : GitHub := { GH := Hub; Reviews h := hub_list (hub_reviews h); gh_call := hub_call }.

Lemma hub_ids l : map ri_ID (hub_list l) = map (fun i => Z.of_nat (S i)) (seq 0 (length l)).
Proof.
  assert (forall k, map ri_ID (imap (fun i => hub_item (k + i)) l) = map (fun i => Z.of_nat (S i)) (seq k (length l))) as H; [|exact (H 0%nat)].
  induction l as [|r l IH]; intros k; [done|]. cbn. rewrite Nat.add_0_r. f_equal. rewrite <- (IH (S k)). f_equal. apply imap_ext. intros i x _.
  cbn. by rewrite Nat.add_succ_r.
Qed.
Lemma hub_nodup n : List.NoDup (map (fun i => Z.of_nat (S i)) (seq 0 n)).
Proof. apply Finite.Injective_map_NoDup; [intros x y; lia|apply List.seq_NoDup]. Qed.
Lemma hub_quiet req l : writes_review req = false -> (serve req l).1 = l.
Proof. by destruct req. Qed.
Lemma hub_post commit body event l : hub_list (l ++ [(commit, hub_state event, body)]) = (hub_list l ++ [MkReviewItem commit (hub_state event) (Z.of_nat (S (length l))) "" body])%list.
Proof. unfold hub_list. rewrite imap_app. cbn. by rewrite Nat.add_0_r. Qed.
Lemma hub_replace id body l : hub_list (hub_put id body l) = replace_body id body (hub_list l).
Proof.
  unfold hub_list, hub_put, replace_body. change (map ?f ?x) with (f <$> x). rewrite fmap_imap.
  apply list_eq. intros i. rewrite !list_lookup_imap. destruct (l !! i) as [r|]; [|done]. cbn. f_equal. by destruct (_ =? id).
Qed.

#[export] Instance hub_laws : GitHubLaws hub.
Proof.
  split.
  - intros g. cbn [Reviews hub]. rewrite hub_ids. split.
    + apply hub_nodup.
    + apply List.Forall_map with (f := ri_ID) (P := fun i => i <> 0). rewrite hub_ids. apply List.Forall_map, List.Forall_forall. intros; lia.
  - intros req g Hq. cbn. unfold hub_call. destruct (hub_tape g) as [|[] tape]; cbn; rewrite ?hub_quiet by done; apply others_refl.
  - intros n g s b. cbn. unfold hub_call. destruct (hub_tape g) as [|[] tape]; cbn; intros [= <- <-]; auto; done.
  - intros commit body event cs g. cbn. unfold hub_call.
    assert (others (hub_list (hub_reviews g) ++ [MkReviewItem commit (hub_state event) (Z.of_nat (S (length (hub_reviews g)))) "" body])
              (hub_list (hub_reviews g ++ [(commit, hub_state event, body)]))) as Ho by (rewrite hub_post; apply others_refl).
    destruct (hub_tape g) as [|[] tape]; cbn; try (left; split; [apply others_refl|done]);
      right; do 2 eexists; (split; [apply others_refl|]); (split; [exact Ho|]); do 2 (split; [done|]); intros ? ? ?; try done; by intros [= _ <- _].
  - intros id body g. cbn. unfold hub_call.
    assert (others (replace_body id body (hub_list (hub_reviews g))) (hub_list (hub_put id body (hub_reviews g)))) as Ho by (rewrite hub_replace; apply others_refl).
    destruct (hub_tape g) as [|[] tape]; cbn; try (left; split; [apply others_refl|done]).
    all: case_bool_decide as Hin; cbn; [|left; split; [apply others_refl|done]].
    all: right; eexists; (split; [apply others_refl|]); (split; [exact Ho|]); (split; [done|]); (split; [intros _; by apply list_elem_of_In|]).
    all: intros ? ? ?; try done; by intros [= _ <- _].
Qed.

(** ** An assessment *)

Definition key1 : string := "review:1".
Definition cap1 : CodeReviewAssessmentCapture :=
  MkCapture "as1" "org1" "repo1" "pr1" "pol1" "s1" 1 None None None None "b1" "main" "h1" 1 "code" "contract" "intent" "visual" "request" "gate"
    "inputs" (RawJSON (TObj [])) CodeReviewScopeFull CodeReviewRouteInitialFull key1.
Definition outcome1 : CodeReviewAssessmentCompletion :=
  MkCompletion CodeReviewResultExecuted true CodeReviewDecisionApproved true RawEmpty (RawJSON (TObj [])) "Looks good.".
Definition md1 : CodeReviewSessionMetadata :=
  MkMetadata "m1" "org1" "s1" "repo1" "pr1" "pol1" CodeReviewSessionStatusRunning None None None None t0 None.
Definition empty_review : ReviewDB := MkReviewDB [] [] [] [] [] [] [] empty_db.
Definition d_review : ReviewDB :=
  MkReviewDB [] [md1] [MkReviewPR "pr1" "org1" "acme/app" 7] [MkReviewRepo "repo1" "org1" "acme/app" 42] [MkReviewPolicy "pol1" "org1" None] [] [] db_claimed.
Definition created : ReviewDB * (CodeReviewAssessment * bool) :=
  ok (empty_review, (new_assessment t0 cap1 "" "", false)) (Create t0 "fresh1" cap1 d_review).
Definition a1 : CodeReviewAssessment := created.2.1.
Definition d_captured : ReviewDB := created.1.
Definition d_running : ReviewDB := ok empty_review (MarkRunning "org1" "as1" 1 "inputs" d_captured).
Definition d_staged : ReviewDB := ok empty_review (StageOutcome "org1" "as1" 1 "inputs" outcome1 d_running).

(** ** Its publication *)

Definition quiet_env : PubEnv :=
  MkPubEnv (fun _ d => d) (fun _ => Done) (fun _ => t0) (fun _ => "fresh2") (fun _ => true) (fun _ => inr tt) (fun _ => inr tt)
    (fun _ => inr "inputs") (fun _ => inr []) (fun _ => inr tt) (fun _ _ _ _ => "") (fun _ => "rejected") true true true.
Definition review_job : ReviewJob := MkReviewJob "org1" "repo1" "pr1" "s1" "h1" key1 "" None None None None None.
Definition lease1 : Lease := MkLease (Some "job1") (Some "tok1").
Definition publish1 : M (codeReviewSubmission * bool) :=
  submitFullReviewWithAssessment quiet_env review_job lease1 md1 (Some a1) CodeReviewDecisionApproved "Looks good.".

Definition w_review (tape : list luck) : World := MkWorld d_review (MkHub [("h0", "COMMENTED", "Nice work")] tape) 0 [].
Definition w_staged (tape : list luck) : World := MkWorld d_staged (MkHub [("h0", "COMMENTED", "Nice work")] tape) 0 [].
(** The reply of the creation is lost; the next attempt finds the review. *)
Definition w_lost : World := (publish1 (w_staged [Served; ReplyLost])).1.
Definition w_published : World := (publish1 w_lost).1.
(** GitHub refuses the review. *)
Definition w_rejected : World := (publish1 (w_staged [Served; Refused422])).1.
