(* ===== verification/ReviewProperties.v ===== *)
(** * Code reviews: what holds

    The table of assessments, their publication on GitHub and the errors of a
    publication run. *)

From S2P Require Import Prelude GoRuntime GoStrings Sql Tables JobStore Scenario Automation AutomationSteps PrHealth.
From S2P Require Import Review ReviewMarkers ReviewStore ReviewSteps ReviewSubmit ReviewSubmitSpec ReviewPublish ReviewLedger ReviewRun ReviewScenario.
From stdpp Require Import base option list strings gmap.

Open Scope string_scope.
Open Scope Z_scope.

(** ** The table *)

Definition any_op (d d' : ReviewDB) : Prop := exists k, review_op d k d'.

Lemma any_ops_ok d d' : rtc any_op d d' -> rows_ok (assessments d) -> rows_ok (assessments d').
Proof. induction 1 as [|d1 d2 d3 [k Hop%review_op_rows] _ IH]; [done|]. intros H. apply IH. by eapply rows_step_ok. Qed.
Lemma no_rows_ok : rows_ok [].
Proof. split; try constructor; done. Qed.


Lemma captured_op : review_op d_review Quiet d_captured.
Proof. apply (op_create _ t0 "fresh1" cap1 _ created.2). by vm_compute. Qed.
Lemma running_op : review_op d_captured Quiet d_running.
Proof. apply (op_running _ "org1" "as1" 1 "inputs"). by vm_compute. Qed.
Lemma staged_op : review_op d_running Quiet d_staged.
Proof. apply (op_stage _ "org1" "as1" 1 "inputs" outcome1). by vm_compute. Qed.


(** C28: The rows refine the publication machine.  A statement moves each row along
    one transition of its kind or leaves its phase, the inputs it was captured
    with never change, and no row disappears: what may have been sent is only
    ever taken back by the record of a rejection, and nothing leaves the
    published phase. *)
Theorem assessments_refine_the_publication_machine d k d' a : review_op d k d' -> rows_ok (assessments d) -> In a (assessments d) ->
  exists a' p p', In a' (assessments d') /\ ra_Capture a' = ra_Capture a /\ phase_of a = Some p /\ phase_of a' = Some p' /\ phase_step k p p'.
Proof.
  intros Hop Hok Ha. destruct (kept_row _ _ _ _ (review_op_rows _ _ _ Hop) Ha) as (a' & Ha' & Hs).
  pose proof (ro_rows _ Hok) as Hall. rewrite List.Forall_forall in Hall. destruct (ok_phase _ (Hall a Ha)) as [p Hp].
  destruct (row_step_phase _ _ _ _ (Hall a Ha) Hs Hp) as (p' & Hp' & Hps). exists a', p, p'. split; [done|]. by rewrite (row_step_capture _ _ _ Hs).
Qed.
Lemma assessments_refine_the_publication_machine_witness : exists a' p p', In a' (assessments d_running) /\ ra_Capture a' = ra_Capture a1
  /\ phase_of a1 = Some p /\ phase_of a' = Some p' /\ phase_step Quiet p p'.
Proof.
  apply (assessments_refine_the_publication_machine d_captured Quiet d_running a1); [exact running_op| |by vm_compute; left].
  apply (any_ops_ok d_review); [apply rtc_once; exists Quiet; exact captured_op|apply no_rows_ok].
Defined.

(** ** Captures are idempotent *)

(** The columns that a completed row keeps. *)
Definition later (a a' : CodeReviewAssessment) : Prop :=
  ra_Capture a' = ra_Capture a /\ (ra_Status a = CodeReviewAssessmentCompleted -> exists detail, a' = a <| ra_FailureDetail := detail |>).
Lemma later_refl a : later a a.
Proof. split; [done|]. intros _. exists (ra_FailureDetail a). by destruct a. Qed.
Lemma later_trans a b c : later a b -> later b c -> later a c.
Proof.
  intros [E1 H1] [E2 H2]. split; [congruence|]. intros Hc. destruct (H1 Hc) as [x ->]. destruct (H2 Hc) as [y ->]. by exists y.
Qed.
Lemma later_step k a a' : row_step k a a' -> later a a'.
Proof.
  intros Hs. split; [by eapply row_step_capture|]. intros Hc. destruct (completed_stays _ _ _ Hs Hc) as [->|H]; [|done]. by apply later_refl.
Qed.
Lemma later_ops d d' a : rtc any_op d d' -> In a (assessments d) -> exists a', In a' (assessments d') /\ later a a'.
Proof.
  intros H. revert a. induction H as [|d1 d2 d3 [k Hop%review_op_rows] _ IH]; intros a Ha; [exists a; split; [done|apply later_refl]|].
  destruct (kept_row _ _ _ _ Hop Ha) as (b & Hb & Hs). destruct (IH b Hb) as (c & Hc & Hl). exists c. split; [done|].
  eapply later_trans; [by eapply later_step|done].
Qed.

Lemma exists_later p p' d d' : rtc any_op d d' -> (forall a a', later a a' -> p a = true -> p' a' = true) ->
  exists_row p (assessments d) = true -> exists_row p' (assessments d') = true.
Proof.
  intros H Hp (a & Ha & Hpa)%exists_row_true. destruct (later_ops _ _ _ H Ha) as (a' & Ha' & Hl). apply exists_row_true. eauto.
Qed.

Lemma later_earlier c id a a' : later a a' -> earlier c id a' = earlier c id a.
Proof. intros [E _]. unfold earlier, ra_OrgID, ra_PullRequestID, ra_ID, ra_Generation. by rewrite E. Qed.
Lemma later_published a a' : later a a' -> published a = true -> published a' = true.
Proof. intros [_ H] Hp. pose proof Hp as [Hc%bool_decide_eq_true _]%andb_true_iff. by destruct (H Hc) as [x ->]. Qed.
Lemma later_baseline c s v g a a' : later a a' -> full_baseline c s v g a = true -> full_baseline c s v g a' = true.
Proof.
  intros [_ H] Hp. assert (ra_Status a = CodeReviewAssessmentCompleted) as Hc by (unfold full_baseline in Hp; reflect_bools; done).
  by destruct (H Hc) as [x ->].
Qed.

(** What [Create] checks before the insert. *)
Definition checked (c : CodeReviewAssessmentCapture) (m : jtree) (d : ReviewDB) : Prop :=
  check_source c m d = Ok tt /\ check_previous c d = Ok tt /\ check_previous_published c d = Ok tt.
Lemma checked_later c m d d' : rtc any_op d d' -> checked c m d -> checked c m d'.
Proof.
  intros H (H1 & H2 & H3). split; [|split].
  - revert H1. unfold check_source. destruct (c_SourceAssessmentID c) as [s|]; [|done]. destruct (policy_identity m) as [[[i v] g]|]; [|done].
    destruct (_ || _); [done|]. destruct (exists_row _ (assessments d)) eqn:Ex; [|done]. intros _.
    by rewrite (exists_later _ (full_baseline c s v g) _ _ H (later_baseline c s v g) Ex).
  - revert H2. unfold check_previous. destruct (c_PreviousAssessmentID c) as [s|]; [|done].
    destruct (exists_row _ (assessments d)) eqn:Ex; [|done]. intros _.
    rewrite (exists_later _ (earlier c s) _ _ H (fun a a' Hl Ha => eq_trans (later_earlier c s a a' Hl) Ha) Ex). done.
  - revert H3. unfold check_previous_published. destruct (c_PreviousPublishedAssessmentID c) as [s|]; [|done].
    destruct (exists_row _ (assessments d)) eqn:Ex; [|done]. intros _.
    apply (exists_later _ (fun a => earlier c s a && published a) _ _ H) in Ex; [by rewrite Ex|].
    intros a a' Hl [Ha Hb]%andb_true_iff. rewrite (later_earlier _ _ _ _ Hl), Ha. by eapply later_published.
Qed.

Lemma capture_equal_id c id m a : assessmentCaptureEqual (c <| c_ID := id |>) m a false = assessmentCaptureEqual c m a false.
Proof. unfold assessmentCaptureEqual. by destruct (canonicalAssessmentManifest _). Qed.
Lemma capture_equal_later c m a a' e : ra_Capture a' = ra_Capture a -> assessmentCaptureEqual c m a' e = assessmentCaptureEqual c m a e.
Proof. intros E. unfold assessmentCaptureEqual. by rewrite E. Qed.

Lemma sameUUID_refl o : sameUUID o o = true.
Proof. destruct o; [by apply bool_decide_eq_true_2|done]. Qed.
Lemma manifest_canonical raw m : canonicalAssessmentManifest raw = Ok m -> canonicalAssessmentManifest (RawJSON m) = Ok m.
Proof.
  destruct raw as [| |[| | | | |fs]]; try done. intros [= <-].
  transitivity (Ok (canonical (canonical (TObj fs)))); [reflexivity|]. f_equal. exact (canonical_idem (TObj fs)).
Qed.
Lemma capture_equal_new now c m repo mid e raw : canonicalAssessmentManifest raw = Ok m ->
  assessmentCaptureEqual c m (new_assessment now (c <| c_InputManifest := RawJSON m |>) repo mid) e = true.
Proof.
  intros Hm%manifest_canonical. unfold assessmentCaptureEqual. cbn [ra_Capture new_assessment].
  change (c_InputManifest (c <| c_InputManifest := RawJSON m |>)) with (RawJSON m). rewrite Hm. cbn.
  rewrite !sameUUID_refl, !Z.eqb_refl. repeat rewrite bool_decide_eq_true_2 by done. by rewrite orb_true_r.
Qed.

(** What a capture leaves: its row, equal to it. *)
Lemma insert_result now c m e d d1 a b raw : canonicalAssessmentManifest raw = Ok m -> insert_capture now c m e d = Ok (d1, (a, b)) ->
  In a (assessments d1) /\ assessmentCaptureEqual c m a e = true.
Proof.
  intros Hm H. unfold insert_capture in H. destruct (capture_metadata c d) as [|[md repo] l], (exists_row (capture_conflict c) (assessments d)) eqn:Ec.
  4: { injection H as <- <- _. split; [apply in_app_iff; right; by left|by eapply capture_equal_new]. }
  all: match type of H with context [limit 2 ?x] => destruct x as [|x1 [|x2 l2]] eqn:Es end; try done; cbn in H;
    destruct (assessmentCaptureEqual c m x1 e) eqn:Eq; [|done]; injection H as <- <- _; split; [|done]; by apply select_first in Es as [? _].
Qed.
Lemma create_result now fresh c d d1 a b : Create now fresh c d = Ok (d1, (a, b)) ->
  exists m, validateAssessmentCapture c = Ok tt /\ canonicalAssessmentManifest (c_InputManifest c) = Ok m /\ checked c m d
    /\ In a (assessments d1) /\ assessmentCaptureEqual c m a (c_ID c <>? uuid_Nil) = true.
Proof.
  unfold Create. destruct (validateAssessmentCapture c) as [[]|]; [|done]. intros H.
  set (c' := if c_ID c <>? uuid_Nil then c else c <| c_ID := fresh |>) in H.
  assert (forall m x, assessmentCaptureEqual c' m x (c_ID c <>? uuid_Nil) = assessmentCaptureEqual c m x (c_ID c <>? uuid_Nil)) as Ec.
  { intros m x. unfold c'. destruct (c_ID c <>? uuid_Nil); [done|apply capture_equal_id]. }
  assert (forall m, checked c' m d -> checked c m d) as Hck by (intros m; unfold c'; by destruct (c_ID c <>? uuid_Nil)).
  assert (c_InputManifest c' = c_InputManifest c) as Em by (unfold c'; by destruct (c_ID c <>? uuid_Nil)). rewrite Em in H.
  destruct (canonicalAssessmentManifest _) as [m|] eqn:Hm; [|done].
  destruct (check_source c' m d) as [[]|] eqn:H1; [|done]. destruct (check_previous c' d) as [[]|] eqn:H2; [|done].
  destruct (check_previous_published c' d) as [[]|] eqn:H3; [|done]. exists m. split; [done|]. split; [done|].
  split; [by apply Hck|]. rewrite <- Ec. by eapply insert_result.
Qed.

Lemma capture_equal_ids c m a e : assessmentCaptureEqual c m a e = true ->
  ra_OrgID a = c_OrgID c /\ ra_PullRequestID a = c_PullRequestID c /\ ra_Generation a = c_Generation c /\ ra_PublicationKey a = c_PublicationKey c
  /\ (e = true -> ra_ID a = c_ID c).
Proof.
  unfold assessmentCaptureEqual. destruct (canonicalAssessmentManifest _); [|done]. intros H.
  repeat match goal with H : (_ && _ = true) |- _ => apply andb_true_iff in H as [H ?] end.
  repeat match goal with H : bool_decide _ = true |- _ => apply bool_decide_eq_true in H | H : (_ =? _) = true |- _ => apply Z.eqb_eq in H end.
  do 4 (split; [done|]). intros ->. by apply bool_decide_eq_true in H.
Qed.

Lemma filter_single {A} (p : A -> bool) l x : List.NoDup l -> In x l -> p x = true -> (forall y, In y l -> p y = true -> y = x) -> List.filter p l = [x].
Proof.
  induction l as [|z l IH]; [done|]. intros Hn Hx Hp Hu. inversion Hn as [|? ? Hz Hl]; subst. cbn. destruct (p z) eqn:Ez.
  - assert (z = x) as -> by (apply Hu; [by left|done]). f_equal. destruct (List.filter p l) as [|y k] eqn:Ef; [done|].
    assert (In y (List.filter p l)) as [Hy Hpy]%in_filter_iff by (rewrite Ef; by left). destruct Hz. by rewrite <- (Hu y (or_intror Hy) Hpy).
  - destruct Hx as [->|Hx]; [congruence|]. apply IH; try done. intros y Hy. apply Hu. by right.
Qed.

(** A second insert of the same inputs finds the row of the first. *)
Lemma insert_again now c m e d a : rows_ok (assessments d) -> In a (assessments d) -> assessmentCaptureEqual c m a e = true ->
  (forall x, In x (assessments d) -> ra_ID x = c_ID c -> e = true) -> insert_capture now c m e d = Ok (d, (a, true)).
Proof.
  intros Hok Ha Heq Hid. pose proof (capture_equal_ids _ _ _ _ Heq) as (E1 & E2 & E3 & E4 & E5).
  assert (exists_row (capture_conflict c) (assessments d) = true) as Hc.
  { apply exists_row_true. exists a. split; [done|]. unfold capture_conflict. rewrite E1, E2, E3, Z.eqb_refl. rewrite !(bool_decide_eq_true_2 (c_OrgID c = _)), (bool_decide_eq_true_2 (c_PullRequestID c = _)) by done. by destruct (ra_ID a ==? c_ID c). }
  unfold insert_capture. rewrite Hc.
  assert (select (fun a0 => (ra_OrgID a0 ==? c_OrgID c) && ((ra_ID a0 ==? c_ID c) || ((ra_PullRequestID a0 ==? c_PullRequestID c)
    && (ra_Generation a0 =? c_Generation c)) || (ra_PublicationKey a0 ==? c_PublicationKey c))) (assessments d) = [a]) as ->.
  { apply filter_single; [by eapply List.NoDup_map_inv, (ro_ids _ Hok)|done| |].
    - rewrite E1, E2, E3, E4, Z.eqb_refl. rewrite !(bool_decide_eq_true_2 (c_OrgID c = _)), (bool_decide_eq_true_2 (c_PullRequestID c = _)) by done. by destruct (ra_ID a ==? c_ID c).
    - intros y Hy [Ho Hor]%andb_true_iff. apply bool_decide_eq_true in Ho. apply orb_true_iff in Hor as [[Hi|Hg]%orb_true_iff|Hk].
      + apply bool_decide_eq_true in Hi. apply (same_row _ _ _ (ro_ids _ Hok) Hy Ha). rewrite E5; [done|by eapply Hid].
      + apply andb_true_iff in Hg as [Hp%bool_decide_eq_true Hg%Z.eqb_eq]. apply (map_key_inj _ _ _ _ (ro_generations _ Hok) Hy Ha).
        unfold pr_generation. congruence.
      + apply bool_decide_eq_true in Hk. apply (map_key_inj _ _ _ _ (ro_keys _ Hok) Hy Ha). unfold org_key. congruence. }
  cbn. rewrite Heq. by destruct (capture_metadata c d) as [|[? ?] ?].
Qed.

(** Capturing is idempotent.  Once a capture has been stored, a caller that
    repeats it, because the reply was lost or a job was retried, gets the same
    row back and changes nothing, however far that row has come by then and
    whatever else was written; an identity that the caller leaves to the store
    must be a fresh one. *)
Theorem repeated_capture_returns_the_row now fresh now' fresh' c d d1 d2 a b :
  rows_ok (assessments d) -> Create now fresh c d = Ok (d1, (a, b)) -> rtc any_op d1 d2 ->
  (forall x, In x (assessments d2) -> ra_ID x <> fresh') ->
  exists a', Create now' fresh' c d2 = Ok (d2, (a', true)) /\ In a' (assessments d2) /\ ra_Capture a' = ra_Capture a.
Proof.
  intros Hok Hc Hops Hfr. pose proof (create_result _ _ _ _ _ _ _ Hc) as (m & Hv & Hm & Hck & Ha & Heq).
  destruct (later_ops _ _ _ Hops Ha) as (a' & Ha' & Hl). exists a'. split; [|split; [done|apply Hl]].
  assert (rtc any_op d d2) as Hall by (eapply rtc_l; [exists Quiet; by eapply op_create|done]).
  apply (checked_later _ _ _ _ Hall) in Hck as (K1 & K2 & K3). rewrite <- (capture_equal_later _ _ _ _ _ (proj1 Hl)) in Heq.
  pose proof (any_ops_ok _ _ Hall Hok) as Hok2. unfold Create. rewrite Hv.
  destruct (c_ID c <>? uuid_Nil) eqn:Ee; [rewrite Hm, K1, K2, K3; by apply insert_again|].
  change (c_InputManifest (c <| c_ID := fresh' |>)) with (c_InputManifest c). rewrite Hm.
  change (check_source (c <| c_ID := fresh' |>) m d2) with (check_source c m d2). rewrite K1.
  change (check_previous (c <| c_ID := fresh' |>) d2) with (check_previous c d2). rewrite K2.
  change (check_previous_published (c <| c_ID := fresh' |>) d2) with (check_previous_published c d2). rewrite K3.
  apply insert_again; [done..|by rewrite capture_equal_id|]. intros x Hx E. by destruct (Hfr x Hx).
Qed.
Lemma repeated_capture_returns_the_row_witness : exists a', Create (t0 + hour) "fresh9" cap1 d_staged = Ok (d_staged, (a', true))
  /\ In a' (assessments d_staged) /\ ra_Capture a' = ra_Capture a1.
Proof.
  apply (repeated_capture_returns_the_row t0 "fresh1" (t0 + hour) "fresh9" cap1 d_review d_captured d_staged a1 false); [apply no_rows_ok|by vm_compute| |].
  - eapply rtc_l; [exists Quiet; exact running_op|]. apply rtc_once. exists Quiet. exact staged_op.
  - intros x Hx. by vm_compute in Hx; destruct Hx as [<-|[]].
Defined.

(** ** Publication *)

Section Published.
Context {G : GitHub}.
Context (org pr : uuid) (Keys : string -> Prop) (payload_review : uuid -> Z).

(** One step of the system that the reviews of a pull request see: a statement
    of any process, another person on GitHub, a whole publication run.  Runs
    hold the publication lock while they submit, so they follow each other;
    what a run writes after it gave the lock back is among the statements too. *)
Inductive review_step (w : World) : World -> Prop :=
| rv_write d : calm_op org pr Keys (w_db w) d -> review_step w (w <| w_db := d |>)
| rv_people g : others (Reviews (w_gh w)) (Reviews g) -> review_step w (w <| w_gh := g |>)
| rv_full E job lease md a dec body : calm_env org pr Keys E -> mine org pr a -> known a (w_db w) ->
    (c_PreviousPublishedAssessmentID (ra_Capture a) = None -> default 0 (rj_ExistingGitHubReviewID job) = payload_review (ra_ID a)) ->
    unmarked body -> unmarked (default "" (rj_PreviousReviewBody job)) ->
    review_step w (submitFullReviewWithAssessment E job lease md (Some a) dec body w).1
| rv_recheck E a lease n dec body completion : calm_env org pr Keys E -> mine org pr a -> known a (w_db w) ->
    (c_PreviousPublishedAssessmentID (ra_Capture a) = None -> payload_review (ra_ID a) = 0) ->
    unmarked body -> unmarked (r_RenderedBody completion) ->
    review_step w (publishCodeReviewRecheck E a lease n dec body completion w).1.

(** Before the first assessment. *)
Definition unreviewed (w : World) : Prop :=
  assessments (w_db w) = [] /\ forall k, Keys k -> own k w = [] /\ own (approval_key k) w = [].
Definition published_from (w0 w : World) : Prop := unreviewed w0 /\ rtc review_step w0 w.

Lemma unreviewed_holds w : unreviewed w -> holds org pr Keys payload_review w.
Proof.
  intros [E H]. unfold holds. rewrite E. split; [apply no_rows_ok|done| |done]. intros k Hk Hne. destruct Hne. by apply H.
Qed.
Lemma review_step_holds {L : GitHubLaws G} w w' : key_space Keys -> review_step w w' ->
  holds org pr Keys payload_review w -> holds org pr Keys payload_review w'.
Proof.
  intros KS Hs Hl. destruct Hs as [d Hc|g Ho|E job lease md a dec body HE Hm Hk Hp Hb Hb'|E a lease n dec body comp HE Hm Hk Hp Hb Hb'].
  - eapply (holds_rests _ _ _ _ w); [|done]. split; [by apply rtc_once|apply others_refl].
  - eapply (holds_rests _ _ _ _ w); [|done]. split; [apply rtc_refl|exact Ho].
  - by apply full_run_holds.
  - by apply recheck_run_holds.
Qed.
Lemma published_holds {L : GitHubLaws G} w0 w : key_space Keys -> published_from w0 w -> holds org pr Keys payload_review w.
Proof.
  intros KS [H0%unreviewed_holds Hs]. induction Hs as [|w1 w2 w3 Hst _ IH]; [done|]. apply IH. by eapply review_step_holds.
Qed.

(** C5: An assessment is published at most once.  Whatever other processes write
    between two statements, whichever statement fails or loses its reply,
    whichever request is refused, lost or answered too late, and however often
    and in whatever order jobs retry, at most one review of the pull request
    carries the assessment's marker, and at most one approval carries the
    marker of its formal approval. *)
Theorem assessment_is_published_at_most_once {L : GitHubLaws G} w0 w a :
  key_space Keys -> published_from w0 w -> In a (assessments (w_db w)) -> mine org pr a ->
  (length (own (ra_PublicationKey a) w) <= 1)%nat /\ (length (own (approval_key (ra_PublicationKey a)) w) <= 1)%nat.
Proof.
  intros KS Hp Ha Hm. pose proof (published_holds _ _ KS Hp) as Hl. destruct (lg_marks _ _ _ _ _ _ Hl a Ha Hm) as [_ M2 M3]. split; [|exact M3].
  destruct (target_exists payload_review _ a (lg_rows _ _ _ _ _ _ Hl) Ha) as [t Ht]. specialize (M2 t Ht).
  destruct (0 <? t); [|exact M2]. change 1%nat with (length [t]). apply incl_length_le; [apply own_nodup|exact M2].
Qed.

(** C6: What was never sent is not on GitHub.  An assessment that still waits, or
    that failed, was superseded or was cancelled, has left no review and no
    approval behind: a run may only be given up while nothing of it can have
    been published. *)
Theorem unsent_assessment_left_nothing {L : GitHubLaws G} w0 w a :
  key_space Keys -> published_from w0 w -> In a (assessments (w_db w)) -> mine org pr a ->
  unsent a = true \/ closed_as (ra_Status a) -> own (ra_PublicationKey a) w = [] /\ own (approval_key (ra_PublicationKey a)) w = [].
Proof.
  intros KS Hp Ha Hm Hc. pose proof (published_holds _ _ KS Hp) as Hl. apply (mk_unsent _ _ _ _ (lg_marks _ _ _ _ _ _ Hl a Ha Hm)).
  pose proof (ro_rows _ (lg_rows _ _ _ _ _ _ Hl)) as Hall. rewrite List.Forall_forall in Hall. destruct (ok_phase _ (Hall a Ha)) as [p Hph].
  unfold sent. intros Hs. destruct Hc as [Hu%unsent_spec|Hc]; unfold phase_of, closed_as in *.
  - destruct (ra_Status a), (ra_PublicationState a); destruct Hu, Hs; congruence.
  - destruct (ra_Status a), (ra_PublicationState a); destruct Hc as [?|[?|?]], Hs; congruence.
Qed.

End Published.

(** The scenario as a run of the system. *)
Definition Keys1 (k : string) : Prop := k = key1.
Lemma key_space1 : key_space Keys1.
Proof. split; intros k k' -> ->; [done|done|]. by vm_compute. Qed.
Lemma calm_env1 : calm_env "org1" "pr1" Keys1 quiet_env.
Proof. split; [intros; apply rtc_refl|done]. Qed.
Lemma plain_one a : ra_PublicationKey a = key1 -> unmarked (default "" (ra_RenderedBody a)) -> plain_rows "org1" "pr1" Keys1 [a].
Proof. intros Hk Hu b [<-|[]] _. done. Qed.
Lemma write_step w d k : k <> Reject -> review_op (w_db w) k d -> plain_rows "org1" "pr1" Keys1 (assessments d) ->
  review_step "org1" "pr1" Keys1 (fun _ => 0) w (w <| w_db := d |>).
Proof. intros Hk Hop Hp. apply rv_write. exists k. done. Qed.
Lemma publish_step w : known a1 (w_db w) -> review_step "org1" "pr1" Keys1 (fun _ => 0) w (publish1 w).1.
Proof. intros Hk. apply rv_full; [exact calm_env1|done|exact Hk|done|by vm_compute|by vm_compute]. Qed.

Lemma staged_from tape : published_from "org1" "pr1" Keys1 (fun _ => 0) (w_review tape) (w_staged tape).
Proof.
  split; [split; [done|]; intros k ->; by vm_compute|].
  eapply rtc_l; [apply (write_step _ d_captured Quiet); [done|exact captured_op|]|].
  { by apply plain_one; vm_compute. }
  eapply rtc_l; [apply (write_step _ d_running Quiet); [done|exact running_op|]|].
  { by apply plain_one; vm_compute. }
  apply rtc_once. refine (write_step ((w_review tape) <| w_db := d_captured |> <| w_db := d_running |>) d_staged Quiet _ staged_op _); [done|]. by apply plain_one; vm_compute.
Qed.
Lemma published_run : published_from "org1" "pr1" Keys1 (fun _ => 0) (w_review [Served; ReplyLost]) w_published.
Proof.
  destruct (staged_from [Served; ReplyLost]) as [H0 Hs]. split; [exact H0|]. eapply rtc_r; [eapply rtc_r; [exact Hs|]|].
  - apply publish_step. eexists. split; [left; reflexivity|by vm_compute].
  - apply publish_step. by vm_compute; eexists; split; [left; reflexivity|].
Qed.

Lemma assessment_is_published_at_most_once_witness :
  own key1 w_published = [2] /\ (length (own key1 w_published) <= 1)%nat /\ (length (own (approval_key key1) w_published) <= 1)%nat.
Proof.
  split; [by vm_compute|].
  apply (assessment_is_published_at_most_once "org1" "pr1" Keys1 (fun _ => 0) (w_review [Served; ReplyLost]) w_published
    (List.hd a1 (assessments (w_db w_published)))); [exact key_space1|exact published_run|by vm_compute; left|by vm_compute].
Defined.

Lemma rejected_run : published_from "org1" "pr1" Keys1 (fun _ => 0) (w_review [Served; Refused422]) w_rejected.
Proof.
  destruct (staged_from [Served; Refused422]) as [H0 Hs]. split; [exact H0|]. eapply rtc_r; [exact Hs|].
  apply publish_step. eexists. split; [left; reflexivity|by vm_compute].
Qed.
Lemma unsent_assessment_left_nothing_witness : own key1 w_rejected = [] /\ own (approval_key key1) w_rejected = [].
Proof.
  apply (unsent_assessment_left_nothing "org1" "pr1" Keys1 (fun _ => 0) (w_review [Served; Refused422]) w_rejected
    (List.hd a1 (assessments (w_db w_rejected)))); [exact key_space1|exact rejected_run|by vm_compute; left|by vm_compute|left; by vm_compute].
Defined.

(** ** Receipts, leases and fresh inputs *)

Section Requests.
Context {G : GitHub}.

(** A receipt names the review that carries the marker.  When a submission
    that must be confirmed returns, the review it names is on the pull request
    with the publication's marker, whether this run created it, updated it, or
    found what an earlier run had created. *)
Theorem receipt_names_the_published_review {L : GitHubLaws G} history token req w w' r :
  plain_request history req -> q_RequirePublicationReceipt req = true -> SubmitReview history token req w = (w', inr r) ->
  In (sr_ID r) (own (q_OutputKey req) w').
Proof. apply SubmitReview_receipt. Qed.

(** Requests that satisfy [P] only. *)
Definition asks (P : GHRequest -> bool) {A} (m : M A) : Prop :=
  forall w, exists l, w_calls (m w).1 = (w_calls w ++ l)%list /\ forallb P l = true.

Section Asks.
Context (P : GHRequest -> bool).
Lemma asks_nothing {A} (m : M A) : (forall w, w_calls (m w).1 = w_calls w) -> asks P m.
Proof. intros H w. exists []. by rewrite H, app_nil_r. Qed.
Lemma asks_ret {A} (a : A) : asks P (mret a).
Proof. by apply asks_nothing. Qed.
Lemma asks_throw {A} e : asks P (throw (A:=A) e).
Proof. by apply asks_nothing. Qed.
Lemma asks_then {A B} (m : M A) (k : A -> M B) : asks P m -> (forall w w1 a, m w = (w1, inr a) -> asks P (k a)) -> asks P (m ≫= k).
Proof.
  intros Hm Hk w. destruct (Hm w) as (l1 & E1 & F1). unfold mbind, M_bind. destruct (m w) as [w1 [e|a]] eqn:Em; cbn in *; [eauto|].
  destruct (Hk w w1 a Em w1) as (l2 & E2 & F2). exists (l1 ++ l2)%list. by rewrite E2, E1, app_assoc, forallb_app, F1, F2.
Qed.
Lemma asks_bind {A B} (m : M A) (k : A -> M B) : asks P m -> (forall a, asks P (k a)) -> asks P (m ≫= k).
Proof. intros Hm Hk. by apply asks_then. Qed.
Lemma asks_catch {A} (m : M A) h : asks P m -> (forall e, asks P (h e)) -> asks P (catch m h).
Proof.
  intros Hm Hk w. destruct (Hm w) as (l1 & E1 & F1). unfold catch. destruct (m w) as [w1 [e|a]]; cbn in *; [|eauto].
  destruct (Hk e w1) as (l2 & E2 & F2). exists (l1 ++ l2)%list. by rewrite E2, E1, app_assoc, forallb_app, F1, F2.
Qed.
Lemma asks_attempt {A} (m : M A) : asks P m -> asks P (attempt m).
Proof. intros Hm w. specialize (Hm w). unfold attempt. by destruct (m w). Qed.
Lemma asks_ask {A} E (f : PubEnv -> nat -> problems + A) : asks P (ask E f).
Proof. by apply asks_nothing. Qed.
Lemma asks_statement {A} E (f : nat -> ReviewDB -> result (ReviewDB * A)) : asks P (statement E f).
Proof. apply asks_nothing. intros w. unfold statement. destruct (p_fate E _); [|done|]; by destruct (f (w_step w) _) as [[? ?]|]. Qed.
End Asks.

Ltac asks := repeat first
  [ apply asks_ret | apply asks_throw | apply asks_ask | apply asks_statement | apply asks_attempt | (apply asks_bind; [|intros ?])
  | (apply asks_catch; [|intros ?]) | progress case_match | assumption ].

Definition reads_only (r : GHRequest) : bool := negb (writes_review r).

Section Runs.
Context (P : GHRequest -> bool) (E : PubEnv).
Lemma asks_lock_lease o lease : asks P (lock_lease E o lease).
Proof. unfold lock_lease, LockAssessmentPublicationJob, read. asks. Qed.
Lemma asks_lock {A} (fn : M (A * (nat -> ReviewDB -> result ReviewDB))) : asks P fn -> asks P (RunWithGitHubPublicationLock E fn).
Proof. intros H. unfold RunWithGitHubPublicationLock, read. asks. Qed.
Lemma asks_supersede_stale {A} a e : asks P (supersede_stale (A:=A) E a e).
Proof. unfold supersede_stale, supersedeUnsentFullPublication, get_assessment, read, write. asks. Qed.

(** A full review asks what its run under the lock asks. *)
Lemma asks_full job lease md a dec body : (forall job md req, asks P (locked_submit E job lease md (Some a) dec req)) ->
  asks P (submitFullReviewWithAssessment E job lease md (Some a) dec body).
Proof.
  intros H. unfold submitFullReviewWithAssessment. assert (asks P (submit_assessment E job lease md a dec body)) as Hs.
  { unfold submit_assessment, job_for, get_assessment, read. apply asks_bind; [asks|]. intros job'. apply asks_bind.
    - apply asks_catch; [|intros; apply asks_supersede_stale]. unfold submitCodeReviewToGitHubWithOptions, load_request, read, write.
      destruct (negb _); [asks|]. destruct (_ && _); [asks|]. apply asks_bind; [asks|]. intros req.
      apply asks_bind; [by apply asks_lock|intros [r b]; asks].
    - intros x. unfold write. asks. }
  destruct (_ ==? _), (ra_GitHubReviewID a); try done. asks.
Qed.
Lemma asks_recheck a lease n dec body completion : (forall repo, asks P (locked_recheck E a lease repo n dec body completion)) ->
  asks P (publishCodeReviewRecheck E a lease n dec body completion).
Proof.
  intros H. unfold publishCodeReviewRecheck, read, write. destruct (negb _); [asks|]. apply asks_bind; [asks|]. intros repo. apply asks_bind; [asks|]. intros _.
  apply asks_catch; [by apply asks_lock|intros e; asks].
Qed.
End Runs.

(** The job of a lease runs under its token. *)
Definition lease_live (o : uuid) (lease : Lease) (d : ReviewDB) : bool :=
  match l_jobID lease, l_token lease with
  | Some jobID, Some token =>
      exists_row (fun j => (j_org_id j ==? o) && (j_id j ==? jobID) && col_is (j_lock_token j) token && (j_status j ==? JobStatusRunning)) (jobs (review_plane d))
  | _, _ => false
  end.

Lemma lease_lost E o lease w w' x : (forall n d, lease_live o lease (p_others E n d) = false) -> lock_lease E o lease w = (w', inr x) -> False.
Proof.
  intros H. unfold lock_lease, lease_live in *. destruct (l_jobID lease) as [jobID|], (l_token lease) as [token|]; try done.
  unfold LockAssessmentPublicationJob. destruct (_ || _); [done|]. unfold read, statement. specialize (H (w_step w) (w_db w)). rewrite H. by destruct (p_fate E _).
Qed.

(** A run that has lost its job sends nothing.  When no state the run sees has
    its job running under its lease, not a single request, read or write,
    reaches GitHub: a worker that was presumed dead and comes back cannot
    publish. *)
Theorem publication_needs_a_live_lease E job lease md a dec body n completion w : (forall n d, lease_live (ra_OrgID a) lease (p_others E n d) = false) ->
  w_calls (submitFullReviewWithAssessment E job lease md (Some a) dec body w).1 = w_calls w
  /\ w_calls (publishCodeReviewRecheck E a lease n dec body completion w).1 = w_calls w.
Proof.
  intros Hl. assert (forall A (m : M A), asks (fun _ => false) m -> w_calls (m w).1 = w_calls w) as Hnone.
  { intros A m Hm. destruct (Hm w) as ([|r l] & El & Hf); [by rewrite app_nil_r in El|done]. }
  split; apply Hnone.
  - apply asks_full. intros job' md' req. unfold locked_submit, preSubmit. apply asks_then.
    + apply asks_then; [apply asks_lock_lease|]. intros w1 w2 x Hx. by destruct (lease_lost _ _ _ _ _ _ Hl Hx).
    + intros w1 w2 x Hx. apply bind_ok in Hx as (w3 & y & Hy & _). by destruct (lease_lost _ _ _ _ _ _ Hl Hy).
  - apply asks_recheck. intros repo. unfold locked_recheck. apply asks_then; [apply asks_lock_lease|].
    intros w1 w2 x Hx. by destruct (lease_lost _ _ _ _ _ _ Hl Hx).
Qed.

Lemma asks_reading {A} (m : M A) : reading m -> asks reads_only m.
Proof. intros H w. destruct (H w) as [_ _ (l & E & F)]. exists l. done. Qed.
Lemma asks_reconcile {L : GitHubLaws G} E req : asks reads_only (reconcile E req).
Proof. unfold reconcile. destruct (p_reconciler E); [apply asks_reading, reading_Reconcile|apply asks_throw]. Qed.
Lemma asks_preSubmit {L : GitHubLaws G} E job lease md a dec req : asks reads_only (preSubmit E job lease md a dec req).
Proof.
  unfold preSubmit, get_assessment, note_uncertain, read, write. apply asks_bind; [apply asks_lock_lease|]. intros _.
  asks; try apply asks_reconcile.
Qed.

Lemma stale_fresh E (k : unit -> M unit) w w' r : (forall n, exists e, p_fresh E n = inl e) ->
  attempt (ask E p_fresh ≫= k) w = (w', inr r) -> exists e, r = inl e.
Proof.
  intros Hf. destruct (Hf (w_step w)) as [e He]. unfold attempt, mbind, M_bind, ask. rewrite He. intros [= _ <-]. eauto.
Qed.
Lemma stale_preSubmit E job lease md a dec req w w' b : (forall n, exists e, p_fresh E n = inl e) ->
  preSubmit E job lease md a dec req w <> (w', inr (Proceed b)).
Proof.
  intros Hf H. unfold preSubmit in H. apply bind_ok in H as (w1 & [] & _ & H). apply bind_ok in H as (w2 & c & _ & H).
  match type of H with (if ?x then _ else _) _ = _ => destruct x end; [done|].
  destruct (bool_decide (ra_PublicationState c = CodeReviewPublicationUncertain)) eqn:Eu, (m_GitHubReviewID md) as [kn|].
  1: { apply bind_ok in H as (w3 & [] & _ & H). apply bind_ok in H as (w4 & [r|] & _ & H); [|done]. by destruct (_ || _) in H. }
  all: apply bind_ok in H as (w3 & fr & H3 & H); apply stale_fresh in H3 as [e ->]; [|done]; destruct (_ && _) in H; [done|try done].
  cbn in H. apply bind_ok in H as (w4 & [r|] & _ & H); [done|]. by apply bind_ok in H as (? & ? & _ & H).
Qed.

(** C26: Stale inputs are never published.  When no capture of a run confirms the
    inputs that its assessment was made from, because they changed or because
    they could not be read, the run may look at the pull request but creates
    and updates no review. *)
Theorem stale_inputs_are_never_published {L : GitHubLaws G} E job lease md a dec body n completion w :
  (forall n, exists e, p_fresh E n = inl e) -> (forall n, p_capture E n <> inr (ra_InputDigest a)) ->
  (exists l, w_calls (submitFullReviewWithAssessment E job lease md (Some a) dec body w).1 = (w_calls w ++ l)%list /\ forallb reads_only l = true)
  /\ exists l, w_calls (publishCodeReviewRecheck E a lease n dec body completion w).1 = (w_calls w ++ l)%list /\ forallb reads_only l = true.
Proof.
  intros Hf Hc. split.
  - apply asks_full. intros job' md' req. unfold locked_submit. apply asks_then; [apply asks_preSubmit|].
    intros w1 w2 [r|b] Hx; [apply asks_ret|]. by destruct (stale_preSubmit _ _ _ _ _ _ _ _ _ _ Hf Hx).
  - apply asks_recheck. intros repo. unfold locked_recheck, get_assessment, read. apply asks_bind; [apply asks_lock_lease|]. intros _.
    apply asks_bind; [asks|]. intros c. do 3 (match goal with |- asks _ (if ?x then _ else _) => destruct x end; [asks|]).
    apply asks_bind; [asks|]. intros p. apply asks_then; [asks|]. intros w1 w2 cap Hcap. unfold attempt, ask in Hcap. injection Hcap as _ <-.
    do 2 (match goal with |- asks _ (if (_ && _) then _ else _) => destruct (_ && _) end; [asks|]).
    specialize (Hc (w_step w1)). destruct (p_capture E (w_step w1)) as [e|digest]; [|rewrite bool_decide_eq_false_2 by congruence].
    all: apply asks_bind; [apply asks_reconcile|]; intros [r|]; [asks|]; unfold note_uncertain, write; asks.
Qed.

(** ** Errors *)

(** C27: A failed submission and its row.  Only the rejection of a send that the
    same run declared gives the reservation back, and then GitHub has no more
    reviews than before; every other error, a lost reply above all, leaves the
    table as it was, so that the row keeps saying that the review may exist.
    The run reports the original error either way. *)
Theorem only_a_rejection_reopens {L : GitHubLaws G} E a started req w w1 e w' r :
  plain_request (p_history E) req -> SubmitReview (p_history E) (p_token E) req w = (w1, inl e) ->
  catch (SubmitReview (p_history E) (p_token E) req) (reconcileRejectedCodeReviewPublication E a started) w = (w', r) ->
  (exists e', r = inl e' /\ incl e e')
  /\ (started && is_problem e ErrReviewPublicationRejected = false -> w_db w' = w_db w)
  /\ (started && is_problem e ErrReviewPublicationRejected = true ->
      (forall k, incl (own k w') (own k w))
      /\ forall d', p_fate E (w_step w1) = Done ->
          RestoreRejectedPublication (ra_OrgID a) (ra_ID a) (ra_Generation a) (ra_InputDigest a) (p_error E e)
            (p_others E (w_step w1) (w_db w)) = Ok d' -> w_db w' = d').
Proof.
  intros Hp Hs H. unfold catch in H. rewrite Hs in H. apply SubmitReview_spec in Hs; [|done]. unfold reconcileRejectedCodeReviewPublication in H.
  destruct started, (is_problem e ErrReviewPublicationRejected) eqn:Ee; cbn in H |- *.
  2, 3, 4: injection H as <- <-; (split; [exists e; split; [done|apply incl_refl]|]); (split; [intros _; apply Hs|done]).
  unfold mbind, M_bind, attempt in H. destruct (write E _ w1) as [w2 r2] eqn:Ew.
  assert (w' = w2 /\ exists e', r = inl e' /\ incl e e') as [-> Hr].
  { destruct r2; injection H as <- <-; (split; [done|]); eexists; (split; [done|]); [apply incl_appl, incl_refl|apply incl_refl]. }
  split; [done|]. split; [done|]. intros _. rewrite <- (sb_db _ _ _ _ Hs). unfold write, statement in Ew. split.
  - intros k. replace (own k w2) with (own k w1); [by apply (sb_rejected _ _ _ _ Hs)|]. unfold own. f_equal. f_equal.
    destruct (p_fate E _); [|by injection Ew as <- _|]; destruct (RestoreRejectedPublication _ _ _ _ _ _); by injection Ew as <- _.
  - intros d' Hd Hres. rewrite Hd, Hres in Ew. by injection Ew as <- _.
Qed.

End Requests.

(** ** Witnesses *)

Definition request1 : SubmitReviewRequest :=
  submit_request review_job (MkReviewRepo "repo1" "org1" "acme/app" 42) (MkReviewPR "pr1" "org1" "acme/app" 7) CodeReviewDecisionApproved "Looks good." [] true.
Lemma request1_plain : plain_request (p_history quiet_env) request1.
Proof. by split; vm_compute. Qed.
Definition submit1 : M SubmitReviewResult := SubmitReview (p_history quiet_env) (p_token quiet_env) request1.
Lemma pair_result {A B} (p : A * B) b : p.2 = b -> p = (p.1, b).
Proof. intros <-. apply surjective_pairing. Qed.
Definition result1 : SubmitReviewResult := match (submit1 (w_staged [])).2 with inr r => r | inl _ => MkSubmitResult "" "" None None 0 "" "" [] end.

Lemma submit1_result : SubmitReview (p_history quiet_env) (p_token quiet_env) request1 (w_staged []) = ((submit1 (w_staged [])).1, inr result1).
Proof. apply (pair_result (submit1 (w_staged []))). vm_compute. reflexivity. Qed.
Lemma receipt_names_the_published_review_witness : sr_ID result1 = 2 /\ In (sr_ID result1) (own (q_OutputKey request1) (submit1 (w_staged [])).1).
Proof.
  split; [by vm_compute|].
  exact (receipt_names_the_published_review (p_history quiet_env) (p_token quiet_env) request1 (w_staged []) (submit1 (w_staged [])).1 result1
    request1_plain eq_refl submit1_result).
Defined.

Definition other_lease : Lease := MkLease (Some "job1") (Some "tok0").
Definition dead_env : PubEnv :=
  MkPubEnv (fun _ _ => d_staged) (fun _ => Done) (fun _ => t0) (fun _ => "fresh2") (fun _ => true) (fun _ => inr tt) (fun _ => inr tt)
    (fun _ => inr "inputs") (fun _ => inr []) (fun _ => inr tt) (fun _ _ _ _ => "") (fun _ => "rejected") true true true.
Lemma publication_needs_a_live_lease_witness :
  w_calls (submitFullReviewWithAssessment dead_env review_job other_lease md1 (Some a1) CodeReviewDecisionApproved "Looks good." (w_staged [])).1 = []
  /\ w_calls (publishCodeReviewRecheck dead_env a1 other_lease 7 CodeReviewDecisionApproved "Looks good." outcome1 (w_staged [])).1 = [].
Proof.
  apply (publication_needs_a_live_lease dead_env review_job other_lease md1 a1 CodeReviewDecisionApproved "Looks good." 7 outcome1 (w_staged [])).
  intros n d. by vm_compute.
Defined.

Definition stale_env : PubEnv :=
  MkPubEnv (fun _ d => d) (fun _ => Done) (fun _ => t0) (fun _ => "fresh2") (fun _ => true) (fun _ => inl [errFullAssessmentInputsChanged]) (fun _ => inr tt)
    (fun _ => inr "changed") (fun _ => inr []) (fun _ => inr tt) (fun _ _ _ _ => "") (fun _ => "rejected") true true true.
Lemma stale_inputs_are_never_published_witness :
  (exists l, w_calls (submitFullReviewWithAssessment stale_env review_job lease1 md1 (Some a1) CodeReviewDecisionApproved "Looks good." w_lost).1
     = (w_calls w_lost ++ l)%list /\ forallb reads_only l = true)
  /\ exists l, w_calls (publishCodeReviewRecheck stale_env a1 lease1 7 CodeReviewDecisionApproved "Looks good." outcome1 w_lost).1
     = (w_calls w_lost ++ l)%list /\ forallb reads_only l = true.
Proof.
  apply (stale_inputs_are_never_published stale_env review_job lease1 md1 a1 CodeReviewDecisionApproved "Looks good." 7 outcome1 w_lost); [eauto|].
  intros n. by vm_compute.
Defined.

Definition w_refused : World := w_staged [Served; Refused422].
Definition refused1 : problems := match (submit1 w_refused).2 with inl e => e | inr _ => [] end.
Lemma submit1_refused : SubmitReview (p_history quiet_env) (p_token quiet_env) request1 w_refused = ((submit1 w_refused).1, inl refused1).
Proof. apply (pair_result (submit1 w_refused)). vm_compute. reflexivity. Qed.
Lemma refused1_rejected : true && is_problem refused1 ErrReviewPublicationRejected = true.
Proof. by vm_compute. Qed.
Lemma only_a_rejection_reopens_witness : exists w' e',
  catch (SubmitReview (p_history quiet_env) (p_token quiet_env) request1) (reconcileRejectedCodeReviewPublication quiet_env a1 true) w_refused = (w', inl e')
  /\ incl refused1 e' /\ forall k, incl (own k w') (own k w_refused).
Proof.
  destruct (catch _ _ w_refused) as [w' r] eqn:Ec.
  destruct (only_a_rejection_reopens quiet_env a1 true request1 w_refused (submit1 w_refused).1 refused1 w' r
    request1_plain submit1_refused Ec) as ((e' & -> & He) & _ & Hr).
  exists w', e'. split; [reflexivity|]. split; [exact He|exact (proj1 (Hr refused1_rejected))].
Defined.

(** ** Finding markers *)

