(* ===== verification/TurnContainer.v ===== *)
(** * The container of a turn

    RunAgent of internal/services/agent/orchestrator.go from the created
    container on: the hold it takes, the diagnosis of a lost race, and the
    release and destruction at the end of the turn.  A database call may fail,
    with or without its effect on the rows; other statements run between the
    calls.  The container runtime is seen through IsAlive and the calls of
    Destroy; usage records, the listener of sandbox credentials and logs are
    left out. *)

From S2P Require Import Prelude GoRuntime Sql Tables SessionStore Automation AutomationStore AutomationRunStore.
From stdpp Require Import base option list strings gmap.

Open Scope string_scope.
Open Scope Z_scope.

Definition ErrSandboxRaceLoser : string := "sandbox race: another holder attached first".
Definition ErrStaleSandboxIDCleared : string := "sandbox race: cleared stale orphan container_id, retry".
Definition ErrSandboxPreviewRace : string := "sandbox race: preview holder attached first, retry".

(** The database calls, and how each fares: an error is reported when the
    statement took no effect, or when only its answer was lost. *)
Inductive ContainerCall := CallAcquire | CallHoldState | CallClear | CallRevert | CallRelease | CallFinalize.
Inductive Fault := NoEffect | AnswerLost.

Definition attempt {D A} (fault : option Fault) (d : D) (r : result (D * A)) : D * result A :=
  match fault, r with
  | None, Ok (d', a) => (d', Ok a)
  | Some AnswerLost, Ok (d', _) => (d', Err "connection lost")
  | Some NoEffect, _ => (d, Err "connection lost")
  | _, Err e => (d, Err e)
  end.

Section Turn.
Context (IsAlive : string -> result bool) (failRun : string -> DB -> DB) (fault : ContainerCall -> option Fault).
(** What other sessions, previews and reapers write between two calls. *)
Context (meanwhile : ContainerCall -> DB -> DB).
Context (now : ContainerCall -> time) (preview : ContainerCall -> bool) (orgID sessionID : uuid).

Definition run_call {A} (c : ContainerCall) (stmt : DB -> result (DB * A)) (db : DB) : DB * result A :=
  let db := meanwhile c db in attempt (fault c) db (stmt db).

Definition diagnoseAcquireHoldRaceLoss (actual : string) (db : DB) : DB * string :=
  match IsAlive actual with
  | Err _ => (db, ErrSandboxRaceLoser)
  | Ok true =>
      let '(db, r) := run_call CallHoldState (fun db => let? holds := ContainerHoldState orgID sessionID actual (preview CallHoldState) db in Ok (db, holds)) db in
      (db, match r with
           | Err _ => ErrSandboxRaceLoser
           | Ok (true, _) => ErrSandboxRaceLoser
           | Ok (false, true) => ErrSandboxPreviewRace
           | Ok (false, false) => ErrSandboxRaceLoser
           end)
  | Ok false =>
      let '(db, r) := run_call CallClear (fun db => Ok (ClearContainerID (now CallClear) orgID sessionID actual (preview CallClear) db)) db in
      (db, match r with Ok true => ErrStaleSandboxIDCleared | _ => ErrSandboxRaceLoser end)
  end.

(** From the created container to the hold; [prepared] is what
    markCodeReviewInputsPreparing returned.  The result carries the calls of
    Destroy. *)
Definition hold_created (prepared : result unit) (sandbox : string) (db : DB) : DB * list string * result unit :=
  let '(db, held) := match prepared with
                     | Ok _ => run_call CallAcquire (AcquireTurnHold orgID sessionID sandbox) db
                     | Err e => (db, Err e)
                     end in
  match held with
  | Err e => (failRun ("acquire turn hold: " ++ e) db, [sandbox], Err ("acquire turn hold: " ++ e))
  | Ok actual =>
      if (actual <>? "") && (actual <>? sandbox)
      then
        let '(db, why) := diagnoseAcquireHoldRaceLoss actual db in
        let db := if (why ==? ErrSandboxPreviewRace) || (why ==? ErrStaleSandboxIDCleared)
                  then (run_call CallRevert (UpdateStatus (now CallRevert) orgID sessionID SessionStatusPending) db).1
                  else db in
        (db, [sandbox], Err why)
      else (db, [], Ok tt)
  end.

(** TurnStore.ReleaseTurnHold of services/automations/turn_store.go: under the
    fence of the attempt. *)
Definition TurnStore_ReleaseTurnHold (runID lockToken : uuid) (d : AutoDB) : result (AutoDB * (bool * bool * string)) :=
  let? owned := LockAttempt orgID runID lockToken d in
  if negb owned then Ok (d, (false, false, ""))
  else
    let? (db, released) := ReleaseTurnHold (now CallRelease) orgID sessionID (preview CallRelease) (plane d) in
    let '(destroyNow, containerID) := released in
    Ok (d <| plane := db |>, (true, destroyNow, containerID)).

(** The release: fenced in an automation's turn. *)
Definition release_hold (turn : option (uuid * uuid)) (d : AutoDB) : AutoDB * result (bool * bool * string) :=
  match turn with
  | Some (runID, lockToken) => attempt (fault CallRelease) d (TurnStore_ReleaseTurnHold runID lockToken d)
  | None =>
      attempt (fault CallRelease) d
        (let? (db, released) := ReleaseTurnHold (now CallRelease) orgID sessionID (preview CallRelease) (plane d) in
         let '(destroyNow, containerID) := released in
         Ok (d <| plane := db |>, (true, destroyNow, containerID)))
  end.

(** The deferred end of the turn.  [between] is what others write after the
    release. *)
Definition end_container (turn : option (uuid * uuid)) (between : AutoDB -> AutoDB) (sandbox : string) (d : AutoDB)
    : AutoDB * list string :=
  let '(d, released) := release_hold turn d in
  let '(owned, destroyNow, releasedID) := match released with
                                          | Ok r => r
                                          | Err _ => (true, true, "")
                                          end in
  if negb owned then (d, [])
  else if negb destroyNow then (d, [])
  else
    let d := between d in
    let expectedID := if releasedID ==? "" then sandbox else releasedID in
    let '(db, cleared) := attempt (fault CallFinalize) (plane d)
      (Ok (FinalizeContainerDestroy (now CallFinalize) orgID sessionID expectedID (preview CallFinalize) (plane d))) in
    (d <| plane := db |>, match cleared with Ok true => [sandbox] | _ => [] end).
End Turn.
