(* ===== verification/SessionProperties.v ===== *)
(** * Properties of sessions

    The statements that write the table of sessions, interleaved in any order:
    what the executing-turn marker means, and what becomes of containers. *)

From S2P Require Import Prelude GoRuntime Sql Tables JobStore HolderStore ActivityPhaseStore SessionStore Scenario.
From S2P Require Import Automation AutomationStore AutomationRunStore TurnContainer.
From stdpp Require Import base option list strings gmap.

Open Scope string_scope.
Open Scope Z_scope.

(** ** Statements and what they are to a session *)

(** A turn began, a container was offered for a session, or given up. *)
Inductive session_event :=
  | Began (session : uuid)
  | Offered (session : uuid) (container : string)
  | GaveUp (session : uuid) (container : string)
  | Silent.

(** The statements of other stores on a row.  Those of automations and code
    reviews end a turn, write other columns or, in
    code_review_recheck_dispatch.go, claim the row with its deadlines cleared;
    the workspaces of code reviews (code_review_workspace.go,
    code_review_stale_container.go, session_review_workspace_recovery.go)
    record the container they created or give one up. *)
Record row_elsewhere (ev : session_event) (s s' : Session) : Prop := {
  re_id : s_id s' = s_id s;
  re_turn : s_runtime_soft_deadline_at s' = s_runtime_soft_deadline_at s /\ s_runtime_hard_deadline_at s' = s_runtime_hard_deadline_at s
      /\ (s_status s' = s_status s \/ s_status s' <> SessionStatusRunning)
    \/ s_runtime_soft_deadline_at s' = None /\ s_runtime_hard_deadline_at s' = None;
  re_container : s_container_id s' = s_container_id s \/ s_container_id s' = None
    \/ exists c, ev = Offered (s_id s) c /\ s_container_id s' = Some c;
  re_gave_up : forall c, ev = GaveUp (s_id s) c -> s_container_id s' <> Some c;
  re_began : ev <> Began (s_id s)
}.

Inductive session_op (db : DB) : session_event -> DB -> Prop :=
  | so_begin now org id soft hard at_ db' s : BeginRuntime now org id soft hard at_ db = Ok (db', s) -> session_op db (Began id) db'
  | so_stop org id reason after_ : session_op db Silent (MarkRuntimeStopRequested org id reason after_ db).1
  | so_extend org id tok expected soft hard seconds : session_op db Silent (GrantRuntimeExtension org id tok expected soft hard seconds db).1
  | so_recovery org id state q st inc : session_op db Silent (UpdateRecoveryState org id state q st inc db).1
  | so_status now org id status db' s : updateStatusRow now org id status db = Ok (db', s) -> session_op db Silent db'
  (** no caller stores a result as running *)
  | so_result now org id status summary db' s : status <> SessionStatusRunning ->
      updateResultRow now org id status summary db = Ok (db', s) -> session_op db Silent db'
  | so_result_phase now org id ph status summary ps reason at_ db' r : status <> SessionStatusRunning ->
      UpdateResultAndCompleteActivityPhase now org id ph status summary ps reason at_ db = Ok (db', r) -> session_op db Silent db'
  | so_status_phase now org id ph status ps reason at_ db' r :
      UpdateStatusAndCompleteActivityPhase now org id ph status ps reason at_ db = Ok (db', r) -> session_op db Silent db'
  | so_turn now org id turn summary agent key : session_op db Silent (updateTurnCompleteRow now org id turn summary agent key db).1
  | so_turn_phase now org id ph turn summary agent key ps reason at_ db' p :
      UpdateTurnCompleteAndCompleteActivityPhase now org id ph turn summary agent key ps reason at_ db = Ok (db', p) -> session_op db Silent db'
  | so_claim_idle now org id db' s : ClaimIdle now org id db = Ok (db', s) -> session_op db Silent db'
  | so_claim_resume now org id db' s : ClaimForResume now org id db = Ok (db', s) -> session_op db Silent db'
  | so_reset now org id seen db' : ResetForRetry now org id seen db = Ok db' -> session_op db Silent db'
  | so_undo now org id : session_op db Silent (UndoResetForRetry now org id db)
  | so_mark_running now org id state db' u : MarkRunningWithSandboxState now org id state db = Ok (db', u) -> session_op db Silent db'
  | so_lost_reuse org id : session_op db Silent (ResetAfterLostReuse org id db).1
  | so_acquire org id c db' actual : AcquireTurnHold org id c db = Ok (db', actual) -> session_op db (Offered id c) db'
  | so_acquire_existing org id c : session_op db Silent (AcquireExistingTurnHold org id c db).1
  | so_release now org id preview db' r : ReleaseTurnHold now org id preview db = Ok (db', r) -> session_op db Silent db'
  | so_publish org id c db' actual : PublishHydratedContainerID org id c db = Ok (db', actual) -> session_op db (Offered id c) db'
  | so_worker org id c node db' : SetWorkerNodeIDForContainer org id c node db = Ok db' -> session_op db Silent db'
  | so_clear now org id c preview db' b : ClearContainerID now org id c preview db = (db', b) ->
      session_op db (if b then GaveUp id c else Silent) db'
  | so_finalize now org id c preview db' b : FinalizeContainerDestroy now org id c preview db = (db', b) ->
      session_op db (if b then GaveUp id c else Silent) db'
  | so_sandbox org id state : session_op db Silent (UpdateSandboxState org id state db).1
  | so_clear_snapshot org id : session_op db Silent (ClearSnapshotKey org id db)
  | so_set_pending now org id key : session_op db Silent (SetPendingSnapshotKey now org id key db)
  | so_clear_pending org id : session_op db Silent (ClearPendingSnapshot org id db)
  | so_reap_pending older : session_op db Silent (ReapStrandedPendingSnapshots older db).1
  | so_archive now org id db' : Archive now org id db = Ok db' -> session_op db Silent db'
  | so_archive_system now org id : session_op db Silent (ArchiveSystem now org id db).1
  | so_unarchive now org id db' : Unarchive now org id db = Ok db' -> session_op db Silent db'
  | so_claim_automation now org id allow d d' s : plane d = db -> ClaimForAutomationTurn now org id allow d = Ok (d', s) ->
      session_op db Silent (plane d')
  | so_interrupted now org run id tok status d d' b : plane d = db -> EndInterruptedAttempt now org run id tok status d = Ok (d', b) ->
      session_op db Silent (plane d')
  | so_recovering now requeued db' : sessions db' = mark_recovering now requeued (sessions db) -> session_op db Silent db'
  | so_insert id org status agent model effort user now db' : ~ In id (map s_id (sessions db)) ->
      sessions db' = (sessions db ++ [inserted_session id org status agent model effort user now])%list -> session_op db Silent db'
  | so_elsewhere ev g db' : (forall s, In s (sessions db) -> row_elsewhere ev s (g s)) -> sessions db' = map g (sessions db) -> session_op db ev db'
  | so_other db' : sessions db' = sessions db -> session_op db Silent db'.

(** A run of statements, with the event and the state of each. *)
Inductive session_run (db : DB) : list (session_event * DB) -> DB -> Prop :=
  | sr_nil : session_run db [] db
  | sr_snoc l db1 ev db2 : session_run db l db1 -> session_op db1 ev db2 -> session_run db (l ++ [(ev, db2)]) db2.

(** ** What a statement keeps of a row *)

(** The deadlines come and go together. *)
Definition row_ok (s : Session) : Prop := s_runtime_soft_deadline_at s = None <-> s_runtime_hard_deadline_at s = None.

Record row_move (ev : session_event) (s s' : Session) : Prop := {
  rm_id : s_id s' = s_id s;
  rm_ok : row_ok s';
  rm_executing : executing_turn s' = true -> executing_turn s = true \/ ev = Began (s_id s);
  rm_container : forall c, s_container_id s' = Some c -> s_container_id s = Some c \/ ev = Offered (s_id s) c;
  rm_gave_up : forall c, ev = GaveUp (s_id s) c -> s_container_id s' <> Some c
}.

(** A write that leaves the container alone. *)
Lemma turn_move ev s s' : (forall id c, ev <> GaveUp id c) -> s_id s' = s_id s -> row_ok s' ->
  (executing_turn s' = true -> executing_turn s = true \/ ev = Began (s_id s)) -> s_container_id s' = s_container_id s -> row_move ev s s'.
Proof.
  intros Hev Hid Hok Hex Hc. split; try done.
  - intros c. rewrite Hc. by left.
  - intros c E. by destruct (Hev _ _ E).
Qed.
Lemma row_move_refl ev s : row_ok s -> (forall c, ev = GaveUp (s_id s) c -> s_container_id s <> Some c) -> row_move ev s s.
Proof. intros Hok Hg. split; auto. Qed.

(** Every statement on the table is an update of rows, or inserts one. *)
Definition rows_move (ev : session_event) (t t' : list Session) : Prop :=
  (exists g, t' = map g t /\ forall s, In s t -> row_move ev s (g s))
  \/ (ev = Silent /\ exists s, t' = (t ++ [s])%list /\ ~ In (s_id s) (map s_id t) /\ row_ok s /\ executing_turn s = false /\ s_container_id s = None).

Lemma update_rows ev p f t : Forall row_ok t -> (forall id c, ev <> GaveUp id c) ->
  (forall s, In s t -> row_ok s -> p s = true -> row_move ev s (f s)) -> rows_move ev t (update p f t).
Proof.
  intros Hok Hev Hf. left. exists (fun s => if p s then f s else s). split; [done|]. intros s Hin.
  rewrite List.Forall_forall in Hok. destruct (p s) eqn:E; [by apply Hf; auto|]. apply row_move_refl; [auto|]. intros c Eq. by destruct (Hev _ _ Eq).
Qed.
Lemma same_rows t : Forall row_ok t -> rows_move Silent t t.
Proof.
  intros Hok. left. exists id. rewrite map_id. split; [done|]. intros s Hin. rewrite List.Forall_forall in Hok. by apply row_move_refl; auto.
Qed.
Lemma returning_rows ev p f db db' x : returning p f db = Ok (db', x) -> Forall row_ok (sessions db) -> (forall id c, ev <> GaveUp id c) ->
  (forall s, In s (sessions db) -> row_ok s -> p s = true -> row_move ev s (f s)) -> rows_move ev (sessions db) (sessions db').
Proof. unfold returning. destruct (select _ _); [done|]. intros [= <- _]. apply update_rows. Qed.
Lemma complete_sessions now org id status reason at_ db db' p :
  completeActivityPhaseInTransaction now org id status reason at_ db = Ok (db', p) -> sessions db' = sessions db.
Proof. unfold completeActivityPhaseInTransaction. repeat (case_match; [try done|]); try done; by intros [= <- _]. Qed.

(** Giving a container up takes it from the one row of the session. *)
Lemma give_up_rows p f org id c t (b : bool) : Forall row_ok t -> List.NoDup (map s_id t) -> b = (0 <? count_rows p t) ->
  (forall s, p s = true -> is_this org id s = true /\ s_container_id s = Some c) ->
  (forall s, row_ok s -> p s = true -> s_id (f s) = s_id s /\ row_ok (f s) /\ s_container_id (f s) = None
     /\ (executing_turn (f s) = true -> executing_turn s = true)) ->
  rows_move (if b then GaveUp id c else Silent) t (update p f t).
Proof.
  intros Hok Hnd Eb Hp Hf. left. exists (fun s => if p s then f s else s). split; [done|]. intros s Hin.
  rewrite List.Forall_forall in Hok. destruct (p s) eqn:E.
  - destruct (Hf s (Hok s Hin) E) as (Hid & Hok' & Hc & Hex). split; auto; rewrite Hc; done.
  - apply row_move_refl; [auto|]. intros c' Hev Hc. destruct b eqn:Hb; [|done]. injection Hev as -> ->.
    symmetry in Eb. apply Z.ltb_lt in Eb. assert (count_rows p t <> 0) as Hn by lia.
    assert (exists x, In x t /\ p x = true) as (x & Hx & Hpx).
    { destruct (exists_row p t) eqn:Er; [by apply exists_row_true in Er|]. by apply count_rows_0 in Er. }
    destruct (Hp x Hpx) as [Hthis _]. unfold is_this in Hthis. reflect_bools.
    assert (x = s) as -> by (by apply (map_key_inj s_id t)). congruence.
Qed.

Lemma elsewhere_move ev s s' : row_ok s -> row_elsewhere ev s s' -> row_move ev s s'.
Proof.
  unfold row_ok. intros Hok [Hid Hturn Hc Hg Hb]. split; try done.
  - unfold row_ok. destruct Hturn as [(-> & -> & _)|[-> ->]]; done.
  - unfold executing_turn. destruct Hturn as [(_ & -> & [->|Hne])|[_ ->]]; [auto|by rewrite bool_decide_eq_false_2|].
    by rewrite andb_false_r.
  - intros c Ec. destruct Hc as [Hc|[Hc|(c' & -> & Hc)]]; rewrite Hc in Ec; simplify_eq; auto.
Qed.

(** A write of no column of ours, or one that ends or claims a turn. *)
Ltac turn_write :=
  let s := fresh "s" in let Hs := fresh "Hs" in
  intros s ? Hs ?; apply turn_move; simpl; try done; first [exact Hs | unfold executing_turn; simpl; rewrite ?andb_false_r; by auto].

Lemma result_move now status summary s : row_ok s -> status <> SessionStatusRunning -> row_move Silent s (result_written now status summary s).
Proof.
  intros Hok Hs. unfold result_written. rewrite bool_decide_eq_false_2 by done.
  apply turn_move; try done; unfold executing_turn; by destruct status.
Qed.
Lemma status_move now status s : row_ok s -> row_move Silent s (status_written now status s).
Proof. intros Hok. apply turn_move; try done; unfold executing_turn; destruct status; simpl; by auto. Qed.

(** A container is offered where none is recorded. *)
Lemma offer_move id c s s' : row_ok s -> s_id s = id -> s_id s' = id -> s_status s' = s_status s ->
  s_runtime_soft_deadline_at s' = s_runtime_soft_deadline_at s -> s_runtime_hard_deadline_at s' = s_runtime_hard_deadline_at s ->
  s_container_id s' = Some (default c (s_container_id s)) -> row_move (Offered id c) s s'.
Proof.
  intros Hok <- Hid Hst Hs Hh Hc. split; try done.
  - unfold row_ok. by rewrite Hs, Hh.
  - unfold executing_turn. rewrite Hst, Hh. auto.
  - intros c'. rewrite Hc. destruct (s_container_id s); intros [= <-]; auto.
Qed.

Record table_ok (t : list Session) : Prop := {
  to_ids : List.NoDup (map s_id t);
  to_rows : Forall row_ok t
}.

(** Only an extension writes deadlines without a status: it needs one that is set. *)
Lemma extension_move soft hard n secs expected s : row_ok s -> s_status s = SessionStatusRunning -> s_runtime_soft_deadline_at s = Some expected ->
  row_move Silent s (s <| s_runtime_soft_deadline_at := Some soft |> <| s_runtime_hard_deadline_at := Some hard |>
                       <| s_runtime_extension_count := n |> <| s_runtime_extension_seconds := secs |>).
Proof.
  intros Hs Hrun Hset. apply turn_move; simpl; try done. intros _. left. unfold executing_turn. rewrite Hrun.
  destruct (s_runtime_hard_deadline_at s) eqn:E; [done|]. apply Hs in E. congruence.
Qed.
(** The two statements that give a container up. *)
Ltac gives_up := simpl; intros [= <- <-]; eapply (give_up_rows _ _ _); [done|done|done| |done];
  let s := fresh "s" in let Hp := fresh "Hp" in intros s Hp; unfold col_is in Hp; reflect_bools; by destruct (s_container_id s).
Lemma clear_rows now org id c preview db db' b : table_ok (sessions db) -> ClearContainerID now org id c preview db = (db', b) ->
  rows_move (if b then GaveUp id c else Silent) (sessions db) (sessions db').
Proof. intros [Hnd Hok]. unfold ClearContainerID. gives_up. Qed.
Lemma finalize_rows now org id c preview db db' b : table_ok (sessions db) -> FinalizeContainerDestroy now org id c preview db = (db', b) ->
  rows_move (if b then GaveUp id c else Silent) (sessions db) (sessions db').
Proof. intros [Hnd Hok]. unfold FinalizeContainerDestroy. gives_up. Qed.

Lemma op_rows db ev db' : table_ok (sessions db) -> session_op db ev db' -> rows_move ev (sessions db) (sessions db').
Proof.
  intros Ht Hop. pose proof (to_rows _ Ht) as Hok. destruct Hop; try solve [apply update_rows; [done|done|turn_write]].
  - eapply returning_rows; [exact H|done|done|]. intros x Hin Hx Hp. unfold is_live, is_this in Hp. reflect_bools. subst.
    apply turn_move; simpl; try done. by right.
  - apply update_rows; try done. intros s Hin Hs Hp. unfold is_live, col_is in Hp. reflect_bools. by eapply extension_move.
  - eapply returning_rows; [exact H|done|done|]. intros x _ Hx _. by apply status_move.
  - eapply returning_rows; [exact H0|done|done|]. intros x _ Hx _. by apply result_move.
  - unfold UpdateResultAndCompleteActivityPhase in H0. destruct (updateResultRow _ _ _ _ _ _) as [[d x]|] eqn:Er; [|done]. simpl in H0.
    destruct (completeActivityPhaseInTransaction _ _ _ _ _ _ _) as [[d' p]|] eqn:Ec; [|done]. injection H0 as <- _.
    rewrite (complete_sessions _ _ _ _ _ _ _ _ _ Ec). eapply returning_rows; [exact Er|done|done|]. intros y _ Hy _. by apply result_move.
  - unfold UpdateStatusAndCompleteActivityPhase in H. destruct (updateStatusRow _ _ _ _ _) as [[d x]|] eqn:Er; [|done]. simpl in H.
    destruct (completeActivityPhaseInTransaction _ _ _ _ _ _ _) as [[d' p]|] eqn:Ec; [|done]. injection H as <- _.
    rewrite (complete_sessions _ _ _ _ _ _ _ _ _ Ec). eapply returning_rows; [exact Er|done|done|]. intros y _ Hy _. by apply status_move.
  - unfold UpdateTurnCompleteAndCompleteActivityPhase in H. simpl in H. rewrite (complete_sessions _ _ _ _ _ _ _ _ _ H).
    apply update_rows; try done. turn_write.
  - eapply returning_rows; [exact H|done|done|]. turn_write.
  - eapply returning_rows; [exact H|done|done|]. turn_write.
  - unfold ResetForRetry in H. destruct (select _ _); [done|]. destruct (negb _); [done|]. injection H as <-.
    apply update_rows; try done. turn_write.
  - unfold MarkRunningWithSandboxState in H. destruct (returning _ _ _) as [[d x]|] eqn:Er; [|done]. injection H as <- _.
    eapply returning_rows; [exact Er|done|done|]. turn_write.
  - unfold AcquireTurnHold in H. destruct (returning _ _ _) as [[d x]|] eqn:Er; [|done]. injection H as <- _.
    eapply returning_rows; [exact Er|done|done|]. intros y _ Hy Hp. unfold is_this in Hp. reflect_bools.
    by apply offer_move.
  - unfold ReleaseTurnHold in H. destruct (returning _ _ _) as [[d x]|] eqn:Er; [|done]. injection H as <- _.
    eapply returning_rows; [exact Er|done|done|]. turn_write.
  - unfold PublishHydratedContainerID in H. destruct (returning _ _ _) as [[d x]|] eqn:Er; [|done]. injection H as <- _.
    eapply returning_rows; [exact Er|done|done|]. intros y _ Hy Hp. unfold is_this in Hp. reflect_bools.
    by apply offer_move.
  - unfold SetWorkerNodeIDForContainer in H. simpl in H. destruct (_ =? _); [done|]. injection H as <-. apply update_rows; try done. turn_write.
  - by eapply clear_rows.
  - by eapply finalize_rows.
  - unfold Archive in H. simpl in H. destruct (_ =? _); [done|]. injection H as <-. apply update_rows; try done. turn_write.
  - unfold Unarchive in H. simpl in H. destruct (_ =? _); [done|]. injection H as <-. apply update_rows; try done. turn_write.
  - unfold ClaimForAutomationTurn in H0. destruct (one_row _ _ _); [|done]. injection H0 as <- _. subst. apply update_rows; try done. turn_write.
  - unfold EndInterruptedAttempt in H0. repeat (case_match; [|]); try done; injection H0 as <- _; subst.
    + apply update_rows; try done. turn_write.
    + by apply same_rows.
  - rewrite H. apply update_rows; try done. turn_write.
  - right. split; [done|]. eexists. split; [exact H0|]. repeat split; try done; by destruct status.
  - left. exists g. split; [done|]. intros s Hin. rewrite List.Forall_forall in Hok. by apply elsewhere_move; auto.
  - rewrite H. by apply same_rows.
Qed.

(** ** Runs from an empty table *)

Lemma rows_ok ev t t' : table_ok t -> rows_move ev t t' -> table_ok t'.
Proof.
  intros [Hnd Hok] [(g & -> & Hg)|(_ & s & -> & Hs & Hrow & _)].
  - split; [|apply List.Forall_forall; intros x (s & <- & Hin)%in_map_iff; apply (Hg s Hin)].
    rewrite map_map. erewrite map_ext_in; [exact Hnd|]. intros s Hin. apply (Hg s Hin).
  - split; [|by apply Forall_app; auto]. rewrite map_app. simpl. apply List.NoDup_app; [done|repeat constructor; simpl; tauto|]. intros x Hx [<-|[]]. done.
Qed.
Lemma run_ok db l db' : sessions db = [] -> session_run db l db' -> table_ok (sessions db').
Proof.
  intros H0. induction 1 as [|l db1 ev db2 _ IH Hop].
  - rewrite H0. split; constructor.
  - eapply rows_ok; [exact IH|]. by apply op_rows.
Qed.

(** Where the row of a session comes from, across one statement. *)
Lemma row_origin ev t t' s' : table_ok t -> rows_move ev t t' -> In s' t' ->
  (exists s, In s t /\ row_move ev s s') \/ (executing_turn s' = false /\ s_container_id s' = None).
Proof.
  intros [_ Hok] [(g & -> & Hg)|(-> & s & -> & _ & _ & Hex & Hc)].
  - intros (s & <- & Hin)%in_map_iff. left. eauto.
  - intros [Hin|[<-|[]]]%in_app_or; [|by right]. left. exists s'. rewrite List.Forall_forall in Hok. split; [done|]. apply row_move_refl; auto.
Qed.

(** ** Turns *)

Definition executing_in (id : uuid) (db : DB) : Prop := exists s, In s (sessions db) /\ s_id s = id /\ executing_turn s = true.


(** ** A turn in one session *)

Definition db_new : DB := empty_db <| sessions := [inserted_session "s1" "org1" SessionStatusPending "codex" None None None t0] |>.
Definition no_session : Session := inserted_session "" "" SessionStatusPending "" None None None 0.
Definition db_holding : DB := (ok (empty_db, "") (AcquireTurnHold "org1" "s1" "c1" db_new)).1.
Definition db_turn : DB := (ok (empty_db, no_session) (BeginRuntime t0 "org1" "s1" (t0 + hour) (t0 + 2 * hour) t0 db_holding)).1.
Definition db_ended : DB := (updateTurnCompleteRow (t0 + second) "org1" "s1" 1 None "agent1" "snap1" db_turn).1.
Definition db_dropped : DB := (ok (empty_db, (false, "")) (ReleaseTurnHold (t0 + second) "org1" "s1" false db_ended)).1.
Definition db_gone : DB := (FinalizeContainerDestroy (t0 + second) "org1" "s1" "c1" false db_dropped).1.

Lemma run_turn : session_run empty_db [(Silent, db_new); (Offered "s1" "c1", db_holding); (Began "s1", db_turn)] db_turn.
Proof.
  apply (sr_snoc _ [(Silent, db_new); (Offered "s1" "c1", db_holding)] db_holding).
  - apply (sr_snoc _ [(Silent, db_new)] db_new).
    + apply (sr_snoc _ [] empty_db); [constructor|]. eapply so_insert; [|reflexivity]. simpl. tauto.
    + apply (so_acquire _ "org1" "s1" "c1" _ "c1"). by vm_compute.
  - eapply (so_begin _ t0 "org1" "s1"). unfold db_turn. vm_compute. reflexivity.
Qed.
Lemma run_gone : session_run empty_db [(Silent, db_new); (Offered "s1" "c1", db_holding); (Began "s1", db_turn); (Silent, db_ended);
  (Silent, db_dropped); (GaveUp "s1" "c1", db_gone)] db_gone.
Proof.
  apply (sr_snoc _ [(Silent, db_new); (Offered "s1" "c1", db_holding); (Began "s1", db_turn); (Silent, db_ended); (Silent, db_dropped)] db_dropped).
  - apply (sr_snoc _ [(Silent, db_new); (Offered "s1" "c1", db_holding); (Began "s1", db_turn); (Silent, db_ended)] db_ended).
    + apply (sr_snoc _ [(Silent, db_new); (Offered "s1" "c1", db_holding); (Began "s1", db_turn)] db_turn); [exact run_turn|apply so_turn].
    + apply (so_release _ (t0 + second) "org1" "s1" false _ (true, "c1")). by vm_compute.
  - apply (so_finalize _ (t0 + second) "org1" "s1" "c1" false _ true). by vm_compute.
Qed.


(** ** Containers *)

(** No caller offers a container it has seen given up: the container of an
    offer is one the caller has just created. *)
Definition fresh_offers (l : list (session_event * DB)) : Prop :=
  forall l1 id c db l2, l = (l1 ++ (Offered id c, db) :: l2)%list -> ~ In (GaveUp id c) (map fst l1).

Lemma fresh_offers_prefix l x : fresh_offers (l ++ [x]) -> fresh_offers l.
Proof. intros H l1 id c db l2 ->. apply (H l1 id c db (l2 ++ [x])%list). by rewrite <- app_assoc. Qed.
Lemma given_up_is_gone db l db' s c : sessions db = [] -> session_run db l db' -> fresh_offers l -> In s (sessions db') ->
  s_container_id s = Some c -> ~ In (GaveUp (s_id s) c) (map fst l).
Proof.
  intros H0 Hrun. revert s. induction Hrun as [|l db1 ev db2 Hrun IH Hop]; intros s Hfresh Hin Hc; [by rewrite H0 in Hin|].
  pose proof (run_ok _ _ _ H0 Hrun) as Ht.
  destruct (row_origin ev _ _ s Ht (op_rows _ _ _ Ht Hop) Hin) as [(s1 & Hin1 & Hm)|[_ ?]]; [|congruence].
  rewrite (rm_id _ _ _ Hm), map_app. intros [Hold|[Hev|[]]]%in_app_or; [|by apply (rm_gave_up _ _ _ Hm c)].
  destruct (rm_container _ _ _ Hm c Hc) as [Hc1|Hev].
  - by apply (IH s1 (fresh_offers_prefix _ _ Hfresh) Hin1 Hc1).
  - simpl in Hev. subst ev. by apply (Hfresh l (s_id s1) c db2 []).
Qed.

Lemma updating_none p f db : (forall s, In s (sessions db) -> p s = false) -> updating p f db = (db, 0) /\ select p (sessions db) = [].
Proof.
  intros Hp. assert (exists_row p (sessions db) = false) as He.
  { apply not_true_iff_false. intros (s & Hin & E)%exists_row_true. by rewrite Hp in E. }
  unfold updating. rewrite update_none by done. apply count_rows_0 in He. split; [rewrite He; by destruct db|].
  unfold count_rows in He. destruct (select p (sessions db)); [done|]. simpl in He. lia.
Qed.



(** ** The container of a turn *)

(** The container RunAgent created is held by the turn when it goes on, and
    otherwise it is destroyed, once, by the turn itself: whatever fails and
    whatever others write between its calls, no created container is left
    behind without a row that records it. *)
Theorem created_container_is_held_or_destroyed IsAlive failRun fault meanwhile now preview org id prepared sandbox db :
  Forall (fun s => s_container_id s <> Some "") (sessions (meanwhile CallAcquire db)) -> sandbox <> "" ->
  let '(db', destroyed, r) := hold_created IsAlive failRun fault meanwhile now preview org id prepared sandbox db in
  (r = Ok tt /\ destroyed = []
     /\ exists s, In s (sessions db') /\ s_id s = id /\ s_container_id s = Some sandbox /\ s_turn_holding_container s = true)
  \/ (exists e, r = Err e) /\ destroyed = [sandbox].
Proof.
  intros Hnamed Hsb. unfold hold_created, run_call, attempt.
  destruct prepared as [[]|e]; [|right; eauto].
  destruct (AcquireTurnHold org id sandbox (meanwhile CallAcquire db)) as [[db1 actual]|e] eqn:Ea; [|destruct (fault CallAcquire) as [[]|]; right; eauto].
  destruct (fault CallAcquire) as [[]|]; [right; eauto..|].
  destruct (_ && _) eqn:Elost; [destruct (diagnoseAcquireHoldRaceLoss _ _ _ _ _ _ _ _ _) as [db2 why]; right; eauto|].
  left. split; [done|]. split; [done|]. unfold AcquireTurnHold, returning in Ea.
  destruct (select _ _) as [|s l] eqn:Es; [done|]. injection Ea as <- <-.
  assert (In s (select (is_this org id) (sessions (meanwhile CallAcquire db)))) as Hin by (rewrite Es; by left).
  apply in_filter_iff in Hin as [Hin Hthis]. rewrite List.Forall_forall in Hnamed. specialize (Hnamed s Hin). simpl in Elost.
  assert (default sandbox (s_container_id s) = sandbox) as Hc.
  { apply andb_false_iff in Elost. destruct (s_container_id s) as [c|]; [|done]. simpl in *. destruct Elost; reflect_bools; congruence. }
  eexists. split; [apply in_update; exists s; split; [done|left; split; [done|reflexivity]]|].
  unfold is_this in Hthis. reflect_bools. simpl. split; [done|]. rewrite Hc. split; [done|].
  destruct (s_container_id s) as [c|]; simpl in *; [|done]. subst. unfold col_is. by rewrite bool_decide_eq_true_2.
Qed.

(** What FinalizeContainerDestroy saw when it reported that it cleared. *)
Lemma finalized now org id c preview db : (FinalizeContainerDestroy now org id c preview db).2 = true ->
  exists s, In s (sessions db) /\ is_this org id s = true /\ s_container_id s = Some c /\ s_turn_holding_container s = false
    /\ preview = false /\ sandbox_holds now org id db = false.
Proof.
  unfold FinalizeContainerDestroy, updating. simpl. intros Hn%Z.ltb_lt.
  match type of Hn with 0 < count_rows ?p ?t => destruct (exists_row p t) eqn:E end; [|apply count_rows_0 in E; lia].
  apply exists_row_true in E as (s & Hin & Hp). unfold col_is in Hp. rewrite !andb_true_iff, !negb_true_iff in Hp.
  destruct Hp as ((((Ht & Hc) & Hh) & Hpr) & Hsb). apply bool_decide_eq_true in Hc. eauto 10.
Qed.

(** The end of a turn calls Destroy on nothing but its own sandbox, at most
    once, and only when the row recorded a container that no turn, preview or
    sandbox holder held at that instant, whatever failed before and whatever
    others wrote since the release. *)
Theorem destroyed_container_was_free fault now preview org id turn between sandbox d :
  let seen := plane (between (release_hold fault now preview org id turn d).1) in
  let destroyed := (end_container fault now preview org id turn between sandbox d).2 in
  destroyed = [] \/ destroyed = [sandbox] /\ exists s, In s (sessions seen) /\ is_this org id s = true
    /\ is_Some (s_container_id s) /\ s_turn_holding_container s = false /\ preview CallFinalize = false
    /\ sandbox_holds (now CallFinalize) org id seen = false.
Proof.
  unfold end_container. destruct (release_hold _ _ _ _ _ _ _) as [d1 released]. simpl.
  destruct (match released with Ok r => r | Err _ => (true, true, "") end) as [[owned destroyNow] releasedID].
  destruct owned; [|by left]. destruct destroyNow; [|by left]. cbn [negb].
  match goal with |- context [FinalizeContainerDestroy ?n ?o ?i ?c ?p ?b] => pose proof (finalized n o i c p b) as Hf;
    destruct (FinalizeContainerDestroy n o i c p b) as [db2 cleared] end.
  unfold attempt. destruct (fault CallFinalize) as [[]|]; [by left..|]. destruct cleared; [|by left].
  right. split; [done|]. destruct Hf as (s & Hin & Ht & Hc & Hh & Hp & Hsb); [done|]. exists s. rewrite Hc. eauto 10.
Qed.

(** A turn of an automation whose attempt is no longer its own leaves the hold
    and the container to the turn that has them. *)
Theorem fenced_turn_keeps_the_container fault now preview org id run tok between sandbox d :
  LockAttempt org run tok d = Ok false -> fault CallRelease = None ->
  end_container fault now preview org id (Some (run, tok)) between sandbox d = (d, []).
Proof. intros Hl Hf. unfold end_container, release_hold, TurnStore_ReleaseTurnHold. by rewrite Hl, Hf. Qed.

(** When the release fails without effect, the flag the turn set is still on
    the row, and the guard of FinalizeContainerDestroy refuses: the container
    stays, recorded and held, although RunAgent announces that it destroys it
    anyway. *)
Theorem failed_release_destroys_nothing fault now preview org id turn between sandbox d s :
  fault CallRelease = Some NoEffect -> List.NoDup (map s_id (sessions (plane (between d)))) ->
  In s (sessions (plane (between d))) -> s_id s = id -> s_turn_holding_container s = true ->
  end_container fault now preview org id turn between sandbox d = (between d, []).
Proof.
  intros Hf Hnd Hin Hid Hhold. unfold end_container, release_hold.
  assert (forall c p, FinalizeContainerDestroy (now CallFinalize) org id c p (plane (between d)) = (plane (between d), false)) as Hfin.
  { intros c p. unfold FinalizeContainerDestroy. edestruct updating_none as [-> _]; [|done]. intros x Hx. apply not_true_iff_false.
    rewrite !andb_true_iff, !negb_true_iff. intros ((((Ht & _) & Hh) & _) & _). unfold is_this in Ht. reflect_bools.
    assert (x = s) as -> by (apply (map_key_inj s_id _ _ _ Hnd); congruence). congruence. }
  unfold attempt. rewrite Hf. destruct turn as [[run tok]|]; cbn -[FinalizeContainerDestroy]; rewrite Hfin;
    destruct (fault CallFinalize) as [[]|]; simpl; by destruct (between d).
Qed.

(** A statement on the row of a session finds it. *)
Lemma returning_row f org id db s : List.NoDup (map s_id (sessions db)) -> In s (sessions db) -> is_this org id s = true ->
  (forall s, s_id (f s) = s_id s) ->
  exists db', returning (is_this org id) f db = Ok (db', f s) /\ List.NoDup (map s_id (sessions db')) /\ In (f s) (sessions db')
    /\ session_sandbox_holders db' = session_sandbox_holders db.
Proof.
  intros Hnd Hin Hthis Hf. unfold returning. destruct (select (is_this org id) (sessions db)) as [|x l] eqn:E.
  { assert (In s []) as [] by (rewrite <- E; by apply in_filter_iff). }
  assert (In x (select (is_this org id) (sessions db))) as Hx by (rewrite E; by left). apply in_filter_iff in Hx as [Hx Hxt].
  assert (x = s) as ->.
  { unfold is_this in *. reflect_bools. apply (map_key_inj s_id _ _ _ Hnd); congruence. }
  eexists. split; [done|]. simpl. split; [by rewrite update_key|]. split; [apply in_update; eauto|done].
Qed.

(** The hold is one flag for the session, and its release asks for no holder:
    a turn that lost the race for the container drops, by releasing, the hold
    of the turn that won it, and the winner's container passes for free. *)
Theorem losing_turn_can_drop_the_winners_hold now org id c1 c2 db s : List.NoDup (map s_id (sessions db)) ->
  In s (sessions db) -> is_this org id s = true -> s_container_id s = Some c1 -> s_turn_holding_container s = true ->
  c1 <> "" -> c2 <> c1 -> sandbox_holds now org id db = false ->
  exists db1 db2, AcquireTurnHold org id c2 db = Ok (db1, c1) /\ ReleaseTurnHold now org id false db1 = Ok (db2, (true, c1))
    /\ (FinalizeContainerDestroy now org id c1 false db2).2 = true.
Proof.
  intros Hnd Hin Hthis Hc Hhold Hne Hlost Hfree. unfold AcquireTurnHold.
  destruct (returning_row (fun s => s <| s_container_id := Some (default c2 (s_container_id s)) |>
    <| s_turn_holding_container := if is_null (s_container_id s) || col_is (s_container_id s) c2 then true else s_turn_holding_container s |>)
    org id db s Hnd Hin Hthis) as (db1 & -> & Hnd1 & Hin1 & Hh1); [done|].
  destruct (returning_row (fun s => s <| s_turn_holding_container := false |>) org id db1 _ Hnd1 Hin1) as (db2 & E2 & Hnd2 & Hin2 & Hh2); [done..|].
  exists db1, db2. simpl. rewrite Hc. split; [done|]. unfold ReleaseTurnHold. rewrite E2. simpl. rewrite Hc. simpl.
  assert (sandbox_holds now org id db2 = false) as Hs2 by (unfold sandbox_holds in *; congruence).
  rewrite Hs2, bool_decide_eq_false_2 by done. split; [done|].
  unfold FinalizeContainerDestroy, updating. simpl. apply Z.ltb_lt. eapply count_rows_pos; [exact Hin2|].
  simpl. rewrite Hc. unfold is_this in *. simpl. rewrite Hthis. unfold col_is. by rewrite bool_decide_eq_true_2.
Qed.
